(* ===== verification/_CoqProject ===== *)
-Q . S2P
Prelude.v
ByteQueue.v
LineBuf.v
RecBuf.v
Bytes.v
Tea.v
Base64.v
DList.v
StaticAlloc.v
NodeMgr.v
Str.v
Handle.v
MsgEntry.v
Packet.v
TcpNode.v
NetUi.v
Timer.v
Float32.v
Vm.v
Asm.v
Formula.v
Expr.v
ExprCode.v
ExprWalk.v
ExprParse.v
RbTree.v
RbHeap.v
RbInsert.v
RbErase.v
RbWalk.v
HandleTree.v
MemChunk.v
MemSub.v
MemPool.v
MemPoolInv.v
MemHeap.v
XmlText.v
XmlParse.v
XmlWrite.v
XmlAttr.v
XmlRound.v
XmlLoad.v
UdtPacket.v
UdtNode.v
UdtFlow.v
UdtOpen.v
UdtStream.v
UdtRecv.v
UdtNet.v
UdtFault.v
ProtoStream.v
ProtoRound.v
ProtoSafe.v
VarType.v
VarRound.v
ProtoReads.v
