(* ===== verification/Prelude.v ===== *)
(** * A verification of ndnetsdk

    ndnetsdk is a C framework for game servers and their clients: connections that
    carry framed, optionally encrypted messages over TCP or a reliable protocol on UDP,
    tables that dispatch the messages to handlers, and the containers, timers and object base all of it stands on.  This
    development models the C library (src/src/nd_common, nd_crypt, nd_net, nd_vm, a part of
    nd_srvcore, and their headers in src/include) with the message streams of the C++ library
    (src/src/ndapplib), and proves what makes its parts correct.

    ** The program and its parts

    Bytes arrive at a TCP connector (nd_tcp.c) in a linear buffer (recbuf.c).  The framing
    (nd_netobj.c, nd_netui.c) cuts packets off it, answers the system packets, decrypts
    the rest (nd_netpack.h, ndcrypt.c over tea.c) and hands each message to the message
    table (nd_msgentry.c), which looks up a handler by group and number and checks
    privileges.  In C++ the values of a message are written and read as a tagged stream
    (nd_protoStream.cpp, nd_msgpack.cpp), one by one or as variables (nd_vartype.cpp).
    Sending goes the other way through the connector's send buffer.  UDT
    (udt_socket.c, udt_net.c) gives the same stream over datagrams (nd_udp.c), with
    sequence numbers, acknowledgements, a window and retransmission; many sessions share
    the socket of a listener (udt_srv.c, udp_listen.c).  A server
    keeps its connections in a node table (node_mgr.c) that threads lock node by node;
    nodes come from fixed-size blocks (nd_static_alloc.c).  Every object begins with the
    object base (nd_handle.c), whose debug build keeps all live handles in a red-black
    tree (bintree.c).  Timers (nd_timer.c), string functions (nd_str.c) and intrusive
    lists (list.h) serve all of them.  Memory comes from pools (nd_mempool.c), which cut the
    pages of the system into blocks.  Configuration is read from and saved to XML
    (nd_xml.c).  nd_vm is a small virtual machine with an assembler
    and a compiler of arithmetic formulas.

    ** The files

    - Prelude: machine integers ([u8] ... [s32]: the value a C conversion gives), lists
      with [Z] lengths, case-analysis tactics, hint databases.
    - ByteQueue: the class of byte buffers (write a block or fail, read a block or fail)
      and [bq_run_fifo], proved once against it.  LineBuf and RecBuf (recbuf.c,
      nd_recbuf.h) are its instances.
    - Bytes: little-endian words.  Tea, Base64 (tea.c, ndcrypt.c).
    - DList (list.h): rings in a heap of list heads, and the sequences they represent.
      The later files that use lists work with those sequences.
    - StaticAlloc (nd_static_alloc.c), on the heap of DList.
    - NodeMgr (node_mgr.c): module [Seq] has one definition per operation, module [Conc]
      a step relation for threads that interleave inside accept and deaccept.
    - Str (nd_str.c): a pointer into a string is the list of the bytes from it on.
    - Handle, HandleTree (nd_handle.c): the object base of the release build; the registry
      of handles of the debug build, over the tree.
    - MsgEntry (nd_msgentry.c).  Packet (nd_netpack.h, nd_netcrypt.h): packets and the class
      [NetCipher], which Tea discharges.  TcpNode (nd_tcp.c) over LineBuf and a scripted
      operating system.  NetUi (nd_netui.c, nd_netobj.c) over Packet and TcpNode.
    - Timer (nd_timer.c).
    - Float32, Vm (nd_vm.c), Asm (nd_asm.c), Formula (nd_formula.c): the machine, its
      assembler and the formula compiler; Expr, ExprCode, ExprWalk, ExprParse: a
      reference language of expressions and the correctness of the compiler.
    - RbTree (bintree.c, nd_bintree.h): every operation of the tree on a heap of nodes.
      RbHeap: which heaps hold which trees, and a small program logic ([wp]).  RbInsert,
      RbErase, RbWalk: the operations are correct.
    - MemChunk (nd_mempool.c): sub-allocators of the memory pool, on a memory of 8-byte words, and
      blocks that tile a region.  MemSub: their invariant and operations.  MemPool: pools
      and the pages of the system.  MemPoolInv: regions stay apart.  MemHeap: the heap a
      pool implements.
    - XmlText, XmlParse, XmlWrite (nd_xml.c): the readers and writers of entities and values, the
      parser, the two printers; a node is a value with the lists of its attributes and
      children.  XmlAttr: the table of attributes.  XmlRound: what the printers write is read
      back.  XmlLoad: whole documents, with declaration and encodings.

    - UdtPacket (nd_udthdr.h): packets in a memory of bytes, byte order, checksum.  UdtNode
      (udt_socket.c, udt_net.c, udt_srv.c, nd_udp.c, a part of udp_listen.c): the connector and every
      operation on it, in a monad over the connector and a scripted operating system.
      UdtFlow: a program logic for that monad ([wlp], [uwp]).  UdtOpen: the handshake.
      UdtStream, UdtRecv: the invariant of a connector that sends or receives, and that the
      operations keep it.  UdtNet: two connectors and a network as a step relation.
      UdtFault: what goes wrong.
    - ProtoStream (nd_protoStream.cpp, nd_protoStream.h, nd_msgpack.cpp, nd_netbyte.h): the
      streams that write and read values, the messages built on them; the virtual function
      [onWriteStream] is a class.  ProtoRound: the encoding of values, and that writing and
      reading follow it, for a message and for any other stream.  ProtoSafe: bounds and
      failed writes.  VarType (nd_vartype.cpp): variables.  VarRound: copying and sending them.
      ProtoReads: any sequence of reads.

    Operations have the names of the C functions; a C structure is a record of the same
    name, or of the name its file comment gives.  Loops of a function are separate
    fixpoints named after it.

    ** Conventions

    An access outside a block, a memcpy between places that overlap, a NULL or wild pointer
    followed, or other undefined behaviour is [None]; the C functions' own failures are the values they return.  What
    is not under src/ (the socket API, malloc, the clock, handlers and callbacks reached
    through pointers) is an argument: a record of scripted answers ([TcpNode.net], [UdtNode.unet]), a flag
    ([malloc_ok]), a class ([Prelude.Malloc]) or a function ([run]); callbacks may
    change the state they are given.  Machine words are little-endian, char is signed, a
    pointer into a block is an offset, and node addresses of trees are multiples of 4.

    ** What is proved

    - Byte queues: the buffers are first-in-first-out queues under any disciplined script;
      the exact conditions under which the linear buffer writes past its end, or copies its
      data over themselves (then nothing is defined: it never does while the data end in
      the first half of the block).
    - Cipher and text: decryption undoes encryption on any bytes with the documented
      padding; Base64 round trip.
    - Network: a sent message arrives unchanged ([NetUi.send_fetch_roundtrip]); the bytes a
      connector sends are a stream without loss or reordering whatever the socket takes
      ([TcpNode.tcp_stream]), as long as the send buffer does not copy its data over
      themselves; the stall, the overflow and the overlapping copies of the buffers; what
      is sent in clear although encryption was asked for.
    - UDT: the handshake connects both sides ([UdtNet.udt_handshake]); from there on, over a
      network that loses, repeats and reorders datagrams, what one side reads is a prefix of
      what the other has written and nothing is dropped before the peer has it
      ([UdtNet.udt_stream_delivery]); the theorem is for a stream in one direction of less than
      2^31 bytes, before a FIN; each operation of a connector is one step, and one that is
      undefined (an acknowledgement that moves the send buffer over itself) ends the run.
      UdtFault shows why: data in both directions, a FIN that overtakes data and sequence
      numbers that wrap around break the stream.  Packets round trip, and the checksum
      detects every single wrong byte.
    - Messages in C++: values written to a message are read back by the receiver
      ([ProtoRound.proto_message_roundtrip]); reading any bytes stays inside them, except for
      two reads that have no defined result ([ProtoReads.proto_reads_inside]); a write that fails leaves its marker behind; the end of a
      structure is found behind values the reader does not know; variables are copied (except blocks)
      and sent unchanged.
    - Dispatch: the message table implements the privilege rules, installation changes one
      slot, no sequence of operations leaves the table.
    - Node table: invariants of all disciplined histories, exclusive slots under
      interleaving, exact iteration.
    - Lists, fixed-size blocks, timers, objects: refinement of sequences; no double
      allocation; exactly the due timers fire; creation and destruction.
    - Red-black tree: insertion and erasure keep the red-black invariant and change the
      in-order sequence by exactly the node; next and previous are its neighbours; the
      handle registry refines the list of registered objects while ids are below 2^31.
    - Pool allocator: allocation, release, reallocation and the users' writes implement a heap of
      separate blocks ([MemHeap.Heap.pool_refines_heap]); requests within the capacity are
      always served; the walk finds each block in use once; pools of some sizes serve nothing.
    - XML: the parser terminates on every text (no loop uses up its fuel, whatever it would
      give then: the class [Str.Spent]); values fit the block computed for them; a
      node printed to a buffer, or a document saved to a file, is read back unchanged for every
      well-formed tree; attributes of up to 65531 bytes form a table; the inputs on which the parser crashes or
      loading never ends.
    - Virtual machine: code that passes a static check stays inside the stack and memory;
      binary and text forms read back; the formula compiler is correct for every
      well-formed expression, groups chains of operators as stated, and diverges on one
      class of malformed input.

    Theorems that describe a defect state exactly what the code does; the manifest lists
    them as findings.

    ** Fuel

    Loops that are not structural take fuel; every theorem states how much is enough.
    tean takes |N| iterations ([Tea.tean_steps]).  Walks of the node table and of lists
    take their length.  The loops of the red-black tree take at most 2 log2 (n+1) + 1 rounds
    for n nodes ([RbInsert.rbt_height_log]).  The mutually recursive walk of the formula
    compiler is stated for every large enough fuel ([ExprWalk.ev]), with a theorem that it
    diverges where it does.  The walk of a sub-allocator takes one step per 16 bytes of
    its region at most, the search for pages halves a size.  The XML parser takes 2 n + 1
    calls and rounds on a text of n bytes ([XmlParse.xml_parse_terminates]), loading one
    round per top-level node and one more.  UDT: flushing sends at least one byte of the
    send buffer a round, waiting takes one round per 50 ms of the time-out, reading packets one
    per datagram in the script, connecting sends three SYNs.  Message streams: a round of the
    loops over markers and values reads a byte ([ProtoSafe.read_marker_runs]).  The virtual machine runs at most one step per byte of code,
    since it has no jumps.

    ** Not modelled

    Vendored code (cJSON, the RSAREF files), wrappers of the operating system (threads,
    files, time, iconv, logging), the rest of nd_srvcore, the rest of the C++ layers (ndapplib, ndclient) and the demos.  Of
    the modelled files: recording of traffic to files, logging, ioctl, the UDT branches of
    nd_netui.c, the console debugger of nd_vm, the guard bytes and statistics of the memory
    checks in nd_mempool.c, the error log of nd_xml.c and its operations that move nodes
    between trees, proxies and the release of sessions (release_dead_node) of UDT, the text dumps
    of message streams and the conversion of variables to texts (both print with snprintf), and the parts of
    nd_msgpack.cpp that are switched off with #if 0.

    ** Plan

    Moving nodes between XML trees, sessions and the thread message queue of nd_srvcore, the
    HTTP parser of ndapplib. *)

From Stdlib Require Export ZArith Lia Bool.
From stdpp Require Export base list option numbers gmap.
From stdpp Require Import tactics.

#[export] Set Default Goal Selector "!".
Global Open Scope Z_scope.

(** ** Machine integers

    A C integer is a [Z]; the places where the code converts or overflows are
    written out with the two functions below. *)

Definition wrapu (w z : Z) : Z := z mod 2 ^ w.
Definition wraps (w z : Z) : Z := (z + 2 ^ (w - 1)) mod 2 ^ w - 2 ^ (w - 1).

Declare Scope c_scope.
Delimit Scope c_scope with c.
Notation "'u8' z" := (wrapu 8 z) (at level 9, z at level 8) : c_scope.
Notation "'u16' z" := (wrapu 16 z) (at level 9, z at level 8) : c_scope.
Notation "'u32' z" := (wrapu 32 z) (at level 9, z at level 8) : c_scope.
Notation "'u64' z" := (wrapu 64 z) (at level 9, z at level 8) : c_scope.
Notation "'s8' z" := (wraps 8 z) (at level 9, z at level 8) : c_scope.
Notation "'s16' z" := (wraps 16 z) (at level 9, z at level 8) : c_scope.
Notation "'s32' z" := (wraps 32 z) (at level 9, z at level 8) : c_scope.
Global Open Scope c_scope.

Create HintDb cint.

Lemma wrapu_range w z : 0 <= w -> 0 <= wrapu w z < 2 ^ w.
Proof. intros Hw. apply Z.mod_pos_bound, Z.pow_pos_nonneg; lia. Qed.

Lemma wrapu_small w z : 0 <= z < 2 ^ w -> wrapu w z = z.
Proof. apply Z.mod_small. Qed.

Lemma wraps_small w z : - 2 ^ (w - 1) <= z < 2 ^ (w - 1) -> 0 < w -> wraps w z = z.
Proof.
  intros Hz Hw. unfold wraps. rewrite Z.mod_small; [lia|].
  replace (2 ^ w) with (2 * 2 ^ (w - 1)); [lia|].
  rewrite <- Z.pow_succ_r; [f_equal; lia | lia].
Qed.

Lemma wrapu_wrapu w z : 0 <= w -> wrapu w (wrapu w z) = wrapu w z.
Proof. intros Hw. apply wrapu_small, wrapu_range, Hw. Qed.

Lemma wrapu_add_l w a b : 0 <= w -> wrapu w (wrapu w a + b) = wrapu w (a + b).
Proof.
  intros Hw. unfold wrapu. pose proof (Z.pow_pos_nonneg 2 w).
  rewrite Zplus_mod_idemp_l; lia.
Qed.

Lemma wrapu_add_r w a b : 0 <= w -> wrapu w (a + wrapu w b) = wrapu w (a + b).
Proof. intros Hw. rewrite Z.add_comm, wrapu_add_l, Z.add_comm; done. Qed.

Lemma wrapu_sub_l w a b : 0 <= w -> wrapu w (wrapu w a - b) = wrapu w (a - b).
Proof. intros Hw. unfold wrapu. apply Zminus_mod_idemp_l. Qed.

Lemma wrapu_sub_r w a b : 0 <= w -> wrapu w (a - wrapu w b) = wrapu w (a - b).
Proof. intros Hw. unfold wrapu. apply Zminus_mod_idemp_r. Qed.

(** [wrap_lia] removes the wraps whose argument is in range and calls [lia]. *)
Ltac unwrap_in_range :=
  repeat match goal with
  | |- context [wrapu ?w ?z] => rewrite (wrapu_small w z) by lia
  | H : context [wrapu ?w ?z] |- _ => rewrite (wrapu_small w z) in H by lia
  | |- context [wraps ?w ?z] => rewrite (wraps_small w z) by lia
  | H : context [wraps ?w ?z] |- _ => rewrite (wraps_small w z) in H by lia
  end.
Ltac wrap_lia := unwrap_in_range; lia.

(** Disjoint bit fields: or is addition. *)
Lemma lor_add n k d : 0 <= n -> 0 <= d < 2 ^ n -> Z.lor (k * 2 ^ n) d = k * 2 ^ n + d.
Proof.
  intros Hn Hd. assert (Z.land (k * 2 ^ n) d = 0) as E.
  { apply Z.bits_inj'. intros i Hi. rewrite Z.land_spec, Z.bits_0.
    destruct (Z.lt_ge_cases i n); [by rewrite Z.mul_pow2_bits_low by lia|].
    replace (Z.testbit d i) with false; [apply andb_false_r|].
    destruct (Z.eq_dec d 0) as [->|]; [by rewrite Z.bits_0|].
    symmetry. apply Z.bits_above_log2; [lia|]. enough (Z.log2 d < n) by lia.
    apply Z.log2_lt_pow2; lia. }
  rewrite <- Z.lxor_lor by done. by rewrite Z.add_nocarry_lxor.
Qed.

(** For goals that hold, or whose hypotheses are contradictory, by arithmetic. *)
Ltac arith := intros; first [lia | exfalso; lia].

(** [bcase] splits on the condition of the outermost [if] of the goal, one
    comparison at a time; [bcase_in H] does the same in a hypothesis. *)
Ltac bcase_on c :=
  lazymatch c with
  | ?a <? ?b => destruct (Z.ltb_spec a b)
  | ?a <=? ?b => destruct (Z.leb_spec a b)
  | ?a =? ?b => destruct (Z.eqb_spec a b)
  | negb ?x => bcase_on x
  | andb ?x _ => bcase_on x
  | orb ?x _ => bcase_on x
  | _ => let E := fresh "Eb" in destruct c eqn:E
  end.
Ltac bcase :=
  match goal with |- context [if ?c then _ else _] => bcase_on c end;
  cbn [negb andb orb].
Ltac bcase_in H :=
  match type of H with context [if ?c then _ else _] => bcase_on c end;
  cbn [negb andb orb] in H.

(** ** Lists with [Z] lengths and offsets *)

Definition zlen {A} (l : list A) : Z := Z.of_nat (length l).

(** The [n] elements of [l] from offset [off]. *)
Definition slice {A} (off n : Z) (l : list A) : list A :=
  take (Z.to_nat n) (drop (Z.to_nat off) l).

Definition zrepeat {A} (x : A) (n : Z) : list A := repeat x (Z.to_nat n).

Create HintDb zlist.
Create Rewrite HintDb zlist.

Lemma zlen_nonneg {A} (l : list A) : 0 <= zlen l.
Proof. unfold zlen. lia. Qed.
#[export] Hint Resolve zlen_nonneg : zlist.

Lemma zlen_nil {A} : zlen (@nil A) = 0.
Proof. done. Qed.
Lemma zlen_cons {A} (x : A) l : zlen (x :: l) = 1 + zlen l.
Proof. unfold zlen. simpl. lia. Qed.
Lemma zlen_app {A} (l1 l2 : list A) : zlen (l1 ++ l2) = zlen l1 + zlen l2.
Proof. unfold zlen. rewrite length_app. lia. Qed.
Lemma zlen_repeat {A} (x : A) n : 0 <= n -> zlen (zrepeat x n) = n.
Proof. intros. unfold zlen, zrepeat. rewrite repeat_length. lia. Qed.
Lemma zlen_slice {A} off n (l : list A) :
  0 <= off -> 0 <= n -> off + n <= zlen l -> zlen (slice off n l) = n.
Proof. intros. unfold zlen, slice in *. rewrite length_take, length_drop. lia. Qed.
Lemma zlen_insert {A} i (x : A) l : zlen (<[i:=x]> l) = zlen l.
Proof. unfold zlen. by rewrite length_insert. Qed.
#[export] Hint Rewrite @zlen_nil @zlen_cons @zlen_app @zlen_insert : zlist.

Lemma zlen_0_nil {A} (l : list A) : zlen l = 0 -> l = [].
Proof. destruct l; [done|]. rewrite zlen_cons. pose proof (zlen_nonneg l). lia. Qed.

(** [zlens] turns every [zlen] of a composite list into arithmetic and adds the
    non-negativity facts, so that [lia] can finish. *)
Ltac zlens :=
  repeat autorewrite with zlist in *;
  repeat match goal with
  | |- context [zlen ?l] => lazymatch goal with
      | H : 0 <= zlen l |- _ => fail | _ => pose proof (zlen_nonneg l) end
  | _ : context [zlen ?l] |- _ => lazymatch goal with
      | H : 0 <= zlen l |- _ => fail | _ => pose proof (zlen_nonneg l) end
  end.
Ltac zlia := zlens; lia.

Lemma slice_0 {A} off (l : list A) : slice off 0 l = [].
Proof. done. Qed.
Lemma slice_neg {A} off n (l : list A) : n <= 0 -> slice off n l = [].
Proof. intros. unfold slice. replace (Z.to_nat n) with 0%nat by lia. done. Qed.
Lemma slice_all {A} (l : list A) n : n = zlen l -> slice 0 n l = l.
Proof. intros ->. unfold slice, zlen. simpl. rewrite Nat2Z.id. apply firstn_all. Qed.

Lemma slice_split {A} off n m (l : list A) :
  0 <= off -> 0 <= n -> 0 <= m ->
  slice off (n + m) l = slice off n l ++ slice (off + n) m l.
Proof.
  intros. unfold slice.
  rewrite !Z2Nat.inj_add by lia.
  rewrite <- drop_drop. generalize (drop (Z.to_nat off) l). intros k.
  rewrite <- (take_drop (Z.to_nat n) k) at 1.
  destruct (decide (Z.to_nat n <= length k)%nat).
  - rewrite take_app_ge by (rewrite length_take; lia).
    rewrite length_take_le by lia. by rewrite Nat.add_sub_swap, Nat.sub_diag by lia.
  - rewrite (drop_ge k) by lia. rewrite take_nil, !app_nil_r.
    rewrite take_take. f_equal. lia.
Qed.

Lemma slice_app_l {A} off n (l1 l2 : list A) :
  0 <= off -> 0 <= n -> off + n <= zlen l1 -> slice off n (l1 ++ l2) = slice off n l1.
Proof.
  intros. unfold slice, zlen in *. rewrite drop_app_le by lia.
  rewrite take_app_le; [done|]. rewrite length_drop. lia.
Qed.

Lemma slice_app_r {A} off n (l1 l2 : list A) :
  zlen l1 <= off -> slice off n (l1 ++ l2) = slice (off - zlen l1) n l2.
Proof.
  intros. unfold slice, zlen in *. rewrite drop_app_ge by lia.
  do 2 f_equal. lia.
Qed.

Lemma slice_slice {A} o1 n1 o2 n2 (l : list A) :
  0 <= o1 -> 0 <= o2 -> 0 <= n2 -> o2 + n2 <= n1 ->
  slice o2 n2 (slice o1 n1 l) = slice (o1 + o2) n2 l.
Proof.
  intros. unfold slice. rewrite skipn_firstn_comm, take_take.
  rewrite drop_drop. f_equal; [lia|]. f_equal. lia.
Qed.

Lemma slice_cons {A} n (x : A) l : 0 < n -> slice 0 n (x :: l) = x :: slice 0 (n - 1) l.
Proof.
  intros. unfold slice. simpl.
  replace (Z.to_nat n) with (S (Z.to_nat (n - 1))) by lia. done.
Qed.

Lemma slice_insert_out {A} off n i (x : A) l :
  0 <= off -> (Z.of_nat i < off \/ off + n <= Z.of_nat i) ->
  slice off n (<[i:=x]> l) = slice off n l.
Proof.
  intros Ho H. unfold slice. destruct H.
  - rewrite drop_insert_lt by lia. done.
  - destruct (decide (n <= 0)).
    + replace (Z.to_nat n) with 0%nat by lia. done.
    + rewrite drop_insert_ge by lia. rewrite take_insert_ge by lia. done.
Qed.

Lemma Forall_zrepeat {A} (P : A -> Prop) x n : P x -> Forall P (zrepeat x n).
Proof. intros Hx. unfold zrepeat. induction (Z.to_nat n); simpl; auto. Qed.
Lemma Forall_slice {A} (P : A -> Prop) off n l : Forall P l -> Forall P (slice off n l).
Proof. intros. by apply Forall_take, Forall_drop. Qed.
#[export] Hint Resolve Forall_slice : zlist.

(** ** Byte memory

    A block of memory is the list of its bytes; a pointer into it is an offset.
    An access that is not inside the block is undefined behaviour in C and is
    [None] here. *)

Abbreviation mem := (list Z).

Definition in_range (off n size : Z) : bool :=
  (0 <=? off) && (0 <=? n) && (off + n <=? size).

(** [mread m off n]: what [memcpy(dst, m + off, n)] copies. *)
Definition mread (m : mem) (off n : Z) : option (list Z) :=
  if in_range off n (zlen m) then Some (slice off n m) else None.

(** [mwrite m off d]: the block after [memcpy(m + off, d, zlen d)]. *)
Definition mwrite (m : mem) (off : Z) (d : list Z) : option mem :=
  if in_range off (zlen d) (zlen m)
  then Some (slice 0 off m ++ d ++ slice (off + zlen d) (zlen m - (off + zlen d)) m)
  else None.

Definition mget (m : mem) (off : Z) : option Z :=
  if in_range off 1 (zlen m) then m !! Z.to_nat off else None.
Definition mset (m : mem) (off b : Z) : option mem := mwrite m off [b].

Lemma in_range_spec off n size :
  in_range off n size = true <-> 0 <= off /\ 0 <= n /\ off + n <= size.
Proof. unfold in_range. rewrite !andb_true_iff, !Z.leb_le. tauto. Qed.

Lemma mread_ok m off n :
  0 <= off -> 0 <= n -> off + n <= zlen m -> mread m off n = Some (slice off n m).
Proof. intros. unfold mread. by rewrite (proj2 (in_range_spec _ _ _)). Qed.

Lemma mread_Some m off n d :
  mread m off n = Some d <->
  (0 <= off /\ 0 <= n /\ off + n <= zlen m) /\ d = slice off n m.
Proof.
  unfold mread. pose proof (in_range_spec off n (zlen m)).
  destruct (in_range _ _ _); naive_solver.
Qed.

Lemma mread_None m off n :
  mread m off n = None <-> ~ (0 <= off /\ 0 <= n /\ off + n <= zlen m).
Proof.
  unfold mread. pose proof (in_range_spec off n (zlen m)).
  destruct (in_range _ _ _); naive_solver.
Qed.

Lemma mwrite_ok m off d :
  0 <= off -> off + zlen d <= zlen m ->
  mwrite m off d =
  Some (slice 0 off m ++ d ++ slice (off + zlen d) (zlen m - (off + zlen d)) m).
Proof.
  intros. unfold mwrite. rewrite (proj2 (in_range_spec _ _ _)); [done|].
  pose proof (zlen_nonneg d). lia.
Qed.

Lemma mwrite_is_Some m off d :
  is_Some (mwrite m off d) <-> 0 <= off /\ off + zlen d <= zlen m.
Proof.
  unfold mwrite. pose proof (in_range_spec off (zlen d) (zlen m)).
  pose proof (zlen_nonneg d).
  destruct (in_range _ _ _).
  - split; [intros _; naive_solver|]. intros _. by eexists.
  - split; [by intros [? ?]|]. intros. naive_solver lia.
Qed.

Lemma mwrite_None m off d :
  mwrite m off d = None <-> ~ (0 <= off /\ off + zlen d <= zlen m).
Proof. rewrite <- mwrite_is_Some. apply eq_None_not_Some. Qed.

Lemma mwrite_inv m off d m' :
  mwrite m off d = Some m' ->
  0 <= off /\ off + zlen d <= zlen m /\
  m' = slice 0 off m ++ d ++ slice (off + zlen d) (zlen m - (off + zlen d)) m.
Proof.
  intros E. assert (is_Some (mwrite m off d)) as [? ?]%mwrite_is_Some by eauto.
  rewrite mwrite_ok in E by lia. by simplify_eq.
Qed.

Lemma zlen_mwrite m off d m' : mwrite m off d = Some m' -> zlen m' = zlen m.
Proof.
  intros (?&?&->)%mwrite_inv. rewrite !zlen_app.
  pose proof (zlen_nonneg d). rewrite !zlen_slice by lia. lia.
Qed.

Lemma slice_mwrite_same m off d m' :
  mwrite m off d = Some m' -> slice off (zlen d) m' = d.
Proof.
  intros (?&?&->)%mwrite_inv. pose proof (zlen_nonneg d).
  rewrite slice_app_r by (rewrite zlen_slice; lia).
  rewrite zlen_slice by lia. rewrite Z.sub_diag.
  rewrite slice_app_l by lia. by apply slice_all.
Qed.

Lemma slice_mwrite_before m off d m' o n :
  mwrite m off d = Some m' -> 0 <= o -> 0 <= n -> o + n <= off ->
  slice o n m' = slice o n m.
Proof.
  intros (?&?&->)%mwrite_inv ???. pose proof (zlen_nonneg d).
  rewrite slice_app_l by (rewrite ?zlen_slice; lia).
  rewrite slice_slice by lia. done.
Qed.

Lemma slice_mwrite_after m off d m' o n :
  mwrite m off d = Some m' -> off + zlen d <= o -> 0 <= n -> o + n <= zlen m ->
  slice o n m' = slice o n m.
Proof.
  intros (?&?&->)%mwrite_inv ???. pose proof (zlen_nonneg d).
  rewrite slice_app_r by (rewrite ?zlen_slice; lia). rewrite zlen_slice by lia.
  rewrite slice_app_r by lia. rewrite slice_slice by lia. f_equal. lia.
Qed.

Lemma mwrite_ex m off d :
  0 <= off -> off + zlen d <= zlen m ->
  exists m', mwrite m off d = Some m' /\ zlen m' = zlen m.
Proof.
  intros. assert (is_Some (mwrite m off d)) as [m' E] by (apply mwrite_is_Some; lia).
  exists m'. split; [done|]. by eapply zlen_mwrite.
Qed.

Lemma mset_ex m off b :
  0 <= off < zlen m -> exists m', mset m off b = Some m' /\ zlen m' = zlen m.
Proof. intros. apply mwrite_ex; rewrite ?zlen_cons, ?zlen_nil; lia. Qed.

Lemma mset_head b t x : mset (b :: t) 0 x = Some (x :: t).
Proof.
  unfold mset. rewrite mwrite_ok; [|lia|unfold zlen; simpl; lia].
  f_equal. rewrite slice_0. change (zlen [x]) with 1. simpl. f_equal.
  unfold slice, zlen. simpl length. change (drop (Z.to_nat (0 + 1)) (b :: t)) with t.
  rewrite take_ge; [done|lia].
Qed.

Lemma slice_mset_before m off b m' o n :
  mset m off b = Some m' -> 0 <= o -> 0 <= n -> o + n <= off -> slice o n m' = slice o n m.
Proof. apply slice_mwrite_before. Qed.

(** The bytes before the end of a write at the end of a slice: append. *)
Lemma slice_mwrite_append m off d m' o :
  mwrite m off d = Some m' -> 0 <= o <= off ->
  slice o (off - o + zlen d) m' = slice o (off - o) m ++ d.
Proof.
  intros H ?. pose proof (zlen_nonneg d).
  rewrite slice_split by lia.
  rewrite (slice_mwrite_before _ _ _ _ _ _ H) by lia.
  replace (o + (off - o)) with off by lia.
  by rewrite (slice_mwrite_same _ _ _ _ H).
Qed.

(** Two adjacent writes are one. *)
Lemma mwrite_adjacent m off d1 d2 m1 :
  mwrite m off d1 = Some m1 -> off + zlen d1 + zlen d2 <= zlen m ->
  mwrite m1 (off + zlen d1) d2 = mwrite m off (d1 ++ d2).
Proof.
  intros E Hl. pose proof (zlen_nonneg d1). pose proof (zlen_nonneg d2).
  pose proof (zlen_mwrite _ _ _ _ E) as L1.
  pose proof (slice_mwrite_append _ _ _ _ 0 E) as Ha.
  pose proof (slice_mwrite_after _ _ _ _ (off + zlen d1 + zlen d2)
    (zlen m - (off + zlen d1 + zlen d2)) E) as Hr.
  apply mwrite_inv in E as (?&?&_).
  rewrite !mwrite_ok by (rewrite ?zlen_app; lia). f_equal.
  rewrite L1, Hr, zlen_app, Z.add_assoc by lia.
  rewrite Z.sub_0_r in Ha. rewrite Ha by lia. by rewrite <- !app_assoc.
Qed.

Lemma mread_app pre l n : 0 <= n <= zlen l ->
  mread (pre ++ l) (zlen pre) n = Some (slice 0 n l).
Proof.
  intros. rewrite mread_ok by (rewrite ?zlen_app; pose proof (zlen_nonneg pre); lia).
  by rewrite slice_app_r, Z.sub_diag by lia.
Qed.

(** Overwriting the block [b] that follows [pre]. *)
Lemma mwrite_app pre b rest d : zlen d = zlen b ->
  mwrite (pre ++ b ++ rest) (zlen pre) d = Some (pre ++ d ++ rest).
Proof.
  intros E. pose proof (zlen_nonneg pre). pose proof (zlen_nonneg rest).
  pose proof (zlen_nonneg b). rewrite mwrite_ok by (rewrite ?zlen_app; lia). f_equal. f_equal; [|f_equal].
  - rewrite slice_app_l by lia. by apply slice_all.
  - rewrite slice_app_r by lia. rewrite slice_app_r by lia.
    rewrite !zlen_app. replace (zlen pre + zlen d - zlen pre - zlen b) with 0 by lia.
    apply slice_all. lia.
Qed.

Lemma mset_app pre b rest x :
  mset (pre ++ b :: rest) (zlen pre) x = Some (pre ++ x :: rest).
Proof. apply (mwrite_app pre [b] rest [x]). done. Qed.

Lemma slice_take_drop {A} n (l : list A) : 0 <= n <= zlen l ->
  l = slice 0 n l ++ slice n (zlen l - n) l.
Proof.
  intros. rewrite <- (slice_split 0) by lia. symmetry. apply slice_all. lia.
Qed.

(** An access inside the middle of a block. *)
Lemma mread_mid pre a rest k n : 0 <= k -> 0 <= n -> k + n <= zlen a ->
  mread (pre ++ a ++ rest) (zlen pre + k) n = mread a k n.
Proof.
  intros. pose proof (zlen_nonneg pre). pose proof (zlen_nonneg rest).
  rewrite !mread_ok by (rewrite ?zlen_app; lia). f_equal.
  rewrite slice_app_r by lia. replace (zlen pre + k - zlen pre) with k by lia.
  by rewrite slice_app_l by lia.
Qed.

Lemma mwrite_mid pre a rest k d : 0 <= k -> k + zlen d <= zlen a ->
  mwrite (pre ++ a ++ rest) (zlen pre + k) d = (a' ← mwrite a k d; Some (pre ++ a' ++ rest)).
Proof.
  intros Hk Hd. pose proof (zlen_nonneg pre). pose proof (zlen_nonneg rest). pose proof (zlen_nonneg d).
  rewrite (mwrite_ok a) by lia. cbn [mbind option_bind].
  set (tl := slice (k + zlen d) (zlen a - (k + zlen d)) a).
  assert (a = slice 0 k a ++ slice k (zlen d) a ++ tl) as Ea.
  { unfold tl. rewrite <- (slice_split k) by lia.
    replace (zlen d + (zlen a - (k + zlen d))) with (zlen a - k) by lia.
    by apply slice_take_drop; lia. }
  rewrite Ea at 1. assert (zlen (slice 0 k a) = k) as Lk by (apply zlen_slice; lia).
  replace (zlen pre + k) with (zlen (pre ++ slice 0 k a)) by (rewrite zlen_app; lia).
  replace (pre ++ (slice 0 k a ++ slice k (zlen d) a ++ tl) ++ rest)
    with ((pre ++ slice 0 k a) ++ slice k (zlen d) a ++ (tl ++ rest)) by (by rewrite <- !app_assoc).
  rewrite mwrite_app by (rewrite zlen_slice; lia). by rewrite <- !app_assoc.
Qed.

Lemma Forall_mwrite (P : Z -> Prop) m off d m' :
  mwrite m off d = Some m' -> Forall P m -> Forall P d -> Forall P m'.
Proof.
  intros (?&?&->)%mwrite_inv ??. apply Forall_app. split; [by apply Forall_slice|].
  apply Forall_app. split; [done|by apply Forall_slice].
Qed.

(** ** Calls of the C library

    [malloc] is a parameter: [None] is a failed allocation, and the bytes of a
    fresh block are whatever the instance says. *)
Class Malloc := {
  malloc : Z -> option mem;
  malloc_length : forall n m, malloc n = Some m -> zlen m = Z.max 0 n
}.

(** The allocator of the witnesses: never fails, blocks are zero. *)
#[export] Program Instance malloc_zero : Malloc := {| malloc n := Some (zrepeat 0 n) |}.
Next Obligation.
  intros n m E. simplify_eq/=. destruct (Z.max_spec 0 n) as [[? ->]|[? ->]].
  - by rewrite zlen_repeat by lia.
  - unfold zrepeat. by replace (Z.to_nat n) with 0%nat by lia.
Qed.

(** Reflexive transitive closure, for the components modelled as transition
    systems. *)
Inductive star {S} (R : S -> S -> Prop) : S -> S -> Prop :=
  | star_refl s : star R s s
  | star_step s1 s2 s3 : star R s1 s2 -> R s2 s3 -> star R s1 s3.

Lemma star_invariant {S} (R : S -> S -> Prop) (I : S -> Prop) :
  (forall s s', I s -> R s s' -> I s') -> forall s s', star R s s' -> I s -> I s'.
Proof. intros HI s s' Hs. induction Hs; eauto. Qed.

(** Inverts a chain of binds of the option monad in the hypotheses. *)
Ltac binds :=
  repeat (simplify_eq/=;
  match goal with
  | H : mbind _ _ = Some _ |- _ => apply bind_Some in H as (?&?&H)
  | x : _ * _ |- _ => destruct x
  | H : _ /\ _ |- _ => destruct H
  end).

(** ** Total correctness

    [wp m Q]: the program step [m] gives a result and it satisfies [Q]. *)

Definition wp {A} (m : option A) (Q : A -> Prop) : Prop := exists x, m = Some x /\ Q x.

Lemma wp_ret {A} (x : A) (Q : A -> Prop) : Q x -> wp (Some x) Q.
Proof. by exists x. Qed.
Lemma wp_bind {A B} (m : option A) (f : A -> option B) P (Q : B -> Prop) :
  wp m P -> (forall x, P x -> wp (f x) Q) -> wp (m ≫= f) Q.
Proof. intros (x & -> & Hx) H. by apply H. Qed.
Lemma wp_mono {A} (m : option A) (P Q : A -> Prop) : wp m P -> (forall x, P x -> Q x) -> wp m Q.
Proof. intros (x & -> & Hx) H. exists x. auto. Qed.
Lemma wp_assoc {A B C} (m : option A) (f : A -> option B) (g : B -> option C) (Q : C -> Prop) :
  wp (x ← m; y ← f x; g y) Q <-> wp (y ← (x ← m; f x); g y) Q.
Proof. destruct m; done. Qed.

Lemma wp_bind3 {A B C D} (m : option A) (f : A -> option B) (g : B -> option C) (h : C -> option D) P Q :
  wp (x ← m; y ← f x; g y) P -> (forall z, P z -> wp (h z) Q) -> wp (x ← m; y ← f x; z ← g y; h z) Q.
Proof. intros H HQ. destruct m as [x|]; simpl in *; [|by destruct H as (? & ? & _)]. apply wp_assoc. by eapply wp_bind. Qed.
