(* ===== verification/ByteQueue.v ===== *)
(** * ByteQueue: what a byte buffer promises to its clients

    The two buffers of [src/src/nd_common/src/recbuf.c] (the ring buffer
    [ndrecybuf_t] and the linear buffer [nd_linebuf]) are used through the same
    two calls: write all of a block or fail ([EBUF_SPECIFIED]), read exactly
    [n] bytes or fail.  [ByteQueue] is that contract; [RecBuf] and [LineBuf]
    discharge it, and [bq_run_fifo] is proved once, against the contract. *)

From S2P Require Import Prelude.

(** [bq_putok q n] and [bq_getok q n] are the discipline the user has to keep: a buffer may
    restrict the lengths of blocks and reads (the line buffer does). *)
Class ByteQueue (Q : Type) := {
  bq_inv : Q -> Prop;
  bq_data : Q -> list Z;
  bq_room : Q -> Z;
  bq_putok : Q -> Z -> Prop;
  bq_getok : Q -> Z -> Prop;
  bq_put : Q -> list Z -> option (Q * Z);
  bq_get : Q -> mem -> Z -> option (Q * mem * Z);
  bq_put_fits q d : bq_inv q -> bq_putok q (zlen d) -> zlen d <= bq_room q ->
    exists q', bq_put q d = Some (q', zlen d) /\ bq_inv q' /\ bq_data q' = bq_data q ++ d;
  bq_put_full q d : bq_inv q -> bq_room q < zlen d -> bq_put q d = Some (q, -1);
  bq_get_some q dst n : bq_inv q -> bq_getok q n ->
    0 <= n <= zlen (bq_data q) -> n <= zlen dst ->
    exists q' out, bq_get q dst n = Some (q', out ++ slice n (zlen dst - n) dst, n) /\
      bq_inv q' /\ zlen out = n /\ bq_data q = out ++ bq_data q';
  bq_get_short q dst n : bq_inv q -> zlen (bq_data q) < n -> n < 2 ^ 63 ->
    bq_get q dst n = Some (q, dst, -1)
}.

(** A client's script: blocks to write and lengths to read, each read into a
    block [dst] of its own. *)
Inductive bq_op := BPut (d : list Z) | BGet (dst : mem) (n : Z).

Section Client.
Context {Q : Type} `{!ByteQueue Q}.

(** Runs a script; the second and third components are the bytes the queue
    accepted and the bytes it delivered, in order. *)
Fixpoint bq_run (q : Q) (ops : list bq_op) : option (Q * list Z * list Z) :=
  match ops with
  | [] => Some (q, [], [])
  | BPut d :: ops =>
      '(q1, r) ← bq_put q d;
      '(q2, acc, del) ← bq_run q1 ops;
      Some (q2, (if r =? -1 then [] else d) ++ acc, del)
  | BGet dst n :: ops =>
      '(q1, dst1, r) ← bq_get q dst n;
      '(q2, acc, del) ← bq_run q1 ops;
      Some (q2, acc, (if r =? -1 then [] else slice 0 r dst1) ++ del)
  end.

(** The script keeps the discipline at every step. *)
Fixpoint bq_allowed (q : Q) (ops : list bq_op) : Prop :=
  match ops with
  | [] => True
  | BPut d :: ops => bq_putok q (zlen d) /\ forall q1 r, bq_put q d = Some (q1, r) -> bq_allowed q1 ops
  | BGet dst n :: ops =>
      0 <= n <= zlen dst /\ zlen dst < 2 ^ 63 /\ bq_getok q n /\
      forall q1 dst1 r, bq_get q dst n = Some (q1, dst1, r) -> bq_allowed q1 ops
  end.

Lemma bq_run_fifo_aux ops : forall q, bq_inv q -> bq_allowed q ops ->
  exists q' acc del, bq_run q ops = Some (q', acc, del) /\ bq_inv q' /\
    bq_data q ++ acc = del ++ bq_data q'.
Proof.
  induction ops as [|[d|dst n] ops IH]; simpl; intros q Hq Ha.
  - exists q, [], []. by rewrite app_nil_r.
  - destruct Ha as [Hp Ha]. destruct (Z.le_gt_cases (zlen d) (bq_room q)) as [Hf|Hf].
    + destruct (bq_put_fits q d Hq Hp Hf) as (q1&E&Hq1&D).
      destruct (IH q1 Hq1 (Ha _ _ E)) as (q2&acc&del&E2&Hq2&D2).
      exists q2, (d ++ acc), del. rewrite E; simpl. rewrite E2; simpl.
      pose proof (zlen_nonneg d). destruct (Z.eqb_spec (zlen d) (-1)); [lia|].
      split_and!; [done|done|]. by rewrite app_assoc, <- D.
    + pose proof (bq_put_full q d Hq Hf) as E.
      destruct (IH q Hq (Ha _ _ E)) as (q2&acc&del&E2&Hq2&D2).
      exists q2, acc, del. rewrite E; simpl. by rewrite E2.
  - destruct Ha as (Hn&Hd&Hg&Ha).
    destruct (Z.le_gt_cases n (zlen (bq_data q))) as [Hf|Hf].
    + destruct (bq_get_some q dst n Hq Hg) as (q1&out&E&Hq1&L&D); [lia..|].
      destruct (IH q1 Hq1 (Ha _ _ _ E)) as (q2&acc&del&E2&Hq2&D2).
      exists q2, acc, (out ++ del). rewrite E; simpl. rewrite E2; simpl.
      destruct (Z.eqb_spec n (-1)); [lia|].
      rewrite slice_app_l by lia. rewrite slice_all by done.
      split_and!; [done|done|]. by rewrite D, <- !app_assoc, D2.
    + pose proof (bq_get_short q dst n Hq Hf ltac:(lia)) as E.
      destruct (IH q Hq (Ha _ _ _ E)) as (q2&acc&del&E2&Hq2&D2).
      exists q2, acc, del. rewrite E; simpl. by rewrite E2.
Qed.
End Client.
