(* ===== verification/LineBuf.v ===== *)
(** * LineBuf: the linear buffer of recbuf.c

    [struct nd_linebuf] and its functions ([nd_recbuf.h] 86-170,
    [recbuf.c] 182-357).  A pointer into the block [__buf] is its offset; a
    [memcpy] or store outside the block is [None], and so is a [memcpy] between two
    parts of the block that overlap. *)

From S2P Require Import Prelude ByteQueue.

(** The value stored in a one bit wide signed field: 0 or -1. *)
Definition bit1 (z : Z) : Z := wraps 1 z.

Definition EBUF_ALL : Z := 0.
Definition EBUF_SPECIFIED : Z := 1.

Record linebuf := mk_lbuf {
  auto_inc : Z;
  is_alloced : Z;
  buf_capacity : Z;
  __start : Z;
  __end : Z;
  __buf : option mem
}.

Definition lb_set (lb : linebuf) (s e : Z) (m : mem) : linebuf :=
  mk_lbuf (auto_inc lb) (is_alloced lb) (buf_capacity lb) s e (Some m).

(** ** Operations *)

Definition _lbuf_capacity (lb : linebuf) : Z := buf_capacity lb.
Definition _lbuf_datalen (lb : linebuf) : Z := u64 (__end lb - __start lb).
Definition _lbuf_free_capacity (lb : linebuf) : Z :=
  u64 (_lbuf_capacity lb - _lbuf_datalen lb).
Definition _lbuf_freespace (lb : linebuf) : Z := u64 (_lbuf_capacity lb - __end lb).

Definition _lbuf_reset (lb : linebuf) : option linebuf :=
  match __buf lb with
  | Some m => m' ← mset m 0 0; Some (lb_set lb 0 0 m')
  | None => Some (mk_lbuf (auto_inc lb) (is_alloced lb) (buf_capacity lb) 0 0 None)
  end.

Definition ndlbuf_auto_inc_enable (lb : linebuf) : linebuf :=
  mk_lbuf (bit1 1) (is_alloced lb) (buf_capacity lb) (__start lb) (__end lb) (__buf lb).
Definition ndlbuf_auto_inc_disable (lb : linebuf) : linebuf :=
  mk_lbuf 0 (is_alloced lb) (buf_capacity lb) (__start lb) (__end lb) (__buf lb).
Definition ndlbuf_is_auto_inc (lb : linebuf) : Z := auto_inc lb.

(** The guarded terminator store shared by [ndlbuf_set_zero_tail],
    [_lbuf_add_data] and [_lbuf_move_ahead]. *)
Definition ndlbuf_set_zero_tail (lb : linebuf) : option linebuf :=
  if __end lb <? buf_capacity lb then
    m ← __buf lb; m' ← mset m (__end lb) 0; Some (lb_set lb (__start lb) (__end lb) m')
  else Some lb.

Definition _lbuf_init `{!Malloc} (lb : linebuf) (data_size : Z) : option (linebuf * Z) :=
  match malloc data_size with
  | None =>
      Some (mk_lbuf (auto_inc lb) (is_alloced lb) (buf_capacity lb) (__start lb) (__end lb) None, -1)
  | Some m =>
      lb' ← _lbuf_reset (mk_lbuf 0 (bit1 1) data_size 0 0 (Some m)); Some (lb', 0)
  end.

Definition _lbuf_destroy (lb : linebuf) : option linebuf :=
  match __buf lb with
  | Some _ => Some (mk_lbuf (auto_inc lb) 0 0 0 0 None)
  | None => Some lb
  end.

(** The data are moved with [memcpy], which is undefined when they overlap the place they
    are moved to. *)
Definition _lbuf_move_ahead (lb : linebuf) : option linebuf :=
  let ahead := u64 (__start lb) in
  let len := _lbuf_datalen lb in
  if len =? 0 then _lbuf_reset lb
  else if 8 <=? ahead then
    if ahead <? len then None
    else
      m ← __buf lb;
      d ← mread m (__start lb) len;
      m' ← mwrite m 0 d;
      ndlbuf_set_zero_tail (lb_set lb 0 len m')
  else Some lb.

Definition _lbuf_tryto_move_ahead (lb : linebuf) : option linebuf :=
  let header := u64 (__start lb) in
  if Z.shiftr (_lbuf_capacity lb) 2 <=? header then _lbuf_move_ahead lb else Some lb.

Definition _lbuf_sub_data (lb : linebuf) (len : Z) : option linebuf :=
  let lb := mk_lbuf (auto_inc lb) (is_alloced lb) (buf_capacity lb)
              (__start lb + len) (__end lb) (__buf lb) in
  if __end lb <=? __start lb then _lbuf_reset lb else _lbuf_tryto_move_ahead lb.

Definition _lbuf_add_data (lb : linebuf) (len : Z) : option linebuf :=
  ndlbuf_set_zero_tail
    (mk_lbuf (auto_inc lb) (is_alloced lb) (buf_capacity lb)
       (__start lb) (__end lb + len) (__buf lb)).

(** [dst] is the block the bytes are copied into, from its first byte. *)
Definition _lbuf_read (lb : linebuf) (dst : mem) (size flag : Z)
    : option (linebuf * mem * Z) :=
  let datalen := _lbuf_datalen lb in
  if (flag =? EBUF_SPECIFIED) && (datalen <? size) then Some (lb, dst, -1)
  else
    let size := if datalen <? size then datalen else size in
    m ← __buf lb;
    d ← mread m (__start lb) size;
    dst' ← mwrite dst 0 d;
    lb' ← _lbuf_sub_data lb size;
    Some (lb', dst', s32 size).

Definition _lbuf_realloc `{!Malloc} (lb : linebuf) (newsize : Z) : option (linebuf * Z) :=
  let dl := _lbuf_datalen lb in
  if newsize <=? buf_capacity lb then Some (lb, -1)
  else match malloc newsize with
  | None => Some (lb, -1)
  | Some newaddr =>
      '(lb1, newaddr, dl) ←
        (if 0 <? dl then _lbuf_read lb newaddr newsize EBUF_ALL else Some (lb, newaddr, dl));
      lb2 ← _lbuf_reset (mk_lbuf (auto_inc lb1) (bit1 1) newsize 0 0 (Some newaddr));
      m ← __buf lb2;
      m' ← mset m (__end lb2 + dl) 0;
      Some (lb_set lb2 (__start lb2) (__end lb2 + dl) m', 0)
  end.

Definition ND_ROUNDUP8 (size : Z) : Z := Z.land (u64 (size + 8 - 1)) (u64 (Z.lnot (8 - 1))).

Definition _tryto_inc_capacity `{!Malloc} (lb : linebuf) (increase_size : Z)
    : option (linebuf * Z) :=
  if auto_inc lb =? 0 then Some (lb, -1)
  else
    let size_new := u64 (buf_capacity lb + increase_size) in
    let size_new :=
      if u64 (buf_capacity lb * 2) <? size_new then ND_ROUNDUP8 size_new
      else u64 (buf_capacity lb * 2) in
    _lbuf_realloc lb size_new.

(** The tail of [_lbuf_write]: copy [datalen] bytes and move the end. *)
Definition _lbuf_copy_in (lb : linebuf) (data : list Z) (datalen : Z)
    : option (linebuf * Z) :=
  d ← mread data 0 datalen;
  m ← __buf lb;
  m' ← mwrite m (__end lb) d;
  lb' ← _lbuf_add_data (lb_set lb (__start lb) (__end lb) m') datalen;
  Some (lb', s32 datalen).

Definition _lbuf_write `{!Malloc} (lb : linebuf) (data : list Z) (datalen flag : Z)
    : option (linebuf * Z) :=
  let space_len := _lbuf_freespace lb in
  if flag =? EBUF_SPECIFIED then
    if space_len <? datalen then
      let free_capacity := _lbuf_free_capacity lb in
      if free_capacity <? datalen then
        if auto_inc lb =? 0 then Some (lb, -1)
        else
          '(lb, r) ← _tryto_inc_capacity lb datalen;
          if r =? -1 then Some (lb, -1) else _lbuf_copy_in lb data datalen
      else lb ← _lbuf_move_ahead lb; _lbuf_copy_in lb data datalen
    else _lbuf_copy_in lb data datalen
  else if space_len <? datalen then
    lb ← _lbuf_move_ahead lb;
    let space_len := _lbuf_free_capacity lb in
    if space_len <? datalen then
      '(lb, r) ← _tryto_inc_capacity lb datalen;
      _lbuf_copy_in lb data (if r =? -1 then space_len else datalen)
    else _lbuf_copy_in lb data datalen
  else _lbuf_copy_in lb data datalen.

(** ** Abstraction and invariant *)

(** The bytes the buffer holds. *)
Definition lbuf_content (lb : linebuf) : list Z :=
  match __buf lb with
  | Some m => slice (__start lb) (__end lb - __start lb) m
  | None => []
  end.

Record lbuf_wf (lb : linebuf) : Prop := {
  wf_buf : exists m, __buf lb = Some m /\ zlen m = buf_capacity lb;
  wf_cap : 0 < buf_capacity lb < 2 ^ 31;
  wf_ptr : 0 <= __start lb <= __end lb /\ __end lb <= buf_capacity lb
}.

(** The positions from which [_lbuf_move_ahead] really moves. *)
Definition lbuf_movable (lb : linebuf) : Prop :=
  __start lb = 0 \/ 8 <= __start lb \/ __start lb = __end lb.

(** [_lbuf_move_ahead] would copy the data onto itself; so would the removal of the next
    [n] bytes. *)
Definition lbuf_overlaps (lb : linebuf) : Prop := 8 <= __start lb < __end lb - __start lb.
Definition lbuf_take_overlaps (lb : linebuf) (n : Z) : Prop :=
  Z.shiftr (buf_capacity lb) 2 <= __start lb + n /\ 8 <= __start lb + n < __end lb - __start lb - n.

(** Up to this position of the end nothing overlaps, however the data are removed. *)
Definition lbuf_half (cap : Z) : Z := Z.min cap (2 * Z.max 8 (Z.shiftr cap 2)).

#[export] Instance lbuf_overlaps_dec lb : Decision (lbuf_overlaps lb).
Proof. unfold lbuf_overlaps. apply _. Defined.
#[export] Instance lbuf_take_overlaps_dec lb n : Decision (lbuf_take_overlaps lb n).
Proof. unfold lbuf_take_overlaps. apply _. Defined.
#[export] Instance lbuf_movable_dec lb : Decision (lbuf_movable lb).
Proof. unfold lbuf_movable. apply _. Defined.

Definition same_shape (lb lb' : linebuf) : Prop :=
  auto_inc lb' = auto_inc lb /\ is_alloced lb' = is_alloced lb /\
  buf_capacity lb' = buf_capacity lb.

Ltac lb_start Hwf :=
  let m := fresh "m" in let Hm := fresh "Hm" in let Hl := fresh "Hl" in
  destruct Hwf as [(m&Hm&Hl) ? ?].

Ltac lb_wf m := split; simpl; [exists m; split; [done|lia] | lia | lia].

Section Invariant.
Context (lb : linebuf) (Hwf : lbuf_wf lb).

Lemma lbuf_datalen_eq : _lbuf_datalen lb = __end lb - __start lb.
Proof using Hwf. lb_start Hwf. unfold _lbuf_datalen. wrap_lia. Qed.
Lemma lbuf_freespace_eq : _lbuf_freespace lb = buf_capacity lb - __end lb.
Proof using Hwf. lb_start Hwf. unfold _lbuf_freespace, _lbuf_capacity. wrap_lia. Qed.
Lemma lbuf_free_capacity_eq :
  _lbuf_free_capacity lb = buf_capacity lb - (__end lb - __start lb).
Proof using Hwf.
  unfold _lbuf_free_capacity, _lbuf_capacity. rewrite lbuf_datalen_eq.
  lb_start Hwf. wrap_lia.
Qed.
Lemma lbuf_content_len : zlen (lbuf_content lb) = __end lb - __start lb.
Proof using Hwf.
  lb_start Hwf. unfold lbuf_content. rewrite Hm. rewrite zlen_slice; lia.
Qed.

Lemma lbuf_reset_ok :
  exists lb', _lbuf_reset lb = Some lb' /\ lbuf_wf lb' /\ same_shape lb lb' /\
    lbuf_content lb' = [] /\ __start lb' = 0 /\ __end lb' = 0.
Proof using Hwf.
  lb_start Hwf. unfold _lbuf_reset. rewrite Hm.
  destruct (mset_ex m 0 0) as (m'&E&?); [lia|]. simpl. rewrite E; simpl.
  eexists. split; [done|].
  split; [lb_wf m'|].
  split_and!; done.
Qed.

Lemma set_zero_tail_ok :
  exists lb', ndlbuf_set_zero_tail lb = Some lb' /\ lbuf_wf lb' /\ same_shape lb lb' /\
    lbuf_content lb' = lbuf_content lb /\
    __start lb' = __start lb /\ __end lb' = __end lb.
Proof using Hwf.
  pose proof Hwf as Hwf'. lb_start Hwf'. unfold ndlbuf_set_zero_tail. rewrite Hm. bcase.
  - destruct (mset_ex m (__end lb) 0) as (m'&E&?); [lia|]. simpl. rewrite E; simpl.
    eexists. split; [done|].
    split; [lb_wf m'|].
    split_and!; try done. unfold lbuf_content; simpl. rewrite Hm.
    eapply slice_mset_before; [done|lia..].
  - exists lb. by split_and!.
Qed.
End Invariant.

Lemma lbuf_half_safe lb n : 0 <= n -> __end lb <= lbuf_half (buf_capacity lb) -> ~ lbuf_take_overlaps lb n.
Proof. unfold lbuf_half, lbuf_take_overlaps. lia. Qed.

Lemma lbuf_move_ahead_overlap lb : lbuf_wf lb -> lbuf_overlaps lb -> _lbuf_move_ahead lb = None.
Proof.
  intros Hwf Ho. unfold _lbuf_move_ahead, lbuf_overlaps in *. rewrite lbuf_datalen_eq by done.
  lb_start Hwf. unwrap_in_range. bcase; [lia|]. bcase; [|lia]. bcase; [done|lia].
Qed.
Lemma lbuf_move_ahead_ok lb : lbuf_wf lb -> ~ lbuf_overlaps lb ->
  exists lb', _lbuf_move_ahead lb = Some lb' /\ lbuf_wf lb' /\ same_shape lb lb' /\
    lbuf_content lb' = lbuf_content lb /\
    (lbuf_movable lb -> __start lb' = 0) /\ (~ lbuf_movable lb -> lb' = lb) /\
    __end lb' - __start lb' = __end lb - __start lb.
Proof.
  intros Hwf Hov. unfold _lbuf_move_ahead. rewrite lbuf_datalen_eq by done.
  unfold lbuf_movable, lbuf_overlaps in *. pose proof Hwf as Hwf'. lb_start Hwf'. unwrap_in_range. bcase.
  - destruct (lbuf_reset_ok lb Hwf) as (lb'&E&W&S&C&S0&E0).
    exists lb'. split_and!; try done; try arith.
    rewrite C. symmetry. apply zlen_0_nil. rewrite lbuf_content_len; done.
  - bcase.
    + bcase; [lia|]. rewrite Hm; simpl. rewrite mread_ok by lia; simpl.
      set (d := slice _ _ m).
      assert (zlen d = __end lb - __start lb) as Ld by (apply zlen_slice; lia).
      destruct (mwrite_ex m 0 d) as (m'&E&?); [lia..|]. rewrite E; simpl.
      destruct (set_zero_tail_ok (lb_set lb 0 (__end lb - __start lb) m'))
        as (lb'&E'&W&S&C&S0&E0).
      { lb_wf m'. }
      exists lb'. split_and!; try done; try (simpl in *; arith).
      rewrite C. unfold lbuf_content; simpl. rewrite Hm.
      pose proof (slice_mwrite_same _ _ _ _ E) as Hs. rewrite Ld in Hs. by rewrite Z.sub_0_r.
    + exists lb. split_and!; try done; arith.
Qed.

Lemma lbuf_add_data_ok lb n : lbuf_wf lb -> 0 <= n -> __end lb + n <= buf_capacity lb ->
  exists lb' m, _lbuf_add_data lb n = Some lb' /\ lbuf_wf lb' /\ same_shape lb lb' /\
    __buf lb = Some m /\
    lbuf_content lb' = slice (__start lb) (__end lb + n - __start lb) m /\
    __start lb' = __start lb /\ __end lb' = __end lb + n.
Proof.
  intros Hwf Hn Hc. lb_start Hwf. unfold _lbuf_add_data.
  edestruct set_zero_tail_ok as (lb'&E&W&S&C&S0&E0); [|rewrite E].
  { lb_wf m. }
  exists lb', m. split_and!; try done. rewrite C. unfold lbuf_content; simpl. by rewrite Hm.
Qed.

(** The copy at the end of [_lbuf_write]: it succeeds exactly when the bytes
    fit between the end pointer and the end of the block. *)
Lemma lbuf_copy_in_ok lb data n : lbuf_wf lb -> 0 <= n <= zlen data ->
  __end lb + n <= buf_capacity lb ->
  exists lb', _lbuf_copy_in lb data n = Some (lb', n) /\ lbuf_wf lb' /\ same_shape lb lb' /\
    lbuf_content lb' = lbuf_content lb ++ slice 0 n data /\
    __start lb' = __start lb /\ __end lb' = __end lb + n.
Proof.
  intros Hwf Hn Hc. pose proof Hwf as Hwf'. lb_start Hwf'. unfold _lbuf_copy_in.
  rewrite mread_ok by lia; simpl. rewrite Hm; simpl.
  assert (zlen (slice 0 n data) = n) as Ln by (apply zlen_slice; lia).
  destruct (mwrite_ex m (__end lb) (slice 0 n data)) as (m'&E&?); [lia..|].
  rewrite E; simpl.
  destruct (lbuf_add_data_ok (lb_set lb (__start lb) (__end lb) m') n)
    as (lb'&m1&E'&W&S&B&C&S0&E0); [|lia|simpl; lia|].
  { lb_wf m'. }
  rewrite E'; simpl. unwrap_in_range. exists lb'. split_and!; try done.
  rewrite C. simpl in *. simplify_eq.
  replace (__end lb + n - __start lb)
    with (__end lb - __start lb + zlen (slice 0 n data)) by lia.
  rewrite (slice_mwrite_append _ _ _ _ _ E) by lia.
  unfold lbuf_content. by rewrite Hm.
Qed.

Lemma lbuf_copy_in_overflow lb data n : lbuf_wf lb -> 0 <= n <= zlen data ->
  buf_capacity lb < __end lb + n -> _lbuf_copy_in lb data n = None.
Proof.
  intros Hwf Hn Hc. lb_start Hwf. unfold _lbuf_copy_in.
  rewrite mread_ok by lia; simpl. rewrite Hm; simpl.
  assert (mwrite m (__end lb) (slice 0 n data) = None) as ->; [|done].
  apply mwrite_None. rewrite zlen_slice; lia.
Qed.

Lemma lbuf_tryto_move_ahead_ok lb : lbuf_wf lb -> ~ (Z.shiftr (buf_capacity lb) 2 <= __start lb /\ lbuf_overlaps lb) ->
  exists lb', _lbuf_tryto_move_ahead lb = Some lb' /\ lbuf_wf lb' /\ same_shape lb lb' /\
    lbuf_content lb' = lbuf_content lb /\
    (__start lb' = 0 \/ lb' = lb).
Proof.
  intros Hwf Hov. pose proof Hwf as [_ Hcap Hptr]. unfold _lbuf_tryto_move_ahead, _lbuf_capacity. unwrap_in_range.
  bcase; [|by exists lb; split_and!; auto]. destruct (lbuf_move_ahead_ok lb Hwf) as (lb'&E&W&S&C&M1&M2&L); [tauto|].
  exists lb'. split_and!; try done. unfold lbuf_movable in *.
  destruct (decide (__start lb = 0 \/ 8 <= __start lb \/ __start lb = __end lb)); eauto.
Qed.

Lemma lbuf_sub_data_overlap lb n : lbuf_wf lb -> 0 <= n -> lbuf_take_overlaps lb n -> _lbuf_sub_data lb n = None.
Proof.
  intros Hwf Hn (H1 & H2). unfold _lbuf_sub_data. lb_start Hwf. set (lb1 := mk_lbuf _ _ _ (__start lb + n) _ _).
  assert (__start lb1 = __start lb + n /\ __end lb1 = __end lb) as [Es Ee] by done.
  bcase; [lia|]. unfold _lbuf_tryto_move_ahead, _lbuf_capacity. change (buf_capacity lb1) with (buf_capacity lb).
  unwrap_in_range. bcase; [|lia]. apply lbuf_move_ahead_overlap; [lb_wf m|]. unfold lbuf_overlaps. lia.
Qed.
Lemma lbuf_sub_data_ok lb n : lbuf_wf lb -> 0 <= n <= __end lb - __start lb -> ~ lbuf_take_overlaps lb n ->
  exists lb', _lbuf_sub_data lb n = Some lb' /\ lbuf_wf lb' /\ same_shape lb lb' /\
    lbuf_content lb = slice 0 n (lbuf_content lb) ++ lbuf_content lb' /\
    (__start lb' = 0 \/ (__start lb' = __start lb + n /\ n < __end lb - __start lb)).
Proof.
  intros Hwf Hn Hov. pose proof Hwf as Hwf'. lb_start Hwf'. unfold _lbuf_sub_data.
  set (lb1 := mk_lbuf _ _ _ (__start lb + n) _ _).
  assert (lbuf_wf lb1) as Hwf1 by lb_wf m.
  assert (lbuf_content lb = slice 0 n (lbuf_content lb) ++ lbuf_content lb1) as HC.
  { unfold lbuf_content; simpl; rewrite Hm. rewrite slice_slice by lia.
    rewrite Z.add_0_r, <- slice_split by lia. f_equal. lia. }
  bcase.
  - destruct (lbuf_reset_ok lb1 Hwf1) as (lb'&E&W&S&C&S0&E0).
    exists lb'. split_and!; try done; [|auto].
    replace (lbuf_content lb') with (lbuf_content lb1); [done|].
    rewrite C. apply zlen_0_nil. rewrite lbuf_content_len by done. simpl in *; lia.
  - destruct (lbuf_tryto_move_ahead_ok lb1 Hwf1) as (lb'&E&W&S&C&M).
    { unfold lbuf_overlaps, lbuf_take_overlaps in *. simpl. lia. }
    exists lb'. split_and!; try done; [by rewrite C|].
    destruct M as [M|M]; [auto|]. right. subst lb'. simpl in *. lia.
Qed.

(** A read of at most [_lbuf_datalen] bytes delivers the oldest bytes and keeps
    the rest. *)
Lemma lbuf_read_ok lb dst n flag : lbuf_wf lb -> 0 <= n <= __end lb - __start lb ->
  n <= zlen dst -> ~ lbuf_take_overlaps lb n ->
  exists lb', _lbuf_read lb dst n flag =
      Some (lb', slice 0 n (lbuf_content lb) ++ slice n (zlen dst - n) dst, n) /\
    lbuf_wf lb' /\ same_shape lb lb' /\
    lbuf_content lb = slice 0 n (lbuf_content lb) ++ lbuf_content lb' /\
    (__start lb' = 0 \/ (__start lb' = __start lb + n /\ n < __end lb - __start lb)).
Proof.
  intros Hwf Hn Hd Hov. unfold _lbuf_read. rewrite lbuf_datalen_eq by done.
  pose proof Hwf as Hwf'. lb_start Hwf'.
  destruct (Z.ltb_spec (__end lb - __start lb) n) as [?|_]; [lia|].
  rewrite andb_false_r. rewrite Hm; simpl. rewrite mread_ok by lia; simpl.
  destruct (lbuf_sub_data_ok lb n Hwf Hn Hov) as (lb'&E&W&S&C&M).
  assert (slice (__start lb) n m = slice 0 n (lbuf_content lb)) as ->.
  { unfold lbuf_content. rewrite Hm. rewrite slice_slice by lia. f_equal. lia. }
  assert (zlen (slice 0 n (lbuf_content lb)) = n) as Ln.
  { apply zlen_slice; rewrite ?lbuf_content_len by done; lia. }
  rewrite mwrite_ok by lia; simpl. rewrite E; simpl. rewrite Ln. unwrap_in_range.
  exists lb'. by split_and!.
Qed.

Lemma lbuf_read_overlap lb dst n flag : lbuf_wf lb -> 0 <= n <= __end lb - __start lb -> lbuf_take_overlaps lb n ->
  _lbuf_read lb dst n flag = None.
Proof.
  intros Hwf Hn Hov. unfold _lbuf_read. rewrite lbuf_datalen_eq by done.
  destruct (Z.ltb_spec (__end lb - __start lb) n) as [?|_]; [lia|]. rewrite andb_false_r, lbuf_sub_data_overlap by (done || lia).
  destruct (__buf lb) as [m|]; [|done]. simpl. destruct (mread m _ _) as [d|]; [|done]. simpl. by destruct (mwrite dst _ _).
Qed.

Lemma lbuf_read_defined lb dst n flag x : lbuf_wf lb -> 0 <= n <= __end lb - __start lb ->
  _lbuf_read lb dst n flag = Some x -> ~ lbuf_take_overlaps lb n.
Proof. intros Hwf Hn E Ho. by rewrite lbuf_read_overlap in E. Qed.
Lemma lbuf_sub_data_defined lb n x : lbuf_wf lb -> 0 <= n -> _lbuf_sub_data lb n = Some x -> ~ lbuf_take_overlaps lb n.
Proof. intros Hwf Hn E Ho. by rewrite lbuf_sub_data_overlap in E. Qed.

Lemma lbuf_read_short lb dst n : lbuf_wf lb -> __end lb - __start lb < n ->
  _lbuf_read lb dst n EBUF_SPECIFIED = Some (lb, dst, -1).
Proof.
  intros Hwf Hn. unfold _lbuf_read. rewrite lbuf_datalen_eq by done.
  change (EBUF_SPECIFIED =? EBUF_SPECIFIED) with true. simpl. bcase; [done|lia].
Qed.

Lemma lbuf_read_all_eq lb dst n : lbuf_wf lb -> __end lb - __start lb <= n ->
  _lbuf_read lb dst n EBUF_ALL = _lbuf_read lb dst (__end lb - __start lb) EBUF_ALL.
Proof.
  intros Hwf Hn. unfold _lbuf_read. rewrite lbuf_datalen_eq by done. simpl.
  rewrite Z.ltb_irrefl. bcase; [done|]. by replace n with (__end lb - __start lb) by lia.
Qed.

(** Bytes the buffer keeps when it grows: the first one is lost, because
    [_lbuf_reset] stores a zero at [__buf[0]] after the copy. *)
Definition zero_head (l : list Z) : list Z :=
  match l with [] => [] | _ :: t => 0 :: t end.

Lemma lbuf_reset_fresh m cap ai al : 0 < cap -> zlen m = cap ->
  exists m', _lbuf_reset (mk_lbuf ai al cap 0 0 (Some m)) =
      Some (mk_lbuf ai al cap 0 0 (Some m')) /\ zlen m' = cap /\
    forall n, 0 <= n <= cap -> slice 0 n m' = zero_head (slice 0 n m).
Proof.
  intros Hc Hm. unfold _lbuf_reset; simpl.
  destruct m as [|b t]; [rewrite zlen_nil in Hm; lia|].
  rewrite mset_head; simpl. exists (0 :: t). rewrite zlen_cons in *.
  split_and!; [done|done|]. intros n Hn.
  destruct (decide (n = 0)) as [->|]; [done|]. by rewrite !slice_cons by lia.
Qed.

Lemma lbuf_realloc_ok `{!Malloc} lb newsize m : lbuf_wf lb ->
  buf_capacity lb < newsize < 2 ^ 31 -> malloc newsize = Some m ->
  exists lb', _lbuf_realloc lb newsize = Some (lb', 0) /\ lbuf_wf lb' /\
    buf_capacity lb' = newsize /\ __start lb' = 0 /\
    __end lb' = __end lb - __start lb /\ auto_inc lb' = auto_inc lb /\
    lbuf_content lb' = zero_head (lbuf_content lb).
Proof.
  intros Hwf Hn Em. pose proof (malloc_length _ _ Em) as Lm.
  unfold _lbuf_realloc. rewrite lbuf_datalen_eq by done.
  pose proof Hwf as [_ Hc Hp].
  bcase; [lia|]. rewrite Em.
  set (dl := __end lb - __start lb).
  assert (exists lb1 m1, (if 0 <? dl then _lbuf_read lb m newsize EBUF_ALL
            else Some (lb, m, dl)) = Some (lb1, m1, dl) /\ zlen m1 = newsize /\
            auto_inc lb1 = auto_inc lb /\ slice 0 dl m1 = lbuf_content lb)
    as (lb1&m1&->&Lm1&Ea&Cm1).
  { bcase.
    - rewrite lbuf_read_all_eq by (done || lia).
      destruct (lbuf_read_ok lb m (__end lb - __start lb) EBUF_ALL Hwf) as (lb1&->&W&S&C&M);
        [lia|lia|unfold lbuf_take_overlaps; lia|].
      assert (slice 0 dl (lbuf_content lb) = lbuf_content lb) as Hall.
      { apply slice_all. by rewrite lbuf_content_len. }
      eexists lb1, _. split; [done|]. fold dl. rewrite Hall.
      pose proof (lbuf_content_len lb Hwf). split_and!.
      + rewrite zlen_app, zlen_slice; lia.
      + apply S.
      + rewrite slice_app_l by lia. by apply slice_all.
    - exists lb, m. split_and!; try done; [lia|]. symmetry. rewrite slice_neg by lia.
      apply zlen_0_nil. rewrite lbuf_content_len by done. lia. }
  simpl. destruct (lbuf_reset_fresh m1 newsize (auto_inc lb1) (bit1 1))
    as (m2&->&Lm2&Cm2); [lia..|]. simpl.
  destruct (mset_ex m2 dl 0) as (m3&E3&?); [lia|]. cbn [__end]. rewrite ?Z.add_0_l, E3; simpl.
  eexists. split; [done|]. split; [lb_wf m3|].
  split_and!; try done. unfold lbuf_content at 1; simpl. rewrite Z.sub_0_r.
  rewrite (slice_mset_before _ _ _ _ _ _ E3) by lia.
  rewrite Cm2 by lia. by rewrite Cm1.
Qed.

Lemma roundup8_bounds n : 0 <= n < 2 ^ 62 -> n <= ND_ROUNDUP8 n < n + 8.
Proof.
  intros Hn. unfold ND_ROUNDUP8. unwrap_in_range.
  replace (u64 (Z.lnot (8 - 1))) with (Z.lnot 7 mod 2 ^ 64) by done.
  rewrite <- Z.land_ones by lia. rewrite (Z.land_comm (Z.lnot 7)), Z.land_assoc.
  rewrite Z.land_ones by lia. rewrite Z.mod_small by lia.
  change (Z.land (n + 8 - 1) (Z.lnot 7)) with (Z.land (n + 8 - 1) (Z.lnot (Z.ones 3))).
  rewrite <- Z.ldiff_land, Z.ldiff_ones_r by lia.
  rewrite Z.shiftl_mul_pow2, Z.shiftr_div_pow2 by lia.
  change (2 ^ 3) with 8. pose proof (Z.div_mod (n + 8 - 1) 8 ltac:(lia)).
  pose proof (Z.mod_pos_bound (n + 8 - 1) 8 ltac:(lia)). lia.
Qed.

(** The size [_tryto_inc_capacity] asks for. *)
Definition grown_size (cap inc : Z) : Z :=
  if cap * 2 <? cap + inc then ND_ROUNDUP8 (cap + inc) else cap * 2.

Lemma tryto_inc_capacity_eq `{!Malloc} lb n : lbuf_wf lb -> 0 <= n < 2 ^ 31 ->
  auto_inc lb <> 0 ->
  _tryto_inc_capacity lb n = _lbuf_realloc lb (grown_size (buf_capacity lb) n) /\
  buf_capacity lb < grown_size (buf_capacity lb) n /\
  buf_capacity lb + n <= grown_size (buf_capacity lb) n.
Proof.
  intros Hwf Hn Ha. unfold _tryto_inc_capacity, grown_size.
  destruct (Z.eqb_spec (auto_inc lb) 0) as [?|_]; [done|].
  lb_start Hwf. rewrite !(wrapu_small 64 (buf_capacity lb * 2)) by lia.
  rewrite !(wrapu_small 64 (buf_capacity lb + n)) by lia.
  pose proof (roundup8_bounds (buf_capacity lb + n)).
  split; [done|]. bcase; lia.
Qed.

(** A buffer built by [_lbuf_init]. *)
Lemma lbuf_init_ok `{!Malloc} lb n m : malloc n = Some m -> 0 < n < 2 ^ 31 ->
  exists lb', _lbuf_init lb n = Some (lb', 0) /\ lbuf_wf lb' /\ lbuf_content lb' = [] /\
    buf_capacity lb' = n /\ auto_inc lb' = 0 /\ __start lb' = 0.
Proof.
  intros Em Hn. pose proof (malloc_length _ _ Em). unfold _lbuf_init. rewrite Em.
  destruct (lbuf_reset_fresh m n 0 (bit1 1)) as (m'&E&L&C); [lia..|].
  rewrite E; simpl. eexists. split; [done|]. split; [lb_wf m'|]. by split_and!.
Qed.

(** ** Properties *)

Section Write.
Context `{!Malloc} (lb : linebuf) (data : list Z) (Hwf : lbuf_wf lb).

Lemma lbuf_write_fits n flag : 0 <= n <= zlen data ->
  n <= buf_capacity lb - (__end lb - __start lb) ->
  (n <= buf_capacity lb - __end lb \/ (lbuf_movable lb /\ ~ lbuf_overlaps lb)) ->
  exists lb', _lbuf_write lb data n flag = Some (lb', n) /\ lbuf_wf lb' /\
    same_shape lb lb' /\ lbuf_content lb' = lbuf_content lb ++ slice 0 n data /\
    (__start lb' = 0 \/ __start lb' = __start lb).
Proof using Hwf.
  intros Hn Hf Hm. unfold _lbuf_write.
  rewrite lbuf_freespace_eq, lbuf_free_capacity_eq by done.
  destruct (Z.ltb_spec (buf_capacity lb - __end lb) n) as [Hlt|Hge].
  - destruct Hm as [?|[Hm Hov]]; [lia|].
    destruct (lbuf_move_ahead_ok lb Hwf Hov) as (lb1&E&W&(S1&S2&S3)&C&M1&M2&L). specialize (M1 Hm).
    destruct (Z.ltb_spec (buf_capacity lb - (__end lb - __start lb)) n); [lia|].
    rewrite E. simpl. rewrite lbuf_free_capacity_eq by done. rewrite S3, L.
    destruct (Z.ltb_spec (buf_capacity lb - (__end lb - __start lb)) n); [lia|].
    destruct (lbuf_copy_in_ok lb1 data n W) as (lb2&E2&W2&(?&?&?)&C2&?&?); [lia..|].
    rewrite E2. exists lb2. split; [by destruct (flag =? _)|].
    split_and!; try done; try lia. { split_and!; congruence. } by rewrite C2, C.
  - destruct (lbuf_copy_in_ok lb data n Hwf) as (lb2&E2&W2&S&C2&?&?); [lia..|].
    rewrite E2. exists lb2. split; [by destruct (flag =? _)|].
    split_and!; try done; lia.
Qed.

Lemma lbuf_write_full n : buf_capacity lb - (__end lb - __start lb) < n ->
  auto_inc lb = 0 -> _lbuf_write lb data n EBUF_SPECIFIED = Some (lb, -1).
Proof using Hwf.
  intros Hn Ha. unfold _lbuf_write.
  rewrite lbuf_freespace_eq, lbuf_free_capacity_eq by done.
  lb_start Hwf. rewrite Z.eqb_refl. bcase; [|lia]. bcase; [|lia].
  by rewrite Ha.
Qed.

Lemma lbuf_write_unmovable n flag : 0 <= n <= zlen data ->
  n <= buf_capacity lb - (__end lb - __start lb) ->
  buf_capacity lb - __end lb < n -> ~ lbuf_movable lb \/ lbuf_overlaps lb ->
  _lbuf_write lb data n flag = None.
Proof using Hwf.
  intros Hn Hf Hs Hm. unfold _lbuf_write.
  rewrite lbuf_freespace_eq, lbuf_free_capacity_eq by done.
  destruct (Z.ltb_spec (buf_capacity lb - __end lb) n); [|lia].
  destruct (Z.ltb_spec (buf_capacity lb - (__end lb - __start lb)) n); [lia|].
  destruct (decide (lbuf_overlaps lb)) as [Hov|Hov].
  { rewrite (lbuf_move_ahead_overlap lb Hwf Hov). by destruct (flag =? _). }
  destruct Hm as [Hm|?]; [|done]. destruct (lbuf_move_ahead_ok lb Hwf Hov) as (lb1&E&W&S&C&M1&M2&L).
  specialize (M2 Hm). subst lb1. rewrite E; simpl. rewrite lbuf_free_capacity_eq by done.
  destruct (Z.ltb_spec (buf_capacity lb - (__end lb - __start lb)) n); [lia|].
  rewrite lbuf_copy_in_overflow by (done || lia). by destruct (flag =? _).
Qed.

(** The room that a write had when it is defined. *)
Lemma lbuf_write_defined n flag x : 0 <= n <= zlen data ->
  n <= buf_capacity lb - (__end lb - __start lb) -> _lbuf_write lb data n flag = Some x ->
  n <= buf_capacity lb - __end lb \/ (lbuf_movable lb /\ ~ lbuf_overlaps lb).
Proof using Hwf.
  intros Hn Hf E. destruct (decide (n <= buf_capacity lb - __end lb \/ (lbuf_movable lb /\ ~ lbuf_overlaps lb))) as [|Hm]; [done|].
  apply Decidable.not_or in Hm as [Hs Hm]. rewrite lbuf_write_unmovable in E; [done|lia..|].
  destruct (decide (lbuf_overlaps lb)); tauto.
Qed.
End Write.

(** [_lbuf_write] of a block with [EBUF_SPECIFIED] on a buffer that does not
    grow: it either refuses the block when the free capacity is too small and
    leaves the buffer as it was, or appends exactly the block to the buffered
    bytes; it is undefined for a block that only fits after the data is moved, when
    the start offset is 1 to 7 or the data overlap their new place. *)
Theorem lbuf_write_specified `{!Malloc} lb data :
  lbuf_wf lb -> auto_inc lb = 0 ->
  match _lbuf_write lb data (zlen data) EBUF_SPECIFIED with
  | Some (lb', r) =>
      lbuf_wf lb' /\ same_shape lb lb' /\
      ((r = -1 /\ lb' = lb /\ buf_capacity lb < zlen (lbuf_content lb) + zlen data) \/
       (r = zlen data /\ lbuf_content lb' = lbuf_content lb ++ data))
  | None => (1 <= __start lb < 8 \/ lbuf_overlaps lb) /\ lbuf_content lb <> [] /\
            buf_capacity lb - __end lb < zlen data
  end.
Proof.
  intros Hwf Ha. pose proof (zlen_nonneg data). pose proof (lbuf_content_len lb Hwf) as Lc.
  destruct (Z.lt_ge_cases (buf_capacity lb - (__end lb - __start lb)) (zlen data)).
  { rewrite lbuf_write_full by done. split_and!; [done..|left; split_and!; lia || done]. }
  destruct (decide (zlen data <= buf_capacity lb - __end lb \/ (lbuf_movable lb /\ ~ lbuf_overlaps lb))) as [Hm|Hm].
  - destruct (lbuf_write_fits lb data Hwf (zlen data) EBUF_SPECIFIED)
      as (lb'&->&W&S&C&_); [lia|lia|done|].
    split_and!; [done..|right]. split; [done|]. by rewrite C, slice_all.
  - apply Decidable.not_or in Hm as [Hs Hm].
    assert (~ lbuf_movable lb \/ lbuf_overlaps lb) as Hm' by (destruct (decide (lbuf_overlaps lb)); tauto).
    rewrite lbuf_write_unmovable by (done || lia).
    lb_start Hwf. unfold lbuf_movable, lbuf_overlaps in *. split_and!; [lia| |lia].
    intros Hn. rewrite Hn, zlen_nil in Lc. lia.
Qed.

(** a line buffer whose start pointer is 1 to 7 bytes into the block is not
    compacted by [_lbuf_move_ahead], yet [_lbuf_write] takes the whole free
    capacity as room: a block that fits the free capacity but not the space
    after the end pointer is copied past the end of the block, in both modes. *)
Theorem lbuf_write_overflow `{!Malloc} lb data flag :
  lbuf_wf lb -> 1 <= __start lb < 8 -> __start lb < __end lb ->
  buf_capacity lb - __end lb < zlen data <= buf_capacity lb - zlen (lbuf_content lb) ->
  _lbuf_write lb data (zlen data) flag = None.
Proof.
  intros Hwf Hs He Hn. rewrite lbuf_content_len in Hn by done.
  apply lbuf_write_unmovable; [done|zlia|lia|lia|]. left. unfold lbuf_movable. lia.
Qed.

(** when an auto-increasing buffer grows for a block, the block is appended
    but the first of the bytes already buffered is replaced by zero. *)
Theorem lbuf_write_grow `{!Malloc} lb data m :
  lbuf_wf lb -> auto_inc lb <> 0 -> zlen data < 2 ^ 31 ->
  buf_capacity lb < zlen (lbuf_content lb) + zlen data ->
  grown_size (buf_capacity lb) (zlen data) < 2 ^ 31 ->
  malloc (grown_size (buf_capacity lb) (zlen data)) = Some m ->
  exists lb', _lbuf_write lb data (zlen data) EBUF_SPECIFIED = Some (lb', zlen data) /\
    lbuf_wf lb' /\ buf_capacity lb' = grown_size (buf_capacity lb) (zlen data) /\
    lbuf_content lb' = zero_head (lbuf_content lb) ++ data.
Proof.
  intros Hwf Ha Hd Hc Hg Em. rewrite lbuf_content_len in Hc by done.
  pose proof (zlen_nonneg data).
  destruct (tryto_inc_capacity_eq lb (zlen data) Hwf) as (E&G1&G2); [lia|done|].
  destruct (lbuf_realloc_ok lb _ m Hwf (conj G1 Hg) Em) as (lb1&E1&W1&K1&S1&E2&A1&C1).
  unfold _lbuf_write. rewrite lbuf_freespace_eq, lbuf_free_capacity_eq by done.
  rewrite Z.eqb_refl. lb_start Hwf. bcase; [|lia]. bcase; [|lia]. bcase; [lia|].
  rewrite E, E1; simpl.
  destruct (lbuf_copy_in_ok lb1 data (zlen data) W1) as (lb2&->&W2&(?&?&S2)&C2&_); [lia..|].
  exists lb2. split_and!; [done|done|lia|]. by rewrite C2, C1, slice_all.
Qed.

(** taking bytes from the front while more than a quarter of the capacity lies in front of
    the rest is undefined whenever the rest is longer than what lies in front of it. *)
Theorem lbuf_take_undefined lb dst n flag : lbuf_wf lb -> 0 <= n <= zlen (lbuf_content lb) ->
  lbuf_take_overlaps lb n -> _lbuf_sub_data lb n = None /\ _lbuf_read lb dst n flag = None.
Proof.
  intros Hwf Hn Ho. rewrite lbuf_content_len in Hn by done.
  split; [by apply lbuf_sub_data_overlap; [|lia|]|by apply lbuf_read_overlap].
Qed.

(** The discipline under which the line buffer is a queue: nothing is moved onto itself, and a reader that leaves
    data behind reads at least eight bytes, or starts eight bytes in. *)
#[export] Program Instance lbuf_queue `{!Malloc} : ByteQueue linebuf := {|
  bq_inv lb := lbuf_wf lb /\ auto_inc lb = 0 /\ (__start lb = 0 \/ 8 <= __start lb);
  bq_data := lbuf_content;
  bq_room lb := buf_capacity lb - zlen (lbuf_content lb);
  bq_putok lb n := n <= buf_capacity lb - __end lb \/ ~ lbuf_overlaps lb;
  bq_getok lb n := (8 <= n \/ 8 <= __start lb \/ n = 0 \/ n = zlen (lbuf_content lb)) /\ ~ lbuf_take_overlaps lb n;
  bq_put lb d := _lbuf_write lb d (zlen d) EBUF_SPECIFIED;
  bq_get lb dst n := _lbuf_read lb dst n EBUF_SPECIFIED
|}.
Next Obligation.
  intros ? lb d (Hwf&Ha&Hm) Hp Hf. rewrite lbuf_content_len in Hf by done.
  destruct (lbuf_write_fits lb d Hwf (zlen d) EBUF_SPECIFIED)
    as (lb'&E&W&(S1&S2&S3)&C&M); [zlia|lia|unfold lbuf_movable; destruct Hp; [by left|right; split; [lia|done]]|].
  exists lb'. rewrite slice_all in C by done. split_and!; try done; [congruence|lia].
Qed.
Next Obligation.
  intros ? lb d (Hwf&Ha&Hm) Hf. rewrite lbuf_content_len in Hf by done.
  apply lbuf_write_full; [done|lia|done].
Qed.
Next Obligation.
  intros ? lb dst n (Hwf&Ha&Hm) [Hg Hov] Hn Hd. rewrite lbuf_content_len in * by done.
  destruct (lbuf_read_ok lb dst n EBUF_SPECIFIED Hwf) as (lb'&E&W&(S1&S2&S3)&C&M); [lia..|done|].
  pose proof (lbuf_content_len lb Hwf). pose proof (lbuf_content_len lb' W) as L'.
  exists lb', (slice 0 n (lbuf_content lb)). split_and!; try done; [congruence| |].
  - apply (f_equal zlen) in C. rewrite zlen_app, zlen_slice in C by lia.
    lia.
  - apply zlen_slice; lia.
Qed.
Next Obligation.
  intros ? lb dst n (Hwf&Ha&Hm) Hs Hn. apply lbuf_read_short; [done|].
  by rewrite <- lbuf_content_len.
Qed.

(** C10: a line buffer from [_lbuf_init] is a byte queue for a user that keeps the discipline
    of [lbuf_queue], at every step: nothing is moved onto itself, and reads that
    leave data behind take at least eight bytes or start eight bytes in.  Then no run of
    writes and reads is undefined, and the bytes accepted by the writes are, in order, the bytes
    delivered by the reads followed by those still buffered.  While the buffered bytes end in
    the first half of the block no read moves anything onto itself. *)
Theorem lbuf_fifo `{!Malloc} lb0 n m ops : malloc n = Some m -> 0 < n < 2 ^ 31 ->
  exists lb, _lbuf_init lb0 n = Some (lb, 0) /\
    (bq_allowed lb ops ->
     exists lb' acc del, bq_run lb ops = Some (lb', acc, del) /\
       acc = del ++ lbuf_content lb') /\
    forall lb1 k, 0 <= k -> __end lb1 <= lbuf_half (buf_capacity lb1) -> ~ lbuf_take_overlaps lb1 k.
Proof.
  intros Em Hn. destruct (lbuf_init_ok lb0 n m Em Hn) as (lb&E&W&C&K&A&S0).
  exists lb. split; [done|]. split; [|intros; by apply lbuf_half_safe]. intros Ha.
  destruct (bq_run_fifo_aux ops lb) as (lb'&acc&del&R&_&D); [split_and!; auto|done|].
  exists lb', acc, del. split; [done|]. simpl in D. by rewrite C in D.
Qed.

(** ** Concrete buffers *)

Definition lb_null : linebuf := mk_lbuf 0 0 0 0 0 None.

(** Sixteen bytes of capacity, bytes 1..8 buffered from offset 4: the buffer
    [init 16; write 12 bytes; read 4 bytes] leaves. *)
Definition lb_unaligned : linebuf :=
  mk_lbuf 0 (-1) 16 4 12 (Some ([9; 9; 9; 9; 1; 2; 3; 4; 5; 6; 7; 8] ++ zrepeat 0 4)).

Example lb_unaligned_reached :
  ('(lb, _) ← _lbuf_init lb_null 16;
   '(lb, _) ← _lbuf_write lb [9; 9; 9; 9; 1; 2; 3; 4; 5; 6; 7; 8] 12 EBUF_SPECIFIED;
   '(lb, _, r) ← _lbuf_read lb (zrepeat 0 4) 4 EBUF_SPECIFIED;
   Some (lb, r)) = Some (lb_unaligned, 4).
Proof. reflexivity. Qed.

Lemma lb_unaligned_wf : lbuf_wf lb_unaligned.
Proof. split; simpl; [by eexists | lia | lia]. Qed.

Lemma lbuf_write_specified_witness :
  match _lbuf_write lb_unaligned [1; 2; 3] (zlen [1; 2; 3]) EBUF_SPECIFIED with
  | Some (lb', r) => lbuf_wf lb' /\ same_shape lb_unaligned lb' /\
      ((r = -1 /\ lb' = lb_unaligned /\
        buf_capacity lb_unaligned < zlen (lbuf_content lb_unaligned) + zlen [1; 2; 3]) \/
       (r = zlen [1; 2; 3] /\ lbuf_content lb' = lbuf_content lb_unaligned ++ [1; 2; 3]))
  | None => (1 <= __start lb_unaligned < 8 \/ lbuf_overlaps lb_unaligned) /\ lbuf_content lb_unaligned <> [] /\
            buf_capacity lb_unaligned - __end lb_unaligned < zlen [1; 2; 3]
  end.
Proof. apply lbuf_write_specified; [apply lb_unaligned_wf | reflexivity]. Defined.

Lemma lbuf_write_overflow_witness :
  _lbuf_write lb_unaligned (zrepeat 7 6) (zlen (zrepeat 7 6)) EBUF_SPECIFIED = None.
Proof.
  apply lbuf_write_overflow; [apply lb_unaligned_wf | simpl; lia | simpl; lia |].
  vm_compute. split; congruence.
Defined.

Lemma lbuf_write_grow_witness :
  exists lb', _lbuf_write (ndlbuf_auto_inc_enable lb_unaligned) (zrepeat 7 20)
      (zlen (zrepeat 7 20)) EBUF_SPECIFIED = Some (lb', zlen (zrepeat 7 20)) /\
    lbuf_wf lb' /\ buf_capacity lb' = grown_size 16 (zlen (zrepeat 7 20)) /\
    lbuf_content lb' = zero_head [1; 2; 3; 4; 5; 6; 7; 8] ++ zrepeat 7 20.
Proof.
  apply (lbuf_write_grow (ndlbuf_auto_inc_enable lb_unaligned) (zrepeat 7 20) (zrepeat 0 40)).
  - split; simpl; [by eexists | lia | lia].
  - vm_compute. congruence.
  - vm_compute. reflexivity.
  - vm_compute. reflexivity.
  - vm_compute. reflexivity.
  - vm_compute. reflexivity.
Defined.

Definition lb_script : list bq_op :=
  [BPut [1; 2; 3; 4; 5; 6; 7; 8; 9; 10; 11; 12]; BGet (zrepeat 0 8) 8;
   BPut (zrepeat 7 9); BPut (zrepeat 5 9); BGet (zrepeat 0 13) 13].

Definition lb_fresh : linebuf := mk_lbuf 0 (-1) 16 0 0 (Some (zrepeat 0 16)).
Lemma lb_script_allowed : bq_allowed lb_fresh lb_script.
Proof.
  repeat (let E := fresh in first
    [ intros ?? E; vm_compute in E; injection E as <- <- | intros ??? E; vm_compute in E; injection E as <- <- <-
    | exact I | split | discriminate | vm_compute; intros (?&?&?); congruence | left; discriminate
    | right; left; discriminate | right; vm_compute; intros (?&?); congruence ]).
Qed.
Lemma lbuf_fifo_witness :
  _lbuf_init lb_null 16 = Some (lb_fresh, 0) /\
  exists lb' acc del, bq_run lb_fresh lb_script = Some (lb', acc, del) /\ acc = del ++ lbuf_content lb'.
Proof.
  assert (_lbuf_init lb_null 16 = Some (lb_fresh, 0)) as E0 by reflexivity. split; [exact E0|].
  destruct (lbuf_fifo lb_null 16 (zrepeat 0 16) lb_script) as (lb & E & H & _); [reflexivity | lia |].
  rewrite E0 in E. injection E as E. rewrite <- E in H. apply H. exact lb_script_allowed.
Defined.
