(* ===== verification/RecBuf.v ===== *)
(** * RecBuf: the ring buffer of recbuf.c

    [ndrecybuf_t] and its functions ([nd_recbuf.h] 15-71, [recbuf.c] 16-176):
    a block of [C_BUF_SIZE] bytes used circularly.  The pointers are offsets
    into [m_buf]. *)

From S2P Require Import Prelude ByteQueue LineBuf.

Definition C_BUF_SIZE : Z := 65536.

Record ndrecybuf := mk_rbuf { m_pstart : Z; m_pend : Z; m_buf : mem }.

(** ** Operations *)

Definition cbuf_capacity (rb : ndrecybuf) : Z := C_BUF_SIZE.
Definition ndcbuf_reset (rb : ndrecybuf) : ndrecybuf := mk_rbuf 0 0 (m_buf rb).
Definition ndcbuf_init (rb : ndrecybuf) : ndrecybuf := ndcbuf_reset rb.
Definition ndcbuf_destroy (rb : ndrecybuf) : ndrecybuf := rb.
Definition ndcbuf_data_addr (rb : ndrecybuf) : Z := m_pstart rb.
Definition ndcbuf_add_data (rb : ndrecybuf) (len : Z) : ndrecybuf :=
  mk_rbuf (m_pstart rb) (m_pend rb + len) (m_buf rb).
Definition cbuf_order (rb : ndrecybuf) : bool := m_pstart rb <=? m_pend rb.
(** [m_buf + C_BUF_SIZE], as an offset. *)
Definition cbuf_tail (rb : ndrecybuf) : Z := C_BUF_SIZE.

Definition ndcbuf_datalen (rb : ndrecybuf) : Z :=
  if cbuf_order rb then u64 (m_pend rb - m_pstart rb)
  else u64 (C_BUF_SIZE - u64 (m_pstart rb - m_pend rb)).

Definition ndcbuf_freespace (rb : ndrecybuf) : Z :=
  let ret :=
    if cbuf_order rb then u64 (cbuf_capacity rb - u64 (m_pend rb - m_pstart rb))
    else u64 (m_pstart rb - m_pend rb) in
  u64 (ret - 1).

Definition ndcbuf_sub_data (rb : ndrecybuf) (len : Z) : ndrecybuf :=
  let rb := mk_rbuf (m_pstart rb + len) (m_pend rb) (m_buf rb) in
  if m_pstart rb =? m_pend rb then ndcbuf_reset rb else rb.

Definition _cbuf_write (rb : ndrecybuf) (data : list Z) (len : Z)
    : option (ndrecybuf * Z) :=
  let ret := len in
  let taillen := u64 (cbuf_tail rb - m_pend rb) in
  if len <=? taillen then
    d ← mread data 0 len;
    m' ← mwrite (m_buf rb) (m_pend rb) d;
    let e := m_pend rb + len in
    Some (mk_rbuf (m_pstart rb) (if cbuf_tail rb <=? e then 0 else e) m', s32 ret)
  else
    d1 ← mread data 0 taillen;
    m1 ← mwrite (m_buf rb) (m_pend rb) d1;
    let len := u64 (len - taillen) in
    d2 ← mread data taillen len;
    m2 ← mwrite m1 0 d2;
    Some (mk_rbuf (m_pstart rb) len m2, s32 ret).

(** [dst] is the block the bytes are copied into, from its first byte. *)
Definition _cbuf_read (rb : ndrecybuf) (dst : mem) (size : Z)
    : option (ndrecybuf * mem * Z) :=
  let ret := size in
  if cbuf_order rb then
    d ← mread (m_buf rb) (m_pstart rb) size;
    dst' ← mwrite dst 0 d;
    let rb := mk_rbuf (m_pstart rb + size) (m_pend rb) (m_buf rb) in
    let rb := if m_pstart rb =? m_pend rb then ndcbuf_reset rb else rb in
    Some (rb, dst', s32 size)
  else
    let taillen := u64 (cbuf_tail rb - m_pstart rb) in
    if size <=? taillen then
      d ← mread (m_buf rb) (m_pstart rb) size;
      dst' ← mwrite dst 0 d;
      let s := m_pstart rb + size in
      Some (mk_rbuf (if cbuf_tail rb <=? s then 0 else s) (m_pend rb) (m_buf rb),
            dst', s32 ret)
    else
      d1 ← mread (m_buf rb) (m_pstart rb) taillen;
      dst1 ← mwrite dst 0 d1;
      let size := u64 (size - taillen) in
      d2 ← mread (m_buf rb) 0 size;
      dst2 ← mwrite dst1 taillen d2;
      let rb := mk_rbuf size (m_pend rb) (m_buf rb) in
      let rb := if m_pstart rb =? m_pend rb then ndcbuf_reset rb else rb in
      Some (rb, dst2, s32 ret).

Definition ndcbuf_read (rb : ndrecybuf) (dst : mem) (size flag : Z)
    : option (ndrecybuf * mem * Z) :=
  let datalen := ndcbuf_datalen rb in
  if (flag =? EBUF_SPECIFIED) && (datalen <? size) then Some (rb, dst, -1)
  else _cbuf_read rb dst (if datalen <? size then datalen else size).

Definition ndcbuf_write (rb : ndrecybuf) (data : list Z) (datalen flag : Z)
    : option (ndrecybuf * Z) :=
  let spacelen := ndcbuf_freespace rb in
  if (flag =? EBUF_SPECIFIED) && (spacelen <? datalen) then Some (rb, -1)
  else _cbuf_write rb data (if spacelen <? datalen then spacelen else datalen).

(** ** Abstraction and invariant *)

Definition rbuf_content (rb : ndrecybuf) : list Z :=
  if cbuf_order rb then slice (m_pstart rb) (m_pend rb - m_pstart rb) (m_buf rb)
  else slice (m_pstart rb) (C_BUF_SIZE - m_pstart rb) (m_buf rb)
       ++ slice 0 (m_pend rb) (m_buf rb).

Record rbuf_wf (rb : ndrecybuf) : Prop := {
  rwf_buf : zlen (m_buf rb) = C_BUF_SIZE;
  rwf_start : 0 <= m_pstart rb < C_BUF_SIZE;
  rwf_end : 0 <= m_pend rb < C_BUF_SIZE
}.

Ltac rb_cases :=
  unfold rbuf_content, ndcbuf_datalen, ndcbuf_freespace, cbuf_order, cbuf_capacity,
    cbuf_tail, C_BUF_SIZE in *; simpl in *.

Section Invariant.
Context (rb : ndrecybuf) (Hwf : rbuf_wf rb).

Lemma rbuf_content_len : zlen (rbuf_content rb) = ndcbuf_datalen rb.
Proof using Hwf.
  destruct Hwf. rb_cases. bcase; unwrap_in_range.
  - rewrite zlen_slice; lia.
  - rewrite zlen_app, !zlen_slice; lia.
Qed.

Lemma rbuf_freespace_eq : ndcbuf_freespace rb = C_BUF_SIZE - 1 - zlen (rbuf_content rb).
Proof using Hwf.
  rewrite rbuf_content_len. destruct Hwf. rb_cases. bcase; wrap_lia.
Qed.

Lemma rbuf_content_bound : zlen (rbuf_content rb) < C_BUF_SIZE.
Proof using Hwf. rewrite rbuf_content_len. destruct Hwf. rb_cases. bcase; wrap_lia. Qed.

(** Writing [len] bytes that fit appends them. *)
Lemma cbuf_write_ok data len :
  0 <= len <= zlen data -> len <= C_BUF_SIZE - 1 - zlen (rbuf_content rb) ->
  exists rb', _cbuf_write rb data len = Some (rb', len) /\ rbuf_wf rb' /\
    rbuf_content rb' = rbuf_content rb ++ slice 0 len data.
Proof using Hwf.
  intros Hn Hf. rewrite rbuf_content_len in Hf.
  destruct Hwf as [Hb Hs He]. unfold _cbuf_write. rb_cases. unwrap_in_range.
  assert (forall o n, 0 <= o -> 0 <= n -> o + n <= zlen data -> zlen (slice o n data) = n)
    as Ls by (intros; apply zlen_slice; lia).
  destruct (Z.leb_spec (m_pstart rb) (m_pend rb)) as [Ho|Ho]; unwrap_in_range; bcase; unwrap_in_range.
  - rewrite mread_ok by lia; simpl.
    destruct (mwrite_ex (m_buf rb) (m_pend rb) (slice 0 len data)) as (m'&E&L);
      [lia|rewrite Ls; lia|]. rewrite E; simpl.
    pose proof (slice_mwrite_append _ _ _ _ (m_pstart rb) E ltac:(lia)) as Ha.
    rewrite Ls in Ha by lia. eexists. split; [done|].
    destruct (Z.leb_spec 65536 (m_pend rb + len)); (split; [split; simpl; unfold C_BUF_SIZE; lia|]); simpl.
    + bcase; [lia|]. rewrite slice_0, app_nil_r, <- Ha. f_equal. lia.
    + bcase; [|lia]. rewrite <- Ha. f_equal. lia.
  - rewrite (mread_ok data 0) by lia; simpl.
    destruct (mwrite_ex (m_buf rb) (m_pend rb) (slice 0 (65536 - m_pend rb) data))
      as (m1&E1&L1); [lia|rewrite Ls; lia|]. rewrite E1; simpl.
    rewrite mread_ok by lia; simpl.
    destruct (mwrite_ex m1 0 (slice (65536 - m_pend rb) (len - (65536 - m_pend rb)) data))
      as (m2&E2&L2); [lia|rewrite Ls; lia|]. rewrite E2; simpl.
    eexists. split; [done|]. split; [split; simpl; unfold C_BUF_SIZE; lia|]. simpl.
    bcase; [lia|].
    pose proof (slice_mwrite_append _ _ _ _ (m_pstart rb) E1 ltac:(lia)) as Ha.
    rewrite Ls in Ha by lia.
    pose proof (slice_mwrite_same _ _ _ _ E2) as Hs2. rewrite Ls in Hs2 by lia.
    rewrite Hs2. rewrite (slice_mwrite_after _ _ _ _ _ _ E2) by (rewrite ?Ls; lia).
    replace (65536 - m_pstart rb)
      with (m_pend rb - m_pstart rb + (65536 - m_pend rb)) by lia.
    rewrite Ha, <- app_assoc. f_equal.
    rewrite <- (slice_split 0 (65536 - m_pend rb) (len - (65536 - m_pend rb))) by lia.
    f_equal. lia.
  - rewrite mread_ok by lia; simpl.
    destruct (mwrite_ex (m_buf rb) (m_pend rb) (slice 0 len data)) as (m'&E&L);
      [lia|rewrite Ls; lia|]. rewrite E; simpl.
    pose proof (slice_mwrite_append _ _ _ _ 0 E ltac:(lia)) as Ha.
    rewrite Ls in Ha by lia. eexists. split; [done|].
    destruct (Z.leb_spec 65536 (m_pend rb + len)); [lia|].
    split; [split; simpl; unfold C_BUF_SIZE; lia|]. simpl. bcase; [lia|].
    rewrite <- app_assoc.
    rewrite (slice_mwrite_after _ _ _ _ _ _ E) by (rewrite ?Ls; lia). f_equal.
    rewrite Z.sub_0_r in Ha. done.
  - lia.
Qed.

(** Reading [n] buffered bytes delivers the oldest ones and keeps the rest. *)
Lemma cbuf_read_ok dst n :
  0 <= n <= zlen (rbuf_content rb) -> n <= zlen dst ->
  exists rb' out, _cbuf_read rb dst n = Some (rb', out ++ slice n (zlen dst - n) dst, n) /\
    rbuf_wf rb' /\ zlen out = n /\ rbuf_content rb = out ++ rbuf_content rb'.
Proof using Hwf.
  intros Hn Hd. pose proof rbuf_content_len as Lc. rewrite Lc in Hn.
  destruct Hwf as [Hb Hs He]. unfold _cbuf_read. rb_cases. clear Lc.
  assert (forall o n, 0 <= o -> 0 <= n -> o + n <= 65536 -> zlen (slice o n (m_buf rb)) = n)
    as Ls by (intros; apply zlen_slice; lia).
  destruct (Z.leb_spec (m_pstart rb) (m_pend rb)) as [Ho|Ho]; unwrap_in_range;
    [|destruct (Z.leb_spec n (65536 - m_pstart rb))].
  - rewrite mread_ok by lia; simpl. rewrite mwrite_ok by (rewrite ?Ls; lia); simpl.
    rewrite Ls by lia. eexists _, _. split; [done|].
    assert (slice (m_pstart rb) (m_pend rb - m_pstart rb) (m_buf rb) =
      slice (m_pstart rb) n (m_buf rb) ++
      slice (m_pstart rb + n) (m_pend rb - (m_pstart rb + n)) (m_buf rb)) as Hsp.
    { rewrite <- slice_split by lia. f_equal. lia. }
    rewrite Ls by lia.
    destruct (Z.eqb_spec (m_pstart rb + n) (m_pend rb)); simpl;
      (split; [split; simpl; unfold C_BUF_SIZE; lia|]); (split; [done|]).
    + rewrite Hsp, slice_0. by rewrite (slice_neg (m_pstart rb + n)) by lia.
    + destruct (Z.leb_spec (m_pstart rb + n) (m_pend rb)); [done|lia].
  - rewrite mread_ok by lia; simpl. rewrite mwrite_ok by (rewrite ?Ls; lia); simpl.
    rewrite Ls by lia. eexists _, _. split; [done|]. rewrite Ls by lia.
    assert (slice (m_pstart rb) (65536 - m_pstart rb) (m_buf rb) =
      slice (m_pstart rb) n (m_buf rb) ++
      slice (m_pstart rb + n) (65536 - (m_pstart rb + n)) (m_buf rb)) as Hsp.
    { rewrite <- slice_split by lia. f_equal. lia. }
    destruct (Z.leb_spec 65536 (m_pstart rb + n)); simpl;
      (split; [split; simpl; unfold C_BUF_SIZE; lia|]); (split; [done|]).
    + bcase; [|lia]. rewrite Hsp, <- app_assoc. f_equal.
      rewrite (slice_neg (m_pstart rb + n)) by lia. simpl. by rewrite Z.sub_0_r.
    + bcase; [lia|]. by rewrite Hsp, <- app_assoc.
  - unwrap_in_range. rewrite (mread_ok (m_buf rb) (m_pstart rb)) by lia; simpl.
    set (a := slice (m_pstart rb) (65536 - m_pstart rb) (m_buf rb)).
    assert (zlen a = 65536 - m_pstart rb) as La by (apply Ls; lia).
    destruct (mwrite_ex dst 0 a) as (d1&E1&L1); [lia..|]. rewrite E1; simpl.
    rewrite mread_ok by lia; simpl.
    set (b := slice 0 (n - (65536 - m_pstart rb)) (m_buf rb)).
    assert (zlen b = n - (65536 - m_pstart rb)) as Lb by (apply Ls; lia).
    assert (zlen (a ++ b) = n) as Lab by (rewrite zlen_app; lia).
    pose proof (mwrite_adjacent _ _ _ b _ E1 ltac:(lia)) as Hadj.
    rewrite Z.add_0_l, La in Hadj. rewrite Hadj, mwrite_ok by lia; simpl.
    rewrite Lab. eexists _, (a ++ b). split; [done|].
    assert (slice 0 (m_pend rb) (m_buf rb) = b ++
      slice (n - (65536 - m_pstart rb)) (m_pend rb - (n - (65536 - m_pstart rb))) (m_buf rb))
      as Hsp.
    { subst b. rewrite <- (slice_split 0) by lia. f_equal. lia. }
    rewrite Hsp, app_assoc.
    destruct (Z.eqb_spec (n - (65536 - m_pstart rb)) (m_pend rb)); simpl;
      (split; [split; simpl; unfold C_BUF_SIZE; lia|]); (split; [lia|]); f_equal.
    + apply slice_neg. lia.
    + bcase; [|lia]. f_equal; lia.
Qed.
End Invariant.

(** ** Properties *)

#[export] Program Instance rbuf_queue : ByteQueue ndrecybuf := {|
  bq_inv := rbuf_wf;
  bq_data := rbuf_content;
  bq_room rb := C_BUF_SIZE - 1 - zlen (rbuf_content rb);
  bq_putok rb n := True;
  bq_getok rb n := True;
  bq_put rb d := ndcbuf_write rb d (zlen d) EBUF_SPECIFIED;
  bq_get rb dst n := ndcbuf_read rb dst n EBUF_SPECIFIED
|}.
Next Obligation.
  intros rb d Hwf _ Hf. cbn beta in *. unfold ndcbuf_write. rewrite rbuf_freespace_eq by done.
  rewrite Z.eqb_refl; cbn [andb]. destruct (Z.ltb_spec (C_BUF_SIZE - 1 - zlen (rbuf_content rb)) (zlen d)); [lia|].
  pose proof (zlen_nonneg d).
  destruct (cbuf_write_ok rb Hwf d (zlen d)) as (rb'&E&W&C); [lia..|].
  exists rb'. by rewrite C, slice_all.
Qed.
Next Obligation.
  intros rb d Hwf Hf. cbn beta in *. unfold ndcbuf_write. rewrite rbuf_freespace_eq by done.
  rewrite Z.eqb_refl; cbn [andb]. bcase; [done|lia].
Qed.
Next Obligation.
  intros rb dst n Hwf _ Hn Hd. cbn beta in *. unfold ndcbuf_read. rewrite <- rbuf_content_len by done.
  destruct (Z.ltb_spec (zlen (rbuf_content rb)) n); [lia|]. rewrite andb_false_r.
  by apply cbuf_read_ok.
Qed.
Next Obligation.
  intros rb dst n Hwf Hs Hn. cbn beta in *. unfold ndcbuf_read. rewrite <- rbuf_content_len by done.
  rewrite Z.eqb_refl; cbn [andb]. bcase; [done|lia].
Qed.

(** C11: a freshly initialised ring buffer is a byte queue: whatever blocks are
    written and whatever lengths are read, wrapping around the end of the block
    as often as needed, no access leaves the block, and the bytes accepted are,
    in order, the bytes delivered followed by those still buffered. *)
Theorem rbuf_fifo rb ops :
  zlen (m_buf rb) = C_BUF_SIZE -> bq_allowed (ndcbuf_init rb) ops ->
  exists rb' acc del, bq_run (ndcbuf_init rb) ops = Some (rb', acc, del) /\
    rbuf_wf rb' /\ acc = del ++ rbuf_content rb'.
Proof.
  intros Hb Ha.
  assert (rbuf_wf (ndcbuf_init rb)) as Hwf by (split; simpl; unfold C_BUF_SIZE in *; lia).
  destruct (bq_run_fifo_aux ops (ndcbuf_init rb)) as (rb'&acc&del&R&W&D); [exact Hwf|exact Ha|].
  exists rb', acc, del. by split_and!.
Qed.

(** [ndcbuf_write] with [EBUF_ALL] appends the longest prefix of the block
    that leaves one byte of the 65536 free, and returns its length; [ndcbuf_read]
    with [EBUF_ALL] delivers as much of the oldest data as was asked for. *)
Theorem rbuf_all_mode rb data dst size :
  rbuf_wf rb -> 0 <= size <= zlen dst ->
  (let n := Z.min (zlen data) (C_BUF_SIZE - 1 - zlen (rbuf_content rb)) in
   exists rb', ndcbuf_write rb data (zlen data) EBUF_ALL = Some (rb', n) /\ rbuf_wf rb' /\
     rbuf_content rb' = rbuf_content rb ++ slice 0 n data) /\
  (let n := Z.min size (zlen (rbuf_content rb)) in
   exists rb' out, ndcbuf_read rb dst size EBUF_ALL =
       Some (rb', out ++ slice n (zlen dst - n) dst, n) /\ rbuf_wf rb' /\
     zlen out = n /\ rbuf_content rb = out ++ rbuf_content rb').
Proof.
  intros Hwf Hs. pose proof (rbuf_content_bound rb Hwf). pose proof (zlen_nonneg data).
  pose proof (zlen_nonneg (rbuf_content rb)). split; intros n.
  - unfold ndcbuf_write. rewrite rbuf_freespace_eq by done. simpl.
    replace (if _ <? _ then _ else _) with n by (subst n; bcase; lia).
    apply cbuf_write_ok; [done|lia..].
  - unfold ndcbuf_read. rewrite <- rbuf_content_len by done. simpl.
    replace (if _ <? _ then _ else _) with n by (subst n; bcase; lia).
    apply cbuf_read_ok; [done|lia..].
Qed.

(** ** Concrete buffers *)

Definition rb_zero : ndrecybuf := mk_rbuf 0 0 (zrepeat 0 C_BUF_SIZE).

(** Three buffered bytes around the end of the block. *)
Definition rb_wrapped : ndrecybuf :=
  mk_rbuf 65534 1 ([33] ++ zrepeat 0 65533 ++ [11; 22]).

Lemma rbuf_fifo_witness :
  exists rb' acc del,
    bq_run (ndcbuf_init rb_zero) [BPut [1; 2; 3]; BGet (zrepeat 0 4) 2] = Some (rb', acc, del) /\
    rbuf_wf rb' /\ acc = del ++ rbuf_content rb'.
Proof.
  apply (rbuf_fifo rb_zero); [vm_compute; reflexivity|].
  simpl. split; [done|]. intros q1 r _. split_and!; [vm_compute; congruence | vm_compute; congruence
    | vm_compute; reflexivity | done | done].
Defined.

Lemma rbuf_all_mode_witness :
  let rb := rb_wrapped in
  (let n := Z.min (zlen [4; 5]) (C_BUF_SIZE - 1 - zlen (rbuf_content rb)) in
   exists rb', ndcbuf_write rb [4; 5] (zlen [4; 5]) EBUF_ALL = Some (rb', n) /\ rbuf_wf rb' /\
     rbuf_content rb' = rbuf_content rb ++ slice 0 n [4; 5]) /\
  (let n := Z.min 8 (zlen (rbuf_content rb)) in
   exists rb' out, ndcbuf_read rb (zrepeat 0 9) 8 EBUF_ALL =
       Some (rb', out ++ slice n (zlen (zrepeat 0 9) - n) (zrepeat 0 9), n) /\ rbuf_wf rb' /\
     zlen out = n /\ rbuf_content rb = out ++ rbuf_content rb').
Proof.
  apply (rbuf_all_mode rb_wrapped [4; 5] (zrepeat 0 9) 8).
  - split; vm_compute; intuition congruence.
  - vm_compute. intuition congruence.
Defined.
