(* ===== verification/Bytes.v ===== *)
(** * Bytes: multi-byte words in little-endian memory

    The library reads and writes 16 and 32 bit words through casts of byte
    pointers; on the modelled machine they are little-endian. *)

From S2P Require Import Prelude.
From Stdlib Require Import Ascii String.

(** The bytes of a string literal. *)
Definition chars (s : string) : list Z :=
  map (fun c => Z.of_N (N_of_ascii c)) (list_ascii_of_string s).

Definition is_byte (b : Z) : Prop := 0 <= b < 256.
Abbreviation bytes l := (Forall is_byte l).

Fixpoint le_combine (l : list Z) : Z :=
  match l with [] => 0 | b :: l => b + 256 * le_combine l end.

Fixpoint le_split (n : nat) (w : Z) : list Z :=
  match n with O => [] | S n => u8 w :: le_split n (w / 256) end.

Lemma u8_byte z : is_byte (u8 z).
Proof. apply (wrapu_range 8 z). lia. Qed.
#[export] Hint Resolve u8_byte : zlist.

Lemma length_le_split n w : List.length (le_split n w) = n.
Proof. revert w. induction n; simpl; auto. Qed.
Lemma zlen_le_split n w : zlen (le_split n w) = Z.of_nat n.
Proof. unfold zlen. by rewrite length_le_split. Qed.
Lemma le_split_bytes n w : bytes (le_split n w).
Proof. revert w. induction n; simpl; constructor; auto with zlist. Qed.
#[export] Hint Resolve le_split_bytes : zlist.

Lemma pow256_S n : 2 ^ (8 * Z.of_nat (S n)) = 256 * 2 ^ (8 * Z.of_nat n).
Proof.
  replace (8 * Z.of_nat (S n)) with (8 + 8 * Z.of_nat n) by lia.
  rewrite Z.pow_add_r by lia. done.
Qed.

Lemma le_combine_range l : bytes l -> 0 <= le_combine l < 2 ^ (8 * zlen l).
Proof.
  induction 1 as [|b l Hb _ IH]; [done|]. unfold zlen in *. cbn [List.length le_combine].
  rewrite pow256_S. unfold is_byte in Hb. lia.
Qed.

Lemma le_combine_split n w : 0 <= w < 2 ^ (8 * Z.of_nat n) -> le_combine (le_split n w) = w.
Proof.
  revert w. induction n as [|n IH]; intros w Hw; [simpl in *; lia|].
  cbn [le_split le_combine]. rewrite pow256_S in Hw.
  rewrite IH by (Z.to_euclidean_division_equations; lia).
  unfold wrapu. change (2 ^ 8) with 256. Z.to_euclidean_division_equations. lia.
Qed.

Lemma le_split_combine l : bytes l -> le_split (List.length l) (le_combine l) = l.
Proof.
  induction 1 as [|b l Hb _ IH]; [done|]. cbn [List.length le_combine le_split].
  unfold is_byte in Hb. f_equal.
  - unfold wrapu. change (2 ^ 8) with 256. Z.to_euclidean_division_equations. lia.
  - assert ((b + 256 * le_combine l) / 256 = le_combine l) as ->; [|done].
    Z.to_euclidean_division_equations. lia.
Qed.

(** ** Word accesses *)

Definition load_u (n : nat) (m : mem) (off : Z) : option Z :=
  d ← mread m off (Z.of_nat n); Some (le_combine d).
Definition store_u (n : nat) (m : mem) (off w : Z) : option mem :=
  mwrite m off (le_split n w).

Abbreviation load_u16 := (load_u 2).
Abbreviation load_u32 := (load_u 4).
Abbreviation store_u16 := (store_u 2).
Abbreviation store_u32 := (store_u 4).

Lemma load_u_ok n m off : 0 <= off -> off + Z.of_nat n <= zlen m ->
  load_u n m off = Some (le_combine (slice off (Z.of_nat n) m)).
Proof. intros. unfold load_u. by rewrite mread_ok by lia. Qed.

Lemma store_u_ex n m off w : 0 <= off -> off + Z.of_nat n <= zlen m ->
  exists m', store_u n m off w = Some m' /\ zlen m' = zlen m.
Proof. intros. apply mwrite_ex; rewrite ?zlen_le_split; lia. Qed.
