(* ===== verification/Tea.v ===== *)
(** * Tea: the block cipher of tea.c and its use on byte buffers in ndcrypt.c

    [tean] is modelled with fuel for its two [while] loops; [tean_steps] shows
    that [N] iterations is what they take, for every non-zero 32 bit [N].  The
    byte interface ([crypt_stuff], [nd_TEAencrypt], [nd_TEAdecrypt]) works in
    place on a block of memory. *)

From S2P Require Import Prelude Bytes.

Definition DELTA : Z := 0x9e3779b9.
Definition ROUNDS : Z := 32.

(** ** The cipher *)

(** [k[i]] of the key [tea_k]. *)
Definition key_word (k : list Z) (i : Z) : Z := nth (Z.to_nat i) k 0.

(** The two round functions: what is added to [y] and to [z]. *)
Definition tea_f (k : list Z) (z sum : Z) : Z :=
  u32 (Z.lxor (u32 (Z.shiftl z 4)) (Z.shiftr z 5) + Z.lxor z sum
       + key_word k (Z.land sum 3)).
Definition tea_g (k : list Z) (y sum : Z) : Z :=
  u32 (Z.lxor (u32 (Z.shiftl y 4)) (Z.shiftr y 5) + Z.lxor y sum
       + key_word k (Z.land (Z.shiftr sum 11) 3)).

Fixpoint tean_enc_loop (fuel : nat) (k : list Z) (limit y z sum : Z) : option (Z * Z) :=
  if sum =? limit then Some (y, z)
  else match fuel with
  | O => None
  | S fuel =>
      let y := u32 (y + tea_f k z sum) in
      let sum := u32 (sum + DELTA) in
      let z := u32 (z + tea_g k y sum) in
      tean_enc_loop fuel k limit y z sum
  end.

Fixpoint tean_dec_loop (fuel : nat) (k : list Z) (y z sum : Z) : option (Z * Z) :=
  if sum =? 0 then Some (y, z)
  else match fuel with
  | O => None
  | S fuel =>
      let z := u32 (z - tea_g k y sum) in
      let sum := u32 (sum - DELTA) in
      let y := u32 (y - tea_f k z sum) in
      tean_dec_loop fuel k y z sum
  end.

Definition tean (fuel : nat) (k : list Z) (v : Z * Z) (N : Z) : option (Z * Z) :=
  let '(y, z) := v in
  if 0 <? N then tean_enc_loop fuel k (u32 (DELTA * N)) y z 0
  else tean_dec_loop fuel k y z (u32 (DELTA * (- N))).

(** [ROUNDS] iterations are enough fuel ([tean_steps]). *)
Definition tea_enc (k : list Z) (v : Z * Z) : option (Z * Z) :=
  tean (Z.to_nat ROUNDS) k v ROUNDS.
Definition tea_dec (k : list Z) (v : Z * Z) : option (Z * Z) :=
  tean (Z.to_nat ROUNDS) k v (- ROUNDS).

(** ** The byte interface *)

Definition STUFF_ELE : Z := 0x20.

(** The [for] loop of [crypt_stuff]: [n] stuff bytes from [off] on. *)
Fixpoint stuff_loop (n : nat) (m : mem) (off : Z) : option mem :=
  match n with
  | O => Some m
  | S n => m ← mset m off STUFF_ELE; stuff_loop n m (off + 1)
  end.

(** The result is the address of the data ([src], offset 0) or NULL. *)
Definition crypt_stuff (src : mem) (datalen stufflen : Z) : option (mem * bool) :=
  if (stufflen <? 1) || (stufflen <=? datalen) then Some (src, false)
  else
    let stufflen := stufflen - datalen in
    m ← stuff_loop (Z.to_nat (stufflen - 1)) src datalen;
    m ← mset m (datalen + (stufflen - 1)) (u8 stufflen);
    Some (m, true).

(** A block [tea_v] at [off]: two 32 bit words. *)
Definition load_v (m : mem) (off : Z) : option (Z * Z) :=
  y ← load_u32 m off; z ← load_u32 m (off + 4); Some (y, z).
Definition store_v (m : mem) (off : Z) (v : Z * Z) : option mem :=
  m ← store_u32 m off v.1; store_u32 m (off + 4) v.2.

(** [for(i=0; i<n; i++) { cipher(key, v); ++v; }] *)
Fixpoint v_loop (cipher : Z * Z -> option (Z * Z)) (n : nat) (m : mem) (off : Z)
    : option mem :=
  match n with
  | O => Some m
  | S n =>
      v ← load_v m off; v ← cipher v; m ← store_v m off v;
      v_loop cipher n m (off + 8)
  end.

Definition nd_TEAencrypt (data : mem) (data_len : Z) (key : list Z) : option (mem * Z) :=
  let vlen := 8 in
  let stuff_len := Z.rem data_len vlen in
  let n := Z.quot data_len vlen in
  '(data, n, new_len) ←
    (if negb (stuff_len =? 0) then
       let n := n + 1 in
       let new_len := s32 (n * vlen) in
       '(data, _) ← crypt_stuff data data_len new_len; Some (data, n, new_len)
     else Some (data, n, data_len));
  data ← v_loop (tea_enc key) (Z.to_nat n) data 0;
  Some (data, new_len).

Definition nd_TEAdecrypt (data : mem) (data_len : Z) (key : list Z) : option (mem * Z) :=
  let vlen := 8 in
  let stuff_len := Z.rem data_len vlen in
  if negb (stuff_len =? 0) then Some (data, -1)
  else
    let n := Z.quot data_len vlen in
    data ← v_loop (tea_dec key) (Z.to_nat n) data 0;
    Some (data, data_len).

(** ** The cipher is invertible and its loops stop after [N] iterations *)

Definition is_u32 (w : Z) : Prop := 0 <= w < 2 ^ 32.

Lemma u32_is_u32 z : is_u32 (u32 z).
Proof. apply (wrapu_range 32). lia. Qed.

(** One round forwards and backwards. *)
Definition enc_round (k : list Z) (s : Z) (v : Z * Z) : Z * Z :=
  let y := u32 (v.1 + tea_f k v.2 s) in
  (y, u32 (v.2 + tea_g k y (u32 (s + DELTA)))).
Definition dec_round (k : list Z) (s : Z) (v : Z * Z) : Z * Z :=
  let z := u32 (v.2 - tea_g k v.1 (u32 (s + DELTA))) in
  (u32 (v.1 - tea_f k z s), z).

Lemma add_sub_u32 a b : is_u32 a -> u32 (u32 (a + b) - b) = a.
Proof.
  intros Ha. rewrite wrapu_sub_l by lia. rewrite Z.add_simpl_r. apply wrapu_small, Ha.
Qed.
Lemma sub_add_u32 a b : is_u32 a -> u32 (u32 (a - b) + b) = a.
Proof.
  intros Ha. rewrite wrapu_add_l by lia. rewrite Z.sub_add. apply wrapu_small, Ha.
Qed.

Definition is_block (v : Z * Z) : Prop := is_u32 v.1 /\ is_u32 v.2.

Lemma dec_enc_round k s v : is_block v -> dec_round k s (enc_round k s v) = v.
Proof.
  intros [Hy Hz]. destruct v as [y z]. unfold dec_round, enc_round. simpl in *.
  rewrite add_sub_u32 by done. by rewrite add_sub_u32.
Qed.
Lemma enc_dec_round k s v : is_block v -> enc_round k s (dec_round k s v) = v.
Proof.
  intros [Hy Hz]. destruct v as [y z]. unfold dec_round, enc_round. simpl in *.
  rewrite sub_add_u32 by done. by rewrite sub_add_u32.
Qed.
Lemma enc_round_block k s v : is_block (enc_round k s v).
Proof. split; apply u32_is_u32. Qed.
Lemma dec_round_block k s v : is_block (dec_round k s v).
Proof. split; apply u32_is_u32. Qed.
#[export] Hint Resolve enc_round_block dec_round_block u32_is_u32 : zlist.

(** The rounds from counter [i] to [i + n]. *)
Fixpoint enc_rounds (k : list Z) (i : Z) (n : nat) (v : Z * Z) : Z * Z :=
  match n with
  | O => v
  | S n => enc_rounds k (i + 1) n (enc_round k (u32 (DELTA * i)) v)
  end.
Fixpoint dec_rounds (k : list Z) (i : Z) (n : nat) (v : Z * Z) : Z * Z :=
  match n with
  | O => v
  | S n => dec_round k (u32 (DELTA * i)) (dec_rounds k (i + 1) n v)
  end.

Lemma enc_rounds_S k i n v :
  enc_rounds k i (S n) v = enc_rounds k (i + 1) n (enc_round k (u32 (DELTA * i)) v).
Proof. reflexivity. Qed.
Lemma dec_rounds_S k i n v :
  dec_rounds k i (S n) v = dec_round k (u32 (DELTA * i)) (dec_rounds k (i + 1) n v).
Proof. reflexivity. Qed.

Lemma enc_rounds_block k n : forall i v, is_block v -> is_block (enc_rounds k i n v).
Proof. induction n; cbn [enc_rounds dec_rounds]; auto with zlist. Qed.
Lemma dec_rounds_block k n : forall i v, is_block v -> is_block (dec_rounds k i n v).
Proof. induction n; cbn [enc_rounds dec_rounds]; auto with zlist. Qed.

Lemma dec_enc_rounds k n : forall i v, is_block v -> dec_rounds k i n (enc_rounds k i n v) = v.
Proof.
  induction n as [|n IH]; intros i v Hv; [done|].
  rewrite enc_rounds_S, dec_rounds_S.
  rewrite IH by auto with zlist. by apply dec_enc_round.
Qed.
Lemma enc_dec_rounds k n : forall i v, is_block v -> enc_rounds k i n (dec_rounds k i n v) = v.
Proof.
  induction n as [|n IH]; intros i v Hv; [done|].
  rewrite enc_rounds_S, dec_rounds_S.
  rewrite enc_dec_round by (apply dec_rounds_block, Hv). apply IH, Hv.
Qed.

(** [DELTA] is odd, so the counter does not come back within 2^32 rounds. *)
Lemma delta_injective i j : 0 <= i < 2 ^ 32 -> 0 <= j < 2 ^ 32 ->
  u32 (DELTA * i) = u32 (DELTA * j) -> i = j.
Proof.
  intros Hi Hj E.
  assert (forall n, 0 <= n < 2 ^ 32 -> u32 (0x144cbc89 * u32 (DELTA * n)) = n) as Inv.
  { intros n Hn. unfold wrapu. rewrite Zmult_mod_idemp_r, Z.mul_assoc.
    rewrite <- Zmult_mod_idemp_l.
    replace (0x144cbc89 * DELTA mod 2 ^ 32) with 1 by (vm_compute; reflexivity).
    rewrite Z.mul_1_l. apply Z.mod_small, Hn. }
  rewrite <- (Inv i Hi), <- (Inv j Hj), E. reflexivity.
Qed.

Lemma delta_next i : u32 (u32 (DELTA * i) + DELTA) = u32 (DELTA * (i + 1)).
Proof. rewrite wrapu_add_l by lia. by rewrite Z.mul_add_distr_l, Z.mul_1_r. Qed.

Lemma enc_loop_rounds k n : forall fuel i v,
  0 <= i -> i + Z.of_nat n < 2 ^ 32 -> (n <= fuel)%nat ->
  tean_enc_loop fuel k (u32 (DELTA * (i + Z.of_nat n))) v.1 v.2 (u32 (DELTA * i)) =
  Some (enc_rounds k i n v).
Proof.
  induction n as [|n IH]; intros fuel i [y z] Hi Hn Hf; simpl fst; simpl snd.
  - rewrite Z.add_0_r. destruct fuel; simpl; by rewrite Z.eqb_refl.
  - destruct fuel as [|fuel]; [lia|]. cbn [tean_enc_loop enc_rounds].
    destruct (Z.eqb_spec (u32 (DELTA * i)) (u32 (DELTA * (i + Z.of_nat (S n))))) as [E|_].
    + apply delta_injective in E; lia.
    + rewrite <- (IH fuel (i + 1)) by lia. rewrite <- delta_next.
      replace (i + 1 + Z.of_nat n) with (i + Z.of_nat (S n)) by lia. done.
Qed.

Lemma dec_rounds_last k n : forall i v,
  dec_rounds k i (S n) v = dec_rounds k i n (dec_round k (u32 (DELTA * (i + Z.of_nat n))) v).
Proof.
  induction n as [|n IH]; intros i v.
  - cbn [dec_rounds]. by rewrite Z.add_0_r.
  - rewrite dec_rounds_S, IH, dec_rounds_S.
    by replace (i + 1 + Z.of_nat n) with (i + Z.of_nat (S n)) by lia.
Qed.

Lemma dec_loop_rounds k n : forall fuel v,
  Z.of_nat n < 2 ^ 32 -> (n <= fuel)%nat ->
  tean_dec_loop fuel k v.1 v.2 (u32 (DELTA * Z.of_nat n)) = Some (dec_rounds k 0 n v).
Proof.
  induction n as [|n IH]; intros fuel [y z] Hn Hf; simpl fst; simpl snd.
  - destruct fuel; done.
  - destruct fuel as [|fuel]; [lia|]. rewrite dec_rounds_last. cbn [tean_dec_loop].
    destruct (Z.eqb_spec (u32 (DELTA * Z.of_nat (S n))) 0) as [E|_].
    + change 0 with (u32 (DELTA * 0)) in E. apply delta_injective in E; lia.
    + assert (u32 (DELTA * Z.of_nat (S n)) = u32 (u32 (DELTA * Z.of_nat n) + DELTA)) as ->.
      { rewrite delta_next. do 2 f_equal. lia. }
      assert (u32 (u32 (u32 (DELTA * Z.of_nat n) + DELTA) - DELTA) = u32 (DELTA * Z.of_nat n))
        as E2 by (apply add_sub_u32, u32_is_u32).
      rewrite E2. rewrite <- (IH fuel) by lia. done.
Qed.

(** With less fuel than rounds the loops do not finish. *)
Lemma enc_loop_short k n : forall fuel v i, (fuel < n)%nat -> 0 <= i -> i + Z.of_nat n < 2 ^ 32 ->
  tean_enc_loop fuel k (u32 (DELTA * (i + Z.of_nat n))) v.1 v.2 (u32 (DELTA * i)) = None.
Proof.
  induction n as [|n IH]; intros f v i Hf Hi Hn; [lia|].
  destruct f; cbn [tean_enc_loop];
    destruct (Z.eqb_spec (u32 (DELTA * i)) (u32 (DELTA * (i + Z.of_nat (S n))))) as [E|_];
    try (apply delta_injective in E; lia); [done|].
  rewrite delta_next. replace (i + Z.of_nat (S n)) with (i + 1 + Z.of_nat n) by lia.
  apply (IH f (_, _)); lia.
Qed.

Lemma dec_loop_short k n : forall fuel v, (fuel < n)%nat -> Z.of_nat n < 2 ^ 32 ->
  tean_dec_loop fuel k v.1 v.2 (u32 (DELTA * Z.of_nat n)) = None.
Proof.
  induction n as [|n IH]; intros f v Hf Hn; [lia|].
  destruct f; cbn [tean_dec_loop];
    destruct (Z.eqb_spec (u32 (DELTA * Z.of_nat (S n))) 0) as [E|_];
    try (change 0 with (u32 (DELTA * 0)) in E; apply delta_injective in E; lia); [done|].
  assert (u32 (u32 (DELTA * Z.of_nat (S n)) - DELTA) = u32 (DELTA * Z.of_nat n)) as ->.
  { rewrite wrapu_sub_l by lia. f_equal. lia. }
  apply (IH f (_, _)); lia.
Qed.

(** for every non-zero round count [tean] stops after exactly [|N|]
    iterations, whatever the key and the block (fewer are not enough): the loop
    conditions [sum != limit] and [sum] cannot be met early or missed. *)
Theorem tean_steps k v N fuel : 0 < N < 2 ^ 31 ->
  (is_Some (tean fuel k v N) <-> N <= Z.of_nat fuel) /\
  (is_Some (tean fuel k v (- N)) <-> N <= Z.of_nat fuel).
Proof.
  intros HN. destruct v as [y z].
  unfold tean. replace (0 <? N) with true by lia. replace (0 <? - N) with false by lia.
  rewrite Z.opp_involutive.
  pose proof (enc_loop_rounds k (Z.to_nat N) fuel 0 (y, z)) as E1.
  pose proof (dec_loop_rounds k (Z.to_nat N) fuel (y, z)) as E2.
  pose proof (enc_loop_short k (Z.to_nat N) fuel (y, z) 0) as E3.
  pose proof (dec_loop_short k (Z.to_nat N) fuel (y, z)) as E4.
  rewrite Z2Nat.id, ?Z.add_0_l in * by lia. change (u32 (DELTA * 0)) with 0 in *. cbn [fst snd] in *.
  destruct (Z.le_gt_cases N (Z.of_nat fuel)).
  - rewrite E1, E2 by lia. split; split; intros; (eexists; done) || lia.
  - rewrite E3, E4 by lia. split; split; intros Hs; try lia; by destruct Hs.
Qed.

Lemma tea_enc_eq k v : tea_enc k v = Some (enc_rounds k 0 32 v).
Proof. destruct v as [y z]. apply (enc_loop_rounds k 32 32 0 (y, z)); lia. Qed.
Lemma tea_dec_eq k v : tea_dec k v = Some (dec_rounds k 0 32 v).
Proof. destruct v as [y z]. apply (dec_loop_rounds k 32 32 (y, z)); lia. Qed.

(** [tea_enc] and [tea_dec] are inverse to each other on every 64 bit block,
    for every key. *)
Theorem tea_enc_dec k v : is_block v ->
  (w ← tea_enc k v; tea_dec k w) = Some v /\ (w ← tea_dec k v; tea_enc k w) = Some v.
Proof.
  intros Hv. rewrite tea_enc_eq, tea_dec_eq. cbn [mbind option_bind].
  rewrite tea_dec_eq, tea_enc_eq, dec_enc_rounds, enc_dec_rounds by exact Hv.
  split; reflexivity.
Qed.

(** ** The byte interface *)

Definition v_of (b : list Z) : Z * Z := (le_combine (slice 0 4 b), le_combine (slice 4 4 b)).
Definition of_v (v : Z * Z) : list Z := le_split 4 v.1 ++ le_split 4 v.2.

Lemma zlen_of_v v : zlen (of_v v) = 8.
Proof. reflexivity. Qed.
Lemma of_v_bytes v : bytes (of_v v).
Proof. apply Forall_app. split; apply le_split_bytes. Qed.
Lemma v_of_of_v v : is_block v -> v_of (of_v v) = v.
Proof.
  intros [Hy Hz]. destruct v as [y z].
  change (v_of (of_v (y, z))) with (le_combine (le_split 4 y), le_combine (le_split 4 z)).
  rewrite !le_combine_split; [done|exact Hz|exact Hy].
Qed.
Lemma of_v_v_of b : zlen b = 8 -> bytes b -> of_v (v_of b) = b.
Proof.
  intros L Hb. unfold of_v, v_of. cbn [fst snd].
  assert (forall o, 0 <= o -> o + 4 <= 8 ->
    le_split 4 (le_combine (slice o 4 b)) = slice o 4 b) as E.
  { intros o ??. pose proof (zlen_slice o 4 b) as L4.
    assert (length (slice o 4 b) = 4%nat) as Ll by (unfold zlen in *; lia).
    pose proof (le_split_combine (slice o 4 b)) as E. rewrite Ll in E. auto with zlist. }
  rewrite !E by lia. rewrite <- (slice_split 0 4 4) by lia. by apply slice_all.
Qed.
Lemma v_of_block b : zlen b = 8 -> bytes b -> is_block (v_of b).
Proof.
  intros L Hb. split; cbn [v_of fst snd]; unfold is_u32.
  - pose proof (le_combine_range (slice 0 4 b)) as R. rewrite zlen_slice in R by lia.
    auto with zlist.
  - pose proof (le_combine_range (slice 4 4 b)) as R. rewrite zlen_slice in R by lia.
    auto with zlist.
Qed.

Lemma load_v_app pre b rest : zlen b = 8 ->
  load_v (pre ++ b ++ rest) (zlen pre) = Some (v_of b).
Proof.
  intros L. pose proof (zlen_nonneg pre). pose proof (zlen_nonneg rest).
  unfold load_v. rewrite !load_u_ok by (rewrite ?zlen_app; lia).
  cbn [mbind option_bind]. unfold v_of.
  rewrite !(slice_app_r _ _ pre) by lia.
  rewrite !slice_app_l by lia. do 3 f_equal; f_equal; lia.
Qed.

Lemma store_v_app pre b rest v : zlen b = 8 ->
  store_v (pre ++ b ++ rest) (zlen pre) v = Some (pre ++ of_v v ++ rest).
Proof.
  intros L. unfold store_v, store_u.
  pose proof (zlen_nonneg pre). pose proof (zlen_nonneg rest).
  destruct (mwrite_ex (pre ++ b ++ rest) (zlen pre) (le_split 4 v.1)) as (m1&E&_);
    [lia|rewrite zlen_le_split, !zlen_app; lia|]. rewrite E. cbn [mbind option_bind].
  change (zlen pre + 4) with (zlen pre + zlen (le_split 4 v.1)).
  rewrite (mwrite_adjacent _ _ _ _ _ E) by (rewrite !zlen_le_split, !zlen_app; lia).
  by apply mwrite_app.
Qed.

(** What [v_loop] does to the bytes from its offset on. *)
Fixpoint map_blocks (cipher : Z * Z -> Z * Z) (n : nat) (l : list Z) : list Z :=
  match n with
  | O => l
  | S n => of_v (cipher (v_of (slice 0 8 l))) ++ map_blocks cipher n (slice 8 (zlen l - 8) l)
  end.

Lemma v_loop_map cipher f n : (forall v, cipher v = Some (f v)) ->
  forall pre l, 8 * Z.of_nat n <= zlen l ->
  v_loop cipher n (pre ++ l) (zlen pre) = Some (pre ++ map_blocks f n l).
Proof.
  intros Hc. induction n as [|n IH]; intros pre l Hl; [done|].
  cbn [v_loop map_blocks].
  set (b := slice 0 8 l). set (r := slice 8 (zlen l - 8) l).
  assert (zlen b = 8) as Lb by (apply zlen_slice; lia).
  assert (pre ++ l = pre ++ b ++ r) as -> by (f_equal; apply slice_take_drop; lia).
  rewrite load_v_app by done. cbn [mbind option_bind].
  rewrite Hc. cbn [mbind option_bind].
  rewrite store_v_app by done. cbn [mbind option_bind].
  rewrite app_assoc.
  replace (zlen pre + 8) with (zlen (pre ++ of_v (f (v_of b)))) by (by rewrite zlen_app, zlen_of_v).
  rewrite IH by (subst r; rewrite zlen_slice; lia). by rewrite <- app_assoc.
Qed.

Lemma zlen_map_blocks f n : forall l, 8 * Z.of_nat n <= zlen l -> zlen (map_blocks f n l) = zlen l.
Proof.
  induction n as [|n IH]; intros l Hl; [done|]. cbn [map_blocks].
  rewrite zlen_app, zlen_of_v, IH by (rewrite zlen_slice; lia). rewrite zlen_slice; lia.
Qed.

Lemma map_blocks_inverse f g n : (forall v, is_block v -> is_block (f v) /\ g (f v) = v) ->
  forall l, 8 * Z.of_nat n <= zlen l -> bytes l -> map_blocks g n (map_blocks f n l) = l.
Proof.
  intros Hfg. induction n as [|n IH]; intros l Hl Hb; [done|]. cbn [map_blocks].
  set (b := slice 0 8 l). set (r := slice 8 (zlen l - 8) l).
  assert (zlen b = 8) as Lb by (apply zlen_slice; lia).
  assert (bytes b) as Bb by (by apply Forall_slice).
  destruct (Hfg (v_of b)) as [Hf Hgf]; [by apply v_of_block|].
  rewrite slice_app_l by (rewrite ?zlen_of_v; lia).
  rewrite (slice_all (of_v (f (v_of b)))) by reflexivity.
  rewrite v_of_of_v, Hgf by done. rewrite of_v_v_of by done.
  rewrite slice_app_r by (rewrite ?zlen_of_v; lia).
  rewrite zlen_app, zlen_of_v. rewrite slice_all by lia.
  rewrite IH; [|subst r; rewrite zlen_slice; lia|by apply Forall_slice].
  symmetry. apply slice_take_drop. lia.
Qed.

Lemma stuff_loop_app n : forall pre junk rest, zlen junk = Z.of_nat n ->
  stuff_loop n (pre ++ junk ++ rest) (zlen pre) = Some (pre ++ repeat STUFF_ELE n ++ rest).
Proof.
  induction n as [|n IH]; intros pre junk rest Hj.
  - by rewrite (zlen_0_nil junk).
  - destruct junk as [|b junk]; [by rewrite zlen_nil in Hj|].
    rewrite zlen_cons in Hj. cbn [stuff_loop app repeat].
    rewrite mset_app. cbn [mbind option_bind].
    rewrite (cons_middle STUFF_ELE pre), app_assoc.
    replace (zlen pre + 1) with (zlen (pre ++ [STUFF_ELE])) by (by rewrite zlen_app).
    rewrite IH by lia. by rewrite <- app_assoc.
Qed.

(** The bytes [crypt_stuff] stores after [datalen] bytes of data. *)
Definition stuffing (n : Z) : list Z := repeat STUFF_ELE (Z.to_nat (n - 1)) ++ [u8 n].

Lemma zlen_stuffing n : 0 < n -> zlen (stuffing n) = n.
Proof. intros. unfold stuffing, zlen. rewrite length_app, repeat_length. simpl. lia. Qed.

Lemma crypt_stuff_ok data junk rest n : 0 < n -> zlen junk = n ->
  crypt_stuff (data ++ junk ++ rest) (zlen data) (zlen data + n) =
  Some (data ++ stuffing n ++ rest, true).
Proof.
  intros Hn Hj. pose proof (zlen_nonneg data). unfold crypt_stuff.
  destruct (Z.ltb_spec (zlen data + n) 1); [lia|].
  destruct (Z.leb_spec (zlen data + n) (zlen data)); [lia|]. cbn [orb].
  replace (zlen data + n - zlen data) with n by lia.
  rewrite (slice_take_drop (n - 1) junk) by lia. rewrite <- app_assoc.
  set (j1 := slice 0 (n - 1) junk). set (j2 := slice (n - 1) (zlen junk - (n - 1)) junk).
  assert (zlen j1 = n - 1) as L1 by (apply zlen_slice; lia).
  assert (zlen j2 = 1) as L2 by (subst j2; rewrite zlen_slice; lia).
  destruct j2 as [|b [|]]; [done| |by rewrite !zlen_cons in L2; zlia].
  rewrite stuff_loop_app by lia. cbn [mbind option_bind app].
  assert (zlen (data ++ repeat STUFF_ELE (Z.to_nat (n - 1))) = zlen data + (n - 1)) as Lp.
  { rewrite zlen_app. f_equal. apply zlen_repeat. lia. }
  rewrite app_assoc, <- Lp, mset_app. cbn [mbind option_bind].
  unfold stuffing. by rewrite <- !app_assoc.
Qed.

(** ** The contract of a packet cipher

    What the network layer relies on: the cipher works in place, pads the data
    to its unit, and the inverse restores the padded data. *)
Definition round_up8 (n : Z) : Z := (n + 7) / 8 * 8.

Definition padded (data : list Z) : list Z :=
  let n := round_up8 (zlen data) - zlen data in
  if n =? 0 then data else data ++ stuffing n.

Lemma round_up8_bounds n : n <= round_up8 n < n + 8.
Proof. unfold round_up8. Z.to_euclidean_division_equations. lia. Qed.

Lemma zlen_padded data : zlen (padded data) = round_up8 (zlen data).
Proof.
  unfold padded. pose proof (round_up8_bounds (zlen data)). bcase; [lia|].
  rewrite zlen_app, zlen_stuffing by lia. lia.
Qed.

Lemma padded_bytes data : bytes data -> bytes (padded data).
Proof.
  intros. unfold padded. bcase; [done|]. unfold stuffing.
  repeat (apply Forall_app; split); auto using Forall_nil with zlist.
  - apply (Forall_zrepeat is_byte STUFF_ELE). unfold is_byte, STUFF_ELE. lia.
Qed.

Lemma tea_encrypt_eq data room rest key :
  zlen room = round_up8 (zlen data) - zlen data -> zlen data < 2 ^ 31 - 8 ->
  nd_TEAencrypt (data ++ room ++ rest) (zlen data) key =
  Some (map_blocks (enc_rounds key 0 32) (Z.to_nat (round_up8 (zlen data) / 8))
          (padded data ++ rest), round_up8 (zlen data)).
Proof.
  intros Hr Hd. pose proof (zlen_nonneg data). pose proof (zlen_nonneg rest).
  pose proof (round_up8_bounds (zlen data)). pose proof (zlen_padded data) as Lp.
  assert (forall k, 8 * k <= round_up8 (zlen data) -> 0 <= k ->
    v_loop (tea_enc key) (Z.to_nat k) (padded data ++ rest) 0 =
    Some (map_blocks (enc_rounds key 0 32) (Z.to_nat k) (padded data ++ rest))) as Hv.
  { intros k Hk ?. apply (v_loop_map _ _ _ (tea_enc_eq key) []).
    rewrite zlen_app. lia. }
  unfold nd_TEAencrypt. rewrite Z.rem_mod_nonneg, Z.quot_div_nonneg by lia.
  unfold padded in *.
  destruct (Z.eqb_spec (zlen data mod 8) 0) as [E|E]; cbn [negb].
  - assert (round_up8 (zlen data) = zlen data) as Er
      by (unfold round_up8; Z.to_euclidean_division_equations; lia).
    cbn [mbind option_bind]. rewrite (zlen_0_nil room) by lia.
    replace (round_up8 (zlen data) - zlen data =? 0) with true in * by lia.
    cbn [app]. rewrite Hv by (Z.to_euclidean_division_equations; lia).
    cbn [mbind option_bind]. by rewrite Er.
  - assert ((zlen data / 8 + 1) * 8 = round_up8 (zlen data)) as E8
      by (unfold round_up8; Z.to_euclidean_division_equations; lia).
    assert (zlen data <> round_up8 (zlen data))
      by (intros E'; rewrite E' in E; unfold round_up8 in E; rewrite Z.mod_mul in E; lia).
    replace (round_up8 (zlen data) - zlen data =? 0) with false in * by lia.
    rewrite E8. unwrap_in_range.
    replace (round_up8 (zlen data)) with (zlen data + (round_up8 (zlen data) - zlen data))
      at 1 by lia.
    rewrite crypt_stuff_ok by lia. cbn [mbind option_bind].
    rewrite app_assoc, Hv by lia. cbn [mbind option_bind].
    repeat f_equal. rewrite <- E8, Z.div_mul by lia. done.
Qed.

Lemma map_blocks_app f n : forall l rest, zlen l = 8 * Z.of_nat n ->
  map_blocks f n (l ++ rest) = map_blocks f n l ++ rest.
Proof.
  induction n as [|n IH]; intros l rest Hl; [by rewrite (zlen_0_nil l)|].
  cbn [map_blocks]. pose proof (zlen_nonneg rest).
  rewrite slice_app_l by lia. rewrite <- app_assoc. f_equal.
  rewrite <- IH by (rewrite zlen_slice; lia). f_equal.
  rewrite zlen_app. replace (zlen l + zlen rest - 8) with (zlen l - 8 + zlen rest) by lia.
  rewrite slice_split by lia. rewrite slice_app_l by lia. f_equal.
  rewrite slice_app_r by lia.
  replace (8 + (zlen l - 8) - zlen l) with 0 by lia. by apply slice_all.
Qed.

Lemma map_blocks_bytes f n : forall l, bytes l -> bytes (map_blocks f n l).
Proof.
  induction n as [|n IH]; intros l Hl; [done|]. cbn [map_blocks].
  apply Forall_app. split; [apply of_v_bytes|]. apply IH. by apply Forall_slice.
Qed.

Lemma tea_roundtrip_any data room rest key :
  bytes data -> zlen room = round_up8 (zlen data) - zlen data ->
  zlen data < 2 ^ 31 - 8 ->
  exists enc, zlen enc = round_up8 (zlen data) /\ bytes enc /\
    nd_TEAencrypt (data ++ room ++ rest) (zlen data) key =
      Some (enc ++ rest, round_up8 (zlen data)) /\
    forall rest', nd_TEAdecrypt (enc ++ rest') (round_up8 (zlen data)) key =
      Some (padded data ++ rest', round_up8 (zlen data)).
Proof.
  intros Hb Hr Hd. pose proof (zlen_nonneg data). pose proof (zlen_padded data) as Lp.
  pose proof (round_up8_bounds (zlen data)).
  set (n := Z.to_nat (round_up8 (zlen data) / 8)).
  assert (8 * Z.of_nat n = round_up8 (zlen data)) as En.
  { subst n. unfold round_up8. rewrite Z.div_mul by lia. rewrite Z2Nat.id by (apply Z.div_pos; lia). lia. }
  set (enc := map_blocks (enc_rounds key 0 32) n (padded data)).
  assert (zlen enc = round_up8 (zlen data)) as Le by (subst enc; rewrite zlen_map_blocks; lia).
  exists enc. split; [done|]. split; [by apply map_blocks_bytes, padded_bytes|]. split.
  - rewrite tea_encrypt_eq by done. fold n. by rewrite map_blocks_app by lia.
  - intros rest'. unfold nd_TEAdecrypt. rewrite Z.rem_mod_nonneg, Z.quot_div_nonneg by lia.
    replace (round_up8 (zlen data) mod 8) with 0
      by (unfold round_up8; rewrite Z.mod_mul by lia; done).
    cbn [negb Z.eqb]. fold n.
    pose proof (v_loop_map _ _ n (tea_dec_eq key) [] (enc ++ rest')) as Hv.
    change (zlen (@nil Z)) with 0 in Hv. cbn [app] in Hv.
    rewrite Hv by (rewrite zlen_app; pose proof (zlen_nonneg rest'); lia).
    cbn [mbind option_bind]. do 2 f_equal. rewrite map_blocks_app by lia.
    f_equal. apply map_blocks_inverse; [|lia|by apply padded_bytes].
    intros v Hv'. split; [by apply enc_rounds_block|by apply dec_enc_rounds].
Qed.

(** C12: [nd_TEAencrypt] encrypts any byte string in place and reports the padded
    length; [nd_TEAdecrypt] of that many bytes succeeds and restores the data
    followed by the padding [crypt_stuff] chose (0x20 bytes and the pad length).
    Neither touches a byte beyond the padded length. *)
Theorem nd_TEA_roundtrip data room rest key :
  bytes data -> zlen room = round_up8 (zlen data) - zlen data ->
  zlen data < 2 ^ 31 - 8 ->
  exists enc, zlen enc = round_up8 (zlen data) /\ bytes enc /\
    nd_TEAencrypt (data ++ room ++ rest) (zlen data) key =
      Some (enc ++ rest, round_up8 (zlen data)) /\
    nd_TEAdecrypt (enc ++ rest) (round_up8 (zlen data)) key =
      Some (padded data ++ rest, round_up8 (zlen data)).
Proof.
  intros Hb Hr Hd. destruct (tea_roundtrip_any data room rest key Hb Hr Hd) as (enc & ? & ? & ? & D).
  exists enc. by split_and!.
Qed.

(** ** Concrete values *)

Definition tea_key0 : list Z := [0x01020304; 0x05060708; 0x090a0b0c; 0x0d0e0f10].

Lemma tean_steps_witness :
  (is_Some (tean 32 tea_key0 (1, 2) 32) <-> 32 <= Z.of_nat 32) /\
  (is_Some (tean 32 tea_key0 (1, 2) (- 32)) <-> 32 <= Z.of_nat 32).
Proof. apply (tean_steps tea_key0 (1, 2) 32 32). lia. Defined.

Lemma tea_enc_dec_witness :
  (w ← tea_enc tea_key0 (0xdeadbeef, 7); tea_dec tea_key0 w) = Some (0xdeadbeef, 7) /\
  (w ← tea_dec tea_key0 (0xdeadbeef, 7); tea_enc tea_key0 w) = Some (0xdeadbeef, 7).
Proof. apply tea_enc_dec. split; simpl; unfold is_u32; lia. Defined.

Lemma nd_TEA_roundtrip_witness :
  exists enc, zlen enc = 8 /\ bytes enc /\
    nd_TEAencrypt ([1; 2; 3; 4; 5] ++ [0; 0; 0] ++ [99]) 5 tea_key0 = Some (enc ++ [99], 8) /\
    nd_TEAdecrypt (enc ++ [99]) 8 tea_key0 = Some ([1; 2; 3; 4; 5; 32; 32; 3] ++ [99], 8).
Proof.
  apply (nd_TEA_roundtrip [1; 2; 3; 4; 5] [0; 0; 0] [99] tea_key0).
  - repeat constructor; unfold is_byte; lia.
  - reflexivity.
  - reflexivity.
Defined.
