(* ===== verification/Base64.v ===== *)
(** * Base64: the text encodings of ndcrypt.c

    [base64_encode], [base64_decode] (with the tables it builds), [MD5ToString]
    and [MD5cmp].  The encoder stores its output bytes one after the other from
    [destination[0]]; the model returns them as a list, the terminator
    included. *)

From S2P Require Import Prelude Bytes.
From Stdlib Require Import String.
(** ** Definitions *)

(** The array, its final NUL included. *)
Definition _nd_alphabet : list Z :=
  chars "ABCDEFGHIJKLMNOPQRSTUVWXYZabcdefghijklmnopqrstuvwxyz0123456789+/" ++ [0].

Definition END_OF_BASE64_ENCODED_DATA : Z := 61.
Definition BASE64_NUMBER_OF_CHARACTERS_PER_LINE : Z := 72.

Definition alphabet_at (i : Z) : Z := nth (Z.to_nat i) _nd_alphabet 0.

(** The four sextets of three bytes. *)
Definition sextet1 (b1 : Z) : Z := Z.shiftr b1 2.
Definition sextet2 (b1 b2 : Z) : Z :=
  Z.lor (Z.shiftl (Z.land b1 3) 4) (Z.shiftr (Z.land b2 0xf0) 4).
Definition sextet3 (b2 b3 : Z) : Z :=
  Z.lor (Z.shiftl (Z.land b2 0x0f) 2) (Z.shiftr (Z.land b3 0xc0) 6).
Definition sextet4 (b3 : Z) : Z := Z.land b3 0x3f.

(** The [while] loop; [n] is [number_of_bytes_encoded]. *)
Fixpoint base64_encode_loop (source : list Z) (n : Z) : list Z :=
  match source with
  | [] => [END_OF_BASE64_ENCODED_DATA; 0]
  | b1 :: source =>
      alphabet_at (sextet1 b1) ::
      match source with
      | [] =>
          [alphabet_at (sextet2 b1 0); END_OF_BASE64_ENCODED_DATA;
           END_OF_BASE64_ENCODED_DATA; 0]
      | b2 :: source =>
          alphabet_at (sextet2 b1 b2) ::
          match source with
          | [] => [alphabet_at (sextet3 b2 0); END_OF_BASE64_ENCODED_DATA; 0]
          | b3 :: source =>
              alphabet_at (sextet3 b2 b3) :: alphabet_at (sextet4 b3) ::
              let n := u32 (n + 4) in
              if n mod BASE64_NUMBER_OF_CHARACTERS_PER_LINE =? 0
              then 13 :: 10 :: base64_encode_loop source (u32 (n + 2))
              else base64_encode_loop source n
          end
      end
  end.

(** Returns 0 and the bytes stored. *)
Definition base64_encode (source : list Z) : list Z * Z := (base64_encode_loop source 0, 0).

(** [inalphabet] and [decoder], filled from the last character of the array
    (its NUL) down to the first. *)
Fixpoint decode_tables (i : nat) (inalphabet decoder : list Z) : list Z * list Z :=
  let c := Z.to_nat (nth i _nd_alphabet 0) in
  let inalphabet := <[c := 1]> inalphabet in
  let decoder := <[c := Z.of_nat i]> decoder in
  match i with
  | O => (inalphabet, decoder)
  | S i => decode_tables i inalphabet decoder
  end.

Definition tables : list Z * list Z :=
  Eval vm_compute in
  decode_tables (List.length _nd_alphabet - 1) (zrepeat 0 256) (zrepeat 0 256).
Definition inalphabet (c : Z) : Z := nth (Z.to_nat c) tables.1 0.
Definition decoder (c : Z) : Z := nth (Z.to_nat c) tables.2 0.

(** The [for] loop: the last character read, [bits], [char_count], the bytes
    stored and the input not consumed. *)
Fixpoint base64_decode_loop (input : list Z) (c bits char_count : Z) (output : list Z)
    : Z * Z * Z * list Z * list Z :=
  match input with
  | [] => (c, bits, char_count, output, [])
  | c :: input' =>
      if c =? 61 then (c, bits, char_count, output, input)
      else if (255 <? c) || (inalphabet c =? 0)
      then base64_decode_loop input' c bits char_count output
      else
        let bits := bits + decoder c in
        let char_count := char_count + 1 in
        if char_count =? 4 then
          base64_decode_loop input' c 0 0
            (output ++ [u8 (Z.shiftr bits 16); u8 (Z.land (Z.shiftr bits 8) 0xff);
                        u8 (Z.land bits 0xff)])
        else base64_decode_loop input' c (Z.shiftl bits 6) char_count output
  end.

(** What follows the loop: the status and the bytes stored. *)
Definition base64_decode_end (st : Z * Z * Z * list Z * list Z) : Z * list Z :=
  let '(c, bits, char_count, output, rest) := st in
  if c =? 61 then
    if char_count =? 1 then (-1, output)
    else if char_count =? 2 then (0, output ++ [u8 (Z.shiftr bits 10)])
    else if char_count =? 3 then
      (0, output ++ [u8 (Z.shiftr bits 16); u8 (Z.land (Z.shiftr bits 8) 0xff)])
    else (0, output)
  else if 0 <? zlen rest then
    if negb (char_count =? 0) then (-1, output) else (0, output)
  else (0, output).

Definition base64_decode (input : list Z) : Z * list Z :=
  base64_decode_end (base64_decode_loop input 0 0 0 []).

(** The two digits ["%02x"] prints for a byte. *)
Definition hex_digit (d : Z) : Z := if d <? 10 then 48 + d else 87 + d.
Definition MD5ToString (src : list Z) : list Z :=
  flat_map (fun b => [hex_digit (b / 16); hex_digit (b mod 16)]) (slice 0 16 src) ++ [0].

(** The [int] difference of two unsigned words. *)
Definition word_diff (src desc : list Z) (i : Z) : Z :=
  s32 (u32 (le_combine (slice (4 * i) 4 src) - le_combine (slice (4 * i) 4 desc))).
Definition MD5cmp (src desc : list Z) : Z :=
  let ret := word_diff src desc 0 in if negb (ret =? 0) then ret else
  let ret := word_diff src desc 1 in if negb (ret =? 0) then ret else
  let ret := word_diff src desc 2 in if negb (ret =? 0) then ret else
  word_diff src desc 3.

(** ** Facts about single characters, checked over all byte values *)

Definition all_below (n : nat) (p : Z -> bool) : bool := forallb p (map Z.of_nat (seq 0 n)).

Lemma all_below_spec n p : all_below n p = true -> forall z, 0 <= z < Z.of_nat n -> p z = true.
Proof.
  intros H z Hz. unfold all_below in H. rewrite forallb_forall in H. apply H.
  apply in_map_iff. exists (Z.to_nat z). split; [lia|]. apply in_seq. lia.
Qed.

Lemma sextets b1 b2 : is_byte b1 -> is_byte b2 ->
  sextet1 b1 = b1 / 4 /\ sextet2 b1 b2 = b1 mod 4 * 16 + b2 / 16 /\
  sextet3 b1 b2 = b1 mod 16 * 4 + b2 / 64 /\ sextet4 b1 = b1 mod 64.
Proof.
  intros H1 H2.
  assert (all_below 256 (fun b1 => all_below 256 (fun b2 =>
    (sextet1 b1 =? b1 / 4) && (sextet2 b1 b2 =? b1 mod 4 * 16 + b2 / 16) &&
    (sextet3 b1 b2 =? b1 mod 16 * 4 + b2 / 64) && (sextet4 b1 =? b1 mod 64))) = true)
    as H by (vm_compute; reflexivity).
  pose proof (all_below_spec _ _ H b1 H1) as H'. cbn beta in H'.
  pose proof (all_below_spec _ _ H' b2 H2) as H''. cbn beta in H''.
  rewrite !andb_true_iff, !Z.eqb_eq in H''. tauto.
Qed.

Lemma alphabet_char i : 0 <= i < 64 ->
  (alphabet_at i =? 61) = false /\ (255 <? alphabet_at i) = false /\
  (inalphabet (alphabet_at i) =? 0) = false /\ decoder (alphabet_at i) = i /\
  alphabet_at i <> 0 /\ alphabet_at i <> 13.
Proof.
  intros Hi.
  assert (all_below 64 (fun i => negb (alphabet_at i =? 61) && negb (255 <? alphabet_at i) &&
    negb (inalphabet (alphabet_at i) =? 0) && (decoder (alphabet_at i) =? i) &&
    negb (alphabet_at i =? 0) && negb (alphabet_at i =? 13)) = true)
    as H by (vm_compute; reflexivity).
  pose proof (all_below_spec _ _ H i Hi) as H'. cbn beta in H'.
  rewrite !andb_true_iff, !negb_true_iff, !Z.eqb_eq, !Z.eqb_neq in H'.
  rewrite Z.eqb_neq. destruct H' as (((((?&?)&?)&?)&?)&?). split_and!; try done.
  by apply Z.eqb_neq.
Qed.

(** Reading one alphabet character. *)
Lemma decode_step i input c bits cc out : 0 <= i < 64 -> 0 <= cc < 4 ->
  base64_decode_loop (alphabet_at i :: input) c bits cc out =
  if cc + 1 =? 4 then
    base64_decode_loop input (alphabet_at i) 0 0
      (out ++ [u8 (Z.shiftr (bits + i) 16); u8 (Z.land (Z.shiftr (bits + i) 8) 0xff);
               u8 (Z.land (bits + i) 0xff)])
  else base64_decode_loop input (alphabet_at i) (Z.shiftl (bits + i) 6) (cc + 1) out.
Proof.
  intros Hi Hc. destruct (alphabet_char i Hi) as (E1&E2&E3&E4&_).
  cbn [base64_decode_loop]. by rewrite E1, E2, E3, E4.
Qed.

(** Decides the comparisons of a constant [char_count]. *)
Ltac eval_counts :=
  change (0 + 1 =? 4) with false; change (0 + 1 + 1 =? 4) with false;
  change (0 + 1 + 1 + 1 =? 4) with false; change (0 + 1 + 1 + 1 + 1 =? 4) with true;
  cbv iota.

(** Four characters give back the three bytes they encode. *)
Lemma decode_group b1 b2 b3 input c out : is_byte b1 -> is_byte b2 -> is_byte b3 ->
  base64_decode_loop
    (alphabet_at (sextet1 b1) :: alphabet_at (sextet2 b1 b2) ::
     alphabet_at (sextet3 b2 b3) :: alphabet_at (sextet4 b3) :: input) c 0 0 out =
  base64_decode_loop input (alphabet_at (sextet4 b3)) 0 0 (out ++ [b1; b2; b3]).
Proof.
  intros H1 H2 H3. destruct (sextets b1 b2 H1 H2) as (E1&E2&_&_).
  destruct (sextets b2 b3 H2 H3) as (_&_&E3&_). destruct (sextets b3 b3 H3 H3) as (_&_&_&E4).
  unfold is_byte in *. rewrite E1, E2, E3, E4.
  rewrite !decode_step by (Z.to_euclidean_division_equations; lia). eval_counts.
  rewrite !Z.shiftl_mul_pow2 by lia. change (2 ^ 6) with 64.
  set (w := _ + b3 mod 64).
  assert (w = b1 * 65536 + b2 * 256 + b3) as ->
    by (subst w; Z.to_euclidean_division_equations; lia).
  change 0xff with (Z.ones 8). rewrite !Z.land_ones, !Z.shiftr_div_pow2 by lia.
  do 2 f_equal. unfold wrapu.
  change (2 ^ 16) with 65536. change (2 ^ 8) with 256.
  repeat f_equal; Z.to_euclidean_division_equations; lia.
Qed.

(** The tails the encoder writes for one and for two remaining bytes. *)
Lemma decode_tail1 b1 input c out : is_byte b1 ->
  base64_decode_end (base64_decode_loop
    (alphabet_at (sextet1 b1) :: alphabet_at (sextet2 b1 0) :: 61 :: input) c 0 0 out) =
  (0, out ++ [b1]).
Proof.
  intros H1. destruct (sextets b1 0 H1) as (E1&E2&_&_); [unfold is_byte; lia|].
  unfold is_byte in *. rewrite E1, E2.
  rewrite !decode_step by (Z.to_euclidean_division_equations; lia). eval_counts.
  cbn [base64_decode_loop base64_decode_end Z.eqb Pos.eqb Z.add Pos.add].
  rewrite !Z.shiftl_mul_pow2, Z.shiftr_div_pow2 by lia. unfold wrapu.
  change (2 ^ 6) with 64. change (2 ^ 10) with 1024. change (2 ^ 8) with 256.
  repeat f_equal; Z.to_euclidean_division_equations; lia.
Qed.

Lemma decode_tail2 b1 b2 input c out : is_byte b1 -> is_byte b2 ->
  base64_decode_end (base64_decode_loop
    (alphabet_at (sextet1 b1) :: alphabet_at (sextet2 b1 b2) ::
     alphabet_at (sextet3 b2 0) :: 61 :: input) c 0 0 out) =
  (0, out ++ [b1; b2]).
Proof.
  intros H1 H2. destruct (sextets b1 b2 H1 H2) as (E1&E2&_&_).
  destruct (sextets b2 0 H2) as (_&_&E3&_); [unfold is_byte; lia|].
  unfold is_byte in *. rewrite E1, E2, E3.
  rewrite !decode_step by (Z.to_euclidean_division_equations; lia). eval_counts.
  cbn [base64_decode_loop base64_decode_end Z.eqb Pos.eqb Z.add Pos.add].
  change 255 with (Z.ones 8).
  rewrite !Z.shiftl_mul_pow2, !Z.land_ones, !Z.shiftr_div_pow2 by lia. unfold wrapu.
  change (2 ^ 6) with 64. change (2 ^ 16) with 65536. change (2 ^ 8) with 256.
  repeat f_equal; Z.to_euclidean_division_equations; lia.
Qed.

(** Line breaks are skipped. *)
Lemma decode_crlf input c bits cc out :
  base64_decode_loop (13 :: 10 :: input) c bits cc out = base64_decode_loop input 10 bits cc out.
Proof. reflexivity. Qed.

Lemma alphabet_nonzero i : 0 <= i < 64 -> alphabet_at i <> 0.
Proof. intros Hi. apply (alphabet_char i Hi). Qed.

Lemma sextet_range b1 b2 : is_byte b1 -> is_byte b2 ->
  0 <= sextet1 b1 < 64 /\ 0 <= sextet2 b1 b2 < 64 /\ 0 <= sextet3 b1 b2 < 64 /\
  0 <= sextet4 b1 < 64.
Proof.
  intros H1 H2. destruct (sextets b1 b2 H1 H2) as (->&->&->&->). unfold is_byte in *.
  split_and!; Z.to_euclidean_division_equations; lia.
Qed.

(** Induction three bytes at a time, as the loop goes. *)
Lemma list_ind3 {A} (P : list A -> Prop) :
  P [] -> (forall a, P [a]) -> (forall a b, P [a; b]) ->
  (forall a b c l, P l -> P (a :: b :: c :: l)) -> forall l, P l.
Proof.
  intros H0 H1 H2 H3 l.
  assert (P l /\ (forall a, P (a :: l)) /\ (forall a b, P (a :: b :: l))) as [? _]; [|done].
  induction l as [|x l (Pl&Pl1&Pl2)]; [done|]. split_and!; auto.
Qed.

Lemma encode_decode_loop src : bytes src -> forall n c out,
  exists s, base64_encode_loop src n = s ++ [0] /\ Forall (fun b => b <> 0) s /\
    base64_decode_end (base64_decode_loop s c 0 0 out) = (0, out ++ src).
Proof.
  assert (is_byte 0) as B0 by (unfold is_byte; lia).
  assert (forall b1 b2, is_byte b1 -> is_byte b2 -> alphabet_at (sextet1 b1) <> 0 /\
    alphabet_at (sextet2 b1 b2) <> 0 /\ alphabet_at (sextet3 b1 b2) <> 0 /\
    alphabet_at (sextet4 b1) <> 0) as Hnz.
  { intros b1 b2 H1 H2. destruct (sextet_range b1 b2 H1 H2) as (?&?&?&?).
    split_and!; by apply alphabet_nonzero. }
  induction src as [|a|a b|a b d src IH] using list_ind3; intros Hb n c out.
  - exists [61]. split_and!; [done|repeat constructor; lia|by rewrite app_nil_r].
  - inversion_clear Hb as [|?? Ha _]. destruct (Hnz a 0 Ha B0) as (?&?&_&_).
    eexists [_; _; 61; 61]. split; [reflexivity|].
    split; [repeat constructor; done || lia|]. by apply decode_tail1.
  - inversion_clear Hb as [|?? Ha Hb']. inversion_clear Hb' as [|?? Hb _].
    destruct (Hnz a b Ha Hb) as (?&?&_&_). destruct (Hnz b 0 Hb B0) as (_&_&?&_).
    eexists [_; _; _; 61]. split; [reflexivity|].
    split; [repeat constructor; done || lia|]. by apply decode_tail2.
  - inversion_clear Hb as [|?? Ha Hb']. inversion_clear Hb' as [|?? Hb Hd'].
    inversion_clear Hd' as [|?? Hd Hs].
    destruct (Hnz a b Ha Hb) as (?&?&_&_). destruct (Hnz b d Hb Hd) as (_&_&?&_).
    destruct (Hnz d d Hd Hd) as (_&_&_&?).
    cbn [base64_encode_loop].
    destruct (_ =? 0).
    + edestruct (IH Hs (u32 (u32 (n + 4) + 2)) 10 (out ++ [a; b; d])) as (s&->&Fs&E).
      eexists (_ :: _ :: _ :: _ :: 13 :: 10 :: s). split; [reflexivity|].
      split; [repeat constructor; done || lia|].
      rewrite decode_group, decode_crlf, E by done. by rewrite <- app_assoc.
    + edestruct (IH Hs (u32 (n + 4)) (alphabet_at (sextet4 d)) (out ++ [a; b; d])) as (s&->&Fs&E).
      eexists (_ :: _ :: _ :: _ :: s). split; [reflexivity|].
      split; [repeat constructor; done|].
      rewrite decode_group by done. rewrite E. by rewrite <- app_assoc.
Qed.

(** [base64_encode] of any byte string stores a NUL-terminated text without
    other NULs, and [base64_decode] of that text (line breaks and padding
    included) succeeds and returns the bytes that were encoded. *)
Theorem base64_roundtrip src : bytes src ->
  exists text, base64_encode src = (text ++ [0], 0) /\ Forall (fun b => b <> 0) text /\
    base64_decode text = (0, src).
Proof.
  intros Hb. destruct (encode_decode_loop src Hb 0 0 []) as (s&E&Fs&D).
  exists s. unfold base64_encode, base64_decode. by rewrite E, D.
Qed.

(** From a count that is 2 modulo 4 the encoder never breaks a line again. *)
Lemma encode_no_break src : bytes src -> forall n, 0 <= n < 2 ^ 32 -> n mod 4 = 2 ->
  Forall (fun b => b <> 13) (base64_encode_loop src n).
Proof.
  assert (is_byte 0) as B0 by (unfold is_byte; lia).
  assert (forall i, 0 <= i < 64 -> alphabet_at i <> 13) as Hne
    by (intros i Hi; apply (alphabet_char i Hi)).
  assert (forall b1 b2, is_byte b1 -> is_byte b2 -> alphabet_at (sextet1 b1) <> 13 /\
    alphabet_at (sextet2 b1 b2) <> 13 /\ alphabet_at (sextet3 b1 b2) <> 13 /\
    alphabet_at (sextet4 b1) <> 13) as Hnz.
  { intros b1 b2 H1 H2. destruct (sextet_range b1 b2 H1 H2) as (?&?&?&?).
    split_and!; by apply Hne. }
  unfold END_OF_BASE64_ENCODED_DATA.
  induction src as [|a|a b|a b d src IH] using list_ind3; intros Hb n Hn Hm.
  - repeat constructor; done.
  - inversion_clear Hb as [|?? Ha _]. destruct (Hnz a 0 Ha B0) as (?&?&_&_).
    repeat constructor; done.
  - inversion_clear Hb as [|?? Ha Hb']. inversion_clear Hb' as [|?? Hb _].
    destruct (Hnz a b Ha Hb) as (?&?&_&_). destruct (Hnz b 0 Hb B0) as (_&_&?&_).
    repeat constructor; done.
  - inversion_clear Hb as [|?? Ha Hb']. inversion_clear Hb' as [|?? Hb Hd'].
    inversion_clear Hd' as [|?? Hd Hs].
    destruct (Hnz a b Ha Hb) as (?&?&_&_). destruct (Hnz b d Hb Hd) as (_&_&?&_).
    destruct (Hnz d d Hd Hd) as (_&_&_&?).
    assert (u32 (n + 4) mod 4 = 2) as Hm'.
    { unfold wrapu. change (2 ^ 32) with 4294967296. Z.to_euclidean_division_equations. lia. }
    pose proof (wrapu_range 32 (n + 4) ltac:(lia)).
    cbn [base64_encode_loop]. unfold BASE64_NUMBER_OF_CHARACTERS_PER_LINE.
    destruct (Z.eqb_spec (u32 (n + 4) mod 72) 0) as [E|_].
    + Z.to_euclidean_division_equations. lia.
    + repeat constructor; try done. apply IH; try done; lia.
Qed.

(** the encoder breaks only its first line: the carriage return and line
    feed after 72 characters are counted as characters themselves, the count is
    never a multiple of 72 again, and everything after the first 54 input bytes
    is one line, however long. *)
Theorem base64_one_line_break src : bytes src -> 54 <= zlen src ->
  exists line rest, (base64_encode src).1 = line ++ [13; 10] ++ rest /\
    zlen line = 72 /\ Forall (fun b => b <> 13) rest.
Proof.
  intros Hb Hl. unfold base64_encode. cbn [fst].
  set (tail := slice 54 (zlen src - 54) src).
  assert (src = slice 0 54 src ++ tail) as Es by (apply slice_take_drop; lia).
  assert (zlen (slice 0 54 src) = 54) as Lh by (apply zlen_slice; lia).
  assert (bytes tail) as Ht by (by apply Forall_slice).
  destruct (slice 0 54 src) as [|x0 h]; [done|]. rewrite Es. clear Es Hl.
  do 53 (destruct h as [|? h]; [done|]).
  destruct h; [|rewrite !zlen_cons in Lh; pose proof (zlen_nonneg h); lia].
  eexists [_;_;_;_;_;_;_;_; _;_;_;_;_;_;_;_; _;_;_;_;_;_;_;_; _;_;_;_;_;_;_;_;
           _;_;_;_;_;_;_;_; _;_;_;_;_;_;_;_; _;_;_;_;_;_;_;_; _;_;_;_;_;_;_;_;
           _;_;_;_;_;_;_;_], (base64_encode_loop tail 74).
  split; [reflexivity|]. split; [reflexivity|].
  apply encode_no_break; [done|lia|reflexivity].
Qed.

Lemma base64_roundtrip_witness :
  exists text, base64_encode [0; 255; 13; 10; 61] = (text ++ [0], 0) /\
    Forall (fun b => b <> 0) text /\ base64_decode text = (0, [0; 255; 13; 10; 61]).
Proof. apply base64_roundtrip. repeat constructor; unfold is_byte; lia. Defined.

Lemma base64_one_line_break_witness :
  exists line rest, (base64_encode (zrepeat 200 300)).1 = line ++ [13; 10] ++ rest /\
    zlen line = 72 /\ Forall (fun b => b <> 13) rest.
Proof.
  apply base64_one_line_break; [|vm_compute; congruence].
  apply Forall_zrepeat. unfold is_byte. lia.
Defined.
