(* ===== verification/DList.v ===== *)
(** * DList: the intrusive doubly linked lists of list.h

    [struct list_head] ([include/nd_common/list.h] 47-170) is a pair of
    pointers; a heap maps the address of a list head to its [next] and [prev].
    Every dereference of an address outside the heap is [None].  [dlist h head l]
    says that the ring through [head] links the entries [l] in order. *)

From S2P Require Import Prelude.

Abbreviation lheap := (gmap Z (Z * Z)).

(** ** Operations *)

Definition get_next (h : lheap) (a : Z) : option Z := '(n, _) ← h !! a; Some n.
Definition get_prev (h : lheap) (a : Z) : option Z := '(_, p) ← h !! a; Some p.
Definition set_next (a n : Z) (h : lheap) : option lheap :=
  '(_, p) ← h !! a; Some (<[a := (n, p)]> h).
Definition set_prev (a p : Z) (h : lheap) : option lheap :=
  '(n, _) ← h !! a; Some (<[a := (n, p)]> h).

(** Also the birth of a list head: the address joins the heap. *)
Definition INIT_LIST_HEAD (a : Z) (h : lheap) : lheap := <[a := (a, a)]> h.

Definition __list_add (new_node prev next : Z) (h : lheap) : option lheap :=
  h ← set_prev next new_node h;
  h ← set_next new_node next h;
  h ← set_prev new_node prev h;
  set_next prev new_node h.

Definition list_add (new_node head : Z) (h : lheap) : option lheap :=
  n ← get_next h head; __list_add new_node head n h.
Definition list_add_tail (new_node head : Z) (h : lheap) : option lheap :=
  p ← get_prev h head; __list_add new_node p head h.

Definition __list_del (prev next : Z) (h : lheap) : option lheap :=
  h ← set_prev next prev h; set_next prev next h.
Definition list_del (entry : Z) (h : lheap) : option lheap :=
  p ← get_prev h entry; n ← get_next h entry; __list_del p n h.
Definition list_del_init (entry : Z) (h : lheap) : option lheap :=
  h ← list_del entry h; Some (INIT_LIST_HEAD entry h).

Definition list_empty (head : Z) (h : lheap) : option bool :=
  n ← get_next h head; Some (n =? head).

Definition list_join (list head : Z) (h : lheap) : option lheap :=
  first ← get_next h list;
  if negb (first =? list) then
    last ← get_prev h list;
    at_ ← get_next h head;
    h ← set_prev first head h;
    h ← set_next head first h;
    h ← set_next last at_ h;
    h ← set_prev at_ last h;
    Some (INIT_LIST_HEAD list h)
  else Some h.

(** [list_for_each]: the entries met from [pos] until [head], with fuel. *)
Fixpoint walk_ring (fuel : nat) (h : lheap) (pos head : Z) : option (list Z) :=
  if pos =? head then Some []
  else match fuel with
  | O => None
  | S fuel => n ← get_next h pos; l ← walk_ring fuel h n head; Some (pos :: l)
  end.
Definition list_entries (fuel : nat) (h : lheap) (head : Z) : option (list Z) :=
  n ← get_next h head; walk_ring fuel h n head.

(** ** Representation *)

Definition link (h : lheap) (a b : Z) : Prop :=
  get_next h a = Some b /\ get_prev h b = Some a.

Fixpoint chain (h : lheap) (l : list Z) : Prop :=
  match l with
  | a :: (b :: _) as l' => link h a b /\ chain h l'
  | _ => True
  end.

Definition dlist (h : lheap) (head : Z) (l : list Z) : Prop :=
  chain h (head :: l ++ [head]) /\ NoDup (head :: l).

Lemma chain_app h l1 a l2 : chain h (l1 ++ a :: l2) <-> chain h (l1 ++ [a]) /\ chain h (a :: l2).
Proof.
  induction l1 as [|x l1 IH]; simpl; [tauto|]. destruct l1 as [|y l1]; simpl in *; tauto.
Qed.

Lemma get_next_alter h a b n p : h !! a = Some (n, p) -> forall x,
  get_next (<[a := (b, p)]> h) x = if decide (x = a) then Some b else get_next h x.
Proof.
  intros E x. unfold get_next. destruct (decide (x = a)) as [->|].
  - by rewrite lookup_insert_eq.
  - by rewrite lookup_insert_ne.
Qed.
Lemma get_prev_alter h a b n p : h !! a = Some (n, p) -> forall x,
  get_prev (<[a := (n, b)]> h) x = if decide (x = a) then Some b else get_prev h x.
Proof.
  intros E x. unfold get_prev. destruct (decide (x = a)) as [->|].
  - by rewrite lookup_insert_eq.
  - by rewrite lookup_insert_ne.
Qed.

Lemma set_next_ok h a b : is_Some (h !! a) ->
  exists h', set_next a b h = Some h' /\ dom h' = dom h /\
    (forall x, get_next h' x = if decide (x = a) then Some b else get_next h x) /\
    (forall x, get_prev h' x = get_prev h x).
Proof.
  intros [[n p] E]. unfold set_next. rewrite E; simpl. eexists. split_and!; [done| | |].
  - rewrite dom_insert_lookup_L; eauto.
  - by eapply get_next_alter.
  - intros x. unfold get_prev. destruct (decide (x = a)) as [->|];
      [by rewrite lookup_insert_eq, E | by rewrite lookup_insert_ne].
Qed.
Lemma set_prev_ok h a b : is_Some (h !! a) ->
  exists h', set_prev a b h = Some h' /\ dom h' = dom h /\
    (forall x, get_prev h' x = if decide (x = a) then Some b else get_prev h x) /\
    (forall x, get_next h' x = get_next h x).
Proof.
  intros [[n p] E]. unfold set_prev. rewrite E; simpl. eexists. split_and!; [done| | |].
  - rewrite dom_insert_lookup_L; eauto.
  - by eapply get_prev_alter.
  - intros x. unfold get_next. destruct (decide (x = a)) as [->|];
      [by rewrite lookup_insert_eq, E | by rewrite lookup_insert_ne].
Qed.

Lemma get_next_dom h a : is_Some (get_next h a) <-> is_Some (h !! a).
Proof. unfold get_next. destruct (h !! a) as [[]|]; simpl; split; intros []; eauto; done. Qed.
Lemma get_prev_dom h a : is_Some (get_prev h a) <-> is_Some (h !! a).
Proof. unfold get_prev. destruct (h !! a) as [[]|]; simpl; split; intros []; eauto; done. Qed.
Lemma dom_is_Some (h h' : lheap) a : dom h' = dom h -> is_Some (h !! a) -> is_Some (h' !! a).
Proof. intros E H. apply elem_of_dom. rewrite E. by apply elem_of_dom. Qed.

Lemma link_dom h a b : link h a b -> is_Some (h !! a) /\ is_Some (h !! b).
Proof. intros [H1 H2]. split; [apply get_next_dom|apply get_prev_dom]; eauto. Qed.

Lemma chain_dom h l : chain h l -> (2 <= length l)%nat -> forall x, x ∈ l -> is_Some (h !! x).
Proof.
  induction l as [|a [|b l] IH]; simpl; intros Hc Hl x Hx; [lia|lia|].
  destruct Hc as [Hk Hc]. destruct (link_dom _ _ _ Hk). set_unfold. destruct Hx as [->|[->|Hx]]; auto.
  destruct l as [|c l]; [by set_unfold|]. apply IH; [done|simpl; lia|set_solver].
Qed.

(** A chain only depends on the [next] of its entries but the last and the
    [prev] of its entries but the first. *)
Lemma chain_frame h h' l : chain h l ->
  (forall x, x ∈ removelast l -> get_next h' x = get_next h x) ->
  (forall x, x ∈ tail l -> get_prev h' x = get_prev h x) -> chain h' l.
Proof.
  induction l as [|a [|b l] IH]; [done|done|]. intros [[Ha Hb] Hc] Hn Hp. split.
  - split; [rewrite Hn|rewrite Hp]; [done|simpl; set_solver|done|simpl; set_solver].
  - apply IH; [done|intros x Hx; apply Hn|intros x Hx; apply Hp]; simpl in *; set_solver.
Qed.

Definition ring_ok (l : list Z) : Prop := NoDup (removelast l) /\ NoDup (tail l).

Lemma removelast_snoc {A} (l : list A) x : removelast (l ++ [x]) = l.
Proof. by rewrite removelast_app, app_nil_r. Qed.

Lemma dlist_ring h head l : dlist h head l -> ring_ok (head :: l ++ [head]).
Proof.
  intros [_ Hn]. split.
  - change (head :: l ++ [head]) with ((head :: l) ++ [head]). by rewrite removelast_snoc.
  - simpl. apply NoDup_app. apply NoDup_cons in Hn as [??]. split; [done|].
    split; [set_solver|apply NoDup_singleton].
Qed.

Lemma ring_ok_split P a b Q : ring_ok (P ++ a :: b :: Q) ->
  (b ∉ tail (P ++ [a])) /\ (a ∉ removelast (b :: Q)).
Proof.
  intros [Hr Ht]. split.
  - destruct P as [|p P]; [set_solver|]. simpl in *.
    replace (P ++ a :: b :: Q) with ((P ++ [a]) ++ b :: Q) in Ht by (by rewrite <- app_assoc).
    apply NoDup_app in Ht as (_&Ht&_). intros Hb. apply (Ht b Hb). set_solver.
  - rewrite removelast_app in Hr by done. apply NoDup_app in Hr as (_&_&Hr).
    change (removelast (a :: b :: Q)) with (a :: removelast (b :: Q)) in Hr.
    by apply NoDup_cons in Hr as [? _].
Qed.

Lemma elem_tail {A} (x : A) l : x ∈ tail l -> x ∈ l.
Proof. destruct l; set_solver. Qed.
Lemma elem_removelast {A} (x : A) l : x ∈ removelast l -> x ∈ l.
Proof.
  induction l as [|a [|b l] IH]; [set_solver|set_solver|]. simpl in *. set_unfold. naive_solver.
Qed.

(** Inserting a fresh entry between two neighbours. *)
Lemma chain_insert h P a b Q x :
  chain h (P ++ a :: b :: Q) -> ring_ok (P ++ a :: b :: Q) ->
  x ∉ P ++ a :: b :: Q -> is_Some (h !! x) ->
  exists h', __list_add x a b h = Some h' /\ chain h' (P ++ a :: x :: b :: Q) /\ dom h' = dom h.
Proof.
  intros Hc Hr Hx Sx. destruct (ring_ok_split _ _ _ _ Hr) as [Hb Ha].
  apply chain_app in Hc as [Hc1 [Hab Hc2]].
  destruct (link_dom _ _ _ Hab) as [Sa Sb]. unfold __list_add.
  destruct (set_prev_ok h b x Sb) as (h1&E1&D1&P1&N1). rewrite E1; simpl.
  destruct (set_next_ok h1 x b) as (h2&E2&D2&N2&P2); [by eapply dom_is_Some|].
  rewrite E2; simpl.
  destruct (set_prev_ok h2 x a) as (h3&E3&D3&P3&N3).
  { apply (dom_is_Some h); [congruence|done]. } rewrite E3; simpl.
  destruct (set_next_ok h3 a x) as (h4&E4&D4&N4&P4).
  { apply (dom_is_Some h); [congruence|done]. } rewrite E4.
  exists h4. split; [done|]. split; [|congruence].
  assert (x <> a) by set_solver. assert (x <> b) by set_solver.
  assert (forall y, get_next h4 y = if decide (y = a) then Some x
    else if decide (y = x) then Some b else get_next h y) as N.
  { intros y. by rewrite N4, N3, N2, N1. }
  assert (forall y, get_prev h4 y = if decide (y = x) then Some a
    else if decide (y = b) then Some x else get_prev h y) as Pv.
  { intros y. by rewrite P4, P3, P2, P1. }
  apply chain_app. split.
  - eapply chain_frame; [done| |]; intros y Hy.
    + rewrite N. rewrite removelast_snoc in Hy.
      assert (y <> a).
      { intros ->. destruct Hr as [Hr _]. rewrite removelast_app in Hr by done.
        apply NoDup_app in Hr as (_&Hr&_). apply (Hr a Hy). simpl. set_solver. }
      assert (y <> x) by set_solver. by rewrite !decide_False.
    + rewrite Pv. assert (y <> b) by set_solver.
      assert (y <> x) by (apply elem_tail in Hy; set_solver). by rewrite !decide_False.
  - split; [split|split; [split|]].
    + by rewrite N, decide_True.
    + by rewrite Pv, decide_True.
    + by rewrite N, decide_False, decide_True.
    + by rewrite Pv, decide_False, decide_True by done.
    + eapply chain_frame; [exact Hc2| |]; intros y Hy.
      * rewrite N. assert (y <> a) by set_solver.
        assert (y <> x) by (apply elem_removelast in Hy; set_solver). by rewrite !decide_False.
      * rewrite Pv. simpl in Hy. assert (y <> x) by set_solver.
        assert (y <> b).
        { intros ->. destruct Hr as [_ Ht].
          replace (P ++ a :: b :: Q) with ((P ++ [a]) ++ b :: Q) in Ht by (by rewrite <- app_assoc).
          assert (NoDup (b :: Q)) as Hn.
          { destruct P as [|p P]; [exact Ht|]. simpl in Ht. by apply NoDup_app in Ht as (_&_&?). }
          by apply NoDup_cons in Hn as [? _]. }
        by rewrite !decide_False.
Qed.

(** Unlinking the entry between two neighbours. *)
Lemma chain_remove h P a x b Q :
  chain h (P ++ a :: x :: b :: Q) -> ring_ok (P ++ a :: x :: b :: Q) ->
  exists h', __list_del a b h = Some h' /\ chain h' (P ++ a :: b :: Q) /\ dom h' = dom h.
Proof.
  intros Hc [Hr Ht]. apply chain_app in Hc as [Hc1 [Hax [Hxb Hc2]]].
  destruct (link_dom _ _ _ Hax) as [Sa Sx]. destruct (link_dom _ _ _ Hxb) as [_ Sb].
  unfold __list_del. destruct (set_prev_ok h b a Sb) as (h1&E1&D1&P1&N1). rewrite E1; simpl.
  destruct (set_next_ok h1 a b) as (h2&E2&D2&N2&P2); [by eapply dom_is_Some|].
  exists h2. split; [done|]. split; [|congruence].
  rewrite removelast_app in Hr by done. apply NoDup_app in Hr as (_&Hr1&Hr2).
  change (removelast (a :: x :: b :: Q)) with (a :: x :: removelast (b :: Q)) in *.
  replace (P ++ a :: x :: b :: Q) with ((P ++ [a]) ++ x :: b :: Q) in Ht by (by rewrite <- app_assoc).
  assert ((b ∉ tail (P ++ [a])) /\ (b ∉ Q)) as [Hb1 Hb2].
  { destruct P as [|p P]; simpl in Ht; [|apply NoDup_app in Ht as (_&Hd&Ht)];
      apply NoDup_cons in Ht as [? Ht]; apply NoDup_cons in Ht as [? _]; set_solver. }
  apply chain_app. split; [|split; [split|]].
  - eapply chain_frame; [exact Hc1| |]; intros y Hy.
    + rewrite removelast_snoc in Hy. rewrite N2, N1, decide_False; [done|].
      intros ->. apply (Hr1 a Hy). set_solver.
    + rewrite P2, P1, decide_False; [done|]. set_solver.
  - by rewrite N2, decide_True.
  - by rewrite P2, P1, decide_True.
  - eapply chain_frame; [exact Hc2| |]; intros y Hy.
    + rewrite N2, N1, decide_False; [done|]. apply NoDup_cons in Hr2 as [? _]. set_solver.
    + rewrite P2, P1, decide_False; [done|]. set_solver.
Qed.

(** ** What the list operations do to a represented list *)

Lemma dlist_dom h head l x : dlist h head l -> x ∈ head :: l -> is_Some (h !! x).
Proof.
  intros [Hc _] Hx. eapply chain_dom; [exact Hc|simpl; rewrite length_app; simpl; lia|].
  set_solver.
Qed.

Lemma dlist_init h head : dlist (INIT_LIST_HEAD head h) head [].
Proof.
  split; [|apply NoDup_singleton]. unfold INIT_LIST_HEAD. simpl.
  split; [|done]. split; [unfold get_next|unfold get_prev]; by rewrite lookup_insert_eq.
Qed.

Lemma dlist_init_ne h head l x : dlist h head l -> x ∉ head :: l ->
  dlist (INIT_LIST_HEAD x h) head l.
Proof.
  intros [Hc Hn] Hx. split; [|done]. eapply chain_frame; [exact Hc| |]; intros y Hy.
  - assert (y <> x).
    { intros ->. apply elem_removelast in Hy. set_solver. }
    unfold get_next, INIT_LIST_HEAD. by rewrite lookup_insert_ne.
  - assert (y <> x) by (apply elem_tail in Hy; set_solver).
    unfold get_prev, INIT_LIST_HEAD. by rewrite lookup_insert_ne.
Qed.


Lemma cons_snoc_inv (x : Z) l : exists P a, x :: l = P ++ [a].
Proof. destruct (exists_last (l := x :: l)) as (P&a&E); [done|eauto]. Qed.
Lemma snoc_cons_inv (x : Z) l : exists b Q, l ++ [x] = b :: Q.
Proof. destruct l; simpl; eauto. Qed.

Section Represented.
Context (h : lheap) (head : Z) (l : list Z) (Hd : dlist h head l).

Lemma list_add_spec x : x ∉ head :: l -> is_Some (h !! x) ->
  exists h', list_add x head h = Some h' /\ dlist h' head (x :: l) /\ dom h' = dom h.
Proof using Hd.
  intros Hx Sx. pose proof (dlist_ring _ _ _ Hd) as Hr. destruct Hd as [Hc Hn].
  unfold list_add. destruct (snoc_cons_inv head l) as (b&Q&E). rewrite E in *.
  destruct (chain_insert h [] head b Q x Hc Hr) as (h'&E'&Hc'&D); [|done|].
  { simpl. rewrite <- E. set_solver. }
  destruct Hc as [[-> _] _]. simpl. exists h'. split; [done|]. split; [|done].
  split; [by simpl; rewrite E|].
  apply NoDup_cons in Hn as [??]. repeat (apply NoDup_cons; split; [set_solver|]). done.
Qed.

Lemma list_add_tail_spec x : x ∉ head :: l -> is_Some (h !! x) ->
  exists h', list_add_tail x head h = Some h' /\ dlist h' head (l ++ [x]) /\ dom h' = dom h.
Proof using Hd.
  intros Hx Sx. pose proof (dlist_ring _ _ _ Hd) as Hr. destruct Hd as [Hc Hn].
  unfold list_add_tail. destruct (cons_snoc_inv head l) as (P&a&E).
  change (head :: l ++ [head]) with ((head :: l) ++ [head]) in *.
  rewrite E, <- app_assoc in Hc, Hr. simpl in Hc, Hr.
  destruct (chain_insert h P a head [] x Hc Hr) as (h'&E'&Hc'&D); [|done|].
  { change [a; head] with ([a] ++ [head]). rewrite app_assoc, <- E. clear E. set_solver. }
  apply chain_app in Hc as [_ [[_ ->] _]]. simpl. exists h'. split; [done|]. split; [|done].
  split.
  - replace (head :: (l ++ [x]) ++ [head]) with (P ++ a :: x :: head :: []); [done|].
    change (head :: (l ++ [x]) ++ [head]) with (((head :: l) ++ [x]) ++ [head]).
    rewrite E, <- !app_assoc. done.
  - change (head :: l ++ [x]) with ((head :: l) ++ [x]). apply NoDup_app.
    split; [done|]. split; [set_solver|apply NoDup_singleton].
Qed.

Lemma list_del_spec x l1 l2 : l = l1 ++ x :: l2 ->
  exists h', list_del x h = Some h' /\ dlist h' head (l1 ++ l2) /\ dom h' = dom h.
Proof using Hd.
  intros El. pose proof (dlist_ring _ _ _ Hd) as Hr. destruct Hd as [Hc Hn]. subst l.
  destruct (cons_snoc_inv head l1) as (P&a&E1).
  destruct (snoc_cons_inv head l2) as (b&Q&E2).
  assert (head :: (l1 ++ x :: l2) ++ [head] = P ++ a :: x :: b :: Q) as EL.
  { rewrite <- E2. change (head :: (l1 ++ x :: l2) ++ [head])
      with (((head :: l1) ++ x :: l2) ++ [head]). rewrite E1, <- !app_assoc. done. }
  rewrite EL in Hc, Hr.
  destruct (chain_remove h P a x b Q Hc Hr) as (h'&E'&Hc'&D).
  apply chain_app in Hc as [_ [[_ Ep] [[En _] _]]].
  unfold list_del. rewrite Ep, En; simpl. exists h'. split; [done|]. split; [|done]. split.
  - replace (head :: (l1 ++ l2) ++ [head]) with (P ++ a :: b :: Q); [done|].
    rewrite <- E2. change (head :: (l1 ++ l2) ++ [head]) with (((head :: l1) ++ l2) ++ [head]).
    rewrite E1, <- !app_assoc. done.
  - change (head :: l1 ++ x :: l2) with ((head :: l1) ++ x :: l2) in Hn.
    change (head :: l1 ++ l2) with ((head :: l1) ++ l2). apply NoDup_app in Hn as (?&Hd1&Hd2).
    apply NoDup_cons in Hd2 as [??]. apply NoDup_app. split; [done|]. split; [|done].
    intros y Hy. specialize (Hd1 y Hy). set_solver.
Qed.

Lemma list_del_init_spec x l1 l2 : l = l1 ++ x :: l2 ->
  exists h', list_del_init x h = Some h' /\ dlist h' head (l1 ++ l2) /\ dom h' = dom h /\
    dlist h' x [].
Proof using Hd.
  intros El. destruct (list_del_spec x l1 l2 El) as (h'&E&D&Dm). unfold list_del_init.
  rewrite E; simpl. eexists. split; [done|].
  assert (x ∈ head :: l) as Hx by set_solver. destruct Hd as [_ Hn].
  split_and!.
  - apply dlist_init_ne; [done|]. subst l.
    change (head :: l1 ++ x :: l2) with ((head :: l1) ++ x :: l2) in Hn.
    apply NoDup_app in Hn as (?&Hd1&Hd2). apply NoDup_cons in Hd2 as [? _].
    intros [Hy|Hy]%(elem_of_app (head :: l1)); [|done]. specialize (Hd1 x Hy). set_solver.
  - unfold INIT_LIST_HEAD. rewrite dom_insert_L, Dm.
    assert (x ∈ dom h) by (apply elem_of_dom; by eapply dlist_dom). set_solver.
  - apply dlist_init.
Qed.

Lemma list_empty_spec : list_empty head h = Some (bool_decide (l = [])).
Proof using Hd.
  destruct Hd as [Hc Hn]. unfold list_empty. destruct l as [|x l'].
  - destruct Hc as [[-> _] _]. simpl. by rewrite Z.eqb_refl.
  - destruct Hc as [[-> _] _]. simpl. f_equal.
    apply NoDup_cons in Hn as [? _]. apply Z.eqb_neq. set_solver.
Qed.

Lemma list_first_spec : get_next h head = Some (hd head l).
Proof using Hd. destruct Hd as [Hc _]. destruct l; by destruct Hc as [[-> _] _]. Qed.
End Represented.

Lemma walk_ring_spec h head l : forall fuel, chain h (l ++ [head]) -> head ∉ l ->
  (length l <= fuel)%nat -> walk_ring fuel h (hd head l) head = Some l.
Proof.
  induction l as [|x l IH]; intros fuel Hc Hn Hf.
  - destruct fuel; simpl; by rewrite Z.eqb_refl.
  - destruct fuel as [|fuel]; simpl in Hf; [lia|]. simpl.
    destruct (Z.eqb_spec x head); [set_solver|].
    assert (get_next h x = Some (hd head l)) as ->.
    { destruct l; by destruct Hc as [[-> _] _]. }
    simpl. rewrite IH; [done| |set_solver|lia]. destruct l; [done|apply Hc].
Qed.

Lemma list_entries_spec h head l fuel : dlist h head l -> (length l <= fuel)%nat ->
  list_entries fuel h head = Some l.
Proof.
  intros Hd Hf. unfold list_entries. rewrite (list_first_spec _ _ _ Hd); simpl.
  destruct Hd as [Hc Hn]. apply NoDup_cons in Hn as [? _].
  apply walk_ring_spec; [|done|done]. destruct l; [done|apply Hc].
Qed.

(** C24: the pointer operations of list.h implement sequence operations: on a
    well-formed ring holding [l], [list_add] of a new entry yields the ring of
    [x :: l], [list_add_tail] the ring of [l ++ [x]], and [list_del_init] of an
    entry the ring without it, with the entry a ring of its own.  A ring is well formed
    when each [next] and each [prev] points to its neighbour ([link]); the traversal from
    the head then meets exactly the entries, in that order.  No list head comes or goes. *)
Theorem list_ops_refine h head l1 y l2 x fuel :
  dlist h head (l1 ++ y :: l2) -> x ∉ head :: l1 ++ y :: l2 -> is_Some (h !! x) ->
  (length (l1 ++ y :: l2) < fuel)%nat ->
  (exists h', list_add x head h = Some h' /\ dlist h' head (x :: l1 ++ y :: l2) /\ dom h' = dom h /\
     list_entries fuel h' head = Some (x :: l1 ++ y :: l2)) /\
  (exists h', list_add_tail x head h = Some h' /\ dlist h' head ((l1 ++ y :: l2) ++ [x]) /\ dom h' = dom h /\
     list_entries fuel h' head = Some ((l1 ++ y :: l2) ++ [x])) /\
  (exists h', list_del_init y h = Some h' /\ dlist h' head (l1 ++ l2) /\ dlist h' y [] /\ dom h' = dom h /\
     list_entries fuel h' head = Some (l1 ++ l2) /\ list_entries fuel h' y = Some []).
Proof.
  intros Hd Hx Sx Hf. split_and!.
  - destruct (list_add_spec h head _ Hd x Hx Sx) as (h'&E&D&Dm). exists h'. split_and!; [done..|].
    apply list_entries_spec; [done|simpl; lia].
  - destruct (list_add_tail_spec h head _ Hd x Hx Sx) as (h'&E&D&Dm). exists h'. split_and!; [done..|].
    apply list_entries_spec; [done|rewrite length_app; simpl; lia].
  - destruct (list_del_init_spec h head _ Hd y l1 l2 eq_refl) as (h'&E&D&Dm&Dy).
    exists h'. rewrite length_app in Hf; simpl in Hf.
    split_and!; [done..| |]; apply list_entries_spec; try done; rewrite ?length_app; simpl; lia.
Qed.

(** ** A concrete ring: head 100, entries 1 and 2, and 3 outside it *)

Definition ring_ex : lheap :=
  list_to_map [(100, (1, 2)); (1, (2, 100)); (2, (100, 1)); (3, (3, 3))].

Lemma ring_ex_ok : dlist ring_ex 100 [1; 2].
Proof.
  split; [simpl; repeat split; vm_compute; reflexivity|].
  apply (bool_decide_unpack _). vm_compute. exact I.
Qed.

Lemma list_ops_refine_witness :
  (exists h', list_add 3 100 ring_ex = Some h' /\ dlist h' 100 [3; 1; 2] /\ dom h' = dom ring_ex /\
     list_entries 9 h' 100 = Some [3; 1; 2]) /\
  (exists h', list_add_tail 3 100 ring_ex = Some h' /\ dlist h' 100 [1; 2; 3] /\ dom h' = dom ring_ex /\
     list_entries 9 h' 100 = Some [1; 2; 3]) /\
  (exists h', list_del_init 1 ring_ex = Some h' /\ dlist h' 100 [2] /\ dlist h' 1 [] /\ dom h' = dom ring_ex /\
     list_entries 9 h' 100 = Some [2] /\ list_entries 9 h' 1 = Some []).
Proof.
  apply (list_ops_refine ring_ex 100 [] 1 [2] 3 9).
  - apply ring_ex_ok.
  - apply (bool_decide_unpack _). vm_compute. exact I.
  - eexists. vm_compute. reflexivity.
  - simpl. lia.
Defined.
