(* ===== verification/StaticAlloc.v ===== *)
(** * StaticAlloc: the fixed-size node allocator of nd_static_alloc.c

    A block holds the allocator header and [capacity] nodes; the free nodes are
    the ring of [__free_list], linked through their own first bytes.  Addresses
    are integers; the heap of list heads is the one of [DList]. *)

From S2P Require Import Prelude DList.

Definition NDERR_SUCCESS : Z := 0.
Definition NDERR_LIMITED : Z := 6.

(** The fields of [nd_static_alloc_t]; [free_list] and [addr] are the addresses
    of the fields [__free_list] and [addr]. *)
Record nd_static_alloc := mk_sa {
  node_size : Z;
  capacity : Z;
  allocated_num : Z;
  sa_errno : Z;
  free_list : Z;
  addr : Z;
  sa_heap : lheap
}.

Definition GET_SA_ALLOC_MIN_SIZE (size : Z) : Z := Z.max 16 size.

(** ** Operations *)

Section Create.
(** The pool's allocator and the layout of the header on the target:
    [sizeof(nd_static_alloc_t)] and the offset of [__free_list] in it. *)
Context (nd_pool_alloc : Z -> option Z) (sizeof_sa offsetof_free : Z).

(** The [for] loop: [n] nodes from [a] on. *)
Fixpoint sa_link_nodes (n : nat) (a node_size head : Z) (h : lheap) : option lheap :=
  match n with
  | O => Some h
  | S n =>
      h ← list_add a head (INIT_LIST_HEAD a h);
      sa_link_nodes n (a + node_size) node_size head h
  end.

(** [Some None]: the pool is out of memory and the handle is NULL. *)
Definition nd_sa_create (node_num node_size : Z) : option (option nd_static_alloc) :=
  let node_size := GET_SA_ALLOC_MIN_SIZE node_size in
  let raw_len := u64 (node_num * node_size + sizeof_sa) in
  match nd_pool_alloc raw_len with
  | None => Some None
  | Some allocator =>
      let head := allocator + offsetof_free in
      let first := allocator + sizeof_sa in
      h ← sa_link_nodes (Z.to_nat node_num) first node_size head (INIT_LIST_HEAD head ∅);
      Some (Some (mk_sa node_size node_num 0 NDERR_SUCCESS head first h))
  end.
End Create.

(** Returns the address of a node, 0 for NULL. *)
Definition nd_sa_alloc (sa : nd_static_alloc) : option (nd_static_alloc * Z) :=
  pos ← get_next (sa_heap sa) (free_list sa);
  if pos =? free_list sa then
    Some (mk_sa (node_size sa) (capacity sa) (allocated_num sa) NDERR_LIMITED
            (free_list sa) (addr sa) (sa_heap sa), 0)
  else
    h ← list_del_init pos (sa_heap sa);
    Some (mk_sa (node_size sa) (capacity sa) (s32 (allocated_num sa + 1)) NDERR_SUCCESS
            (free_list sa) (addr sa) h, pos).

Definition nd_sa_free (a : Z) (sa : nd_static_alloc) : option nd_static_alloc :=
  if a =? 0 then Some sa
  else
    h ← list_add_tail a (free_list sa) (INIT_LIST_HEAD a (sa_heap sa));
    Some (mk_sa (node_size sa) (capacity sa) (s32 (allocated_num sa - 1)) (sa_errno sa)
            (free_list sa) (addr sa) h).

Definition nd_sa_capacity (sa : nd_static_alloc) : Z := capacity sa.
Definition nd_sa_freenum (sa : nd_static_alloc) : Z := s32 (capacity sa - allocated_num sa).
Definition nd_sa_getsize (sa : nd_static_alloc) : Z := node_size sa.

(** ** Invariant *)

(** The addresses of the nodes. *)
Definition sa_nodes (first node_size : Z) (n : nat) : list Z :=
  map (fun i => first + Z.of_nat i * node_size) (seq 0 n).

(** [out] are the nodes handed out, [l] the free list. *)
Record sa_inv (sa : nd_static_alloc) (out l : list Z) : Prop := {
  inv_ring : dlist (sa_heap sa) (free_list sa) l;
  inv_nodes : out ++ l ≡ₚ sa_nodes (addr sa) (node_size sa) (Z.to_nat (capacity sa));
  inv_num : allocated_num sa = zlen out;
  inv_cap : 0 <= capacity sa < 2 ^ 31;
  inv_layout : 16 <= node_size sa /\ 0 < free_list sa < addr sa
}.

Lemma elem_sa_nodes first size n x :
  x ∈ sa_nodes first size n <-> exists i, (i < n)%nat /\ x = first + Z.of_nat i * size.
Proof.
  unfold sa_nodes. rewrite list_elem_of_In, in_map_iff. setoid_rewrite in_seq.
  split; intros (i&?&?); exists i; split; lia.
Qed.

Lemma sa_nodes_NoDup first size n : 0 < size -> NoDup (sa_nodes first size n).
Proof.
  intros Hs. unfold sa_nodes. apply NoDup_ListNoDup, Finite.Injective_map_NoDup.
  - intros i j E. assert (Z.of_nat i * size = Z.of_nat j * size) by lia.
    apply Z.mul_cancel_r in H; lia.
  - apply seq_NoDup.
Qed.

Lemma sa_nodes_S first size n :
  sa_nodes first size (S n) = first :: sa_nodes (first + size) size n.
Proof.
  unfold sa_nodes. simpl. f_equal; [lia|]. rewrite <- seq_shift, map_map.
  apply map_ext. intros i. lia.
Qed.

Section Inv.
Context (sa : nd_static_alloc) (out l : list Z) (Hi : sa_inv sa out l).

Lemma inv_NoDup : NoDup (out ++ l).
Proof using Hi. rewrite (inv_nodes _ _ _ Hi). apply sa_nodes_NoDup. destruct Hi. lia. Qed.

Lemma inv_elem x : x ∈ out ++ l -> addr sa <= x.
Proof using Hi.
  rewrite (inv_nodes _ _ _ Hi). intros (i&?&->)%elem_sa_nodes. destruct Hi. nia.
Qed.

Lemma inv_len : zlen out + zlen l = capacity sa.
Proof using Hi.
  pose proof (Permutation_length (inv_nodes _ _ _ Hi)) as E.
  unfold sa_nodes in E. rewrite length_app, length_map, length_seq in E.
  destruct Hi. unfold zlen. lia.
Qed.
End Inv.

Lemma sa_alloc_spec sa out l : sa_inv sa out l ->
  exists sa', nd_sa_alloc sa = Some (sa', hd 0 l) /\ capacity sa' = capacity sa /\
    addr sa' = addr sa /\ node_size sa' = node_size sa /\
    sa_inv sa' (match l with [] => out | x :: _ => x :: out end) (tail l).
Proof.
  intros Hi. pose proof (inv_len _ _ _ Hi) as Hlen.
  pose proof (inv_ring _ _ _ Hi) as Hr. unfold nd_sa_alloc.
  rewrite (list_first_spec _ _ _ Hr); simpl.
  destruct l as [|x l]; simpl.
  - rewrite Z.eqb_refl. eexists. split_and!; [done..|]. by destruct Hi.
  - pose proof (proj2 Hr) as Hn. apply NoDup_cons in Hn as [Hx _].
    destruct (Z.eqb_spec x (free_list sa)) as [->|_]; [set_solver|].
    destruct (list_del_init_spec _ _ _ Hr x [] l eq_refl) as (h'&->&Hd&_&_). simpl.
    eexists. split_and!; [done..|]. destruct Hi. simpl in *.
    rewrite zlen_cons in Hlen. pose proof (zlen_nonneg out). pose proof (zlen_nonneg l).
    split; simpl; try done.
    + rewrite <- inv_nodes0. apply Permutation_middle.
    + rewrite zlen_cons. wrap_lia.
Qed.

Lemma sa_free_spec sa out l x o1 o2 : sa_inv sa out l -> out = o1 ++ x :: o2 ->
  exists sa', nd_sa_free x sa = Some sa' /\ capacity sa' = capacity sa /\
    addr sa' = addr sa /\ node_size sa' = node_size sa /\ sa_inv sa' (o1 ++ o2) (l ++ [x]).
Proof.
  intros Hi Eo. subst out. pose proof (inv_len _ _ _ Hi) as Hlen.
  pose proof (inv_NoDup _ _ _ Hi) as Hnd.
  assert (addr sa <= x) as Hax by (apply (inv_elem _ _ _ Hi); set_solver).
  destruct Hi as [Hr Hp Hn Hc Hl]. unfold nd_sa_free.
  destruct (Z.eqb_spec x 0); [lia|].
  assert (x ∉ free_list sa :: l) as Hx.
  { apply not_elem_of_cons. split; [lia|]. apply NoDup_app in Hnd as (_&Hd&_).
    apply Hd. set_solver. }
  destruct (list_add_tail_spec (INIT_LIST_HEAD x (sa_heap sa)) (free_list sa) l
    ltac:(by apply dlist_init_ne) x Hx) as (h'&->&Hd&_).
  { unfold INIT_LIST_HEAD. rewrite lookup_insert_eq. eauto. }
  simpl. rewrite zlen_app, zlen_cons in *.
  pose proof (zlen_nonneg o1). pose proof (zlen_nonneg o2). pose proof (zlen_nonneg l).
  eexists. split_and!; [done..|]. split; simpl; try done.
  - rewrite <- Hp. rewrite app_assoc, <- app_assoc.
    rewrite (Permutation_app_comm l [x]), <- !app_assoc. apply Permutation_app_head.
    simpl. symmetry. apply Permutation_middle.
  - rewrite zlen_app. wrap_lia.
Qed.

Lemma sa_link_nodes_spec size head n : forall a h l, 16 <= size -> 0 < head < a ->
  dlist h head l -> (forall x, x ∈ l -> x < a) ->
  exists h', sa_link_nodes n a size head h = Some h' /\
    dlist h' head (rev (sa_nodes a size n) ++ l).
Proof.
  induction n as [|n IH]; intros a h l Hs Ha Hd Hl; [by exists h|].
  cbn [sa_link_nodes].
  assert (a ∉ head :: l) as Hna.
  { apply not_elem_of_cons. split; [lia|]. intros Hx. specialize (Hl a Hx). lia. }
  destruct (list_add_spec (INIT_LIST_HEAD a h) head l ltac:(by apply dlist_init_ne) a Hna)
    as (h1&->&Hd1&_).
  { unfold INIT_LIST_HEAD. rewrite lookup_insert_eq. eauto. }
  cbn [mbind option_bind].
  destruct (IH (a + size) h1 (a :: l)) as (h'&E&Hd'); [done|lia|done| |].
  { intros x [->|Hx]%elem_of_cons; [lia|]. specialize (Hl x Hx). lia. }
  exists h'. split; [done|]. rewrite sa_nodes_S. simpl. by rewrite <- app_assoc.
Qed.

Lemma sa_create_spec pool sizeof_sa off n size base :
  0 <= off -> off + 16 <= sizeof_sa -> 0 < base -> 0 <= n < 2 ^ 31 ->
  pool (u64 (n * Z.max 16 size + sizeof_sa)) = Some base ->
  exists sa, nd_sa_create pool sizeof_sa off n size = Some (Some sa) /\
    capacity sa = n /\ node_size sa = Z.max 16 size /\ addr sa = base + sizeof_sa /\
    sa_inv sa [] (rev (sa_nodes (base + sizeof_sa) (Z.max 16 size) (Z.to_nat n))).
Proof.
  intros Ho Hs Hb Hn Hp. unfold nd_sa_create, GET_SA_ALLOC_MIN_SIZE. rewrite Hp.
  destruct (sa_link_nodes_spec (Z.max 16 size) (base + off) (Z.to_nat n)
    (base + sizeof_sa) (INIT_LIST_HEAD (base + off) ∅) []) as (h'&E&Hd);
    [lia|lia|apply dlist_init|set_solver|].
  rewrite E; simpl. rewrite app_nil_r in Hd. eexists. split; [done|]. simpl.
  split_and!; try done. split; simpl; try done; try lia. symmetry. apply Permutation_rev.
Qed.

(** ** Properties *)

(** The allocator and the nodes its clients hold; clients free only what they
    hold. *)
Inductive sa_step : nd_static_alloc * list Z -> nd_static_alloc * list Z -> Prop :=
  | step_alloc sa out sa' a : nd_sa_alloc sa = Some (sa', a) ->
      sa_step (sa, out) (sa', if a =? 0 then out else a :: out)
  | step_free sa o1 a o2 sa' : nd_sa_free a sa = Some sa' ->
      sa_step (sa, o1 ++ a :: o2) (sa', o1 ++ o2).

Definition sa_ok (first size n : Z) (s : nd_static_alloc * list Z) : Prop :=
  capacity s.1 = n /\ addr s.1 = first /\ node_size s.1 = size /\ exists l, sa_inv s.1 s.2 l.

Lemma sa_step_ok first size n s s' : sa_ok first size n s -> sa_step s s' -> sa_ok first size n s'.
Proof.
  intros (Ec&Ea&En&l&Hi) Hs. destruct Hs as [sa out sa' a E|sa o1 a o2 sa' E]; simpl in *.
  - destruct (sa_alloc_spec _ _ _ Hi) as (sa1&E1&?&?&?&Hi1). rewrite E in E1.
    simplify_eq. unfold sa_ok. simpl. split_and!; try congruence. exists (tail l).
    destruct l as [|x l]; simpl in *; [done|].
    assert (addr sa <= x) by (apply (inv_elem _ _ _ Hi); set_solver).
    destruct (Z.eqb_spec x 0); [|done]. destruct Hi. lia.
  - destruct (sa_free_spec _ _ _ a o1 o2 Hi eq_refl) as (sa1&E1&?&?&?&Hi1). rewrite E in E1.
    simplify_eq. unfold sa_ok. simpl. split_and!; try congruence. eauto.
Qed.

(** C23: after any sequence of allocations and frees of held nodes, the nodes
    handed out are distinct nodes of the block and [allocated_num] counts them;
    the next [nd_sa_alloc] follows no bad pointer and returns NULL exactly when
    all [capacity] nodes are out, else a node of the block nobody holds. *)
Theorem sa_no_double_allocation pool sizeof_sa off n size base sa0 sa out :
  0 <= off -> off + 16 <= sizeof_sa -> 0 < base -> 0 <= n < 2 ^ 31 ->
  pool (u64 (n * Z.max 16 size + sizeof_sa)) = Some base ->
  nd_sa_create pool sizeof_sa off n size = Some (Some sa0) ->
  star sa_step (sa0, []) (sa, out) ->
  let nodes := sa_nodes (base + sizeof_sa) (Z.max 16 size) (Z.to_nat n) in
  NoDup out /\ (forall x, x ∈ out -> x ∈ nodes) /\ nd_sa_freenum sa = n - zlen out /\
  exists sa' a, nd_sa_alloc sa = Some (sa', a) /\
    (if zlen out =? n then a = 0 /\ sa_errno sa' = NDERR_LIMITED
     else a <> 0 /\ a ∈ nodes /\ a ∉ out).
Proof.
  intros Ho Hs Hb Hn Hp E Hstar nodes.
  destruct (sa_create_spec pool sizeof_sa off n size base Ho Hs Hb Hn Hp)
    as (sa1&E1&Ec&En&Ea&Hi1). assert (sa1 = sa0) as -> by congruence.
  assert (sa_ok (base + sizeof_sa) (Z.max 16 size) n (sa, out)) as (Ec'&Ea'&En'&l&Hi).
  { eapply star_invariant; [apply sa_step_ok|exact Hstar|]. split_and!; eauto. }
  simpl in *. clear E Hstar Hi1 Hp.
  pose proof (inv_NoDup _ _ _ Hi) as Hnd. pose proof (inv_len _ _ _ Hi) as Hlen.
  pose proof (zlen_nonneg out). pose proof (zlen_nonneg l).
  destruct (sa_alloc_spec _ _ _ Hi) as (sa'&E'&_&_&_&Hi').
  assert (forall x, x ∈ out ++ l -> x ∈ nodes) as Hin.
  { intros x. rewrite (inv_nodes _ _ _ Hi). by rewrite Ea', En', Ec'. }
  split_and!.
  - by apply NoDup_app in Hnd as [? _].
  - intros x Hx. apply Hin. set_solver.
  - unfold nd_sa_freenum. rewrite (inv_num _ _ _ Hi), Ec'. wrap_lia.
  - exists sa', (hd 0 l). split; [done|].
    destruct l as [|x l]; simpl in *.
    + rewrite zlen_nil in Hlen. destruct (Z.eqb_spec (zlen out) n); [|lia].
      split; [done|]. unfold nd_sa_alloc in E'.
      rewrite (list_first_spec _ _ _ (inv_ring _ _ _ Hi)) in E'. simpl in E'.
      rewrite Z.eqb_refl in E'. by simplify_eq/=.
    + rewrite zlen_cons in Hlen. pose proof (zlen_nonneg l).
      destruct (Z.eqb_spec (zlen out) n); [lia|].
      pose proof (inv_elem _ _ _ Hi x ltac:(set_solver)). destruct Hi as [_ _ _ _ ?].
      split_and!; [lia|apply Hin; set_solver|].
      apply NoDup_app in Hnd as (_&Hd&_). intros Hx. apply (Hd x Hx). set_solver.
Qed.

(** The results of [n] allocations in a row. *)
Fixpoint sa_alloc_many (n : nat) (sa : nd_static_alloc) : option (list Z) :=
  match n with
  | O => Some []
  | S n => '(sa, a) ← nd_sa_alloc sa; r ← sa_alloc_many n sa; Some (a :: r)
  end.

(** freed nodes are reused oldest first: when the free list is [l], the
    next [length l] allocations return its entries in order, and a node freed
    now is handed out only after all of them. *)
Theorem sa_fifo_reuse sa o1 x o2 l :
  sa_inv sa (o1 ++ x :: o2) l ->
  exists sa', nd_sa_free x sa = Some sa' /\ sa_inv sa' (o1 ++ o2) (l ++ [x]) /\
    sa_alloc_many (length l + 1) sa' = Some (l ++ [x]).
Proof.
  intros Hi. destruct (sa_free_spec _ _ _ x o1 o2 Hi eq_refl) as (sa'&E&_&_&_&Hi').
  exists sa'. split; [done|]. split; [done|]. clear E Hi.
  replace (length l + 1)%nat with (length (l ++ [x])) by (rewrite length_app; done).
  generalize dependent sa'. generalize (o1 ++ o2) as out. generalize (l ++ [x]) as k.
  induction k as [|y k IH]; intros out sa' Hi; [done|]. simpl.
  destruct (sa_alloc_spec _ _ _ Hi) as (sa2&->&_&_&_&Hi2). simpl in *.
  by rewrite (IH _ _ Hi2).
Qed.

(** ** A concrete allocator: three nodes of 16 bytes at address 1100 *)

Definition pool_ex (size : Z) : option Z := Some 1000.

Definition sa_ex : nd_static_alloc :=
  match nd_sa_create pool_ex 100 40 3 8 with
  | Some (Some sa) => sa
  | _ => mk_sa 0 0 0 0 0 0 ∅
  end.

Lemma sa_no_double_allocation_witness :
  exists sa out, star sa_step (sa_ex, []) (sa, out) /\ out <> [] /\ NoDup out /\
    nd_sa_freenum sa = 3 - zlen out.
Proof.
  destruct (nd_sa_alloc sa_ex) as [[sa a]|] eqn:E; [|vm_compute in E; discriminate].
  assert (a = 1132) as -> by (vm_compute in E; congruence).
  exists sa, [1132].
  assert (star sa_step (sa_ex, []) (sa, [1132])) as Hs.
  { eapply star_step; [apply star_refl|]. exact (step_alloc _ _ _ _ E). }
  destruct (sa_no_double_allocation pool_ex 100 40 3 8 1000 sa_ex sa [1132])
    as (H1&_&H2&_); [lia|lia|lia|lia|reflexivity|vm_compute; reflexivity|done|].
  done.
Defined.

(** The allocator above with its three nodes handed out. *)
Definition sa_full : nd_static_alloc :=
  match (s ← nd_sa_alloc sa_ex; s ← nd_sa_alloc s.1; nd_sa_alloc s.1) with
  | Some (sa, _) => sa
  | None => sa_ex
  end.

Lemma sa_full_inv : sa_inv sa_full [1100; 1116; 1132] [].
Proof.
  destruct (sa_create_spec pool_ex 100 40 3 8 1000) as (sa&E&_&_&_&H0); [lia|lia|lia|lia|reflexivity|].
  assert (sa = sa_ex) as -> by (unfold sa_ex; rewrite E; reflexivity).
  destruct (sa_alloc_spec _ _ _ H0) as (s1&E1&_&_&_&H1).
  destruct (sa_alloc_spec _ _ _ H1) as (s2&E2&_&_&_&H2).
  destruct (sa_alloc_spec _ _ _ H2) as (s3&E3&_&_&_&H3).
  unfold sa_full. rewrite E1; simpl. rewrite E2; simpl. rewrite E3. exact H3.
Qed.

Lemma sa_fifo_reuse_witness :
  exists sa', nd_sa_free 1116 sa_full = Some sa' /\ sa_inv sa' [1100; 1132] [1116] /\
    sa_alloc_many 1 sa' = Some [1116].
Proof. apply (sa_fifo_reuse sa_full [1100] 1116 [1132] []). apply sa_full_inv. Defined.
