(* ===== verification/NodeMgr.v ===== *)
(** * NodeMgr: the connection node table of node_mgr.c

    [struct node_root] keeps an array of [max_conn_num] slots; a node id is a
    slot index plus [base_id].  Module [Seq] models every operation as one call;
    module [Conc] interleaves the atomic steps of concurrent accepts and
    deaccepts.  The calling thread ([nd_thread_self]) is the argument [self]. *)

From S2P Require Import Prelude DList StaticAlloc.

(** [struct srvnode_info]. *)
Record slot := mk_slot { used : Z; owner : Z; node_addr : Z }.

Definition free_slot : slot := mk_slot 0 0 0.

Record node_root := mk_root {
  max_conn_num : Z;
  connect_num : Z;
  base_id : Z;
  param : Z;
  node_alloctor : option nd_static_alloc;
  connmgr_addr : option (list slot);
  root_node_size : Z
}.

Record node_iterator := mk_iter { it_node_id : Z; it_numbers : Z; it_total : Z }.

Module Seq.

(** ** Operations *)

Definition set_slots (r : node_root) (n : Z) (l : list slot) : node_root :=
  mk_root (max_conn_num r) n (base_id r) (param r) (node_alloctor r) (Some l) (root_node_size r).

(** [node = connmgr_addr + index], read and written back. *)
Definition get_slot (r : node_root) (index : Z) : option slot :=
  l ← connmgr_addr r; if index <? 0 then None else l !! Z.to_nat index.
Definition put_slot (r : node_root) (index : Z) (s : slot) : option node_root :=
  l ← connmgr_addr r; _ ← get_slot r index;
  Some (set_slots r (connect_num r) (<[Z.to_nat index := s]> l)).

Section Create.
Context (nd_pool_alloc : Z -> option Z) (sizeof_sa offsetof_free : Z).

(** [conn_ok]: whether the pool has room for the slot array. *)
Definition nd_node_mgr_create (root : node_root) (max_num node_size start_id : Z)
    (conn_ok : bool) : option (node_root * Z) :=
  '(alloctor, failed) ←
    (if 0 <? node_size
     then r ← nd_sa_create nd_pool_alloc sizeof_sa offsetof_free max_num node_size;
          Some (r, match r with None => true | Some _ => false end)
     else Some (node_alloctor root, false));
  let mk a c := mk_root max_num 0 start_id 0 a c node_size in
  if (failed : bool) then Some (mk None (connmgr_addr root), -1)
  else if negb conn_ok then Some (mk None None, -1)
  else Some (mk alloctor (Some (repeat free_slot (Z.to_nat max_num))), 0).
End Create.

(** [nd_node_preinit] of a root with the default creator: all fields zero. *)
Definition nd_node_preinit : node_root := mk_root 0 0 0 0 None None 0.

Definition nd_node_mgr_destroy (root : node_root) : node_root :=
  match connmgr_addr root with
  | None => root
  | Some _ => mk_root (max_conn_num root) (connect_num root) (base_id root) (param root)
                None None (root_node_size root)
  end.

(** The scan of [_nd_node_accept]: [n] slots are left to try. *)
Fixpoint accept_loop (n : nat) (root : node_root) (index self socket_node : Z)
    : option (node_root * Z) :=
  match n with
  | O => Some (root, 0)
  | S n =>
      let index := if max_conn_num root <=? index then 0 else index in
      node ← get_slot root index;
      if used node =? 0 then
        root ← put_slot root index (mk_slot 1 self socket_node);
        l ← connmgr_addr root;
        Some (set_slots root (s32 (connect_num root + 1)) l, u16 (index + base_id root))
      else accept_loop n root (index + 1) self socket_node
  end.
Definition _nd_node_accept (root : node_root) (self socket_node : Z)
    : option (node_root * Z) :=
  accept_loop (Z.to_nat (max_conn_num root)) root (param root) self socket_node.

(** [index < 0 || index >= root->max_conn_num] *)
Definition out_of_table (root : node_root) (index : Z) : bool :=
  (index <? 0) || (max_conn_num root <=? index).

Definition _nd_node_deaccept (root : node_root) (node_id : Z) : option (node_root * Z) :=
  let index := node_id - base_id root in
  if out_of_table root index then Some (root, -1)
  else
    root ← put_slot root index free_slot;
    l ← connmgr_addr root;
    Some (set_slots root (s32 (connect_num root - 1)) l, 0).

Definition _nd_node_inc_ref (root : node_root) (node_id : Z) : option (node_root * Z) :=
  let index := node_id - base_id root in
  if out_of_table root index then Some (root, -1)
  else
    node ← get_slot root index;
    if 0 <? used node then
      root ← put_slot root index (mk_slot (s32 (used node + 1)) (owner node) (node_addr node));
      Some (root, 0)
    else Some (root, -1).

Definition _nd_node_dec_ref (root : node_root) (node_id : Z) : option node_root :=
  let index := node_id - base_id root in
  if out_of_table root index then Some root
  else
    node ← get_slot root index;
    put_slot root index (mk_slot (s32 (used node - 1)) (owner node) (node_addr node)).

(** 0 is NULL. *)
Definition _nd_node_lock (root : node_root) (node_id self : Z) : option Z :=
  let index := node_id - base_id root in
  if out_of_table root index then Some 0
  else
    node ← get_slot root index;
    if used node =? 0 then Some 0
    else if negb (owner node =? self) then Some 0
    else Some (node_addr node).
Definition _nd_node_safe_lock := _nd_node_lock.
Definition _nd_node_trylock := _nd_node_lock.
Definition _nd_node_search := _nd_node_trylock.
Definition _nd_node_unlock (root : node_root) (node_id : Z) : node_root := root.

(** The ids [cb_entry] is called with, in order. *)
Fixpoint walk_loop (l : list slot) (i num base : Z) : list Z :=
  match l with
  | [] => []
  | node :: l =>
      if 0 <? num then
        if 0 <? used node then u16 (i + base) :: walk_loop l (i + 1) (num - 1) base
        else walk_loop l (i + 1) num base
      else []
  end.
Definition _nd_node_walk_node (root : node_root) : option (list Z) :=
  l ← connmgr_addr root;
  Some (walk_loop (take (Z.to_nat (max_conn_num root)) l) 0 (connect_num root) (base_id root)).

(** The scan shared by [_nd_node_lock_first] and [_nd_node_lock_next]; [bound]
    is the extra condition of the second. *)
Fixpoint lock_loop (l : list slot) (bound : bool) (self : Z) (it : node_iterator)
    : node_iterator * Z :=
  match l with
  | [] => (mk_iter 0 (it_numbers it) (it_total it), 0)
  | node :: l =>
      if bound && negb (it_numbers it <? it_total it)
      then (mk_iter 0 (it_numbers it) (it_total it), 0)
      else
        let it' := if 0 <? used node
                   then mk_iter (it_node_id it) (u16 (it_numbers it + 1)) (it_total it)
                   else it in
        if (0 <? used node) && (owner node =? self) then (it', node_addr node)
        else lock_loop l bound self
               (mk_iter (u16 (it_node_id it' + 1)) (it_numbers it') (it_total it'))
  end.

Definition _nd_node_lock_first (root : node_root) (it : node_iterator) (self : Z)
    : option (node_iterator * Z) :=
  if connect_num root <? 1 then Some (it, 0)
  else
    l ← connmgr_addr root;
    Some (lock_loop (take (Z.to_nat (max_conn_num root)) l) false self
            (mk_iter (u16 (base_id root)) 0 (u16 (connect_num root)))).

Definition _nd_node_lock_next (root : node_root) (it : node_iterator) (self : Z)
    : option (node_iterator * Z) :=
  let i := it_node_id it - base_id root + 1 in
  let it := mk_iter (u16 (it_node_id it + 1)) (it_numbers it) (it_total it) in
  l ← connmgr_addr root;
  if i <? 0 then None
  else Some (lock_loop (drop (Z.to_nat i) (take (Z.to_nat (max_conn_num root)) l)) true self it).

Definition _nd_node_unlock_iterator (root : node_root) (it : node_iterator)
    : node_root * node_iterator :=
  (_nd_node_unlock root (it_node_id it), mk_iter 0 0 0).

Definition _nd_node_free_num (root : node_root) : option Z :=
  sa ← node_alloctor root; Some (nd_sa_freenum sa).
Definition _nd_node_capacity (root : node_root) : option Z :=
  sa ← node_alloctor root; Some (nd_sa_capacity sa).

Definition _nd_node_set_owner (root : node_root) (node_id new_owner : Z) : option node_root :=
  let index := node_id - base_id root in
  if out_of_table root index then Some root
  else
    node ← get_slot root index;
    put_slot root index (mk_slot (used node) new_owner (node_addr node)).
Definition _nd_node_get_owner (root : node_root) (node_id : Z) : option Z :=
  let index := node_id - base_id root in
  if out_of_table root index then Some 0
  else node ← get_slot root index; Some (owner node).

Fixpoint change_owner_loop (n : nat) (root : node_root) (nodeid new_owner : Z)
    : option node_root :=
  match n with
  | O => Some root
  | S n =>
      root ← _nd_node_set_owner root nodeid new_owner;
      change_owner_loop n root (u16 (nodeid + 1)) new_owner
  end.
Definition nd_node_change_owner (root : node_root) (new_owner : Z) : option node_root :=
  if 0 <? connect_num root
  then change_owner_loop (Z.to_nat (max_conn_num root)) root (u16 (base_id root)) new_owner
  else Some root.

(** ** Invariant *)

Definition is_used (s : slot) : bool := 0 <? used s.

Fixpoint count_used (l : list slot) : Z :=
  match l with [] => 0 | s :: l => (if is_used s then 1 else 0) + count_used l end.

(** The ids of the used slots, lowest first; [i] is the index of the first. *)
Fixpoint used_ids (l : list slot) (i base : Z) : list Z :=
  match l with
  | [] => []
  | s :: l => (if is_used s then [i + base] else []) ++ used_ids l (i + 1) base
  end.

Record root_wf (r : node_root) (l : list slot) : Prop := {
  wf_slots : connmgr_addr r = Some l;
  wf_max : zlen l = max_conn_num r;
  wf_base : 1 <= base_id r /\ base_id r + max_conn_num r <= 2 ^ 16;
  wf_param : param r = 0;
  wf_num : connect_num r = count_used l;
  wf_used : Forall (fun s => 0 <= used s < 2 ^ 31) l
}.

Lemma count_used_bound l : 0 <= count_used l <= zlen l.
Proof. induction l as [|s l IH]; simpl; [done|]. rewrite zlen_cons. destruct (is_used s); lia. Qed.

Lemma count_used_insert l i s s' : l !! i = Some s ->
  count_used (<[i := s']> l) =
  count_used l - (if is_used s then 1 else 0) + (if is_used s' then 1 else 0).
Proof.
  revert i. induction l as [|x l IH]; intros [|i] E; simplify_eq/=; [lia|].
  rewrite (IH i E). lia.
Qed.

Lemma count_used_ids l : forall i base, zlen (used_ids l i base) = count_used l.
Proof.
  induction l as [|s l IH]; intros i base; [done|]. simpl. rewrite zlen_app, IH.
  by destruct (is_used s).
Qed.

Lemma walk_loop_eq l : forall i num base, 0 <= i + base -> i + base + zlen l <= 2 ^ 16 ->
  walk_loop l i num base = take (Z.to_nat num) (used_ids l i base).
Proof.
  induction l as [|s l IH]; intros i num base H1 H2; simpl; [by rewrite take_nil|].
  rewrite zlen_cons in H2. pose proof (zlen_nonneg l). unfold is_used.
  destruct (Z.ltb_spec 0 num).
  - destruct (0 <? used s); rewrite IH by lia; [|done]. simpl.
    replace (Z.to_nat num) with (S (Z.to_nat (num - 1))) by lia. simpl. f_equal. wrap_lia.
  - by replace (Z.to_nat num) with 0%nat by lia.
Qed.

Section Wf.
Context (r : node_root) (l : list slot) (Hwf : root_wf r l).

Lemma get_slot_eq i : 0 <= i -> get_slot r i = l !! Z.to_nat i.
Proof using Hwf.
  intros Hi. unfold get_slot. rewrite (wf_slots _ _ Hwf); simpl. bcase; [lia|done].
Qed.
Lemma put_slot_eq i s s' : 0 <= i -> l !! Z.to_nat i = Some s ->
  put_slot r i s' = Some (set_slots r (connect_num r) (<[Z.to_nat i := s']> l)).
Proof using Hwf.
  intros Hi E. unfold put_slot. rewrite (wf_slots _ _ Hwf); simpl.
  by rewrite get_slot_eq, E by lia.
Qed.
Lemma in_table i : 0 <= i < max_conn_num r ->
  out_of_table r i = false /\ exists s, l !! Z.to_nat i = Some s /\ 0 <= used s < 2 ^ 31.
Proof using Hwf.
  intros Hi. unfold out_of_table. split; [lia|].
  destruct (lookup_lt_is_Some_2 l (Z.to_nat i)) as [s E].
  { pose proof (wf_max _ _ Hwf). unfold zlen in *. lia. }
  exists s. split; [done|]. by eapply Forall_lookup_1 in E; [|apply (wf_used _ _ Hwf)].
Qed.
Lemma set_slots_wf i s s' n : l !! i = Some s -> 0 <= used s' < 2 ^ 31 ->
  n = connect_num r - (if is_used s then 1 else 0) + (if is_used s' then 1 else 0) ->
  root_wf (set_slots r n (<[i := s']> l)) (<[i := s']> l).
Proof using Hwf.
  intros E Hu Hn. destruct Hwf. split; simpl; try done.
  - by rewrite zlen_insert.
  - by rewrite (count_used_insert _ _ _ _ E), Hn, wf_num0.
  - by apply Forall_insert.
Qed.
Lemma connect_num_bound : 0 <= connect_num r <= max_conn_num r.
Proof using Hwf. destruct Hwf. pose proof (count_used_bound l). lia. Qed.

(** [lock] sees the slot of the id. *)
Lemma lock_eq i self s : 0 <= i < max_conn_num r -> l !! Z.to_nat i = Some s ->
  _nd_node_lock r (base_id r + i) self =
  Some (if is_used s && (owner s =? self) then node_addr s else 0).
Proof using Hwf.
  intros Hi E. destruct (in_table i Hi) as [Ho (s0&E0&Hu)]. simplify_eq.
  unfold _nd_node_lock. replace (base_id r + i - base_id r) with i by lia.
  rewrite Ho, get_slot_eq, E by lia. simpl. unfold is_used.
  destruct (Z.eqb_spec (used s) 0) as [->|]; [done|]. replace (0 <? used s) with true by lia.
  by destruct (owner s =? self).
Qed.
End Wf.

(** The scan of accept from index [i], below which every slot is used. *)
Lemma accept_loop_spec r l self a : root_wf r l -> forall n i,
  0 <= i -> i + Z.of_nat n = max_conn_num r ->
  (exists j s, i <= j < max_conn_num r /\ l !! Z.to_nat j = Some s /\ used s = 0 /\
     (forall k, i <= k < j -> exists s', l !! Z.to_nat k = Some s' /\ used s' <> 0) /\
     accept_loop n r i self a =
       Some (set_slots r (connect_num r + 1) (<[Z.to_nat j := mk_slot 1 self a]> l),
             base_id r + j)) \/
  ((forall k, i <= k < max_conn_num r -> exists s', l !! Z.to_nat k = Some s' /\ used s' <> 0) /\
   accept_loop n r i self a = Some (r, 0)).
Proof.
  intros Hwf. induction n as [|n IH]; intros i Hi Hn.
  { right. split; [lia|done]. }
  cbn [accept_loop]. destruct (Z.leb_spec (max_conn_num r) i); [lia|].
  destruct (in_table r l Hwf i ltac:(lia)) as [_ (s&E&Hu)].
  rewrite (get_slot_eq r l Hwf), E by lia. cbn [mbind option_bind].
  destruct (Z.eqb_spec (used s) 0) as [H0|H0].
  - left. exists i, s. split; [lia|]. split; [done|]. split; [done|].
    split; [intros; lia|].
    rewrite (put_slot_eq r l Hwf i s) by done. simpl.
    pose proof (connect_num_bound r l Hwf). destruct Hwf. unwrap_in_range.
    rewrite (Z.add_comm i). reflexivity.
  - destruct (IH (i + 1)) as [(j&s'&Hj&E'&H'&Hk&EL)|[Hk EL]]; [lia|lia| |].
    + left. exists j, s'. split_and!; try done; try lia. intros k Hk'.
      destruct (decide (k = i)) as [->|]; [eauto|apply Hk; lia].
    + right. split; [|done]. intros k Hk'.
      destruct (decide (k = i)) as [->|]; [eauto|apply Hk; lia].
Qed.

(** ** Disciplined use *)

Definition in_use (r : node_root) (i : Z) (n : Z) : Prop :=
  0 <= i < max_conn_num r /\ exists s, get_slot r i = Some s /\ used s = n /\ 0 < n.

(** Operations whose callers release only what is in use, and whose reference
    counts stay between 1 and the largest [int]. *)
Inductive node_step : node_root -> node_root -> Prop :=
  | st_accept r self a r' id : _nd_node_accept r self a = Some (r', id) -> node_step r r'
  | st_deaccept r i n r' ret : in_use r i n ->
      _nd_node_deaccept r (base_id r + i) = Some (r', ret) -> node_step r r'
  | st_inc_ref r i n r' ret : in_use r i n -> n + 1 < 2 ^ 31 ->
      _nd_node_inc_ref r (base_id r + i) = Some (r', ret) -> node_step r r'
  | st_dec_ref r i n r' : in_use r i n -> 1 < n ->
      _nd_node_dec_ref r (base_id r + i) = Some r' -> node_step r r'
  | st_set_owner r id o r' : _nd_node_set_owner r id o = Some r' -> node_step r r'.

Lemma accept_spec r l self a : root_wf r l ->
  (exists j s, 0 <= j < max_conn_num r /\ l !! Z.to_nat j = Some s /\ used s = 0 /\
     (forall k, 0 <= k < j -> exists s', l !! Z.to_nat k = Some s' /\ used s' <> 0) /\
     let l' := <[Z.to_nat j := mk_slot 1 self a]> l in
     let r' := set_slots r (connect_num r + 1) l' in
     _nd_node_accept r self a = Some (r', base_id r + j) /\ root_wf r' l') \/
  ((forall k, 0 <= k < max_conn_num r -> exists s', l !! Z.to_nat k = Some s' /\ used s' <> 0) /\
   _nd_node_accept r self a = Some (r, 0)).
Proof.
  intros Hwf. unfold _nd_node_accept. rewrite (wf_param _ _ Hwf).
  pose proof (wf_max _ _ Hwf). pose proof (zlen_nonneg l).
  destruct (accept_loop_spec r l self a Hwf (Z.to_nat (max_conn_num r)) 0)
    as [(j&s&Hj&E&H'&Hk&EL)|[Hk EL]]; [lia|lia| |by right].
  left. exists j, s. split_and!; try done; try lia.
  apply (set_slots_wf r l Hwf _ s); [done|simpl; lia|].
  unfold is_used. rewrite H'. simpl. lia.
Qed.

Lemma update_spec r l i s s' n : root_wf r l -> 0 <= i < max_conn_num r ->
  l !! Z.to_nat i = Some s -> 0 <= used s' < 2 ^ 31 ->
  n = connect_num r - (if is_used s then 1 else 0) + (if is_used s' then 1 else 0) ->
  exists r1, put_slot r i s' = Some r1 /\ connmgr_addr r1 = Some (<[Z.to_nat i := s']> l) /\
    root_wf (set_slots r1 n (<[Z.to_nat i := s']> l)) (<[Z.to_nat i := s']> l) /\
    r1 = set_slots r (connect_num r) (<[Z.to_nat i := s']> l).
Proof.
  intros Hwf Hi E Hu Hn. eexists. rewrite (put_slot_eq r l Hwf i s) by (done || lia).
  split; [done|]. split; [done|]. split; [|done]. exact (set_slots_wf r l Hwf _ s s' n E Hu Hn).
Qed.

Lemma node_step_wf r l r' : root_wf r l -> node_step r r' ->
  exists l', root_wf r' l' /\ max_conn_num r' = max_conn_num r /\ base_id r' = base_id r.
Proof.
  intros Hwf Hs. pose proof (connect_num_bound r l Hwf) as Hc.
  pose proof (wf_base r l Hwf) as Hb.
  destruct Hs as [r self a r' id E|r i n r' ret (Hi&s&Es&Hn&Hp) E|r i n r' ret (Hi&s&Es&Hn&Hp) Hm E
    |r i n r' (Hi&s&Es&Hn&Hp) Hm E|r id o r' E].
  - destruct (accept_spec r l self a Hwf) as [(j&s&_&_&_&_&E'&W)|[_ E']];
      rewrite E' in E; simplify_eq; eauto.
  - unfold _nd_node_deaccept in E. replace (base_id r + i - base_id r) with i in E by lia.
    rewrite (get_slot_eq r l Hwf) in Es by lia.
    destruct (in_table r l Hwf i Hi) as [Ho _]. rewrite Ho in E.
    destruct (update_spec r l i s free_slot (connect_num r - 1) Hwf Hi Es) as (r1&E1&L1&W&->);
      [simpl; lia|unfold is_used; simpl; bcase; lia|].
    rewrite E1 in E. simpl in E. rewrite wraps_small in E by lia. simplify_eq. eauto.
  - unfold _nd_node_inc_ref in E. replace (base_id r + i - base_id r) with i in E by lia.
    rewrite (get_slot_eq r l Hwf) in * by lia. rewrite Es in E.
    destruct (in_table r l Hwf i Hi) as [Ho (s0&E0&?)]. rewrite Ho in E.
    assert (s = s0) as -> by congruence. simpl in E. subst n.
    destruct (Z.ltb_spec 0 (used s0)); [|lia]. rewrite wraps_small in E by lia.
    destruct (update_spec r l i s0 (mk_slot (used s0 + 1) (owner s0) (node_addr s0))
      (connect_num r) Hwf Hi E0) as (r1&E1&L1&W&->);
      [simpl; lia|unfold is_used; simpl; do 2 bcase; lia|].
    rewrite E1 in E. simplify_eq/=. eauto.
  - unfold _nd_node_dec_ref in E. replace (base_id r + i - base_id r) with i in E by lia.
    rewrite (get_slot_eq r l Hwf) in * by lia. rewrite Es in E.
    destruct (in_table r l Hwf i Hi) as [Ho (s0&E0&?)]. rewrite Ho in E.
    assert (s = s0) as -> by congruence. simpl in E. subst n.
    rewrite wraps_small in E by lia.
    destruct (update_spec r l i s0 (mk_slot (used s0 - 1) (owner s0) (node_addr s0))
      (connect_num r) Hwf Hi E0) as (r1&E1&L1&W&->);
      [simpl; lia|unfold is_used; simpl; do 2 bcase; lia|].
    rewrite E1 in E. simplify_eq/=. eauto.
  - unfold _nd_node_set_owner in E. set (i := id - base_id r) in *.
    destruct (out_of_table r i) eqn:Ho; [simplify_eq; eauto|].
    assert (0 <= i < max_conn_num r) as Hi by (unfold out_of_table in Ho; lia).
    destruct (in_table r l Hwf i Hi) as [_ (s0&E0&?)].
    rewrite (get_slot_eq r l Hwf), E0 in E by lia. simpl in E.
    destruct (update_spec r l i s0 (mk_slot (used s0) o (node_addr s0))
      (connect_num r) Hwf Hi E0) as (r1&E1&L1&W&->); [simpl; lia|unfold is_used; simpl; lia|].
    rewrite E1 in E. simplify_eq. eauto.
Qed.

Lemma create_wf pool sizeof_sa off root max_num size start_id root' :
  0 <= max_num -> 1 <= start_id -> start_id + max_num <= 2 ^ 16 ->
  nd_node_mgr_create pool sizeof_sa off root max_num size start_id true = Some (root', 0) ->
  exists l, root_wf root' l /\ count_used l = 0 /\
    max_conn_num root' = max_num /\ base_id root' = start_id.
Proof.
  intros Hm Hs Hb E. unfold nd_node_mgr_create in E.
  apply bind_Some in E as ([a failed]&_&E). destruct failed; [done|]. simplify_eq/=.
  exists (repeat free_slot (Z.to_nat max_num)). simpl.
  assert (count_used (repeat free_slot (Z.to_nat max_num)) = 0) as Hz
    by (induction (Z.to_nat max_num); done).
  split_and!; try done. split; simpl; try done.
  - by apply zlen_repeat.
  - apply (Forall_zrepeat _ free_slot). simpl. lia.
Qed.

(** ** Properties *)

(** C22: [_nd_node_accept] takes the lowest unused slot, or returns 0 and changes
    nothing when every slot is used; the id it returns is the slot's, the node
    can then be locked through that id by the accepting thread and by no other,
    and what every other id locks to is unchanged. *)
Theorem node_accept_lock r l self a : root_wf r l ->
  (connect_num r = max_conn_num r /\ _nd_node_accept r self a = Some (r, 0)) \/
  (exists r' i, 0 <= i < max_conn_num r /\
     _nd_node_accept r self a = Some (r', base_id r + i) /\
     connect_num r' = connect_num r + 1 /\
     (forall k, 0 <= k < i -> exists n, in_use r k n) /\
     (forall t, _nd_node_lock r (base_id r + i) t = Some 0) /\
     (forall t, _nd_node_lock r' (base_id r + i) t = Some (if self =? t then a else 0)) /\
     (forall k t, 0 <= k < max_conn_num r -> k <> i ->
        _nd_node_lock r' (base_id r + k) t = _nd_node_lock r (base_id r + k) t)).
Proof.
  intros Hwf. assert (forall k s', 0 <= k < max_conn_num r -> l !! Z.to_nat k = Some s' ->
    used s' <> 0 -> in_use r k (used s')) as Hiu.
  { intros k s' Hk E Hu. destruct (in_table r l Hwf k Hk) as [_ (s0&E0&?)].
    split; [done|]. exists s'. rewrite (get_slot_eq r l Hwf) by lia. simplify_eq.
    split_and!; done || lia. }
  destruct (accept_spec r l self a Hwf) as [(j&s&Hj&E&H0&Hk&EA&W)|[Hk EA]].
  - right. eexists _, j. split; [done|]. split; [exact EA|]. split; [done|].
    assert (Z.to_nat j < length l)%nat as Hlt by (by eapply lookup_lt_Some). split_and!.
    + intros k Hkj. destruct (Hk k Hkj) as (s'&E'&Hu). eauto with lia.
    + intros t. rewrite (lock_eq r l Hwf j t s) by done. unfold is_used. by rewrite H0.
    + intros t. etrans; [apply (lock_eq _ _ W j t (mk_slot 1 self a) Hj)|done].
      by apply list_lookup_insert_eq.
    + intros k t Hkr Hne. destruct (in_table r l Hwf k Hkr) as [_ (s0&E0&?)].
      rewrite (lock_eq r l Hwf k t s0) by done.
      etrans; [apply (lock_eq _ _ W k t s0 Hkr)|done].
      rewrite list_lookup_insert_ne; [done|lia].
  - left. split; [|done]. rewrite (wf_num _ _ Hwf), <- (wf_max _ _ Hwf).
    assert (Forall (fun s => is_used s = true) l) as Hall.
    { apply Forall_lookup. intros k s Es. pose proof (lookup_lt_Some _ _ _ Es).
      pose proof (wf_max _ _ Hwf). unfold zlen in *.
      destruct (Hk (Z.of_nat k) ltac:(lia)) as (s'&E'&Hu). rewrite Nat2Z.id in E'. simplify_eq.
      pose proof (Forall_lookup_1 _ _ _ _ (wf_used _ _ Hwf) Es). simpl in *.
      unfold is_used. lia. }
    clear -Hall. induction Hall as [|s l Hs _ IH]; [done|].
    simpl. rewrite Hs, IH, zlen_cons. done.
Qed.

(** C21: whatever the order of accepts, releases of used nodes, reference count
    changes that keep the count positive and owner changes, [connect_num] is the
    number of used slots, [walk_node] visits every used id exactly once, in
    increasing order, and the next accept is defined. *)
Theorem node_table_reachable pool sizeof_sa off root max_num size start_id r0 r :
  0 <= max_num -> 1 <= start_id -> start_id + max_num <= 2 ^ 16 ->
  nd_node_mgr_create pool sizeof_sa off root max_num size start_id true = Some (r0, 0) ->
  star node_step r0 r ->
  exists l, connmgr_addr r = Some l /\ zlen l = max_num /\
    connect_num r = zlen (used_ids l 0 start_id) /\
    _nd_node_walk_node r = Some (used_ids l 0 start_id) /\
    forall self a, is_Some (_nd_node_accept r self a).
Proof.
  intros Hm Hs Hb E Hstar.
  destruct (create_wf _ _ _ _ _ _ _ _ Hm Hs Hb E) as (l0&W0&_&M0&B0).
  assert (exists l, root_wf r l /\ max_conn_num r = max_num /\ base_id r = start_id)
    as (l&W&M&B).
  { refine (star_invariant node_step (fun r => exists l, root_wf r l /\
      max_conn_num r = max_num /\ base_id r = start_id) _ _ _ Hstar _); [|eauto].
    intros s s' (l&W&M&B) Hst. destruct (node_step_wf s l s' W Hst) as (l'&W'&?&?).
    exists l'. split; [done|]. split; congruence. }
  exists l. pose proof (wf_max _ _ W) as Hl. split; [apply W|]. split; [lia|].
  rewrite count_used_ids. split; [apply W|]. split.
  - unfold _nd_node_walk_node. rewrite (wf_slots _ _ W); simpl.
    rewrite take_ge by (unfold zlen in Hl; lia).
    rewrite walk_loop_eq by lia. rewrite B, (wf_num _ _ W).
    rewrite take_ge; [done|]. pose proof (count_used_ids l 0 start_id). unfold zlen in *. lia.
  - intros self a. destruct (accept_spec r l self a W) as [(j&s&_&_&_&_&->&_)|[_ ->]]; eauto.
Qed.

(** releasing an id whose slot is already free is not refused: it reports
    success and decrements [connect_num], after which [walk_node] stops one node
    early and never visits the used node with the highest id. *)
Theorem node_deaccept_twice r l i : root_wf r l -> 0 <= i < max_conn_num r ->
  l !! Z.to_nat i = Some free_slot ->
  exists r', _nd_node_deaccept r (base_id r + i) = Some (r', 0) /\
    connmgr_addr r' = Some l /\ connect_num r' = connect_num r - 1 /\
    _nd_node_walk_node r' = Some (removelast (used_ids l 0 (base_id r))).
Proof.
  intros Hwf Hi E. pose proof (connect_num_bound r l Hwf) as Hc.
  pose proof (wf_base r l Hwf) as Hb. pose proof (wf_max _ _ Hwf) as Hl.
  unfold _nd_node_deaccept. replace (base_id r + i - base_id r) with i by lia.
  destruct (in_table r l Hwf i Hi) as [-> _].
  rewrite (put_slot_eq r l Hwf i free_slot) by (done || lia). simpl.
  rewrite wraps_small by lia. rewrite list_insert_id by done.
  eexists. split; [done|]. split; [done|]. split; [done|].
  unfold _nd_node_walk_node. simpl. rewrite take_ge by (unfold zlen in Hl; lia).
  rewrite walk_loop_eq by lia. f_equal. rewrite (wf_num _ _ Hwf).
  pose proof (count_used_ids l 0 (base_id r)) as Hk.
  rewrite removelast_firstn_len. f_equal. unfold zlen in Hk. lia.
Qed.

(** ** The iterator *)

(** [for (n = lock_first(&it); n; n = lock_next(&it))], collecting the nodes. *)
Fixpoint iterate_next (fuel : nat) (r : node_root) (it : node_iterator) (self : Z)
    : option (list Z) :=
  match fuel with
  | O => None
  | S fuel =>
      '(it, a) ← _nd_node_lock_next r it self;
      if a =? 0 then Some [] else rest ← iterate_next fuel r it self; Some (a :: rest)
  end.
Definition iterate (fuel : nat) (r : node_root) (self : Z) : option (list Z) :=
  '(it, a) ← _nd_node_lock_first r (mk_iter 0 0 0) self;
  if a =? 0 then Some [] else rest ← iterate_next fuel r it self; Some (a :: rest).

Definition owned (self : Z) (s : slot) : bool := is_used s && (owner s =? self).

(** The nodes of the used slots the thread owns. *)
Definition owned_nodes (self : Z) (l : list slot) : list Z :=
  map node_addr (List.filter (owned self) l).

Lemma count_used_app l1 l2 : count_used (l1 ++ l2) = count_used l1 + count_used l2.
Proof. induction l1 as [|s l1 IH]; simpl; [done|]. rewrite IH. lia. Qed.

Lemma owned_nodes_unused self l : count_used l = 0 -> owned_nodes self l = [].
Proof.
  unfold owned_nodes. induction l as [|s l IH]; simpl; [done|]. intros H.
  pose proof (count_used_bound l). unfold owned. destruct (is_used s); [lia|].
  apply IH. lia.
Qed.
Lemma owned_nodes_app self l1 l2 :
  owned_nodes self (l1 ++ l2) = owned_nodes self l1 ++ owned_nodes self l2.
Proof. unfold owned_nodes. by rewrite List.filter_app, map_app. Qed.

(** One scan: [l1] are the slots before its first and [l2] the rest. *)
Lemma lock_loop_spec self base total bound l2 : forall l1,
  total = count_used (l1 ++ l2) -> 1 <= base -> base + zlen (l1 ++ l2) < 2 ^ 16 ->
  (owned_nodes self l2 = [] /\ exists n,
     lock_loop l2 bound self (mk_iter (base + zlen l1) (count_used l1) total) =
     (mk_iter 0 n total, 0)) \/
  (exists pre s post, l2 = pre ++ s :: post /\ owned_nodes self pre = [] /\
     owned self s = true /\
     lock_loop l2 bound self (mk_iter (base + zlen l1) (count_used l1) total) =
     (mk_iter (base + zlen (l1 ++ pre)) (count_used (l1 ++ pre ++ [s])) total, node_addr s)).
Proof.
  induction l2 as [|s l2 IH]; intros l1 Ht Hb Hl; [by left; eauto|].
  rewrite count_used_app in Ht. rewrite zlen_app in Hl. rewrite zlen_cons in Hl. simpl in Ht.
  pose proof (count_used_bound l1). pose proof (count_used_bound l2). pose proof (zlen_nonneg l1).
  cbn [lock_loop it_numbers it_total it_node_id].
  destruct (bound && negb (count_used l1 <? total)) eqn:Eb.
  { left. split; [|eauto]. apply (owned_nodes_unused self (s :: l2)). simpl.
    destruct (is_used s); lia. }
  clear Eb. fold (is_used s). fold (owned self s).
  assert (u16 (count_used l1 + 1) = count_used l1 + 1) as En by wrap_lia.
  destruct (owned self s) eqn:Eo.
  { right. exists [], s, l2. split_and!; try done. rewrite app_nil_r.
    unfold owned in Eo. apply andb_true_iff in Eo as [Eu _].
    simpl. rewrite count_used_app. simpl. by rewrite Eu, En. }
  assert (zlen (l1 ++ [s]) = zlen l1 + 1) as Ez by (by rewrite zlen_app).
  assert (lock_loop l2 bound self (mk_iter (base + zlen (l1 ++ [s]))
      (count_used (l1 ++ [s])) total) =
    lock_loop l2 bound self (let it' := if is_used s
       then mk_iter (base + zlen l1) (u16 (count_used l1 + 1)) total
       else mk_iter (base + zlen l1) (count_used l1) total in
       mk_iter (u16 (it_node_id it' + 1)) (it_numbers it') (it_total it'))) as EL.
  { f_equal. rewrite Ez, count_used_app, En. simpl. destruct (is_used s); simpl; f_equal; wrap_lia. }
  cbv zeta in EL. rewrite <- EL. clear EL.
  destruct (IH (l1 ++ [s])) as [[Ho (n&E)]|(pre&s'&post&->&Ho&Hs&E)].
  - rewrite <- app_assoc. simpl. rewrite count_used_app. simpl. lia.
  - done.
  - rewrite <- app_assoc, zlen_app. simpl. rewrite zlen_cons. lia.
  - left. split; [|eauto]. change (s :: l2) with ([s] ++ l2). rewrite owned_nodes_app, Ho.
    unfold owned_nodes. simpl. by rewrite Eo.
  - right. exists (s :: pre), s', post. split_and!; try done.
    + change (s :: pre) with ([s] ++ pre). rewrite owned_nodes_app, Ho.
      unfold owned_nodes. simpl. by rewrite Eo.
    + rewrite E. by rewrite <- !app_assoc.
Qed.

Lemma owned_addr_nonzero self l s : Forall (fun a => a <> 0) (owned_nodes self l) ->
  s ∈ l -> owned self s = true -> node_addr s <> 0.
Proof.
  intros Hf Hs Ho. rewrite Forall_forall in Hf. apply Hf, list_elem_of_In, in_map.
  apply List.filter_In. split; [by apply list_elem_of_In|done].
Qed.

Section Iterate.
Context (r : node_root) (l : list slot) (self : Z) (Hwf : root_wf r l).
Context (Hb : base_id r + max_conn_num r < 2 ^ 16).
Context (Hnz : Forall (fun a => a <> 0) (owned_nodes self l)).

Lemma iterate_next_spec fuel : forall l1 s post, l = l1 ++ s :: post ->
  (length post < fuel)%nat ->
  iterate_next fuel r (mk_iter (base_id r + zlen l1) (count_used (l1 ++ [s])) (count_used l)) self
  = Some (owned_nodes self post).
Proof using Hwf Hb Hnz.
  pose proof (wf_base r l Hwf) as Hb1. pose proof (wf_max _ _ Hwf) as Hl.
  induction fuel as [|fuel IH]; intros l1 s post El Hf; [lia|].
  cbn [iterate_next]. unfold _nd_node_lock_next. cbn [it_node_id it_numbers it_total].
  rewrite (wf_slots _ _ Hwf). cbn [mbind option_bind].
  pose proof (zlen_nonneg l1). pose proof (zlen_nonneg post).
  assert (zlen l = zlen l1 + 1 + zlen post) as Hz
    by (rewrite El, zlen_app, zlen_cons; lia).
  destruct (Z.ltb_spec (base_id r + zlen l1 - base_id r + 1) 0); [lia|].
  cbn [mbind option_bind].
  rewrite take_ge by (unfold zlen in *; lia).
  assert (drop (Z.to_nat (base_id r + zlen l1 - base_id r + 1)) l = post) as ->.
  { rewrite El, cons_middle, app_assoc. rewrite drop_app_ge; rewrite length_app; simpl;
      unfold zlen; [|lia]. by replace (_ - _)%nat with 0%nat by lia. }
  rewrite (wrapu_small 16) by lia.
  replace (base_id r + zlen l1 + 1) with (base_id r + zlen (l1 ++ [s]))
    by (rewrite zlen_app; change (zlen [s]) with 1; lia).
  destruct (lock_loop_spec self (base_id r) (count_used l) true post (l1 ++ [s]))
    as [[Ho (n&E)]|(pre&s'&post'&Ep&Ho&Hs'&E)];
    [by rewrite El, <- app_assoc|lia|rewrite <- app_assoc; simpl; rewrite <- El; lia| |].
  - rewrite E. simpl. by rewrite Ho.
  - rewrite E. simpl.
    assert (node_addr s' <> 0).
    { eapply owned_addr_nonzero; [exact Hnz| |done]. rewrite El, Ep. set_solver. }
    destruct (Z.eqb_spec (node_addr s') 0); [done|].
    replace ((l1 ++ [s]) ++ pre ++ [s']) with (((l1 ++ [s]) ++ pre) ++ [s'])
      by (by rewrite <- !app_assoc).
    rewrite (IH ((l1 ++ [s]) ++ pre) s' post').
    + simpl. subst post. rewrite owned_nodes_app, Ho. unfold owned_nodes. simpl.
      by rewrite Hs'.
    + rewrite El, Ep, <- !app_assoc. done.
    + rewrite Ep, length_app in Hf. simpl in Hf. lia.
Qed.
End Iterate.

(** iterating with [lock_first] and [lock_next] stops and yields exactly the
    nodes of the used slots owned by the calling thread, each once and lowest id
    first, skipping the nodes of other threads. *)
Theorem node_iterate_exact r l self : root_wf r l ->
  base_id r + max_conn_num r < 2 ^ 16 ->
  Forall (fun a => a <> 0) (owned_nodes self l) ->
  iterate (S (length l)) r self = Some (owned_nodes self l).
Proof.
  intros Hwf Hb Hnz. pose proof (wf_base r l Hwf) as Hb1. pose proof (wf_max _ _ Hwf) as Hl.
  pose proof (connect_num_bound r l Hwf) as Hc.
  unfold iterate, _nd_node_lock_first. destruct (Z.ltb_spec (connect_num r) 1) as [H0|H0].
  { simpl. rewrite owned_nodes_unused; [done|]. rewrite <- (wf_num _ _ Hwf). lia. }
  rewrite (wf_slots _ _ Hwf). cbn [mbind option_bind].
  rewrite take_ge by (unfold zlen in *; lia). rewrite !(wrapu_small 16) by lia.
  rewrite (wf_num _ _ Hwf).
  pose proof (lock_loop_spec self (base_id r) (count_used l) false l []) as HL.
  rewrite Z.add_0_r in HL. cbn [count_used app] in HL.
  destruct HL as [[Ho (n&E)]|(pre&s&post&Ep&Ho&Hs&E)]; [done|lia|lia| |].
  - rewrite E. simpl. by rewrite Ho.
  - rewrite E. cbn [mbind option_bind].
    assert (node_addr s <> 0).
    { eapply owned_addr_nonzero; [exact Hnz| |done]. rewrite Ep. set_solver. }
    destruct (Z.eqb_spec (node_addr s) 0); [done|].
    rewrite (iterate_next_spec r l self Hwf Hb Hnz _ pre s post Ep).
    + simpl. rewrite Ep, owned_nodes_app, Ho. unfold owned_nodes. simpl. by rewrite Hs.
    + rewrite Ep, length_app. simpl. lia.
Qed.

(** ** A concrete table: ids 1 to 4, slots 0 and 2 used *)

Definition slots_ex : list slot := [mk_slot 1 7 500; free_slot; mk_slot 2 8 600; free_slot].
Definition root_ex : node_root := mk_root 4 2 1 0 None (Some slots_ex) 0.

Lemma root_ex_wf : root_wf root_ex slots_ex.
Proof. split; simpl; try done; repeat constructor; simpl; lia. Qed.

Lemma node_accept_lock_witness :
  exists r', _nd_node_accept root_ex 7 900 = Some (r', 2) /\ connect_num r' = 3.
Proof.
  destruct (node_accept_lock root_ex slots_ex 7 900 root_ex_wf) as [[H _]|H]; [done|].
  destruct H as (r'&i&Hi&E&En&_). vm_compute in E. simplify_eq. vm_compute.
  eexists. split; reflexivity.
Defined.

Lemma node_table_reachable_witness :
  exists r0, nd_node_mgr_create (fun _ => None) 100 40 nd_node_preinit 4 0 1 true = Some (r0, 0) /\
  exists l, connmgr_addr r0 = Some l /\ zlen l = 4 /\ connect_num r0 = zlen (used_ids l 0 1) /\
    _nd_node_walk_node r0 = Some (used_ids l 0 1) /\
    forall self a, is_Some (_nd_node_accept r0 self a).
Proof.
  eexists. split; [reflexivity|].
  eapply (node_table_reachable (fun _ => None) 100 40 nd_node_preinit 4 0 1);
    [lia|lia|lia|reflexivity|apply star_refl].
Defined.

Lemma node_deaccept_twice_witness :
  exists r', _nd_node_deaccept root_ex 2 = Some (r', 0) /\
    connmgr_addr r' = Some slots_ex /\ connect_num r' = 1 /\
    _nd_node_walk_node r' = Some [1].
Proof. apply (node_deaccept_twice root_ex slots_ex 1 root_ex_wf); [simpl; lia | reflexivity]. Defined.

Lemma node_iterate_exact_witness : iterate 5 root_ex 8 = Some [600].
Proof.
  apply (node_iterate_exact root_ex slots_ex 8 root_ex_wf); [simpl; lia|].
  repeat constructor. simpl. lia.
Defined.
End Seq.

(** ** Concurrent accepts and deaccepts

    Every memory access of [_nd_node_accept] and [_nd_node_deaccept] to the
    shared table is a step of its own; the compare-and-swap of [used] is one
    step.  An activity is one connection: its accept, the time it is held, its
    deaccept. *)
Module Conc.

Inductive pc :=
  | Scan (i index : Z)        (* the [for] loop of accept *)
  | SetOwner (index : Z)      (* the swap succeeded *)
  | SetAddr (index : Z)
  | IncNum (index : Z)
  | Held (index : Z)          (* accept returned [index + base_id] *)
  | ClrAddr (index : Z)       (* deaccept was called *)
  | ClrOwner (index : Z)
  | ClrUsed (index : Z)
  | DecNum.

Record table := mk_table { slots : list slot; num : Z; pcs : gmap Z pc }.

Section Steps.
(** Thread and node of every activity. *)
Context (thread_of node_of : Z -> Z).

Definition upd (t : table) (a : Z) (p : pc) (index : Z) (s : slot) (n : Z) : table :=
  mk_table (<[Z.to_nat index := s]> (slots t)) n (<[a := p]> (pcs t)).
Definition go (t : table) (a : Z) (p : pc) : table :=
  mk_table (slots t) (num t) (<[a := p]> (pcs t)).
Definition slot_at (t : table) (index : Z) : option slot := slots t !! Z.to_nat index.

Inductive step : table -> table -> Prop :=
  | s_call t a : pcs t !! a = None -> step t (go t a (Scan 0 0))
  | s_full t a i index : pcs t !! a = Some (Scan i index) -> zlen (slots t) <= i ->
      step t (mk_table (slots t) (num t) (delete a (pcs t)))
  | s_cas_ok t a i index index' s : pcs t !! a = Some (Scan i index) -> i < zlen (slots t) ->
      index' = (if zlen (slots t) <=? index then 0 else index) ->
      slot_at t index' = Some s -> used s = 0 ->
      step t (upd t a (SetOwner index') index' (mk_slot 1 (owner s) (node_addr s)) (num t))
  | s_cas_fail t a i index index' s : pcs t !! a = Some (Scan i index) -> i < zlen (slots t) ->
      index' = (if zlen (slots t) <=? index then 0 else index) ->
      slot_at t index' = Some s -> used s <> 0 ->
      step t (go t a (Scan (i + 1) (index' + 1)))
  | s_owner t a x s : pcs t !! a = Some (SetOwner x) -> slot_at t x = Some s ->
      step t (upd t a (SetAddr x) x (mk_slot (used s) (thread_of a) (node_addr s)) (num t))
  | s_addr t a x s : pcs t !! a = Some (SetAddr x) -> slot_at t x = Some s ->
      step t (upd t a (IncNum x) x (mk_slot (used s) (owner s) (node_of a)) (num t))
  | s_inc t a x : pcs t !! a = Some (IncNum x) ->
      step t (mk_table (slots t) (num t + 1) (<[a := Held x]> (pcs t)))
  | s_release t a x : pcs t !! a = Some (Held x) -> step t (go t a (ClrAddr x))
  | s_clr_addr t a x s : pcs t !! a = Some (ClrAddr x) -> slot_at t x = Some s ->
      step t (upd t a (ClrOwner x) x (mk_slot (used s) (owner s) 0) (num t))
  | s_clr_owner t a x s : pcs t !! a = Some (ClrOwner x) -> slot_at t x = Some s ->
      step t (upd t a (ClrUsed x) x (mk_slot (used s) 0 (node_addr s)) (num t))
  | s_clr_used t a x s : pcs t !! a = Some (ClrUsed x) -> slot_at t x = Some s ->
      step t (upd t a DecNum x (mk_slot 0 (owner s) (node_addr s)) (num t))
  | s_dec t a : pcs t !! a = Some DecNum ->
      step t (mk_table (slots t) (num t - 1) (delete a (pcs t))).

(** The slot an activity has won and not yet given back. *)
Definition holds (p : pc) : option Z :=
  match p with
  | Scan _ _ | DecNum => None
  | SetOwner x | SetAddr x | IncNum x | Held x | ClrAddr x | ClrOwner x | ClrUsed x => Some x
  end.

(** What the slot of an activity must contain. *)
Definition content_ok (a : Z) (p : pc) (s : slot) : Prop :=
  used s = 1 /\
  match p with
  | SetAddr _ => owner s = thread_of a
  | IncNum _ | Held _ | ClrAddr _ => owner s = thread_of a /\ node_addr s = node_of a
  | _ => True
  end.

Record inv (t : table) : Prop := {
  inv_slot a p x : pcs t !! a = Some p -> holds p = Some x ->
    0 <= x /\ exists s, slot_at t x = Some s /\ content_ok a p s;
  inv_scan a i x : pcs t !! a = Some (Scan i x) -> 0 <= x;
  inv_unique a b p q x : pcs t !! a = Some p -> pcs t !! b = Some q ->
    holds p = Some x -> holds q = Some x -> a = b
}.

(** A step of [a] that keeps the slot it holds and writes only to it. *)
Lemma inv_own t a p p' x s n : inv t -> pcs t !! a = Some p -> holds p = Some x ->
  holds p' = Some x -> content_ok a p' s ->
  inv (upd t a p' x s n).
Proof.
  intros Hi Hp Hh Hh' Hc. destruct (inv_slot t Hi a p x Hp Hh) as (Hx&s0&E0&_).
  split; simpl.
  - intros b q y Hb Hy. destruct (decide (b = a)) as [->|Hne].
    + rewrite lookup_insert_eq in Hb. simplify_eq. split; [done|]. exists s. split; [|done].
      unfold slot_at; simpl. apply list_lookup_insert_eq. by eapply lookup_lt_Some.
    + rewrite lookup_insert_ne in Hb by done.
      destruct (inv_slot t Hi b q y Hb Hy) as (Hy0&s1&E1&C1). split; [done|].
      exists s1. split; [|done]. unfold slot_at; simpl.
      rewrite list_lookup_insert_ne; [done|].
      intros E. assert (x = y) as -> by lia. apply Hne. by eapply (inv_unique t Hi b a q p y).
  - intros b i y Hb. destruct (decide (b = a)) as [->|Hne].
    + rewrite lookup_insert_eq in Hb. by simplify_eq.
    + rewrite lookup_insert_ne in Hb by done. by eapply (inv_scan t Hi).
  - intros b c q q' y Hb Hcc Hq Hq'.
    destruct (decide (b = a)) as [->|Hb'], (decide (c = a)) as [->|Hc']; [done|..].
    + rewrite lookup_insert_eq in Hb. rewrite lookup_insert_ne in Hcc by done. simplify_eq.
      by eapply (inv_unique t Hi a c p q').
    + rewrite lookup_insert_ne in Hb by done. rewrite lookup_insert_eq in Hcc. simplify_eq.
      by eapply (inv_unique t Hi b a q p).
    + rewrite lookup_insert_ne in Hb, Hcc by done. by eapply (inv_unique t Hi b c q q').
Qed.

(** A step of [a] that changes no slot and wins none. *)
Lemma inv_go t a p' n m : inv t -> (m = <[a := p']> (pcs t) \/ m = delete a (pcs t)) ->
  (forall x, holds p' = Some x -> exists p, pcs t !! a = Some p /\ holds p = Some x /\
     forall s, content_ok a p s -> content_ok a p' s) ->
  (forall i x, p' = Scan i x -> 0 <= x) ->
  inv (mk_table (slots t) n m).
Proof.
  intros Hi Hm Hh Hs.
  assert (forall b q, m !! b = Some q -> (b = a /\ q = p') \/ pcs t !! b = Some q) as Hl.
  { intros b q. destruct Hm as [-> | ->]; destruct (decide (b = a)) as [->|].
    - rewrite lookup_insert_eq. intros. simplify_eq. by left.
    - rewrite lookup_insert_ne by done. by right.
    - by rewrite lookup_delete_eq.
    - rewrite lookup_delete_ne by done. by right. }
  split; unfold slot_at; simpl.
  - intros b q x Hb Hx. destruct (Hl b q Hb) as [[-> ->]|Hb'].
    + destruct (Hh x Hx) as (p&Hp&Hpx&Hc). destruct (inv_slot t Hi a p x Hp Hpx) as (?&s&?&?).
      split; [done|]. eauto.
    + by apply (inv_slot t Hi b q).
  - intros b i x Hb. destruct (Hl b _ Hb) as [[-> E]|Hb']; [by eapply Hs|by eapply (inv_scan t Hi)].
  - intros b c q q' x Hb Hc Hq Hq'.
    assert (exists q0, pcs t !! b = Some q0 /\ holds q0 = Some x) as (q0&Hb0&Hq0).
    { destruct (Hl b q Hb) as [[-> ->]|Hb']; [|eauto]. destruct (Hh x Hq) as (p&?&?&_). eauto. }
    assert (exists q1, pcs t !! c = Some q1 /\ holds q1 = Some x) as (q1&Hc1&Hq1).
    { destruct (Hl c q' Hc) as [[-> ->]|Hc']; [|eauto]. destruct (Hh x Hq') as (p&?&?&_). eauto. }
    by eapply (inv_unique t Hi b c q0 q1 x).
Qed.

(** Winning a free slot. *)
Lemma inv_win t a i index x s s' : inv t -> pcs t !! a = Some (Scan i index) -> 0 <= x ->
  slot_at t x = Some s -> used s = 0 -> used s' = 1 ->
  inv (upd t a (SetOwner x) x s' (num t)).
Proof.
  intros Hi Hp Hx Es Hu Hu'.
  assert (forall b q y, pcs t !! b = Some q -> holds q = Some y -> y <> x) as Hfree.
  { intros b q y Hb Hq ->. destruct (inv_slot t Hi b q x Hb Hq) as (_&s0&E0&C0&_).
    simplify_eq. lia. }
  split; unfold slot_at; simpl.
  - intros b q y Hb Hy. destruct (decide (b = a)) as [->|Hne].
    + rewrite lookup_insert_eq in Hb. simplify_eq/=. split; [done|]. exists s'. split; [|done].
      apply list_lookup_insert_eq. by eapply lookup_lt_Some.
    + rewrite lookup_insert_ne in Hb by done. pose proof (Hfree b q y Hb Hy).
      destruct (inv_slot t Hi b q y Hb Hy) as (Hy0&s1&E1&C1). split; [done|].
      exists s1. split; [|done]. rewrite list_lookup_insert_ne; [done|lia].
  - intros b j y Hb. destruct (decide (b = a)) as [->|Hne].
    + rewrite lookup_insert_eq in Hb. by simplify_eq.
    + rewrite lookup_insert_ne in Hb by done. by eapply (inv_scan t Hi).
  - intros b c q q' y Hb Hc Hq Hq'.
    destruct (decide (b = a)) as [->|Hb'], (decide (c = a)) as [->|Hc']; [done|..].
    + rewrite lookup_insert_eq in Hb. rewrite lookup_insert_ne in Hc by done. simplify_eq/=.
      by destruct (Hfree c q' y Hc Hq').
    + rewrite lookup_insert_ne in Hb by done. rewrite lookup_insert_eq in Hc. simplify_eq/=.
      by destruct (Hfree b q y Hb Hq).
    + rewrite lookup_insert_ne in Hb, Hc by done. by eapply (inv_unique t Hi b c q q').
Qed.

(** Giving the slot back: only its holder wrote to it. *)
Lemma inv_give_back t a x s n : inv t -> pcs t !! a = Some (ClrUsed x) -> 0 <= x ->
  inv (upd t a DecNum x s n).
Proof.
  intros Hi Hp Hx.
  assert (forall b q y, b <> a -> pcs t !! b = Some q -> holds q = Some y -> y <> x) as Hfree.
  { intros b q y Hne Hb Hq ->. apply Hne. by eapply (inv_unique t Hi b a q (ClrUsed x) x). }
  split; unfold slot_at; simpl.
  - intros b q y Hb Hy. destruct (decide (b = a)) as [->|Hne].
    + rewrite lookup_insert_eq in Hb. by simplify_eq.
    + rewrite lookup_insert_ne in Hb by done. pose proof (Hfree b q y Hne Hb Hy).
      destruct (inv_slot t Hi b q y Hb Hy) as (Hy0&s1&E1&C1). split; [done|].
      exists s1. split; [|done]. rewrite list_lookup_insert_ne; [done|lia].
  - intros b j y Hb. destruct (decide (b = a)) as [->|Hne].
    + rewrite lookup_insert_eq in Hb. by simplify_eq.
    + rewrite lookup_insert_ne in Hb by done. by eapply (inv_scan t Hi).
  - intros b c q q' y Hb Hc Hq Hq'.
    destruct (decide (b = a)) as [->|Hb'].
    { rewrite lookup_insert_eq in Hb. by simplify_eq. }
    destruct (decide (c = a)) as [->|Hc'].
    { rewrite lookup_insert_eq in Hc. by simplify_eq. }
    rewrite lookup_insert_ne in Hb, Hc by done. by eapply (inv_unique t Hi b c q q').
Qed.

Lemma step_inv t t' : inv t -> step t t' -> inv t'.
Proof.
  intros Hi Hs. destruct Hs as
    [t a Hp|t a i index Hp Hf|t a i index index' s Hp Hf -> Es Hu|t a i index index' s Hp Hf -> Es Hu
    |t a x s Hp Es|t a x s Hp Es|t a x Hp|t a x Hp|t a x s Hp Es|t a x s Hp Es|t a x s Hp Es|t a Hp].
  - eapply (inv_go t a (Scan 0 0)); [done|by left|done|intros; simplify_eq; lia].
  - eapply (inv_go t a (Scan 0 0)); [done|by right|done|intros; simplify_eq; lia].
  - pose proof (inv_scan t Hi a i index Hp).
    eapply inv_win; [done|done| |done|done|done]. bcase; lia.
  - pose proof (inv_scan t Hi a i index Hp).
    eapply inv_go; [done|by left|done|]. intros i' x' E. injection E as <- <-. bcase; lia.
  - destruct (inv_slot t Hi a _ x Hp eq_refl) as (?&s0&E0&C0&_). simplify_eq.
    eapply inv_own; [done|done|done|done|by split].
  - destruct (inv_slot t Hi a _ x Hp eq_refl) as (?&s0&E0&C0&?). simplify_eq.
    eapply inv_own; [done|done|done|done|by split].
  - eapply (inv_go t a (Held x)); [done|by left| |done]. intros y Hy. simplify_eq/=. eauto.
  - eapply (inv_go t a (ClrAddr x)); [done|by left| |done]. intros y Hy. simplify_eq/=. eauto.
  - destruct (inv_slot t Hi a _ x Hp eq_refl) as (?&s0&E0&C0&?). simplify_eq.
    eapply inv_own; [done|done|done|done|by split].
  - destruct (inv_slot t Hi a _ x Hp eq_refl) as (?&s0&E0&C0&?). simplify_eq.
    eapply inv_own; [done|done|done|done|by split].
  - destruct (inv_slot t Hi a _ x Hp eq_refl) as (?&s0&E0&C0&?). simplify_eq.
    by apply inv_give_back.
  - eapply (inv_go t a DecNum); [done|by right|done|done].
Qed.

Lemma inv_initial n : inv (mk_table (repeat free_slot n) 0 ∅).
Proof. split; simpl; intros *; by rewrite lookup_empty. Qed.

(** C20: with accepts and deaccepts of any number of threads interleaved step
    by step, no two connections that are held at the same time have the same
    slot, and the slot of a held connection is marked used and names its own
    thread and node. *)
Theorem conc_accept_exclusive n t a b x y :
  star step (mk_table (repeat free_slot n) 0 ∅) t ->
  pcs t !! a = Some (Held x) -> pcs t !! b = Some (Held y) ->
  (a <> b -> x <> y) /\
  exists s, slot_at t x = Some s /\ used s = 1 /\ owner s = thread_of a /\
    node_addr s = node_of a.
Proof.
  intros Hs Ha Hb.
  assert (inv t) as Hi by (eapply star_invariant; [apply step_inv|exact Hs|apply inv_initial]).
  split.
  - intros Hne ->. apply Hne. by eapply (inv_unique t Hi a b _ _ y Ha Hb).
  - destruct (inv_slot t Hi a _ x Ha eq_refl) as (_&s&Es&Hu&Ho&Hn). eauto 6.
Qed.
End Steps.

(** Two activities whose accepts interleave on a table of two slots. *)
Lemma conc_accept_exclusive_witness :
  exists t, star (step (fun a => 10 * a) (fun a => 100 * a))
      (mk_table (repeat free_slot 2) 0 ∅) t /\
    pcs t !! 1 = Some (Held 0) /\ pcs t !! 2 = Some (Held 1) /\
    exists s, slot_at t 0 = Some s /\ used s = 1 /\ owner s = 10 /\ node_addr s = 100.
Proof.
  eexists. match goal with |- ?A /\ _ => assert A as Hs end.
  { eapply star_step. { eapply star_step. { eapply star_step. { eapply star_step.
    { eapply star_step. { eapply star_step. { eapply star_step. { eapply star_step.
    { eapply star_step. { eapply star_step. { eapply star_step. { apply star_refl. }
      apply (s_call _ _ _ 1). reflexivity. }
      apply (s_call _ _ _ 2). reflexivity. }
      eapply (s_cas_ok _ _ _ 1); [reflexivity|reflexivity|reflexivity|reflexivity|reflexivity]. }
      eapply (s_cas_fail _ _ _ 2); [reflexivity|reflexivity|reflexivity|reflexivity|done]. }
      eapply (s_cas_ok _ _ _ 2); [reflexivity|reflexivity|reflexivity|reflexivity|reflexivity]. }
      eapply (s_owner _ _ _ 1); reflexivity. }
      eapply (s_owner _ _ _ 2); reflexivity. }
      eapply (s_addr _ _ _ 2); reflexivity. }
      eapply (s_addr _ _ _ 1); reflexivity. }
      eapply (s_inc _ _ _ 1); reflexivity. }
    eapply (s_inc _ _ _ 2); reflexivity. }
  split; [exact Hs|]. split; [reflexivity|]. split; [reflexivity|].
  eapply (conc_accept_exclusive (fun a => 10 * a) (fun a => 100 * a) 2 _ 1 2 0 1 Hs);
    reflexivity.
Defined.
End Conc.
