(* ===== verification/Str.v ===== *)
(** * Str: the C string functions of nd_str.c

    A [const char *] is the list of the bytes (0 to 255) from the pointer to the
    end of its block, the terminator included: [*src] is the head, [src + 1] the
    tail, and reading past the block is [None].  Output buffers are the bytes
    stored in order.  [char] is signed, so comparisons of raw [char]s convert
    with [s8]; the comparisons with ASCII ranges give the same on bytes.  The
    thread-local [__s_code_type] is the argument [code]. *)

From S2P Require Import Prelude Bytes.

Definition E_SRC_CODE_ANSI : Z := 0.
Definition E_SRC_CODE_GBK : Z := 1.
Definition E_SRC_CODE_UTF_8 : Z := 2.

Abbreviation cstr := (list Z).

Definition deref (s : cstr) : option Z := head s.

(** ** Character classes *)

Definition IS_NUMERALS (a : Z) : bool := (48 <=? a) && (a <=? 57).
Definition IS_BIG_LATIN (a : Z) : bool := (65 <=? a) && (a <=? 90).
Definition IS_LITTLE_LATIN (a : Z) : bool := (97 <=? a) && (a <=? 122).
Definition BIG_2_LITTLE (a : Z) : Z := a + 0x20.
Definition LITTLE_2_BIG (a : Z) : Z := a - 0x20.

(** Returns the previous code and the new one. *)
Definition ndstr_set_code (code type : Z) : Z * Z := (code, type).

(** ** Reading one character *)

(** [n] copies of [**dest = **src; ++( *src); ++( *dest)]. *)
Fixpoint copy_bytes (n : nat) (src : cstr) (out : list Z) : option (cstr * list Z) :=
  match n with
  | O => Some (src, out)
  | S n => c ← deref src; copy_bytes n (tail src) (out ++ [c])
  end.

(** How many bytes [_read_word] copies for a character starting with [c]. *)
Definition word_len (code c : Z) : Z :=
  if code =? E_SRC_CODE_GBK then (if 0x80 <? c then 2 else 1)
  else if code =? E_SRC_CODE_UTF_8 then
    if 0x80 <? c then
      if 240 <=? c then 4 else if 224 <=? c then 3 else if 192 <=? c then 2 else 1
    else 1
  else 1.

Definition _read_word (code : Z) (src : cstr) (out : list Z) : option (cstr * list Z * Z) :=
  c ← deref src;
  let n := word_len code c in
  '(src, out) ← copy_bytes (Z.to_nat n) src out;
  Some (src, out, n).
Definition ndstr_read_utf8char := _read_word.

(** [Some None] is the result NULL. *)
Fixpoint ndstr_first_valid (src : cstr) : option (option cstr) :=
  match src with
  | [] => None
  | c :: t =>
      if c <=? 0x20 then if c =? 0 then Some None else ndstr_first_valid t
      else Some (Some src)
  end.

(** ** Numbers *)

Definition bcdText : list Z := [48; 49; 50; 51; 52; 53; 54; 55; 56; 57; 97; 98; 99; 100; 101; 102].

Fixpoint bcd_search (l : list Z) (i ch : Z) : Z :=
  match l with
  | [] => -1
  | c :: l => if ch =? c then i else bcd_search l (i + 1) ch
  end.
Definition _getBCDindex (ch : Z) : Z :=
  let ch := if IS_BIG_LATIN ch then ch + 0x20 else ch in
  bcd_search bcdText 0 ch.

(** [src[0] == '0' && (src[1] == 'x' || src[1] == 'X')] *)
Definition is_hex_prefix (src : cstr) : option bool :=
  c ← deref src;
  if c =? 48 then c1 ← deref (tail src); Some ((c1 =? 120) || (c1 =? 88)) else Some false.

(** [while ( *src) if (-1 == _getBCDindex( *src++)) return 0; return 1;] *)
Fixpoint all_hex (src : cstr) : option Z :=
  match src with
  | [] => None
  | c :: src =>
      if c =? 0 then Some 1
      else if _getBCDindex c =? -1 then Some 0 else all_hex src
  end.

Fixpoint numerals_loop (src : cstr) (dot ret : Z) : option Z :=
  match src with
  | [] => None
  | c :: src =>
      if c =? 0 then Some ret
      else if IS_NUMERALS c then numerals_loop src dot 1
      else if c =? 46 then
        if 1 <? dot + 1 then Some 0 else numerals_loop src (dot + 1) ret
      else Some 0
  end.

Definition ndstr_is_numerals (src : cstr) : option Z :=
  hex ← is_hex_prefix src;
  if (hex : bool) then all_hex (tail (tail src))
  else
    p ← ndstr_first_valid src;
    src ← p;                          (* NULL is dereferenced *)
    c ← deref src;
    if c =? 45 then numerals_loop (tail src) 0 0
    else if IS_NUMERALS c then numerals_loop (tail src) 0 1
    else Some 0.

Fixpoint natural_loop (src : cstr) : option Z :=
  match src with
  | [] => None
  | c :: src => if c =? 0 then Some 1 else if IS_NUMERALS c then natural_loop src else Some 0
  end.

Definition ndstr_is_naturalnumber (src : cstr) : option Z :=
  p ← ndstr_first_valid src;
  src ← p;
  hex ← is_hex_prefix src;
  if (hex : bool) then all_hex (tail (tail src))
  else
    c ← deref src;
    if c =? 43 then natural_loop (tail src)
    else if IS_NUMERALS c then natural_loop (tail src)
    else Some 0.

Fixpoint read_numerals_loop (src : cstr) (out : list Z) (dot isok : Z)
    : option (cstr * list Z * Z) :=
  match src with
  | [] => None
  | c :: t =>
      if c =? 0 then Some (src, out ++ [0], isok)
      else if IS_NUMERALS c then read_numerals_loop t (out ++ [c]) dot 1
      else if c =? 46 then
        if 1 <? dot + 1 then Some (src, out ++ [0], 0)
        else read_numerals_loop t (out ++ [c]) (dot + 1) isok
      else Some (src, out ++ [0], isok)
  end.

(** Returns the rest, the bytes stored at [desc] and [*isok]. *)
Definition ndstr_read_numerals (src : cstr) : option (cstr * list Z * Z) :=
  p ← ndstr_first_valid src;
  src ← p;
  c ← deref src;
  if (c =? 45) || (c =? 43) then read_numerals_loop (tail src) [c] 0 0
  else if c =? 46 then read_numerals_loop (tail src) [48; c] 1 0
  else if IS_NUMERALS c then read_numerals_loop (tail src) [c] 0 1
  else Some (src, [], 0).

(** [val = (val << 4) | index] in 64 bits. *)
Fixpoint hex_loop (src : cstr) (val : Z) : option Z :=
  match src with
  | [] => None
  | c :: src =>
      if c =? 0 then Some val
      else
        let index := _getBCDindex c in
        if index =? -1 then Some 0
        else hex_loop src (Z.lor (u64 (Z.shiftl val 4)) index)
  end.

Section Atoi.
(** The C library's [atoi] and [atoll]. *)
Context (atoi atoll : cstr -> Z).

Definition ndstr_atoi_hex (src : cstr) : option Z :=
  hex ← is_hex_prefix src;
  if (hex : bool) then hex_loop (tail (tail src)) 0 else Some (u64 (atoi src)).
Definition ndstr_atoll_hex (src : cstr) : option Z :=
  hex ← is_hex_prefix src;
  if (hex : bool) then hex_loop (tail (tail src)) 0 else Some (u64 (atoll src)).
End Atoi.

(** ** Words and delimited text

    The loops consume at least one byte per round: the length of the source is
    enough fuel. *)

(** What a loop gives when its fuel is used up: [None], or the value at hand (an
    error, where there is one).  Everything takes the first, but for the
    statement that the fuel is enough. *)
Class Spent := spent : forall A : Type, A -> option A.
#[global] Instance spent_none : Spent | 100 := fun _ _ => None.
Definition spent_some : Spent := fun _ => Some.

(** [return *src ? src : NULL] *)
Definition rest_or_null (src : cstr) : option (option cstr) :=
  c ← deref src; Some (if c =? 0 then None else Some src).

Definition is_word_char (a : Z) : bool :=
  IS_NUMERALS a || IS_BIG_LATIN a || IS_LITTLE_LATIN a || (a =? 95).

Section Words.
Context {sp : Spent}.

Fixpoint parse_word_loop (fuel : nat) (code : Z) (src : cstr) (out : list Z)
    : option (cstr * list Z) :=
  a ← deref src;
  if a =? 0 then Some (src, out)
  else match fuel with
  | O => spent _ (src, out)
  | S fuel =>
      if is_word_char a || (a =? 36) || (a =? 64)
      then parse_word_loop fuel code (tail src) (out ++ [a])
      else if negb (code =? E_SRC_CODE_ANSI) && (0x80 <? a) then
        '(src, out, _) ← _read_word code src out; parse_word_loop fuel code src out
      else Some (src, out)
  end.
Definition ndstr_parse_word (code : Z) (src : cstr) : option (option cstr * list Z) :=
  '(src, out) ← parse_word_loop (length src) code src [];
  r ← rest_or_null src; Some (r, out ++ [0]).

Fixpoint parse_string_loop (fuel : nat) (code : Z) (src : cstr) (out : list Z)
    : option (cstr * list Z) :=
  a ← deref src;
  if a =? 0 then Some (src, out)
  else match fuel with
  | O => spent _ (src, out)
  | S fuel =>
      if a <=? 0x20 then Some (src, out)
      else '(src, out, _) ← _read_word code src out; parse_string_loop fuel code src out
  end.
Definition ndstr_parse_string (code : Z) (src : cstr) : option (option cstr * list Z) :=
  '(src, out) ← parse_string_loop (length src) code src [];
  r ← rest_or_null src; Some (r, out ++ [0]).

Fixpoint parse_word_n_loop (fuel : nat) (code : Z) (src : cstr) (out : list Z) (n : Z)
    : option (cstr * list Z) :=
  a ← deref src;
  if a =? 0 then Some (src, out)
  else match fuel with
  | O => spent _ (src, out)
  | S fuel =>
      if 0 <? n then
        let n := n - 1 in
        if is_word_char a || (a =? 46) then parse_word_n_loop fuel code (tail src) (out ++ [a]) n
        else if negb (code =? E_SRC_CODE_ANSI) && (0x80 <? a) then
          '(src, out, ret) ← _read_word code src out;
          parse_word_n_loop fuel code src out (n - (ret - 1))
        else Some (src, out)
      else Some (src, out)
  end.
Definition ndstr_parse_word_n (code : Z) (src : cstr) (n : Z) : option (option cstr * list Z) :=
  '(src, out) ← parse_word_n_loop (length src) code src [] n;
  r ← rest_or_null src; Some (r, out ++ [0]).

(** [start] is [p == src]. *)
Fixpoint parse_variant_n_loop (fuel : nat) (code : Z) (src : cstr) (out : list Z) (n : Z)
    (start : bool) : option (cstr * list Z * bool) :=
  a ← deref src;
  if a =? 0 then Some (src, out, false)
  else match fuel with
  | O => spent _ (src, out, false)
  | S fuel =>
      if 0 <? n then
        let n := n - 1 in
        if negb (code =? E_SRC_CODE_ANSI) && (0x80 <? a) then
          '(src, out, ret) ← _read_word code src out;
          parse_variant_n_loop fuel code src out (n - (ret - 1)) false
        else if is_word_char a || (a =? 46) || (a =? 36)
        then parse_variant_n_loop fuel code (tail src) (out ++ [a]) n false
        else Some (src, out, start)
      else Some (src, out, false)
  end.
Definition ndstr_parse_variant_n (code : Z) (src : cstr) (n : Z) : option (Z * list Z) :=
  '(src', out, failed) ← parse_variant_n_loop (length src) code src [] n true;
  Some (if (failed : bool) then (-1, out) else (s32 (zlen src - zlen src'), out ++ [0])).
End Words.

Fixpoint read_cmd_loop (fuel : nat) (src : cstr) (out : list Z) (n endmark : Z)
    : option (cstr * list Z) :=
  a ← deref src;
  if a =? 0 then Some (src, out)
  else match fuel with
  | O => None
  | S fuel =>
      if 0 <? n then
        let n := n - 1 in
        if a =? 92 then
          let src := tail src in
          c ← deref src; read_cmd_loop fuel (tail src) (out ++ [c]) n endmark
        else if endmark =? a then Some (tail src, out)
        else read_cmd_loop fuel (tail src) (out ++ [a]) n endmark
      else Some (src, out)
  end.
Definition _ndstr_read_cmd (src : cstr) (n endmark : Z) : option (option cstr * list Z) :=
  '(src, out) ← read_cmd_loop (length src) src [] n endmark;
  r ← rest_or_null src; Some (r, out ++ [0]).

Section Command.
(** [getenv]: the value, terminator included. *)
Context (getenv : cstr -> option cstr).

(** [ndstrncpy(dst, src, n)] is [strncpy]: at most [n] bytes, padded with NUL. *)
Fixpoint strncpy (n : nat) (src : cstr) : list Z :=
  match n, src with
  | O, _ => []
  | S n, [] => 0 :: strncpy n []
  | S n, c :: t => if c =? 0 then repeat 0 (S n) else c :: strncpy n t
  end.

(** The arguments stored, one list of bytes each. *)
Fixpoint parse_command_loop (fuel : nat) (code : Z) (next_text : option cstr)
    (bufsize number : Z) (argv : list (list Z)) : option (list (list Z)) :=
  match next_text with
  | None => Some argv
  | Some text =>
      c ← deref text;
      if c =? 0 then Some argv
      else match fuel with
      | O => None
      | S fuel =>
          p ← ndstr_first_valid text;
          match p with
          | None => Some argv
          | Some text =>
              c ← deref text;
              r ←
                (if c =? 0x24 then
                   '(rest, name) ← ndstr_parse_word code (tail text);
                   if (match name with [] => true | x :: _ => x =? 0 end) then Some None
                   else match getenv name with
                   | Some (x :: v) =>
                       if x =? 0 then Some None
                       else Some (Some (rest, strncpy (Z.to_nat bufsize) (x :: v)))
                   | _ => Some None
                   end
                 else if c =? 34 then
                   '(rest, out) ← _ndstr_read_cmd (tail text) bufsize 34; Some (Some (rest, out))
                 else '(rest, out) ← ndstr_parse_string code text; Some (Some (rest, out)));
              match r with
              | None => Some argv
              | Some (rest, out) =>
                  let argv := argv ++ [out] in
                  if number <=? zlen argv then Some argv
                  else parse_command_loop fuel code rest bufsize number argv
              end
          end
      end
  end.
Definition ndstr_parse_command (code : Z) (input_text : cstr) (bufsize number : Z)
    : option (Z * list (list Z)) :=
  argv ← parse_command_loop (length input_text) code (Some input_text) bufsize number [];
  Some (zlen argv, argv).
End Command.

Fixpoint str_end_loop (fuel : nat) (code : Z) (src : cstr) (out : list Z) (end_ : Z)
    : option (cstr * list Z) :=
  a ← deref src;
  if a =? 0 then Some (src, out)
  else match fuel with
  | O => None
  | S fuel =>
      if end_ =? a then Some (src, out)
      else '(src, out, _) ← _read_word code src out; str_end_loop fuel code src out end_
  end.
Definition ndstr_str_end (code : Z) (src : cstr) (end_ : Z) : option (cstr * list Z) :=
  '(src, out) ← str_end_loop (length src) code src [] end_; Some (src, out ++ [0]).

Fixpoint nstr_end_loop (fuel : nat) (code : Z) (src : cstr) (out : list Z) (end_ n : Z)
    : option (cstr * list Z) :=
  a ← deref src;
  if a =? 0 then Some (src, out)
  else match fuel with
  | O => None
  | S fuel =>
      if 0 <? n then
        if end_ =? a then Some (src, out)
        else '(src, out, ret) ← _read_word code src out;
             nstr_end_loop fuel code src out end_ (n - ret)
      else Some (src, out)
  end.
Definition ndstr_nstr_end (code : Z) (src : cstr) (end_ n : Z) : option (cstr * list Z) :=
  '(src, out) ← nstr_end_loop (length src) code src [] end_ n; Some (src, out ++ [0]).

Fixpoint nstr_ansi_loop (src : cstr) (out : list Z) (end_ : Z) (n : option Z)
    : option (cstr * list Z) :=
  match src with
  | [] => None
  | a :: t =>
      if a =? 0 then Some (src, out)
      else if match n with Some n => n <=? 0 | None => false end then Some (src, out)
      else if end_ =? a then Some (src, out)
      else nstr_ansi_loop t (out ++ [a]) end_ (match n with Some n => Some (n - 1) | None => None end)
  end.
Definition ndstr_str_ansi (src : cstr) (end_ : Z) : option (cstr * list Z) :=
  '(src, out) ← nstr_ansi_loop src [] end_ None; Some (src, out ++ [0]).
Definition ndstr_nstr_ansi (src : cstr) (end_ n : Z) : option (cstr * list Z) :=
  '(src, out) ← nstr_ansi_loop src [] end_ (Some n); Some (src, out ++ [0]).

(** ** Comparison *)

Definition to_big (a : Z) : Z := if IS_LITTLE_LATIN a then LITTLE_2_BIG a else a.

Fixpoint ndstricmp (src desc : cstr) : option Z :=
  match src, desc with
  | a :: src, b :: desc =>
      let ret := s8 (to_big a) - s8 (to_big b) in
      if negb (ret =? 0) then Some ret
      else if a =? 0 then Some ret
      else ndstricmp src desc
  | _, _ => None
  end.

(** The other case of a letter. *)
Definition swap_case (a : Z) : option Z :=
  if IS_BIG_LATIN a then Some (BIG_2_LITTLE a)
  else if IS_LITTLE_LATIN a then Some (LITTLE_2_BIG a) else None.

Fixpoint ndstricmp_n (src desc : cstr) (n : Z) : option Z :=
  match src, desc with
  | a :: src, b :: desc =>
      let ret := s8 a - s8 b in
      if negb (ret =? 0) &&
         match swap_case a with Some a' => negb (a' =? b) | None => true end
      then Some ret
      else if negb (a =? 0) && (0 <? n - 1) then ndstricmp_n src desc (n - 1)
      else Some ret
  | _, _ => None
  end.

(** The inner loop of [ndstristr]: the final [ret]; [ret0] is its value before. *)
Fixpoint stristr_match (tmp aid : cstr) (ret : Z) : option Z :=
  match aid with
  | [] => None
  | b :: aid =>
      if b =? 0 then Some ret
      else
        match tmp with
        | [] => None
        | a :: tmp =>
            let ret := s8 a - s8 b in
            if negb (ret =? 0) then
              match swap_case a with
              | Some a' => if negb (a' =? b) then Some ret else stristr_match tmp aid 0
              | None => Some ret
              end
            else stristr_match tmp aid ret
        end
  end.

Fixpoint stristr_loop (src desc : cstr) (ret : Z) : option (option cstr) :=
  match src with
  | [] => None
  | a :: t =>
      if a =? 0 then Some None
      else
        ret ← stristr_match src desc ret;
        if ret =? 0 then Some (Some src) else stristr_loop t desc ret
  end.
Definition ndstristr (src desc : cstr) : option (option cstr) := stristr_loop src desc 0.

(** The block is [text], [src] and [end_] are offsets into it. *)
Fixpoint reverse_chr_loop (fuel : nat) (text : mem) (src ch end_ : Z) : option (option Z) :=
  if end_ <=? src then
    match fuel with
    | O => None
    | S fuel =>
        c ← mget text src;
        if ch =? c then Some (Some src) else reverse_chr_loop fuel text (src - 1) ch end_
    end
  else Some None.
Definition ndstr_reverse_chr (text : mem) (src ch end_ : Z) : option (option Z) :=
  reverse_chr_loop (Z.to_nat (src - end_ + 1)) text src ch end_.

Fixpoint ndstr_to_little (src : cstr) : option cstr :=
  match src with
  | [] => None
  | a :: t =>
      if a =? 0 then Some src
      else r ← ndstr_to_little t; Some ((if IS_BIG_LATIN a then BIG_2_LITTLE a else a) :: r)
  end.

(** ** Properties *)

(** The characters of a C string before its terminator. *)
Abbreviation ctext l := (Forall (fun b => 0 < b < 256) l).

Lemma to_big_inj_s8 a b : 0 <= a < 256 -> 0 <= b < 256 ->
  s8 (to_big a) = s8 (to_big b) <-> to_big a = to_big b.
Proof.
  intros Ha Hb. split; [|by intros ->]. unfold to_big, IS_LITTLE_LATIN, LITTLE_2_BIG, wraps.
  change (2 ^ (8 - 1)) with 128. change (2 ^ 8) with 256.
  intros E. revert E. repeat bcase; intros E; Z.to_euclidean_division_equations; lia.
Qed.

Lemma to_big_zero a : 0 <= a < 256 -> to_big a = 0 <-> a = 0.
Proof. unfold to_big, IS_LITTLE_LATIN, LITTLE_2_BIG. intros. repeat bcase; lia. Qed.

Lemma ndstricmp_full l1 l2 r1 r2 : ctext l1 -> ctext l2 ->
  exists ret, ndstricmp (l1 ++ 0 :: r1) (l2 ++ 0 :: r2) = Some ret /\
    (ret = 0 <-> map to_big l1 = map to_big l2) /\
    ndstricmp (l2 ++ 0 :: r2) (l1 ++ 0 :: r1) = Some (- ret).
Proof.
  intros H1. revert l2. induction H1 as [|a l1 Ha _ IH]; intros l2 H2.
  - destruct H2 as [|b l2 Hb _]; simpl.
    { exists 0. split_and!; try done. }
    change (s8 (to_big 0)) with 0.
    destruct (Z.eqb_spec (0 - s8 (to_big b)) 0) as [E|E].
    { change 0 with (s8 (to_big 0)) in E at 1.
      assert (to_big 0 = to_big b) as E' by (apply to_big_inj_s8; lia).
      change (to_big 0) with 0 in E'. symmetry in E'. apply (to_big_zero b) in E'; lia. }
    destruct (Z.eqb_spec (s8 (to_big b) - 0) 0); [lia|]. simpl.
    eexists. split_and!; [done|split; [lia|done]|f_equal; lia].
  - destruct H2 as [|b l2 Hb H2]; simpl.
    + change (s8 (to_big 0)) with 0.
      destruct (Z.eqb_spec (s8 (to_big a) - 0) 0) as [E|E].
      { assert (to_big a = to_big 0) as E' by (apply to_big_inj_s8; change (s8 (to_big 0)) with 0; lia).
        change (to_big 0) with 0 in E'. apply (to_big_zero a) in E'; lia. }
      destruct (Z.eqb_spec (0 - s8 (to_big a)) 0); [lia|]. simpl.
      eexists. split_and!; [done|split; [lia|done]|f_equal; lia].
    + destruct (Z.eqb_spec (s8 (to_big a) - s8 (to_big b)) 0) as [E|E].
      * destruct (Z.eqb_spec (s8 (to_big b) - s8 (to_big a)) 0); [|lia]. simpl.
        destruct (Z.eqb_spec a 0); [lia|]. destruct (Z.eqb_spec b 0); [lia|].
        destruct (IH l2 H2) as (ret&Er&Hr&En). exists ret. split_and!; [done| |done].
        assert (to_big a = to_big b) as -> by (apply to_big_inj_s8; lia).
        rewrite Hr. split; congruence.
      * destruct (Z.eqb_spec (s8 (to_big b) - s8 (to_big a)) 0); [lia|]. simpl.
        eexists. split_and!; [done| |f_equal; lia]. split; [lia|].
        intros Em. injection Em as Em _. rewrite Em in E. lia.
Qed.

Lemma ndstricmp_zero l1 l2 r1 r2 : ctext l1 -> ctext l2 ->
  exists ret, ndstricmp (l1 ++ 0 :: r1) (l2 ++ 0 :: r2) = Some ret /\
    (ret = 0 <-> map to_big l1 = map to_big l2).
Proof. intros H1 H2. destruct (ndstricmp_full l1 l2 r1 r2 H1 H2) as (ret & ? & ? & _). eauto. Qed.

(** [ndstricmp] of two C strings never reads past a terminator; it returns 0
    exactly when the strings are equal after upper-casing their letters, and
    swapping the arguments negates the result. *)
Theorem ndstricmp_spec l1 l2 r1 r2 : ctext l1 -> ctext l2 ->
  exists ret, ndstricmp (l1 ++ 0 :: r1) (l2 ++ 0 :: r2) = Some ret /\
    (ret = 0 <-> map to_big l1 = map to_big l2) /\
    ndstricmp (l2 ++ 0 :: r2) (l1 ++ 0 :: r1) = Some (- ret).
Proof. apply ndstricmp_full. Qed.

Lemma swap_case_to_big a b : 0 <= a < 256 -> 0 <= b < 256 -> a <> b -> to_big a = to_big b ->
  swap_case a = Some b.
Proof.
  intros Ha Hb. unfold swap_case, to_big, IS_BIG_LATIN, IS_LITTLE_LATIN, BIG_2_LITTLE, LITTLE_2_BIG.
  intros Hne Heq. revert Heq. repeat bcase; intros Heq; first [f_equal; lia|exfalso; lia].
Qed.

Lemma s8_inj a b : 0 <= a < 256 -> 0 <= b < 256 -> s8 a = s8 b -> a = b.
Proof.
  unfold wraps. change (2 ^ (8 - 1)) with 128. change (2 ^ 8) with 256.
  intros. Z.to_euclidean_division_equations. lia.
Qed.

(** [ndstricmp_n] does not reset its result after a match that ignores case:
    comparing the first [n] characters of two texts that agree up to case
    reports a difference whenever the [n]-th characters differ in case. *)
Theorem ndstricmp_n_case l1 l2 a b r1 r2 : ctext l1 -> ctext l2 ->
  0 < a < 256 -> 0 < b < 256 -> map to_big l1 = map to_big l2 -> to_big a = to_big b ->
  ndstricmp_n (l1 ++ a :: r1) (l2 ++ b :: r2) (zlen l1 + 1) = Some (s8 a - s8 b) /\
  (a <> b -> s8 a - s8 b <> 0).
Proof.
  intros H1 H2 Ha Hb Em Eab. split; [|intros Hne E; apply Hne, s8_inj; lia].
  revert l2 H2 Em. induction H1 as [|x l1 Hx _ IH]; intros l2 H2 Em.
  - destruct l2; [|done]. simpl.
    destruct (decide (a = b)) as [->|Hne].
    + rewrite Z.sub_diag. simpl. change (zlen (@nil Z)) with 0. cbn [Z.add Z.sub Z.ltb Z.compare].
      by rewrite andb_false_r.
    + rewrite (swap_case_to_big a b) by (done || lia). rewrite Z.eqb_refl, andb_false_r.
      by rewrite andb_false_r.
  - destruct l2 as [|y l2]; [done|]. inversion_clear H2 as [|?? Hy H2'].
    injection Em as Exy Em. cbn [ndstricmp_n app]. rewrite zlen_cons.
    assert (negb (s8 x - s8 y =? 0) &&
      match swap_case x with Some a' => negb (a' =? y) | None => true end = false) as ->.
    { destruct (decide (x = y)) as [->|Hne]; [by rewrite Z.sub_diag|].
      rewrite (swap_case_to_big x y) by (done || lia). by rewrite Z.eqb_refl, andb_false_r. }
    destruct (Z.eqb_spec x 0); [lia|]. pose proof (zlen_nonneg l1).
    destruct (Z.ltb_spec 0 (1 + zlen l1 + 1 - 1)); [|lia]. cbn [negb andb].
    replace (1 + zlen l1 + 1 - 1) with (zlen l1 + 1) by lia. by apply IH.
Qed.

(** ASCII characters other than the end mark are copied one by one. *)
Lemma str_end_ascii code end_ pre : Forall (fun b => 0 < b <= 0x80 /\ b <> end_) pre ->
  forall fuel rest out, (length pre <= fuel)%nat ->
  str_end_loop fuel code (pre ++ rest) out end_ =
  str_end_loop (fuel - length pre) code rest (out ++ pre) end_.
Proof.
  induction 1 as [|c pre [Hc Hne] _ IH]; intros fuel rest out Hf; simpl in *.
  - by rewrite Nat.sub_0_r, app_nil_r.
  - destruct fuel as [|fuel]; [lia|]. cbn [str_end_loop deref head app mbind option_bind].
    destruct (Z.eqb_spec c 0); [lia|]. destruct (Z.eqb_spec end_ c); [lia|].
    unfold _read_word. cbn [deref head mbind option_bind].
    assert (word_len code c = 1) as ->.
    { unfold word_len. destruct (Z.ltb_spec 0x80 c); [lia|]. repeat bcase; done. }
    change (Z.to_nat 1) with 1%nat. cbn [copy_bytes deref head tail mbind option_bind].
    rewrite IH by lia. rewrite <- app_assoc. done.
Qed.

(** on ASCII text [ndstr_str_end] copies exactly the characters before the
    first end mark or the terminator and returns its position; but when the text
    ends in the lead byte of a GBK character, the terminator is taken for the
    second byte and the scan runs past the end of the block. *)
Theorem ndstr_str_end_bounds code end_ pre stop rest c :
  Forall (fun b => 0 < b <= 0x80 /\ b <> end_) pre -> stop = 0 \/ stop = end_ ->
  0x80 < c < 256 -> c <> end_ ->
  ndstr_str_end code (pre ++ stop :: rest) end_ = Some (stop :: rest, pre ++ [0]) /\
  ndstr_str_end E_SRC_CODE_GBK (pre ++ [c; 0]) end_ = None.
Proof.
  intros Hp Hs Hc Hne. unfold ndstr_str_end.
  assert (forall k, (length pre <= length (pre ++ k))%nat) as Hl
    by (intros; rewrite length_app; lia).
  rewrite !str_end_ascii by auto. rewrite !length_app, !Nat.add_sub_swap, !Nat.sub_diag by lia.
  cbn [app Nat.add length str_end_loop deref head mbind option_bind]. split.
  - destruct (Z.eqb_spec stop 0); [done|]. destruct Hs as [?|<-]; [done|]. by rewrite Z.eqb_refl.
  - destruct (Z.eqb_spec c 0); [lia|]. destruct (Z.eqb_spec end_ c); [lia|].
    unfold _read_word. cbn [deref head mbind option_bind].
    assert (word_len E_SRC_CODE_GBK c = 2) as ->.
    { unfold word_len. simpl. destruct (Z.ltb_spec 0x80 c); [done|lia]. }
    reflexivity.
Qed.

Lemma bcd_digit d : 0 <= d < 16 -> _getBCDindex (if d <? 10 then 48 + d else 87 + d) = d /\
  (if d <? 10 then 48 + d else 87 + d) <> 0.
Proof.
  intros Hd. assert (d = 0 \/ d = 1 \/ d = 2 \/ d = 3 \/ d = 4 \/ d = 5 \/ d = 6 \/ d = 7 \/ d = 8 \/
    d = 9 \/ d = 10 \/ d = 11 \/ d = 12 \/ d = 13 \/ d = 14 \/ d = 15) as H by lia.
  repeat destruct H as [->|H]; subst; split; done.
Qed.

Lemma lor_hex v d : 0 <= v -> 0 <= d < 16 -> Z.lor (u64 (Z.shiftl v 4)) d = u64 (16 * v + d).
Proof.
  intros Hv Hd. rewrite Z.shiftl_mul_pow2 by lia. change (2 ^ 4) with 16. unfold wrapu.
  change (2 ^ 64) with (16 * 2 ^ 60). rewrite (Z.mul_comm v 16).
  rewrite Z.mul_mod_distr_l by lia.
  assert ((16 * v + d) mod (16 * 2 ^ 60) = 16 * (v mod 2 ^ 60) + d) as ->.
  { replace (16 * v + d) with (d + v * 16) by lia. rewrite Z.rem_mul_r by lia.
    rewrite Z.mod_add, Z.div_add by lia. rewrite (Z.mod_small d 16), (Z.div_small d 16), Z.add_0_l by lia. lia. }
  rewrite (Z.mul_comm 16). apply (lor_add 4); lia.
Qed.

(** The number written with the hexadecimal digits [ds]. *)
Definition hex_value (ds : list Z) : Z := fold_left (fun v d => 16 * v + d) ds 0.
Definition hex_text (ds : list Z) : list Z :=
  map (fun d => if d <? 10 then 48 + d else 87 + d) ds.

Lemma hex_loop_digits ds rest : Forall (fun d => 0 <= d < 16) ds -> forall v, 0 <= v ->
  hex_loop (hex_text ds ++ 0 :: rest) (u64 v) = Some (u64 (fold_left (fun v d => 16 * v + d) ds v)).
Proof.
  induction 1 as [|d ds Hd _ IH]; intros v Hv; [done|].
  cbn [hex_text map app hex_loop fold_left]. destruct (bcd_digit d Hd) as [-> Hne].
  destruct (Z.eqb_spec (if d <? 10 then 48 + d else 87 + d) 0); [done|].
  destruct (Z.eqb_spec d (-1)); [lia|].
  rewrite lor_hex; [|apply wrapu_range; lia|done].
  assert (u64 (16 * u64 v + d) = u64 (16 * v + d)) as ->.
  { unfold wrapu. rewrite <- (Zplus_mod_idemp_l (16 * _)), Zmult_mod_idemp_r.
    by rewrite Zplus_mod_idemp_l. }
  apply IH. lia.
Qed.

(** [ndstr_atoll_hex] reads any run of hexadecimal digits after "0x" or "0X"
    as their value modulo 2^64, and any other character before the terminator
    makes the result 0. *)
Theorem ndstr_atoll_hex_value atoll x ds bad rest :
  x = 120 \/ x = 88 -> Forall (fun d => 0 <= d < 16) ds -> bad <> 0 -> _getBCDindex bad = -1 ->
  ndstr_atoll_hex atoll (48 :: x :: hex_text ds ++ 0 :: rest) = Some (u64 (hex_value ds)) /\
  ndstr_atoll_hex atoll (48 :: x :: hex_text ds ++ bad :: rest) = Some 0.
Proof.
  intros Hx Hd Hb Hbad. unfold ndstr_atoll_hex, is_hex_prefix.
  cbn [deref head tail mbind option_bind].
  destruct (Z.eqb_spec 48 48); [|done]. cbn [mbind option_bind].
  replace ((x =? 120) || (x =? 88)) with true by (destruct Hx as [-> | ->]; done). split.
  - change 0 with (u64 0) at 2. by apply hex_loop_digits.
  - assert (forall v, hex_loop (hex_text ds ++ bad :: rest) v = Some 0) as H; [|apply H].
    induction Hd as [|d ds Hd' _ IH]; intros v; cbn [hex_text map app hex_loop].
    + destruct (Z.eqb_spec bad 0); [done|]. by rewrite Hbad.
    + destruct (bcd_digit d Hd') as [-> Hne].
      destruct (Z.eqb_spec (if d <? 10 then 48 + d else 87 + d) 0); [done|].
      destruct (Z.eqb_spec d (-1)); [lia|]. apply IH.
Qed.

(** ** Concrete texts *)

Lemma ndstricmp_spec_witness :
  exists ret, ndstricmp ([72; 105] ++ 0 :: [1]) ([104; 73] ++ 0 :: []) = Some ret /\
    (ret = 0 <-> map to_big [72; 105] = map to_big [104; 73]) /\
    ndstricmp ([104; 73] ++ 0 :: []) ([72; 105] ++ 0 :: [1]) = Some (- ret).
Proof. apply ndstricmp_spec; repeat constructor; lia. Defined.

Lemma ndstricmp_n_case_witness :
  ndstricmp_n ([72] ++ 105 :: [0]) ([104] ++ 73 :: [0]) 2 = Some 32 /\ (105 <> 73 -> 32 <> 0).
Proof.
  apply (ndstricmp_n_case [72] [104] 105 73 [0] [0]); try lia; try reflexivity;
    repeat constructor; lia.
Defined.

Lemma ndstr_str_end_bounds_witness :
  ndstr_str_end E_SRC_CODE_UTF_8 ([97; 98] ++ 44 :: [99; 0]) 44 = Some ([44; 99; 0], [97; 98; 0]) /\
  ndstr_str_end E_SRC_CODE_GBK ([97; 98] ++ [0xb0; 0]) 44 = None.
Proof.
  apply ndstr_str_end_bounds; [repeat constructor; lia | by right | lia | lia].
Defined.

Lemma ndstr_atoll_hex_value_witness :
  ndstr_atoll_hex (fun _ => 0) (48 :: 120 :: hex_text [15; 0; 10] ++ 0 :: []) = Some 0xf0a /\
  ndstr_atoll_hex (fun _ => 0) (48 :: 120 :: hex_text [15; 0; 10] ++ 103 :: []) = Some 0.
Proof.
  apply (ndstr_atoll_hex_value (fun _ => 0) 120 [15; 0; 10] 103 []);
    [by left | repeat constructor; lia | lia | reflexivity].
Defined.
