(* ===== verification/Handle.v ===== *)
(** * Handle: the object base of nd_handle.c

    Every object starts with the fields of [ND_OBJ_BASE]; objects are created by
    class name from a registry and carry a list of callbacks to run when they
    are closed or destroyed.  The lists are the rings of [DList]; here they are
    the sequences those rings represent ([list_add] is cons, [list_add_tail] is
    append: [DList.list_ops_refine]).  Functions called through pointers are
    numbers, what they do is given by the parameters of the sections, and the
    calls made are returned in order. *)

From S2P Require Import Prelude Bytes Str.

(** ** Constants *)

Definition NDHANDLE_UNKNOW : Z := 0.
Definition NDHANDLE_TCPNODE : Z := 2.
Definition NDHANDLE_UDPNODE : Z := 3.
Definition NDHANDLE_LISTEN : Z := 4.
Definition NDHANDLE_NETMSG : Z := 7.
Definition NDHANDLE_TIMER : Z := 8.

Definition NDERR_SUCCESS : Z := 0.
Definition NDERR_INVALID_HANDLE : Z := 1.
Definition NDERR_TIMEOUT : Z := 2.
Definition NDERR_NOSOURCE : Z := 3.
Definition NDERR_OPENFILE : Z := 4.
Definition NDERR_LIMITED : Z := 6.
Definition NDERR_USER : Z := 7.
Definition NDERR_INVALID_INPUT : Z := 8.
Definition NDERR_IO : Z := 9.
Definition NDERR_WOULD_BLOCK : Z := 10.
Definition NDERR_CLOSED : Z := 11.
Definition NDERR_BADPACKET : Z := 12.
Definition NDERR_BADSOCKET : Z := 13.
Definition NDERR_READ : Z := 14.
Definition NDERR_WRITE : Z := 15.
Definition NDERR_NO_PRIVILAGE : Z := 16.
Definition NDERR_RESET : Z := 17.
Definition NDERR_VERSION : Z := 18.
Definition NDERR_USER_BREAK : Z := 19.
Definition NDERR_UNHANDLED_MSG : Z := 20.
Definition NDERR_UNKNOWN : Z := 79.

(** ** Objects *)

(** [struct release_callback_source_node]. *)
Record destroy_cb := mk_cb { cb_type : Z; cb_func : Z; cb_param : Z }.

#[export] Instance destroy_cb_eq_dec : EqDecision destroy_cb.
Proof. solve_decision. Defined.

(** [struct tag_nd_handle]. *)
Record tag_nd_handle := mk_obj {
  size : Z;
  type : Z;
  myerrno : Z;
  close_entry : option Z;
  __created : Z;
  inst_name : list Z;
  __release_cb_hdr : list destroy_cb
}.

Definition nd_object_lasterror (h : tag_nd_handle) : Z := myerrno h.
Definition nd_object_seterror (h : tag_nd_handle) (errcode : Z) : tag_nd_handle :=
  mk_obj (size h) (type h) (u16 errcode) (close_entry h) (__created h) (inst_name h)
    (__release_cb_hdr h).
Definition nd_object_get_type (h : tag_nd_handle) : Z := type h.

Definition nd_object_check_error (h : tag_nd_handle) : Z :=
  if (myerrno h =? NDERR_SUCCESS) || (myerrno h =? NDERR_WOULD_BLOCK) ||
     (myerrno h =? NDERR_NO_PRIVILAGE) || (NDERR_USER_BREAK <=? myerrno h)
  then 0 else myerrno h.

(** The errors [nd_tryto_clear_err] keeps. *)
Definition sticky_error (e : Z) : bool :=
  (e =? NDERR_INVALID_HANDLE) || (e =? NDERR_TIMEOUT) || (e =? NDERR_OPENFILE) ||
  (e =? NDERR_USER) || (e =? NDERR_IO) || (e =? NDERR_RESET) || (e =? NDERR_WRITE) ||
  (e =? NDERR_CLOSED) || (e =? NDERR_READ).

Definition nd_tryto_clear_err (h : tag_nd_handle) : tag_nd_handle * Z :=
  if sticky_error (myerrno h) then (h, myerrno h)
  else (mk_obj (size h) (type h) 0 (close_entry h) (__created h) (inst_name h)
          (__release_cb_hdr h), 0).

Definition set_created (h : tag_nd_handle) (v : Z) : tag_nd_handle :=
  mk_obj (size h) (type h) (myerrno h) (close_entry h) v (inst_name h) (__release_cb_hdr h).
Definition nd_reg_handle (h : tag_nd_handle) : tag_nd_handle * Z := (set_created h 1, 0).
Definition nd_unreg_handle (h : tag_nd_handle) : tag_nd_handle * Z := (set_created h 0, 0).

Definition nd_handle_checkvalid (h : tag_nd_handle) (objtype : Z) : Z :=
  if __created h =? 0 then 0
  else if (type h =? 0) || negb (type h =? objtype) then 0
  else if size h =? 0 then 0
  else 1.

(** [strlen] of a byte array: the number of bytes before the first NUL; [None]
    when there is none inside the array. *)
Fixpoint strlen (s : list Z) : option Z :=
  match s with
  | [] => None
  | c :: s => if c =? 0 then Some 0 else n ← strlen s; Some (1 + n)
  end.

(** [name] points to a terminated string. *)
Definition nd_object_set_instname (h : tag_nd_handle) (name : list Z)
    : option (tag_nd_handle * Z) :=
  c ← head name;
  if negb (c =? 0) then
    let inst := strncpy 32 name in
    let h := mk_obj (size h) (type h) (myerrno h) (close_entry h) (__created h) inst
               (__release_cb_hdr h) in
    n ← strlen inst; Some (h, n)
  else Some (h, 0).

(** ** Destroy callbacks *)

Definition set_cbs (h : tag_nd_handle) (l : list destroy_cb) : tag_nd_handle :=
  mk_obj (size h) (type h) (myerrno h) (close_entry h) (__created h) (inst_name h) l.

(** [malloc_ok]: whether the node could be allocated. *)
Definition nd_object_add_destroy_cb (h : tag_nd_handle) (callback param type : Z)
    (malloc_ok : bool) : tag_nd_handle * Z :=
  if negb malloc_ok then (h, -1)
  else (set_cbs h (mk_cb type callback param :: __release_cb_hdr h), 0).

(** Removes the first match; the third component is the callback that ran. *)
Fixpoint del_cb_loop (l : list destroy_cb) (callback param : Z)
    : list destroy_cb * option destroy_cb :=
  match l with
  | [] => ([], None)
  | node :: l =>
      if (cb_func node =? callback) && (cb_param node =? param) then (l, Some node)
      else let '(l', r) := del_cb_loop l callback param in (node :: l', r)
  end.
Definition nd_object_del_destroy_cb (h : tag_nd_handle) (callback param : Z)
    : tag_nd_handle * Z * list destroy_cb :=
  match __release_cb_hdr h with
  | [] => (h, -1, [])
  | l =>
      let '(l', r) := del_cb_loop l callback param in
      (set_cbs h l', 0, match r with Some n => [n] | None => [] end)
  end.

(** The callbacks that run, and those left in the list by the loop. *)
Fixpoint on_destroy_loop (l : list destroy_cb) (type : Z) : list destroy_cb * list destroy_cb :=
  match l with
  | [] => ([], [])
  | node :: l =>
      let '(ran, kept) := on_destroy_loop l type in
      if (-1 =? type) || (cb_type node =? type) then (node :: ran, kept) else (ran, node :: kept)
  end.

(** The list head is initialised again after the loop, whatever it still holds. *)
Definition _nd_object_on_destroy (h : tag_nd_handle) (type : Z)
    : tag_nd_handle * Z * list destroy_cb :=
  match __release_cb_hdr h with
  | [] => (h, 0, [])
  | l => let '(ran, _) := on_destroy_loop l type in (set_cbs h [], 0, ran)
  end.

(** ** The registry *)

Record reginfo := mk_reg {
  reg_object_size : Z;
  reg_close_entry : option Z;
  reg_init_entry : option Z;
  reg_name : list Z      (* terminated *)
}.

(** The two global lists and the live objects by address. *)
Record objects := mk_objects {
  __reg_list : list reginfo;
  __alloced_obj_list : list Z;
  obj_at : gmap Z tag_nd_handle
}.

Definition OBJECT_NAME_SIZE : Z := 40.

(** The caller's structure holds a name of [OBJECT_NAME_SIZE] bytes; its last
    byte is overwritten. *)
Definition nd_object_register (w : objects) (r : reginfo) (malloc_ok : bool) : objects * Z :=
  if negb malloc_ok then (w, -1)
  else
    let name := <[Z.to_nat (OBJECT_NAME_SIZE - 1) := 0]> (reg_name r) in
    (mk_objects (__reg_list w ++ [mk_reg (reg_object_size r) (reg_close_entry r)
        (reg_init_entry r) name]) (__alloced_obj_list w) (obj_at w), 0).

Definition destroy_object_register_manager (w : objects) : objects * Z :=
  (mk_objects [] (__alloced_obj_list w) (obj_at w), 0).

(** The text of a terminated byte array. *)
Fixpoint ctext_of (s : list Z) : list Z :=
  match s with [] => [] | c :: s => if c =? 0 then [] else c :: ctext_of s end.

Section Registry.
(** What the class's [init_entry] and [close_entry] do. *)
Context (run_init : Z -> tag_nd_handle -> tag_nd_handle).
Context (run_close : Z -> tag_nd_handle -> Z -> tag_nd_handle * Z).

(** [ao]: the address of the object if [malloc] succeeds.  Returns the address,
    0 for NULL. *)
Definition _object_create (w : objects) (name : list Z) (ao : option Z) : option (objects * Z) :=
  match List.find (fun r => bool_decide (ctext_of (reg_name r) = ctext_of name)) (__reg_list w) with
  | None => Some (w, 0)
  | Some reginfo =>
      match ao with
      | None => Some (w, 0)
      | Some a =>
          let o := mk_obj 0 0 0 None 0 (repeat 0 32) [] in
          let o := match reg_init_entry reginfo with Some f => run_init f o | None => o end in
          let o := mk_obj (reg_object_size reginfo) (type o) (myerrno o)
                     (reg_close_entry reginfo) (__created o) (inst_name o) [] in
          let o := (nd_reg_handle o).1 in
          '(o, _) ← nd_object_set_instname o name;
          Some (mk_objects (__reg_list w) (__alloced_obj_list w ++ [a]) (<[a := o]> (obj_at w)), a)
      end
  end.

(** Also returns the callbacks that ran, in order, after the close entry. *)
Definition _object_destroy (w : objects) (handle flag : Z)
    : option (objects * Z * list destroy_cb) :=
  if handle =? 0 then Some (w, -1, [])
  else
    let is_free := bool_decide (handle ∈ __alloced_obj_list w) in
    o ← obj_at w !! handle;
    let alloced := List.filter (fun a => negb (a =? handle)) (__alloced_obj_list w) in
    let o := (nd_unreg_handle o).1 in
    let '(o, ret) := match close_entry o with Some f => run_close f o flag | None => (o, -1) end in
    let '(o, _, ran) := _nd_object_on_destroy o (-1) in
    Some (mk_objects (__reg_list w) alloced
            (if is_free then delete handle (obj_at w) else <[handle := o]> (obj_at w)), ret, ran).
End Registry.

(** ** Properties *)

Lemma on_destroy_loop_eq l type :
  on_destroy_loop l type =
  (List.filter (fun n => (-1 =? type) || (cb_type n =? type)) l,
   List.filter (fun n => negb ((-1 =? type) || (cb_type n =? type))) l).
Proof.
  induction l as [|n l IH]; [done|]. cbn [on_destroy_loop List.filter]. rewrite IH.
  by destruct ((-1 =? type) || (cb_type n =? type)).
Qed.

(** [_nd_object_on_destroy] with a callback type runs exactly the callbacks
    of that type, most recently added first, but empties the whole list: the
    callbacks of the other types are lost, and a later call for their type or for
    the destruction of the object runs nothing. *)
Theorem on_destroy_drops_others h type :
  let '(h', ret, ran) := _nd_object_on_destroy h type in
  ret = 0 /\
  ran = List.filter (fun n => (-1 =? type) || (cb_type n =? type)) (__release_cb_hdr h) /\
  __release_cb_hdr h' = [] /\
  forall type', _nd_object_on_destroy h' type' = (h', 0, []).
Proof.
  unfold _nd_object_on_destroy. destruct (__release_cb_hdr h) as [|n l] eqn:E.
  - rewrite E. by split_and!.
  - rewrite on_destroy_loop_eq. by split_and!.
Qed.

Lemma ctext_strlen s : strlen s = None \/ strlen s = Some (zlen (ctext_of s)).
Proof.
  induction s as [|c s IH]; simpl; [by left|]. destruct (Z.eqb_spec c 0); [by right|].
  rewrite zlen_cons. destruct IH as [-> | ->]; [by left|by right].
Qed.

Lemma strncpy_short n s : zlen (ctext_of s) < Z.of_nat n -> 0 ∈ s ->
  strlen (strncpy n s) = Some (zlen (ctext_of s)).
Proof.
  revert n. induction s as [|c s IH]; intros [|n] Hl H0; [set_solver|set_solver| |].
  { pose proof (zlen_nonneg (ctext_of (c :: s))). lia. }
  simpl in *. destruct (Z.eqb_spec c 0) as [->|Hc]; [done|]. simpl.
  destruct (Z.eqb_spec c 0); [done|]. rewrite zlen_cons in Hl.
  rewrite IH; [by rewrite zlen_cons|lia|set_solver].
Qed.

(** creating an object of a registered class (name shorter than the 32
    bytes of [inst_name]) yields a live object of that class, found valid under
    its type; destroying it runs the class's close entry once, then all the
    object's callbacks, and removes exactly that object. *)
Theorem object_create_destroy run_init run_close w name a flag r :
  List.find (fun r => bool_decide (ctext_of (reg_name r) = ctext_of name)) (__reg_list w) = Some r ->
  0 ∈ name -> 0 < zlen (ctext_of name) < 32 -> a <> 0 -> obj_at w !! a = None ->
  a ∉ __alloced_obj_list w -> reg_object_size r <> 0 ->
  exists w' o, _object_create run_init w name (Some a) = Some (w', a) /\
    obj_at w' !! a = Some o /\ size o = reg_object_size r /\
    close_entry o = reg_close_entry r /\ __release_cb_hdr o = [] /\
    (type o <> 0 -> nd_handle_checkvalid o (type o) = 1) /\
    forall o', let w1 := mk_objects (__reg_list w') (__alloced_obj_list w') (<[a := o']> (obj_at w')) in
      exists ret ran, _object_destroy run_close w1 a flag = Some (w, ret, ran) /\
        match close_entry o' with
        | Some f => let '(o2, r2) := run_close f (set_created o' 0) flag in
            ret = r2 /\ ran = __release_cb_hdr o2
        | None => ret = -1 /\ ran = __release_cb_hdr o'
        end.
Proof.
  intros Hf H0 Hl Ha Hfree Hna Hsz. unfold _object_create. rewrite Hf.
  unfold nd_object_set_instname. destruct name as [|c name]; [set_solver|].
  cbn [head mbind option_bind]. destruct (Z.eqb_spec c 0) as [->|Hc]; [change (0 < 0 < 32) in Hl; lia|].
  rewrite strncpy_short by (done || lia).
  cbn [mbind option_bind negb]. eexists _, _. split; [done|]. cbn [obj_at].
  rewrite lookup_insert_eq. split; [done|]. split_and!; try done.
  { intros Ht. unfold nd_handle_checkvalid. cbn [__created set_created size type nd_reg_handle fst] in *.
    apply Z.eqb_neq in Ht, Hsz. by rewrite Ht, Z.eqb_refl, Hsz. }
  intros o'. unfold _object_destroy. destruct (Z.eqb_spec a 0); [done|].
  cbn [obj_at __alloced_obj_list __reg_list]. rewrite lookup_insert_eq.
  cbn [mbind option_bind].
  assert (List.filter (fun x => negb (x =? a)) (__alloced_obj_list w ++ [a]) = __alloced_obj_list w) as ->.
  { rewrite List.filter_app. simpl. rewrite Z.eqb_refl, app_nil_r. clear -Hna.
    induction (__alloced_obj_list w) as [|x l IH]; [done|]. simpl.
    destruct (Z.eqb_spec x a); [set_solver|]. simpl. f_equal. apply IH. set_solver. }
  rewrite bool_decide_true by set_solver.
  assert (forall o2, _nd_object_on_destroy o2 (-1) = (set_cbs o2 [], 0, __release_cb_hdr o2) \/
    (_nd_object_on_destroy o2 (-1) = (o2, 0, []) /\ __release_cb_hdr o2 = [])) as Hall.
  { intros o2. unfold _nd_object_on_destroy. destruct (__release_cb_hdr o2) as [|n' l'] eqn:E;
      [by right|left]. rewrite on_destroy_loop_eq. simpl. repeat f_equal.
    clear. induction l' as [|x l IH]; [done|]. simpl. by f_equal. }
  assert (forall o2, delete a (<[a:=o2]> (obj_at w)) = obj_at w) as Hdel.
  { intros o2. apply map_eq. intros k. destruct (decide (k = a)) as [->|].
    - by rewrite lookup_delete_eq.
    - by rewrite lookup_delete_ne, lookup_insert_ne. }
  assert (mk_objects (__reg_list w) (__alloced_obj_list w) (obj_at w) = w) as Hw by by destruct w.
  destruct (close_entry o') as [f|] eqn:Ec;
    change (close_entry (nd_unreg_handle o').1) with (close_entry o'); rewrite Ec.
  - change (nd_unreg_handle o').1 with (set_created o' 0).
    destruct (run_close f (set_created o' 0) flag) as [o2 r2].
    destruct (Hall o2) as [-> | [-> ->]]; rewrite insert_insert_eq, Hdel, Hw; by eexists _, _.
  - destruct (Hall (nd_unreg_handle o').1) as [-> | [-> E]]; rewrite insert_insert_eq, Hdel, Hw.
    + by eexists _, _.
    + change (__release_cb_hdr o' = []) in E. rewrite E. by eexists _, _.
Qed.

(** A class [net] whose objects are TCP nodes with one callback each. *)
Definition demo_world : objects :=
  mk_objects [mk_reg 64 (Some 5) (Some 4) [110; 101; 116; 0]] [] ∅.

Lemma object_create_destroy_witness :
  exists w' o, _object_create (fun _ o => mk_obj 0 2 0 None 0 (inst_name o) []) demo_world
      [110; 101; 116; 0] (Some 4096) = Some (w', 4096) /\ obj_at w' !! 4096 = Some o /\
    size o = 64 /\ close_entry o = Some 5 /\ type o = 2.
Proof.
  destruct (object_create_destroy (fun _ o => mk_obj 0 2 0 None 0 (inst_name o) [])
    (fun _ o _ => (o, 0)) demo_world [110; 101; 116; 0] 4096 0
    (mk_reg 64 (Some 5) (Some 4) [110; 101; 116; 0]))
    as (w' & o & H & Ho & Hs & Hc & _).
  - reflexivity.
  - set_solver.
  - vm_compute. done.
  - done.
  - reflexivity.
  - set_solver.
  - done.
  - exists w', o. split_and!; [exact H|exact Ho|exact Hs|exact Hc|].
    vm_compute in H. injection H as <-. vm_compute in Ho. by injection Ho as <-.
Defined.
