(* ===== verification/MsgEntry.v ===== *)
(** * MsgEntry: the message table and the dispatch of nd_msgentry.c

    A handle that receives messages owns a table of [main_num] groups of 64
    message slots, addressed by the two bytes [maxid] and [minid] of a message.
    A slot holds a handler (a function, or the text of a script), the privilege
    level it asks for and some flags.  [nd_srv_translate_message] dispatches what
    a server receives (with privilege checks), [nd_translate_message] what a
    client receives.

    A pointer to a slot is the pair of its indices.  Handlers are numbers; what
    a handler does to the connection and returns is the parameter [run], and the
    dispatchers return the calls they made.  Not represented: the fields of the
    table that none of these functions read ([msg_node_size] and the object
    header), [malloc] failing inside [nd_msgentry_script_install] (the code would
    write through NULL), and log output. *)

From S2P Require Import Prelude Bytes Str Handle.

Definition SUB_MSG_NUM : Z := 64.
Definition MAX_MAIN_NUM : Z := 256.
Definition NET_MSG_NAME_SIZE : Z := 64.

(** ** Data *)

(** What [entry] points to: a function, or (when [is_script]) an allocated text. *)
Inductive entry_ptr :=
  | PFunc (f : Z)
  | PScript (text : cstr).

#[export] Instance entry_ptr_eq_dec : EqDecision entry_ptr.
Proof. solve_decision. Defined.

Record nd_msg_entry_node := mk_node {
  level : Z;          (* 16 bits *)
  sys_msg : Z;        (* 1 bit *)
  is_log : Z;
  is_script : Z;
  is_print : Z;
  entry : option entry_ptr;
  name : list Z       (* NET_MSG_NAME_SIZE bytes *)
}.

Record sub_msgentry := mk_sub {
  is_close : Z;       (* 1 bit *)
  msg_buf : list nd_msg_entry_node
}.

Record nd_msgentry_root := mk_root {
  main_num : Z;
  msgid_base : Z;
  script_engine : Z;
  script_entry : option Z;
  def_entry : option Z;
  print_entry : option Z;
  sub_buf : list sub_msgentry
}.

(** The fields of a connection or listener these functions use. *)
Record netui := mk_netui {
  obj_type : Z;
  obj_errno : Z;
  msg_caller : Z;
  conn_level : Z;               (* 6 bits *)
  unreg_msg_close : bool;
  error_privilage_close : bool;
  msg_handle : option nd_msgentry_root
}.

Definition set_errno (h : netui) (e : Z) : netui :=
  mk_netui (obj_type h) (u16 e) (msg_caller h) (conn_level h) (unreg_msg_close h)
    (error_privilage_close h) (msg_handle h).
Definition set_table (h : netui) (t : option nd_msgentry_root) : netui :=
  mk_netui (obj_type h) (obj_errno h) (msg_caller h) (conn_level h) (unreg_msg_close h)
    (error_privilage_close h) t.
Definition nd_connect_level_get (h : netui) : Z := conn_level h.
Definition nd_connect_level_set (h : netui) (level : Z) : netui :=
  mk_netui (obj_type h) (obj_errno h) (msg_caller h) (wrapu 6 level) (unreg_msg_close h)
    (error_privilage_close h) (msg_handle h).

(** ** Creation *)

Definition empty_node : nd_msg_entry_node := mk_node 0 0 0 0 0 None (zrepeat 0 NET_MSG_NAME_SIZE).
Definition empty_sub : sub_msgentry := mk_sub 0 (zrepeat empty_node SUB_MSG_NUM).

Definition create_msgroot (max_mainmsg base : Z) (malloc_ok : bool) : option nd_msgentry_root :=
  if malloc_ok
  then Some (mk_root (u16 max_mainmsg) (u16 base) 0 None None None (zrepeat empty_sub max_mainmsg))
  else None.

(** The three branches of the C function differ only in the type of the pointer
    they cast to. *)
Definition nd_msgtable_destroy (h : netui) : netui := set_table h None.

Definition nd_msgtable_create (h : netui) (mainmsg_num base_msgid : Z) (malloc_ok : bool)
    : netui * Z :=
  if (MAX_MAIN_NUM <? mainmsg_num) || (mainmsg_num <=? 0) then (h, -1)
  else
    let h := match msg_handle h with Some _ => nd_msgtable_destroy h | None => h end in
    match create_msgroot mainmsg_num base_msgid malloc_ok with
    | Some root => (set_table h (Some root), 0)
    | None => (set_table h None, -1)
    end.

(** ** Addressing *)

Definition nd_get_msg_hadle (h : netui) : option nd_msgentry_root :=
  if obj_type h =? NDHANDLE_TCPNODE then msg_handle h
  else if obj_type h =? NDHANDLE_UDPNODE then msg_handle h
  else if obj_type h =? NDHANDLE_LISTEN then msg_handle h
  else None.

Definition _nd_msgentry_get_node (h : netui) (maxid minid : Z) : option (Z * Z) :=
  match nd_get_msg_hadle h with
  | Some root_entry =>
      let main_index := u8 (maxid - msgid_base root_entry) in
      if main_num root_entry <=? main_index then None
      else if SUB_MSG_NUM <=? minid then None
      else Some (main_index, minid)
  | None => None
  end.

Definition sub_at (root : nd_msgentry_root) (i : Z) : option sub_msgentry :=
  sub_buf root !! Z.to_nat i.
Definition node_at (root : nd_msgentry_root) (p : Z * Z) : option nd_msg_entry_node :=
  s ← sub_at root p.1; msg_buf s !! Z.to_nat p.2.

Definition set_subs (root : nd_msgentry_root) (l : list sub_msgentry) : nd_msgentry_root :=
  mk_root (main_num root) (msgid_base root) (script_engine root) (script_entry root)
    (def_entry root) (print_entry root) l.
Definition node_set (root : nd_msgentry_root) (p : Z * Z) (n : nd_msg_entry_node)
    : option nd_msgentry_root :=
  s ← sub_at root p.1; _ ← msg_buf s !! Z.to_nat p.2;
  Some (set_subs root
    (<[Z.to_nat p.1 := mk_sub (is_close s) (<[Z.to_nat p.2 := n]> (msg_buf s))]> (sub_buf root))).

(** Outer [None]: the read of [is_close] is out of the table. *)
Definition _nd_msgentry_get_node_run (h : netui) (maxid minid : Z) : option (option (Z * Z)) :=
  if SUB_MSG_NUM <=? minid then Some None
  else match nd_get_msg_hadle h with
  | Some root_entry =>
      let main_index := u8 (maxid - msgid_base root_entry) in
      if main_num root_entry <=? main_index then Some None
      else s ← sub_at root_entry main_index;
           if negb (is_close s =? 0) then Some None else Some (Some (main_index, minid))
  | None => Some None
  end.

(** The slot a call of [_nd_msgentry_get_node] yields: [Some None] is NULL. *)
Definition get_node (h : netui) (maxid minid : Z) : option (option nd_msg_entry_node) :=
  match _nd_msgentry_get_node h maxid minid with
  | Some p => root ← msg_handle h; n ← node_at root p; Some (Some n)
  | None => Some None
  end.

(** Writes the slot [f] makes of the old one. *)
Definition put_node (h : netui) (p : Z * Z) (f : nd_msg_entry_node -> nd_msg_entry_node)
    : option netui :=
  root ← msg_handle h; n ← node_at root p; root ← node_set root p (f n);
  Some (set_table h (Some root)).

(** ** Queries *)

Definition nd_msgentry_get_func (h : netui) (maxid minid : Z) : option (option entry_ptr) :=
  n ← get_node h maxid minid;
  match n with
  | None => Some None
  | Some node => if negb (is_script node =? 0) then Some None else Some (entry node)
  end.

Definition nd_msgentry_is_handled (h : netui) (maxid minid : Z) : option Z :=
  n ← get_node h maxid minid;
  match n with
  | None => Some 0
  | Some node => Some (match entry node with Some _ => 1 | None => 0 end)
  end.

Definition nd_msgentry_get_name (h : netui) (maxid minid : Z) : option (option (list Z)) :=
  n ← get_node h maxid minid; Some (option_map name n).

Definition ND_MAKE_DWORD (hiWord loWord : Z) : Z :=
  Z.lor (Z.land loWord 0xffff) (Z.shiftl (Z.land hiWord 0xffff) 16).

(** The inner loop of [nd_msgentry_get_id]: the index of the first slot whose
    name matches. *)
Fixpoint get_id_inner (msgname : cstr) (nodes : list nd_msg_entry_node) (x : Z)
    : option (option Z) :=
  match nodes with
  | [] => Some None
  | node :: nodes =>
      c ← head (name node);
      if c =? 0 then get_id_inner msgname nodes (x + 1)
      else
        r ← ndstricmp msgname (name node);
        if r =? 0 then Some (Some x) else get_id_inner msgname nodes (x + 1)
  end.
Fixpoint get_id_outer (msgname : cstr) (base : Z) (subs : list sub_msgentry) (i : Z)
    : option Z :=
  match subs with
  | [] => Some (u32 (-1))
  | s :: subs =>
      r ← get_id_inner msgname (msg_buf s) 0;
      match r with
      | Some x => Some (ND_MAKE_DWORD (u32 (base + i)) x)
      | None => get_id_outer msgname base subs (i + 1)
      end
  end.
(** [msgname] is not NULL. *)
Definition nd_msgentry_get_id (h : netui) (msgname : cstr) : option Z :=
  match nd_get_msg_hadle h with
  | None => Some (u32 (-1))
  | Some root_entry =>
      c ← head msgname;
      if c =? 0 then Some (u32 (-1))
      else get_id_outer msgname (msgid_base root_entry) (sub_buf root_entry) 0
  end.

(** NULL is dereferenced when there is no table. *)
Definition nd_msgentry_get_def_func (h : netui) : option (option Z) :=
  root_entry ← nd_get_msg_hadle h; Some (def_entry root_entry).

Definition nd_message_get_script_engine (h : netui) : Z :=
  match nd_get_msg_hadle h with Some root => script_engine root | None => 0 end.

(** ** Installation *)

Definition upd_root (h : netui) (f : nd_msgentry_root -> nd_msgentry_root) : netui * Z :=
  match nd_get_msg_hadle h with
  | Some root_entry => (set_table h (Some (f root_entry)), 0)
  | None => (h, -1)
  end.

Definition nd_msgentry_def_handler (h : netui) (func : option Z) : netui * Z :=
  upd_root h (fun r => mk_root (main_num r) (msgid_base r) (script_engine r) (script_entry r)
    func (print_entry r) (sub_buf r)).

Definition nd_message_set_script_engine (h : netui) (engine : Z) (sentry : option Z) : netui * Z :=
  upd_root h (fun r => mk_root (main_num r) (msgid_base r) engine sentry
    (def_entry r) (print_entry r) (sub_buf r)).

(** Returns the previous function. *)
Definition nd_message_set_print_entry (h : netui) (f : option Z) : netui * option Z :=
  match nd_get_msg_hadle h with
  | None => (h, None)
  | Some r =>
      (set_table h (Some (mk_root (main_num r) (msgid_base r) (script_engine r) (script_entry r)
         (def_entry r) f (sub_buf r))), print_entry r)
  end.

(** [ndstrncpy(node->name, name, len)] leaves the bytes from [len] on. *)
Definition store_name (old : list Z) (nm : option cstr) : option (list Z) :=
  match nm with
  | None => Some old
  | Some nm =>
      c ← head nm;
      if c =? 0 then Some old
      else
        n ← strlen nm;
        let len := if NET_MSG_NAME_SIZE <? n + 1 then NET_MSG_NAME_SIZE else n + 1 in
        Some (strncpy (Z.to_nat len) nm ++ drop (Z.to_nat len) old)
  end.

Definition nd_msgentry_install (h : netui) (func : option Z) (maxid minid lvl : Z)
    (nm : option cstr) : option (netui * Z) :=
  match _nd_msgentry_get_node h maxid minid with
  | Some p =>
      root ← msg_handle h; node ← node_at root p;
      nm' ← store_name (name node) nm;
      h ← put_node h p (fun node =>
            mk_node (u16 lvl) (sys_msg node) (is_log node) 0 (is_print node)
              (PFunc <$> func) nm');
      Some (h, 0)
  | None => Some (set_errno h NDERR_NOSOURCE, -1)
  end.

(** [script] is NULL or terminated. *)
Definition nd_msgentry_script_install (h : netui) (script : option cstr) (maxid minid lvl : Z)
    : option (netui * Z) :=
  let fail := Some (set_errno h NDERR_NOSOURCE, -1) in
  match script, _nd_msgentry_get_node h maxid minid with
  | Some s, Some p =>
      c ← head s;
      if c =? 0 then fail
      else
        n ← strlen s;
        h ← put_node h p (fun node =>
              mk_node (u16 lvl) (sys_msg node) (is_log node) 1 (is_print node)
                (Some (PScript (strncpy (Z.to_nat (n + 1)) s))) (name node));
        Some (h, 0)
  | Some s, None => c ← head s; fail
  | None, _ => fail
  end.

(** [is_close] is one bit. *)
Definition nd_message_disable_group (h : netui) (maxId disable : Z) : option (netui * Z) :=
  match nd_get_msg_hadle h with
  | None => Some (h, -1)
  | Some root =>
      let main_index := u8 (maxId - msgid_base root) in
      if main_num root <=? main_index then Some (h, -1)
      else
        s ← sub_at root main_index;
        Some (set_table h (Some (set_subs root
          (<[Z.to_nat main_index := mk_sub (wrapu 1 disable) (msg_buf s)]> (sub_buf root)))),
          is_close s)
  end.

(** *** Flags *)

Definition with_log (b : Z) (n : nd_msg_entry_node) : nd_msg_entry_node :=
  mk_node (level n) (sys_msg n) b (is_script n) (is_print n) (entry n) (name n).
Definition with_print (b : Z) (n : nd_msg_entry_node) : nd_msg_entry_node :=
  mk_node (level n) (sys_msg n) (is_log n) (is_script n) b (entry n) (name n).
Definition with_sys (b : Z) (n : nd_msg_entry_node) : nd_msg_entry_node :=
  mk_node (level n) b (is_log n) (is_script n) (is_print n) (entry n) (name n).
Definition bit_of (b : Z) : Z := if b =? 0 then 0 else 1.

Definition map_sub (f : nd_msg_entry_node -> nd_msg_entry_node) (s : sub_msgentry) : sub_msgentry :=
  mk_sub (is_close s) (map f (msg_buf s)).

(** The shared body of [nd_message_set_log] and [nd_message_set_print]. *)
Definition set_flag (get : nd_msg_entry_node -> Z)
    (set : Z -> nd_msg_entry_node -> nd_msg_entry_node)
    (h : netui) (maxid minid b : Z) : option (netui * Z) :=
  if (maxid =? u8 (-1)) && (minid =? u8 (-1)) then
    match nd_get_msg_hadle h with
    | Some root =>
        Some (set_table h (Some (set_subs root (map (map_sub (set (bit_of b))) (sub_buf root)))), 0)
    | None => Some (h, 0)
    end
  else match _nd_msgentry_get_node h maxid minid with
  | Some p =>
      root ← msg_handle h; node ← node_at root p;
      h ← put_node h p (set (bit_of b));
      Some (h, bit_of (get node))
  | None => Some (h, -1)
  end.
Definition nd_message_set_log := set_flag is_log with_log.
Definition nd_message_set_print := set_flag is_print with_print.

(** An out-of-range [minid] other than 255 is accepted and does nothing. *)
Definition nd_message_set_system (h : netui) (maxid minid issystem : Z) : option (netui * Z) :=
  match nd_get_msg_hadle h with
  | None => Some (h, -1)
  | Some root =>
      let main_index := u8 (maxid - msgid_base root) in
      if main_num root <=? main_index then Some (h, -1)
      else if minid =? u8 (-1) then
        s ← sub_at root main_index;
        Some (set_table h (Some (set_subs root
          (<[Z.to_nat main_index := map_sub (with_sys (bit_of issystem)) s]> (sub_buf root)))), 0)
      else if minid <? SUB_MSG_NUM then
        h ← put_node h (main_index, minid) (with_sys (bit_of issystem)); Some (h, 0)
      else Some (h, 0)
  end.

(** [srv_root]: the listener of a session, or NULL. *)
Definition nd_message_is_log (h : netui) (is_session : bool) (srv_root : option netui)
    (maxId minId : Z) : option Z :=
  n ← (if is_session then
         match srv_root with Some s => get_node s (u8 maxId) (u8 minId) | None => Some None end
       else get_node h (u8 maxId) (u8 minId));
  Some (match n with Some node => if negb (is_log node =? 0) then 1 else 0 | None => 0 end).

(** ** Dispatch *)

(** A received message: its header, and its data. *)
Record usermsg := mk_msg {
  length : Z;
  ndsys_msg : Z;
  maxid : Z;
  minid : Z;
  data : list Z
}.

Inductive call :=
  | CFunc (f caller : Z)
  | CScript (entry engine caller : Z) (text : cstr)
  | CPrint (f : Z).

#[export] Instance call_eq_dec : EqDecision call.
Proof. solve_decision. Defined.

Section Dispatch.
(** The effect of a call on the connection, and its result. *)
Context (run : call -> usermsg -> netui -> netui * Z).
(** Whether the build defines [ND_TRACE_MESSAGE]. *)
Context (ND_TRACE_MESSAGE : bool).

(** The connection afterwards, the error code and the call made. *)
Definition _call_message_func (root : option nd_msgentry_root) (node : option nd_msg_entry_node)
    (msg : usermsg) (connector : netui) : option (netui * Z * list call) :=
  match node with
  | Some (mk_node _ _ _ is_script _ (Some e) _) =>
      c ← (if is_script =? 0 then
             match e with PFunc f => Some (CFunc f (msg_caller connector)) | PScript _ => None end
           else
             match e with
             | PScript t =>
                 r ← root; f ← script_entry r;
                 Some (CScript f (script_engine r) (msg_caller connector) t)
             | PFunc _ => None
             end);
      let '(h, ret) := run c msg connector in
      Some (h, if ret =? -1 then NDERR_USER else 0, [c])
  | _ =>
      r ← root;
      match def_entry r with
      | Some f =>
          let c := CFunc f (msg_caller connector) in
          let '(h, ret) := run c msg connector in
          Some (h, if ret =? -1 then NDERR_USER else 0, [c])
      | None => Some (connector, NDERR_UNHANDLED_MSG, [])
      end
  end.

Definition print_call (root : option nd_msgentry_root) (node : option nd_msg_entry_node)
    (msg : usermsg) (h : netui) : netui * list call :=
  match ND_TRACE_MESSAGE, root, node with
  | true, Some r, Some n =>
      if negb (is_print n =? 0) then
        match print_entry r with
        | Some f => ((run (CPrint f) msg h).1, [CPrint f])
        | None => (h, [])
        end
      else (h, [])
  | _, _, _ => (h, [])
  end.

(** The slot behind a pointer of [_nd_msgentry_get_node_run]. *)
Definition load_node (root : option nd_msgentry_root) (p : option (Z * Z))
    : option (option nd_msg_entry_node) :=
  match p with Some p => r ← root; n ← node_at r p; Some (Some n) | None => Some None end.

Definition nd_translate_message (owner : netui) (msg : usermsg) : option (netui * Z * list call) :=
  let data_len := length msg in
  let root_entry := msg_handle owner in
  p ← _nd_msgentry_get_node_run owner (maxid msg) (minid msg);
  node ← load_node root_entry p;
  let '(owner, c1) := print_call root_entry node msg owner in
  '(owner, error, c2) ← _call_message_func root_entry node msg owner;
  Some (if error =? 0 then (owner, data_len, c1 ++ c2)
        else (set_errno owner error, -1, c1 ++ c2)).

Definition nd_srv_translate_message (connect_handle : netui) (msg : usermsg) (srv_node : netui)
    : option (netui * Z * list call) :=
  let data_len := length msg in
  let root_entry := msg_handle srv_node in
  p ← _nd_msgentry_get_node_run srv_node (maxid msg) (minid msg);
  node ← load_node root_entry p;
  let '(conn, c1) := print_call root_entry node msg connect_handle in
  unhandled ← match node with
              | None => Some true
              | Some n => match entry n with
                          | Some _ => Some false
                          | None => r ← root_entry; Some (bool_decide (def_entry r = None))
                          end
              end;
  '(conn, ret, c2) ←
    (if (unhandled : bool) then
       Some (if unreg_msg_close srv_node
             then (set_errno conn NDERR_UNHANDLED_MSG, NDERR_UNHANDLED_MSG, []) else (conn, 0, []))
     else
       n ← node;
       if (nd_connect_level_get conn <? level n) ||
          (negb (sys_msg n =? 0) && (ndsys_msg msg =? 0)) then
         Some (if error_privilage_close srv_node
               then (set_errno conn NDERR_NO_PRIVILAGE, NDERR_UNHANDLED_MSG, []) else (conn, 0, []))
       else
         '(conn, ret, c) ← _call_message_func root_entry node msg conn;
         Some (if ret =? 0 then (conn, ret, c) else (set_errno conn ret, ret, c)));
  Some (conn, if ret =? 0 then data_len else -1, c1 ++ c2).
End Dispatch.

(** ** Well-formed tables *)

Definition is_bit (b : Z) : Prop := b = 0 \/ b = 1.

Record wf_node (n : nd_msg_entry_node) : Prop := {
  wfn_level : 0 <= level n < 65536;
  wfn_sys : is_bit (sys_msg n);
  wfn_log : is_bit (is_log n);
  wfn_print : is_bit (is_print n);
  wfn_name : zlen (name n) = NET_MSG_NAME_SIZE;
  wfn_entry : match entry n with
              | Some (PFunc _) => is_script n = 0
              | Some (PScript _) => is_script n = 1
              | None => is_bit (is_script n)
              end
}.

Record wf_sub (s : sub_msgentry) : Prop := {
  wfs_close : is_bit (is_close s);
  wfs_len : zlen (msg_buf s) = SUB_MSG_NUM;
  wfs_nodes : Forall wf_node (msg_buf s)
}.

Record wf_root (r : nd_msgentry_root) : Prop := {
  wfr_num : 0 < main_num r <= MAX_MAIN_NUM;
  wfr_base : 0 <= msgid_base r < 65536;
  wfr_len : zlen (sub_buf r) = main_num r;
  wfr_subs : Forall wf_sub (sub_buf r)
}.

Definition wf_table (h : netui) : Prop :=
  match msg_handle h with Some r => wf_root r | None => True end.

Lemma zlookup_Forall {A} (P : A -> Prop) l i : Forall P l -> 0 <= i < zlen l ->
  exists x, l !! Z.to_nat i = Some x /\ P x.
Proof.
  intros HF Hi. destruct (lookup_lt_is_Some_2 l (Z.to_nat i)) as [x Hx]; [unfold zlen in Hi; lia|].
  exists x. split; [done|]. by eapply Forall_lookup_1.
Qed.

Lemma sub_at_wf r i : wf_root r -> 0 <= i < main_num r -> exists s, sub_at r i = Some s /\ wf_sub s.
Proof. intros W Hi. apply zlookup_Forall; [apply W|]. by rewrite (wfr_len r W). Qed.

Definition ptr_ok (r : nd_msgentry_root) (p : Z * Z) : Prop :=
  0 <= p.1 < main_num r /\ 0 <= p.2 < SUB_MSG_NUM.

Lemma node_at_wf r p : wf_root r -> ptr_ok r p -> exists n, node_at r p = Some n /\ wf_node n.
Proof.
  intros W [Hi Hj]. destruct (sub_at_wf r p.1 W Hi) as (s & Hs & Ws). unfold node_at. rewrite Hs.
  apply zlookup_Forall; [apply Ws|]. by rewrite (wfs_len s Ws).
Qed.

Lemma wf_set_subs r l : wf_root r -> zlen l = zlen (sub_buf r) -> Forall wf_sub l ->
  wf_root (set_subs r l).
Proof. intros W Hl HF. split; simpl; [apply W|apply W| |done]. by rewrite Hl, (wfr_len r W). Qed.

Lemma node_set_spec r p n : wf_root r -> ptr_ok r p -> wf_node n ->
  exists l, node_set r p n = Some (set_subs r l) /\ wf_root (set_subs r l) /\
    node_at (set_subs r l) p = Some n /\
    (forall q, ptr_ok r q -> q <> p -> node_at (set_subs r l) q = node_at r q) /\
    (forall i, is_close <$> sub_at (set_subs r l) i = is_close <$> sub_at r i).
Proof.
  intros W Hp Wn. destruct (node_at_wf r p W Hp) as (n0 & Hn0 & _). unfold node_set, node_at in *.
  destruct (sub_at r p.1) as [s|] eqn:Es; [|done]. cbn [mbind option_bind] in *. rewrite Hn0.
  cbn [mbind option_bind]. eexists. split; [done|].
  assert (wf_sub s) as Ws.
  { destruct (sub_at_wf r p.1 W (proj1 Hp)) as (s' & Hs' & Ws). by simplify_eq. }
  unfold sub_at in *. cbn [sub_buf set_subs]. pose proof (lookup_lt_Some _ _ _ Es) as Hlt.
  split_and!.
  - apply wf_set_subs; [done|by rewrite zlen_insert|]. apply Forall_insert; [apply W|].
    split; simpl; [apply Ws|by rewrite zlen_insert, (wfs_len s Ws)|].
    apply Forall_insert; [apply Ws|done].
  - rewrite list_lookup_insert_eq by done. simpl. apply list_lookup_insert_eq.
    by apply lookup_lt_Some in Hn0.
  - intros [i j] [Hi Hj] Hne. simpl in *. destruct (decide (i = p.1)) as [->|Hi'].
    + rewrite list_lookup_insert_eq, Es by done. simpl. apply list_lookup_insert_ne.
      intros E. apply Hne. destruct p; simpl in *. f_equal. destruct Hp. simpl in *. lia.
    + rewrite list_lookup_insert_ne; [done|]. destruct Hp. lia.
  - intros i. destruct (decide (Z.to_nat i = Z.to_nat p.1)) as [->|Hi'].
    + by rewrite list_lookup_insert_eq, Es by done.
    + by rewrite list_lookup_insert_ne by done.
Qed.

Lemma get_handle_cases h : nd_get_msg_hadle h = msg_handle h \/ nd_get_msg_hadle h = None.
Proof. unfold nd_get_msg_hadle. repeat bcase; auto. Qed.

Definition is_byte (z : Z) : Prop := 0 <= z < 256.

(** A pointer is returned only with a table behind it. *)
Lemma get_node_ptr h maxid minid p : wf_table h -> is_byte minid ->
  _nd_msgentry_get_node h maxid minid = Some p ->
  exists r, nd_get_msg_hadle h = Some r /\ msg_handle h = Some r /\ wf_root r /\ ptr_ok r p /\
    p = (u8 (maxid - msgid_base r), minid).
Proof.
  intros W Hb. unfold _nd_msgentry_get_node.
  destruct (get_handle_cases h) as [E|E]; rewrite E; [|done].
  unfold wf_table in W. destruct (msg_handle h) as [r|]; [|done].
  pose proof (wrapu_range 8 (maxid - msgid_base r) ltac:(done)).
  repeat bcase; [done..|]. intros [= <-]. exists r. unfold ptr_ok, is_byte in *. simpl.
  split_and!; [done..|lia|lia|lia|lia|done].
Qed.

Lemma put_node_wf h r p f : msg_handle h = Some r -> wf_root r -> ptr_ok r p ->
  (forall n, wf_node n -> wf_node (f n)) ->
  exists h', put_node h p f = Some h' /\ wf_table h'.
Proof.
  intros E W Hp Hf. unfold put_node. rewrite E. simpl.
  destruct (node_at_wf r p W Hp) as (n & -> & Wn). cbn [mbind option_bind].
  destruct (node_set_spec r p (f n) W Hp (Hf n Wn)) as (l & -> & Wl & _). by eexists.
Qed.

Lemma bit_of_bit b : is_bit (bit_of b).
Proof. unfold bit_of, is_bit. bcase; auto. Qed.

Lemma wf_with_log b n : is_bit b -> wf_node n -> wf_node (with_log b n).
Proof. intros Hb []. by split. Qed.
Lemma wf_with_print b n : is_bit b -> wf_node n -> wf_node (with_print b n).
Proof. intros Hb []. by split. Qed.
Lemma wf_with_sys b n : is_bit b -> wf_node n -> wf_node (with_sys b n).
Proof. intros Hb []. by split. Qed.
Create HintDb msg.
#[export] Hint Resolve bit_of_bit wf_with_log wf_with_print wf_with_sys : msg.

Lemma wf_map_sub f s : (forall n, wf_node n -> wf_node (f n)) -> wf_sub s -> wf_sub (map_sub f s).
Proof.
  intros Hf [Hc Hl Hn]. split; simpl; [done|by rewrite <- Hl; unfold zlen; rewrite length_map|].
  apply Forall_map. by eapply Forall_impl; [apply Hn|].
Qed.

Lemma strlen_terminated s : 0 ∈ s -> exists n, strlen s = Some n /\ 0 <= n < zlen s.
Proof.
  induction s as [|c s IH]; [set_solver|]. intros Hin. simpl. rewrite zlen_cons.
  pose proof (zlen_nonneg s). destruct (Z.eqb_spec c 0); [exists 0; split; [done|lia]|].
  destruct IH as (m & -> & Hn); [set_solver|]. exists (1 + m). split; [done|lia].
Qed.

Lemma strncpy_length n s : List.length (strncpy n s) = n.
Proof.
  revert s. induction n as [|m IH]; intros s; [done|]. destruct s as [|c s]; simpl; [by rewrite IH|].
  destruct (c =? 0); simpl; [by rewrite repeat_length|by rewrite IH].
Qed.

(** A C string argument is NULL or terminated. *)
Definition terminated (s : option cstr) : Prop := match s with Some s => 0 ∈ s | None => True end.

Lemma store_name_ok old nm : zlen old = NET_MSG_NAME_SIZE -> terminated nm ->
  exists s, store_name old nm = Some s /\ zlen s = NET_MSG_NAME_SIZE.
Proof.
  intros Hold Ht. destruct nm as [nm|]; simpl in *; [|by eexists].
  destruct nm as [|c nm]; [set_solver|]. cbn [head mbind option_bind].
  destruct (c =? 0); [by eexists|]. destruct (strlen_terminated _ Ht) as (n & -> & Hn).
  cbn [mbind option_bind]. eexists. split; [done|].
  unfold zlen, NET_MSG_NAME_SIZE in *. rewrite length_app, strncpy_length, length_drop.
  bcase; lia.
Qed.

(** ** The operations that change a table *)

Inductive table_op :=
  | OpCreate (num base : Z) (malloc_ok : bool)
  | OpDestroy
  | OpInstall (func : option Z) (maxid minid lvl : Z) (nm : option cstr)
  | OpScript (script : option cstr) (maxid minid lvl : Z)
  | OpDefHandler (func : option Z)
  | OpEngine (engine : Z) (sentry : option Z)
  | OpPrintEntry (func : option Z)
  | OpDisable (maxid disable : Z)
  | OpLog (maxid minid b : Z)
  | OpPrint (maxid minid b : Z)
  | OpSystem (maxid minid b : Z).

Definition run_op (h : netui) (op : table_op) : option netui :=
  match op with
  | OpCreate num base ok => Some (nd_msgtable_create h num base ok).1
  | OpDestroy => Some (nd_msgtable_destroy h)
  | OpInstall f a b l nm => fst <$> nd_msgentry_install h f a b l nm
  | OpScript s a b l => fst <$> nd_msgentry_script_install h s a b l
  | OpDefHandler f => Some (nd_msgentry_def_handler h f).1
  | OpEngine e s => Some (nd_message_set_script_engine h e s).1
  | OpPrintEntry f => Some (nd_message_set_print_entry h f).1
  | OpDisable a d => fst <$> nd_message_disable_group h a d
  | OpLog a b v => fst <$> nd_message_set_log h a b v
  | OpPrint a b v => fst <$> nd_message_set_print h a b v
  | OpSystem a b v => fst <$> nd_message_set_system h a b v
  end.

(** Message numbers are bytes, strings are NULL or terminated. *)
Definition op_ok (op : table_op) : Prop :=
  match op with
  | OpInstall _ a b _ nm => is_byte a /\ is_byte b /\ terminated nm
  | OpScript s a b _ => is_byte a /\ is_byte b /\ terminated s
  | OpLog a b _ | OpPrint a b _ | OpSystem a b _ => is_byte a /\ is_byte b
  | _ => True
  end.

Definition run_ops (h : netui) (ops : list table_op) : option netui :=
  foldl (fun o op => h ← o; run_op h op) (Some h) ops.

Lemma msgtable_create_wf h num base ok : wf_table h -> wf_table (nd_msgtable_create h num base ok).1.
Proof.
  intros W. unfold nd_msgtable_create. bcase; [done|]. bcase; [done|].
  unfold create_msgroot, MAX_MAIN_NUM in *. destruct ok; simpl; [|done].
  unfold wf_table; simpl. split; simpl.
  - rewrite wrapu_small by lia. unfold MAX_MAIN_NUM. lia.
  - apply wrapu_range. lia.
  - rewrite zlen_repeat, wrapu_small by lia. done.
  - apply Forall_zrepeat. split; simpl; [by left|done|]. apply Forall_zrepeat.
    split; simpl; try by left. 1,2: done.
Qed.

Lemma upd_root_wf h f : wf_table h -> (forall r, wf_root r -> wf_root (f r)) ->
  wf_table (upd_root h f).1.
Proof.
  intros W Hf. unfold upd_root. destruct (get_handle_cases h) as [->| ->]; [|done].
  unfold wf_table in *. destruct (msg_handle h) as [r|] eqn:E; simpl; [auto|by rewrite E].
Qed.

Lemma set_flag_wf get set h a b v : wf_table h -> is_byte b ->
  (forall b n, is_bit b -> wf_node n -> wf_node (set b n)) ->
  exists h', fst <$> set_flag get set h a b v = Some h' /\ wf_table h'.
Proof.
  intros W Hb Hs. unfold set_flag. destruct (_ && _).
  - destruct (get_handle_cases h) as [->| ->]; [|by eexists].
    unfold wf_table in W. destruct (msg_handle h) as [r|] eqn:E; simpl.
    + eexists. split; [done|]. unfold wf_table. simpl. apply wf_set_subs; [done| |].
      * unfold zlen. by rewrite length_map.
      * apply Forall_map. eapply Forall_impl; [apply W|]. intros s. apply wf_map_sub.
        auto with msg.
    + eexists. split; [done|]. unfold wf_table. by rewrite E.
  - destruct (_nd_msgentry_get_node h a b) as [p|] eqn:Ep; [|by eexists].
    destruct (get_node_ptr h a b p W Hb Ep) as (r & _ & Er & Wr & Hp & _).
    rewrite Er. cbn [mbind option_bind]. destruct (node_at_wf r p Wr Hp) as (n & -> & _).
    cbn [mbind option_bind].
    destruct (put_node_wf h r p (set (bit_of v)) Er Wr Hp) as (h' & -> & W'); [auto with msg|].
    by eexists.
Qed.

Lemma install_wf h f a b l nm : wf_table h -> is_byte b -> terminated nm ->
  exists h', fst <$> nd_msgentry_install h f a b l nm = Some h' /\ wf_table h'.
Proof.
  intros W Hb Ht. unfold nd_msgentry_install.
  destruct (_nd_msgentry_get_node h a b) as [p|] eqn:Ep; [|by eexists].
  destruct (get_node_ptr h a b p W Hb Ep) as (r & _ & Er & Wr & Hp & _).
  rewrite Er. cbn [mbind option_bind]. destruct (node_at_wf r p Wr Hp) as (n & -> & Wn).
  cbn [mbind option_bind]. destruct (store_name_ok (name n) nm (wfn_name n Wn) Ht) as (s & -> & Hs).
  cbn [mbind option_bind].
  edestruct (put_node_wf h r p) as (h' & -> & W'); [done..| |by eexists].
  intros n' Wn'. split; simpl; try apply Wn'.
  - by apply (wrapu_range 16).
  - done.
  - destruct f; simpl; [done|by left].
Qed.

Lemma script_install_wf h s a b l : wf_table h -> is_byte b -> terminated s ->
  exists h', fst <$> nd_msgentry_script_install h s a b l = Some h' /\ wf_table h'.
Proof.
  intros W Hb Ht. unfold nd_msgentry_script_install.
  destruct s as [[|c s]|]; simpl in Ht; [set_solver| |by eexists].
  destruct (_nd_msgentry_get_node h a b) as [p|] eqn:Ep; cbn [head mbind option_bind];
    [|by eexists]. destruct (c =? 0); [by eexists|].
  destruct (get_node_ptr h a b p W Hb Ep) as (r & _ & Er & Wr & Hp & _).
  destruct (strlen_terminated _ Ht) as (n & -> & Hn). cbn [mbind option_bind].
  edestruct (put_node_wf h r p) as (h' & -> & W'); [done..| |by eexists].
  intros n' Wn'. split; simpl; try apply Wn'; [|done]. by apply (wrapu_range 16).
Qed.

Lemma disable_wf h a d : wf_table h ->
  exists h', fst <$> nd_message_disable_group h a d = Some h' /\ wf_table h'.
Proof.
  intros W. unfold nd_message_disable_group.
  destruct (get_handle_cases h) as [E|E]; rewrite E; [|by eexists].
  pose proof W as W0. unfold wf_table in W. destruct (msg_handle h) as [r|] eqn:Er; [|by eexists].
  pose proof (wrapu_range 8 (a - msgid_base r) ltac:(done)). bcase; [by eexists|].
  edestruct (sub_at_wf r) as (s & -> & Ws); [done| |].
  { split; [|eassumption]. lia. }
  simpl. eexists. split; [done|]. unfold wf_table. simpl.
  apply wf_set_subs; [done|by rewrite zlen_insert|]. apply Forall_insert; [apply W|].
  split; simpl; [|apply Ws..]. unfold is_bit. pose proof (wrapu_range 1 d ltac:(done)). lia.
Qed.

Lemma set_system_wf h a b v : wf_table h -> is_byte b ->
  exists h', fst <$> nd_message_set_system h a b v = Some h' /\ wf_table h'.
Proof.
  intros W Hb. unfold nd_message_set_system.
  destruct (get_handle_cases h) as [E|E]; rewrite E; [|by eexists].
  pose proof W as W0. unfold wf_table in W. destruct (msg_handle h) as [r|] eqn:Er; [|by eexists].
  pose proof (wrapu_range 8 (a - msgid_base r) ltac:(done)). bcase; [by eexists|]. bcase.
  - edestruct (sub_at_wf r) as (s & -> & Ws); [done| |].
    { split; [|eassumption]. lia. }
    simpl. eexists. split; [done|]. unfold wf_table. simpl.
    apply wf_set_subs; [done|by rewrite zlen_insert|]. apply Forall_insert; [apply W|].
    apply wf_map_sub; auto with msg.
  - bcase; [|by eexists].
    edestruct (put_node_wf h r) as (h' & -> & W'); [done..| | |by eexists].
    + unfold ptr_ok, is_byte in *. simpl. lia.
    + auto with msg.
Qed.

Lemma run_ops_wf h ops : wf_table h -> Forall op_ok ops ->
  exists h', run_ops h ops = Some h' /\ wf_table h'.
Proof.
  intros W Hok. unfold run_ops. revert h W. induction Hok as [|op ops Hop _ IH]; intros h W.
  { by eexists. }
  cbn [foldl mbind option_bind].
  enough (exists h', run_op h op = Some h' /\ wf_table h') as (h' & -> & W') by by apply IH.
  destruct op; simpl in *; destruct_and?.
  - eexists. split; [done|]. by apply msgtable_create_wf.
  - by eexists.
  - by apply install_wf.
  - by apply script_install_wf.
  - eexists. split; [done|]. apply upd_root_wf; [done|]. by intros r [].
  - eexists. split; [done|]. apply upd_root_wf; [done|]. by intros r [].
  - eexists. split; [done|]. unfold nd_message_set_print_entry.
    destruct (get_handle_cases h) as [->| ->]; [|done]. unfold wf_table in *.
    destruct (msg_handle h) as [r|] eqn:E; simpl; [|by rewrite E]. by destruct W.
  - by apply disable_wf.
  - apply set_flag_wf; auto with msg.
  - apply set_flag_wf; auto with msg.
  - by apply set_system_wf.
Qed.

(** C30: whatever sequence of creations, installations, flag changes, disablings
    and destructions a handle goes through, no operation reads or writes outside
    the table, and the table stays well formed: [main_num] groups of 64 slots,
    names of 64 bytes, levels of 16 bits, and [is_script] set exactly when
    [entry] points to a script text. *)
Theorem table_ops_safe h ops : wf_table h -> Forall op_ok ops ->
  exists h', run_ops h ops = Some h' /\ wf_table h'.
Proof. apply run_ops_wf. Qed.

(** ** The abstract table

    What a table promises its users: a slot per message number, groups that are
    open or closed. *)

Record slot := mk_slot { s_level : Z; s_sys : bool; s_handler : option entry_ptr }.

Definition slot_of (h : netui) (a b : Z) : option slot :=
  match get_node h a b with
  | Some (Some n) => Some (mk_slot (level n) (negb (sys_msg n =? 0)) (entry n))
  | _ => None
  end.

Definition group_open (h : netui) (a : Z) : bool :=
  match r ← nd_get_msg_hadle h; sub_at r (u8 (a - msgid_base r)) with
  | Some s => is_close s =? 0
  | None => false
  end.

Lemma u8_sub_inj a b base : is_byte a -> is_byte b -> u8 (a - base) = u8 (b - base) -> a = b.
Proof.
  unfold is_byte, wrapu. change (2 ^ 8) with 256. intros.
  Z.to_euclidean_division_equations. lia.
Qed.

Lemma get_node_wf h a b : wf_table h -> is_byte b ->
  exists n, get_node h a b = Some n /\ match n with Some n => wf_node n | None => True end.
Proof.
  intros W Hb. unfold get_node. destruct (_nd_msgentry_get_node h a b) as [p|] eqn:Ep;
    [|by exists None].
  destruct (get_node_ptr h a b p W Hb Ep) as (r & _ & Er & Wr & Hp & _). rewrite Er.
  cbn [mbind option_bind]. destruct (node_at_wf r p Wr Hp) as (n & -> & Wn). by exists (Some n).
Qed.

Lemma get_handle_set h r t : nd_get_msg_hadle h = Some r ->
  nd_get_msg_hadle (set_table h (Some t)) = Some t.
Proof. unfold nd_get_msg_hadle. cbn [obj_type set_table msg_handle]. repeat bcase; done. Qed.

(** The effect of rewriting one slot, whatever the rewriting. *)
Lemma put_node_slots h a b f p : wf_table h -> is_byte a -> is_byte b ->
  (forall n, wf_node n -> wf_node (f n)) -> _nd_msgentry_get_node h a b = Some p ->
  exists h' n, put_node h p f = Some h' /\ wf_table h' /\ wf_node n /\
    get_node h a b = Some (Some n) /\ get_node h' a b = Some (Some (f n)) /\
    (forall a' b', is_byte a' -> is_byte b' -> (a', b') <> (a, b) ->
       get_node h' a' b' = get_node h a' b') /\
    (forall a', group_open h' a' = group_open h a').
Proof.
  intros W Ha Hb Hf Ep. destruct (get_node_ptr h a b p W Hb Ep) as (r & Eh & Er & Wr & Hp & Hpe).
  destruct (node_at_wf r p Wr Hp) as (n & Hn & Wn).
  destruct (node_set_spec r p (f n) Wr Hp (Hf n Wn)) as (l & Hset & Wl & Hsame & Hother & Hcl).
  exists (set_table h (Some (set_subs r l))), n.
  assert (forall a' b', _nd_msgentry_get_node (set_table h (Some (set_subs r l))) a' b' =
            _nd_msgentry_get_node h a' b') as Hptr.
  { intros a' b'. unfold _nd_msgentry_get_node. by rewrite Eh, (get_handle_set h r _ Eh). }
  unfold put_node. rewrite Er. cbn [mbind option_bind]. rewrite Hn. cbn [mbind option_bind].
  rewrite Hset. split_and!; try done.
  - unfold get_node. rewrite Ep, Er. cbn [mbind option_bind]. by rewrite Hn.
  - unfold get_node. rewrite Hptr, Ep. cbn [mbind option_bind msg_handle set_table]. by rewrite Hsame.
  - intros a' b' Ha' Hb' Hne. unfold get_node. rewrite Hptr.
    destruct (_nd_msgentry_get_node h a' b') as [q|] eqn:Eq; [|done].
    destruct (get_node_ptr h a' b' q W Hb' Eq) as (r' & _ & Er' & _ & Hq & Hqe). simplify_eq.
    rewrite Er. cbn [mbind option_bind msg_handle set_table]. rewrite Hother; [done|done|].
    intros E. injection E as E1 E2. apply Hne. f_equal; [|done]. by apply (u8_sub_inj _ _ (msgid_base r)).
  - intros a'. unfold group_open. rewrite Eh, (get_handle_set h r _ Eh).
    cbn [mbind option_bind]. change (msgid_base (set_subs r l)) with (msgid_base r).
    specialize (Hcl (u8 (a' - msgid_base r))).
    destruct (sub_at (set_subs r l) _), (sub_at r _); simpl in Hcl; congruence.
Qed.

Lemma install_slots h func a b lvl nm : wf_table h -> is_byte a -> is_byte b -> terminated nm ->
  match slot_of h a b with
  | None => nd_msgentry_install h func a b lvl nm = Some (set_errno h NDERR_NOSOURCE, -1)
  | Some old => exists h', nd_msgentry_install h func a b lvl nm = Some (h', 0) /\ wf_table h' /\
      slot_of h' a b = Some (mk_slot (u16 lvl) (s_sys old) (PFunc <$> func)) /\
      (forall a' b', is_byte a' -> is_byte b' -> (a', b') <> (a, b) ->
         slot_of h' a' b' = slot_of h a' b') /\
      (forall a', group_open h' a' = group_open h a')
  end.
Proof.
  intros W Ha Hb Ht. unfold nd_msgentry_install.
  destruct (_nd_msgentry_get_node h a b) as [p|] eqn:Ep.
  - destruct (get_node_ptr h a b p W Hb Ep) as (r & _ & Er & Wr & Hp & _).
    destruct (node_at_wf r p Wr Hp) as (n & Hn & Wn).
    assert (slot_of h a b = Some (mk_slot (level n) (negb (sys_msg n =? 0)) (entry n))) as ->.
    { unfold slot_of, get_node. rewrite Ep, Er. cbn [mbind option_bind]. by rewrite Hn. }
    rewrite Er. cbn [mbind option_bind]. rewrite Hn. cbn [mbind option_bind].
    destruct (store_name_ok (name n) nm (wfn_name n Wn) Ht) as (s & -> & Hs). cbn [mbind option_bind].
    edestruct (put_node_slots h a b) as (h' & n' & -> & W' & _ & Hg & Hg' & Ho & Hop);
      [done..| |done|].
    { intros n' Wn'. split; simpl; try apply Wn'.
      - by apply (wrapu_range 16).
      - done.
      - destruct func; simpl; [done|by left]. }
    assert (n' = n) as ->.
    { unfold get_node in Hg. rewrite Ep, Er in Hg. cbn [mbind option_bind] in Hg.
      rewrite Hn in Hg. by simplify_eq/=. }
    exists h'. cbn [mbind option_bind]. split_and!; [done|done| | |done].
    + unfold slot_of. by rewrite Hg'.
    + intros a' b' Ha' Hb' Hne. unfold slot_of. by rewrite Ho.
  - assert (slot_of h a b = None) as ->; [|done]. unfold slot_of, get_node. by rewrite Ep.
Qed.

(** installing a handler replaces the handler and the level (modulo 65536)
    of that slot only, keeps its system flag, leaves every other slot and the
    open/closed state of every group as they were; for a message number outside
    the table it changes nothing but the error code. *)
Theorem install_refines h func a b lvl nm : wf_table h -> is_byte a -> is_byte b -> terminated nm ->
  match slot_of h a b with
  | None => nd_msgentry_install h func a b lvl nm = Some (set_errno h NDERR_NOSOURCE, -1)
  | Some old => exists h', nd_msgentry_install h func a b lvl nm = Some (h', 0) /\
      slot_of h' a b = Some (mk_slot (u16 lvl) (s_sys old) (PFunc <$> func)) /\
      (forall a' b', is_byte a' -> is_byte b' -> (a', b') <> (a, b) ->
         slot_of h' a' b' = slot_of h a' b') /\
      (forall a', group_open h' a' = group_open h a')
  end.
Proof.
  intros W Ha Hb Ht. pose proof (install_slots h func a b lvl nm W Ha Hb Ht) as H.
  destruct (slot_of h a b); [|done]. destruct H as (h' & ? & _ & ? & ? & ?). by exists h'.
Qed.

(** ** Dispatch *)

Inductive verdict := Unhandled | Denied | Dispatched (e : entry_ptr).

(** What a server should do with message [(a, b)] from a connection of the given
    level; [sysbit] is the message's own system flag. *)
Definition srv_verdict (srv : netui) (lvl sysbit a b : Z) : verdict :=
  match (if group_open srv a then slot_of srv a b else None) with
  | None => Unhandled
  | Some s =>
      let handler := match s_handler s with
                     | Some e => Some e
                     | None => r ← msg_handle srv; PFunc <$> def_entry r
                     end in
      match handler with
      | None => Unhandled
      | Some e => if (lvl <? s_level s) || (s_sys s && (sysbit =? 0)) then Denied else Dispatched e
      end
  end.

(** The C call that runs a handler. *)
Definition call_of (srv : netui) (conn : netui) (e : entry_ptr) : option call :=
  match e with
  | PFunc f => Some (CFunc f (msg_caller conn))
  | PScript t => r ← msg_handle srv; f ← script_entry r;
                 Some (CScript f (script_engine r) (msg_caller conn) t)
  end.

(** The node [get_node_run] yields. *)
Lemma run_node h a b : wf_table h -> is_byte a -> is_byte b ->
  exists p n, _nd_msgentry_get_node_run h a b = Some p /\
    load_node (msg_handle h) p = Some n /\
    n = (if group_open h a then match get_node h a b with Some n => n | None => None end else None) /\
    match n with Some n => wf_node n /\ exists r, msg_handle h = Some r | None => True end.
Proof.
  intros W Ha Hb. unfold _nd_msgentry_get_node_run, get_node, group_open, _nd_msgentry_get_node.
  unfold is_byte, SUB_MSG_NUM in *.
  destruct (get_handle_cases h) as [E|E]; rewrite E.
  2: { exists None, None. cbn [mbind option_bind]. bcase; done. }
  unfold wf_table in W. destruct (msg_handle h) as [r|] eqn:Er.
  2: { exists None, None. cbn [mbind option_bind]. bcase; done. }
  cbn [mbind option_bind]. pose proof (wrapu_range 8 (a - msgid_base r) ltac:(done)).
  destruct (Z.leb_spec 64 b).
  { exists None, None. split_and!; try done.
    destruct (sub_at r _); [|done]. destruct (_ =? _); [|done]. by bcase. }
  destruct (Z.leb_spec (main_num r) (u8 (a - msgid_base r))).
  { exists None, None. split_and!; try done. destruct (sub_at r _); [|done]. by destruct (_ =? _). }
  destruct (sub_at_wf r (u8 (a - msgid_base r)) W) as (s & Hs & Ws); [lia|]. rewrite Hs.
  cbn [mbind option_bind]. destruct (is_close s =? 0); simpl; [|by exists None, None].
  destruct (node_at_wf r (u8 (a - msgid_base r), b) W) as (n & Hn & Wn).
  { unfold ptr_ok, SUB_MSG_NUM. simpl. lia. }
  exists (Some (u8 (a - msgid_base r), b)), (Some n). rewrite Hn. simpl. rewrite Hn. simpl.
  split_and!; [done..|by exists r].
Qed.

Section DispatchSpec.
Context (run : call -> usermsg -> netui -> netui * Z).

(** What the server function should return for each verdict, without message
    printing. *)
Definition srv_outcome (conn : netui) (msg : usermsg) (srv : netui) (v : verdict)
    : option (netui * Z * list call) :=
  match v with
  | Unhandled =>
      Some (if unreg_msg_close srv then (set_errno conn NDERR_UNHANDLED_MSG, -1, [])
            else (conn, length msg, []))
  | Denied =>
      Some (if error_privilage_close srv then (set_errno conn NDERR_NO_PRIVILAGE, -1, [])
            else (conn, length msg, []))
  | Dispatched e =>
      c ← call_of srv conn e;
      let '(conn, ret) := run c msg conn in
      Some (if ret =? -1 then (set_errno conn NDERR_USER, -1, [c]) else (conn, length msg, [c]))
  end.
End DispatchSpec.

Lemma call_func_handler run root n e msg conn : wf_node n -> entry n = Some e ->
  _call_message_func run (Some root) (Some n) msg conn =
  (c ← (match e with
        | PFunc f => Some (CFunc f (msg_caller conn))
        | PScript t => f ← script_entry root;
                       Some (CScript f (script_engine root) (msg_caller conn) t)
        end);
   let '(h, ret) := run c msg conn in Some (h, if ret =? -1 then NDERR_USER else 0, [c])).
Proof.
  intros Wn He. pose proof (wfn_entry n Wn) as Hs. destruct n; simpl in *. subst.
  destruct e; by rewrite Hs.
Qed.

Lemma srv_dispatch_eq run conn msg srv : wf_table srv -> is_byte (maxid msg) -> is_byte (minid msg) ->
  nd_srv_translate_message run false conn msg srv =
  srv_outcome run conn msg srv
    (srv_verdict srv (conn_level conn) (ndsys_msg msg) (maxid msg) (minid msg)).
Proof.
  intros W Ha Hb. unfold nd_srv_translate_message, srv_verdict, slot_of, nd_connect_level_get.
  destruct (run_node srv _ _ W Ha Hb) as (p & n & -> & Hl & Hn & Hw).
  cbn [mbind option_bind]. rewrite Hl. cbn [mbind option_bind print_call].
  destruct (get_node_wf srv (maxid msg) (minid msg) W Hb) as (n' & Hg & _). rewrite Hg in *.
  destruct (group_open srv (maxid msg)); subst n.
  2: { cbn [mbind option_bind srv_outcome]. by destruct (unreg_msg_close srv). }
  destruct n' as [n|].
  2: { cbn [mbind option_bind srv_outcome]. by destruct (unreg_msg_close srv). }
  destruct Hw as (Wn & r & Er). cbn [s_handler s_level s_sys]. rewrite Er. cbn [mbind option_bind].
  destruct (entry n) as [e|] eqn:Een.
  - cbn [mbind option_bind]. destruct (_ || _).
    { cbn [srv_outcome mbind option_bind]. by destruct (error_privilage_close srv). }
    rewrite (call_func_handler run r n e) by done. unfold srv_outcome, call_of. rewrite Er.
    destruct e as [f|t]; cbn [mbind option_bind].
    + destruct (run _ msg conn) as [h ret]. by destruct (ret =? -1).
    + destruct (script_entry r) as [f|]; [|done]. cbn [mbind option_bind].
      destruct (run _ msg conn) as [h ret]. by destruct (ret =? -1).
  - destruct (def_entry r) as [d|] eqn:Ed; cbn [mbind option_bind fmap option_fmap option_map].
    2: { rewrite bool_decide_true by done. cbn [srv_outcome mbind option_bind].
         by destruct (unreg_msg_close srv). }
    rewrite bool_decide_false by done. destruct (_ || _).
    { cbn [srv_outcome mbind option_bind]. by destruct (error_privilage_close srv). }
    assert (_call_message_func run (Some r) (Some n) msg conn =
      (let c := CFunc d (msg_caller conn) in let '(h, ret) := run c msg conn in
       Some (h, if ret =? -1 then NDERR_USER else 0, [c]))) as ->.
    { destruct n. simpl in Een. subst. simpl. by rewrite Ed. }
    unfold srv_outcome, call_of. cbn [mbind option_bind].
    destruct (run _ msg conn) as [h ret]. by destruct (ret =? -1).
Qed.

(** C7: on a well-formed listener, [nd_srv_translate_message] does exactly what
    the privilege rules say: a message of a closed group, of an unknown number
    or without any handler is unhandled; one whose sender's level is below the
    slot's, or that misses the system flag the slot asks for, is denied; only
    otherwise is a handler called, once, and it is the slot's own (or the default
    one for an empty slot).  The result and the error code are those of each
    case. *)
Theorem srv_dispatch run conn msg srv : wf_table srv -> is_byte (maxid msg) -> is_byte (minid msg) ->
  nd_srv_translate_message run false conn msg srv =
  srv_outcome run conn msg srv
    (srv_verdict srv (conn_level conn) (ndsys_msg msg) (maxid msg) (minid msg)).
Proof. apply srv_dispatch_eq. Qed.

(** What a client runs for message [(a, b)]: the handler of the slot, or the
    default one whenever there is none, also for a closed group. *)
Definition client_handler (h : netui) (r : nd_msgentry_root) (a b : Z) : option entry_ptr :=
  match (s ← if group_open h a then slot_of h a b else None; s_handler s) with
  | Some e => Some e
  | None => PFunc <$> def_entry r
  end.

(** [nd_translate_message] checks neither level nor system flag; it runs the
    handler of the slot or, when the number is unknown, the slot empty or the
    group disabled, the default handler; so disabling a group does not keep a
    client from handling its messages.  Without any handler the connection gets
    the error UNHANDLED and the call returns -1; without a message table it
    dereferences NULL. *)
Theorem client_dispatch run owner msg : wf_table owner -> is_byte (maxid msg) -> is_byte (minid msg) ->
  nd_translate_message run false owner msg =
  (r ← msg_handle owner;
   match client_handler owner r (maxid msg) (minid msg) with
   | None => Some (set_errno owner NDERR_UNHANDLED_MSG, -1, [])
   | Some e =>
       c ← call_of owner owner e;
       let '(h, ret) := run c msg owner in
       Some (if ret =? -1 then (set_errno h NDERR_USER, -1, [c]) else (h, length msg, [c]))
   end).
Proof.
  intros W Ha Hb. unfold nd_translate_message, client_handler, slot_of.
  destruct (run_node owner _ _ W Ha Hb) as (p & n & -> & Hl & Hn & Hw).
  cbn [mbind option_bind]. rewrite Hl. cbn [mbind option_bind print_call].
  destruct (get_node_wf owner (maxid msg) (minid msg) W Hb) as (n' & Hg & _). rewrite Hg in *.
  destruct (msg_handle owner) as [r|] eqn:Er; cbn [mbind option_bind].
  2: { destruct n as [n|]; [by destruct Hw as (_ & ? & ?)|done]. }
  unfold call_of. rewrite Er. cbn [mbind option_bind].
  assert (forall n, match n with Some n => entry n = None | None => True end ->
    _call_message_func run (Some r) n msg owner =
    match def_entry r with
    | Some d => let '(h, ret) := run (CFunc d (msg_caller owner)) msg owner in
        Some (h, if ret =? -1 then NDERR_USER else 0, [CFunc d (msg_caller owner)])
    | None => Some (owner, NDERR_UNHANDLED_MSG, [])
    end) as Hdef.
  { intros [[]|] E; simpl in *; [by subst|done]. }
  assert (match n with Some n => entry n = None | None => True end \/
          exists m e, n = Some m /\ entry m = Some e) as [He | (m & e & -> & He)].
  { destruct n as [m|]; [|by left]. destruct (entry m) eqn:?; [right; eauto|by left]. }
  - rewrite (Hdef n He).
    assert ((s ← if group_open owner (maxid msg) then
        match n' with Some n => Some (mk_slot (level n) (negb (sys_msg n =? 0)) (entry n))
        | None => None end else None; s_handler s) = None) as ->.
    { destruct (group_open _ _), n' as [m|]; subst n; done. }
    destruct (def_entry r) as [d|]; [|done]. cbn [fmap option_fmap option_map mbind option_bind].
    destruct (run _ msg owner) as [h ret]. by destruct (ret =? -1).
  - destruct (group_open owner (maxid msg)); [|done]. subst n'. destruct Hw as (Wm & _).
    rewrite (call_func_handler run r m e) by done. cbn [mbind option_bind s_handler]. rewrite He.
    destruct e as [f|t]; cbn [mbind option_bind].
    + destruct (run _ msg owner) as [h ret]. by destruct (ret =? -1).
    + destruct (script_entry r) as [f|]; [|done]. cbn [mbind option_bind].
      destruct (run _ msg owner) as [h ret]. by destruct (ret =? -1).
Qed.

(** the privilege levels are compared in the widths they are stored in: after
    installing a handler with level [lvl] and giving a connection level [l], a
    message reaches the handler exactly when [lvl] modulo 65536 is at most [l]
    modulo 64.  So level 65536 protects nothing and a connection of level 64 has
    level 0. *)
Theorem level_gate run srv srv' conn msg f lvl l nm old : wf_table srv ->
  is_byte (maxid msg) -> is_byte (minid msg) -> terminated nm ->
  group_open srv (maxid msg) = true -> slot_of srv (maxid msg) (minid msg) = Some old ->
  s_sys old = false ->
  nd_msgentry_install srv (Some f) (maxid msg) (minid msg) lvl nm = Some (srv', 0) ->
  exists conn' ret,
    nd_srv_translate_message run false (nd_connect_level_set conn l) msg srv' =
    Some (conn', ret, if lvl mod 65536 <=? l mod 64 then [CFunc f (msg_caller conn)] else []).
Proof.
  intros W Ha Hb Ht Hop Hold Hsys Hi.
  pose proof (install_slots srv (Some f) (maxid msg) (minid msg) lvl nm W Ha Hb Ht) as H.
  rewrite Hold in H. destruct H as (h' & Hi' & W' & Hs & _ & Hg).
  rewrite Hi' in Hi. injection Hi as <-.
  rewrite (srv_dispatch_eq run _ msg h' W' Ha Hb). unfold srv_verdict. rewrite Hg, Hop, Hs.
  cbn [s_handler s_level s_sys fmap option_fmap option_map]. rewrite Hsys.
  cbn [andb conn_level nd_connect_level_set]. rewrite orb_false_r.
  change (wrapu 6 l) with (l mod 64). change (u16 lvl) with (lvl mod 65536).
  destruct (Z.ltb_spec (l mod 64) (lvl mod 65536)); destruct (Z.leb_spec (lvl mod 65536) (l mod 64));
    [lia| | |lia].
  - unfold srv_outcome. destruct (error_privilage_close h'); by eexists _, _.
  - unfold srv_outcome, call_of. cbn [mbind option_bind].
    change (msg_caller (nd_connect_level_set conn l)) with (msg_caller conn).
    destruct (run _ msg _) as [c ret]. destruct (ret =? -1); by eexists _, _.
Qed.

(** ** Looking up a number by name *)

(** The name of a slot as text: it is terminated inside its 64 bytes. *)
Definition node_text (n : nd_msg_entry_node) (t : list Z) : Prop :=
  exists rest, name n = t ++ 0 :: rest /\ Forall (fun b => 0 < b < 256) t.

Definition name_matches (m : list Z) (n : nd_msg_entry_node) : Prop :=
  exists t, node_text n t /\ t <> [] /\ map to_big t = map to_big m.

Lemma text_unique t1 t2 r1 r2 : Forall (fun b => 0 < b < 256) t1 -> Forall (fun b => 0 < b < 256) t2 ->
  t1 ++ 0 :: r1 = t2 ++ 0 :: r2 -> t1 = t2.
Proof.
  intros H1. revert t2.
  induction H1 as [|x t1 Hx _ IH]; intros t2 H2 E; destruct H2 as [|y t2 Hy H2]; simpl in E.
  - done.
  - injection E as E _. lia.
  - injection E as E _. lia.
  - injection E as -> E. f_equal. by apply IH.
Qed.

Lemma get_id_inner_ok m rest nodes x : Forall (fun b => 0 < b < 256) m ->
  Forall (fun n => exists t, node_text n t) nodes ->
  exists r, get_id_inner (m ++ 0 :: rest) nodes x = Some r /\
    match r with
    | Some y => x <= y /\ (exists n, nodes !! Z.to_nat (y - x) = Some n /\ name_matches m n) /\
        (forall j n, nodes !! j = Some n -> Z.of_nat j < y - x -> ~ name_matches m n)
    | None => forall n, n ∈ nodes -> ~ name_matches m n
    end.
Proof.
  intros Hm HF. revert x. induction HF as [|n nodes (t & rest' & Hn & Ht) _ IH]; intros x.
  { exists None. split; [done|]. set_solver. }
  cbn [get_id_inner]. rewrite Hn.
  assert (forall r, get_id_inner (m ++ 0 :: rest) nodes (x + 1) = Some r ->
    ~ name_matches m n -> match r with
    | Some y => x <= y /\ (exists n', (n :: nodes) !! Z.to_nat (y - x) = Some n' /\ name_matches m n') /\
        (forall j n', (n :: nodes) !! j = Some n' -> Z.of_nat j < y - x -> ~ name_matches m n')
    | None => forall n', n' ∈ n :: nodes -> ~ name_matches m n' end) as Hstep.
  { intros r Er Hno. destruct (IH (x + 1)) as (r' & Er' & Hr'). simplify_eq. destruct r as [y|].
    - destruct Hr' as (Hle & (n' & Hn' & Hm') & Hmin). split_and!; [lia| |].
      + exists n'. split; [|done]. replace (Z.to_nat (y - x)) with (S (Z.to_nat (y - (x + 1)))) by lia.
        done.
      + intros [|j] n'' Hj Hlt; simpl in Hj; [by simplify_eq|]. apply (Hmin j); [done|lia].
    - intros n' [->|Hin]%elem_of_cons; [done|by apply Hr']. }
  destruct (IH (x + 1)) as (r & Er & _).
  destruct t as [|c t]; cbn [app head mbind option_bind].
  { rewrite Z.eqb_refl. exists r. split; [done|]. apply Hstep; [done|].
    intros (t' & (r' & Hn' & Ht') & Hne & _). rewrite Hn in Hn'.
    apply (text_unique [] t') in Hn'; [by subst|constructor|done]. }
  destruct (Z.eqb_spec c 0) as [->|Hc]; [inversion_clear Ht; lia|].
  change (c :: t ++ 0 :: rest') with ((c :: t) ++ 0 :: rest').
  destruct (ndstricmp_zero m (c :: t) rest rest' Hm Ht) as (ret & -> & Hret).
  cbn [mbind option_bind]. destruct (Z.eqb_spec ret 0) as [->|Hr].
  - exists (Some x). split; [done|]. split_and!; [lia| |].
    + exists n. replace (x - x) with 0 by lia. split; [done|]. exists (c :: t).
      split_and!; [by exists rest'|done|]. symmetry. by apply Hret.
    + intros j n' _ Hlt. lia.
  - exists r. split; [done|]. apply Hstep; [done|]. intros (t' & (r' & Hn' & Ht') & Hne & E).
    rewrite Hn in Hn'. apply (text_unique (c :: t) t') in Hn'; [|done..]. subst t'.
    apply Hr, Hret. done.
Qed.

Lemma get_id_outer_ok m rest base subs i : Forall (fun b => 0 < b < 256) m ->
  Forall (fun s => Forall (fun n => exists t, node_text n t) (msg_buf s)) subs ->
  (exists k x s n, get_id_outer (m ++ 0 :: rest) base subs i =
      Some (ND_MAKE_DWORD (u32 (base + (i + Z.of_nat k))) (Z.of_nat x)) /\
    subs !! k = Some s /\ msg_buf s !! x = Some n /\ name_matches m n /\
    (forall k' x' s' n', subs !! k' = Some s' -> msg_buf s' !! x' = Some n' ->
       (k' < k \/ k' = k /\ x' < x)%nat -> ~ name_matches m n')) \/
  (get_id_outer (m ++ 0 :: rest) base subs i = Some (u32 (-1)) /\
   forall s n, s ∈ subs -> n ∈ msg_buf s -> ~ name_matches m n).
Proof.
  intros Hm HF. revert i. induction HF as [|s subs Hs _ IH]; intros i.
  { right. split; [done|]. set_solver. }
  cbn [get_id_outer]. destruct (get_id_inner_ok m rest (msg_buf s) 0 Hm Hs) as (r & -> & Hr).
  cbn [mbind option_bind]. destruct r as [y|].
  - left. destruct Hr as (Hy & (n & Hn & Hmn) & Hmin). exists 0%nat, (Z.to_nat (y - 0)), s, n.
    split_and!; [|done|done|done|].
    + rewrite Z2Nat.id by lia. f_equal. f_equal; [f_equal; lia|lia].
    + intros [|k'] x' s' n' Hk Hx [?|[? ?]]; [lia| |lia|lia]. simpl in Hk. simplify_eq.
      apply (Hmin x'); [done|lia].
  - destruct (IH (i + 1)) as [(k & x & s' & n & E & Hk & Hx & Hmn & Hmin)|[E Hno]].
    + left. exists (S k), x, s', n. split_and!; [|done|done|done|].
      * rewrite E. do 4 f_equal. lia.
      * intros [|k'] x' s'' n' Hk' Hx' Hlt; simpl in Hk'; simplify_eq.
        -- apply Hr. by eapply list_elem_of_lookup_2.
        -- apply (Hmin k' x' s''); [done|done|lia].
    + right. split; [done|]. intros s' n [->|Hin]%elem_of_cons Hn; [by apply Hr|by eapply Hno].
Qed.

(** The halves of [ND_MAKE_DWORD]. *)
Lemma make_dword_halves hi lo : 0 <= lo < 65536 ->
  Z.shiftr (ND_MAKE_DWORD hi lo) 16 = hi mod 65536 /\ Z.land (ND_MAKE_DWORD hi lo) 0xffff = lo.
Proof.
  intros Hlo. unfold ND_MAKE_DWORD.
  change 0xffff with (Z.ones 16). rewrite !Z.land_ones, (Z.mod_small lo), Z.shiftl_mul_pow2 by lia.
  rewrite Z.lor_comm, lor_add by (lia || done). change (2 ^ 16) with 65536.
  rewrite Z.shiftr_div_pow2 by done. change (2 ^ 16) with 65536.
  split; [rewrite Z.div_add_l by done; rewrite (Z.div_small lo) by done; lia|].
  rewrite Z.add_comm, Z.mod_add by done. by apply Z.mod_small.
Qed.

(** when every name of the table is terminated inside its 64 bytes,
    [nd_msgentry_get_id] returns the number of the first slot (by group, then by
    position) whose name is not empty and equals [msgname] up to the case of its
    letters, and -1 when there is none; the number gives back the message's
    group ([msgid_base] added) and position. *)
Theorem get_id_first h r m rest : nd_get_msg_hadle h = Some r -> wf_root r ->
  Forall (fun s => Forall (fun n => exists t, node_text n t) (msg_buf s)) (sub_buf r) ->
  m <> [] -> Forall (fun b => 0 < b < 256) m ->
  (exists i x n, nd_msgentry_get_id h (m ++ 0 :: rest) = Some (ND_MAKE_DWORD (msgid_base r + i) x) /\
     0 <= i < main_num r /\ 0 <= x < SUB_MSG_NUM /\
     Z.land (ND_MAKE_DWORD (msgid_base r + i) x) 0xffff = x /\
     (Z.shiftr (ND_MAKE_DWORD (msgid_base r + i) x) 16 - msgid_base r) mod 65536 = i /\
     node_at r (i, x) = Some n /\ name_matches m n /\
     forall i' x' n', 0 <= i' -> 0 <= x' -> node_at r (i', x') = Some n' ->
       i' < i \/ i' = i /\ x' < x -> ~ name_matches m n') \/
  (nd_msgentry_get_id h (m ++ 0 :: rest) = Some (u32 (-1)) /\
     forall p n, node_at r p = Some n -> ~ name_matches m n).
Proof.
  intros Er W HF Hne Hm. unfold nd_msgentry_get_id. rewrite Er.
  destruct m as [|c m]; [done|]. cbn [app head mbind option_bind].
  destruct (Z.eqb_spec c 0); [inversion_clear Hm; lia|].
  change (c :: m ++ 0 :: rest) with ((c :: m) ++ 0 :: rest).
  destruct (get_id_outer_ok (c :: m) rest (msgid_base r) (sub_buf r) 0 Hm HF)
    as [(k & x & s & nd & E & Hk & Hx & Hmn & Hmin)|[E Hno]].
  - left. assert (Z.of_nat k < main_num r) as Hk2.
    { apply lookup_lt_Some in Hk. rewrite <- (wfr_len r W). unfold zlen. lia. }
    assert (Z.of_nat x < SUB_MSG_NUM) as Hx2.
    { destruct (sub_at_wf r (Z.of_nat k) W) as (s' & Hs' & Ws); [lia|].
      unfold sub_at in Hs'. rewrite Nat2Z.id in Hs'. simplify_eq.
      apply lookup_lt_Some in Hx. rewrite <- (wfs_len s Ws). unfold zlen. lia. }
    destruct W as [Hnum Hbase _ _]. unfold MAX_MAIN_NUM, SUB_MSG_NUM in *.
    rewrite wrapu_small in E by lia. exists (Z.of_nat k), (Z.of_nat x), nd.
    destruct (make_dword_halves (msgid_base r + Z.of_nat k) (Z.of_nat x)) as [Hhi Hlo]; [lia|].
    rewrite Hhi, Hlo. split_and!; [done|lia|lia|lia|lia|done| | |done|].
    + rewrite Zminus_mod_idemp_l. rewrite Z.mod_small; lia.
    + unfold node_at, sub_at. cbn [fst snd]. rewrite !Nat2Z.id, Hk. done.
    + intros i' x' n' Hi' Hx' Hn Hlt. unfold node_at, sub_at in Hn. cbn [fst snd] in Hn.
      destruct (sub_buf r !! Z.to_nat i') as [s'|] eqn:Es'; [|done].
      apply (Hmin (Z.to_nat i') (Z.to_nat x') s' n'); [done|done|lia].
  - right. split; [done|]. intros [i x] nd Hn. unfold node_at, sub_at in Hn.
    destruct (sub_buf r !! _) as [s|] eqn:Es; [|done].
    apply (Hno s nd); by eapply list_elem_of_lookup_2.
Qed.

(** ** Witnesses

    A listener with two groups from number 1: function 7 at (1, 3) for level 2
    under the name [Ab], a script at (2, 0), and a default handler. *)
Definition demo_listener : netui := mk_netui NDHANDLE_LISTEN 0 4096 0 true true None.
Definition demo_ops : list table_op :=
  [OpCreate 2 1 true; OpInstall (Some 7) 1 3 2 (Some [65; 98; 0]); OpScript (Some [115; 0]) 2 0 0;
   OpDefHandler (Some 9); OpSystem 2 0 1; OpDisable 2 1].
Definition demo_srv : netui := default demo_listener (run_ops demo_listener demo_ops).
Definition demo_conn : netui := mk_netui NDHANDLE_TCPNODE 0 8192 3 false false None.
Definition demo_msg : usermsg := mk_msg 20 0 1 3 [].
Definition demo_run (c : call) (m : usermsg) (h : netui) : netui * Z := (h, 0).

Lemma demo_ops_ok : Forall op_ok demo_ops.
Proof. repeat constructor; simpl; unfold is_byte; try lia; set_solver. Qed.
Lemma demo_srv_wf : wf_table demo_srv.
Proof.
  destruct (run_ops_wf demo_listener demo_ops I demo_ops_ok) as (h' & E & W).
  unfold demo_srv. by rewrite E.
Qed.
Lemma demo_bytes : is_byte 1 /\ is_byte 3.
Proof. unfold is_byte. lia. Qed.

Lemma table_ops_safe_witness :
  exists h', run_ops demo_listener demo_ops = Some h' /\ wf_table h'.
Proof. apply table_ops_safe; [exact I | apply demo_ops_ok]. Defined.

Lemma install_refines_witness :
  exists h', nd_msgentry_install demo_srv (Some 8) 1 3 65537 None = Some (h', 0) /\
    slot_of h' 1 3 = Some (mk_slot 1 false (Some (PFunc 8))).
Proof.
  pose proof (install_refines demo_srv (Some 8) 1 3 65537 None demo_srv_wf
    (proj1 demo_bytes) (proj2 demo_bytes) I) as H.
  change (slot_of demo_srv 1 3) with (Some (mk_slot 2 false (Some (PFunc 7)))) in H.
  destruct H as (h' & H1 & H2 & _). exists h'. split; [exact H1 | exact H2].
Defined.

Lemma srv_dispatch_witness :
  nd_srv_translate_message demo_run false demo_conn demo_msg demo_srv =
    Some (demo_conn, 20, [CFunc 7 8192]).
Proof.
  rewrite (srv_dispatch demo_run demo_conn demo_msg demo_srv demo_srv_wf
    (proj1 demo_bytes) (proj2 demo_bytes)). vm_compute. reflexivity.
Defined.

Lemma client_dispatch_witness :
  nd_translate_message demo_run false demo_srv (mk_msg 20 0 2 0 []) =
    Some (demo_srv, 20, [CFunc 9 4096]).
Proof.
  rewrite (client_dispatch demo_run demo_srv (mk_msg 20 0 2 0 []) demo_srv_wf).
  - vm_compute. reflexivity.
  - unfold is_byte. simpl. lia.
  - unfold is_byte. simpl. lia.
Defined.

Lemma level_gate_witness :
  exists srv' conn' ret, nd_msgentry_install demo_srv (Some 8) 1 3 65536 None = Some (srv', 0) /\
    nd_srv_translate_message demo_run false (nd_connect_level_set demo_conn 64) demo_msg srv' =
      Some (conn', ret, [CFunc 8 8192]).
Proof.
  destruct (nd_msgentry_install demo_srv (Some 8) 1 3 65536 None) as [[srv' r]|] eqn:E;
    [|vm_compute in E; discriminate E].
  assert (r = 0) as -> by (vm_compute in E; injection E as _ <-; reflexivity).
  destruct (level_gate demo_run demo_srv srv' demo_conn demo_msg 8 65536 64 None
    (mk_slot 2 false (Some (PFunc 7)))) as (conn' & ret & H).
  - apply demo_srv_wf.
  - apply demo_bytes.
  - apply demo_bytes.
  - exact I.
  - reflexivity.
  - reflexivity.
  - reflexivity.
  - exact E.
  - exists srv', conn', ret. split; [reflexivity | exact H].
Defined.

Lemma get_id_first_witness :
  exists i x n, nd_msgentry_get_id demo_srv ([97; 66] ++ [0]) = Some (ND_MAKE_DWORD (1 + i) x) /\
    (exists r, msg_handle demo_srv = Some r /\ node_at r (i, x) = Some n) /\ name_matches [97; 66] n.
Proof.
  destruct (nd_get_msg_hadle demo_srv) as [r|] eqn:E; [|vm_compute in E; discriminate E].
  assert (msgid_base r = 1) as Hb by (vm_compute in E; injection E as <-; reflexivity).
  destruct (get_id_first demo_srv r [97; 66] [] E)
    as [(i & x & n & H & _ & _ & _ & _ & Hn & Hm & _)|[H _]].
  - pose proof demo_srv_wf as W. unfold wf_table in W.
    change (msg_handle demo_srv) with (nd_get_msg_hadle demo_srv) in W. rewrite E in W. exact W.
  - assert (forall n, n = empty_node \/ (exists rest t, name n = t ++ 0 :: rest /\
        Forall (fun b => 0 < b < 256) t) -> exists t, node_text n t) as HT.
    { intros n [->|(rest & t & ? & ?)]; [by exists [], (zrepeat 0 63)|by exists t, rest]. }
    vm_compute in E. injection E as <-. repeat constructor; apply HT.
    all: first [left; reflexivity | right].
    + exists (zrepeat 0 61), [65; 98]. split; [reflexivity|repeat constructor; lia].
    + exists (zrepeat 0 63), []. split; [reflexivity|constructor].
  - done.
  - repeat constructor; lia.
  - exists i, x, n. rewrite Hb in H. split; [exact H|]. split; [exists r|exact Hm].
    split; [exact E|exact Hn].
  - vm_compute in H. discriminate H.
Defined.
