(* ===== verification/Packet.v ===== *)
(** * Packet: the packets of nd_netpack.h and their encryption (nd_netui.c)

    A packet is a block of bytes: a header of four bytes (length, version, flag
    bits) and the data.  Headers are read and written through the record
    [packhdr] ([get_hdr], [put_hdr]); the machine is little-endian and allocates
    bit fields from the low bit, as [nd_netpack.h] assumes for [ND_L_ENDIAN].

    The cipher is a pair of function pointers set by [nd_net_set_crypt]; what
    the packet code needs of it is the class [NetCipher], which the TEA functions
    of [Tea] satisfy ([tea_cipher]). *)

From S2P Require Import Prelude Bytes Tea.

Definition NDNETMSG_VERSION : Z := 2.
Definition ND_PACKET_SIZE : Z := 0x10000.
Definition ND_PACKET_HDR_SIZE : Z := 4.
Definition ND_PACKET_DATA_SIZE : Z := ND_PACKET_SIZE - ND_PACKET_HDR_SIZE.
Definition ERSV_ALIVE_ID : Z := 0xfb0e.
Definition ERSV_VERSION_ERROR : Z := 0xfb0f.
Definition ND_USERMSG_HDRLEN : Z := 6.

(** ** The header *)

Record packhdr := mk_hdr {
  h_length : Z;        (* 16 bits *)
  h_version : Z;       (* 8 bits *)
  h_sys : Z;           (* 1 bit: ndsys_msg *)
  h_encrypt : Z;       (* 1 bit *)
  h_stuff : Z;         (* 1 bit *)
  h_stuff_len : Z      (* 5 bits *)
}.

Definition enc_hdr (h : packhdr) : list Z :=
  le_split 2 (h_length h) ++
  [u8 (h_version h);
   wrapu 1 (h_sys h) + 2 * wrapu 1 (h_encrypt h) + 4 * wrapu 1 (h_stuff h) +
   8 * wrapu 5 (h_stuff_len h)].

Definition dec_hdr (b : list Z) : packhdr :=
  let flags := nth 3 b 0 in
  mk_hdr (le_combine (slice 0 2 b)) (nth 2 b 0) (wrapu 1 flags)
    (wrapu 1 (Z.shiftr flags 1)) (wrapu 1 (Z.shiftr flags 2)) (wrapu 5 (Z.shiftr flags 3)).

(** The header at [off] of a block. *)
Definition get_hdr (m : mem) (off : Z) : option packhdr :=
  b ← mread m off ND_PACKET_HDR_SIZE; Some (dec_hdr b).
Definition put_hdr (m : mem) (off : Z) (h : packhdr) : option mem := mwrite m off (enc_hdr h).

Definition set_length (h : packhdr) (v : Z) : packhdr :=
  mk_hdr v (h_version h) (h_sys h) (h_encrypt h) (h_stuff h) (h_stuff_len h).
Definition set_encrypt (h : packhdr) (v : Z) : packhdr :=
  mk_hdr (h_length h) (h_version h) (h_sys h) v (h_stuff h) (h_stuff_len h).
Definition set_version (h : packhdr) (v : Z) : packhdr :=
  mk_hdr (h_length h) v (h_sys h) (h_encrypt h) (h_stuff h) (h_stuff_len h).

Definition nd_hdr_init (m : mem) (off : Z) : option mem :=
  m ← store_u32 m off 0;
  h ← get_hdr m off; put_hdr m off (set_version h NDNETMSG_VERSION).

Definition nd_pack_version (h : packhdr) : Z := h_version h.
Definition nd_pack_len (h : packhdr) : Z := h_length h.

(** [htons] and [ntohs] of a little-endian machine. *)
Definition htons (x : Z) : Z :=
  Z.lor (Z.shiftl (Z.land x 0xff) 8) (Z.land (Z.shiftr x 8) 0xff).
Definition ntohs := htons.

Definition nd_packet_hton (m : mem) (off : Z) : option mem :=
  h ← get_hdr m off; put_hdr m off (set_length h (htons (h_length h))).
Definition nd_packet_ntoh (m : mem) (off : Z) : option mem :=
  h ← get_hdr m off; put_hdr m off (set_length h (ntohs (h_length h))).

Definition nd_net_getpack_size (h : packhdr) : Z := ntohs (h_length h).

(** ** Checksum and system packets *)

Fixpoint checksum_loop (n : nat) (m : mem) (off sum : Z) : option Z :=
  match n with
  | O => Some sum
  | S n => w ← load_u16 m off; checksum_loop n m (off + 2) (u64 (sum + w))
  end.

Definition nd_checksum (m : mem) (off length : Z) : option Z :=
  let len := Z.shiftr length 1 in
  sum ← checksum_loop (Z.to_nat len) m off 0;
  sum ← (if negb (Z.land length 1 =? 0)
         then b ← mget m (off + 2 * len); Some (u64 (sum + b)) else Some sum);
  let sum := u64 (Z.shiftr sum 16 + Z.land sum 0xffff) in
  let sum := u64 (sum + Z.shiftr sum 16) in
  Some (u16 (Z.lnot sum)).

(** [struct nd_sysresv_pack]: the header, [msgid] at 4, [checksum] at 6. *)
Definition SYSRESV_PACK_SIZE : Z := 8.

Definition nd_make_alive_pack (pack : mem) : option mem :=
  pack ← nd_hdr_init pack 0;
  h ← get_hdr pack 0;
  pack ← put_hdr pack 0
    (mk_hdr SYSRESV_PACK_SIZE (h_version h) 1 (h_encrypt h) (h_stuff h) 5);
  pack ← store_u16 pack 4 ERSV_ALIVE_ID;
  pack ← store_u16 pack 6 0;
  ck ← nd_checksum pack 0 SYSRESV_PACK_SIZE;
  store_u16 pack 6 ck.

(** ** Encryption *)

(** A cipher in place: [encrypt data len key] returns the block and the new
    length.  [nc_pad l] is what decryption gives back for the data [l]. *)
Class NetCipher := {
  nc_unit : Z;
  nc_encrypt : mem -> Z -> list Z -> option (mem * Z);
  nc_decrypt : mem -> Z -> list Z -> option (mem * Z);
  nc_padding : list Z -> list Z;
  nc_unit_range : 0 < nc_unit <= 32;
  nc_padding_spec data : bytes data ->
    bytes (nc_padding data) /\ zlen (nc_padding data) < nc_unit /\
    (nc_padding data = [] \/ last (nc_padding data) = Some (zlen (nc_padding data)));
  nc_roundtrip data room rest key : bytes data -> 0 < zlen data < ND_PACKET_SIZE ->
    zlen room = zlen (nc_padding data) ->
    exists enc, zlen enc = zlen data + zlen (nc_padding data) /\ bytes enc /\
      nc_encrypt (data ++ room ++ rest) (zlen data) key = Some (enc ++ rest, zlen enc) /\
      forall rest', nc_decrypt (enc ++ rest') (zlen enc) key =
        Some (data ++ nc_padding data ++ rest', zlen enc)
}.

Record nd_cryptkey := mk_cryptkey { key_size : Z; key_bytes : list Z }.
Definition CRYPT_KEK_SIZE : Z := 16.
Definition init_crypt_key (k : nd_cryptkey) : nd_cryptkey := mk_cryptkey 0 (key_bytes k).
Definition is_valid_crypt (k : nd_cryptkey) : bool := 0 <? key_size k.

Section Crypt.
Context `{!NetCipher}.
(** Whether [nd_net_set_crypt] has installed the cipher. *)
Context (crypt_set : bool).
Definition _crypt_unit_len : Z := if crypt_set then nc_unit else 0.

(** A call of the cipher on [msgbuf->data]. *)
Definition on_data (f : mem -> Z -> list Z -> option (mem * Z)) (msgbuf : mem) (datalen : Z)
    (key : list Z) : option (mem * Z) :=
  '(d, n) ← f (drop (Z.to_nat ND_PACKET_HDR_SIZE) msgbuf) datalen key;
  Some (take (Z.to_nat ND_PACKET_HDR_SIZE) msgbuf ++ d, n).

Definition nd_packet_encrypt_key (pcrypt_key : nd_cryptkey) (msgbuf : mem) : option (mem * Z) :=
  hdr ← get_hdr msgbuf 0;
  let datalen := nd_pack_len hdr - ND_PACKET_HDR_SIZE in
  if (datalen <=? 0) || (ND_PACKET_DATA_SIZE - _crypt_unit_len <? datalen) then Some (msgbuf, 0)
  else if crypt_set && is_valid_crypt pcrypt_key then
    '(msgbuf, new_len) ← on_data nc_encrypt msgbuf datalen (key_bytes pcrypt_key);
    if new_len =? 0 then Some (msgbuf, 0)
    else
      let hdr := set_encrypt hdr 1 in
      let hdr :=
        if datalen <? new_len then
          let stuff_len := wrapu 5 (new_len - datalen) in
          mk_hdr (u16 (h_length hdr + stuff_len)) (h_version hdr) (h_sys hdr) (h_encrypt hdr)
            1 stuff_len
        else hdr in
      msgbuf ← put_hdr msgbuf 0 hdr;
      Some (msgbuf, new_len)
  else Some (msgbuf, 0).

(** [data] is an array of (signed) [char]. *)
Definition nd_packet_decrypt_key (pcrypt_key : nd_cryptkey) (msgbuf : mem) : option (mem * Z) :=
  hdr ← get_hdr msgbuf 0;
  let datalen := nd_pack_len hdr - ND_PACKET_HDR_SIZE in
  if (datalen <=? 0) || (ND_PACKET_DATA_SIZE - _crypt_unit_len <? datalen) then Some (msgbuf, 0)
  else if crypt_set && is_valid_crypt pcrypt_key then
    '(msgbuf, new_len) ← on_data nc_decrypt msgbuf datalen (key_bytes pcrypt_key);
    if (new_len <=? 0) || negb (new_len =? datalen) then Some (msgbuf, -1)
    else
      msgbuf ← put_hdr msgbuf 0 (set_encrypt hdr 0);
      if negb (h_stuff hdr =? 0) then
        b ← mget msgbuf (ND_PACKET_HDR_SIZE + (datalen - 1));
        let c := s8 b in
        if negb (h_stuff_len hdr =? c) then Some (msgbuf, 0)
        else if c <? nd_pack_len hdr then Some (msgbuf, nd_pack_len hdr - c)
        else Some (msgbuf, 0)
      else Some (msgbuf, nd_pack_len hdr)
  else Some (msgbuf, nd_pack_len hdr).
End Crypt.

(** ** Headers in memory *)

Record wf_hdr (h : packhdr) : Prop := {
  wh_length : 0 <= h_length h < 65536;
  wh_version : 0 <= h_version h < 256;
  wh_sys : 0 <= h_sys h < 2;
  wh_encrypt : 0 <= h_encrypt h < 2;
  wh_stuff : 0 <= h_stuff h < 2;
  wh_stuff_len : 0 <= h_stuff_len h < 32
}.

Lemma zlen_enc_hdr h : zlen (enc_hdr h) = ND_PACKET_HDR_SIZE.
Proof. done. Qed.

Lemma enc_hdr_bytes h : bytes (enc_hdr h).
Proof.
  unfold enc_hdr. apply Forall_app. split; [apply le_split_bytes|].
  apply Forall_cons; split; [apply u8_byte|]. apply Forall_cons; split; [|constructor].
  pose proof (wrapu_range 1 (h_sys h) ltac:(done)); pose proof (wrapu_range 1 (h_encrypt h) ltac:(done));
    pose proof (wrapu_range 1 (h_stuff h) ltac:(done)); pose proof (wrapu_range 5 (h_stuff_len h) ltac:(done));
    unfold is_byte; lia.
Qed.

Lemma dec_enc_hdr h : wf_hdr h -> dec_hdr (enc_hdr h) = h.
Proof.
  intros []. destruct h as [l v s e st sl]; simpl in *. unfold dec_hdr, enc_hdr.
  rewrite (slice_app_l 0 2) by done. rewrite slice_all by done.
  cbn [h_length h_version h_sys h_encrypt h_stuff h_stuff_len].
  rewrite (le_combine_split 2) by (simpl; lia).
  change (nth 2 (le_split 2 l ++ [u8 v; ?x]) 0) with (u8 v).
  cbn [le_split app nth]. unfold wrapu. rewrite !Z.shiftr_div_pow2 by done.
  change (2 ^ 8) with 256. change (2 ^ 1) with 2. change (2 ^ 2) with 4. change (2 ^ 3) with 8.
  change (2 ^ 5) with 32.
  f_equal; Z.to_euclidean_division_equations; lia.
Qed.

Lemma get_hdr_at pre h rest : wf_hdr h ->
  get_hdr (pre ++ enc_hdr h ++ rest) (zlen pre) = Some h.
Proof.
  intros W. unfold get_hdr. rewrite <- (zlen_enc_hdr h).
  rewrite mread_app by (rewrite zlen_app; zlens; lia). cbn [mbind option_bind].
  rewrite slice_app_l, slice_all by (done || lia). by rewrite dec_enc_hdr.
Qed.

Lemma put_hdr_at pre h rest h' :
  put_hdr (pre ++ enc_hdr h ++ rest) (zlen pre) h' = Some (pre ++ enc_hdr h' ++ rest).
Proof. unfold put_hdr. by apply mwrite_app. Qed.

Lemma get_hdr_0 h rest : wf_hdr h -> get_hdr (enc_hdr h ++ rest) 0 = Some h.
Proof. apply (get_hdr_at [] h rest). Qed.
Lemma put_hdr_0 h rest h' : put_hdr (enc_hdr h ++ rest) 0 h' = Some (enc_hdr h' ++ rest).
Proof. apply (put_hdr_at [] h rest h'). Qed.

Lemma htons_bytes x : 0 <= x < 65536 -> htons x = (x mod 256) * 256 + x / 256.
Proof.
  intros Hx. unfold htons. change 0xff with (Z.ones 8).
  rewrite !Z.land_ones, Z.shiftl_mul_pow2, Z.shiftr_div_pow2 by done.
  change (2 ^ 8) with 256.
  assert (x / 256 mod 256 = x / 256) as -> by (Z.to_euclidean_division_equations; lia).
  apply (lor_add 8); [done|]. change (2 ^ 8) with 256. Z.to_euclidean_division_equations. lia.
Qed.

Lemma htons_range x : 0 <= x < 65536 -> 0 <= htons x < 65536.
Proof. intros Hx. rewrite htons_bytes by done. Z.to_euclidean_division_equations. lia. Qed.

Lemma htons_involutive x : 0 <= x < 65536 -> htons (htons x) = x.
Proof.
  intros Hx. rewrite (htons_bytes (htons x)) by (by apply htons_range).
  rewrite htons_bytes by done. Z.to_euclidean_division_equations. lia.
Qed.

Lemma wf_set_length h v : wf_hdr h -> 0 <= v < 65536 -> wf_hdr (set_length h v).
Proof. intros []. by split. Qed.
Lemma wf_set_encrypt h v : wf_hdr h -> 0 <= v < 2 -> wf_hdr (set_encrypt h v).
Proof. intros []. by split. Qed.
Lemma wf_set_version h v : wf_hdr h -> 0 <= v < 256 -> wf_hdr (set_version h v).
Proof. intros []. by split. Qed.

(** The header with its length in network order. *)
Definition wire_hdr (h : packhdr) : packhdr := set_length h (htons (h_length h)).

Lemma wf_wire_hdr h : wf_hdr h -> wf_hdr (wire_hdr h).
Proof. intros W. apply wf_set_length; [done|]. apply htons_range, W. Qed.

Lemma wire_hdr_involutive h : wf_hdr h -> wire_hdr (wire_hdr h) = h.
Proof.
  intros W. unfold wire_hdr, set_length. cbn.
  rewrite htons_involutive by apply W. by destruct h.
Qed.

Lemma packet_hton_at pre h rest : wf_hdr h ->
  nd_packet_hton (pre ++ enc_hdr h ++ rest) (zlen pre) = Some (pre ++ enc_hdr (wire_hdr h) ++ rest).
Proof.
  intros W. unfold nd_packet_hton. rewrite get_hdr_at by done. cbn [mbind option_bind].
  apply put_hdr_at.
Qed.

Lemma getpack_size_wire h : wf_hdr h -> nd_net_getpack_size (wire_hdr h) = h_length h.
Proof. intros W. apply htons_involutive, W. Qed.

(** ** Encryption of a whole packet *)

Section CryptProofs.
Context `{!NetCipher}.

(** The packet [nd_packet_encrypt_key] makes of the header [h]. *)
Definition crypt_hdr (h : packhdr) (pad : Z) : packhdr :=
  if 0 <? pad then mk_hdr (h_length h + pad) (h_version h) (h_sys h) 1 1 pad
  else set_encrypt h 1.

Lemma drop_hdr h (l : mem) : drop (Z.to_nat ND_PACKET_HDR_SIZE) (enc_hdr h ++ l) = l.
Proof. done. Qed.
Lemma take_hdr h (l : mem) : take (Z.to_nat ND_PACKET_HDR_SIZE) (enc_hdr h ++ l) = enc_hdr h.
Proof. done. Qed.

Lemma crypt_len_ok n : 0 < n <= ND_PACKET_DATA_SIZE - nc_unit ->
  (4 + n - ND_PACKET_HDR_SIZE <=? 0) ||
  (ND_PACKET_DATA_SIZE - _crypt_unit_len true <? 4 + n - ND_PACKET_HDR_SIZE) = false.
Proof. unfold _crypt_unit_len, ND_PACKET_HDR_SIZE, ND_PACKET_DATA_SIZE. intros. repeat bcase; lia. Qed.

Lemma wf_crypt_hdr h pad : wf_hdr h -> 0 <= pad < 32 -> h_length h + pad < 65536 ->
  wf_hdr (crypt_hdr h pad).
Proof.
  intros W Hp Hl. unfold crypt_hdr. bcase; [|by apply wf_set_encrypt]. destruct W. by split; cbn; lia.
Qed.

Lemma encrypt_packet h key data room rest : wf_hdr h -> h_encrypt h = 0 -> h_stuff h = 0 ->
  h_length h = 4 + zlen data -> bytes data -> 0 < zlen data <= ND_PACKET_DATA_SIZE - nc_unit ->
  zlen room = zlen (nc_padding data) -> is_valid_crypt key = true ->
  exists enc, zlen enc = zlen data + zlen (nc_padding data) /\ bytes enc /\
    nd_packet_encrypt_key true key (enc_hdr h ++ data ++ room ++ rest) =
      Some (enc_hdr (crypt_hdr h (zlen (nc_padding data))) ++ enc ++ rest, zlen enc) /\
    forall rest', nc_decrypt (enc ++ rest') (zlen enc) (key_bytes key) =
      Some (data ++ nc_padding data ++ rest', zlen enc).
Proof.
  intros W He Hs Hl Hb Hd Hr Hk. destruct nc_unit_range as [Hu0 Hu1].
  destruct (nc_padding_spec data Hb) as (_ & Hpl & _).
  pose proof (zlen_nonneg (nc_padding data)). unfold ND_PACKET_DATA_SIZE, ND_PACKET_SIZE, ND_PACKET_HDR_SIZE in Hd.
  destruct (nc_roundtrip data room rest (key_bytes key) Hb) as (enc & Le & Be & E & D);
    [unfold ND_PACKET_SIZE; lia|done|].
  exists enc. split_and!; [done|done| |done].
  unfold nd_packet_encrypt_key. rewrite get_hdr_0 by done. cbn [mbind option_bind].
  unfold nd_pack_len. rewrite Hl, crypt_len_ok by (unfold ND_PACKET_DATA_SIZE, ND_PACKET_SIZE, ND_PACKET_HDR_SIZE; lia).
  rewrite Hk. cbn [andb]. unfold on_data. rewrite drop_hdr, take_hdr.
  replace (4 + zlen data - ND_PACKET_HDR_SIZE) with (zlen data) by (unfold ND_PACKET_HDR_SIZE; lia).
  rewrite E. cbn [mbind option_bind]. destruct (Z.eqb_spec (zlen enc) 0); [lia|].
  rewrite put_hdr_0. cbn [mbind option_bind]. do 4 f_equal. unfold crypt_hdr.
  rewrite Le. replace (zlen data + zlen (nc_padding data) - zlen data) with (zlen (nc_padding data)) by lia.
  destruct (Z.ltb_spec (zlen data) (zlen data + zlen (nc_padding data)));
    destruct (Z.ltb_spec 0 (zlen (nc_padding data))); [|lia|lia|done].
  unfold set_encrypt; cbn. rewrite Hl. by unwrap_in_range.
Qed.

(** The header after decryption: only the flag is cleared. *)
Definition plain_hdr (h : packhdr) (pad : Z) : packhdr := set_encrypt (crypt_hdr h pad) 0.

Lemma mget_mid (pre rest : mem) b : mget (pre ++ b :: rest) (zlen pre) = Some b.
Proof.
  unfold mget. pose proof (zlen_nonneg pre). pose proof (zlen_nonneg rest).
  replace (in_range (zlen pre) 1 (zlen (pre ++ b :: rest))) with true.
  2: { symmetry. apply in_range_spec. rewrite zlen_app, zlen_cons. lia. }
  unfold zlen. rewrite Nat2Z.id. by apply list_lookup_middle.
Qed.

Lemma decrypt_packet h key data enc rest : wf_hdr h -> h_encrypt h = 0 -> h_stuff h = 0 ->
  h_length h = 4 + zlen data -> bytes data -> 0 < zlen data ->
  zlen data + zlen (nc_padding data) <= ND_PACKET_DATA_SIZE - nc_unit ->
  is_valid_crypt key = true ->
  zlen enc = zlen data + zlen (nc_padding data) ->
  nc_decrypt (enc ++ rest) (zlen enc) (key_bytes key) =
    Some (data ++ nc_padding data ++ rest, zlen enc) ->
  nd_packet_decrypt_key true key (enc_hdr (crypt_hdr h (zlen (nc_padding data))) ++ enc ++ rest) =
    Some (enc_hdr (plain_hdr h (zlen (nc_padding data))) ++ data ++ nc_padding data ++ rest,
          h_length h).
Proof.
  intros W He Hs Hl Hb Hd0 Hd Hk Le D. destruct nc_unit_range as [Hu0 Hu1].
  destruct (nc_padding_spec data Hb) as (_ & Hpl & Hlast).
  set (pad := zlen (nc_padding data)) in *. assert (0 <= pad) by (apply zlen_nonneg).
  unfold ND_PACKET_DATA_SIZE, ND_PACKET_SIZE, ND_PACKET_HDR_SIZE in Hd.
  assert (wf_hdr (crypt_hdr h pad)) as Wc by (apply wf_crypt_hdr; [done|lia|lia]).
  unfold nd_packet_decrypt_key. rewrite get_hdr_0 by done. cbn [mbind option_bind].
  assert (nd_pack_len (crypt_hdr h pad) = 4 + (zlen data + pad)) as ->.
  { unfold nd_pack_len, crypt_hdr. bcase; cbn; lia. }
  rewrite crypt_len_ok by (unfold ND_PACKET_DATA_SIZE, ND_PACKET_SIZE, ND_PACKET_HDR_SIZE; lia).
  rewrite Hk. cbn [andb]. unfold on_data. rewrite drop_hdr, take_hdr.
  replace (4 + (zlen data + pad) - ND_PACKET_HDR_SIZE) with (zlen enc)
    by (unfold ND_PACKET_HDR_SIZE; lia).
  rewrite D. cbn [mbind option_bind]. destruct (Z.leb_spec (zlen enc) 0); [lia|].
  rewrite Z.eqb_refl. cbn [orb negb]. rewrite put_hdr_0. cbn [mbind option_bind].
  fold (plain_hdr h pad). unfold crypt_hdr. destruct (Z.ltb_spec 0 pad).
  - cbn [h_stuff h_stuff_len negb Z.eqb].
    destruct Hlast as [Hn|Hlast]; [unfold pad in *; rewrite Hn in *; change (zlen (@nil Z)) with 0 in *; lia|].
    apply last_Some in Hlast as [p' Hp'].
    assert (zlen p' = pad - 1) as Lp'. { pose proof (f_equal zlen Hp') as Lp. fold pad in Lp. rewrite zlen_app, zlen_cons, zlen_nil in Lp. lia. }
    assert (mget (enc_hdr (plain_hdr h pad) ++ data ++ nc_padding data ++ rest)
              (ND_PACKET_HDR_SIZE + (zlen enc - 1)) = Some pad) as ->.
    { replace (enc_hdr (plain_hdr h pad) ++ data ++ nc_padding data ++ rest)
        with ((enc_hdr (plain_hdr h pad) ++ data ++ p') ++ pad :: rest).
      2: { rewrite Hp'. by rewrite <- !app_assoc. }
      replace (ND_PACKET_HDR_SIZE + (zlen enc - 1)) with (zlen (enc_hdr (plain_hdr h pad) ++ data ++ p')).
      2: { rewrite !zlen_app, zlen_enc_hdr. lia. }
      apply mget_mid. }
    cbn [mbind option_bind]. rewrite (wraps_small 8) by lia. rewrite Z.eqb_refl. cbn [negb].
    destruct (Z.ltb_spec pad (4 + (zlen data + pad))); [|lia]. do 2 f_equal. lia.
  - cbn [set_encrypt h_stuff]. rewrite Hs. cbn [negb Z.eqb]. do 2 f_equal. lia.
Qed.
End CryptProofs.

(** ** TEA as the cipher *)

(** The 16 key bytes read as the four words of [tea_k]. *)
Definition key_words (key : list Z) : list Z :=
  map (fun i => le_combine (slice (4 * i) 4 key)) [0; 1; 2; 3].

Definition tea_padding (data : list Z) : list Z :=
  let n := round_up8 (zlen data) - zlen data in
  if n =? 0 then [] else stuffing n.

#[export] Program Instance tea_cipher : NetCipher := {|
  nc_unit := 8;
  nc_encrypt m len key := nd_TEAencrypt m len (key_words key);
  nc_decrypt m len key := nd_TEAdecrypt m len (key_words key);
  nc_padding := tea_padding
|}.
Next Obligation. done. Qed.
Next Obligation.
  intros data Hb. unfold tea_padding. pose proof (round_up8_bounds (zlen data)).
  destruct (Z.eqb_spec (round_up8 (zlen data) - zlen data) 0) as [E|E].
  { split_and!; [constructor|done|by left]. }
  rewrite zlen_stuffing by lia. split_and!; [|lia|right].
  - unfold stuffing. apply Forall_app. split; [|apply Forall_cons; split; [apply u8_byte|constructor]].
    apply (Forall_zrepeat is_byte STUFF_ELE). unfold is_byte, STUFF_ELE. lia.
  - unfold stuffing. rewrite last_snoc. f_equal. rewrite (wrapu_small 8); lia.
Qed.
Next Obligation.
  intros data room rest key Hb Hd Hr. cbn beta in *.
  unfold tea_padding in *. pose proof (round_up8_bounds (zlen data)) as Hr8.
  assert (zlen room = round_up8 (zlen data) - zlen data) as Hroom.
  { rewrite Hr. destruct (Z.eqb_spec (round_up8 (zlen data) - zlen data) 0) as [E|E];
      [rewrite E; done|by rewrite zlen_stuffing by lia]. }
  unfold ND_PACKET_SIZE in Hd.
  destruct (tea_roundtrip_any data room rest (key_words key) Hb Hroom) as (enc & Le & Be & E & D); [lia|].
  exists enc. unfold padded in D.
  destruct (Z.eqb_spec (round_up8 (zlen data) - zlen data) 0) as [E0|E0].
  - rewrite zlen_nil. rewrite Le in *. split_and!; [lia|done|done|exact D].
  - rewrite zlen_stuffing by lia. rewrite Le in *. split_and!; [lia|done|done|].
    intros rest'. rewrite D. by rewrite <- app_assoc.
Qed.
