(* ===== verification/TcpNode.v ===== *)
(** * TcpNode: the TCP connector of nd_tcp.c

    [struct nd_tcp_node] with its receive and send buffers ([LineBuf]) over a
    socket.  The operating system is the record [net]: what the next calls of
    [send], [recv] and of the waiting functions will answer, the clock, and the
    bytes the socket has taken so far.  [sys_sock_read] and [sys_sock_write] are
    the functions [_tcp_connector_init] installs.  The send lock serialises the
    callers and has no other effect; socket options, log output and the proxy
    are not represented. *)

From S2P Require Import Prelude Bytes LineBuf Handle Packet.

Definition ETS_DEAD : Z := 0.
Definition ETS_CONNECTED : Z := 2.
Definition ETS_RESET : Z := 4.
Definition ND_NETBUF_SIZE : Z := 0x10000.
Definition ND_ALIVE_TIMEOUT : Z := 30000.
Definition ND_DFT_DISSCONN_TIMEOUT : Z := 30 * 60 * 1000.
Definition SENDBUF_PUSH : Z := 128.
Definition SENDBUF_TMVAL : Z := 50.
Definition ESF_NORMAL : Z := 0.
Definition ESF_URGENCY : Z := 2.
Definition ESF_POST : Z := 4.
Definition ESF_ENCRYPT : Z := 8.
(** [EWOULDBLOCK]. *)
Definition ESOCKETTIMEOUT : Z := 11.

(** ** State *)

Record nd_tcp_node := mk_tcp {
  fd : Z;
  status : Z;
  node_type : Z;
  protocol : Z;
  sys_error : Z;
  node_errno : Z;
  node_level : Z;
  read_again : Z;
  is_session : bool;
  is_crypt_packet : Z;
  user_define_packet : bool;
  user_def_data_hook : bool;
  without_alive : bool;
  start_time : Z;
  last_recv : Z;
  last_push : Z;
  send_len : Z;
  recv_len : Z;
  crypt_key : nd_cryptkey;
  disconn_timeout : Z;
  send_pack_times : Z;
  recv_pack_times : Z;
  recv_buffer : linebuf;
  send_buffer : linebuf;
  close_cbs : list destroy_cb   (* [__release_cb_hdr] *)
}.

Definition set_fd (nd : nd_tcp_node) (v : Z) : nd_tcp_node :=
    mk_tcp v (status nd) (node_type nd) (protocol nd) (sys_error nd) (node_errno nd)
    (node_level nd) (read_again nd) (is_session nd) (is_crypt_packet nd) (user_define_packet
    nd) (user_def_data_hook nd) (without_alive nd) (start_time nd) (last_recv nd) (last_push
    nd) (send_len nd) (recv_len nd) (crypt_key nd) (disconn_timeout nd) (send_pack_times nd)
    (recv_pack_times nd) (recv_buffer nd) (send_buffer nd) (close_cbs nd).
Definition set_status (nd : nd_tcp_node) (v : Z) : nd_tcp_node :=
    mk_tcp (fd nd) v (node_type nd) (protocol nd) (sys_error nd) (node_errno nd) (node_level
    nd) (read_again nd) (is_session nd) (is_crypt_packet nd) (user_define_packet nd)
    (user_def_data_hook nd) (without_alive nd) (start_time nd) (last_recv nd) (last_push nd)
    (send_len nd) (recv_len nd) (crypt_key nd) (disconn_timeout nd) (send_pack_times nd)
    (recv_pack_times nd) (recv_buffer nd) (send_buffer nd) (close_cbs nd).
Definition set_sys_error (nd : nd_tcp_node) (v : Z) : nd_tcp_node :=
    mk_tcp (fd nd) (status nd) (node_type nd) (protocol nd) v (node_errno nd) (node_level
    nd) (read_again nd) (is_session nd) (is_crypt_packet nd) (user_define_packet nd)
    (user_def_data_hook nd) (without_alive nd) (start_time nd) (last_recv nd) (last_push nd)
    (send_len nd) (recv_len nd) (crypt_key nd) (disconn_timeout nd) (send_pack_times nd)
    (recv_pack_times nd) (recv_buffer nd) (send_buffer nd) (close_cbs nd).
Definition set_node_errno (nd : nd_tcp_node) (v : Z) : nd_tcp_node :=
    mk_tcp (fd nd) (status nd) (node_type nd) (protocol nd) (sys_error nd) v (node_level nd)
    (read_again nd) (is_session nd) (is_crypt_packet nd) (user_define_packet nd)
    (user_def_data_hook nd) (without_alive nd) (start_time nd) (last_recv nd) (last_push nd)
    (send_len nd) (recv_len nd) (crypt_key nd) (disconn_timeout nd) (send_pack_times nd)
    (recv_pack_times nd) (recv_buffer nd) (send_buffer nd) (close_cbs nd).
Definition set_node_level (nd : nd_tcp_node) (v : Z) : nd_tcp_node :=
    mk_tcp (fd nd) (status nd) (node_type nd) (protocol nd) (sys_error nd) (node_errno nd) v
    (read_again nd) (is_session nd) (is_crypt_packet nd) (user_define_packet nd)
    (user_def_data_hook nd) (without_alive nd) (start_time nd) (last_recv nd) (last_push nd)
    (send_len nd) (recv_len nd) (crypt_key nd) (disconn_timeout nd) (send_pack_times nd)
    (recv_pack_times nd) (recv_buffer nd) (send_buffer nd) (close_cbs nd).
Definition set_read_again (nd : nd_tcp_node) (v : Z) : nd_tcp_node :=
    mk_tcp (fd nd) (status nd) (node_type nd) (protocol nd) (sys_error nd) (node_errno nd)
    (node_level nd) v (is_session nd) (is_crypt_packet nd) (user_define_packet nd)
    (user_def_data_hook nd) (without_alive nd) (start_time nd) (last_recv nd) (last_push nd)
    (send_len nd) (recv_len nd) (crypt_key nd) (disconn_timeout nd) (send_pack_times nd)
    (recv_pack_times nd) (recv_buffer nd) (send_buffer nd) (close_cbs nd).
Definition set_is_crypt_packet (nd : nd_tcp_node) (v : Z) : nd_tcp_node :=
    mk_tcp (fd nd) (status nd) (node_type nd) (protocol nd) (sys_error nd) (node_errno nd)
    (node_level nd) (read_again nd) (is_session nd) v (user_define_packet nd)
    (user_def_data_hook nd) (without_alive nd) (start_time nd) (last_recv nd) (last_push nd)
    (send_len nd) (recv_len nd) (crypt_key nd) (disconn_timeout nd) (send_pack_times nd)
    (recv_pack_times nd) (recv_buffer nd) (send_buffer nd) (close_cbs nd).
Definition set_start_time (nd : nd_tcp_node) (v : Z) : nd_tcp_node :=
    mk_tcp (fd nd) (status nd) (node_type nd) (protocol nd) (sys_error nd) (node_errno nd)
    (node_level nd) (read_again nd) (is_session nd) (is_crypt_packet nd) (user_define_packet
    nd) (user_def_data_hook nd) (without_alive nd) v (last_recv nd) (last_push nd) (send_len
    nd) (recv_len nd) (crypt_key nd) (disconn_timeout nd) (send_pack_times nd)
    (recv_pack_times nd) (recv_buffer nd) (send_buffer nd) (close_cbs nd).
Definition set_last_recv (nd : nd_tcp_node) (v : Z) : nd_tcp_node :=
    mk_tcp (fd nd) (status nd) (node_type nd) (protocol nd) (sys_error nd) (node_errno nd)
    (node_level nd) (read_again nd) (is_session nd) (is_crypt_packet nd) (user_define_packet
    nd) (user_def_data_hook nd) (without_alive nd) (start_time nd) v (last_push nd)
    (send_len nd) (recv_len nd) (crypt_key nd) (disconn_timeout nd) (send_pack_times nd)
    (recv_pack_times nd) (recv_buffer nd) (send_buffer nd) (close_cbs nd).
Definition set_last_push (nd : nd_tcp_node) (v : Z) : nd_tcp_node :=
    mk_tcp (fd nd) (status nd) (node_type nd) (protocol nd) (sys_error nd) (node_errno nd)
    (node_level nd) (read_again nd) (is_session nd) (is_crypt_packet nd) (user_define_packet
    nd) (user_def_data_hook nd) (without_alive nd) (start_time nd) (last_recv nd) v
    (send_len nd) (recv_len nd) (crypt_key nd) (disconn_timeout nd) (send_pack_times nd)
    (recv_pack_times nd) (recv_buffer nd) (send_buffer nd) (close_cbs nd).
Definition set_send_len (nd : nd_tcp_node) (v : Z) : nd_tcp_node :=
    mk_tcp (fd nd) (status nd) (node_type nd) (protocol nd) (sys_error nd) (node_errno nd)
    (node_level nd) (read_again nd) (is_session nd) (is_crypt_packet nd) (user_define_packet
    nd) (user_def_data_hook nd) (without_alive nd) (start_time nd) (last_recv nd) (last_push
    nd) v (recv_len nd) (crypt_key nd) (disconn_timeout nd) (send_pack_times nd)
    (recv_pack_times nd) (recv_buffer nd) (send_buffer nd) (close_cbs nd).
Definition set_recv_len (nd : nd_tcp_node) (v : Z) : nd_tcp_node :=
    mk_tcp (fd nd) (status nd) (node_type nd) (protocol nd) (sys_error nd) (node_errno nd)
    (node_level nd) (read_again nd) (is_session nd) (is_crypt_packet nd) (user_define_packet
    nd) (user_def_data_hook nd) (without_alive nd) (start_time nd) (last_recv nd) (last_push
    nd) (send_len nd) v (crypt_key nd) (disconn_timeout nd) (send_pack_times nd)
    (recv_pack_times nd) (recv_buffer nd) (send_buffer nd) (close_cbs nd).
Definition set_crypt_key (nd : nd_tcp_node) (v : nd_cryptkey) : nd_tcp_node :=
    mk_tcp (fd nd) (status nd) (node_type nd) (protocol nd) (sys_error nd) (node_errno nd)
    (node_level nd) (read_again nd) (is_session nd) (is_crypt_packet nd) (user_define_packet
    nd) (user_def_data_hook nd) (without_alive nd) (start_time nd) (last_recv nd) (last_push
    nd) (send_len nd) (recv_len nd) v (disconn_timeout nd) (send_pack_times nd)
    (recv_pack_times nd) (recv_buffer nd) (send_buffer nd) (close_cbs nd).
Definition set_disconn_timeout (nd : nd_tcp_node) (v : Z) : nd_tcp_node :=
    mk_tcp (fd nd) (status nd) (node_type nd) (protocol nd) (sys_error nd) (node_errno nd)
    (node_level nd) (read_again nd) (is_session nd) (is_crypt_packet nd) (user_define_packet
    nd) (user_def_data_hook nd) (without_alive nd) (start_time nd) (last_recv nd) (last_push
    nd) (send_len nd) (recv_len nd) (crypt_key nd) v (send_pack_times nd) (recv_pack_times
    nd) (recv_buffer nd) (send_buffer nd) (close_cbs nd).
Definition set_send_pack_times (nd : nd_tcp_node) (v : Z) : nd_tcp_node :=
    mk_tcp (fd nd) (status nd) (node_type nd) (protocol nd) (sys_error nd) (node_errno nd)
    (node_level nd) (read_again nd) (is_session nd) (is_crypt_packet nd) (user_define_packet
    nd) (user_def_data_hook nd) (without_alive nd) (start_time nd) (last_recv nd) (last_push
    nd) (send_len nd) (recv_len nd) (crypt_key nd) (disconn_timeout nd) v (recv_pack_times
    nd) (recv_buffer nd) (send_buffer nd) (close_cbs nd).
Definition set_recv_pack_times (nd : nd_tcp_node) (v : Z) : nd_tcp_node :=
    mk_tcp (fd nd) (status nd) (node_type nd) (protocol nd) (sys_error nd) (node_errno nd)
    (node_level nd) (read_again nd) (is_session nd) (is_crypt_packet nd) (user_define_packet
    nd) (user_def_data_hook nd) (without_alive nd) (start_time nd) (last_recv nd) (last_push
    nd) (send_len nd) (recv_len nd) (crypt_key nd) (disconn_timeout nd) (send_pack_times nd)
    v (recv_buffer nd) (send_buffer nd) (close_cbs nd).
Definition set_recv_buffer (nd : nd_tcp_node) (v : linebuf) : nd_tcp_node :=
    mk_tcp (fd nd) (status nd) (node_type nd) (protocol nd) (sys_error nd) (node_errno nd)
    (node_level nd) (read_again nd) (is_session nd) (is_crypt_packet nd) (user_define_packet
    nd) (user_def_data_hook nd) (without_alive nd) (start_time nd) (last_recv nd) (last_push
    nd) (send_len nd) (recv_len nd) (crypt_key nd) (disconn_timeout nd) (send_pack_times nd)
    (recv_pack_times nd) v (send_buffer nd) (close_cbs nd).
Definition set_send_buffer (nd : nd_tcp_node) (v : linebuf) : nd_tcp_node :=
    mk_tcp (fd nd) (status nd) (node_type nd) (protocol nd) (sys_error nd) (node_errno nd)
    (node_level nd) (read_again nd) (is_session nd) (is_crypt_packet nd) (user_define_packet
    nd) (user_def_data_hook nd) (without_alive nd) (start_time nd) (last_recv nd) (last_push
    nd) (send_len nd) (recv_len nd) (crypt_key nd) (disconn_timeout nd) (send_pack_times nd)
    (recv_pack_times nd) (recv_buffer nd) v (close_cbs nd).
Definition set_close_cbs (nd : nd_tcp_node) (v : list destroy_cb) : nd_tcp_node :=
    mk_tcp (fd nd) (status nd) (node_type nd) (protocol nd) (sys_error nd) (node_errno nd)
    (node_level nd) (read_again nd) (is_session nd) (is_crypt_packet nd) (user_define_packet
    nd) (user_def_data_hook nd) (without_alive nd) (start_time nd) (last_recv nd) (last_push
    nd) (send_len nd) (recv_len nd) (crypt_key nd) (disconn_timeout nd) (send_pack_times nd)
    (recv_pack_times nd) (recv_buffer nd) (send_buffer nd) v.

Definition set_err (nd : nd_tcp_node) (e : Z) : nd_tcp_node := set_node_errno nd (u16 e).

(** What a call of [send] will do: take at most [n] bytes, or fail. *)
Inductive sendres := SendOk (n : Z) | SendErr (e : Z).
(** What is waiting to be received: bytes, the end of the stream, or an error. *)
Inductive recvres := RecvData (d : list Z) | RecvClosed | RecvErr (e : Z).

Record net := mk_net {
  os_sends : list sendres;
  os_recvs : list recvres;
  os_waits : list (Z * Z);    (* result and errno of the waiting calls *)
  os_now : Z;                 (* [nd_time()] *)
  sent : list Z               (* the bytes the socket has taken *)
}.

(** [send(fd, data, len, 0)]; the list running out means the socket is full.
    Returns the result and [errno]. *)
Definition os_send (w : net) (data : list Z) : net * Z * Z :=
  match os_sends w with
  | [] => (w, -1, ESOCKETTIMEOUT)
  | r :: rs =>
      let w := mk_net rs (os_recvs w) (os_waits w) (os_now w) (sent w) in
      match r with
      | SendOk n =>
          let n := Z.max 0 (Z.min n (zlen data)) in
          (mk_net rs (os_recvs w) (os_waits w) (os_now w) (sent w ++ slice 0 n data), n, 0)
      | SendErr e => (w, -1, e)
      end
  end.

(** [nd_socket_tcp_read(fd, buf, len)]: result, [errno] and the bytes read. *)
Definition os_recv (w : net) (len : Z) : net * Z * Z * list Z :=
  match os_recvs w with
  | [] => (w, -1, ESOCKETTIMEOUT, [])
  | r :: rs =>
      let set rs := mk_net (os_sends w) rs (os_waits w) (os_now w) (sent w) in
      match r with
      | RecvData d =>
          if zlen d <=? len then (set rs, zlen d, 0, d)
          else (set (RecvData (slice len (zlen d - len) d) :: rs), len, 0, slice 0 len d)
      | RecvClosed => (set rs, 0, 0, [])
      | RecvErr e => (set rs, -1, e, [])
      end
  end.

Definition os_wait (w : net) : net * Z * Z :=
  match os_waits w with
  | [] => (w, 0, 0)
  | (r, e) :: ws => (mk_net (os_sends w) (os_recvs w) ws (os_now w) (sent w), r, e)
  end.

(** ** Socket calls *)

Definition _sys_socket_read (nd : nd_tcp_node) (w : net) (len : Z)
    : nd_tcp_node * net * Z * list Z :=
  let '(w, ret, e, d) := os_recv w len in
  if 0 <? ret then
    (set_last_recv (set_recv_len nd (u64 (recv_len nd + ret))) (os_now w), w, ret, d)
  else if ret =? -1 then
    let nd := set_sys_error nd e in
    if sys_error nd =? ESOCKETTIMEOUT then (set_err nd NDERR_WOULD_BLOCK, w, 0, d)
    else (set_err nd NDERR_IO, w, ret, d)
  else if ret =? 0 then (set_err nd NDERR_CLOSED, w, -1, d)
  else (nd, w, ret, d).

Definition _sys_socket_write (nd : nd_tcp_node) (w : net) (data : list Z)
    : nd_tcp_node * net * Z :=
  let '(w, ret, e) := os_send w data in
  if 0 <? ret then
    (set_last_push (set_send_len nd (u64 (send_len nd + ret))) (os_now w), w, ret)
  else if ret =? -1 then
    let nd := set_sys_error nd e in
    if sys_error nd =? ESOCKETTIMEOUT then (set_err nd NDERR_WOULD_BLOCK, w, 0)
    else (set_err nd NDERR_IO, w, ret)
  else if ret =? 0 then (set_err nd NDERR_WOULD_BLOCK, w, ret)
  else (nd, w, ret).

(** The common body of [_wait_read_msg] and [_wait_write_msg]. *)
Definition wait_msg (nd : nd_tcp_node) (w : net) : nd_tcp_node * net * Z :=
  let '(w, ret, e) := os_wait w in
  if ret =? -1 then
    let nd := set_sys_error nd e in
    if sys_error nd =? ESOCKETTIMEOUT then (set_err nd NDERR_WOULD_BLOCK, w, 0)
    else (set_err nd NDERR_IO, w, ret)
  else if ret =? 0 then (set_err nd NDERR_WOULD_BLOCK, w, ret)
  else (nd, w, ret).
Definition _wait_read_msg := wait_msg.
Definition _wait_write_msg := wait_msg.

Definition check_connect_valid (nd : nd_tcp_node) : bool :=
  (0 <? fd nd) && (status nd =? ETS_CONNECTED).
Definition TCPNODE_CHECK_OK (nd : nd_tcp_node) : bool := status nd =? ETS_CONNECTED.
Definition TCPNODE_SET_RESET (nd : nd_tcp_node) : nd_tcp_node := set_status nd ETS_RESET.

(** [ndlbuf_data(pbuf)] for [len] bytes. *)
Definition ndlbuf_data (lb : linebuf) (len : Z) : option (list Z) :=
  m ← __buf lb; mread m (__start lb) len.

Section Tcp.
Context `{!Malloc}.

(** ** Sending *)

Definition __tcpnode_send_with_save (nd : nd_tcp_node) (w : net) (msg_buf : list Z) (datalen : Z)
    : option (nd_tcp_node * net * Z) :=
  d ← mread msg_buf 0 datalen;
  let '(nd, w, ret) := _sys_socket_write nd w d in
  if ret =? -1 then
    if negb (sys_error nd =? ESOCKETTIMEOUT) then Some (nd, w, -1)
    else
      '(lb, ret) ← _lbuf_write (send_buffer nd) msg_buf datalen EBUF_SPECIFIED;
      let nd := set_send_buffer nd lb in
      Some (if ret =? datalen then set_err nd NDERR_SUCCESS else nd, w, ret)
  else if ret =? datalen then Some (nd, w, s32 datalen)
  else
    rest ← mread msg_buf ret (datalen - ret);
    '(lb, wlen) ← _lbuf_write (send_buffer nd) rest (datalen - ret) EBUF_SPECIFIED;
    Some (set_send_buffer nd lb, w, if 0 <? wlen then wlen + ret else ret).

Definition __tcpnode_push_and_send (nd : nd_tcp_node) (w : net) (msg_buf : list Z) (datalen : Z)
    (is_write_all : bool) : option (nd_tcp_node * net * Z) :=
  let length_in_buff := _lbuf_datalen (send_buffer nd) in
  '(nd, w, length_in_buff) ←
    (if negb (length_in_buff =? 0) then
       d ← ndlbuf_data (send_buffer nd) length_in_buff;
       let '(nd, w, flushlen) := _sys_socket_write nd w d in
       nd ← (if 0 <? flushlen then
               lb ← _lbuf_sub_data (send_buffer nd) flushlen; Some (set_send_buffer nd lb)
             else Some nd);
       Some (nd, w, _lbuf_datalen (send_buffer nd))
     else Some (nd, w, length_in_buff));
  if length_in_buff =? 0 then __tcpnode_send_with_save nd w msg_buf datalen
  else
    let space_len := _lbuf_free_capacity (send_buffer nd) in
    if is_write_all && (space_len <? datalen) then Some (set_err nd NDERR_WOULD_BLOCK, w, -1)
    else
      '(lb, ret) ← _lbuf_write (send_buffer nd) msg_buf datalen EBUF_SPECIFIED;
      Some (set_send_buffer nd lb, w, ret).

Definition __tcpnode_send (nd : nd_tcp_node) (w : net) (msg_buf : list Z) (datalen flag : Z)
    (is_write_all : bool) : option (nd_tcp_node * net * Z) :=
  if _lbuf_datalen (send_buffer nd) =? 0 then __tcpnode_send_with_save nd w msg_buf datalen
  else if negb (Z.land flag ESF_POST =? 0) &&
          (_lbuf_free_capacity (send_buffer nd) <? datalen)
  then Some (set_err nd NDERR_WOULD_BLOCK, w, 0)
  else __tcpnode_push_and_send nd w msg_buf datalen is_write_all.

(** [get_pack_size] is [nd_net_getpack_size]. *)
Definition nd_tcpnode_send (nd : nd_tcp_node) (w : net) (msg_buf : mem) (flag : Z)
    : option (nd_tcp_node * net * Z) :=
  hdr ← get_hdr msg_buf 0;
  let datalen := nd_net_getpack_size hdr in
  if is_session nd then
    let flag := Z.land flag (Z.lnot ESF_URGENCY) in
    '(nd, w, ret) ← __tcpnode_send nd w msg_buf datalen flag true;
    Some (if ret =? -1 then TCPNODE_SET_RESET (set_err nd NDERR_WRITE) else nd, w, ret)
  else __tcpnode_send nd w msg_buf datalen flag true.

Definition nd_tcpnode_stream_send (nd : nd_tcp_node) (w : net) (data : list Z) (len flag : Z)
    : option (nd_tcp_node * net * Z) :=
  __tcpnode_send nd w data len flag false.

Definition _tcpnode_push_sendbuf (nd : nd_tcp_node) (w : net) : option (nd_tcp_node * net * Z) :=
  let data_len := _lbuf_datalen (send_buffer nd) in
  if data_len =? 0 then Some (nd, w, 0)
  else if negb (check_connect_valid nd) then Some (set_err nd NDERR_BADSOCKET, w, -1)
  else
    d ← ndlbuf_data (send_buffer nd) data_len;
    let '(nd, w, ret) := _sys_socket_write nd w d in
    nd ← (if 0 <? ret then lb ← _lbuf_sub_data (send_buffer nd) ret; Some (set_send_buffer nd lb)
          else Some nd);
    Some (nd, w, ret).

(** From the label [RESEND] on; every round but the last sends at least one byte. *)
Fixpoint resend_loop (fuel : nat) (nd : nd_tcp_node) (w : net) (data_len : Z)
    : option (nd_tcp_node * net * Z) :=
  match fuel with
  | O => None
  | S fuel =>
      let nd := set_err nd NDERR_SUCCESS in
      d ← ndlbuf_data (send_buffer nd) data_len;
      let '(nd, w, ret) := _sys_socket_write nd w d in
      if ret <=? 0 then Some (nd, w, ret)
      else
        lb ← _lbuf_sub_data (send_buffer nd) ret;
        let nd := set_send_buffer nd lb in
        let data_len := _lbuf_datalen (send_buffer nd) in
        if 0 <? data_len then
          let '(w, r, _) := os_wait w in
          if r =? 1 then resend_loop fuel nd w data_len else Some (nd, w, ret)
        else Some (nd, w, ret)
  end.

Definition _tcpnode_push_force (nd : nd_tcp_node) (w : net) : option (nd_tcp_node * net * Z) :=
  let data_len := _lbuf_datalen (send_buffer nd) in
  if data_len =? 0 then Some (nd, w, 0)
  else if negb (check_connect_valid nd) then Some (set_err nd NDERR_BADSOCKET, w, -1)
  else resend_loop (S (Z.to_nat data_len)) nd w data_len.

Definition nd_tcpnode_tryto_flush_sendbuf (nd : nd_tcp_node) (w : net)
    : option (nd_tcp_node * net * Z) :=
  if (SENDBUF_PUSH <=? _lbuf_datalen (send_buffer nd)) ||
     (SENDBUF_TMVAL <=? u32 (os_now w - last_push nd))
  then _tcpnode_push_sendbuf nd w else Some (nd, w, 0).

(** ** Receiving *)

(** The bytes the socket delivers are stored at [ndlbuf_tail]. *)
Definition store_tail (lb : linebuf) (d : list Z) : option linebuf :=
  m ← __buf lb; m ← mwrite m (__end lb) d; Some (lb_set lb (__start lb) (__end lb) m).

Definition nd_tcpnode_read (nd : nd_tcp_node) (w : net) : option (nd_tcp_node * net * Z) :=
  let space_len := _lbuf_freespace (recv_buffer nd) in
  let nd := set_read_again nd 0 in
  let datalen := s32 (_lbuf_datalen (recv_buffer nd)) in
  if (space_len <=? 0) && (0 <? datalen) then Some (set_read_again nd 1, w, datalen)
  else
    lb ← (if space_len <=? 0 then _lbuf_move_ahead (recv_buffer nd) else Some (recv_buffer nd));
    let nd := set_recv_buffer nd lb in
    let space_len := _lbuf_freespace (recv_buffer nd) in
    let '(nd, w, read_len, d) := _sys_socket_read nd w space_len in
    if 0 <? read_len then
      lb ← store_tail (recv_buffer nd) d;
      lb ← _lbuf_add_data lb read_len;
      let nd := set_recv_buffer nd lb in
      let nd := if space_len <=? read_len then set_read_again nd 1 else nd in
      Some (nd, w, s32 (_lbuf_datalen (recv_buffer nd)))
    else Some (nd, w, read_len).

Definition _tcpnode_wait_msg (nd : nd_tcp_node) (w : net) (tmout : Z)
    : option (nd_tcp_node * net * Z) :=
  let '(nd, w, ready) :=
    (if negb (tmout =? 0) then
       let '(nd, w, ret) := _wait_read_msg nd w in
       if ret <=? 0 then (nd, w, inl ret) else (nd, w, inr tt)
     else (nd, w, inr tt)) in
  match ready with
  | inl ret => Some (nd, w, ret)
  | inr _ =>
      '(nd, w, read_len) ← nd_tcpnode_read nd w;
      if read_len <=? 0 then Some (nd, w, read_len)
      else
        let data_len := _lbuf_datalen (recv_buffer nd) in
        if data_len <? ND_PACKET_HDR_SIZE then
          lb ← _lbuf_move_ahead (recv_buffer nd); Some (set_recv_buffer nd lb, w, 0)
        else
          m ← __buf (recv_buffer nd);
          hdr ← get_hdr m (__start (recv_buffer nd));
          let used_len := nd_net_getpack_size hdr in
          if ND_PACKET_SIZE <=? used_len then Some (set_err nd NDERR_BADPACKET, w, -1)
          else if used_len <=? data_len then Some (nd, w, used_len)
          else Some (nd, w, 0)
  end.

(** ** Life cycle *)

Definition nd_tcpnode_close (nd : nd_tcp_node) (force : Z) : nd_tcp_node * Z :=
  let nd := set_status nd ETS_DEAD in
  if fd nd =? 0 then (nd, 0) else (set_fd nd 0, 0).

(** [sock]: what connecting the socket returned. *)
Definition nd_tcpnode_connect (nd : nd_tcp_node) (w : net) (sock : Z)
    : option (nd_tcp_node * Z) :=
  let nd := set_sys_error nd 0 in
  let nd := set_err nd NDERR_SUCCESS in
  let nd := set_last_push nd (os_now w) in
  lb ← _lbuf_reset (recv_buffer nd);
  let nd := set_recv_buffer nd lb in
  lb ← _lbuf_reset (send_buffer nd);
  let nd := set_send_buffer nd lb in
  let nd := set_fd nd sock in
  if fd nd <=? 0 then Some (set_err nd NDERR_OPENFILE, -1)
  else
    let nd := set_status nd ETS_CONNECTED in
    Some (set_start_time nd (os_now w), 0).

(** The object's callbacks run through [Handle._nd_object_on_destroy]; the
    second result is the callbacks that ran. *)
Definition on_destroy (nd : nd_tcp_node) (type : Z) : nd_tcp_node * list destroy_cb :=
  let o := mk_obj 0 (node_type nd) (node_errno nd) None 1 [] (close_cbs nd) in
  let '(o, _, ran) := _nd_object_on_destroy o type in
  (set_close_cbs nd (__release_cb_hdr o), ran).

Definition nd_tcpnode_reset (nd : nd_tcp_node) (w : net)
    : option (nd_tcp_node * list destroy_cb) :=
  let nd := if negb (fd nd =? 0) then set_fd nd 0 else nd in
  let '(nd, ran) := on_destroy nd 0 in
  let nd := set_node_level nd 0 in
  let nd := set_err nd NDERR_SUCCESS in
  let nd := set_sys_error nd 0 in
  let nd := set_last_push (set_last_recv nd (os_now w)) (os_now w) in
  lb ← _lbuf_reset (recv_buffer nd);
  let nd := set_recv_buffer nd lb in
  lb ← _lbuf_reset (send_buffer nd);
  Some (set_send_buffer nd lb, ran).

(** The fields of the structure after [memset] and [_tcp_connector_init]; the
    function pointers it stores are the functions of this file. *)
Definition _tcp_connector_init (w : net) : nd_tcp_node :=
  let empty := mk_lbuf 0 0 0 0 0 None in
  mk_tcp 0 ETS_DEAD NDHANDLE_TCPNODE 0 0 NDERR_SUCCESS 0 0 false 0 false false false
    (os_now w) 0 (os_now w) 0 0 (init_crypt_key (mk_cryptkey 0 [])) ND_DFT_DISSCONN_TIMEOUT 0 0
    empty empty [].

Definition nd_tcpnode_init (w : net) : option nd_tcp_node :=
  let nd := _tcp_connector_init w in
  '(lb, _) ← _lbuf_init (recv_buffer nd) ND_NETBUF_SIZE;
  let nd := set_recv_buffer nd lb in
  '(lb, _) ← _lbuf_init (send_buffer nd) ND_NETBUF_SIZE;
  Some (set_send_buffer nd lb).

Definition nd_tcpnode_deinit (nd : nd_tcp_node) : option (nd_tcp_node * list destroy_cb) :=
  let nd := set_status nd ETS_DEAD in
  lb ← _lbuf_destroy (recv_buffer nd);
  let nd := set_recv_buffer nd lb in
  lb ← _lbuf_destroy (send_buffer nd);
  Some (on_destroy (set_send_buffer nd lb) 0).

(** [writable]: the effect of the writable callback, when one is set. *)
Definition _tcp_node_update (nd : nd_tcp_node) (w : net)
    (writable : nd_tcp_node -> net -> option (nd_tcp_node * net))
    : option (nd_tcp_node * net * Z) :=
  let now := os_now w in
  let alive_timeout := Z.shiftr (disconn_timeout nd) 1 in
  if (fd nd =? 0) ||
     negb (nd_object_check_error
             (mk_obj 0 (node_type nd) (node_errno nd) None 1 [] (close_cbs nd)) =? 0) ||
     negb (TCPNODE_CHECK_OK nd)
  then Some (nd, w, -1)
  else
    '(nd, w, flushed) ← _tcpnode_push_sendbuf nd w;
    '(nd, w, ret) ←
      (if (flushed =? 0) && negb (without_alive nd) then
         let alive_timeout := if alive_timeout =? 0 then ND_ALIVE_TIMEOUT else alive_timeout in
         if u32 alive_timeout <? u32 (now - last_push nd) then
           alive ← nd_make_alive_pack (zrepeat 0 SYSRESV_PACK_SIZE);
           alive ← nd_packet_hton alive 0;
           nd_tcpnode_send nd w alive ESF_URGENCY
         else Some (nd, w, 0)
       else Some (nd, w, 0));
    '(nd, w) ← writable nd w;
    if disconn_timeout nd <? u32 (now - last_recv nd)
    then Some (set_err nd NDERR_TIMEOUT, w, -1)
    else Some (nd, w, ret).
End Tcp.

(** ** The send side as a byte stream *)

(** The send buffer is well formed and cannot grow. *)
Definition sendbuf_ok (nd : nd_tcp_node) : Prop := lbuf_wf (send_buffer nd) /\ auto_inc (send_buffer nd) = 0.

(** What waits ends in the first half of the send buffer, also with [n] more bytes: then
    nothing has to be moved to make room, and what is moved does not overlap. *)
Definition calm (nd : nd_tcp_node) (n : Z) : Prop :=
  __end (send_buffer nd) + n <= lbuf_half (buf_capacity (send_buffer nd)).

(** Everything sent or waiting to be sent, in order. *)
Definition out_stream (nd : nd_tcp_node) (w : net) : list Z :=
  sent w ++ lbuf_content (send_buffer nd).

(** What one write does, whatever the system answers; [taken] is the number of
    bytes that left. *)
Record written (nd : nd_tcp_node) (w : net) (d : list Z) (nd' : nd_tcp_node) (w' : net)
    (ret taken : Z) : Prop := {
  wr_buf : send_buffer nd' = send_buffer nd;
  wr_session : is_session nd' = is_session nd;
  wr_taken : 0 <= taken <= zlen d;
  wr_sent : sent w' = sent w ++ slice 0 taken d;
  wr_ret : ret = taken \/ (ret = -1 /\ taken = 0 /\ sys_error nd' <> ESOCKETTIMEOUT)
}.

Lemma sys_write_written nd w d nd' w' ret : _sys_socket_write nd w d = (nd', w', ret) ->
  exists taken, written nd w d nd' w' ret taken.
Proof.
  unfold _sys_socket_write, os_send. pose proof (zlen_nonneg d).
  assert (forall e, (if sys_error (set_sys_error nd e) =? ESOCKETTIMEOUT
    then (set_err (set_sys_error nd e) NDERR_WOULD_BLOCK, w', 0)
    else (set_err (set_sys_error nd e) NDERR_IO, w', -1)) = (nd', w', ret) ->
    sent w' = sent w -> exists taken, written nd w d nd' w' ret taken) as Herr.
  { intros e E Hs. exists 0. assert (sent w' = sent w ++ slice 0 0 d) as Hs'.
    { by rewrite slice_0, app_nil_r. }
    destruct (Z.eqb_spec (sys_error (set_sys_error nd e)) ESOCKETTIMEOUT) as [Et|Et];
      injection E as <- <-; split; try done; try lia; auto. }
  destruct (os_sends w) as [|r rs] eqn:Eo.
  { cbn [Z.ltb Z.compare Z.eqb Pos.eqb]. intros E.
    assert (w' = w) as -> by (revert E; bcase; intros [= _ <- _]; done).
    by apply (Herr ESOCKETTIMEOUT). }
  destruct r as [n|e].
  - set (k := Z.max 0 (Z.min n (zlen d))). intros E. exists k.
    assert (0 <= k <= zlen d) by lia.
    revert E. bcase; [|bcase; [lia|bcase; [|lia]]]; intros [= <- <- <-]; split; try done; by left.
  - cbn [Z.ltb Z.compare Z.eqb Pos.eqb]. intros E.
    assert (w' = mk_net rs (os_recvs w) (os_waits w) (os_now w) (sent w)) as Ew.
    { revert E. bcase; intros [= _ <- _]; done. }
    subst w'. by apply (Herr e).
Qed.

Lemma ndlbuf_data_ok lb : lbuf_wf lb ->
  ndlbuf_data lb (zlen (lbuf_content lb)) = Some (lbuf_content lb).
Proof.
  intros W. rewrite lbuf_content_len by done. unfold ndlbuf_data, lbuf_content. lb_start W. rewrite Hm. cbn [mbind option_bind]. apply mread_ok; lia.
Qed.

(** Dropping the bytes that left. *)
Lemma sub_data_taken lb n : lbuf_wf lb -> auto_inc lb = 0 -> 0 <= n <= zlen (lbuf_content lb) -> ~ lbuf_take_overlaps lb n ->
  exists lb', _lbuf_sub_data lb n = Some lb' /\ lbuf_wf lb' /\ auto_inc lb' = 0 /\
    buf_capacity lb' = buf_capacity lb /\
    lbuf_content lb = slice 0 n (lbuf_content lb) ++ lbuf_content lb' /\ __end lb' <= __end lb.
Proof.
  intros W Ha Hn Ho. pose proof (lbuf_content_len lb W) as L. rewrite L in Hn.
  destruct (lbuf_sub_data_ok lb n W Hn Ho) as (lb' & E & W' & (Ha' & _ & Hc') & HC & Hs).
  exists lb'. split_and!; try done; [congruence|]. pose proof (lbuf_content_len lb' W') as L'.
  apply (f_equal zlen) in HC. rewrite zlen_app, zlen_slice in HC by lia. destruct (wf_ptr lb W). lia.
Qed.

(** What a send leaves behind: the block is in the stream as a whole, or not at
    all. *)
Record send_done (nd : nd_tcp_node) (w : net) (d : list Z) (nd' : nd_tcp_node) (w' : net)
    (ret : Z) : Prop := {
  sd_buf : lbuf_wf (send_buffer nd') /\ auto_inc (send_buffer nd') = 0 /\
           buf_capacity (send_buffer nd') = buf_capacity (send_buffer nd);
  sd_session : is_session nd' = is_session nd;
  sd_stream : (ret = zlen d /\ out_stream nd' w' = out_stream nd w ++ d) \/
              ((ret = -1 \/ ret = 0) /\ out_stream nd' w' = out_stream nd w);
  sd_end : __end (send_buffer nd') <= __end (send_buffer nd) + zlen d
}.

Section SendProofs.
Context `{!Malloc}.

(** Writing a block into the send buffer behind what it holds. *)
Lemma sendbuf_write lb d : lbuf_wf lb -> auto_inc lb = 0 ->
  zlen (lbuf_content lb) + zlen d <= buf_capacity lb ->
  (zlen d <= buf_capacity lb - __end lb \/ (lbuf_movable lb /\ ~ lbuf_overlaps lb)) ->
  exists lb', _lbuf_write lb d (zlen d) EBUF_SPECIFIED = Some (lb', zlen d) /\
    lbuf_wf lb' /\ auto_inc lb' = 0 /\ buf_capacity lb' = buf_capacity lb /\
    lbuf_content lb' = lbuf_content lb ++ d /\ __end lb' <= __end lb + zlen d.
Proof.
  intros W Ha Hfit Hm. rewrite lbuf_content_len in Hfit by done. pose proof (zlen_nonneg d).
  destruct (lbuf_write_fits lb d W (zlen d) EBUF_SPECIFIED)
    as (lb' & E & W' & (Ha' & _ & Hc') & HC & Hs); [lia|lia|done|].
  exists lb'. rewrite slice_all in HC by done. pose proof (lbuf_content_len lb' W') as L'.
  rewrite HC, zlen_app, lbuf_content_len in L' by done. destruct (wf_ptr lb W). split_and!; try done; [congruence|lia].
Qed.

Lemma content_nil_ptr lb : lbuf_wf lb -> lbuf_content lb = [] <-> __start lb = __end lb.
Proof.
  intros W. pose proof (lbuf_content_len lb W) as L. split; intros E.
  - rewrite E, zlen_nil in L. lia.
  - apply zlen_0_nil. lia.
Qed.

Lemma send_with_save_ok nd w d : lbuf_wf (send_buffer nd) -> auto_inc (send_buffer nd) = 0 ->
  lbuf_content (send_buffer nd) = [] -> 0 < zlen d <= buf_capacity (send_buffer nd) ->
  exists nd' w' ret, __tcpnode_send_with_save nd w d (zlen d) = Some (nd', w', ret) /\
    send_done nd w d nd' w' ret.
Proof.
  intros W Ha He Hd. unfold __tcpnode_send_with_save.
  rewrite mread_ok, slice_all by (done || lia). cbn [mbind option_bind].
  destruct (_sys_socket_write nd w d) as [[nd1 w1] ret] eqn:Ew.
  destruct (sys_write_written _ _ _ _ _ _ Ew) as (taken & [Hb Hse Ht Hs Hr]).
  pose proof (proj1 (content_nil_ptr _ W) He) as Hptr.
  assert (forall nd', send_buffer nd' = send_buffer nd -> is_session nd' = is_session nd ->
    taken = zlen d -> send_done nd w d nd' w1 (zlen d)) as Hall.
  { intros nd' E E' ->. split; rewrite ?E; [done|done| |lia].
    left. split; [done|]. unfold out_stream. by rewrite E, Hs, slice_all, He, !app_nil_r. }
  destruct (Z.eqb_spec ret (-1)) as [->|Hr1].
  - destruct Hr as [?|(_ & -> & Hse1)]; [lia|].
    destruct (Z.eqb_spec (sys_error nd1) ESOCKETTIMEOUT); [done|]. cbn [negb].
    eexists _, _, _. split; [done|]. split; rewrite ?Hb; [done|done| |lia].
    right. split; [by left|]. unfold out_stream. by rewrite Hb, Hs, slice_0, app_nil_r.
  - destruct Hr as [->|(? & _)]; [|done]. destruct (Z.eqb_spec taken (zlen d)) as [Et|Et].
    { eexists _, _, _. split; [done|]. destruct (wf_cap _ W). unwrap_in_range. by apply Hall. }
    rewrite mread_ok by lia. cbn [mbind option_bind].
    set (r := slice taken (zlen d - taken) d). assert (zlen r = zlen d - taken) as Lr by (apply zlen_slice; lia).
    rewrite <- Lr. rewrite Hb.
    destruct (sendbuf_write (send_buffer nd) r W Ha) as (lb & -> & W' & Ha' & Hc' & HC & Hal).
    { rewrite He, zlen_nil. lia. }
    { right. unfold lbuf_movable, lbuf_overlaps. split; [tauto|lia]. }
    cbn [mbind option_bind]. eexists _, _, _. split; [done|]. split; cbn [send_buffer set_send_buffer is_session].
    + done.
    + done.
    + left. destruct (Z.ltb_spec 0 (zlen r)); [|lia]. split; [lia|].
      unfold out_stream. cbn [send_buffer set_send_buffer]. rewrite HC, He, Hs, <- !app_assoc. f_equal.
      cbn [app]. subst r. rewrite <- (slice_split 0) by lia. by rewrite slice_all by lia.
    + lia.
Qed.

(** Some of the buffered bytes leave, the others stay. *)
Record flushed (nd : nd_tcp_node) (w : net) (nd' : nd_tcp_node) (w' : net) : Prop := {
  fl_session : is_session nd' = is_session nd;
  fl_wf : lbuf_wf (send_buffer nd');
  fl_auto : auto_inc (send_buffer nd') = 0;
  fl_cap : buf_capacity (send_buffer nd') = buf_capacity (send_buffer nd);
  fl_stream : out_stream nd' w' = out_stream nd w;
  fl_end : __end (send_buffer nd') <= __end (send_buffer nd)
}.

Lemma flushed_same nd w nd' w' : lbuf_wf (send_buffer nd) -> auto_inc (send_buffer nd) = 0 ->
  send_buffer nd' = send_buffer nd -> is_session nd' = is_session nd ->
  sent w' = sent w -> flushed nd w nd' w'.
Proof.
  intros W Ha E Es Ew. split; rewrite ?E; try done. unfold out_stream. by rewrite E, Ew.
Qed.

Lemma flushed_trans nd w nd1 w1 nd2 w2 :
  flushed nd w nd1 w1 -> flushed nd1 w1 nd2 w2 -> flushed nd w nd2 w2.
Proof.
  intros [? ? ? ? ? H1] [? ? ? ? ? H2]. split; try congruence. lia.
Qed.
Lemma flushed_calm nd w nd' w' n : flushed nd w nd' w' -> calm nd n -> calm nd' n.
Proof. intros [_ _ _ Hc _ He]. unfold calm. rewrite Hc. lia. Qed.
Lemma calm_less nd n : 0 <= n -> calm nd n -> calm nd 0.
Proof. unfold calm. lia. Qed.

(** Writing the buffered bytes to the socket and dropping those it took. *)
Lemma flush_ok nd w nd1 w1 fl : lbuf_wf (send_buffer nd) -> auto_inc (send_buffer nd) = 0 ->
  _sys_socket_write nd w (lbuf_content (send_buffer nd)) = (nd1, w1, fl) ->
  match (if 0 <? fl then lb ← _lbuf_sub_data (send_buffer nd1) fl; Some (set_send_buffer nd1 lb) else Some nd1) with
  | Some nd2 => flushed nd w nd2 w1 /\
      (0 < fl -> zlen (lbuf_content (send_buffer nd2)) < zlen (lbuf_content (send_buffer nd)))
  | None => ~ calm nd 0
  end.
Proof.
  intros W Ha Ew. destruct (sys_write_written _ _ _ _ _ _ Ew) as (taken & [Hb Hse Ht Hs Hr]).
  destruct (Z.ltb_spec 0 fl) as [Hfl|Hfl].
  - assert (fl = taken) as -> by lia. rewrite Hb.
    destruct (decide (lbuf_take_overlaps (send_buffer nd) taken)) as [Ho|Ho].
    { rewrite lbuf_sub_data_overlap by (done || lia). intros Hc. unfold calm in Hc.
      apply (lbuf_half_safe (send_buffer nd) taken) in Ho; [done|lia|lia]. }
    destruct (sub_data_taken (send_buffer nd) taken W Ha Ht Ho) as (lb & -> & W' & Ha' & Hc' & HC & Hend).
    cbn [mbind option_bind]. cbn [send_buffer set_send_buffer].
    pose proof (f_equal zlen HC) as HL. rewrite zlen_app, zlen_slice in HL by lia.
    split; [split; cbn [send_buffer set_send_buffer is_session]; try done|lia].
    unfold out_stream. cbn [send_buffer set_send_buffer]. rewrite Hs, <- app_assoc. by rewrite <- HC.
  - assert (taken = 0) as -> by lia. split; [|lia]. split; rewrite ?Hb; try done.
    unfold out_stream. by rewrite Hb, Hs, slice_0, app_nil_r.
Qed.

Lemma push_and_send_ok nd w d : lbuf_wf (send_buffer nd) -> auto_inc (send_buffer nd) = 0 ->
  0 < zlen d <= buf_capacity (send_buffer nd) ->
  match __tcpnode_push_and_send nd w d (zlen d) true with
  | Some (nd', w', ret) => send_done nd w d nd' w' ret
  | None => ~ calm nd (zlen d)
  end.
Proof.
  intros W Ha Hd. unfold __tcpnode_push_and_send.
  rewrite (lbuf_datalen_eq _ W), <- (lbuf_content_len _ W).
  destruct (Z.eqb_spec (zlen (lbuf_content (send_buffer nd))) 0) as [E0|E0]; cbn [negb].
  { cbn [mbind option_bind]. rewrite E0. cbn [Z.eqb].
    destruct (send_with_save_ok nd w d W Ha (zlen_0_nil _ E0) Hd) as (nd' & w' & ret & -> & HH). done. }
  rewrite (ndlbuf_data_ok _ W). cbn [mbind option_bind].
  destruct (_sys_socket_write nd w (lbuf_content (send_buffer nd))) as [[nd1 w1] fl] eqn:Ew.
  pose proof (flush_ok nd w nd1 w1 fl W Ha Ew) as HF.
  destruct (if 0 <? fl then _ else _) as [nd2|]; cbn [mbind option_bind].
  2: { intros Hc. apply HF. apply (calm_less nd (zlen d)); [lia|done]. }
  destruct HF as [HF _]. pose proof HF as [Hs2 W2 Ha2 Hc2 Ho2 He2].
  rewrite (lbuf_datalen_eq _ W2), <- (lbuf_content_len _ W2).
  assert (forall nd' w' ret, send_done nd2 w1 d nd' w' ret -> send_done nd w d nd' w' ret) as Htrans.
  { intros nd' w' ret [H1 H2 H3 H4]. split; [by rewrite <- Hc2|by rewrite <- Hs2|by rewrite <- Ho2|lia]. }
  destruct (Z.eqb_spec (zlen (lbuf_content (send_buffer nd2))) 0) as [E1|E1].
  { destruct (send_with_save_ok nd2 w1 d W2 Ha2 (zlen_0_nil _ E1)) as (nd' & w' & ret & -> & HH);
      [by rewrite Hc2|]. by apply Htrans. }
  rewrite (lbuf_free_capacity_eq _ W2), <- (lbuf_content_len _ W2). cbn [andb].
  destruct (Z.ltb_spec (buf_capacity (send_buffer nd2) - zlen (lbuf_content (send_buffer nd2))) (zlen d)).
  { apply Htrans. split; [done|done| |cbn; lia]. right. by split; [left|]. }
  destruct (decide (zlen d <= buf_capacity (send_buffer nd2) - __end (send_buffer nd2) \/
    (lbuf_movable (send_buffer nd2) /\ ~ lbuf_overlaps (send_buffer nd2)))) as [Hok|Hno].
  - destruct (sendbuf_write (send_buffer nd2) d W2 Ha2) as (lb & -> & W' & Ha' & Hc' & HC & Hal); [lia|done|].
    cbn [mbind option_bind]. apply Htrans. split; cbn [send_buffer set_send_buffer is_session]; [done|done| |done].
    left. split; [done|]. unfold out_stream. cbn [send_buffer set_send_buffer]. by rewrite HC, app_assoc.
  - apply Decidable.not_or in Hno as [Hsp Hno].
    assert (~ lbuf_movable (send_buffer nd2) \/ lbuf_overlaps (send_buffer nd2)) as Hno'
      by (destruct (decide (lbuf_overlaps (send_buffer nd2))); tauto).
    rewrite lbuf_write_unmovable; [|done|lia|rewrite lbuf_content_len in * by done; lia|lia|done].
    cbn [mbind option_bind]. intros Hc. apply (flushed_calm _ _ _ _ _ HF) in Hc. unfold calm, lbuf_half in Hc. lia.
Qed.

Lemma tcpnode_send_ok nd w d flag : lbuf_wf (send_buffer nd) -> auto_inc (send_buffer nd) = 0 ->
  0 < zlen d <= buf_capacity (send_buffer nd) ->
  match __tcpnode_send nd w d (zlen d) flag true with
  | Some (nd', w', ret) => send_done nd w d nd' w' ret
  | None => ~ calm nd (zlen d)
  end.
Proof.
  intros W Ha Hd. unfold __tcpnode_send. rewrite (lbuf_datalen_eq _ W), <- (lbuf_content_len _ W).
  destruct (Z.eqb_spec (zlen (lbuf_content (send_buffer nd))) 0) as [E0|E0].
  { destruct (send_with_save_ok nd w d W Ha (zlen_0_nil _ E0) Hd) as (nd' & w' & ret & -> & HH). done. }
  destruct (_ && _); [|by apply push_and_send_ok].
  split; [done|done| |cbn; lia]. right. by split; [right|].
Qed.

Lemma push_sendbuf_ok nd w : lbuf_wf (send_buffer nd) -> auto_inc (send_buffer nd) = 0 ->
  match _tcpnode_push_sendbuf nd w with Some (nd', w', _) => flushed nd w nd' w' | None => ~ calm nd 0 end.
Proof.
  intros W Ha. unfold _tcpnode_push_sendbuf. rewrite (lbuf_datalen_eq _ W), <- (lbuf_content_len _ W).
  destruct (Z.eqb_spec (zlen (lbuf_content (send_buffer nd))) 0) as [E0|E0]; [by apply flushed_same|].
  destruct (check_connect_valid nd); cbn [negb]; [|by apply flushed_same].
  rewrite (ndlbuf_data_ok _ W). cbn [mbind option_bind].
  destruct (_sys_socket_write nd w _) as [[nd1 w1] fl] eqn:Ew.
  pose proof (flush_ok nd w nd1 w1 fl W Ha Ew) as HF.
  destruct (if 0 <? fl then _ else _) as [nd2|]; cbn [mbind option_bind]; [apply HF|done].
Qed.

Lemma resend_loop_ok fuel : forall nd w, lbuf_wf (send_buffer nd) -> auto_inc (send_buffer nd) = 0 ->
  (Z.to_nat (zlen (lbuf_content (send_buffer nd))) < fuel)%nat ->
  match resend_loop fuel nd w (zlen (lbuf_content (send_buffer nd))) with
  | Some (nd', w', _) => flushed nd w nd' w' | None => ~ calm nd 0 end.
Proof.
  induction fuel as [|fuel IH]; intros nd w W Ha Hf; [lia|]. cbn [resend_loop].
  change (send_buffer (set_err nd NDERR_SUCCESS)) with (send_buffer nd).
  rewrite (ndlbuf_data_ok _ W). cbn [mbind option_bind].
  destruct (_sys_socket_write _ w _) as [[nd1 w1] fl] eqn:Ew.
  pose proof (flush_ok (set_err nd NDERR_SUCCESS) w nd1 w1 fl W Ha Ew) as HF.
  assert (flushed nd w (set_err nd NDERR_SUCCESS) w) as HF0 by by apply flushed_same.
  destruct (Z.leb_spec fl 0) as [Hfl|Hfl].
  { replace (0 <? fl) with false in HF by lia. destruct HF as [HF _]. by eapply flushed_trans. }
  replace (0 <? fl) with true in HF by lia. destruct (_lbuf_sub_data _ fl) as [lb|]; cbn [mbind option_bind] in *; [|exact HF].
  destruct HF as [HF Hlt]. specialize (Hlt Hfl). pose proof (flushed_trans _ _ _ _ _ _ HF0 HF) as HF'.
  set (nd2 := set_send_buffer nd1 lb) in *. pose proof HF' as [Hs2 W2 Ha2 Hc2 Ho2 He2].
  change (send_buffer (set_err nd NDERR_SUCCESS)) with (send_buffer nd) in Hlt.
  rewrite (lbuf_datalen_eq _ W2), <- (lbuf_content_len _ W2).
  destruct (Z.ltb_spec 0 (zlen (lbuf_content (send_buffer nd2)))) as [Hl|Hl]; [|done].
  assert (exists w2 r e, os_wait w1 = (w2, r, e) /\ sent w2 = sent w1) as (w2 & r & e & -> & Hw2).
  { unfold os_wait. destruct (os_waits w1) as [|[]]; by eexists _, _, _. }
  assert (flushed nd w nd2 w2) as HF2.
  { eapply flushed_trans; [exact HF'|]. by apply flushed_same. }
  destruct (r =? 1); [|done]. specialize (IH nd2 w2 W2 Ha2 ltac:(lia)).
  destruct (resend_loop fuel nd2 w2 _) as [[[nd' w'] ret]|]; [by eapply flushed_trans|].
  intros Hc. by apply IH, (flushed_calm _ _ _ _ _ HF').
Qed.

Lemma push_force_ok nd w : lbuf_wf (send_buffer nd) -> auto_inc (send_buffer nd) = 0 ->
  match _tcpnode_push_force nd w with Some (nd', w', _) => flushed nd w nd' w' | None => ~ calm nd 0 end.
Proof.
  intros W Ha. unfold _tcpnode_push_force. rewrite (lbuf_datalen_eq _ W), <- (lbuf_content_len _ W).
  destruct (Z.eqb_spec (zlen (lbuf_content (send_buffer nd))) 0) as [E0|E0]; [by apply flushed_same|].
  destruct (check_connect_valid nd); cbn [negb]; [|by apply flushed_same].
  apply resend_loop_ok; [done|done|lia].
Qed.
End SendProofs.

(** Only the first [n] bytes of the message matter. *)
Section Prefix.
Context `{!Malloc} (p : list Z) (n : Z) (Hn : 0 <= n <= zlen p).

Lemma mread_prefix off k : 0 <= off -> 0 <= k -> off + k <= n ->
  mread p off k = mread (slice 0 n p) off k.
Proof using Hn.
  intros. rewrite !mread_ok by (rewrite ?zlen_slice; lia). f_equal.
  by rewrite slice_slice, Z.add_0_l by lia.
Qed.

Lemma lbuf_copy_in_prefix lb : _lbuf_copy_in lb p n = _lbuf_copy_in lb (slice 0 n p) n.
Proof using Hn. unfold _lbuf_copy_in. by rewrite mread_prefix by lia. Qed.

Lemma lbuf_write_prefix lb :
  _lbuf_write lb p n EBUF_SPECIFIED = _lbuf_write lb (slice 0 n p) n EBUF_SPECIFIED.
Proof using Hn.
  unfold _lbuf_write. rewrite Z.eqb_refl, lbuf_copy_in_prefix.
  destruct (_ <? n); [|done]. destruct (_ <? n).
  - destruct (_ =? 0); [done|]. destruct (_tryto_inc_capacity lb n) as [[lb' r]|]; [|done].
    cbn [mbind option_bind]. by rewrite lbuf_copy_in_prefix.
  - destruct (_lbuf_move_ahead lb) as [lb'|]; [|done]. cbn [mbind option_bind].
    apply lbuf_copy_in_prefix.
Qed.

Lemma send_with_save_prefix nd w :
  __tcpnode_send_with_save nd w p n = __tcpnode_send_with_save nd w (slice 0 n p) n.
Proof using Hn.
  unfold __tcpnode_send_with_save. rewrite <- mread_prefix by lia.
  rewrite mread_ok by lia. cbn [mbind option_bind].
  destruct (_sys_socket_write nd w _) as [[nd1 w1] ret] eqn:Ew.
  destruct (sys_write_written _ _ _ _ _ _ Ew) as (taken & [_ _ Ht _ Hr]).
  rewrite zlen_slice in Ht by lia. rewrite lbuf_write_prefix.
  destruct (Z.eqb_spec ret (-1)); [done|]. destruct (ret =? n); [done|].
  by rewrite mread_prefix by lia.
Qed.

Lemma tcpnode_send_prefix nd w flag wa :
  __tcpnode_send nd w p n flag wa = __tcpnode_send nd w (slice 0 n p) n flag wa.
Proof using Hn.
  unfold __tcpnode_send. rewrite send_with_save_prefix. destruct (_ =? 0); [done|].
  destruct (_ && _); [done|]. unfold __tcpnode_push_and_send.
  destruct (if negb _ then _ else _) as [[[nd1 w1] l]|]; [|done]. cbn [mbind option_bind].
  by rewrite send_with_save_prefix, lbuf_write_prefix.
Qed.
End Prefix.

(** ** A connection's output as a whole *)

(** What a program does to the send side: packets with their flags, and the three
    ways of flushing. *)
Inductive tcp_op := TSend (pkt : mem) (flag : Z) | TFlush | TTryFlush | TForce.

(** The packet a buffer holds: as many bytes as its header says. *)
Definition packet_of (pkt : mem) : list Z :=
  match get_hdr pkt 0 with Some h => slice 0 (nd_net_getpack_size h) pkt | None => [] end.

Definition sendable (pkt : mem) : Prop :=
  exists h, get_hdr pkt 0 = Some h /\ 0 < nd_net_getpack_size h < ND_PACKET_SIZE /\
    nd_net_getpack_size h <= zlen pkt.

Definition op_sendable (op : tcp_op) : Prop :=
  match op with TSend pkt _ => sendable pkt | _ => True end.

Section Run.
Context `{!Malloc}.

(** One operation; the third component is the packet when it was accepted: when
    [nd_tcpnode_send] returned the packet's length. *)
Definition tcp_step (nd : nd_tcp_node) (w : net) (op : tcp_op) : option (nd_tcp_node * net * list (list Z)) :=
  match op with
  | TSend pkt flag =>
      '(nd, w, ret) ← nd_tcpnode_send nd w pkt flag;
      Some (nd, w, if ret =? zlen (packet_of pkt) then [packet_of pkt] else [])
  | TFlush => '(nd, w, _) ← _tcpnode_push_sendbuf nd w; Some (nd, w, [])
  | TTryFlush => '(nd, w, _) ← nd_tcpnode_tryto_flush_sendbuf nd w; Some (nd, w, [])
  | TForce => '(nd, w, _) ← _tcpnode_push_force nd w; Some (nd, w, [])
  end.
Fixpoint tcp_run (nd : nd_tcp_node) (w : net) (ops : list tcp_op)
    : option (nd_tcp_node * net * list (list Z)) :=
  match ops with
  | [] => Some (nd, w, [])
  | op :: ops =>
      '(nd, w, ok) ← tcp_step nd w op;
      '(nd, w, acc) ← tcp_run nd w ops;
      Some (nd, w, ok ++ acc)
  end.

(** The sender's discipline: with each packet what waits would end in the first half of the
    send buffer. *)
Definition op_size (op : tcp_op) : Z := match op with TSend pkt _ => zlen (packet_of pkt) | _ => 0 end.
Fixpoint roomy (nd : nd_tcp_node) (w : net) (ops : list tcp_op) : Prop :=
  match ops with
  | [] => True
  | op :: ops => calm nd (op_size op) /\ forall nd' w' ok, tcp_step nd w op = Some (nd', w', ok) -> roomy nd' w' ops
  end.

Lemma tcpnode_send_pkt nd w pkt flag : lbuf_wf (send_buffer nd) -> auto_inc (send_buffer nd) = 0 ->
  ND_PACKET_SIZE <= buf_capacity (send_buffer nd) -> sendable pkt ->
  match nd_tcpnode_send nd w pkt flag with
  | Some (nd', w', ret) => send_done nd w (packet_of pkt) nd' w' ret /\
      (is_session nd = true -> ret = -1 ->
         status nd' = ETS_RESET /\ node_errno nd' = NDERR_WRITE)
  | None => ~ calm nd (zlen (packet_of pkt))
  end.
Proof.
  intros W Ha Hc (h & Hh & Hs & Hl). unfold nd_tcpnode_send, packet_of. rewrite Hh.
  cbn [mbind option_bind]. set (n := nd_net_getpack_size h) in *.
  assert (zlen (slice 0 n pkt) = n) as Ln by (apply zlen_slice; lia).
  rewrite !(tcpnode_send_prefix pkt n) by lia.
  assert (forall flag, match __tcpnode_send nd w (slice 0 n pkt) n flag true with
    | Some (nd', w', ret) => send_done nd w (slice 0 n pkt) nd' w' ret
    | None => ~ calm nd (zlen (slice 0 n pkt)) end) as HS.
  { intros fl.
    pose proof (tcpnode_send_ok nd w (slice 0 n pkt) fl W Ha ltac:(rewrite Ln; lia)) as HS. rewrite Ln in HS |- *.
    by destruct (__tcpnode_send _ _ _ _ _ _) as [[[nd' w'] ret]|]. }
  destruct (is_session nd) eqn:Es.
  - specialize (HS (Z.land flag (Z.lnot ESF_URGENCY))).
    destruct (__tcpnode_send _ _ _ _ _ _) as [[[nd' w'] ret]|]; [|done].
    cbn [mbind option_bind]. destruct (Z.eqb_spec ret (-1)); [|done].
    split; [|by split]. destruct HS as [? ? ? ?]. by split.
  - specialize (HS flag). destruct (__tcpnode_send _ _ _ _ _ _) as [[[nd' w'] ret]|]; [|done].
    by split.
Qed.

Lemma tryto_flush_ok nd w : lbuf_wf (send_buffer nd) -> auto_inc (send_buffer nd) = 0 ->
  match nd_tcpnode_tryto_flush_sendbuf nd w with Some (nd', w', _) => flushed nd w nd' w' | None => ~ calm nd 0 end.
Proof.
  intros W Ha. unfold nd_tcpnode_tryto_flush_sendbuf. destruct (_ || _); [by apply push_sendbuf_ok|].
  by apply flushed_same.
Qed.

(** What one operation does, when it is defined; it is when the buffer is calm. *)
Lemma tcp_step_ok nd w op : sendbuf_ok nd -> ND_PACKET_SIZE <= buf_capacity (send_buffer nd) -> op_sendable op ->
  match tcp_step nd w op with
  | Some (nd', w', ok) => sendbuf_ok nd' /\ buf_capacity (send_buffer nd') = buf_capacity (send_buffer nd) /\
      out_stream nd' w' = out_stream nd w ++ concat ok
  | None => ~ calm nd (op_size op)
  end.
Proof.
  intros (W & Ha) Hcap Hop.
  assert (forall nd' w', flushed nd w nd' w' -> sendbuf_ok nd' /\
    buf_capacity (send_buffer nd') = buf_capacity (send_buffer nd) /\ out_stream nd' w' = out_stream nd w ++ concat []) as Hfl.
  { intros nd' w' [? ? ? ? ? ?]. cbn [concat]. by rewrite app_nil_r. }
  destruct op as [pkt flag| | |]; cbn [tcp_step op_size].
  - pose proof (tcpnode_send_pkt nd w pkt flag W Ha Hcap Hop) as HS.
    destruct (nd_tcpnode_send nd w pkt flag) as [[[nd1 w1] ret]|]; [|done].
    destruct HS as [[(W1 & Ha1 & Hc1) _ Hs _] _]. cbn [mbind option_bind].
    split; [done|]. split; [done|]. pose proof (zlen_nonneg (packet_of pkt)). destruct Hs as [[-> ->]|[Hr ->]].
    + rewrite Z.eqb_refl. cbn [concat]. by rewrite app_nil_r.
    + assert (0 < zlen (packet_of pkt)) by (destruct Hop as (h & Hh & ? & ?);
        unfold packet_of; rewrite Hh, zlen_slice; lia).
      destruct (Z.eqb_spec ret (zlen (packet_of pkt))); [lia|]. cbn [concat]. by rewrite app_nil_r.
  - pose proof (push_sendbuf_ok nd w W Ha) as HF. destruct (_tcpnode_push_sendbuf nd w) as [[[nd1 w1] ret]|]; [by apply Hfl|done].
  - pose proof (tryto_flush_ok nd w W Ha) as HF. destruct (nd_tcpnode_tryto_flush_sendbuf nd w) as [[[nd1 w1] ret]|]; [by apply Hfl|done].
  - pose proof (push_force_ok nd w W Ha) as HF. destruct (_tcpnode_push_force nd w) as [[[nd1 w1] ret]|]; [by apply Hfl|done].
Qed.

(** C2: the bytes a connection sends form one stream: after any sequence of sends and
    flushes, whatever the socket takes at a time, the bytes the socket took, followed by those still in
    the send buffer, are exactly the packets that were accepted, whole and in order; a
    refused packet leaves no byte.  No operation is undefined as long as the bytes that wait,
    with the packet to be sent, end in the first half of the buffer; beyond that
    [tcp_flush_overlap] and [tcp_send_overflow] show what goes wrong. *)
Theorem tcp_stream nd w ops : sendbuf_ok nd -> ND_PACKET_SIZE <= buf_capacity (send_buffer nd) ->
  Forall op_sendable ops ->
  (forall nd' w' acc, tcp_run nd w ops = Some (nd', w', acc) ->
     sendbuf_ok nd' /\ out_stream nd' w' = out_stream nd w ++ concat acc) /\
  (roomy nd w ops -> exists nd' w' acc, tcp_run nd w ops = Some (nd', w', acc)).
Proof.
  intros Hok Hcap Hops. revert nd w Hok Hcap.
  induction Hops as [|op ops Hop _ IH]; intros nd w Hok Hcap.
  { split; [intros ??? [= <- <- <-]; cbn [concat]; by rewrite app_nil_r|]. intros _. by eexists _, _, _. }
  cbn [tcp_run roomy]. pose proof (tcp_step_ok nd w op Hok Hcap Hop) as HS.
  destruct (tcp_step nd w op) as [[[nd1 w1] ok]|]; cbn [mbind option_bind]; [|split; [done|by intros [? _]]].
  destruct HS as (Hok1 & Hc1 & Ho1). destruct (IH nd1 w1 Hok1 ltac:(lia)) as [IH1 IH2]. split.
  - intros nd' w' acc'. destruct (tcp_run nd1 w1 ops) as [[[nd2 w2] acc]|]; [|done]. intros [= <- <- <-].
    destruct (IH1 _ _ _ eq_refl) as [Hok2 Ho2]. split; [done|]. by rewrite Ho2, Ho1, concat_app, app_assoc.
  - intros [_ Hr]. destruct (IH2 (Hr _ _ _ eq_refl)) as (nd2 & w2 & acc & ->). by eexists _, _, _.
Qed.
End Run.

(** when a flush takes a quarter of the capacity or more and leaves more than lies in front of it,
    the rest is copied onto itself, which is undefined. *)
Theorem tcp_flush_overlap nd w k rs : sendbuf_ok nd -> check_connect_valid nd = true ->
  os_sends w = SendOk k :: rs -> 0 < k < zlen (lbuf_content (send_buffer nd)) ->
  lbuf_take_overlaps (send_buffer nd) k -> _tcpnode_push_sendbuf nd w = None.
Proof.
  intros (W & Ha) Hv Hos Hk Ho. unfold _tcpnode_push_sendbuf.
  rewrite (lbuf_datalen_eq _ W), <- (lbuf_content_len _ W), Hv. destruct (Z.eqb_spec (zlen (lbuf_content (send_buffer nd))) 0); [lia|].
  cbn [negb]. rewrite (ndlbuf_data_ok _ W). cbn [mbind option_bind]. unfold _sys_socket_write, os_send. rewrite Hos.
  replace (Z.max 0 (Z.min k (zlen (lbuf_content (send_buffer nd))))) with k by lia.
  destruct (Z.ltb_spec 0 k); [|lia]. cbn [mbind option_bind]. destruct (Z.ltb_spec 0 k); [|lia].
  match goal with |- context [_lbuf_sub_data (send_buffer ?n) k] => change (send_buffer n) with (send_buffer nd) end.
  by rewrite lbuf_sub_data_overlap by (done || lia).
Qed.

(** a heap overflow: the send buffer holds bytes from its start, the socket
    takes 1 to 7 of them, and the next packet fits the free capacity but not the
    space behind the end.  [_lbuf_move_ahead] then moves nothing and the copy
    runs past the block. *)
Theorem tcp_send_overflow `{!Malloc} nd w k rs pkt flag : sendbuf_ok nd ->
  buf_capacity (send_buffer nd) = ND_NETBUF_SIZE -> __start (send_buffer nd) = 0 ->
  os_sends w = SendOk k :: rs -> 1 <= k < 8 -> k < zlen (lbuf_content (send_buffer nd)) ->
  sendable pkt -> Z.land flag ESF_POST = 0 ->
  ND_NETBUF_SIZE < zlen (lbuf_content (send_buffer nd)) + zlen (packet_of pkt) <= ND_NETBUF_SIZE + k ->
  nd_tcpnode_send nd w pkt flag = None.
Proof.
  intros (W & Ha) Hcap Hst Hos Hk Hk2 (h & Hh & Hs & Hl) Hfl Hfit.
  unfold nd_tcpnode_send, packet_of in *. rewrite Hh in *. cbn [mbind option_bind].
  set (n := nd_net_getpack_size h) in *. rewrite zlen_slice in Hfit by lia.
  enough (forall flag, Z.land flag ESF_POST = 0 -> __tcpnode_send nd w pkt n flag true = None) as HN.
  { rewrite !HN; [by destruct (is_session nd)|done|].
    rewrite <- Z.land_assoc, (Z.land_comm (Z.lnot _)), Z.land_assoc, Hfl. done. }
  intros fl Hfl'. unfold __tcpnode_send, __tcpnode_push_and_send.
  rewrite (lbuf_datalen_eq _ W), <- (lbuf_content_len _ W), Hfl'.
  destruct (Z.eqb_spec (zlen (lbuf_content (send_buffer nd))) 0); [lia|].
  cbn [Z.eqb negb andb]. rewrite (ndlbuf_data_ok _ W). cbn [mbind option_bind].
  assert (exists nd1 w1, _sys_socket_write nd w (lbuf_content (send_buffer nd)) = (nd1, w1, k) /\
    send_buffer nd1 = send_buffer nd) as (nd1 & w1 & -> & Hb).
  { unfold _sys_socket_write, os_send. rewrite Hos.
    replace (Z.max 0 (Z.min k (zlen (lbuf_content (send_buffer nd))))) with k by lia.
    destruct (Z.ltb_spec 0 k); [|lia]. by eexists _, _. }
  rewrite Hb. destruct (Z.ltb_spec 0 k); [|lia].
  set (lb := mk_lbuf (auto_inc (send_buffer nd)) (is_alloced (send_buffer nd))
    (buf_capacity (send_buffer nd)) (__start (send_buffer nd) + k) (__end (send_buffer nd))
    (__buf (send_buffer nd))).
  rewrite lbuf_content_len in * by done. destruct (wf_ptr _ W).
  assert (_lbuf_sub_data (send_buffer nd) k = Some lb) as ->.
  { unfold _lbuf_sub_data. fold lb. unfold lb at 1 2. cbn [__end __start].
    destruct (Z.leb_spec (__end (send_buffer nd)) (__start (send_buffer nd) + k)); [lia|].
    unfold _lbuf_tryto_move_ahead, _lbuf_capacity, lb. cbn [__start buf_capacity].
    rewrite Hcap, Hst. rewrite wrapu_small by lia. change (Z.shiftr ND_NETBUF_SIZE 2) with 16384.
    by destruct (Z.leb_spec 16384 (0 + k)); [lia|]. }
  cbn [mbind option_bind send_buffer set_send_buffer].
  assert (lbuf_wf lb) as Wl.
  { destruct W as [(m & Hm & Hlm) Hc Hp]. split; [by exists m|done|]. unfold lb. simpl. lia. }
  assert (__start lb = k /\ __end lb = __end (send_buffer nd) /\
    buf_capacity lb = ND_NETBUF_SIZE) as (Ls & Le & Lc) by (unfold lb; simpl; lia).
  clearbody lb. rewrite (lbuf_datalen_eq _ Wl), (lbuf_free_capacity_eq _ Wl).
  rewrite Ls, Le, Lc. unfold ND_NETBUF_SIZE in *.
  destruct (Z.eqb_spec (__end (send_buffer nd) - k) 0); [lia|].
  destruct (Z.ltb_spec (0x10000 - (__end (send_buffer nd) - k)) n); [lia|].
  cbn [andb]. rewrite lbuf_write_unmovable; [done|done|lia|lia|lia|]. left. unfold lbuf_movable. lia.
Qed.

(** ** The receive side *)

(** The bytes the network still has to deliver. *)
Definition in_stream (w : net) : list Z :=
  concat (map (fun r => match r with RecvData d => d | _ => [] end) (os_recvs w)).

Lemma os_recv_stream w len w' ret e d : 0 <= len -> os_recv w len = (w', ret, e, d) ->
  in_stream w = d ++ in_stream w' /\ zlen d <= len /\ (0 < ret -> ret = zlen d) /\
  (ret <= 0 -> d = [] ) /\ os_now w' = os_now w.
Proof.
  intros Hlen. unfold os_recv, in_stream. destruct (os_recvs w) as [|r rs] eqn:Eo.
  { intros [= <- <- <- <-]. rewrite Eo. split_and!; [done|done|lia|done|done]. }
  destruct r as [x| |x]; [bcase|..]; intros [= <- <- <- <-]; cbn [os_recvs os_now map concat].
  - split_and!; [done|done|done| |done]. intros ?. apply zlen_0_nil. zlens; lia.
  - rewrite app_assoc, <- slice_take_drop by lia. rewrite zlen_slice by lia.
    split_and!; [done|done|lia| |done]. intros ?. apply zlen_0_nil. rewrite zlen_slice; lia.
  - split_and!; [done|done|lia|done|done].
  - split_and!; [done|done|lia|done|done].
Qed.

Lemma sys_read_stream nd w len nd' w' ret d : 0 <= len -> _sys_socket_read nd w len = (nd', w', ret, d) ->
  in_stream w = d ++ in_stream w' /\ zlen d <= len /\ (0 < ret -> ret = zlen d) /\
  (ret <= 0 -> d = []) /\ recv_buffer nd' = recv_buffer nd.
Proof.
  intros Hlen. unfold _sys_socket_read. destruct (os_recv w len) as [[[w1 r] e] d1] eqn:E.
  destruct (os_recv_stream _ _ _ _ _ _ Hlen E) as (H1 & H2 & H3 & H4 & _).
  destruct (Z.ltb_spec 0 r); [intros [= <- <- <- <-]; split_and!; auto; lia|].
  specialize (H4 ltac:(lia)). subst d1.
  destruct (r =? -1); [destruct (_ =? ESOCKETTIMEOUT)|destruct (r =? 0)];
    intros [= <- <- <- <-]; split_and!; auto; lia.
Qed.

Lemma store_tail_ok lb d : lbuf_wf lb -> zlen d <= buf_capacity lb - __end lb ->
  exists lb1 lb2, store_tail lb d = Some lb1 /\ _lbuf_add_data lb1 (zlen d) = Some lb2 /\ lbuf_wf lb2 /\
    same_shape lb lb2 /\ lbuf_content lb2 = lbuf_content lb ++ d.
Proof.
  intros W Hd. pose proof (zlen_nonneg d). pose proof W as W'. lb_start W'. unfold store_tail. rewrite Hm.
  destruct (mwrite_ex m (__end lb) d) as (m' & E & L); [lia..|]. cbn [mbind option_bind]. rewrite E.
  cbn [mbind option_bind].
  destruct (lbuf_add_data_ok (lb_set lb (__start lb) (__end lb) m') (zlen d))
    as (lb2 & m2 & E2 & W2 & S2 & B2 & C2 & _); [lb_wf m'|lia|simpl; lia|].
  exists (lb_set lb (__start lb) (__end lb) m'), lb2. split_and!; try done.
  rewrite C2. cbn [__start __end lb_set] in *. simpl in B2. simplify_eq.
  replace (__end lb + zlen d - __start lb) with (__end lb - __start lb + zlen d) by lia.
  rewrite (slice_mwrite_append _ _ _ _ _ E) by lia. unfold lbuf_content. by rewrite Hm.
Qed.

(** [nd_tcpnode_read] loses and invents nothing: the bytes it adds to the
    receive buffer are the next bytes of the network stream, at most as many as
    there is space for, stored inside the buffer; it returns the number of
    buffered bytes when it added some, or when the space behind them is used up
    (then without reading). *)
Theorem tcp_read_stream nd w : lbuf_wf (recv_buffer nd) ->
  exists nd' w' ret d, nd_tcpnode_read nd w = Some (nd', w', ret) /\ lbuf_wf (recv_buffer nd') /\
    lbuf_content (recv_buffer nd') = lbuf_content (recv_buffer nd) ++ d /\
    in_stream w = d ++ in_stream w' /\
    (d <> [] -> ret = zlen (lbuf_content (recv_buffer nd'))) /\
    (0 < ret -> ret = zlen (lbuf_content (recv_buffer nd'))).
Proof.
  intros W. pose proof (wf_cap _ W) as Hcap. pose proof (wf_ptr _ W) as Hptr.
  unfold nd_tcpnode_read.
  change (recv_buffer (set_read_again nd 0)) with (recv_buffer nd).
  assert (s32 (_lbuf_datalen (recv_buffer nd)) = zlen (lbuf_content (recv_buffer nd))) as ->.
  { rewrite lbuf_datalen_eq, lbuf_content_len by done. apply wraps_small; lia. }
  destruct (_ && _) eqn:Efull.
  { exists (set_read_again (set_read_again nd 0) 1), w, (zlen (lbuf_content (recv_buffer nd))), [].
    rewrite app_nil_r. by split_and!. }
  assert (exists lb, (if _lbuf_freespace (recv_buffer nd) <=? 0 then _lbuf_move_ahead (recv_buffer nd)
    else Some (recv_buffer nd)) = Some lb /\ lbuf_wf lb /\
    lbuf_content lb = lbuf_content (recv_buffer nd)) as (lb & -> & Wl & Cl).
  { destruct (Z.leb_spec (_lbuf_freespace (recv_buffer nd)) 0); [|by exists (recv_buffer nd)].
    assert (~ lbuf_overlaps (recv_buffer nd)) as Hov.
    { unfold lbuf_overlaps. rewrite <- (lbuf_content_len _ W). lia. }
    destruct (lbuf_move_ahead_ok _ W Hov) as (lb & E & W' & _ & C & _). by exists lb. }
  cbn [mbind option_bind]. destruct (wf_cap _ Wl). destruct (wf_ptr _ Wl).
  destruct (_sys_socket_read _ w _) as [[[nd1 w1] ret] d] eqn:Er.
  apply sys_read_stream in Er as (Hst & Hlen & Hpos & Hneg & Hrb).
  2: { cbn [recv_buffer set_recv_buffer]. rewrite (lbuf_freespace_eq _ Wl). lia. }
  cbn [recv_buffer set_recv_buffer] in *. rewrite (lbuf_freespace_eq _ Wl) in *.
  destruct (Z.ltb_spec 0 ret) as [Hr|Hr].
  - specialize (Hpos Hr). subst ret. rewrite Hrb.
    destruct (store_tail_ok lb d Wl Hlen) as (lb1 & lb2 & -> & E2 & W2 & (_ & _ & Hc2) & C2).
    cbn [mbind option_bind]. rewrite E2. cbn [mbind option_bind].
    eexists _, _, _, d. split; [done|].
    assert (forall b : bool, recv_buffer (if b then set_read_again (set_recv_buffer nd1 lb2) 1
      else set_recv_buffer nd1 lb2) = lb2) as Hb by by intros [].
    rewrite Hb, C2, Cl.
    assert (s32 (_lbuf_datalen lb2) = zlen (lbuf_content (recv_buffer nd) ++ d)) as Hl.
    { rewrite <- Cl, <- C2, lbuf_datalen_eq, lbuf_content_len by done.
      destruct (wf_cap _ W2), (wf_ptr _ W2). apply wraps_small; lia. }
    by split_and!.
  - specialize (Hneg Hr). subst d. eexists _, _, _, []. split; [done|]. rewrite Hrb, Cl, app_nil_r.
    split_and!; [done|done|done|done|lia].
Qed.

(** the receive side can stall for good: when the buffered bytes reach the end
    of the receive buffer but are not a whole packet, [_tcpnode_wait_msg] never
    reads again, whatever the network holds and however often it is called:
    space at the front of the buffer is not reclaimed. *)
Theorem tcp_recv_stall nd w m h : lbuf_wf (recv_buffer nd) ->
  __end (recv_buffer nd) = buf_capacity (recv_buffer nd) ->
  ND_PACKET_HDR_SIZE <= zlen (lbuf_content (recv_buffer nd)) ->
  __buf (recv_buffer nd) = Some m -> get_hdr m (__start (recv_buffer nd)) = Some h ->
  zlen (lbuf_content (recv_buffer nd)) < nd_net_getpack_size h < ND_PACKET_SIZE ->
  _tcpnode_wait_msg nd w 0 = Some (set_read_again nd 1, w, 0) /\
  _tcpnode_wait_msg (set_read_again nd 1) w 0 = Some (set_read_again nd 1, w, 0).
Proof.
  intros W Hend Hlen Hm Hh Hp.
  assert (forall nd0, recv_buffer nd0 = recv_buffer nd ->
    _tcpnode_wait_msg nd0 w 0 = Some (set_read_again (set_read_again nd0 0) 1, w, 0)) as HH.
  { intros nd0 E0. unfold _tcpnode_wait_msg. cbn [Z.eqb negb]. unfold nd_tcpnode_read.
    change (recv_buffer (set_read_again nd0 0)) with (recv_buffer nd0).
    rewrite E0, (lbuf_freespace_eq _ W), (lbuf_datalen_eq _ W), Hend, <- Hend.
    rewrite <- (lbuf_content_len _ W). unfold ND_PACKET_HDR_SIZE, ND_PACKET_SIZE in *.
    rewrite wraps_small by lia. destruct (Z.leb_spec (__end (recv_buffer nd) - __end (recv_buffer nd)) 0); [|lia].
    destruct (Z.ltb_spec 0 (zlen (lbuf_content (recv_buffer nd)))); [|lia].
    cbn [andb mbind option_bind]. destruct (Z.leb_spec (zlen (lbuf_content (recv_buffer nd))) 0); [lia|].
    change (recv_buffer (set_read_again (set_read_again nd0 0) 1)) with (recv_buffer nd0).
    rewrite E0, (lbuf_datalen_eq _ W), <- (lbuf_content_len _ W).
    destruct (Z.ltb_spec (zlen (lbuf_content (recv_buffer nd))) 4); [lia|].
    rewrite Hm. cbn [mbind option_bind]. rewrite Hh. cbn [mbind option_bind].
    destruct (Z.leb_spec 0x10000 (nd_net_getpack_size h)); [lia|].
    by destruct (Z.leb_spec (nd_net_getpack_size h) (zlen (lbuf_content (recv_buffer nd)))); [lia|]. }
  split; [by rewrite HH|]. by rewrite HH.
Qed.

(** ** Witnesses *)

Definition demo_lbuf (s e : Z) (m : mem) : linebuf := mk_lbuf 0 (-1) ND_NETBUF_SIZE s e (Some m).
Definition demo_node (rb sb : linebuf) : nd_tcp_node :=
  mk_tcp 5 ETS_CONNECTED NDHANDLE_TCPNODE 0 0 0 1 0 true 0 false false false 0 0 0 0 0
    (mk_cryptkey 0 []) ND_DFT_DISSCONN_TIMEOUT 0 0 rb sb [].
Definition demo_net (sends : list sendres) (recvs : list recvres) : net :=
  mk_net sends recvs [] 1000 [].
Definition zero_buf : mem := zrepeat 0 ND_NETBUF_SIZE.

Lemma demo_lbuf_wf s e m : zlen m = ND_NETBUF_SIZE -> 0 <= s <= e -> e <= ND_NETBUF_SIZE ->
  lbuf_wf (demo_lbuf s e m).
Proof. intros. split; simpl; [by exists m|done|done]. Qed.

Lemma zlen_zero_buf : zlen zero_buf = ND_NETBUF_SIZE.
Proof. by apply zlen_repeat. Qed.

(** A packet of eight bytes, as it is on the wire. *)
Definition demo_pkt : mem := [0; 8; 2; 0; 1; 3; 7; 7].

Lemma demo_sendable : sendable demo_pkt.
Proof. exists (mk_hdr 2048 2 0 0 0 0). by split_and!. Qed.

Lemma demo_roomy : roomy (demo_node (demo_lbuf 0 0 zero_buf) (demo_lbuf 0 0 zero_buf)) (demo_net [SendOk 0; SendOk 3] [])
  [TSend demo_pkt 0; TFlush].
Proof.
  split; [by vm_compute|]. intros nd w ok E. split; [|done].
  assert (option_map (fun r => __end (send_buffer r.1.1) + 0 <=? lbuf_half (buf_capacity (send_buffer r.1.1)))
    (tcp_step (demo_node (demo_lbuf 0 0 zero_buf) (demo_lbuf 0 0 zero_buf)) (demo_net [SendOk 0; SendOk 3] []) (TSend demo_pkt 0)) = Some true)
    as E2 by (vm_compute; reflexivity).
  rewrite E in E2. injection E2 as E2. unfold calm. simpl op_size. lia.
Qed.
Lemma tcp_stream_witness :
  exists nd' w' acc,
    tcp_run (demo_node (demo_lbuf 0 0 zero_buf) (demo_lbuf 0 0 zero_buf)) (demo_net [SendOk 0; SendOk 3] [])
      [TSend demo_pkt 0; TFlush] = Some (nd', w', acc) /\ out_stream nd' w' = concat acc.
Proof.
  destruct (tcp_stream (demo_node (demo_lbuf 0 0 zero_buf) (demo_lbuf 0 0 zero_buf))
    (demo_net [SendOk 0; SendOk 3] []) [TSend demo_pkt 0; TFlush]) as (H1 & H2).
  - split; [apply demo_lbuf_wf; [apply zlen_zero_buf|lia|done]|reflexivity].
  - reflexivity.
  - repeat constructor. exact demo_sendable.
  - destruct H2 as (nd' & w' & acc & E); [|destruct (H1 _ _ _ E) as [_ Ho]; exists nd', w', acc; split; [exact E|exact Ho]].
    exact demo_roomy.
Defined.

(** 60000 bytes wait in the buffer; the socket takes four; a packet of 5540 bytes
    follows. *)
Definition big_pkt : mem := [0x15; 0xa4; 2; 0] ++ zrepeat 0 5536.

Lemma tcp_send_overflow_witness :
  nd_tcpnode_send (demo_node (demo_lbuf 0 0 zero_buf) (demo_lbuf 0 60000 zero_buf))
    (demo_net [SendOk 4] []) big_pkt 0 = None.
Proof.
  apply (tcp_send_overflow (demo_node (demo_lbuf 0 0 zero_buf) (demo_lbuf 0 60000 zero_buf))
    (demo_net [SendOk 4] []) 4 [] big_pkt 0).
  - split; [apply demo_lbuf_wf; [apply zlen_zero_buf|lia|done]|reflexivity].
  - reflexivity.
  - reflexivity.
  - reflexivity.
  - lia.
  - vm_compute. reflexivity.
  - exists (mk_hdr 42005 2 0 0 0 0). split; [vm_compute; reflexivity|]. split; [by vm_compute|].
    vm_compute. discriminate.
  - reflexivity.
  - vm_compute. split; [reflexivity|discriminate].
Defined.

(** 60000 bytes wait; the socket takes 20000. *)
Lemma tcp_flush_overlap_witness :
  _tcpnode_push_sendbuf (demo_node (demo_lbuf 0 0 zero_buf) (demo_lbuf 0 60000 zero_buf)) (demo_net [SendOk 20000] []) = None.
Proof.
  apply (tcp_flush_overlap (demo_node (demo_lbuf 0 0 zero_buf) (demo_lbuf 0 60000 zero_buf))
    (demo_net [SendOk 20000] []) 20000 []).
  - split; [apply demo_lbuf_wf; [apply zlen_zero_buf|lia|done]|reflexivity].
  - reflexivity.
  - reflexivity.
  - vm_compute. split; reflexivity.
  - split; [discriminate|]. split; [discriminate|reflexivity].
Defined.

Lemma tcp_read_stream_witness :
  exists nd' w' ret, nd_tcpnode_read (demo_node (demo_lbuf 0 0 zero_buf) (demo_lbuf 0 0 zero_buf))
      (demo_net [] [RecvData demo_pkt]) = Some (nd', w', ret) /\
    lbuf_content (recv_buffer nd') = demo_pkt /\ ret = 8.
Proof.
  destruct (tcp_read_stream (demo_node (demo_lbuf 0 0 zero_buf) (demo_lbuf 0 0 zero_buf))
    (demo_net [] [RecvData demo_pkt])) as (nd' & w' & ret & d & E & _).
  - apply demo_lbuf_wf; [apply zlen_zero_buf|lia|done].
  - exists nd', w', ret. split; [exact E|].
    assert (option_map (fun r => (lbuf_content (recv_buffer r.1.1), r.2))
      (nd_tcpnode_read (demo_node (demo_lbuf 0 0 zero_buf) (demo_lbuf 0 0 zero_buf))
        (demo_net [] [RecvData demo_pkt])) = Some (demo_pkt, 8)) as E2 by (vm_compute; reflexivity).
    rewrite E in E2. cbn [option_map fst snd] in E2. injection E2 as E3 E4. split; [exact E3|exact E4].
Defined.

(** A packet of 65500 bytes of which 65436 have arrived, behind 100 consumed
    bytes. *)
Definition stalled_mem : mem := zrepeat 0 100 ++ [0xff; 0xdc; 2; 0] ++ zrepeat 0 65432.
Definition stalled : nd_tcp_node :=
  demo_node (demo_lbuf 100 ND_NETBUF_SIZE stalled_mem) (demo_lbuf 0 0 zero_buf).

Lemma stalled_len : zlen (lbuf_content (recv_buffer stalled)) = 65436.
Proof. vm_compute. reflexivity. Qed.
Lemma stalled_wf : lbuf_wf (recv_buffer stalled).
Proof.
  apply demo_lbuf_wf; [|unfold ND_NETBUF_SIZE; lia|done]. vm_compute. reflexivity.
Qed.
Lemma stalled_hdr : get_hdr stalled_mem 100 = Some (mk_hdr 0xdcff 2 0 0 0 0).
Proof. vm_compute. reflexivity. Qed.

Lemma tcp_recv_stall_witness :
  _tcpnode_wait_msg stalled (demo_net [] [RecvData [1; 2; 3]]) 0 =
    Some (set_read_again stalled 1, demo_net [] [RecvData [1; 2; 3]], 0).
Proof.
  destruct (tcp_recv_stall stalled (demo_net [] [RecvData [1; 2; 3]]) stalled_mem
    (mk_hdr 0xdcff 2 0 0 0 0) stalled_wf) as [H _].
  - reflexivity.
  - rewrite stalled_len. unfold ND_PACKET_HDR_SIZE. lia.
  - reflexivity.
  - exact stalled_hdr.
  - rewrite stalled_len. split; reflexivity.
  - exact H.
Defined.
