(* ===== verification/NetUi.v ===== *)
(** * NetUi: connectors (nd_netui.c) and message framing (nd_netobj.c)

    Sending builds the wire packet (version, optional encryption, length in
    network order) and hands it to [packet_write]; receiving cuts packets off the
    receive buffer, answers system packets, and decrypts.  The state is the node
    of [TcpNode] and the network [net]; UDT nodes appear only in
    [nd_connector_valid].  Recording of traffic to files and logging are left
    out; the data handler and the packet writer are parameters, as they are
    function pointers of the node. *)

From S2P Require Import Prelude Bytes LineBuf Handle Packet TcpNode.

Definition PROTOCOL_UDT : Z := 1.
Definition NETSTAT_ESTABLISHED : Z := 0x10.
Definition EPL_NONE : Z := 0.
Definition EPL_CONNECT : Z := 1.

(** The object header of a node, for the functions of [Handle]. *)
Definition obj_of (nd : nd_tcp_node) : tag_nd_handle :=
  mk_obj 0 (node_type nd) (node_errno nd) None 1 [] (close_cbs nd).

Definition clear_err (nd : nd_tcp_node) : nd_tcp_node * Z :=
  let '(o, r) := nd_tryto_clear_err (obj_of nd) in (set_node_errno nd (myerrno o), r).

Definition nd_connector_valid (nd : nd_tcp_node) : Z :=
  if (fd nd =? 0) || negb (nd_object_check_error (obj_of nd) =? 0) then 0
  else if node_type nd =? NDHANDLE_TCPNODE then (if TCPNODE_CHECK_OK nd then 1 else 0)
  else if node_type nd =? NDHANDLE_UDPNODE then
    if protocol nd =? PROTOCOL_UDT then Z.land (status nd) NETSTAT_ESTABLISHED else 1
  else 0.

(** The guard most functions start with. *)
Definition not_usable (nd : nd_tcp_node) : nd_tcp_node * bool :=
  if nd_connector_valid nd =? 0 then (nd, true)
  else let '(nd, e) := clear_err nd in (nd, negb (e =? 0)).

(** ** Sending *)

Section Writer.
Context `{!Malloc}.

(** The [packet_write] of a connected client ([nd_connector_open] installs it). *)
Definition _tcp_connector_send (nd : nd_tcp_node) (w : net) (msg_buf : mem) (flag : Z)
    : option (nd_tcp_node * net * Z) :=
  if negb (TCPNODE_CHECK_OK nd) then Some (set_err nd NDERR_BADSOCKET, w, -1)
  else nd_tcpnode_send (set_err nd NDERR_SUCCESS) w msg_buf flag.
End Writer.

Section Connector.
Context `{!Malloc} `{!NetCipher} (crypt_set : bool).
(** [packet_write] of the node. *)
Context (packet_write : nd_tcp_node -> net -> mem -> Z -> option (nd_tcp_node * net * Z)).
(** What the stack buffer [crypt_buf] holds before the copy. *)
Context (stack : mem).
(** [_min_packet_len]. *)
Context (_min_packet_len : Z).

Definition nd_packet_encrypt (nd : nd_tcp_node) (msgbuf : mem) : option (mem * Z) :=
  nd_packet_encrypt_key crypt_set (crypt_key nd) msgbuf.
Definition nd_packet_decrypt (nd : nd_tcp_node) (msgbuf : mem) : option (mem * Z) :=
  nd_packet_decrypt_key crypt_set (crypt_key nd) msgbuf.

Definition inc_send_times (nd : nd_tcp_node) : nd_tcp_node :=
  set_send_pack_times nd (s32 (send_pack_times nd + 1)).
Definition inc_recv_times (nd : nd_tcp_node) : nd_tcp_node :=
  set_recv_pack_times nd (s32 (recv_pack_times nd + 1)).

(** Also returns the caller's buffer, which is modified. *)
Definition nd_connector_send (nd : nd_tcp_node) (w : net) (msg_buf : mem) (flag : Z)
    : option (nd_tcp_node * net * mem * Z) :=
  let '(nd, bad) := not_usable nd in
  if (bad : bool) then Some (nd, w, msg_buf, -1)
  else
    h ← get_hdr msg_buf 0;
    msg_buf ← put_hdr msg_buf 0 (set_version h NDNETMSG_VERSION);
    if negb (Z.land flag ESF_ENCRYPT =? 0) && (h_encrypt h =? 0) then
      d ← mread msg_buf 0 (nd_pack_len h);
      crypt_buf ← mwrite stack 0 d;
      '(crypt_buf, _) ← nd_packet_encrypt nd crypt_buf;
      let nd := inc_send_times nd in
      crypt_buf ← nd_packet_hton crypt_buf 0;
      '(nd, w, ret) ← packet_write nd w crypt_buf flag;
      Some (nd, w, msg_buf, ret)
    else
      let nd := inc_send_times nd in
      wire ← nd_packet_hton msg_buf 0;
      '(nd, w, ret) ← packet_write nd w wire flag;
      msg_buf ← nd_packet_ntoh wire 0;
      Some (nd, w, msg_buf, ret).

Definition nd_connector_send_stream (nd : nd_tcp_node) (w : net) (data : mem) (len flag : Z)
    : option (nd_tcp_node * net * Z) :=
  let '(nd, bad) := not_usable nd in
  if (bad : bool) then Some (nd, w, -1) else nd_tcpnode_stream_send nd w data len flag.

Definition nd_connector_raw_write (nd : nd_tcp_node) (w : net) (data : mem) (size : Z)
    : option (nd_tcp_node * net * Z) :=
  d ← mread data 0 size; Some (_sys_socket_write nd w d).

(** ** System packets *)

(** [pack] is the packet at [off] of the block [m], which is changed in place. *)
Definition nd_net_sysmsg_hander (nd : nd_tcp_node) (w : net) (m : mem) (off : Z)
    : option (nd_tcp_node * net * mem * Z) :=
  cksum ← load_u16 m (off + 6);
  m ← nd_packet_ntoh m off;
  m ← store_u16 m (off + 6) 0;
  h ← get_hdr m off;
  ck ← nd_checksum m off (h_length h);
  m ← store_u16 m (off + 6) ck;
  if negb (cksum =? ck) then Some (set_err nd NDERR_BADPACKET, w, m, -1)
  else
    msgid ← load_u16 m (off + 4);
    if msgid =? ERSV_ALIVE_ID then
      if negb (h_length h =? SYSRESV_PACK_SIZE) || negb (h_stuff_len h =? 5)
      then Some (set_err nd NDERR_BADPACKET, w, m, -1)
      else
        alive ← nd_make_alive_pack (zrepeat 0 SYSRESV_PACK_SIZE);
        '(nd, w, _, _) ← nd_connector_send nd w alive ESF_URGENCY;
        Some (nd, w, m, 0)
    else if msgid =? ERSV_VERSION_ERROR then Some (set_err nd NDERR_VERSION, w, m, -1)
    else Some (nd, w, m, 0).

(** The receive buffer's block, changed through a pointer into it. *)
Definition set_recv_mem (nd : nd_tcp_node) (m : mem) : nd_tcp_node :=
  let lb := recv_buffer nd in set_recv_buffer nd (lb_set lb (__start lb) (__end lb) m).

(** ** Fetching a message *)

(** From the label [RE_FETCH] on.  [msgbuf = None] is NULL. *)
Fixpoint fetch_loop (fuel : nat) (nd : nd_tcp_node) (w : net) (msgbuf : option mem)
    : option (nd_tcp_node * net * option mem * Z) :=
  match fuel with
  | O => None
  | S fuel =>
      let pbuf := recv_buffer nd in
      let data_len := s32 (_lbuf_datalen pbuf) in
      if data_len <? ND_PACKET_HDR_SIZE then Some (nd, w, msgbuf, 0)
      else
        m ← __buf pbuf;
        tmp_hdr ← get_hdr m (__start pbuf);
        let valid_len := nd_net_getpack_size tmp_hdr in
        if (ND_PACKET_SIZE <? valid_len) || (valid_len <? _min_packet_len)
        then Some (set_err nd NDERR_BADPACKET, w, msgbuf, -1)
        else if data_len <? valid_len then Some (nd, w, msgbuf, 0)
        else if user_define_packet nd then
          let nd := inc_recv_times nd in
          dst ← msgbuf;
          '(lb, dst, _) ← _lbuf_read (recv_buffer nd) dst valid_len EBUF_SPECIFIED;
          Some (set_recv_buffer nd lb, w, Some dst, valid_len)
        else if negb (h_sys tmp_hdr =? 0) then
          '(nd, w, m, r) ← nd_net_sysmsg_hander nd w m (__start pbuf);
          let nd := set_recv_mem nd m in
          if r =? -1 then Some (nd, w, msgbuf, -1)
          else
            lb ← _lbuf_sub_data (recv_buffer nd) valid_len;
            fetch_loop fuel (set_recv_buffer nd lb) w msgbuf
        else match msgbuf with
        | Some dst =>
            '(lb, dst, _) ← _lbuf_read pbuf dst valid_len EBUF_SPECIFIED;
            let nd := set_recv_buffer nd lb in
            dst ← nd_packet_ntoh dst 0;
            h ← get_hdr dst 0;
            if negb (h_encrypt h =? 0) then
              '(dst, new_len) ← nd_packet_decrypt nd dst;
              if new_len =? 0 then Some (set_err nd NDERR_BADPACKET, w, Some dst, -1)
              else
                h ← get_hdr dst 0;
                dst ← put_hdr dst 0 (set_length h (u16 new_len));
                Some (inc_recv_times (set_is_crypt_packet nd 1), w, Some dst, new_len)
            else Some (inc_recv_times (set_is_crypt_packet nd 0), w, Some dst, valid_len)
        | None => Some (inc_recv_times nd, w, None, valid_len)
        end
  end.

(** Each round consumes a packet of at least [_min_packet_len] bytes. *)
Definition __net_fetch_msg (nd : nd_tcp_node) (w : net) (msgbuf : option mem)
    : option (nd_tcp_node * net * option mem * Z) :=
  if nd_connector_valid nd =? 0 then Some (nd, w, msgbuf, -1)
  else fetch_loop (S (Z.to_nat (_lbuf_datalen (recv_buffer nd)))) nd w msgbuf.
Definition nd_net_fetch_msg := __net_fetch_msg.

(** ** Handling what was received *)

(** [data_entry]: the effect of the node's data handler on a packet (a block and
    its length), and its result. *)
Context (data_entry : nd_tcp_node -> net -> mem -> Z -> option (nd_tcp_node * net * Z)).

(** The [while] loop; [pack_buf] is a static buffer. *)
Fixpoint handle_loop (fuel : nat) (nd : nd_tcp_node) (w : net) (pack_buf : mem) (ret : Z)
    : option (nd_tcp_node * net * Z) :=
  match fuel with
  | O => None
  | S fuel =>
      '(nd, w, msg, read_len) ← nd_net_fetch_msg nd w (Some pack_buf);
      pack_buf ← msg;
      if 0 <? read_len then
        h ← get_hdr pack_buf 0;
        if negb (read_len =? h_length h) then Some (nd, w, -1)
        else
          '(nd, w, r) ← data_entry nd w pack_buf read_len;
          if r =? -1 then Some (nd, w, -1)
          else
            let ret := ret + r in
            if node_errno nd =? NDERR_USER_BREAK
            then Some (set_err nd NDERR_SUCCESS, w, ret)
            else
              pack_buf ← nd_hdr_init pack_buf 0;
              handle_loop fuel nd w pack_buf ret
      else Some (nd, w, if read_len =? -1 then -1 else ret)
  end.

Definition handle_recv_data (fuel : nat) (nd : nd_tcp_node) (w : net) (pack_buf : mem)
    : option (nd_tcp_node * net * Z) :=
  let '(nd, e) := clear_err nd in
  if negb (e =? 0) then Some (nd, w, -1)
  else if _lbuf_datalen (recv_buffer nd) =? 0 then
    lb ← _lbuf_reset (recv_buffer nd); Some (set_recv_buffer nd lb, w, 0)
  else if user_def_data_hook nd then
    let data_len := _lbuf_datalen (recv_buffer nd) in
    d ← ndlbuf_data (recv_buffer nd) data_len;
    '(nd, w, ret) ← data_entry nd w d data_len;
    if 0 <? ret then
      lb ← _lbuf_sub_data (recv_buffer nd) ret; Some (set_recv_buffer nd lb, w, ret)
    else Some (nd, w, ret)
  else
    pack_buf ← nd_hdr_init pack_buf 0;
    handle_loop fuel nd w pack_buf 0.

(** [update]: [nd_netobj_update], the node's [update_entry]. *)
Context (update : nd_tcp_node -> net -> option (nd_tcp_node * net * Z)).

(** From the label [RE_READ] on. *)
Fixpoint update_loop (fuel hfuel : nat) (nd : nd_tcp_node) (w : net) (pack_buf : mem)
    (timeout ret : Z) : option (nd_tcp_node * net * Z) :=
  match fuel with
  | O => None
  | S fuel =>
      '(nd, w, read_len) ← _tcpnode_wait_msg nd w timeout;
      if read_len =? -1 then Some (nd, w, -1)
      else if read_len =? 0 then
        '(nd, w, r) ← update nd w;
        Some (nd, w, if r =? -1 then -1 else ret)
      else
        let ret := ret + read_len in
        '(nd, w, r) ← handle_recv_data hfuel nd w pack_buf;
        if r =? -1 then Some (nd, w, -1)
        else if negb (read_again nd =? 0) then update_loop fuel hfuel nd w pack_buf timeout ret
        else '(nd, w, _) ← update nd w; Some (nd, w, ret)
  end.

Definition nd_connector_update (fuel hfuel : nat) (nd : nd_tcp_node) (w : net) (pack_buf : mem)
    (timeout : Z) : option (nd_tcp_node * net * Z) :=
  let '(nd, bad) := not_usable nd in
  if (bad : bool) then Some (nd, w, -1)
  else update_loop fuel hfuel nd w pack_buf timeout 0.

(** From the label [TCP_REWAIT] on: the time left shrinks in each round. *)
Fixpoint rewait_loop (fuel : nat) (nd : nd_tcp_node) (w : net) (msgbuf : option mem) (tmout : Z)
    : option (nd_tcp_node * net * option mem * Z) :=
  match fuel with
  | O => None
  | S fuel =>
      let waittime := if 1000 <? tmout then 1000 else tmout in
      '(nd, w, ret) ← _tcpnode_wait_msg nd w waittime;
      if ret <=? 0 then
        if node_errno nd =? NDERR_WOULD_BLOCK then
          '(nd, w, r) ← update nd w;
          if r =? -1 then Some (nd, w, msgbuf, -1)
          else
            let tmout := u32 (tmout - waittime) in
            if 0 <? s32 tmout then rewait_loop fuel nd w msgbuf tmout
            else Some (nd, w, msgbuf, ret)
        else Some (nd, w, msgbuf, ret)
      else nd_net_fetch_msg nd w msgbuf
  end.

Definition nd_connector_waitmsg (nd : nd_tcp_node) (w : net) (msgbuf : option mem) (tmout : Z)
    : option (nd_tcp_node * net * option mem * Z) :=
  let '(nd, bad) := not_usable nd in
  if (bad : bool) then Some (nd, w, msgbuf, -1)
  else
    '(nd, w, msgbuf, ret) ← nd_net_fetch_msg nd w msgbuf;
    if 0 <? ret then Some (nd, w, msgbuf, ret)
    else rewait_loop (S (S (Z.to_nat (tmout / 1000)))) nd w msgbuf tmout.

Definition nd_connector_handled_data (nd : nd_tcp_node) (size : Z) : option (nd_tcp_node * Z) :=
  lb ← _lbuf_sub_data (recv_buffer nd) size; Some (set_recv_buffer nd lb, 0).

(** [msg_entry]: the node's message handler. *)
Context (msg_entry : nd_tcp_node -> net -> mem -> option (nd_tcp_node * net * Z)).

Definition _packet_handler (nd : nd_tcp_node) (w : net) (msg : mem)
    : option (nd_tcp_node * net * Z) :=
  h ← get_hdr msg 0;
  if negb (h_sys h =? 0) then
    '(nd, w, _, r) ← nd_net_sysmsg_hander nd w msg 0;
    Some (nd, w, if r =? -1 then -1 else nd_pack_len h)
  else msg_entry nd w msg.

(** [data = None] is NULL. *)
Definition nd_dft_packet_handler (nd : nd_tcp_node) (w : net) (data : option mem) (data_len : Z)
    : option (nd_tcp_node * net * Z) :=
  match data with
  | None => Some (nd, w, 0)
  | Some data => if data_len =? 0 then Some (nd, w, 0) else _packet_handler nd w data
  end.
End Connector.

(** ** Opening and closing (the branch of TCP nodes) *)

Section Life.
Context `{!Malloc}.

Definition nd_connector_reset (nd : nd_tcp_node) (w : net)
    : option (nd_tcp_node * list destroy_cb) :=
  if node_type nd =? NDHANDLE_TCPNODE then nd_tcpnode_reset nd w else Some (nd, []).

(** [sock]: what connecting the socket returned. *)
Definition nd_connector_open (nd : nd_tcp_node) (w : net) (sock : Z)
    : option (nd_tcp_node * list destroy_cb * Z) :=
  '(nd, ran) ← nd_connector_reset nd w;
  if node_type nd =? NDHANDLE_TCPNODE then
    '(nd, ret) ← nd_tcpnode_connect nd w sock;
    Some (if ret =? -1 then set_err nd NDERR_OPENFILE else set_node_level nd (wrapu 6 EPL_CONNECT),
          ran, ret)
  else Some (nd, ran, -1).

(** The data handler is told with a NULL packet; [closing] is its effect. *)
Definition nd_connector_close (closing : nd_tcp_node -> nd_tcp_node) (nd : nd_tcp_node) (flag : Z)
    : nd_tcp_node * list destroy_cb * Z :=
  let nd := set_node_level nd (wrapu 6 EPL_NONE) in
  if node_type nd =? NDHANDLE_TCPNODE then
    if negb (status nd =? ETS_DEAD) then
      let nd := closing nd in
      let '(nd, _) := nd_tcpnode_close nd flag in
      let '(nd, ran) := on_destroy nd 1 in
      (nd, ran, 0)
    else (nd, [], 0)
  else (nd, [], -1).

Definition nd_reconnectex (closing : nd_tcp_node -> nd_tcp_node) (nd : nd_tcp_node) (w : net)
    (sock : Z) : option (nd_tcp_node * Z) :=
  let starttime := start_time nd in
  let '(nd, _, _) := nd_connector_close closing nd 0 in
  '(nd, _, ret) ← nd_connector_open nd w sock;
  Some (if ret =? 0 then set_err (set_start_time nd starttime) NDERR_SUCCESS else nd, ret).
End Life.

(** Each of the four words of a key in the other byte order. *)
Definition htonl (x : Z) : Z := le_combine (rev (le_split 4 x)).
Definition nd_teaKeyToHostorder (key : list Z) : list Z := map htonl key.
Definition nd_teaKeyToNetorder (key : list Z) : list Z := map htonl key.

(** ** Sending and receiving fit together *)

Lemma not_usable_key nd nd' : not_usable nd = (nd', false) ->
  crypt_key nd' = crypt_key nd /\ send_buffer nd' = send_buffer nd /\ status nd' = status nd.
Proof.
  unfold not_usable. destruct (_ =? 0); [done|]. unfold clear_err.
  destruct (nd_tryto_clear_err (obj_of nd)) as [o r]. by intros [= <- _].
Qed.

(** The header at the front of the receive buffer. *)
Lemma recv_get_hdr lb h rest : lbuf_wf lb -> wf_hdr h -> lbuf_content lb = enc_hdr h ++ rest ->
  exists m, __buf lb = Some m /\ get_hdr m (__start lb) = Some h.
Proof.
  intros W Wh HC. pose proof (lbuf_content_len lb W) as HL. rewrite HC, zlen_app, zlen_enc_hdr in HL.
  pose proof (zlen_nonneg rest). unfold ND_PACKET_HDR_SIZE in *. unfold lbuf_content in HC. lb_start W.
  exists m. split; [done|]. rewrite Hm in HC. unfold get_hdr, ND_PACKET_HDR_SIZE.
  rewrite mread_ok by lia. cbn [mbind option_bind].
  assert (slice (__start lb) 4 m = slice 0 4 (slice (__start lb) (__end lb - __start lb) m)) as ->.
  { rewrite slice_slice by lia. by rewrite Z.add_0_r. }
  rewrite HC, slice_app_l, slice_all by (done || lia). by rewrite dec_enc_hdr.
Qed.

Section RoundTrip.
Context `{!Malloc} `{!NetCipher}.
Context (pw : nd_tcp_node -> net -> mem -> Z -> option (nd_tcp_node * net * Z)).
Context (stack : mem) (Hstack : zlen stack = ND_PACKET_SIZE).
Context (minlen : Z) (Hmin : minlen <= ND_USERMSG_HDRLEN).

(** A receiver with [wire ++ rest] in its buffer. *)
Definition receives (rcv : nd_tcp_node) (key : nd_cryptkey) (wire rest : list Z) : Prop :=
  nd_connector_valid rcv <> 0 /\ user_define_packet rcv = false /\ crypt_key rcv = key /\
  lbuf_wf (recv_buffer rcv) /\ lbuf_content (recv_buffer rcv) = wire ++ rest.

(** The end of a fetch: [dst] holds a packet of [valid_len] bytes as it was received. *)
Definition fetched (nd : nd_tcp_node) (w : net) (dst : mem) (valid_len : Z) : option (nd_tcp_node * net * option mem * Z) :=
  h ← get_hdr dst 0;
  if negb (h_encrypt h =? 0) then
    '(dst, new_len) ← nd_packet_decrypt true nd dst;
    if new_len =? 0 then Some (set_err nd NDERR_BADPACKET, w, Some dst, -1)
    else
      h ← get_hdr dst 0;
      dst ← put_hdr dst 0 (set_length h (u16 new_len));
      Some (inc_recv_times (set_is_crypt_packet nd 1), w, Some dst, new_len)
  else Some (inc_recv_times (set_is_crypt_packet nd 0), w, Some dst, valid_len).

(** The start of a fetch: a user packet is read from the receive buffer. *)
Lemma fetch_reads rcv w key h body rest dst : wf_hdr h -> h_sys h = 0 ->
  h_length h = 4 + zlen body -> 2 <= zlen body ->
  receives rcv key (enc_hdr (wire_hdr h) ++ body) rest ->
  h_length h <= __end (recv_buffer rcv) - __start (recv_buffer rcv) /\
  __net_fetch_msg true pw stack minlen rcv w (Some dst) =
    ('(lb, dst, _) ← _lbuf_read (recv_buffer rcv) dst (h_length h) EBUF_SPECIFIED;
     dst ← nd_packet_ntoh dst 0;
     fetched (set_recv_buffer rcv lb) w dst (h_length h)).
Proof using Hmin.
  intros Wh Hsys Hlen Hbody (Hv & Hu & Hk & W & HC).
  pose proof (lbuf_content_len _ W) as HL. rewrite HC, !zlen_app, zlen_enc_hdr in HL.
  pose proof (zlen_nonneg rest). pose proof (wh_length h Wh). destruct (wf_cap _ W), (wf_ptr _ W).
  unfold ND_PACKET_HDR_SIZE, ND_USERMSG_HDRLEN, ND_PACKET_SIZE in *.
  destruct (recv_get_hdr (recv_buffer rcv) (wire_hdr h) (body ++ rest)) as (m & Hm & Hh);
    [done|by apply wf_wire_hdr|by rewrite HC, <- app_assoc|]. split; [lia|].
  unfold __net_fetch_msg. destruct (Z.eqb_spec (nd_connector_valid rcv) 0); [done|].
  cbn [fetch_loop]. rewrite (lbuf_datalen_eq _ W). rewrite wraps_small by lia.
  unfold ND_PACKET_HDR_SIZE, ND_PACKET_SIZE.
  destruct (Z.ltb_spec (__end (recv_buffer rcv) - __start (recv_buffer rcv)) 4); [lia|].
  rewrite Hm. cbn [mbind option_bind]. rewrite Hh. cbn [mbind option_bind].
  rewrite getpack_size_wire by done.
  destruct (Z.ltb_spec 0x10000 (h_length h)); [lia|]. destruct (Z.ltb_spec (h_length h) minlen); [lia|].
  cbn [orb]. destruct (Z.ltb_spec (__end (recv_buffer rcv) - __start (recv_buffer rcv)) (h_length h)); [lia|].
  rewrite Hu. change (h_sys (wire_hdr h)) with (h_sys h). by rewrite Hsys.
Qed.

(** Unless the rest of the buffer would be moved onto itself, the packet comes to [dst]. *)
Lemma fetch_front rcv w key h body rest dst : wf_hdr h -> h_sys h = 0 ->
  h_length h = 4 + zlen body -> 2 <= zlen body -> zlen dst = ND_PACKET_SIZE ->
  receives rcv key (enc_hdr (wire_hdr h) ++ body) rest ->
  if decide (lbuf_take_overlaps (recv_buffer rcv) (h_length h)) then
    __net_fetch_msg true pw stack minlen rcv w (Some dst) = None
  else exists lb dr, lbuf_wf lb /\ lbuf_content lb = rest /\ zlen dr = ND_PACKET_SIZE - h_length h /\
    __net_fetch_msg true pw stack minlen rcv w (Some dst) =
      fetched (set_recv_buffer rcv lb) w (enc_hdr h ++ body ++ dr) (h_length h).
Proof using Hmin.
  intros Wh Hsys Hlen Hbody Hdst Hr. destruct (fetch_reads rcv w key h body rest dst Wh Hsys Hlen Hbody Hr) as [Hfit ->].
  destruct Hr as (_ & _ & _ & W & HC). pose proof (wh_length h Wh). unfold ND_PACKET_SIZE in *.
  destruct (decide _) as [Ho|Ho]; [by rewrite lbuf_read_overlap by (done || lia)|].
  destruct (lbuf_read_ok (recv_buffer rcv) dst (h_length h) EBUF_SPECIFIED W) as (lb & Er & Wl & _ & HCl & _);
    [lia|lia|done|].
  assert (slice 0 (h_length h) (lbuf_content (recv_buffer rcv)) = enc_hdr (wire_hdr h) ++ body) as Hsl.
  { rewrite HC, slice_app_l, slice_all; rewrite ?zlen_app, ?zlen_enc_hdr; unfold ND_PACKET_HDR_SIZE; lia || done. }
  exists lb, (slice (h_length h) (zlen dst - h_length h) dst).
  split_and!; [done| |rewrite zlen_slice; lia|].
  { rewrite Hsl, HC in HCl. by apply app_inv_head in HCl. }
  rewrite Er, Hsl. cbn [mbind option_bind]. rewrite <- !app_assoc.
  pose proof (packet_hton_at [] (wire_hdr h)) as Hn. cbn [app] in Hn. unfold nd_packet_ntoh.
  unfold nd_packet_hton in Hn. change (zlen (@nil Z)) with 0 in Hn.
  change ntohs with htons. rewrite Hn by (by apply wf_wire_hdr). by rewrite wire_hdr_involutive.
Qed.

(** What arrives: the packet with the flag [encrypt] cleared. *)
Definition delivered (h : packhdr) (data : list Z) (dst : mem) : Prop :=
  exists h', slice 0 (h_length h) dst = enc_hdr h' ++ data /\ wf_hdr h' /\ h_length h' = h_length h /\
    h_version h' = NDNETMSG_VERSION /\ h_sys h' = h_sys h /\ h_encrypt h' = 0.

Lemma slice_packet h data rest n : n = 4 + zlen data ->
  slice 0 n (enc_hdr h ++ data ++ rest) = enc_hdr h ++ data.
Proof.
  intros ->. rewrite app_assoc. pose proof (zlen_nonneg data). pose proof (zlen_nonneg rest).
  assert (zlen (enc_hdr h ++ data) = 4 + zlen data) as L by (rewrite zlen_app, zlen_enc_hdr; done).
  rewrite slice_app_l by lia. by apply slice_all.
Qed.

Lemma packet_of_wire h body rest : wf_hdr h -> h_length h = 4 + zlen body ->
  packet_of (enc_hdr (wire_hdr h) ++ body ++ rest) = enc_hdr (wire_hdr h) ++ body /\
  (0 < h_length h -> sendable (enc_hdr (wire_hdr h) ++ body ++ rest)).
Proof.
  intros W Hl. pose proof (wh_length h W). pose proof (zlen_nonneg rest).
  unfold packet_of, sendable. rewrite get_hdr_0 by (by apply wf_wire_hdr).
  rewrite getpack_size_wire by done. split; [by apply slice_packet|]. intros Hp.
  exists (wire_hdr h). rewrite getpack_size_wire by done. split; [done|].
  rewrite !zlen_app, zlen_enc_hdr. unfold ND_PACKET_SIZE, ND_PACKET_HDR_SIZE. lia.
Qed.

(** The encrypting branch of [nd_connector_send]. *)
Lemma send_crypt snd snd' w h data mrest flag : not_usable snd = (snd', false) ->
  wf_hdr h -> h_encrypt h = 0 -> h_stuff h = 0 -> h_length h = 4 + zlen data -> bytes data ->
  0 < zlen data -> zlen data + nc_unit <= ND_PACKET_DATA_SIZE - nc_unit ->
  Z.land flag ESF_ENCRYPT <> 0 -> is_valid_crypt (crypt_key snd) = true ->
  let h2 := set_version h NDNETMSG_VERSION in
  let hc := crypt_hdr h2 (zlen (nc_padding data)) in
  exists enc rest, zlen enc = zlen data + zlen (nc_padding data) /\
    nd_connector_send true pw stack snd w (enc_hdr h ++ data ++ mrest) flag =
      ('(nd, w, ret) ← pw (inc_send_times snd') w (enc_hdr (wire_hdr hc) ++ enc ++ rest) flag;
       Some (nd, w, enc_hdr h2 ++ data ++ mrest, ret)) /\
    forall rest', nc_decrypt (enc ++ rest') (zlen enc) (key_bytes (crypt_key snd)) =
      Some (data ++ nc_padding data ++ rest', zlen enc).
Proof using Hstack.
  intros Hus W He Hst Hl Hb Hd0 Hd Hf Hk h2 hc.
  destruct (nc_padding_spec data Hb) as (_ & Hp & _). pose proof (zlen_nonneg (nc_padding data)).
  destruct nc_unit_range as [Hu0 Hu1]. pose proof (wh_length h W).
  assert (wf_hdr h2) as W2 by (by apply wf_set_version).
  unfold ND_PACKET_DATA_SIZE, ND_PACKET_SIZE, ND_PACKET_HDR_SIZE in *.
  set (R := slice (h_length h) (zlen stack - h_length h) stack).
  assert (zlen R = 65536 - h_length h) as LR by (unfold R; rewrite zlen_slice; lia).
  destruct (encrypt_packet h2 (crypt_key snd) data (slice 0 (zlen (nc_padding data)) R)
    (slice (zlen (nc_padding data)) (zlen R - zlen (nc_padding data)) R))
    as (enc & Le & _ & E & D); [done..| | |done|].
  { unfold ND_PACKET_DATA_SIZE, ND_PACKET_SIZE, ND_PACKET_HDR_SIZE. lia. }
  { rewrite zlen_slice; lia. }
  rewrite <- (slice_take_drop (zlen (nc_padding data)) R) in E by lia.
  exists enc, (slice (zlen (nc_padding data)) (zlen R - zlen (nc_padding data)) R).
  split; [done|]. split; [|done].
  unfold nd_connector_send. rewrite Hus. rewrite get_hdr_0 by done. cbn [mbind option_bind].
  rewrite put_hdr_0. cbn [mbind option_bind]. fold h2. rewrite He.
  destruct (Z.eqb_spec (Z.land flag ESF_ENCRYPT) 0); [done|]. cbn [negb andb Z.eqb].
  unfold nd_pack_len. rewrite mread_ok, slice_packet; [|done|lia|lia|].
  2: { rewrite !zlen_app, zlen_enc_hdr. unfold ND_PACKET_HDR_SIZE. pose proof (zlen_nonneg mrest). lia. }
  cbn [mbind option_bind].
  assert (mwrite stack 0 (enc_hdr h2 ++ data) = Some (enc_hdr h2 ++ data ++ R)) as ->.
  { rewrite mwrite_ok; rewrite ?zlen_app, ?zlen_enc_hdr; unfold ND_PACKET_HDR_SIZE; [|lia|lia].
    rewrite slice_0. cbn [app]. rewrite <- app_assoc. unfold R. rewrite Hl. by rewrite Z.add_0_l. }
  cbn [mbind option_bind]. unfold nd_packet_encrypt.
  destruct (not_usable_key _ _ Hus) as (-> & _ & _). rewrite E. cbn [mbind option_bind].
  pose proof (packet_hton_at [] hc) as Hn. cbn [app] in Hn. change (zlen (@nil Z)) with 0 in Hn.
  fold hc. rewrite Hn; [done|]. apply wf_crypt_hdr; [done|lia|]. unfold h2. cbn. lia.
Qed.

Lemma send_plain snd snd' w h data mrest flag : not_usable snd = (snd', false) ->
  wf_hdr h -> Z.land flag ESF_ENCRYPT = 0 \/ h_encrypt h <> 0 ->
  let h2 := set_version h NDNETMSG_VERSION in
  nd_connector_send true pw stack snd w (enc_hdr h ++ data ++ mrest) flag =
    ('(nd, w, ret) ← pw (inc_send_times snd') w (enc_hdr (wire_hdr h2) ++ data ++ mrest) flag;
     Some (nd, w, enc_hdr h2 ++ data ++ mrest, ret)).
Proof.
  intros Hus W Hf h2. assert (wf_hdr h2) as W2 by (by apply wf_set_version).
  unfold nd_connector_send. rewrite Hus. rewrite get_hdr_0 by done. cbn [mbind option_bind].
  rewrite put_hdr_0. cbn [mbind option_bind]. fold h2.
  replace (negb (Z.land flag ESF_ENCRYPT =? 0) && (h_encrypt h =? 0)) with false by lia.
  pose proof (packet_hton_at [] h2) as Hn. cbn [app] in Hn. change (zlen (@nil Z)) with 0 in Hn.
  rewrite Hn by done. cbn [mbind option_bind].
  destruct (pw _ w _ flag) as [[[nd1 w1] ret]|]; [|done]. cbn [mbind option_bind].
  pose proof (packet_hton_at [] (wire_hdr h2)) as Hm. cbn [app] in Hm. change (zlen (@nil Z)) with 0 in Hm.
  unfold nd_packet_ntoh. change ntohs with htons. unfold nd_packet_hton in Hm.
  rewrite Hm by (by apply wf_wire_hdr). by rewrite wire_hdr_involutive.
Qed.
End RoundTrip.

(** C1: what one connector sends, the other receives: for a user packet with at least two bytes of data,
    and at most 65532 bytes less two units of the cipher (the limit for encryption), whatever the flags, [nd_connector_send] hands the writer a packet whose bytes, once they are at
    the front of a receive buffer of a connector with the same key, [nd_net_fetch_msg] turns
    back into the same message (header up to the flag and padding fields, and data),
    encrypted on the way or not, leaving exactly the bytes behind it in the buffer.  It is
    undefined exactly when these would be moved onto themselves. *)
Theorem send_fetch_roundtrip `{!Malloc, !NetCipher} pw stack minlen snd snd' w h data mrest flag :
  zlen stack = ND_PACKET_SIZE -> minlen <= ND_USERMSG_HDRLEN ->
  not_usable snd = (snd', false) -> is_valid_crypt (crypt_key snd) = true ->
  wf_hdr h -> h_sys h = 0 -> h_encrypt h = 0 -> h_stuff h = 0 -> h_length h = 4 + zlen data ->
  bytes data -> 2 <= zlen data -> zlen data + nc_unit <= ND_PACKET_DATA_SIZE - nc_unit ->
  exists blk, sendable blk /\
    nd_connector_send true pw stack snd w (enc_hdr h ++ data ++ mrest) flag =
      ('(nd, w, ret) ← pw (inc_send_times snd') w blk flag;
       Some (nd, w, enc_hdr (set_version h NDNETMSG_VERSION) ++ data ++ mrest, ret)) /\
    forall rcv w' rest dst, zlen dst = ND_PACKET_SIZE ->
      receives rcv (crypt_key snd) (packet_of blk) rest ->
      if decide (lbuf_take_overlaps (recv_buffer rcv) (zlen (packet_of blk))) then
        __net_fetch_msg true pw stack minlen rcv w' (Some dst) = None
      else exists lb dst' c, __net_fetch_msg true pw stack minlen rcv w' (Some dst) =
          Some (inc_recv_times (set_is_crypt_packet (set_recv_buffer rcv lb) c), w', Some dst',
                h_length h) /\
        lbuf_wf lb /\ lbuf_content lb = rest /\ delivered h data dst'.
Proof.
  intros Hst Hmin Hus Hk W Hsys He Hstf Hl Hb Hd0 Hd.
  set (h2 := set_version h NDNETMSG_VERSION).
  assert (wf_hdr h2) as W2 by (by apply wf_set_version).
  destruct (decide (Z.land flag ESF_ENCRYPT = 0)) as [Hf|Hf].
  - destruct (packet_of_wire h2 data mrest W2 Hl) as [Hp Hsend].
    exists (enc_hdr (wire_hdr h2) ++ data ++ mrest). split; [apply Hsend; cbn; lia|].
    split; [by apply send_plain; [..|by left]|]. rewrite Hp. intros rcv w' rest dst Hdst Hr.
    pose proof (fetch_front pw stack minlen Hmin rcv w' (crypt_key snd) h2 data rest dst W2 Hsys Hl Hd0 Hdst Hr) as HF.
    replace (zlen (enc_hdr (wire_hdr h2) ++ data)) with (h_length h2) by (rewrite zlen_app, zlen_enc_hdr; exact Hl).
    destruct (decide _); [exact HF|]. destruct HF as (lb & dr & Wl & Cl & Ldr & ->). unfold fetched.
    rewrite get_hdr_0 by done. cbn [mbind option_bind]. change (h_encrypt h2) with (h_encrypt h). rewrite He. cbn [negb Z.eqb].
    exists lb, (enc_hdr h2 ++ data ++ dr), 0. split; [done|]. split; [done|]. split; [done|].
    exists h2. split; [by apply slice_packet|]. by split_and!.
  - destruct (send_crypt pw stack Hst snd snd' w h data mrest flag) as (enc & br & Le & E & D);
      [done..|lia|done|done|done|]. fold h2 in E.
    set (pad := zlen (nc_padding data)) in *. set (hc := crypt_hdr h2 pad) in *.
    destruct (nc_padding_spec data Hb) as (_ & Hpl & _). fold pad in Hpl.
    assert (0 <= pad) by apply zlen_nonneg. destruct nc_unit_range as [Hu0 Hu1].
    unfold ND_PACKET_DATA_SIZE, ND_PACKET_SIZE, ND_PACKET_HDR_SIZE in Hd.
    assert (h_length hc = h_length h + pad) as Lc.
    { unfold hc, crypt_hdr. destruct (Z.ltb_spec 0 pad); cbn; lia. }
    assert (wf_hdr hc) as Wc by (apply wf_crypt_hdr; [done|lia|cbn; lia]).
    destruct (packet_of_wire hc enc br Wc) as [Hp Hsend]; [lia|].
    exists (enc_hdr (wire_hdr hc) ++ enc ++ br). split; [apply Hsend; lia|]. split; [exact E|].
    rewrite Hp. intros rcv w' rest dst Hdst Hr.
    assert (h_sys hc = 0) as Hsc by (unfold hc, crypt_hdr; by destruct (0 <? pad)).
    pose proof (fetch_front pw stack minlen Hmin rcv w' (crypt_key snd) hc enc rest dst Wc Hsc ltac:(lia) ltac:(lia) Hdst Hr) as HF.
    replace (zlen (enc_hdr (wire_hdr hc) ++ enc)) with (h_length hc) by (rewrite zlen_app, zlen_enc_hdr; unfold ND_PACKET_HDR_SIZE; lia).
    destruct (decide _); [exact HF|]. destruct HF as (lb & dr & Wl & Cl & Ldr & ->). unfold fetched.
    rewrite get_hdr_0 by done. cbn [mbind option_bind].
    assert (h_encrypt hc = 1) as -> by (unfold hc, crypt_hdr; by destruct (0 <? pad)).
    cbn [negb Z.eqb]. unfold nd_packet_decrypt.
    assert (crypt_key (set_recv_buffer rcv lb) = crypt_key snd) as -> by apply Hr.
    assert (zlen data + pad <= ND_PACKET_DATA_SIZE - nc_unit) as Hfit
      by (unfold ND_PACKET_DATA_SIZE, ND_PACKET_SIZE, ND_PACKET_HDR_SIZE; lia).
    pose proof (decrypt_packet h2 (crypt_key snd) data enc dr W2 He Hstf Hl Hb ltac:(lia) Hfit Hk
      Le (D dr)) as Dp. fold pad hc in Dp. rewrite Dp.
    cbn [mbind option_bind]. change (h_length h2) with (h_length h).
    destruct (Z.eqb_spec (h_length h) 0); [lia|].
    assert (wf_hdr (plain_hdr h2 pad)) as Wp by (by apply wf_set_encrypt).
    rewrite get_hdr_0 by done. cbn [mbind option_bind]. rewrite put_hdr_0. cbn [mbind option_bind].
    exists lb. eexists _, 1. split; [done|]. split; [done|]. split; [done|].
    pose proof (wh_length h W). rewrite wrapu_small by lia.
    exists (set_length (plain_hdr h2 pad) (h_length h)). split; [by apply slice_packet|].
    split; [by apply wf_set_length|]. split; [done|].
    unfold plain_hdr, crypt_hdr. by destruct (0 <? pad).
Qed.

(** ** System packets inside a buffer *)

(** The alive packet as [nd_make_alive_pack] builds it, and on the wire. *)
Definition alive_pack : list Z := [8; 0; 2; 41; 14; 251; 230; 219].
Definition alive_wire : list Z := [0; 8; 2; 41; 14; 251; 230; 219].

Section Alive.
Context `{!Malloc} `{!NetCipher}.

Lemma alive_made : nd_make_alive_pack (zrepeat 0 SYSRESV_PACK_SIZE) = Some alive_pack.
Proof. vm_compute. reflexivity. Qed.

(** a connector answers every alive packet with an alive packet: it verifies
    the checksum where the packet lies in the buffer and sends the same eight
    bytes back.  As the answer is itself an alive packet, two connectors keep
    answering each other. *)
Theorem alive_echo crypt_set pw stack nd nd' w pre rest : not_usable nd = (nd', false) ->
  nd_net_sysmsg_hander crypt_set pw stack nd w (pre ++ alive_wire ++ rest) (zlen pre) =
  ('(nd, w, ret) ← pw (inc_send_times nd') w alive_wire ESF_URGENCY;
   Some (nd, w, pre ++ alive_pack ++ rest, 0)).
Proof.
  intros Hus. unfold nd_net_sysmsg_hander.
  assert (load_u16 (pre ++ alive_wire ++ rest) (zlen pre + 6) = Some 56294) as ->.
  { unfold load_u. by rewrite mread_mid by (done || lia). }
  cbn [mbind option_bind].
  assert (nd_packet_ntoh (pre ++ alive_wire ++ rest) (zlen pre) = Some (pre ++ alive_pack ++ rest)) as ->.
  { unfold nd_packet_ntoh, get_hdr, put_hdr. rewrite <- (Z.add_0_r (zlen pre)).
    rewrite mread_mid by done. change (mread alive_wire 0 ND_PACKET_HDR_SIZE) with (Some [0; 8; 2; 41]).
    cbn [mbind option_bind]. by rewrite mwrite_mid by done. }
  cbn [mbind option_bind].
  assert (store_u16 (pre ++ alive_pack ++ rest) (zlen pre + 6) 0 =
    Some (pre ++ [8; 0; 2; 41; 14; 251; 0; 0] ++ rest)) as ->.
  { unfold store_u. by rewrite mwrite_mid by done. }
  cbn [mbind option_bind].
  assert (get_hdr (pre ++ [8; 0; 2; 41; 14; 251; 0; 0] ++ rest) (zlen pre) =
    Some (mk_hdr 8 2 1 0 0 5)) as ->.
  { unfold get_hdr. rewrite <- (Z.add_0_r (zlen pre)). by rewrite mread_mid by done. }
  cbn [mbind option_bind h_length].
  assert (nd_checksum (pre ++ [8; 0; 2; 41; 14; 251; 0; 0] ++ rest) (zlen pre) 8 = Some 56294) as ->.
  { unfold nd_checksum. change (Z.to_nat (Z.shiftr 8 1)) with 4%nat. unfold checksum_loop, load_u.
    rewrite <- (Z.add_0_r (zlen pre)) at 1.
    replace (zlen pre + 2 + 2 + 2) with (zlen pre + 6) by lia.
    replace (zlen pre + 2 + 2) with (zlen pre + 4) by lia.
    by rewrite !mread_mid by done. }
  cbn [mbind option_bind].
  assert (store_u16 (pre ++ [8; 0; 2; 41; 14; 251; 0; 0] ++ rest) (zlen pre + 6) 56294 =
    Some (pre ++ alive_pack ++ rest)) as ->.
  { unfold store_u. by rewrite mwrite_mid by done. }
  cbn [mbind option_bind negb Z.eqb Pos.eqb].
  assert (load_u16 (pre ++ alive_pack ++ rest) (zlen pre + 4) = Some ERSV_ALIVE_ID) as ->.
  { unfold load_u. by rewrite mread_mid by done. }
  cbn [mbind option_bind]. rewrite Z.eqb_refl. cbn [h_stuff_len Z.eqb Pos.eqb negb orb].
  rewrite alive_made. cbn [mbind option_bind]. unfold nd_connector_send. rewrite Hus.
  change (get_hdr alive_pack 0) with (Some (mk_hdr 8 2 1 0 0 5)). cbn [mbind option_bind].
  change (put_hdr alive_pack 0 (set_version (mk_hdr 8 2 1 0 0 5) NDNETMSG_VERSION)) with (Some alive_pack).
  cbn [mbind option_bind]. change (Z.land ESF_URGENCY ESF_ENCRYPT) with 0. cbn [Z.eqb negb andb].
  change (nd_packet_hton alive_pack 0) with (Some alive_wire). cbn [mbind option_bind].
  destruct (pw _ w alive_wire ESF_URGENCY) as [[[nd1 w1] ret]|]; [|done]. cbn [mbind option_bind].
  change (nd_packet_ntoh alive_wire 0) with (Some alive_pack). done.
Qed.
End Alive.

(** encryption is silently skipped: asked to encrypt a packet whose data is
    longer than [ND_PACKET_DATA_SIZE] less the cipher's unit, or without a key,
    [nd_connector_send] hands the writer the plain packet, with the flag
    [encrypt] clear, and reports success. *)
Theorem send_falls_back_to_plain `{!Malloc, !NetCipher} pw stack snd snd' w h data mrest flag :
  zlen stack = ND_PACKET_SIZE -> not_usable snd = (snd', false) -> wf_hdr h -> h_encrypt h = 0 ->
  h_length h = 4 + zlen data -> Z.land flag ESF_ENCRYPT <> 0 ->
  is_valid_crypt (crypt_key snd) = false \/ ND_PACKET_DATA_SIZE - nc_unit < zlen data ->
  exists rest,
    nd_connector_send true pw stack snd w (enc_hdr h ++ data ++ mrest) flag =
    ('(nd, w, ret) ← pw (inc_send_times snd') w
        (enc_hdr (wire_hdr (set_version h NDNETMSG_VERSION)) ++ data ++ rest) flag;
     Some (nd, w, enc_hdr (set_version h NDNETMSG_VERSION) ++ data ++ mrest, ret)).
Proof.
  intros Hstack Hus W He Hl Hf Hk. set (h2 := set_version h NDNETMSG_VERSION).
  assert (wf_hdr h2) as W2 by (by apply wf_set_version). pose proof (wh_length h W).
  unfold ND_PACKET_SIZE in *. exists (slice (h_length h) (zlen stack - h_length h) stack).
  unfold nd_connector_send. rewrite Hus. rewrite get_hdr_0 by done. cbn [mbind option_bind].
  rewrite put_hdr_0. cbn [mbind option_bind]. fold h2. rewrite He.
  destruct (Z.eqb_spec (Z.land flag ESF_ENCRYPT) 0); [done|]. cbn [negb andb Z.eqb].
  unfold nd_pack_len. rewrite mread_ok, slice_packet; [|done|lia|lia|].
  2: { rewrite !zlen_app, zlen_enc_hdr. unfold ND_PACKET_HDR_SIZE. pose proof (zlen_nonneg mrest). lia. }
  cbn [mbind option_bind]. set (R := slice (h_length h) (zlen stack - h_length h) stack).
  assert (mwrite stack 0 (enc_hdr h2 ++ data) = Some (enc_hdr h2 ++ data ++ R)) as ->.
  { rewrite mwrite_ok; rewrite ?zlen_app, ?zlen_enc_hdr; unfold ND_PACKET_HDR_SIZE; [|lia|lia].
    rewrite slice_0. cbn [app]. rewrite <- app_assoc. unfold R. rewrite Hl. by rewrite Z.add_0_l. }
  cbn [mbind option_bind]. unfold nd_packet_encrypt. destruct (not_usable_key _ _ Hus) as (-> & _ & _).
  assert (nd_packet_encrypt_key true (crypt_key snd) (enc_hdr h2 ++ data ++ R) =
    Some (enc_hdr h2 ++ data ++ R, 0)) as ->.
  { unfold nd_packet_encrypt_key. rewrite get_hdr_0 by done. cbn [mbind option_bind].
    unfold nd_pack_len. change (h_length h2) with (h_length h).
    destruct (_ || _) eqn:Eg; [done|]. destruct Hk as [Hk|Hk]; [by rewrite Hk|].
    unfold _crypt_unit_len, ND_PACKET_HDR_SIZE in Eg. lia. }
  cbn [mbind option_bind].
  pose proof (packet_hton_at [] h2) as Hn. cbn [app] in Hn. change (zlen (@nil Z)) with 0 in Hn.
  by rewrite Hn.
Qed.

(** ** Witnesses *)

Definition demo_key : nd_cryptkey :=
  mk_cryptkey 16 [1; 2; 3; 4; 5; 6; 7; 8; 9; 10; 11; 12; 13; 14; 15; 16].
Definition demo_sender : nd_tcp_node :=
  set_crypt_key (demo_node (demo_lbuf 0 0 zero_buf) (demo_lbuf 0 0 zero_buf)) demo_key.
Definition demo_pw (nd : nd_tcp_node) (w : net) (m : mem) (f : Z) : option (nd_tcp_node * net * Z) :=
  Some (nd, w, 0).
Definition demo_hdr : packhdr := mk_hdr 10 2 0 0 0 0.
Definition demo_data : list Z := [1; 3; 5; 6; 7; 8].

(** A connector with [wire] in its receive buffer. *)
Definition demo_receiver (wire : list Z) : nd_tcp_node :=
  set_crypt_key (demo_node
    (demo_lbuf 0 (zlen wire) (wire ++ zrepeat 0 (ND_NETBUF_SIZE - zlen wire)))
    (demo_lbuf 0 0 zero_buf)) demo_key.

Lemma demo_receives wire : zlen wire <= ND_NETBUF_SIZE ->
  receives (demo_receiver wire) demo_key wire [].
Proof.
  intros Hw. pose proof (zlen_nonneg wire).
  assert (zlen (wire ++ zrepeat 0 (ND_NETBUF_SIZE - zlen wire)) = ND_NETBUF_SIZE).
  { rewrite zlen_app, zlen_repeat; lia. }
  split; [done|]. split; [done|]. split; [done|]. split; [by apply demo_lbuf_wf; [|lia|]|].
  rewrite app_nil_r. unfold lbuf_content. simpl. rewrite Z.sub_0_r, slice_app_l by lia.
  by apply slice_all.
Qed.

Lemma demo_usable : not_usable demo_sender = (demo_sender, false).
Proof. reflexivity. Qed.

Lemma demo_wf_hdr : wf_hdr demo_hdr.
Proof. split; simpl; lia. Qed.
Lemma demo_bytes_ok : bytes demo_data.
Proof. repeat constructor; unfold is_byte; lia. Qed.

Lemma send_fetch_roundtrip_witness :
  exists blk rcv dst', sendable blk /\
    nd_connector_send true demo_pw zero_buf demo_sender (demo_net [] []) (enc_hdr demo_hdr ++ demo_data ++ [])
      ESF_ENCRYPT =
      Some (inc_send_times demo_sender, demo_net [] [],
        enc_hdr (set_version demo_hdr NDNETMSG_VERSION) ++ demo_data ++ [], 0) /\
    __net_fetch_msg true demo_pw zero_buf 6 (demo_receiver (packet_of blk)) (demo_net [] []) (Some zero_buf) =
      Some (rcv, demo_net [] [], Some dst', 10) /\ delivered demo_hdr demo_data dst'.
Proof.
  destruct (send_fetch_roundtrip demo_pw zero_buf 6 demo_sender demo_sender (demo_net [] []) demo_hdr
    demo_data [] ESF_ENCRYPT) as (blk & Hs & E & F).
  - exact zlen_zero_buf.
  - unfold ND_USERMSG_HDRLEN. lia.
  - exact demo_usable.
  - reflexivity.
  - exact demo_wf_hdr.
  - reflexivity.
  - reflexivity.
  - reflexivity.
  - reflexivity.
  - exact demo_bytes_ok.
  - vm_compute. discriminate.
  - vm_compute. discriminate.
  - assert (receives (demo_receiver (packet_of blk)) demo_key (packet_of blk) []) as Hr.
    { apply demo_receives. destruct Hs as (h & Hh & H1 & H2). unfold packet_of. rewrite Hh.
      rewrite zlen_slice by lia. unfold ND_NETBUF_SIZE, ND_PACKET_SIZE in *. lia. }
    specialize (F (demo_receiver (packet_of blk)) (demo_net [] []) [] zero_buf zlen_zero_buf Hr).
    destruct (decide _) as [[_ Ho]|_]; [exfalso; pose proof (zlen_nonneg (packet_of blk)); simpl in Ho; lia|].
    destruct F as (lb & dst' & c & F2 & _ & _ & D).
    eexists blk, _, dst'. split; [exact Hs|]. split; [exact E|]. split; [exact F2|exact D].
Defined.

Lemma alive_echo_witness :
  nd_net_sysmsg_hander true demo_pw zero_buf demo_sender (demo_net [] []) ([7] ++ alive_wire ++ [9]) (zlen [7]) =
  Some (inc_send_times demo_sender, demo_net [] [], [7] ++ alive_pack ++ [9], 0).
Proof.
  rewrite (alive_echo true demo_pw zero_buf demo_sender demo_sender (demo_net [] []) [7] [9] demo_usable).
  reflexivity.
Defined.

Lemma send_falls_back_to_plain_witness :
  exists rest, nd_connector_send true (fun nd w m f => Some (nd, mk_net [] [] [] 0 m, zlen m)) zero_buf
      (set_crypt_key demo_sender (mk_cryptkey 0 [])) (demo_net [] []) (enc_hdr demo_hdr ++ demo_data ++ [])
      ESF_ENCRYPT =
    Some (inc_send_times (set_crypt_key demo_sender (mk_cryptkey 0 [])),
      mk_net [] [] [] 0 (enc_hdr (wire_hdr demo_hdr) ++ demo_data ++ rest),
      enc_hdr demo_hdr ++ demo_data ++ [],
      zlen (enc_hdr (wire_hdr demo_hdr) ++ demo_data ++ rest)).
Proof.
  destruct (send_falls_back_to_plain (fun nd w m f => Some (nd, mk_net [] [] [] 0 m, zlen m)) zero_buf
    (set_crypt_key demo_sender (mk_cryptkey 0 [])) (set_crypt_key demo_sender (mk_cryptkey 0 []))
    (demo_net [] []) demo_hdr demo_data [] ESF_ENCRYPT) as (rest & E).
  - exact zlen_zero_buf.
  - reflexivity.
  - exact demo_wf_hdr.
  - reflexivity.
  - reflexivity.
  - discriminate.
  - left. reflexivity.
  - exists rest. exact E.
Defined.
