(* ===== verification/Timer.v ===== *)
(** * Timer: the timer list of nd_timer.c

    A timer root keeps its timers in a list (a ring of [DList], here the sequence
    it represents), the number of timers and a buffer of 16 ids to delete, which
    the next [nd_timer_update] works off.  Callbacks are numbers: [run] is what
    calling one does to the root (it may add and delete timers) and its result.
    The mutex and the pool allocator have no other effect than the ones shown;
    [now] is [nd_time()]. *)

From S2P Require Import Prelude Handle.

Definition DELBUF_SIZE : Z := 16.
Definition ETT_LOOP : Z := 0.
Definition ETT_ONCE : Z := 1.
Definition ETT_DESTROY : Z := 2.

Record timer_node := mk_timer {
  timer_id : Z;
  run_type : Z;
  param : Z;
  entry : Z;
  last_time : Z;
  interval : Z
}.

Record nd_timer_root := mk_root {
  num : Z;
  start_id : Z;
  timers : list timer_node;
  del_buf : list Z
}.

Definition set_timers (r : nd_timer_root) (l : list timer_node) : nd_timer_root :=
  mk_root (num r) (start_id r) l (del_buf r).
Definition set_num (r : nd_timer_root) (n : Z) : nd_timer_root :=
  mk_root n (start_id r) (timers r) (del_buf r).
Definition set_del_buf (r : nd_timer_root) (b : list Z) : nd_timer_root :=
  mk_root (num r) (start_id r) (timers r) b.

(** [nd_compare_swap] on slot [i]: the new buffer and 1, or 0 when the slot does
    not hold [cmp]. *)
Definition nd_compare_swap (buf : list Z) (i : nat) (cmp exch : Z) : list Z * Z :=
  if bool_decide (buf !! i = Some cmp) then (<[i := exch]> buf, 1) else (buf, 0).

Definition nd_timer_create : nd_timer_root := mk_root 0 0 [] (repeat 0 (Z.to_nat DELBUF_SIZE)).

(** [func = 0] is NULL; [alloc_ok]: whether the pool has a node. *)
Definition nd_timer_add (r : nd_timer_root) (now func param interval run_type : Z) (alloc_ok : bool)
    : nd_timer_root * Z :=
  if func =? 0 then (r, 0)
  else if negb alloc_ok then (r, 0)
  else
    let id := s32 (start_id r + 1) in
    let node := mk_timer (u32 id) run_type param func now interval in
    (mk_root (s32 (num r + 1)) id (timers r ++ [node]) (del_buf r), timer_id node).

(** The [for] loop from slot [i] on: the buffer and the last [ret]. *)
Fixpoint del_loop (n : nat) (i : nat) (buf : list Z) (id ret : Z) : list Z * Z :=
  match n with
  | O => (buf, ret)
  | S n =>
      let '(buf, ret) := nd_compare_swap buf i 0 id in
      if 0 =? ret then (buf, ret) else del_loop n (S i) buf id ret
  end.

Definition nd_timer_del (r : nd_timer_root) (id : Z) : nd_timer_root * Z :=
  if 0 =? id then (r, -1)
  else
    let '(buf, ret) := del_loop (Z.to_nat DELBUF_SIZE) 0 (del_buf r) (s32 id) (-1) in
    (set_del_buf r buf, if ret =? 0 then 0 else -1).

(** The list without the first timer [id], and whether there was one. *)
Fixpoint unlink_id (l : list timer_node) (id : Z) : list timer_node * bool :=
  match l with
  | [] => ([], false)
  | node :: l =>
      if timer_id node =? id then (l, true)
      else let '(l', found) := unlink_id l id in (node :: l', found)
  end.
Definition _del_from_list (r : nd_timer_root) (id : Z) : nd_timer_root :=
  let '(l, found) := unlink_id (timers r) id in
  if found then set_num (set_timers r l) (s32 (num r - 1)) else set_timers r l.

(** Slots [i], [i + 1], ... *)
Fixpoint tryto_del_loop (n : nat) (i : nat) (r : nd_timer_root) : nd_timer_root :=
  match n with
  | O => r
  | S n =>
      let id := default 0 (del_buf r !! i) in
      let r := set_del_buf r (<[i := 0]> (del_buf r)) in
      let r := if negb (id =? 0) then _del_from_list r (u32 id) else r in
      tryto_del_loop n (S i) r
  end.
Definition tryto_del_timer (r : nd_timer_root) : nd_timer_root :=
  tryto_del_loop (Z.to_nat DELBUF_SIZE) 0 r.

Definition due (now : Z) (node : timer_node) : bool :=
  (interval node <=? u32 (now - last_time node)) || (interval node <? 10).

Section Run.
Context (run : Z -> Z -> nd_timer_root -> nd_timer_root * Z).

(** The loop over the detached list: the timers kept, the root, the number of
    calls and the ids called, in order. *)
Fixpoint update_loop (l : list timer_node) (now : Z) (r : nd_timer_root) (ret : Z)
    : list timer_node * nd_timer_root * Z * list Z :=
  match l with
  | [] => ([], r, ret, [])
  | node :: l =>
      if run_type node =? ETT_DESTROY then
        let '(kept, r, ret, ran) := update_loop l now r ret in (node :: kept, r, ret, ran)
      else if due now node then
        let '(r, run_ret) := run (entry node) (param node) r in
        let '(kept, r, ret, ran) := update_loop l now r (ret + 1) in
        (if (run_type node =? ETT_ONCE) || (-1 =? run_ret) then kept
         else mk_timer (timer_id node) (run_type node) (param node) (entry node) now (interval node)
                :: kept,
         r, ret, timer_id node :: ran)
      else
        let '(kept, r, ret, ran) := update_loop l now r ret in (node :: kept, r, ret, ran)
  end.

(** [list_join] puts the kept timers in front of those added meanwhile. *)
Definition nd_timer_update (r : nd_timer_root) (now : Z) : nd_timer_root * Z * list Z :=
  if num r <? 1 then (r, 0, [])
  else
    let r := tryto_del_timer r in
    let '(kept, r, ret, ran) := update_loop (timers r) now (set_timers r []) 0 in
    (set_timers r (kept ++ timers r), ret, ran).

(** The callbacks of type [ETT_DESTROY], in order; the root is gone afterwards. *)
Fixpoint destroy_loop (l : list timer_node) (r : nd_timer_root) : nd_timer_root * list Z :=
  match l with
  | [] => (r, [])
  | node :: l =>
      if run_type node =? ETT_DESTROY then
        let '(r, _) := run (entry node) (param node) r in
        let '(r, ran) := destroy_loop l r in (r, timer_id node :: ran)
      else destroy_loop l r
  end.
Definition nd_timer_destroy (r : nd_timer_root) : list Z :=
  (destroy_loop (timers r) (set_timers r [])).2.
End Run.

(** ** Properties *)

Definition empty_buf : list Z := repeat 0 (Z.to_nat DELBUF_SIZE).

Lemma del_loop_empty id : id <> 0 ->
  del_loop (Z.to_nat DELBUF_SIZE) 0 empty_buf id (-1) = (repeat id (Z.to_nat DELBUF_SIZE), 1).
Proof. intros _. reflexivity. Qed.

Lemma del_loop_full id id2 n : id <> 0 ->
  del_loop (S n) 0 (repeat id (Z.to_nat DELBUF_SIZE)) id2 (-1) = (repeat id (Z.to_nat DELBUF_SIZE), 0).
Proof.
  intros Hid. cbn [del_loop]. unfold nd_compare_swap. rewrite bool_decide_false; [done|].
  change (repeat id (Z.to_nat DELBUF_SIZE) !! 0%nat) with (Some id). intros [= E]. lia.
Qed.

Lemma unlink_id_not l id : (forall n, n ∈ l -> timer_id n <> id) -> unlink_id l id = (l, false).
Proof.
  induction l as [|n l IH]; intros H; [done|]. cbn [unlink_id].
  destruct (Z.eqb_spec (timer_id n) id) as [E|E]; [exfalso; apply (H n); [set_solver|done]|].
  rewrite IH; [done|]. intros m Hm. apply H. set_solver.
Qed.

Lemma unlink_id_mid l1 node l2 : (forall n, n ∈ l1 -> timer_id n <> timer_id node) ->
  unlink_id (l1 ++ node :: l2) (timer_id node) = (l1 ++ l2, true).
Proof.
  induction l1 as [|n l1 IH]; intros H; cbn [app unlink_id]; [by rewrite Z.eqb_refl|].
  destruct (Z.eqb_spec (timer_id n) (timer_id node)) as [E|E]; [exfalso; apply (H n); [set_solver|done]|].
  rewrite IH; [done|]. intros m Hm. apply H. set_solver.
Qed.

(** Working off slots that hold only an id that is not in the list any more. *)
Lemma tryto_del_absent n : forall i r id, (forall t, t ∈ timers r -> timer_id t <> u32 id) ->
  (forall j, (i <= j)%nat -> del_buf r !! j = Some id \/ del_buf r !! j = None \/ del_buf r !! j = Some 0) ->
  exists b, tryto_del_loop n i r = set_del_buf r b.
Proof.
  induction n as [|n IH]; intros i r id Hno Hb.
  { exists (del_buf r). by destruct r. }
  cbn [tryto_del_loop].
  assert (forall r', timers r' = timers r -> del_buf r' = <[i := 0]> (del_buf r) ->
    exists b, tryto_del_loop n (S i) r' = set_del_buf r' b) as HI.
  { intros r' Ht Hd. apply (IH (S i) r' id); [by rewrite Ht|]. intros j Hj. rewrite Hd.
    rewrite list_lookup_insert_ne by lia. apply Hb. lia. }
  assert (exists b, tryto_del_loop n (S i) (set_del_buf r (<[i:=0]> (del_buf r))) = set_del_buf r b) as HJ.
  { destruct (HI (set_del_buf r (<[i:=0]> (del_buf r))) eq_refl eq_refl) as (b & ->). by exists b. }
  assert (default 0 (del_buf r !! i) = id \/ default 0 (del_buf r !! i) = 0) as Hd.
  { destruct (Hb i (Nat.le_refl _)) as [E|[E|E]]; rewrite E; auto. }
  destruct (Z.eqb_spec (default 0 (del_buf r !! i)) 0) as [E0|E0]; cbn [negb]; [done|].
  destruct Hd as [->|Hd]; [|lia].
  unfold _del_from_list. cbn [timers set_del_buf]. by rewrite unlink_id_not.
Qed.

Lemma tryto_del_loop_S n i r id : del_buf r !! i = Some id -> id <> 0 ->
  tryto_del_loop (S n) i r =
    tryto_del_loop n (S i) (_del_from_list (set_del_buf r (<[i := 0]> (del_buf r))) (u32 id)).
Proof.
  intros E Hid. simpl. rewrite E. simpl. destruct (Z.eqb_spec id 0); [lia|]. done.
Qed.

(** A buffer full of the id of one timer removes that timer and nothing else. *)
Lemma tryto_del_all r l1 t1 l2 : timers r = l1 ++ t1 :: l2 -> NoDup (map timer_id (timers r)) ->
  0 < timer_id t1 < 2 ^ 31 -> del_buf r = repeat (timer_id t1) (Z.to_nat DELBUF_SIZE) ->
  timers (tryto_del_timer r) = l1 ++ l2.
Proof.
  intros Hl Hnd Hid Hb. unfold tryto_del_timer. change (Z.to_nat DELBUF_SIZE) with (S 15).
  rewrite tryto_del_loop_S with (id := timer_id t1); [|by rewrite Hb|lia].
  rewrite (wrapu_small 32) by lia. rewrite Hl, map_app in Hnd.
  apply NoDup_app in Hnd as (_ & Hn2 & Hn3). apply NoDup_cons in Hn3 as [Hn3 _].
  unfold _del_from_list. cbn [timers set_del_buf]. rewrite Hl, unlink_id_mid.
  2: { intros n1 Hin E. apply (Hn2 (timer_id t1)); [|apply list_elem_of_here].
       rewrite <- E. by apply (list_elem_of_fmap_2 timer_id). }
  set (r1 := set_num _ _). assert (timers r1 = l1 ++ l2) as Ht by done.
  assert (del_buf r1 = <[0%nat := 0]> (repeat (timer_id t1) 16)) as Hb1
    by (cbn [del_buf r1 set_num set_timers set_del_buf]; by rewrite Hb).
  clearbody r1. destruct (tryto_del_absent 15 1 r1 (timer_id t1)) as (b & E).
  - rewrite Ht. intros t Hin E. rewrite wrapu_small in E by lia.
    apply elem_of_app in Hin as [Hin|Hin]; apply (list_elem_of_fmap_2 timer_id) in Hin;
      rewrite E in Hin; [|by apply Hn3]. apply (Hn2 (timer_id t1)); [done|apply list_elem_of_here].
  - intros j Hj. rewrite Hb1, list_lookup_insert_ne by lia.
    destruct (decide (j < 16)%nat) as [Hj2|Hj2].
    + left. apply (lookup_replicate_2 16); lia.
    + right. left. apply lookup_ge_None. rewrite repeat_length. lia.
  - rewrite E. exact Ht.
Qed.

(** [nd_timer_del] has the test of its compare-and-swap inverted: on an empty
    buffer it stores the id in all 16 slots and reports failure; a second call
    before the next update reports success but registers nothing.  The update
    then removes the first timer only. *)
Theorem timer_del_inverted r l1 t1 l2 id2 : del_buf r = empty_buf ->
  timers r = l1 ++ t1 :: l2 -> NoDup (map timer_id (timers r)) ->
  0 < timer_id t1 < 2 ^ 31 -> id2 <> 0 ->
  exists r1, nd_timer_del r (timer_id t1) = (r1, -1) /\ nd_timer_del r1 id2 = (r1, 0) /\
    timers (tryto_del_timer r1) = l1 ++ l2.
Proof.
  intros Hb Hl Hnd Hid Hid2. unfold nd_timer_del at 1. destruct (Z.eqb_spec 0 (timer_id t1)); [lia|].
  rewrite wraps_small by lia. rewrite Hb, del_loop_empty by lia.
  eexists. split; [done|]. split; [|by eapply tryto_del_all].
  unfold nd_timer_del. destruct (Z.eqb_spec 0 id2); [lia|]. cbn [del_buf set_del_buf].
  change (Z.to_nat DELBUF_SIZE) with (S 15) at 1. rewrite del_loop_full by lia. done.
Qed.

Definition wit_root : nd_timer_root :=
  mk_root 2 2 [mk_timer 1 ETT_LOOP 7 1 0 50; mk_timer 2 ETT_ONCE 8 2 0 5] empty_buf.

Lemma timer_del_inverted_witness :
  exists r1, nd_timer_del wit_root 1 = (r1, -1) /\ nd_timer_del r1 2 = (r1, 0) /\
    timers (tryto_del_timer r1) = [mk_timer 2 ETT_ONCE 8 2 0 5].
Proof.
  apply (timer_del_inverted wit_root [] (mk_timer 1 ETT_LOOP 7 1 0 50) [mk_timer 2 ETT_ONCE 8 2 0 5] 2).
  - reflexivity.
  - reflexivity.
  - repeat constructor; set_solver.
  - split; reflexivity.
  - discriminate.
Defined.

Lemma tryto_del_none n : forall i r, (forall j, del_buf r !! j = Some 0 \/ del_buf r !! j = None) ->
  tryto_del_loop n i r = r.
Proof.
  induction n as [|n IH]; intros i r Hb; [done|]. simpl.
  assert (default 0 (del_buf r !! i) = 0) as Hd by (destruct (Hb i) as [E|E]; by rewrite E).
  assert (<[i := 0]> (del_buf r) = del_buf r) as Hi.
  { destruct (Hb i) as [E|E]; [by apply list_insert_id|].
    apply list_insert_ge. by apply lookup_ge_None_1. }
  rewrite Hd, Hi. simpl. replace (set_del_buf r (del_buf r)) with r by (by destruct r). by apply IH.
Qed.

(** What one update makes of a timer, given the results of the callbacks. *)
Definition runs_now (now : Z) (t : timer_node) : bool :=
  negb (run_type t =? ETT_DESTROY) && due now t.
Definition after_update (res : Z -> Z -> Z) (now : Z) (t : timer_node) : option timer_node :=
  if runs_now now t then
    if (run_type t =? ETT_ONCE) || (-1 =? res (entry t) (param t)) then None
    else Some (mk_timer (timer_id t) (run_type t) (param t) (entry t) now (interval t))
  else Some t.

Lemma s32_add_s32 a b : s32 (s32 a + b) = s32 (a + b).
Proof.
  unfold wraps. change (32 - 1) with 31.
  replace ((a + 2 ^ 31) mod 2 ^ 32 - 2 ^ 31 + b + 2 ^ 31) with ((a + 2 ^ 31) mod 2 ^ 32 + b) by lia.
  rewrite Zplus_mod_idemp_l. do 2 f_equal. lia.
Qed.
Lemma s32_s32 a : s32 (s32 a) = s32 a.
Proof. pose proof (s32_add_s32 a 0) as Q. by rewrite !Z.add_0_r in Q. Qed.

Lemma omap_cons' {A B} (f : A -> option B) x l :
  omap f (x :: l) = match f x with Some y => y :: omap f l | None => omap f l end.
Proof. done. Qed.

Section Update.
Context (run : Z -> Z -> nd_timer_root -> nd_timer_root * Z) (res : Z -> Z -> Z).
Hypothesis run_res : forall e p r, (run e p r).2 = res e p.
Hypothesis run_adds : forall e p r, exists new, timers (run e p r).1 = timers r ++ new /\
  (num r = s32 (num r) -> num (run e p r).1 = s32 (num r + Z.of_nat (length new))).

Lemma update_loop_exact now l : forall r ret, exists r' added,
  update_loop run l now r ret =
    (omap (after_update res now) l, r', ret + Z.of_nat (length (filter (runs_now now) l)),
     map timer_id (filter (runs_now now) l)) /\
  timers r' = timers r ++ added /\
  (num r = s32 (num r) -> num r' = s32 (num r + Z.of_nat (length added))).
Proof.
  induction l as [|t l IH]; intros r ret.
  { exists r, []. simpl. rewrite !Z.add_0_r, app_nil_r. done. }
  assert (forall r0, after_update res now t = Some t -> runs_now now t = false ->
    (let '(kept, r, ret, ran) := update_loop run l now r0 ret in (t :: kept, r, ret, ran)) =
      update_loop run (t :: l) now r0 ret) as Hskip.
  { intros r0 _ H. unfold runs_now in H. simpl. destruct (run_type t =? ETT_DESTROY); [done|].
    simpl in H. by rewrite H. }
  destruct (runs_now now t) eqn:Hr.
  - pose proof Hr as Hr'. unfold runs_now in Hr'. apply andb_prop in Hr' as [H1 H2].
    apply negb_true_iff in H1.
    destruct (run_adds (entry t) (param t) r) as (new & Ht & Hn).
    pose proof (run_res (entry t) (param t) r) as Hres.
    destruct (run (entry t) (param t) r) as [r1 rr] eqn:Erun. simpl in Ht, Hn, Hres.
    destruct (IH r1 (ret + 1)) as (r' & added & E & Ht' & Hn').
    exists r', (new ++ added). cbn [update_loop]. rewrite H1, H2, Erun, E, omap_cons'.
    rewrite filter_cons_True by (by rewrite Hr). cbn [map length].
    assert (after_update res now t = if (run_type t =? ETT_ONCE) || (-1 =? rr) then None
      else Some (mk_timer (timer_id t) (run_type t) (param t) (entry t) now (interval t))) as Ha
      by (unfold after_update; by rewrite Hr, Hres). rewrite Ha. split; [|split].
    + replace (ret + 1 + Z.of_nat (length (filter (runs_now now) l)))
        with (ret + Z.of_nat (S (length (filter (runs_now now) l)))) by lia.
      by destruct (_ || _).
    + by rewrite Ht', Ht, app_assoc.
    + intros Hr0. rewrite Hn' by (rewrite Hn by done; symmetry; apply s32_s32).
      rewrite Hn by done. rewrite s32_add_s32, length_app. f_equal. lia.
  - assert (after_update res now t = Some t) as Ha by (unfold after_update; by rewrite Hr).
    rewrite <- Hskip by done. destruct (IH r ret) as (r' & added & E & Ht & Hn).
    exists r', added. rewrite E, omap_cons', filter_cons_False by (rewrite Hr; tauto). by rewrite Ha.
Qed.
End Update.

(** C33: with nothing to delete, [nd_timer_update] calls, once each and in list order,
    exactly the timers that are due and not of type [ETT_DESTROY]; one-shot timers and
    those whose callback returns -1 are dropped, the others keep their place with the
    new time, and timers that callbacks add go behind them and are not run.  The count
    [num] grows by the additions only: it is never reduced for the timers dropped. *)
Theorem timer_update_exact run res r now : del_buf r = empty_buf -> 1 <= num r < 2 ^ 31 ->
  (forall e p r, (run e p r).2 = res e p) ->
  (forall e p r, exists new, timers (run e p r).1 = timers r ++ new /\
    (num r = s32 (num r) -> num (run e p r).1 = s32 (num r + Z.of_nat (length new)))) ->
  exists r' added,
    nd_timer_update run r now =
      (r', Z.of_nat (length (filter (runs_now now) (timers r))),
       map timer_id (filter (runs_now now) (timers r))) /\
    timers r' = omap (after_update res now) (timers r) ++ added /\
    num r' = s32 (num r + Z.of_nat (length added)).
Proof.
  intros Hb Hn Hres Hadd. unfold nd_timer_update. destruct (Z.ltb_spec (num r) 1); [lia|].
  unfold tryto_del_timer. rewrite tryto_del_none.
  2: { intros j. rewrite Hb. destruct (decide (j < 16)%nat).
       - left. apply (lookup_replicate_2 16); lia.
       - right. apply lookup_ge_None. unfold empty_buf. rewrite repeat_length.
         change (Z.to_nat DELBUF_SIZE) with 16%nat. lia. }
  destruct (update_loop_exact run res Hres Hadd now (timers r) (set_timers r []) 0)
    as (r' & added & E & Ht & Hn'). rewrite E.
  exists (set_timers r' (omap (after_update res now) (timers r) ++ timers r')), added.
  split; [done|]. simpl in Ht. split; [simpl; by rewrite Ht|].
  simpl. apply Hn'. simpl. symmetry. apply wraps_small; lia.
Qed.

(** Callback 1 adds a timer, every other one asks to be dropped. *)
Definition wit_run (e p : Z) (r : nd_timer_root) : nd_timer_root * Z :=
  if e =? 1 then ((nd_timer_add r 100 2 p 30 ETT_LOOP true).1, 0) else (r, -1).

Lemma wit_run_adds e p r : exists new, timers (wit_run e p r).1 = timers r ++ new /\
  (num r = s32 (num r) -> num (wit_run e p r).1 = s32 (num r + Z.of_nat (length new))).
Proof.
  unfold wit_run. destruct (e =? 1); simpl; [by eexists [_]|].
  exists []. by rewrite app_nil_r, Z.add_0_r.
Qed.

Lemma timer_update_exact_witness : exists r' added,
  nd_timer_update wit_run wit_root 100 = (r', 2, [1; 2]) /\
  timers r' = mk_timer 1 ETT_LOOP 7 1 100 50 :: added /\ num r' = s32 (2 + Z.of_nat (length added)).
Proof.
  destruct (timer_update_exact wit_run (fun e _ => if e =? 1 then 0 else -1) wit_root 100)
    as (r' & added & H1 & H2 & H3).
  - reflexivity.
  - split; [discriminate | reflexivity].
  - intros e p r. unfold wit_run. destruct (e =? 1); reflexivity.
  - exact wit_run_adds.
  - exists r', added. split; [exact H1|]. split; [exact H2 | exact H3].
Defined.
