(* ===== verification/Float32.v ===== *)
(** * Float32: the [float] of the virtual machine (nd_vm)

    [vm_value] is [float].  A value is its 32 bit pattern, because the machine
    copies values byte by byte and keeps addresses in the same four bytes
    ([*((vm_adddress * ) &val)]); arithmetic decodes the pattern to the
    [spec_float] of the Standard Library (IEEE 754, rounding to nearest even),
    computes with precision 24 and encodes the result.  A result that is not a
    number is the quiet NaN 0x7fc00000.  [double] is precision 53. *)

From S2P Require Import Prelude Bytes.
From Stdlib Require Export SpecFloat.
From Stdlib Require Import Strings.String.

Abbreviation vm_value := Z.

Definition f32_of_bits (b : vm_value) : spec_float :=
  let s := Z.testbit b 31 in
  let e := Z.land (Z.shiftr b 23) 255 in
  let m := Z.land b (2 ^ 23 - 1) in
  if e =? 0 then
    match m with Zpos p => S754_finite s p (-149) | _ => S754_zero s end
  else if e =? 255 then (if m =? 0 then S754_infinity s else S754_nan)
  else S754_finite s (Z.to_pos (m + 2 ^ 23)) (e - 150).

Definition sign_bit (s : bool) : Z := if s then 2 ^ 31 else 0.

Definition bits_of_f32 (f : spec_float) : vm_value :=
  u32 match f with
      | S754_zero s => sign_bit s
      | S754_infinity s => sign_bit s + 255 * 2 ^ 23
      | S754_nan => 0x7fc00000
      | S754_finite s m e =>
          sign_bit s +
          (if Zpos m <? 2 ^ 23 then Zpos m else (e + 150) * 2 ^ 23 + (Zpos m - 2 ^ 23))
      end.

(** Conversions between [float] and [double]. *)
Definition round_to (prec emax : Z) (f : spec_float) : spec_float :=
  match f with S754_finite s m e => binary_round prec emax s m e | _ => f end.
Definition f2d : spec_float -> spec_float := round_to 53 1024.
Definition d2f : spec_float -> spec_float := round_to 24 128.

Definition fop (op : spec_float -> spec_float -> spec_float) (a b : vm_value) : vm_value :=
  bits_of_f32 (op (f32_of_bits a) (f32_of_bits b)).
Definition fadd : vm_value -> vm_value -> vm_value := fop (SFadd 24 128).
Definition fsub : vm_value -> vm_value -> vm_value := fop (SFsub 24 128).
Definition fmul : vm_value -> vm_value -> vm_value := fop (SFmul 24 128).
Definition fdiv : vm_value -> vm_value -> vm_value := fop (SFdiv 24 128).

Definition flt (a b : vm_value) : bool := SFltb (f32_of_bits a) (f32_of_bits b).
Definition fle (a b : vm_value) : bool := SFleb (f32_of_bits a) (f32_of_bits b).
Definition feq (a b : vm_value) : bool := SFeqb (f32_of_bits a) (f32_of_bits b).

(** [(vm_value) i] for an [int]. *)
Definition i2f (i : Z) : vm_value := bits_of_f32 (binary_normalize 24 128 i 0 false).

(** The value cut to an integer, for a finite value. *)
Definition trunc (s : bool) (m : positive) (e : Z) : Z :=
  let q := if 0 <=? e then Zpos m * 2 ^ e else Zpos m / 2 ^ (- e) in
  if s then - q else q.

(** [(int) v]: undefined when the value is not an [int]. *)
Definition f2i (v : vm_value) : option Z :=
  match f32_of_bits v with
  | S754_zero _ => Some 0
  | S754_finite s m e =>
      let i := trunc s m e in
      if (- 2 ^ 31 <=? i) && (i <? 2 ^ 31) then Some i else None
  | _ => None
  end.

(** [ceil] and [floor]; a result 0 has the sign of the argument. *)
Definition round_int (prec emax : Z) (up : bool) (f : spec_float) : spec_float :=
  match f with
  | S754_finite s m e =>
      if 0 <=? e then f
      else
        let d := 2 ^ (- e) in
        let v := if s then - Zpos m else Zpos m in
        binary_normalize prec emax (if up then - ((- v) / d) else v / d) 0 s
  | _ => f
  end.
Definition fceil (v : vm_value) : vm_value :=
  bits_of_f32 (d2f (round_int 53 1024 true (f2d (f32_of_bits v)))).
Definition ffloor (v : vm_value) : vm_value :=
  bits_of_f32 (d2f (round_int 53 1024 false (f2d (f32_of_bits v)))).
Definition fsqrt (v : vm_value) : vm_value :=
  bits_of_f32 (d2f (SFsqrt 53 1024 (f2d (f32_of_bits v)))).

(** [atof] on what [ndstr_read_numerals] collects: a sign, digits and one dot.
    [m] and [k]: the digits read so far and how many of them follow the dot. *)
Fixpoint dec_loop (s : list Z) (m k : Z) (dot : bool) : Z * Z :=
  match s with
  | [] => (m, k)
  | c :: s =>
      if (48 <=? c) && (c <=? 57) then dec_loop s (m * 10 + (c - 48)) (if dot then k + 1 else k) dot
      else if (c =? 46) && negb dot then dec_loop s m k true
      else (m, k)
  end.

(** [m / 10 ^ k] rounded to a [double]. *)
Definition dec_round (s : bool) (m k : Z) : spec_float :=
  if m =? 0 then S754_zero s
  else let '(mz, ez, lz) := SFdiv_core_binary 53 1024 m 0 (10 ^ k) 0 in
       binary_round_aux 53 1024 s mz ez lz.

Definition atof (s : list Z) : spec_float :=
  let '(neg, s) := match s with
                   | c :: t => if c =? 45 then (true, t) else if c =? 43 then (false, t) else (false, s)
                   | [] => (false, s)
                   end in
  let '(m, k) := dec_loop s 0 0 false in dec_round neg m k.

(** [atoi] on C strings: white space, a sign, digits.  As in glibc, where it is
    [(int) strtol]: a number that is not a [long] is the nearest one. *)
Fixpoint atoi_loop (s : list Z) (m : Z) : Z :=
  match s with
  | [] => m
  | c :: s => if (48 <=? c) && (c <=? 57) then atoi_loop s (m * 10 + (c - 48)) else m
  end.
Fixpoint skip_space (s : list Z) : list Z :=
  match s with
  | c :: t => if (c =? 32) || ((9 <=? c) && (c <=? 13)) then skip_space t else s
  | [] => []
  end.
Definition atoi (s : list Z) : Z :=
  let s := skip_space s in
  let i := match s with
           | c :: t => if c =? 45 then - atoi_loop t 0
                       else if c =? 43 then atoi_loop t 0 else atoi_loop s 0
           | [] => 0
           end in
  s32 (Z.max (- 2 ^ 63) (Z.min (2 ^ 63 - 1) i)).

(** ** The encoding *)

Definition is_nan_bits (b : vm_value) : bool :=
  match f32_of_bits b with S754_nan => true | _ => false end.

Lemma bits_range f : 0 <= bits_of_f32 f < 2 ^ 32.
Proof. apply (wrapu_range 32). lia. Qed.
#[export] Hint Resolve bits_range : zlist.

(** The three fields of a pattern. *)
Lemma f32_fields b : 0 <= b < 2 ^ 32 ->
  exists s e m, 0 <= e < 256 /\ 0 <= m < 2 ^ 23 /\ b = sign_bit s + e * 2 ^ 23 + m /\
    Z.testbit b 31 = s /\ Z.land (Z.shiftr b 23) 255 = e /\ Z.land b (2 ^ 23 - 1) = m.
Proof.
  intros Hb. exists (Z.testbit b 31), (b / 2 ^ 23 mod 2 ^ 8), (b mod 2 ^ 23).
  change (2 ^ 23 - 1) with (Z.ones 23). change 255 with (Z.ones 8).
  rewrite !Z.land_ones, Z.shiftr_div_pow2 by lia.
  rewrite Z.testbit_odd, Z.shiftr_div_pow2 by lia.
  assert (0 <= b / 2 ^ 31 < 2) as H31 by (Z.to_euclidean_division_equations; lia).
  split_and!; try (Z.to_euclidean_division_equations; lia); [|done].
  unfold sign_bit. destruct (Z.odd (b / 2 ^ 31)) eqn:E.
  - assert (b / 2 ^ 31 = 1).
    { assert (b / 2 ^ 31 <> 0) by (intros E0; rewrite E0 in E; discriminate). lia. }
    Z.to_euclidean_division_equations; lia.
  - assert (b / 2 ^ 31 = 0).
    { assert (b / 2 ^ 31 <> 1) by (intros E0; rewrite E0 in E; discriminate). lia. }
    Z.to_euclidean_division_equations; lia.
Qed.

Lemma f32_of_fields s e m : 0 <= e < 256 -> 0 <= m < 2 ^ 23 ->
  f32_of_bits (sign_bit s + e * 2 ^ 23 + m) =
    if e =? 0 then match m with Zpos p => S754_finite s p (-149) | _ => S754_zero s end
    else if e =? 255 then (if m =? 0 then S754_infinity s else S754_nan)
    else S754_finite s (Z.to_pos (m + 2 ^ 23)) (e - 150).
Proof.
  intros He Hm. destruct (f32_fields (sign_bit s + e * 2 ^ 23 + m)) as (s' & e' & m' & ? & ? & E & E1 & E2 & E3).
  { unfold sign_bit. destruct s; lia. }
  unfold f32_of_bits. rewrite E1, E2, E3.
  assert (s' = s /\ e' = e /\ m' = m) as (-> & -> & ->); [|done].
  unfold sign_bit in E. destruct s, s'; split_and!; try done; lia.
Qed.

(** Decoding and encoding give the pattern back, NaNs apart. *)
Lemma bits_of_f32_of_bits b : 0 <= b < 2 ^ 32 -> is_nan_bits b = false ->
  bits_of_f32 (f32_of_bits b) = b.
Proof.
  intros Hb. destruct (f32_fields b Hb) as (s & e & m & He & Hm & -> & _).
  unfold is_nan_bits. rewrite f32_of_fields by done. unfold bits_of_f32.
  destruct (Z.eqb_spec e 0) as [->|He0].
  - intros _. destruct m as [|p|p]; [| |lia].
    + rewrite wrapu_small; [lia|]. unfold sign_bit; destruct s; lia.
    + destruct (Z.ltb_spec (Z.pos p) (2 ^ 23)); [|lia].
      rewrite wrapu_small; [lia|]. unfold sign_bit; destruct s; lia.
  - destruct (Z.eqb_spec e 255) as [->|He1].
    + destruct (Z.eqb_spec m 0) as [->|]; [|discriminate]. intros _.
      rewrite wrapu_small; [lia|]. unfold sign_bit; destruct s; lia.
    + intros _. rewrite Z2Pos.id by lia. destruct (Z.ltb_spec (m + 2 ^ 23) (2 ^ 23)); [lia|].
      rewrite wrapu_small; [lia|]. unfold sign_bit; destruct s; lia.
Qed.

Lemma digits2_pos_log2 p : Zpos (digits2_pos p) = Z.log2 (Zpos p) + 1.
Proof.
  induction p as [p IH|p IH|]; cbn [digits2_pos]; [| |done]; rewrite Pos2Z.inj_succ, IH.
  - rewrite Pos2Z.inj_xI, Z.log2_succ_double by lia. lia.
  - rewrite Pos2Z.inj_xO, Z.log2_double by lia. lia.
Qed.

(** Encoding and decoding give a valid value back. *)
Lemma f32_of_bits_of_f32 f : valid_binary 24 128 f = true -> f32_of_bits (bits_of_f32 f) = f.
Proof.
  intros Hv. unfold bits_of_f32. destruct f as [s|s| |s m e].
  - by destruct s.
  - by destruct s.
  - done.
  - cbn [valid_binary] in Hv. unfold bounded in Hv. apply andb_prop in Hv as [Hc He].
    apply Z.leb_le in He. unfold canonical_mantissa in Hc. apply Z.eqb_eq in Hc.
    unfold fexp, emin in Hc. rewrite digits2_pos_log2 in Hc.
    pose proof (Z.log2_spec (Zpos m) ltac:(lia)) as [Hlo Hhi].
    destruct (Z.ltb_spec (Z.pos m) (2 ^ 23)) as [Hm|Hm].
    + assert (Z.log2 (Z.pos m) < 23) by (apply Z.log2_lt_pow2; lia).
      rewrite wrapu_small by (unfold sign_bit; destruct s; lia).
      replace (sign_bit s + Z.pos m) with (sign_bit s + 0 * 2 ^ 23 + Z.pos m) by lia.
      rewrite f32_of_fields by lia. simpl. f_equal. lia.
    + assert (23 <= Z.log2 (Z.pos m)) by (apply Z.log2_le_pow2; lia).
      assert (Z.log2 (Z.pos m) = 23) as Hl by lia. rewrite Hl in Hhi. change (2 ^ Z.succ 23) with (2 ^ 24) in Hhi.
      rewrite wrapu_small by (unfold sign_bit; destruct s; lia).
      rewrite Z.add_assoc, f32_of_fields by lia.
      destruct (Z.eqb_spec (e + 150) 0); [lia|]. destruct (Z.eqb_spec (e + 150) 255); [lia|].
      replace (Z.pos m - 2 ^ 23 + 2 ^ 23) with (Z.pos m) by lia. simpl. f_equal. lia.
Qed.

Example ex_ten : atof (chars "10.5"%string) = S754_finite false 5910974510923776 (-49). Proof. reflexivity. Qed.
Example ex_add : fadd (i2f 2) (i2f 3) = i2f 5. Proof. reflexivity. Qed.
Example ex_div : fdiv (i2f 1) (i2f 3) = 0x3eaaaaab. Proof. reflexivity. Qed.
Example ex_tenth : bits_of_f32 (d2f (atof (chars "0.1"%string))) = 0x3dcccccd. Proof. reflexivity. Qed.
Example ex_ceil : fceil (bits_of_f32 (d2f (atof (chars "-0.5"%string)))) = 0x80000000. Proof. reflexivity. Qed.
Example ex_sqrt : fsqrt (i2f 2) = 0x3fb504f3. Proof. reflexivity. Qed.
