(* ===== verification/Vm.v ===== *)
(** * Vm: the virtual machine of nd_vm.c

    A machine with two registers, a stack of 32 values and a memory that is an
    array or a function of the host ([mm_func]).  Instructions are one byte, and
    for each operand one byte that says what it is and, for an immediate, an
    address or a stack index, its four bytes.  Values are bit patterns
    ([Float32]).  The stack pointer is its offset in [stack]; an access outside
    the stack or outside the memory block is [None].  [rands] is what the next
    calls of [rand] return.  Echoing instructions and results is left out. *)

From S2P Require Import Prelude Bytes Float32.

Definition VM_STACK_SIZE : Z := 32.

(** [enum e_vm_op] *)
Definition EOP_NOP : Z := 0.
Definition EOP_MOV : Z := 1.
Definition EOP_ADD : Z := 2.
Definition EOP_SUB : Z := 3.
Definition EOP_MUL : Z := 4.
Definition EOP_DIV : Z := 5.
Definition EOP_PUSH : Z := 6.
Definition EOP_POP : Z := 7.
Definition EOP_MAX : Z := 8.
Definition EOP_MIN : Z := 9.
Definition EOP_RAND : Z := 10.
Definition EOP_LTZERO : Z := 11.
Definition EOP_PROB : Z := 12.
Definition EOP_SQRT : Z := 13.
Definition EOP_ROUND : Z := 14.
Definition EOP_CEIL : Z := 15.
Definition EOP_FLOOR : Z := 16.
Definition EOP_NUMBERS : Z := 17.

(** [enum e_data_src] *)
Definition EDS_NONE : Z := 0.
Definition EDS_IMMEDIATE : Z := 1.
Definition EDS_ADDRESS : Z := 2.
Definition EDS_STACK : Z := 3.
Definition EDS_REG1 : Z := 4.
Definition EDS_REG2 : Z := 5.

(** [mm_func addr]: the index in [memory] of the cell it returns a pointer to. *)
Record vm_cpu := mk_vm {
  reg1 : vm_value;
  reg2 : vm_value;
  sp : Z;
  mm_func : option (Z -> option Z);
  memory : list vm_value;
  mem_size : Z;
  stack : list vm_value;
  rands : list Z
}.

Definition set_reg1 (vm : vm_cpu) (v : vm_value) : vm_cpu :=
  mk_vm v (reg2 vm) (sp vm) (mm_func vm) (memory vm) (mem_size vm) (stack vm) (rands vm).
Definition set_reg2 (vm : vm_cpu) (v : vm_value) : vm_cpu :=
  mk_vm (reg1 vm) v (sp vm) (mm_func vm) (memory vm) (mem_size vm) (stack vm) (rands vm).
Definition set_sp (vm : vm_cpu) (s : Z) : vm_cpu :=
  mk_vm (reg1 vm) (reg2 vm) s (mm_func vm) (memory vm) (mem_size vm) (stack vm) (rands vm).
Definition set_mm (vm : vm_cpu) (f : option (Z -> option Z)) (n : Z) : vm_cpu :=
  mk_vm (reg1 vm) (reg2 vm) (sp vm) f (memory vm) n (stack vm) (rands vm).
Definition set_memory (vm : vm_cpu) (m : list vm_value) : vm_cpu :=
  mk_vm (reg1 vm) (reg2 vm) (sp vm) (mm_func vm) m (mem_size vm) (stack vm) (rands vm).
Definition set_stack (vm : vm_cpu) (s : list vm_value) : vm_cpu :=
  mk_vm (reg1 vm) (reg2 vm) (sp vm) (mm_func vm) (memory vm) (mem_size vm) s (rands vm).
Definition set_rands (vm : vm_cpu) (r : list Z) : vm_cpu :=
  mk_vm (reg1 vm) (reg2 vm) (sp vm) (mm_func vm) (memory vm) (mem_size vm) (stack vm) r.

Record vm_instruction_node := mk_ins {
  ins : Z;
  ds1 : Z;
  ds2 : Z;
  val1 : vm_value;
  val2 : vm_value
}.
Definition zero_node : vm_instruction_node := mk_ins 0 0 0 0 0.

(** [rs]: what [rand] will return, for the whole run. *)
Definition vm_machine_init (mm_addr : list vm_value) (mm_size : Z) (rs : list Z) : vm_cpu :=
  mk_vm 0 0 0 None mm_addr mm_size (zrepeat 0 VM_STACK_SIZE) rs.

Definition vm_set_mmfunc (vm : vm_cpu) (f : option (Z -> option Z)) (mm_size : Z) : vm_cpu :=
  match f with Some _ => set_mm vm f mm_size | None => vm end.

Create HintDb vm.

Definition vm_return_val (vm : vm_cpu) : vm_value := reg1 vm.

(** ** Places a pointer to a value can point to *)

Inductive place :=
  | Reg1
  | Reg2
  | Stk (i : Z)
  | Cell (i : Z).

Definition load (vm : vm_cpu) (p : place) : option vm_value :=
  match p with
  | Reg1 => Some (reg1 vm)
  | Reg2 => Some (reg2 vm)
  | Stk i => mget (stack vm) i
  | Cell i => mget (memory vm) i
  end.
Definition store (vm : vm_cpu) (p : place) (v : vm_value) : option vm_cpu :=
  match p with
  | Reg1 => Some (set_reg1 vm v)
  | Reg2 => Some (set_reg2 vm v)
  | Stk i => s ← mset (stack vm) i v; Some (set_stack vm s)
  | Cell i => m ← mset (memory vm) i v; Some (set_memory vm m)
  end.

(** A pointer to the memory cell of an address; [None] is NULL. *)
Definition cell_of (vm : vm_cpu) (index : Z) : option place :=
  match mm_func vm with
  | Some f => Cell <$> f index
  | None => Some (Cell index)
  end.

Definition _get_memory (vm : vm_cpu) (index : Z) : option place :=
  if (0 <=? index) && (index <=? s32 (mem_size vm)) then cell_of vm index else None.

(** The result NULL is [None]. *)
Definition vm_ref_operand (ds : Z) (val : vm_value) (vm : vm_cpu) : option place :=
  if ds =? EDS_REG1 then Some Reg1
  else if ds =? EDS_REG2 then Some Reg2
  else if ds =? EDS_STACK then
    let index := s32 val in
    if index <? 0 then (if 0 <=? sp vm + index then Some (Stk (sp vm + index)) else None)
    else if index <? sp vm then Some (Stk index) else None
  else if ds =? EDS_ADDRESS then
    let index := s32 val in
    if (0 <=? index) && (index <? s32 (mem_size vm)) then cell_of vm index else None
  else None.

Definition vm_getvalue (ds : Z) (val : vm_value) (vm : vm_cpu) : option vm_value :=
  if ds =? EDS_IMMEDIATE then Some val
  else match vm_ref_operand ds val vm with
       | Some p => load vm p
       | None => Some 0
       end.

(** ** Executing an instruction *)

Definition get_operand_num (instruction : Z) : Z :=
  if instruction =? EOP_NOP then 0
  else if (instruction =? EOP_POP) || (instruction =? EOP_PUSH) || (instruction =? EOP_LTZERO) ||
          (instruction =? EOP_PROB) || (instruction =? EOP_SQRT) || (instruction =? EOP_ROUND) ||
          (instruction =? EOP_CEIL) || (instruction =? EOP_FLOOR) then 1
  else 2.
Definition check_no_operand (instruction : Z) : Z :=
  if (instruction =? EOP_NOP) || (instruction =? EOP_POP) then 1 else 0.
Definition check_instruction_valid (instruction : Z) : Z :=
  if instruction <? EOP_NUMBERS then 1 else 0.

(** [rand] of the C library (glibc): a number from 0 to [RAND_MAX]. *)
Definition RAND_MAX : Z := 2147483647.
Definition c_rand (vm : vm_cpu) : option (vm_cpu * Z) :=
  match rands vm with r :: rs => Some (set_rands vm rs, r) | [] => None end.

Definition vm_rand (vm : vm_cpu) (v1 v2 : vm_value) : option (vm_cpu * vm_value) :=
  range_min ← f2i v1;
  range_max ← f2i v2;
  if range_max =? range_min then Some (vm, i2f range_max)
  else
    let '(range_min, range_max) :=
      if range_max <? range_min then (range_max, range_min) else (range_min, range_max) in
    if 2 ^ 31 <=? range_max - range_min then None
    else
      '(vm, r) ← c_rand vm;
      val ← f2i (fadd (fmul (fdiv (i2f r) (i2f RAND_MAX)) (i2f (range_max - range_min)))
                      (i2f range_min));
      Some (vm, i2f val).

(** [*val1 = f ( *val1, val2)] unless [val1] is NULL. *)
Definition update (vm : vm_cpu) (p : option place) (f : vm_value -> vm_value) : option vm_cpu :=
  match p with
  | Some p => v ← load vm p; store vm p (f v)
  | None => Some vm
  end.

Definition half : vm_value := 0x3f000000.

Definition f_round (v : vm_value) : option vm_value :=
  if flt 0 v then i ← f2i (fadd v half); Some (i2f i)
  else if feq v 0 then Some 0
  else i ← f2i (fsub v half); Some (i2f i).

Definition f_sqrt (v : vm_value) : vm_value := if flt 0 v then fsqrt v else 0.
Definition f_ltzero (v : vm_value) : vm_value := if flt v 0 then i2f 1 else i2f 0.
Definition f_max (a b : vm_value) : vm_value := if flt b a then a else b.
Definition f_min (a b : vm_value) : vm_value := if flt b a then b else a.

(** [ADD] to [DIV]. *)
Definition arith_op (op : Z) (a b : vm_value) : vm_value :=
  if op =? EOP_ADD then fadd a b
  else if op =? EOP_SUB then fsub a b
  else if op =? EOP_MUL then fmul a b
  else fdiv a b.

Definition vm_run_insnode (node : vm_instruction_node) (vm : vm_cpu) : option (vm_cpu * Z) :=
  let op := ins node in
  let operand1 := vm_getvalue (ds1 node) (val1 node) vm in
  let operand2 := vm_getvalue (ds2 node) (val2 node) vm in
  let ref1 := vm_ref_operand (ds1 node) (val1 node) vm in
  if op =? EOP_NOP then Some (vm, 0)
  else if op =? EOP_MOV then
    v2 ← operand2;
    match ref1 with Some p => vm ← store vm p v2; Some (vm, 0) | None => Some (vm, 0) end
  else if op <=? EOP_DIV then
    v2 ← operand2;
    if (op =? EOP_DIV) && feq v2 0 then Some (vm, 0)
    else vm ← update vm ref1 (fun v => arith_op op v v2); Some (vm, 0)
  else if op =? EOP_PUSH then
    v ← operand1;
    s ← mset (stack vm) (sp vm) v;
    Some (set_sp (set_stack vm s) (sp vm + 1), 0)
  else if op =? EOP_POP then
    match ref1 with
    | Some p =>
        v ← mget (stack vm) (sp vm - 1);
        vm ← store (set_sp vm (sp vm - 1)) p v; Some (vm, 0)
    | None => Some (set_sp vm (sp vm - 1), 0)
    end
  else if op =? EOP_MAX then
    a ← operand1; b ← operand2; Some (set_reg1 vm (f_max a b), 0)
  else if op =? EOP_MIN then
    a ← operand1; b ← operand2; Some (set_reg1 vm (f_min a b), 0)
  else if op =? EOP_RAND then
    a ← operand1; b ← operand2;
    '(vm, v) ← vm_rand vm a b; Some (set_reg1 vm v, 0)
  else if op =? EOP_LTZERO then v ← operand1; Some (set_reg1 vm (f_ltzero v), 0)
  else if op =? EOP_PROB then
    v ← operand1;
    '(vm, vt) ← vm_rand vm (i2f 1) (i2f 100);
    Some (set_reg1 vm (if fle vt (fmul v (i2f 100)) then i2f 1 else i2f 0), 0)
  else if op =? EOP_SQRT then v ← operand1; Some (set_reg1 vm (f_sqrt v), 0)
  else if op =? EOP_ROUND then v ← operand1; r ← f_round v; Some (set_reg1 vm r, 0)
  else if op =? EOP_CEIL then v ← operand1; Some (set_reg1 vm (fceil v), 0)
  else if op =? EOP_FLOOR then v ← operand1; Some (set_reg1 vm (ffloor v), 0)
  else Some (vm, -1).

(** A run on a fresh machine whose memory is one static cell, [test_mm]; also returns
    what the cell holds afterwards. *)
Definition _vm_mm_get (addr : Z) : option Z := Some 0.
Definition vm_check_insnode (node : vm_instruction_node) (test_mm : vm_value) (rs : list Z)
    : option (bool * vm_value) :=
  let vm := vm_set_mmfunc (vm_machine_init [test_mm] 0 rs) (Some _vm_mm_get) (1024 * 1024 * 1024) in
  '(vm, r) ← vm_run_insnode node vm; Some (0 =? r, default test_mm (head (memory vm))).

(** ** The binary form *)

Definition has_value (ds : Z) : bool :=
  (ds =? EDS_IMMEDIATE) || (ds =? EDS_ADDRESS) || (ds =? EDS_STACK).

(** [if (num--) ... if (num)]: the counter of an instruction without operands is -1 at the
    second test, which is true, so [NOP] has a second operand. *)
Definition second_operand (num : Z) : bool := negb (num =? 1).

Definition operand_2buf (ds : Z) (val : vm_value) : list Z :=
  ds :: (if has_value ds then le_split 4 val else []).

(** The bytes stored; their number is the result. *)
Definition vm_instruct_2buf (node : vm_instruction_node) : list Z :=
  let num := get_operand_num (ins node) in
  [ins node] ++ (if 0 <? num then operand_2buf (ds1 node) (val1 node) else [])
             ++ (if second_operand num then operand_2buf (ds2 node) (val2 node) else []).

(** [_READ_STREAM] of one byte and of a value at offset [ip] of [code]. *)
Definition read_operand_at (code : mem) (ip : Z) (val : vm_value) : option (Z * vm_value * Z) :=
  ds ← mget code ip;
  if has_value ds then v ← load_u32 code (ip + 1); Some (ds, v, ip + 5)
  else Some (ds, val, ip + 1).

Definition vm_instruction_2node (node : vm_instruction_node) (code : mem) (ip : Z)
    : option (vm_instruction_node * Z) :=
  i ← mget code ip;
  let num := get_operand_num i in
  '(d1, v1, ip) ←
    (if 0 <? num then read_operand_at code (ip + 1) (val1 node)
     else Some (ds1 node, val1 node, ip + 1));
  '(d2, v2, ip) ←
    (if second_operand num then read_operand_at code ip (val2 node) else Some (ds2 node, val2 node, ip));
  Some (mk_ins i d1 d2 v1 v2, ip).

(** The machine, the new instruction pointer and the result. *)
Definition vm_step (vm : vm_cpu) (code : mem) (ip : Z) : option (vm_cpu * Z * Z) :=
  '(node, ip) ← vm_instruction_2node zero_node code ip;
  '(vm, r) ← vm_run_insnode node vm;
  Some (vm, ip, if r =? -1 then -1 else 0).

(** Each round reads at least one byte: the length of the code is enough fuel. *)
Fixpoint run_loop (fuel : nat) (vm : vm_cpu) (code : mem) (ip ins_end : Z)
    : option (vm_cpu * Z) :=
  if ip <? ins_end then
    match fuel with
    | O => None
    | S fuel =>
        '(vm, ip, r) ← vm_step vm code ip;
        if r =? -1 then Some (vm, -1) else run_loop fuel vm code ip ins_end
    end
  else Some (vm, 0).
Definition vm_run_cmd (vm : vm_cpu) (code : mem) (ins_size : Z) : option (vm_cpu * Z) :=
  run_loop (Z.to_nat ins_size) vm code 0 ins_size.

(** ** Encoding *)

Definition is_word (v : Z) : Prop := 0 <= v < 2 ^ 32.

Record wf_node (n : vm_instruction_node) : Prop := {
  wf_ins : is_byte (ins n);
  wf_ds : is_byte (ds1 n) /\ is_byte (ds2 n);
  wf_val : is_word (val1 n) /\ is_word (val2 n)
}.

(** What reading back [n] gives when the fields of the node are those of [n0]. *)
Definition canon_val (used : bool) (ds : Z) (val val0 : vm_value) : vm_value :=
  if used && has_value ds then val else val0.
Definition canon (n0 n : vm_instruction_node) : vm_instruction_node :=
  let num := get_operand_num (ins n) in
  mk_ins (ins n) (if 0 <? num then ds1 n else ds1 n0) (if second_operand num then ds2 n else ds2 n0)
    (canon_val (0 <? num) (ds1 n) (val1 n) (val1 n0))
    (canon_val (second_operand num) (ds2 n) (val2 n) (val2 n0)).

Lemma mget_Some m i v : mget m i = Some v <-> 0 <= i /\ m !! Z.to_nat i = Some v.
Proof.
  unfold mget. destruct (in_range i 1 (zlen m)) eqn:E.
  - apply in_range_spec in E. split; [|tauto]. intros H. split; [lia|done].
  - split; [done|]. intros [Hi H]. apply lookup_lt_Some in H.
    assert (in_range i 1 (zlen m) = true); [|congruence]. apply in_range_spec. unfold zlen. lia.
Qed.

Lemma mset_insert m i b : 0 <= i < zlen m -> mset m i b = Some (<[Z.to_nat i := b]> m).
Proof.
  intros Hi. unfold mset, mwrite. change (zlen [b]) with 1.
  rewrite (proj2 (in_range_spec i 1 (zlen m))) by lia.
  f_equal. unfold zlen in Hi. rewrite insert_take_drop by lia. unfold slice.
  change (Z.to_nat 0) with 0%nat. rewrite drop_0. f_equal. simpl. f_equal.
  replace (Z.to_nat (i + 1)) with (S (Z.to_nat i)) by lia.
  apply take_ge. rewrite length_drop. unfold zlen. lia.
Qed.

Lemma mget_app_mid pre x rest : mget (pre ++ x :: rest) (zlen pre) = Some x.
Proof.
  apply mget_Some. split; [apply zlen_nonneg|]. unfold zlen. rewrite Nat2Z.id. by apply list_lookup_middle.
Qed.

Lemma load_u32_app pre v rest : is_word v -> load_u32 (pre ++ le_split 4 v ++ rest) (zlen pre) = Some v.
Proof.
  intros Hv. unfold load_u. rewrite mread_app by (rewrite zlen_app, zlen_le_split; zlia).
  cbn [mbind option_bind]. rewrite slice_app_l by (rewrite ?zlen_le_split; lia).
  rewrite slice_all by (by rewrite zlen_le_split). by rewrite le_combine_split.
Qed.

Lemma read_operand_app pre ds v v0 rest : is_word v ->
  read_operand_at (pre ++ operand_2buf ds v ++ rest) (zlen pre) v0 =
    Some (ds, canon_val true ds v v0, zlen pre + zlen (operand_2buf ds v)).
Proof.
  intros Hv. unfold read_operand_at, operand_2buf, canon_val. cbn [app andb].
  rewrite mget_app_mid. cbn [mbind option_bind]. destruct (has_value ds).
  - change (pre ++ ds :: le_split 4 v ++ rest) with (pre ++ [ds] ++ le_split 4 v ++ rest).
    rewrite app_assoc. replace (zlen pre + 1) with (zlen (pre ++ [ds])) by (rewrite zlen_app; done).
    rewrite load_u32_app by done. cbn [mbind option_bind].
    f_equal.
  - repeat f_equal.
Qed.

(** Reading an instruction back, wherever it is in the code. *)
Lemma instruction_2node_app pre n n0 rest : wf_node n ->
  vm_instruction_2node n0 (pre ++ vm_instruct_2buf n ++ rest) (zlen pre) =
    Some (canon n0 n, zlen pre + zlen (vm_instruct_2buf n)).
Proof.
  intros [_ _ [Hv1 Hv2]]. unfold vm_instruction_2node, vm_instruct_2buf, canon.
  set (num := get_operand_num (ins n)). rewrite <- !app_assoc. cbn [app].
  rewrite mget_app_mid. cbn [mbind option_bind]. fold num.
  assert (forall r, pre ++ ins n :: r = (pre ++ [ins n]) ++ r) as Eq by (intros; by rewrite <- app_assoc).
  assert (zlen pre + 1 = zlen (pre ++ [ins n])) as Ez by (by rewrite zlen_app).
  rewrite Eq, Ez. destruct (0 <? num) eqn:E1.
  - rewrite read_operand_app by done. cbn [mbind option_bind].
    destruct (second_operand num) eqn:E2.
    + rewrite app_assoc, <- zlen_app, read_operand_app by done. cbn [mbind option_bind].
      do 2 f_equal. rewrite ?zlen_app, ?zlen_cons, ?zlen_app. change (zlen (@nil Z)) with 0. lia.
    + cbn [app mbind option_bind]. do 2 f_equal.
      rewrite ?zlen_app, ?zlen_cons, ?zlen_app. change (zlen (@nil Z)) with 0. lia.
  - cbn [mbind option_bind]. destruct (second_operand num) eqn:E2.
    + cbn [app]. rewrite read_operand_app by done. cbn [mbind option_bind]. do 2 f_equal.
      rewrite ?zlen_app, ?zlen_cons, ?zlen_app. change (zlen (@nil Z)) with 0. lia.
    + cbn [app mbind option_bind]. do 2 f_equal. rewrite ?zlen_app, ?zlen_cons. done.
Qed.

(** C28: [vm_instruction_2node] reads back, from the middle of any code, the
    instruction that [vm_instruct_2buf] wrote, with the fields the instruction does
    not use left as they were, and moves the pointer to the byte after it. *)
Theorem instr_roundtrip pre n n0 rest : wf_node n ->
  vm_instruction_2node n0 (pre ++ vm_instruct_2buf n ++ rest) (zlen pre) =
    Some (canon n0 n, zlen pre + zlen (vm_instruct_2buf n)) /\
  1 <= zlen (vm_instruct_2buf n) <= 11.
Proof.
  intros Hn. split; [by apply instruction_2node_app|].
  unfold vm_instruct_2buf, operand_2buf. rewrite !zlen_app.
  destruct (0 <? _), (second_operand _), (has_value (ds1 n)), (has_value (ds2 n)); vm_compute; split; discriminate.
Qed.

Definition wit_node : vm_instruction_node := mk_ins EOP_ADD EDS_REG1 EDS_IMMEDIATE 0 (i2f 3).
Lemma instr_roundtrip_witness :
  vm_instruction_2node zero_node [0; 1; 4; 1; 0; 0; 64; 64; 6; 4] 1 = None \/
  vm_instruction_2node zero_node [0; 2; 4; 1; 0; 0; 64; 64; 6; 4] 1 = Some (wit_node, 8).
Proof.
  right. destruct (instr_roundtrip [0] wit_node zero_node [6; 4]) as [H _]; [|exact H].
  split; vm_compute; repeat split; discriminate.
Defined.

(** ** Running code *)

(** One instruction after the other. *)
Fixpoint run_nodes (ns : list vm_instruction_node) (vm : vm_cpu) : option (vm_cpu * Z) :=
  match ns with
  | [] => Some (vm, 0)
  | n :: ns =>
      '(vm, r) ← vm_run_insnode n vm; if r =? -1 then Some (vm, -1) else run_nodes ns vm
  end.

Definition encode (ns : list vm_instruction_node) : list Z := concat (map vm_instruct_2buf ns).

Lemma ref_canon ds v v' vm : has_value ds = false -> vm_ref_operand ds v vm = vm_ref_operand ds v' vm.
Proof.
  unfold has_value, vm_ref_operand. intros H. apply orb_false_elim in H as [[H1 H2]%orb_false_elim H3].
  by rewrite H2, H3.
Qed.
Lemma getvalue_canon ds v v' vm : has_value ds = false -> vm_getvalue ds v vm = vm_getvalue ds v' vm.
Proof.
  intros H. unfold vm_getvalue. rewrite (ref_canon ds v v') by done.
  unfold has_value in H. apply orb_false_elim in H as [[-> _]%orb_false_elim _]. done.
Qed.

(** Fields that are not written do not matter. *)
Lemma run_canon n n0 vm : vm_run_insnode (canon n0 n) vm = vm_run_insnode n vm.
Proof.
  unfold canon, canon_val. set (num := get_operand_num (ins n)).
  unfold vm_run_insnode. cbn [ins ds1 ds2 val1 val2].
  assert ((0 <? num) = true -> vm_getvalue (if 0 <? num then ds1 n else ds1 n0)
    (if (0 <? num) && has_value (ds1 n) then val1 n else val1 n0) vm = vm_getvalue (ds1 n) (val1 n) vm /\
    vm_ref_operand (if 0 <? num then ds1 n else ds1 n0)
    (if (0 <? num) && has_value (ds1 n) then val1 n else val1 n0) vm = vm_ref_operand (ds1 n) (val1 n) vm) as H1.
  { intros ->. cbn [andb]. destruct (has_value (ds1 n)) eqn:E; [done|].
    by rewrite (ref_canon _ (val1 n) (val1 n0)), (getvalue_canon _ (val1 n) (val1 n0)) by done. }
  assert (second_operand num = true -> vm_getvalue (if second_operand num then ds2 n else ds2 n0)
    (if (second_operand num) && has_value (ds2 n) then val2 n else val2 n0) vm = vm_getvalue (ds2 n) (val2 n) vm) as H2.
  { intros ->. cbn [andb]. destruct (has_value (ds2 n)) eqn:E; [done|].
    by rewrite (getvalue_canon _ (val2 n) (val2 n0)) by done. }
  unfold num, get_operand_num in *. clear num.
  destruct (Z.eqb_spec (ins n) EOP_NOP) as [E|E]; [done|].
  destruct ((ins n =? EOP_POP) || _ || _ || _ || _ || _ || _ || _) eqn:E1.
  - destruct H1 as [-> ->]; [done|].
    assert (ins n = EOP_POP \/ ins n = EOP_PUSH \/ ins n = EOP_LTZERO \/ ins n = EOP_PROB \/ ins n = EOP_SQRT \/
      ins n = EOP_ROUND \/ ins n = EOP_CEIL \/ ins n = EOP_FLOOR) as HE.
    { repeat apply orb_prop in E1 as [E1|E1]; apply Z.eqb_eq in E1; tauto. }
    clear H2 E1. destruct HE as [->|[->|[->|[->|[->|[->|[->| ->]]]]]]]; reflexivity.
  - destruct H1 as [-> ->]; [done|]. by rewrite H2.
Qed.

Lemma run_loop_nodes ns : Forall wf_node ns -> forall pre rest vm fuel,
  (length (encode ns) <= fuel)%nat ->
  run_loop fuel vm (pre ++ encode ns ++ rest) (zlen pre) (zlen (pre ++ encode ns)) = run_nodes ns vm.
Proof.
  induction 1 as [|n ns Hn _ IH]; intros pre rest vm fuel Hf.
  { change (encode []) with (@nil Z). rewrite app_nil_r. destruct fuel; simpl; by rewrite Z.ltb_irrefl. }
  change (encode (n :: ns)) with (vm_instruct_2buf n ++ encode ns) in *.
  pose proof (zlen_nonneg (encode ns)) as Hp.
  assert (1 <= zlen (vm_instruct_2buf n)) as Hl
    by (unfold vm_instruct_2buf; rewrite zlen_app; change (zlen [ins n]) with 1; zlia).
  destruct fuel as [|fuel]; [rewrite length_app in Hf; unfold zlen in Hl; lia|].
  cbn [run_loop]. rewrite !zlen_app.
  destruct (Z.ltb_spec (zlen pre) (zlen pre + (zlen (vm_instruct_2buf n) + zlen (encode ns)))); [|lia].
  unfold vm_step. rewrite <- app_assoc, instruction_2node_app by done. cbn [mbind option_bind run_nodes].
  rewrite run_canon. destruct (vm_run_insnode n vm) as [[vm1 r]|]; [|done]. cbn [mbind option_bind].
  destruct (Z.eqb_spec r (-1)) as [->|Hr]; [done|].
  rewrite app_assoc. rewrite <- (IH (pre ++ vm_instruct_2buf n) rest vm1 fuel).
  - rewrite !zlen_app. by rewrite Z.add_assoc.
  - rewrite length_app in Hf. unfold zlen in Hl. lia.
Qed.

Lemma run_cmd_nodes ns rest vm : Forall wf_node ns ->
  vm_run_cmd vm (encode ns ++ rest) (zlen (encode ns)) = run_nodes ns vm.
Proof.
  intros Hn. unfold vm_run_cmd. apply (run_loop_nodes ns Hn [] rest).
  unfold zlen. by rewrite Nat2Z.id.
Qed.

Lemma run_nodes_app ns1 ns2 vm : run_nodes (ns1 ++ ns2) vm =
  '(vm, r) ← run_nodes ns1 vm; if r =? -1 then Some (vm, -1) else run_nodes ns2 vm.
Proof.
  revert vm. induction ns1 as [|n ns1 IH]; intros vm; [done|]. cbn [app run_nodes].
  destruct (vm_run_insnode n vm) as [[vm1 r]|]; [|done]. cbn [mbind option_bind].
  destruct (r =? -1) eqn:E; [done|apply IH].
Qed.

(** [vm_run_cmd] on encoded instructions terminates and does what the instructions
    do one after the other, stopping at the first that fails; bytes after the given
    size are not read. *)
Theorem run_cmd_encoded ns rest vm : Forall wf_node ns ->
  vm_run_cmd vm (encode ns ++ rest) (zlen (encode ns)) = run_nodes ns vm.
Proof. apply run_cmd_nodes. Qed.

(** ** Safety *)

Abbreviation words l := (Forall is_word l).

(** The memory port: every address below [mem_size] has a cell or none. *)
Definition port_ok (vm : vm_cpu) : Prop :=
  forall i, 0 <= i < s32 (mem_size vm) ->
    match cell_of vm i with
    | Some (Cell k) => 0 <= k < zlen (memory vm)
    | Some _ => False
    | None => True
    end.

Record vm_wf (vm : vm_cpu) : Prop := {
  wf_regs : is_word (reg1 vm) /\ is_word (reg2 vm);
  wf_stack : zlen (stack vm) = VM_STACK_SIZE /\ words (stack vm);
  wf_mem : words (memory vm);
  wf_sp : 0 <= sp vm <= VM_STACK_SIZE;
  wf_port : port_ok vm
}.

Definition place_ok (vm : vm_cpu) (p : place) : Prop :=
  match p with
  | Reg1 | Reg2 => True
  | Stk i => 0 <= i < sp vm
  | Cell k => 0 <= k < zlen (memory vm)
  end.

Lemma ref_operand_ok vm ds v p : vm_wf vm -> vm_ref_operand ds v vm = Some p -> place_ok vm p.
Proof.
  intros Hwf. pose proof (wf_port _ Hwf) as Hp. pose proof (wf_sp _ Hwf) as Hs.
  unfold vm_ref_operand. set (i := s32 v).
  destruct (ds =? EDS_REG1); [by intros [= <-]|]. destruct (ds =? EDS_REG2); [by intros [= <-]|].
  destruct (ds =? EDS_STACK).
  { destruct (Z.ltb_spec i 0).
    - destruct (Z.leb_spec 0 (sp vm + i)); [|done]. intros [= <-]. cbn. lia.
    - destruct (Z.ltb_spec i (sp vm)); [|done]. intros [= <-]. cbn. lia. }
  destruct (ds =? EDS_ADDRESS); [|done].
  destruct (Z.leb_spec 0 i); [|done]. destruct (Z.ltb_spec i (s32 (mem_size vm))); [|done].
  cbn [andb]. intros E. specialize (Hp i ltac:(lia)). rewrite E in Hp. by destruct p.
Qed.

Lemma mget_words l i : words l -> 0 <= i < zlen l -> exists v, mget l i = Some v /\ is_word v.
Proof.
  intros Hw Hi. unfold zlen in Hi. destruct (lookup_lt_is_Some_2 l (Z.to_nat i)) as [v Hv]; [lia|].
  exists v. split; [apply mget_Some; split; [lia|done]|]. by eapply Forall_lookup_1.
Qed.

Lemma load_ok vm p : vm_wf vm -> place_ok vm p -> exists v, load vm p = Some v /\ is_word v.
Proof.
  intros [[H1 H2] [Hl Hw] Hm Hs _]. destruct p as [| |i|i]; cbn [place_ok load]; eauto; intros; apply mget_words; auto.
  lia.
Qed.

Lemma getvalue_ok vm ds v : vm_wf vm -> is_word v ->
  exists x, vm_getvalue ds v vm = Some x /\ is_word x.
Proof.
  intros Hwf Hv. unfold vm_getvalue. destruct (ds =? EDS_IMMEDIATE); [by eexists|].
  destruct (vm_ref_operand ds v vm) as [p|] eqn:E; [|exists 0; by split].
  apply load_ok; [done|]. by eapply ref_operand_ok.
Qed.

(** A store keeps the machine well formed and its stack pointer where it is. *)
Lemma store_ok vm p v : vm_wf vm -> place_ok vm p -> is_word v ->
  exists vm', store vm p v = Some vm' /\ vm_wf vm' /\ sp vm' = sp vm.
Proof.
  intros [[H1 H2] [Hl Hw] Hm Hs Hp] Hok Hv. destruct p as [| |i|i]; cbn in *.
  - eexists. split; [done|]. by repeat (split; try done).
  - eexists. split; [done|]. by repeat (split; try done).
  - rewrite mset_insert by lia. eexists. split; [done|]. split; [|done].
    split; try done. cbn. split; [by rewrite zlen_insert|]. by apply Forall_insert.
  - rewrite mset_insert by lia. eexists. split; [done|]. split; [|done].
    split; try done; cbn; [by apply Forall_insert|].
    intros j Hj. specialize (Hp j Hj). unfold cell_of in *. cbn in *. rewrite zlen_insert. exact Hp.
Qed.

Lemma update_ok vm ds v f : vm_wf vm -> (forall x, is_word (f x)) ->
  exists vm', update vm (vm_ref_operand ds v vm) f = Some vm' /\ vm_wf vm' /\ sp vm' = sp vm.
Proof.
  intros Hwf Hf. unfold update. destruct (vm_ref_operand ds v vm) as [p|] eqn:E; [|by eexists].
  apply ref_operand_ok in E; [|done]. destruct (load_ok vm p) as (x & -> & _); [done|done|].
  cbn [mbind option_bind]. by apply store_ok.
Qed.

Lemma fop_word op a b : is_word (fop op a b). Proof. apply bits_range. Qed.
Lemma arith_word op a b : is_word (arith_op op a b).
Proof. unfold arith_op. repeat case_match; apply fop_word. Qed.
Lemma i2f_word i : is_word (i2f i). Proof. apply bits_range. Qed.
#[export] Hint Resolve fop_word arith_word i2f_word : vm.

Lemma set_reg1_wf vm v : vm_wf vm -> is_word v -> vm_wf (set_reg1 vm v).
Proof. intros [[H1 H2] H3 H4 H5 H6] Hv. split; try done. Qed.

Lemma set_sp_wf vm s : vm_wf vm -> 0 <= s <= VM_STACK_SIZE -> vm_wf (set_sp vm s).
Proof. intros [H1 H3 H4 H5 H6] Hs. split; try done. Qed.

(** How an instruction moves the stack pointer. *)
Definition sp_delta (op : Z) : Z := if op =? EOP_PUSH then 1 else if op =? EOP_POP then -1 else 0.

(** The instructions that convert to [int], which is undefined for large values. *)
Definition converts (op : Z) : bool :=
  (op =? EOP_RAND) || (op =? EOP_PROB) || (op =? EOP_ROUND).

Lemma push_ok vm v : vm_wf vm -> is_word v -> sp vm < VM_STACK_SIZE ->
  exists s, mset (stack vm) (sp vm) v = Some s /\ vm_wf (set_sp (set_stack vm s) (sp vm + 1)).
Proof.
  intros [H1 [Hl Hw] Hm Hs Hp] Hv Hsp. rewrite mset_insert by lia. eexists. split; [done|].
  split; try done; cbn; [|lia]. split; [by rewrite zlen_insert|]. by apply Forall_insert.
Qed.

Lemma pop_ok vm ds v : vm_wf vm -> 0 < sp vm ->
  exists vm', match vm_ref_operand ds v vm with
              | Some p => x ← mget (stack vm) (sp vm - 1); vm ← store (set_sp vm (sp vm - 1)) p x; Some (vm, 0)
              | None => Some (set_sp vm (sp vm - 1), 0)
              end = Some (vm', 0) /\ vm_wf vm' /\ sp vm' = sp vm - 1.
Proof.
  intros Hwf Hs. pose proof (wf_sp _ Hwf) as Hs2. destruct (wf_stack _ Hwf) as [Hl Hw].
  destruct (vm_ref_operand ds v vm) as [p|] eqn:E.
  2: { eexists. split; [done|]. split; [|done]. apply set_sp_wf; [done|lia]. }
  apply ref_operand_ok in E; [|done].
  destruct (mget_words (stack vm) (sp vm - 1) Hw) as (x & -> & Hx); [lia|]. cbn [mbind option_bind].
  assert (vm_wf (set_sp vm (sp vm - 1))) as Hwf' by (apply set_sp_wf; [done|lia]).
  destruct p as [| |i|k].
  1, 2, 4: edestruct store_ok as (vm' & -> & Hw' & Es); [exact Hwf' | | exact Hx |];
    [exact E|]; cbn [mbind option_bind]; eauto.
  cbn [store]. cbn in E. cbn [stack set_sp]. rewrite mset_insert by lia. cbn [mbind option_bind].
  eexists. split; [done|]. split; [|done]. destruct Hwf' as [? ? ? ? ?].
  split; try done. cbn. split; [by rewrite zlen_insert|]. by apply Forall_insert.
Qed.

Lemma bits_word f : is_word (bits_of_f32 f). Proof. apply bits_range. Qed.
Lemma f_sqrt_word v : is_word (f_sqrt v).
Proof. unfold f_sqrt. case_match; [apply bits_range | done]. Qed.
Lemma f_ltzero_word v : is_word (f_ltzero v).
Proof. unfold f_ltzero. case_match; apply i2f_word. Qed.
Lemma f_max_word a b : is_word a -> is_word b -> is_word (f_max a b).
Proof. unfold f_max. by case_match. Qed.
Lemma f_min_word a b : is_word a -> is_word b -> is_word (f_min a b).
Proof. unfold f_min. by case_match. Qed.
Lemma fceil_word v : is_word (fceil v). Proof. apply bits_range. Qed.
Lemma ffloor_word v : is_word (ffloor v). Proof. apply bits_range. Qed.
#[export] Hint Resolve fceil_word ffloor_word bits_word f_sqrt_word f_ltzero_word f_max_word f_min_word set_reg1_wf : vm.

Ltac vm_ops := cbv [EOP_NOP EOP_MOV EOP_DIV EOP_PUSH EOP_POP EOP_MAX EOP_MIN EOP_RAND EOP_LTZERO EOP_PROB
  EOP_SQRT EOP_ROUND EOP_CEIL EOP_FLOOR Z.eqb Z.leb Z.compare Pos.eqb Pos.compare Pos.compare_cont].

Lemma step_ok n vm : vm_wf vm -> wf_node n -> converts (ins n) = false ->
  0 <= sp vm + sp_delta (ins n) <= VM_STACK_SIZE ->
  exists vm', vm_run_insnode n vm = Some (vm', if ins n <? EOP_NUMBERS then 0 else -1) /\
    vm_wf vm' /\ sp vm' = sp vm + sp_delta (ins n).
Proof.
  intros Hwf [Hi _ [Hv1 Hv2]] Hc Hsp.
  destruct (getvalue_ok vm (ds1 n) (val1 n) Hwf Hv1) as (a & Ea & Ha).
  destruct (getvalue_ok vm (ds2 n) (val2 n) Hwf Hv2) as (b & Eb & Hb).
  pose proof (fun f => update_ok vm (ds1 n) (val1 n) f Hwf) as Hup.
  unfold vm_run_insnode. rewrite Ea, Eb. destruct (Z.ltb_spec (ins n) EOP_NUMBERS) as [Hlt|Hge].
  - assert (ins n = 0 \/ ins n = 1 \/ ins n = 2 \/ ins n = 3 \/ ins n = 4 \/ ins n = 5 \/ ins n = 6 \/
      ins n = 7 \/ ins n = 8 \/ ins n = 9 \/ ins n = 10 \/ ins n = 11 \/ ins n = 12 \/ ins n = 13 \/
      ins n = 14 \/ ins n = 15 \/ ins n = 16) as HE by (unfold is_byte, EOP_NUMBERS in *; lia).
    clear Hi Hlt. destruct_or! HE; rewrite HE in *; try discriminate Hc; cbv [sp_delta EOP_PUSH EOP_POP Z.eqb Pos.eqb] in *;
      vm_ops; cbn [mbind option_bind andb];
      try (eexists; split; [reflexivity | split; [by auto with vm | cbn; lia]]).
    + destruct (vm_ref_operand (ds1 n) (val1 n) vm) as [p|] eqn:E.
      2: { exists vm. split; [done|split; [done|lia]]. }
      destruct (store_ok vm p b) as (vm' & -> & H1 & H2); [done|by eapply ref_operand_ok|done|].
      exists vm'. split; [done|split; [done|lia]].
    + destruct (Hup (fun v => arith_op 2 v b)) as (vm' & -> & H1 & H2); [auto with vm|].
      exists vm'. split; [done|split; [done|lia]].
    + destruct (Hup (fun v => arith_op 3 v b)) as (vm' & -> & H1 & H2); [auto with vm|].
      exists vm'. split; [done|split; [done|lia]].
    + destruct (Hup (fun v => arith_op 4 v b)) as (vm' & -> & H1 & H2); [auto with vm|].
      exists vm'. split; [done|split; [done|lia]].
    + destruct (feq b 0); [exists vm; split; [done|split; [done|lia]]|].
      destruct (Hup (fun v => arith_op 5 v b)) as (vm' & -> & H1 & H2); [auto with vm|].
      exists vm'. split; [done|split; [done|lia]].
    + destruct (push_ok vm a) as (s & -> & H); [done|done|lia|]. cbn [mbind option_bind].
      eexists. split; [reflexivity|]. split; [done|]. cbn. lia.
    + destruct (pop_ok vm (ds1 n) (val1 n)) as (vm' & E & H1 & H2); [done|lia|].
      rewrite E. exists vm'. split; [done|split; [done|lia]].
  - assert (sp_delta (ins n) = 0) as ->.
    { unfold sp_delta. unfold EOP_NUMBERS, EOP_PUSH, EOP_POP in *.
      repeat case_match; lia. }
    exists vm. rewrite Z.add_0_r. split; [|done].
    unfold EOP_NUMBERS in Hge. repeat (bcase; [unfold EOP_NOP, EOP_MOV, EOP_DIV, EOP_PUSH, EOP_POP, EOP_MAX,
      EOP_MIN, EOP_RAND, EOP_LTZERO, EOP_PROB, EOP_SQRT, EOP_ROUND, EOP_CEIL, EOP_FLOOR in *; lia|]). done.
Qed.

(** Checking code: every instruction is valid, converts nothing and keeps the stack
    between empty and full.  The result is the depth at the end. *)
Fixpoint check_code (depth : Z) (ns : list vm_instruction_node) : option Z :=
  match ns with
  | [] => Some depth
  | n :: ns =>
      let d := depth + sp_delta (ins n) in
      if (ins n <? EOP_NUMBERS) && negb (converts (ins n)) && (0 <=? d) && (d <=? VM_STACK_SIZE)
      then check_code d ns else None
  end.

Lemma checked_runs ns : Forall wf_node ns -> forall vm d, vm_wf vm -> check_code (sp vm) ns = Some d ->
  exists vm', run_nodes ns vm = Some (vm', 0) /\ vm_wf vm' /\ sp vm' = d.
Proof.
  induction 1 as [|n ns Hn _ IH]; intros vm d Hwf; cbn [check_code run_nodes].
  { intros [= <-]. by exists vm. }
  destruct (_ && _) eqn:E; [|done]. intros Hc.
  apply andb_prop in E as [[[E1 E2]%andb_prop E3]%andb_prop E4].
  apply Z.leb_le in E3, E4. apply negb_true_iff in E2.
  destruct (step_ok n vm) as (vm1 & Es & Hwf1 & Hsp1); [done|done|done|lia|].
  rewrite Es, E1. cbn [mbind option_bind]. change (0 =? -1) with false. cbv iota. apply IH; [done|]. by rewrite Hsp1.
Qed.

(** C26: Code that passes the static check runs to its end on any well formed machine
    at that stack depth: no access leaves the stack or the memory block, every register
    and cell still holds a 32 bit value, and the stack has the depth the check computes. *)
Theorem checked_code_safe ns vm d rest : Forall wf_node ns -> vm_wf vm ->
  check_code (sp vm) ns = Some d ->
  exists vm', vm_run_cmd vm (encode ns ++ rest) (zlen (encode ns)) = Some (vm', 0) /\
    vm_wf vm' /\ sp vm' = d.
Proof. intros Hn Hwf Hc. rewrite run_cmd_nodes by done. by eapply checked_runs. Qed.

Definition wit_vm : vm_cpu := vm_machine_init [i2f 7; i2f 8] 2 [].
Definition wit_code : list vm_instruction_node :=
  [mk_ins EOP_PUSH EDS_ADDRESS 0 1 0; wit_node; mk_ins EOP_POP EDS_REG2 0 0 0].
Lemma wit_vm_wf : vm_wf wit_vm.
Proof.
  split.
  - repeat split; discriminate.
  - split; [reflexivity|]. apply Forall_zrepeat. split; [discriminate|reflexivity].
  - repeat constructor; vm_compute; discriminate.
  - repeat split; discriminate.
  - intros i Hi. change (s32 (mem_size wit_vm)) with 2 in Hi. cbn. rewrite !zlen_cons. change (zlen (@nil Z)) with 0. lia.
Qed.
Lemma wit_code_wf : Forall wf_node wit_code.
Proof. repeat constructor; vm_compute; discriminate. Qed.
Lemma checked_code_safe_witness :
  exists vm', vm_run_cmd wit_vm (encode wit_code ++ [99]) 15 = Some (vm', 0) /\ vm_wf vm' /\ sp vm' = 0.
Proof. apply (checked_code_safe wit_code wit_vm 0 [99] wit_code_wf wit_vm_wf). reflexivity. Defined.
Lemma run_cmd_encoded_witness :
  vm_run_cmd wit_vm (encode wit_code ++ [99]) 15 = run_nodes wit_code wit_vm.
Proof. apply (run_cmd_encoded wit_code [99] wit_vm wit_code_wf). Defined.
