(* ===== verification/Asm.v ===== *)
(** * Asm: the assembler and disassembler of nd_asm.c

    [vm_compiler_line] translates a line of text to an instruction,
    [vm_output_asm] prints one, [vm_file_compile] and [vm_file_rcompile] translate
    files.  Text is the [cstr] of [Str]; a file is its bytes.  Stores past the end
    of a local buffer are [None].  Error messages are left out. *)

From S2P Require Import Prelude Bytes Str Float32 Vm.
From Stdlib Require Import Strings.String.

(** A string literal in C: with its terminator. *)
Definition lit (s : string) : cstr := chars s ++ [0].

Definition __op : list cstr :=
  map lit ["NOP"; "MOV"; "ADD"; "SUB"; "MUL"; "DIV"; "PUSH"; "POP"; "MAX"; "MIN"; "RAND"; "LTZERO";
           "PROB"; "SQRT"; "ROUND"; "CEIL"; "FLOOR"]%string.

(** The buffer [buf[size]] holds what was stored. *)
Definition fits (size : Z) (out : list Z) : option unit :=
  if zlen out <=? size then Some () else None.

Fixpoint get_ins_loop (ops : list cstr) (i : Z) (s : cstr) : option Z :=
  match ops with
  | [] => Some (u8 (-1))
  | op :: ops => c ← ndstricmp s op; if c =? 0 then Some (u8 i) else get_ins_loop ops (i + 1) s
  end.
Definition get_ins (s : cstr) : option Z := get_ins_loop __op 0 s.

(** NULL is [None]. *)
Definition get_ins_name (i : Z) : option cstr :=
  if (0 <=? i) && (i <? EOP_NUMBERS) then __op !! Z.to_nat i else None.

(** [strchr] *)
Fixpoint ndstrchr (s : cstr) (ch : Z) : option (option cstr) :=
  match s with
  | [] => None
  | c :: t => if c =? ch then Some (Some s) else if c =? 0 then Some None else ndstrchr t ch
  end.

Section Code.
(** The thread's [__s_code_type]. *)
Context (code : Z).

(** The rest (or NULL) and [*instruction], which is kept when NULL is returned early. *)
Definition read_instruction (src : cstr) (instruction : Z) : option (option cstr * Z) :=
  '(ret_addr, buf) ← ndstr_parse_word_n code src 128;
  _ ← fits 128 buf;
  match ret_addr with
  | None => Some (None, instruction)
  | Some rest =>
      i ← get_ins buf;
      Some (if i =? u8 (-1) then None else Some rest, i)
  end.

(** [None]: undefined; [Some None]: -1; else what the operand is, the value stored
    (if one is) and the rest (or NULL). *)
Definition asm_read_operand (addr : cstr)
    : option (option (Z * option vm_value * option cstr)) :=
  p ← ndstr_first_valid addr;
  match p with
  | None => Some None
  | Some addr =>
      c ← deref addr;
      if c =? 91 then
        c1 ← deref (tail addr);
        sp_operand ← (if (c1 =? 115) || (c1 =? 83)
                      then c2 ← deref (tail (tail addr)); Some ((c2 =? 112) || (c2 =? 80))
                      else Some false);
        p ← (if (sp_operand : bool) then ndstr_first_valid (tail (tail (tail addr)))
             else Some (Some (tail addr)));
        match p with
        | None => Some None
        | Some addr =>
            '(addr, buf) ← ndstr_nstr_end code addr 93 20;
            c ← deref addr;
            if negb (c =? 93) then Some None
            else
              num ← ndstr_is_numerals buf;
              if num =? 0 then Some None
              else
                a ← ndstr_atoi_hex atoi buf;
                Some (Some (if (sp_operand : bool) then EDS_STACK else EDS_ADDRESS, Some (u32 a), Some addr))
        end
      else if IS_BIG_LATIN c || IS_LITTLE_LATIN c then
        '(addr, buf) ← ndstr_parse_word_n code addr 20;
        r1 ← ndstricmp (lit "reg1") buf;
        if r1 =? 0 then Some (Some (EDS_REG1, None, addr))
        else
          r2 ← ndstricmp (lit "reg2") buf;
          if r2 =? 0 then Some (Some (EDS_REG2, None, addr)) else Some None
      else
        '(addr, buf, isok) ← ndstr_read_numerals addr;
        _ ← fits 128 buf;
        if isok =? 0 then Some None
        else Some (Some (EDS_IMMEDIATE, Some (bits_of_f32 (d2f (atof buf))), Some addr))
  end.

(** The result and, when it is 1, the instruction. *)
Definition vm_compiler_line (text : cstr) : option (Z * vm_instruction_node) :=
  let fail := Some (-1, zero_node) in
  p ← ndstr_first_valid text;
  match p with
  | None => fail
  | Some addr =>
      c ← deref addr;
      if c =? 35 then Some (0, zero_node)
      else
        '(p, i) ← read_instruction addr 0;
        if check_instruction_valid i =? 0 then fail
        else
          p ← (match p with Some addr => ndstr_first_valid addr | None => Some None end);
          match p with
          | None => if check_no_operand i =? 0 then fail else Some (1, mk_ins i EDS_NONE 0 0 0)
          | Some addr =>
              let num := get_operand_num i in
              o1 ← (if 0 <? num then asm_read_operand addr
                    else Some (Some (EDS_NONE, None, Some addr)));
              match o1 with
              | None => fail
              | Some (d1, v1, addr) =>
                  if second_operand num then
                    addr ← addr;                      (* NULL is dereferenced *)
                    p ← ndstrchr addr 44;
                    match p with
                    | None => fail
                    | Some addr =>
                        o2 ← asm_read_operand (tail addr);
                        match o2 with
                        | None => fail
                        | Some (d2, v2, _) => Some (1, mk_ins i d1 d2 (default 0 v1) (default 0 v2))
                        end
                    end
                  else Some (1, mk_ins i d1 0 (default 0 v1) 0)
              end
          end
  end.

(** [fgets(buf, n, infp)]: the line, without terminator, and what is left. *)
Fixpoint fgets (n : nat) (infp : list Z) : list Z * list Z :=
  match n, infp with
  | O, _ | _, [] => ([], infp)
  | S n, c :: t => if c =? 10 then ([c], t) else let '(l, rest) := fgets n t in (c :: l, rest)
  end.

(** The bytes written to [outfile] and the result; every round takes at least a
    byte of the file.  [rs]: what [rand] returns in each check. *)
Fixpoint compile_loop (fuel : nat) (infp : list Z) (test_mm : vm_value) (rs : list Z) (out : list Z)
    : option (list Z * Z) :=
  match infp with
  | [] => Some (out, 0)
  | _ =>
      match fuel with
      | O => None
      | S fuel =>
          let '(line, infp) := fgets 1023 infp in
          let buf := line ++ [0] in
          p ← ndstr_first_valid buf;
          match p with
          | None => compile_loop fuel infp test_mm rs out
          | Some _ =>
              '(ret, node) ← vm_compiler_line buf;
              if 0 <? ret then
                '(ok, test_mm) ← vm_check_insnode node test_mm rs;
                if (ok : bool) then
                  compile_loop fuel infp test_mm rs (out ++ vm_instruct_2buf node)
                else Some (out, -1)
              else Some (out, -1)
          end
      end
  end.
Definition vm_file_compile (infp : list Z) (rs : list Z) : option (list Z * Z) :=
  compile_loop (List.length infp) infp 0 rs [].
End Code.

(** ** Printing *)

(** Digits in base [b], most significant first, of a number below [b ^ n]. *)
Fixpoint digits_n (b : Z) (n : nat) (i : Z) (acc : list Z) : list Z :=
  match n with
  | O => acc
  | S n =>
      let d := i mod b in
      let acc := (if d <? 10 then 48 + d else 87 + d) :: acc in
      if i <? b then acc else digits_n b n (i / b) acc
  end.
(** [%d] and [%x] of an [int]. *)
Definition fmt_d (i : Z) : list Z :=
  if i <? 0 then 45 :: digits_n 10 10 (- i) [] else digits_n 10 10 i [].
Definition fmt_x (i : Z) : list Z := digits_n 16 8 (u32 i) [].

(** [n / 2 ^ k] rounded to nearest even. *)
Definition div_even (n d : Z) : Z :=
  let q := n / d in let r := n mod d in
  if 2 * r <? d then q else if d <? 2 * r then q + 1 else if Z.even q then q else q + 1.

(** [%f]: six digits after the point. *)
Definition fmt_f (v : vm_value) : list Z :=
  let sign (s : bool) l := if s then 45 :: l else l in
  match f32_of_bits v with
  | S754_nan => chars "nan"
  | S754_infinity s => sign s (chars "inf")
  | S754_zero s => sign s (chars "0.000000")
  | S754_finite s m e =>
      let i := if 0 <=? e then Zpos m * 2 ^ e * 10 ^ 6 else div_even (Zpos m * 10 ^ 6) (2 ^ (- e)) in
      let frac := digits_n 10 6 (i mod 10 ^ 6) [] in
      sign s (digits_n 10 40 (i / 10 ^ 6) [] ++ [46] ++
              repeat 48 (6 - List.length frac) ++ frac)
  end.

(** [spaces]: the text after [SP] differs between the two operands. *)
Definition operand_text (spaces : string) (ds : Z) (val : vm_value) : list Z :=
  if ds =? EDS_IMMEDIATE then fmt_f val
  else if ds =? EDS_ADDRESS then chars "[" ++ fmt_x (s32 val) ++ chars "]"
  else if ds =? EDS_STACK then chars "[SP" ++ chars spaces ++ fmt_d (s32 val) ++ chars "]"
  else if ds =? EDS_REG1 then chars "REG1"
  else if ds =? EDS_REG2 then chars "REG2"
  else [].

(** The text, or [None] for -1; none of it is longer than the buffer of 256. *)
Definition vm_output_asm (node : vm_instruction_node) : option cstr :=
  p ← get_ins_name (ins node);
  let num := get_operand_num (ins node) in
  Some ([9] ++ removelast p ++ [9] ++
        (if 0 <? num then operand_text "  " (ds1 node) (val1 node) else []) ++
        (if second_operand num then chars " ," ++ [9] ++ operand_text " " (ds2 node) (val2 node) else []) ++ [0]).

(** The file is read into a block of [fsize] bytes; [p] runs while [p <= buf + n]. *)
Fixpoint rcompile_loop (fuel : nat) (buf : mem) (p n : Z) (out : list Z) : option (list Z) :=
  if p <=? n then
    match fuel with
    | O => None
    | S fuel =>
        '(node, p) ← vm_instruction_2node zero_node buf p;
        rcompile_loop fuel buf p n
          (out ++ match vm_output_asm node with Some t => removelast t ++ [10] | None => [] end)
    end
  else Some out.

(** [junk]: the bytes of the block after the [n] that were read.  The text written
    to [outfile] and the result. *)
Definition vm_file_rcompile (infp junk : list Z) : option (list Z * Z) :=
  if zlen (infp ++ junk) =? 0 then Some ([], -1)
  else if zlen infp <=? 0 then Some ([], -1)
  else out ← rcompile_loop (S (List.length infp)) (infp ++ junk) 0 (zlen infp) []; Some (out, 0).

Example ex_line : vm_compiler_line 0 (lit "	 ADD REG1 , 10.5 ") =
  Some (1, mk_ins EOP_ADD EDS_REG1 EDS_IMMEDIATE 0 0x41280000).
Proof. reflexivity. Qed.
Example ex_pop : vm_compiler_line 0 (lit "POP") = Some (1, zero_node).
Proof. reflexivity. Qed.
Example ex_fmt : fmt_f 0x3dcccccd = chars "0.100000". Proof. reflexivity. Qed.
Example ex_fmt2 : fmt_f 0xc1280000 = chars "-10.500000". Proof. reflexivity. Qed.
Example ex_out : vm_output_asm (mk_ins EOP_ADD EDS_STACK EDS_ADDRESS (u32 (-1)) 16) =
  Some (chars "	ADD	[SP  -1] ,	[10]" ++ [0]). Proof. reflexivity. Qed.

(** ** Reading text *)

Definition blank (c : Z) : Prop := 0 < c <= 32.
Abbreviation blanks l := (Forall blank l).
Definition digit (c : Z) : Prop := 48 <= c <= 57.
Abbreviation digits l := (Forall digit l).
(** The characters that end an operand on the lines the compiler writes. *)
Definition stopper (c : Z) : Prop := c = 9 \/ c = 10 \/ c = 32 \/ c = 44.
Definition word_char (c : Z) : Prop := 0 < c /\ (is_word_char c || (c =? 46)) = true.

Lemma first_valid_skip b s : blanks b -> ndstr_first_valid (b ++ s) = ndstr_first_valid s.
Proof.
  induction 1 as [|c b [H1 H2] _ IH]; [done|]. cbn [app ndstr_first_valid].
  destruct (Z.leb_spec c 32); [|lia]. destruct (Z.eqb_spec c 0); [lia|done].
Qed.
Lemma first_valid_char c s : 32 < c -> ndstr_first_valid (c :: s) = Some (Some (c :: s)).
Proof. intros H. cbn. destruct (Z.leb_spec c 32); [lia|done]. Qed.

Lemma stopper_char c : stopper c -> 0 < c < 48 /\ c <> 46 /\ is_word_char c = false.
Proof. intros [->|[->|[->| ->]]]; repeat split; try lia; done. Qed.

Lemma parse_word_n_loop_ok code w : Forall word_char w -> forall c r n out fuel,
  0 <= c <= 128 -> is_word_char c = false -> c <> 46 -> zlen w < n ->
  (List.length (w ++ c :: r) <= fuel)%nat ->
  parse_word_n_loop fuel code (w ++ c :: r) out n = Some (c :: r, out ++ w).
Proof.
  induction 1 as [|a w [Ha Hw] _ IH]; intros c r n out fuel Hc Hcw Hd Hn Hf;
    (destruct fuel as [|fuel]; [cbn in Hf; lia|]); cbn [app parse_word_n_loop deref head].
  - rewrite app_nil_r. cbn [mbind option_bind]. destruct (Z.eqb_spec c 0); [done|].
    change (zlen (@nil Z)) with 0 in Hn. destruct (Z.ltb_spec 0 n); [|lia]. rewrite Hcw.
    destruct (Z.eqb_spec c 46); [lia|]. cbn [orb]. destruct (Z.ltb_spec 128 c); [lia|].
    by rewrite andb_false_r.
  - cbn [mbind option_bind]. destruct (Z.eqb_spec a 0); [lia|]. rewrite zlen_cons in Hn.
    pose proof (zlen_nonneg w). destruct (Z.ltb_spec 0 n); [|lia]. rewrite Hw. cbn [tail].
    rewrite IH by (first [done | lia | cbn in Hf; lia]). by rewrite <- app_assoc.
Qed.

Lemma parse_word_n_ok code w c r n : Forall word_char w -> 0 < c <= 128 ->
  is_word_char c = false -> c <> 46 -> zlen w < n ->
  ndstr_parse_word_n code (w ++ c :: r) n = Some (Some (c :: r), w ++ [0]).
Proof.
  intros Hw Hc Hcw Hd Hn. unfold ndstr_parse_word_n.
  rewrite parse_word_n_loop_ok by (first [done | lia]). cbn [mbind option_bind app]. unfold rest_or_null.
  cbn [deref head mbind option_bind]. destruct (Z.eqb_spec c 0); [lia|done].
Qed.
Lemma parse_word_n_end code w n : Forall word_char w -> zlen w < n ->
  ndstr_parse_word_n code (w ++ [0]) n = Some (None, w ++ [0]).
Proof.
  intros Hw Hn. unfold ndstr_parse_word_n. by rewrite parse_word_n_loop_ok by (first [done | lia]).
Qed.

(** *** Numbers *)

Lemma digit_char c : digit c -> IS_NUMERALS c = true /\ 0 < c < 58 /\ c <> 46.
Proof. unfold digit, IS_NUMERALS. intros H. split_and!; lia. Qed.

Lemma read_numerals_digits d : digits d -> forall s out dot isok,
  read_numerals_loop (d ++ s) out dot isok =
    read_numerals_loop s (out ++ d) dot (match d with [] => isok | _ => 1 end).
Proof.
  induction 1 as [|c d Hc _ IH]; intros s out dot isok; [by rewrite app_nil_r|].
  destruct (digit_char c Hc) as (H1 & H2 & H3). cbn [app read_numerals_loop].
  destruct (Z.eqb_spec c 0); [lia|]. rewrite H1, IH, <- app_assoc. by destruct d.
Qed.

(** A sign, digits and perhaps a dot with digits. *)
Definition numeral (t : list Z) : Prop :=
  exists sg d1 d2, t = sg ++ d1 ++ d2 /\ (sg = [] \/ sg = [45] \/ sg = [43]) /\
    digits d1 /\ d1 <> [] /\ (d2 = [] \/ exists d, d2 = 46 :: d /\ digits d).

Lemma read_numerals_tail d2 c s out : (d2 = [] \/ exists d, d2 = 46 :: d /\ digits d) ->
  IS_NUMERALS c = false -> c <> 46 ->
  read_numerals_loop (d2 ++ c :: s) out 0 1 = Some (c :: s, (out ++ d2) ++ [0], 1).
Proof.
  intros Hd Hc Hc2. assert (forall out dot, read_numerals_loop (c :: s) out dot 1 = Some (c :: s, out ++ [0], 1)) as Hend.
  { intros o dot. cbn [read_numerals_loop]. destruct (c =? 0); [done|]. rewrite Hc.
    destruct (Z.eqb_spec c 46); [lia|done]. }
  destruct Hd as [->|(d & -> & Hd)]; [by rewrite app_nil_r; apply Hend|].
  cbn [app read_numerals_loop]. change (46 =? 0) with false. change (IS_NUMERALS 46) with false.
  change (46 =? 46) with true. change (1 <? 0 + 1) with false. cbv iota.
  rewrite read_numerals_digits by done. replace (match d with [] => 1 | _ => 1 end) with 1 by (by destruct d).
  rewrite Hend. by rewrite <- !app_assoc.
Qed.

Lemma read_numerals_ok t c s : numeral t -> IS_NUMERALS c = false -> c <> 46 ->
  ndstr_read_numerals (t ++ c :: s) = Some (c :: s, t ++ [0], 1).
Proof.
  intros (sg & d1 & d2 & -> & Hs & H1 & Hne & H2) Hc Hc2. unfold ndstr_read_numerals.
  destruct d1 as [|x d1]; [done|]. inversion H1 as [|? ? Hx Hd1]; subst.
  destruct (digit_char x Hx) as (Hx1 & Hx2 & Hx3). unfold digit in Hx. rewrite <- !app_assoc.
  destruct Hs as [->|[->| ->]]; cbn [app]; rewrite first_valid_char by lia; cbn [mbind option_bind deref head].
  - destruct (Z.eqb_spec x 45); [lia|]. destruct (Z.eqb_spec x 43); [lia|]. destruct (Z.eqb_spec x 46); [lia|].
    cbn [orb tail]. rewrite Hx1, read_numerals_digits by done.
    replace (match d1 with [] => 1 | _ => 1 end) with 1 by (by destruct d1).
    rewrite read_numerals_tail by done. cbn [app]. by rewrite <- !app_assoc.
  - cbn [Z.eqb Pos.eqb orb tail]. change (x :: d1 ++ d2 ++ c :: s) with ((x :: d1) ++ d2 ++ c :: s).
    rewrite read_numerals_digits by done. rewrite read_numerals_tail by done. by rewrite <- !app_assoc.
  - cbn [Z.eqb Pos.eqb orb tail]. change (x :: d1 ++ d2 ++ c :: s) with ((x :: d1) ++ d2 ++ c :: s).
    rewrite read_numerals_digits by done. rewrite read_numerals_tail by done. by rewrite <- !app_assoc.
Qed.

(** *** Bracketed operands *)

Lemma nstr_end_loop_ok code d : Forall (fun a => 0 < a <= 128 /\ a <> 93) d -> forall s out n fuel,
  zlen d <= n -> (List.length (d ++ 93 :: s)%Z <= fuel)%nat ->
  nstr_end_loop fuel code (d ++ 93 :: s) out 93 n = Some (93 :: s, out ++ d).
Proof.
  induction 1 as [|a d [Ha Ha2] _ IH]; intros s out n fuel Hn Hf;
    (destruct fuel as [|fuel]; [cbn in Hf; lia|]); cbn [app nstr_end_loop deref head mbind option_bind].
  - change (93 =? 0) with false. change (93 =? 93) with true. cbv iota. rewrite app_nil_r. by destruct (0 <? n).
  - rewrite zlen_cons in Hn. pose proof (zlen_nonneg d).
    destruct (Z.eqb_spec a 0); [lia|]. destruct (Z.ltb_spec 0 n); [|lia]. destruct (Z.eqb_spec 93 a); [lia|].
    unfold _read_word. cbn [deref head mbind option_bind].
    assert (word_len code a = 1) as ->.
    { unfold word_len. destruct (Z.ltb_spec 0x80 a); [lia|]. by repeat case_match. }
    cbn [copy_bytes Z.to_nat Pos.to_nat Pos.iter_op deref head tail mbind option_bind].
    change (Z.to_nat 1) with 1%nat. cbn [copy_bytes deref head tail mbind option_bind].
    rewrite IH by (first [done | lia | cbn in Hf; lia]). by rewrite <- app_assoc.
Qed.

Lemma nstr_end_ok code d s : Forall (fun a => 0 < a <= 128 /\ a <> 93) d -> zlen d <= 20 ->
  ndstr_nstr_end code (d ++ 93 :: s) 93 20 = Some (93 :: s, d ++ [0]).
Proof. intros Hd Hn. unfold ndstr_nstr_end. by rewrite nstr_end_loop_ok by (first [done | lia]). Qed.

Lemma numerals_loop_digits d : digits d -> forall dot, numerals_loop (d ++ [0]) dot 1 = Some 1.
Proof.
  induction 1 as [|c d Hc _ IH]; intros dot; [done|]. destruct (digit_char c Hc) as (H1 & H2 & H3).
  cbn [app numerals_loop]. destruct (Z.eqb_spec c 0); [lia|]. by rewrite H1, IH.
Qed.

(** A sign [-] or none, and digits. *)
Definition integer (t : list Z) : Prop :=
  exists sg d, t = sg ++ d /\ (sg = [] \/ sg = [45]) /\ digits d /\ d <> [].

Lemma hex_prefix_digits d : digits d -> is_hex_prefix (d ++ [0]) = Some false.
Proof.
  intros Hd. destruct d as [|x d]; [done|]. inversion Hd as [|? ? Hx Hd']; subst.
  unfold is_hex_prefix. cbn [app deref head tail mbind option_bind]. destruct (x =? 48); [|done].
  destruct Hd' as [|y d Hy _]; [done|]. unfold digit in Hy. cbn [app deref head mbind option_bind].
  destruct (Z.eqb_spec y 120); [lia|]. destruct (Z.eqb_spec y 88); [lia|]. done.
Qed.

Lemma hex_prefix_integer t : integer t -> is_hex_prefix (t ++ [0]) = Some false.
Proof.
  intros (sg & d & -> & Hs & Hd & _). destruct Hs as [->| ->]; [by apply hex_prefix_digits|done].
Qed.

Lemma is_numerals_integer t : integer t -> ndstr_is_numerals (t ++ [0]) = Some 1.
Proof.
  intros Ht. unfold ndstr_is_numerals. rewrite hex_prefix_integer by done. cbn [mbind option_bind].
  destruct Ht as (sg & d & -> & Hs & Hd & Hne). destruct d as [|x d]; [done|].
  inversion Hd as [|? ? Hx Hd']; subst. destruct (digit_char x Hx) as (H1 & H2 & H3). unfold digit in Hx.
  destruct Hs as [->| ->]; cbn [app]; rewrite first_valid_char by lia; cbn [mbind option_bind deref head].
  - destruct (Z.eqb_spec x 45); [lia|]. rewrite H1. cbn [tail]. by apply numerals_loop_digits.
  - cbn [Z.eqb Pos.eqb tail app]. cbn [numerals_loop]. destruct (Z.eqb_spec x 0); [lia|].
    rewrite H1. by apply numerals_loop_digits.
Qed.

Lemma atoi_hex_integer t : integer t -> ndstr_atoi_hex atoi (t ++ [0]) = Some (u64 (atoi (t ++ [0]))).
Proof. intros Ht. unfold ndstr_atoi_hex. by rewrite hex_prefix_integer. Qed.

Lemma integer_chars t : integer t -> Forall (fun a => 0 < a <= 128 /\ a <> 93) t.
Proof.
  intros (sg & d & -> & Hs & Hd & _). apply Forall_app. split.
  - destruct Hs as [->| ->]; repeat constructor; lia.
  - eapply Forall_impl; [exact Hd|]. unfold digit. intros. lia.
Qed.

(** ** Operands

    [operand t ds v]: the text [t] is an operand of source [ds] and value [v]. *)
Inductive operand : list Z -> Z -> vm_value -> Prop :=
  | op_reg1 : operand (chars "REG1") EDS_REG1 0
  | op_reg2 : operand (chars "REG2") EDS_REG2 0
  | op_imm t : numeral t -> zlen t < 128 ->
      operand t EDS_IMMEDIATE (bits_of_f32 (d2f (atof (t ++ [0]))))
  | op_mem t : integer t -> zlen t <= 20 ->
      operand (91 :: t ++ [93]) EDS_ADDRESS (u32 (atoi (t ++ [0])))
  | op_stack b t : blanks b -> integer t -> zlen t <= 20 ->
      operand (chars "[SP" ++ b ++ t ++ [93]) EDS_STACK (u32 (atoi (t ++ [0]))).

Lemma u32_u64 z : u32 (u64 z) = u32 z.
Proof.
  unfold wrapu. rewrite Z.mod_mod_divide; [done|]. by exists (2 ^ 32).
Qed.

Lemma stricmp_reg : ndstricmp (lit "reg1") (chars "REG1" ++ [0]) = Some 0 /\
  ndstricmp (lit "reg1") (chars "REG2" ++ [0]) = Some (-1) /\
  ndstricmp (lit "reg2") (chars "REG2" ++ [0]) = Some 0.
Proof. done. Qed.

Lemma reg_chars n : n = 49 \/ n = 50 -> Forall word_char [82; 69; 71; n].
Proof. intros [->| ->]; repeat constructor. Qed.

(** What follows the operand: a character that ends it, or the end of the text. *)
Definition ends (s : list Z) : Prop := s = [0] \/ exists c r, s = c :: r /\ stopper c.

(** What [asm_read_operand] gives before [s]; the comma that follows is found from
    the rest. *)
Definition reads (code : Z) (t s : list Z) (ds v : Z) : Prop :=
  exists v' r', asm_read_operand code (t ++ s) = Some (Some (ds, v', r')) /\ default 0 v' = v /\
    (s <> [0] -> exists r, r' = Some r /\ ndstrchr r 44 = ndstrchr s 44).

Lemma digits_head d : digits d -> d <> [] -> exists y u, d = y :: u /\ digit y.
Proof. destruct d; [done|]. inversion 1; eauto. Qed.

Lemma integer_head t : integer t -> exists y u, t = y :: u /\ 32 < y < 58.
Proof.
  intros (sg & d & -> & Hs & Hd & Hne). destruct (digits_head d Hd Hne) as (y & u & -> & Hy).
  unfold digit in Hy. destruct Hs as [->| ->]; cbn [app]; do 2 eexists; (split; [done|lia]).
Qed.
Lemma numeral_head t : numeral t -> exists y u, t = y :: u /\ 32 < y < 58.
Proof.
  intros (sg & d & d2 & -> & Hs & Hd & Hne & _). destruct (digits_head d Hd Hne) as (y & u & -> & Hy).
  unfold digit in Hy. destruct Hs as [->|[->| ->]]; cbn [app]; do 2 eexists; (split; [done|lia]).
Qed.

Lemma operand_head t ds v : operand t ds v -> exists x t', t = x :: t' /\ 32 < x.
Proof.
  intros [| |t' Ht _|t' _ _|b t' _ _ _]; try (by do 2 eexists).
  destruct (numeral_head t' Ht) as (y & u & -> & Hy). do 2 eexists. split; [done|lia].
Qed.

Lemma read_reg code n s : n = 49 \/ n = 50 -> ends s ->
  reads code [82; 69; 71; n] s (if n =? 49 then EDS_REG1 else EDS_REG2) 0.
Proof.
  intros Hn Hs. unfold reads, asm_read_operand. cbn [app].
  rewrite first_valid_char by lia. cbn [mbind option_bind deref head Z.eqb Pos.eqb].
  change (IS_BIG_LATIN 82 || IS_LITTLE_LATIN 82) with true. cbv iota.
  change (82 :: 69 :: 71 :: n :: s) with ([82; 69; 71; n] ++ s). destruct stricmp_reg as (E0 & E1 & E2).
  assert (forall r', ('(addr, buf) ← Some (r' : option cstr, [82; 69; 71; n] ++ [0]);
     r1 ← ndstricmp (lit "reg1") buf;
     if r1 =? 0 then Some (Some (EDS_REG1, @None vm_value, addr))
     else r2 ← ndstricmp (lit "reg2") buf; if r2 =? 0 then Some (Some (EDS_REG2, None, addr)) else Some None) =
     Some (Some (if n =? 49 then EDS_REG1 else EDS_REG2, None, r'))) as Hcmp.
  { intros r'. destruct Hn as [->| ->]; reflexivity. }
  destruct Hs as [->|(c & r & -> & Hc)].
  - rewrite parse_word_n_end by (first [by apply reg_chars | done]). rewrite Hcmp.
    do 2 eexists. split; [done|]. by split.
  - destruct (stopper_char c Hc) as (H1 & H2 & H3).
    rewrite parse_word_n_ok by (first [by apply reg_chars | done | lia]). rewrite Hcmp.
    do 2 eexists. split; [done|]. split; [done|]. eauto.
Qed.

Lemma read_imm code t s : numeral t -> zlen t < 128 -> ends s ->
  reads code t s EDS_IMMEDIATE (bits_of_f32 (d2f (atof (t ++ [0])))).
Proof.
  intros Ht Hl Hs. unfold reads, asm_read_operand.
  assert (exists c r, s = c :: r /\ IS_NUMERALS c = false /\ c <> 46) as (c & r & -> & Hc1 & Hc2).
  { destruct Hs as [->|(c & r & -> & Hc)]; [by exists 0, []|]. exists c, r.
    destruct (stopper_char c Hc) as (H1 & H2 & H3). unfold is_word_char in H3.
    repeat apply orb_false_elim in H3 as [H3 _]. done. }
  destruct (numeral_head t Ht) as (x & t' & Et & Hx).
  assert ((IS_BIG_LATIN x || IS_LITTLE_LATIN x) = false) as Hx2 by (unfold IS_BIG_LATIN, IS_LITTLE_LATIN; lia).
  assert (ndstr_first_valid (t ++ c :: r) = Some (Some (t ++ c :: r))) as ->
    by (rewrite Et; apply first_valid_char; lia).
  cbn [mbind option_bind]. assert (deref (t ++ c :: r) = Some x) as -> by (by rewrite Et).
  cbn [mbind option_bind].
  destruct (Z.eqb_spec x 91); [lia|]. rewrite Hx2.
  rewrite read_numerals_ok by done.
  cbn [mbind option_bind]. unfold fits. rewrite zlen_app. change (zlen [0]) with 1.
  destruct (Z.leb_spec (zlen t + 1) 128); [|lia]. cbn [mbind option_bind].
  do 2 eexists. split; [done|]. split; [done|]. eauto.
Qed.

(** The part of [asm_read_operand] after the bracket or [SP]. *)
Lemma read_index code t s (spop : bool) : integer t -> zlen t <= 20 ->
  ('(addr, buf) ← ndstr_nstr_end code (t ++ 93 :: s) 93 20;
   c ← deref addr;
   if negb (c =? 93) then Some None
   else num ← ndstr_is_numerals buf;
        if num =? 0 then Some None
        else a ← ndstr_atoi_hex atoi buf;
             Some (Some (if spop then EDS_STACK else EDS_ADDRESS, Some (u32 a), Some addr))) =
  Some (Some (if spop then EDS_STACK else EDS_ADDRESS, Some (u32 (atoi (t ++ [0]))), Some (93 :: s))).
Proof.
  intros Ht Hl. rewrite nstr_end_ok by (first [by apply integer_chars | done]).
  cbn [mbind option_bind deref head]. change (93 =? 93) with true. cbn [negb].
  rewrite is_numerals_integer, atoi_hex_integer by done. cbn [mbind option_bind].
  change (1 =? 0) with false. cbv iota. by rewrite u32_u64.
Qed.

Lemma read_mem code t s : integer t -> zlen t <= 20 ->
  reads code (91 :: t ++ [93]) s EDS_ADDRESS (u32 (atoi (t ++ [0]))).
Proof.
  intros Ht Hl. unfold reads, asm_read_operand. cbn [app]. rewrite <- app_assoc. cbn [app].
  rewrite first_valid_char by lia. cbn [mbind option_bind deref head tail Z.eqb Pos.eqb].
  destruct (integer_head t Ht) as (y & u & Et & Hy).
  assert (deref (t ++ 93 :: s) = Some y) as -> by (by rewrite Et). cbn [mbind option_bind].
  destruct (Z.eqb_spec y 115); [lia|]. destruct (Z.eqb_spec y 83); [lia|]. cbn [orb mbind option_bind].
  rewrite (read_index code t s false) by done. do 2 eexists. split; [done|]. split; [done|].
  intros _. by eexists.
Qed.

Lemma read_stack code b t s : blanks b -> integer t -> zlen t <= 20 ->
  reads code (chars "[SP" ++ b ++ t ++ [93]) s EDS_STACK (u32 (atoi (t ++ [0]))).
Proof.
  intros Hb Ht Hl. unfold reads, asm_read_operand. change (chars "[SP") with [91; 83; 80]. cbn [app].
  rewrite <- !app_assoc. cbn [app].
  rewrite first_valid_char by lia. cbn [mbind option_bind deref head tail Z.eqb Pos.eqb orb].
  rewrite first_valid_skip by done. destruct (integer_head t Ht) as (y & u & Et & Hy).
  assert (ndstr_first_valid (t ++ 93 :: s) = Some (Some (t ++ 93 :: s))) as ->
    by (rewrite Et; apply first_valid_char; lia).
  cbn [mbind option_bind]. rewrite (read_index code t s true) by done. do 2 eexists. split; [done|]. split; [done|].
  intros _. by eexists.
Qed.

Lemma read_operand_ok code b t ds v s : operand t ds v -> blanks b -> ends s ->
  reads code (b ++ t) s ds v.
Proof.
  intros Ho Hb Hs. enough (reads code t s ds v) as H.
  { unfold reads in *. rewrite <- app_assoc. unfold asm_read_operand in *. by rewrite first_valid_skip. }
  destruct Ho.
  - by apply (read_reg code 49); auto.
  - by apply (read_reg code 50); auto.
  - by apply read_imm.
  - by apply read_mem.
  - by apply read_stack.
Qed.

(** ** Lines *)

(** [name] is the text of instruction [op]. *)
Record mnemonic (name : list Z) (op : Z) : Prop := {
  mn_word : Forall word_char name;
  mn_len : zlen name < 128;
  mn_head : exists x t, name = x :: t /\ 35 < x;
  mn_get : get_ins (name ++ [0]) = Some op;
  mn_op : 0 <= op < EOP_NUMBERS
}.

Definition name_of (op : Z) : list Z := default [] (@removelast Z <$> get_ins_name op).

Lemma mnemonic_ok op : 0 <= op < EOP_NUMBERS -> mnemonic (name_of op) op.
Proof.
  intros Hop. assert (op = 0 \/ op = 1 \/ op = 2 \/ op = 3 \/ op = 4 \/ op = 5 \/ op = 6 \/ op = 7 \/ op = 8 \/
    op = 9 \/ op = 10 \/ op = 11 \/ op = 12 \/ op = 13 \/ op = 14 \/ op = 15 \/ op = 16) as HE
    by (unfold EOP_NUMBERS in Hop; lia).
  destruct_or! HE; subst op; (split; [repeat constructor | done | by do 2 eexists | done | done]).
Qed.

(** The line up to the operands. *)
Lemma compile_name code b0 name op x s : blanks b0 -> mnemonic name op -> blank x -> s <> [] ->
  vm_compiler_line code (b0 ++ name ++ x :: s) =
    (p ← ndstr_first_valid (x :: s);
     match p with
     | None => if check_no_operand op =? 0 then Some (-1, zero_node) else Some (1, mk_ins op EDS_NONE 0 0 0)
     | Some addr =>
         let num := get_operand_num op in
         o1 ← (if 0 <? num then asm_read_operand code addr else Some (Some (EDS_NONE, None, Some addr)));
         match o1 with
         | None => Some (-1, zero_node)
         | Some (d1, v1, addr) =>
             if second_operand num then
               addr ← addr;
               p ← ndstrchr addr 44;
               match p with
               | None => Some (-1, zero_node)
               | Some addr =>
                   o2 ← asm_read_operand code (tail addr);
                   match o2 with
                   | None => Some (-1, zero_node)
                   | Some (d2, v2, _) => Some (1, mk_ins op d1 d2 (default 0 v1) (default 0 v2))
                   end
               end
             else Some (1, mk_ins op d1 0 (default 0 v1) 0)
         end
     end).
Proof.
  intros Hb [Hw Hl (y & t & En & Hy) Hg Hop] [Hx1 Hx2] Hs. unfold vm_compiler_line.
  rewrite first_valid_skip by done.
  assert (ndstr_first_valid (name ++ x :: s) = Some (Some (name ++ x :: s))) as ->
    by (rewrite En; apply first_valid_char; lia).
  cbn [mbind option_bind]. assert (deref (name ++ x :: s) = Some y) as -> by (by rewrite En).
  cbn [mbind option_bind]. destruct (Z.eqb_spec y 35); [lia|].
  assert (is_word_char x = false) as Hxw
    by (unfold is_word_char, IS_NUMERALS, IS_BIG_LATIN, IS_LITTLE_LATIN; lia).
  unfold read_instruction. rewrite parse_word_n_ok by (first [done | lia]).
  cbn [mbind option_bind]. unfold fits. rewrite zlen_app. change (zlen [0]) with 1.
  destruct (Z.leb_spec (zlen name + 1) 128); [|lia]. cbn [mbind option_bind]. rewrite Hg. cbn [mbind option_bind].
  unfold EOP_NUMBERS in Hop. change (u8 (-1)) with 255. destruct (Z.eqb_spec op 255); [lia|].
  unfold check_instruction_valid, EOP_NUMBERS. destruct (Z.ltb_spec op 17); [|lia]. done.
Qed.

Lemma first_valid_operand b t ds v s : blanks b -> operand t ds v ->
  ndstr_first_valid (b ++ t ++ s) = Some (Some (t ++ s)).
Proof.
  intros Hb Ho. rewrite first_valid_skip by done. destruct (operand_head _ _ _ Ho) as (y & u & -> & Hy).
  by apply first_valid_char.
Qed.

Lemma strchr_blanks b s : Forall (fun c => blank c) b -> ndstrchr (b ++ 44 :: s) 44 = Some (Some (44 :: s)).
Proof.
  induction 1 as [|c b [H1 H2] _ IH]; [done|]. cbn [app ndstrchr].
  destruct (Z.eqb_spec c 44); [lia|]. destruct (Z.eqb_spec c 0); [lia|done].
Qed.

(** The blanks the compiler writes before a comma. *)
Definition spaces (b : list Z) : Prop := Forall (fun c => c = 32) b.
Lemma spaces_blanks b : spaces b -> blanks b.
Proof. intros H. eapply Forall_impl; [exact H|]. intros c ->. done. Qed.
Lemma ends_comma b s : spaces b -> ends (b ++ 44 :: s).
Proof. intros Hb. right. destruct Hb as [|c b -> _]; do 2 eexists; (split; [done|]); unfold stopper; auto. Qed.

(** Instructions with two operands, one and none. *)
Lemma compile_two code b0 op x b1 t1 d1 v1 b2 b3 t2 d2 v2 s :
  0 <= op < EOP_NUMBERS -> get_operand_num op = 2 -> blanks b0 -> blank x -> blanks b1 -> spaces b2 -> blanks b3 ->
  operand t1 d1 v1 -> operand t2 d2 v2 -> ends s ->
  vm_compiler_line code (b0 ++ name_of op ++ x :: b1 ++ t1 ++ b2 ++ 44 :: b3 ++ t2 ++ s) =
    Some (1, mk_ins op d1 d2 v1 v2).
Proof.
  intros Hop Hn Hb0 Hx Hb1 Hb2 Hb3 Ho1 Ho2 Hs.
  destruct (operand_head _ _ _ Ho1) as (y & u & Ey & _).
  rewrite (compile_name code b0 _ op); [|done|by apply mnemonic_ok|done|rewrite Ey; by destruct b1].
  change (x :: b1 ++ t1 ++ b2 ++ 44 :: b3 ++ t2 ++ s) with ((x :: b1) ++ t1 ++ b2 ++ 44 :: b3 ++ t2 ++ s).
  rewrite (first_valid_operand _ _ d1 v1) by (first [done | by constructor]). cbn [mbind option_bind].
  rewrite Hn. cbn [Z.ltb Z.compare Pos.compare Pos.compare_cont].
  destruct (read_operand_ok code [] t1 d1 v1 (b2 ++ 44 :: b3 ++ t2 ++ s) Ho1) as (w1 & r1 & E1 & Hw1 & Hr1);
    [constructor | by apply ends_comma|]. cbn [app] in E1. rewrite E1. cbn [mbind option_bind].
  destruct Hr1 as (r & -> & Er); [by destruct b2 as [|? []]|]. cbn [mbind option_bind]. rewrite Er.
  rewrite strchr_blanks by (by apply spaces_blanks). cbn [mbind option_bind tail].
  destruct (read_operand_ok code b3 t2 d2 v2 s Ho2) as (w2 & r2 & E2 & Hw2 & _); [done|done|].
  rewrite <- app_assoc in E2. rewrite E2. cbn [mbind option_bind]. by rewrite Hw1, Hw2.
Qed.

Lemma compile_one code b0 op x b1 t1 d1 v1 s :
  0 <= op < EOP_NUMBERS -> get_operand_num op = 1 -> blanks b0 -> blank x -> blanks b1 ->
  operand t1 d1 v1 -> ends s ->
  vm_compiler_line code (b0 ++ name_of op ++ x :: b1 ++ t1 ++ s) = Some (1, mk_ins op d1 0 v1 0).
Proof.
  intros Hop Hn Hb0 Hx Hb1 Ho1 Hs.
  destruct (operand_head _ _ _ Ho1) as (y & u & Ey & _).
  rewrite (compile_name code b0 _ op); [|done|by apply mnemonic_ok|done|rewrite Ey; by destruct b1].
  change (x :: b1 ++ t1 ++ s) with ((x :: b1) ++ t1 ++ s).
  rewrite (first_valid_operand _ _ d1 v1) by (first [done | by constructor]). cbn [mbind option_bind].
  rewrite Hn. cbn [Z.ltb Z.compare Pos.compare Pos.compare_cont].
  destruct (read_operand_ok code [] t1 d1 v1 s Ho1) as (w1 & r1 & E1 & Hw1 & _); [constructor|done|].
  cbn [app] in E1. rewrite E1. cbn [mbind option_bind]. by rewrite Hw1.
Qed.

Lemma compile_none code b0 op x b1 : 0 <= op < EOP_NUMBERS -> check_no_operand op = 1 ->
  blanks b0 -> blank x -> blanks b1 ->
  vm_compiler_line code (b0 ++ name_of op ++ x :: b1 ++ [0]) = Some (1, mk_ins op EDS_NONE 0 0 0).
Proof.
  intros Hop Hn Hb0 Hx Hb1. rewrite (compile_name code b0 _ op); [|done|by apply mnemonic_ok|done|by destruct b1].
  change (x :: b1 ++ [0]) with ((x :: b1) ++ [0]). rewrite first_valid_skip by (by constructor).
  cbn [ndstr_first_valid Z.leb Z.eqb Z.compare mbind option_bind]. by rewrite Hn.
Qed.

(** [NOP] with its second operand. *)
Lemma compile_nop code t ds v : operand t ds v ->
  vm_compiler_line code ([9] ++ name_of EOP_NOP ++ [9; 32; 44; 9] ++ t ++ [0]) = Some (1, mk_ins EOP_NOP 0 ds 0 v).
Proof.
  intros Ho. change ([9; 32; 44; 9] ++ t ++ [0]) with (9 :: ([32; 44; 9] ++ t ++ [0])).
  rewrite (compile_name code [9] _ EOP_NOP); [|by repeat constructor|by apply mnemonic_ok|done|done].
  change (9 :: [32; 44; 9] ++ t ++ [0]) with ([9; 32] ++ 44 :: [9] ++ t ++ [0]).
  rewrite first_valid_skip by (by repeat constructor). rewrite first_valid_char by lia. cbn [mbind option_bind].
  change (0 <? get_operand_num EOP_NOP) with false. change (second_operand (get_operand_num EOP_NOP)) with true.
  cbv iota. cbn [mbind option_bind ndstrchr Z.eqb Pos.eqb tail].
  destruct (read_operand_ok code [9] t ds v [0] Ho) as (w & r & E & Hw & _); [by repeat constructor|by left|].
  rewrite <- app_assoc in E. rewrite E. cbn [mbind option_bind default from_option id]. by rewrite Hw.
Qed.

(** ** Printing and reading back *)

Lemma digits_n_ok n : forall i acc, (0 < n)%nat -> 0 <= i < 10 ^ Z.of_nat n ->
  exists d, digits_n 10 n i acc = d ++ acc /\ digits d /\ d <> [] /\ zlen d <= Z.of_nat n /\
    forall s m, atoi_loop (d ++ s) m = atoi_loop s (m * 10 ^ zlen d + i).
Proof.
  induction n as [|n IH]; intros i acc Hn Hi; [lia|]. cbn [digits_n].
  assert (0 <= i mod 10 < 10) as Hm by (apply Z.mod_pos_bound; lia).
  destruct (Z.ltb_spec (i mod 10) 10); [|lia].
  assert (forall s m, atoi_loop ((48 + i mod 10) :: s) m = atoi_loop s (m * 10 + i mod 10)) as H1.
  { intros s m. cbn [atoi_loop]. destruct (Z.leb_spec 48 (48 + i mod 10)); [|lia].
    destruct (Z.leb_spec (48 + i mod 10) 57); [|lia]. cbn [andb]. f_equal. lia. }
  assert (digit (48 + i mod 10)) as Hdg by (unfold digit; lia).
  destruct (Z.ltb_spec i 10) as [Hlt|Hge].
  - exists [48 + i mod 10]. split_and!; [done|by constructor; [|constructor]|done|unfold zlen; simpl; lia|].
    intros s m. cbn [app]. rewrite H1. change (zlen [48 + i mod 10]) with 1. rewrite Z.pow_1_r.
    by rewrite Z.mod_small by lia.
  - destruct n as [|n]; [change (10 ^ Z.of_nat 1) with 10 in Hi; lia|].
    destruct (IH (i / 10) ((48 + i mod 10) :: acc)) as (d & E & Hd & Hne & Hl & Ha); [lia|..].
    { rewrite Nat2Z.inj_succ, Z.pow_succ_r in Hi by lia. Z.to_euclidean_division_equations; lia. }
    exists (d ++ [48 + i mod 10]). split_and!.
    + by rewrite E, <- app_assoc.
    + apply Forall_app. split; [done|by constructor; [|constructor]].
    + by destruct d.
    + rewrite zlen_app. change (zlen [48 + i mod 10]) with 1. lia.
    + intros s m. rewrite <- app_assoc. cbn [app]. rewrite Ha, H1, zlen_app.
      change (zlen [48 + i mod 10]) with 1. rewrite Z.pow_add_r by (pose proof (zlen_nonneg d); lia). f_equal.
      rewrite (Z.div_mod i 10) at 3 by lia. lia.
Qed.

Lemma fmt_d_ok i : - 2 ^ 31 <= i < 2 ^ 31 ->
  integer (fmt_d i) /\ zlen (fmt_d i) <= 20 /\ u32 (atoi (fmt_d i ++ [0])) = u32 i.
Proof.
  intros Hi. unfold fmt_d.
  assert (forall j, - 2 ^ 31 <= j < 2 ^ 31 -> u32 (s32 (Z.max (- 2 ^ 63) (Z.min (2 ^ 63 - 1) j))) = u32 j) as Hw.
  { intros j Hj. rewrite Z.min_r, Z.max_r by lia. by rewrite wraps_small by lia. }
  destruct (Z.ltb_spec i 0).
  - destruct (digits_n_ok 10 (- i) []) as (d & E & Hd & Hne & Hl & Ha); [lia|simpl; lia|].
    rewrite E, app_nil_r. split; [exists [45], d; auto|]. split; [rewrite zlen_cons; lia|].
    cbn [app]. unfold atoi. cbn [skip_space Z.eqb Pos.eqb Z.leb Z.compare Pos.compare Pos.compare_cont andb orb].
    rewrite Ha. cbn [atoi_loop Z.leb Z.compare andb Z.mul Z.add]. rewrite Hw by lia. f_equal. lia.
  - destruct (digits_n_ok 10 i []) as (d & E & Hd & Hne & Hl & Ha); [lia|simpl; lia|].
    rewrite E, app_nil_r. split; [exists [], d; auto|]. split; [lia|].
    destruct (digits_head d Hd Hne) as (y & u & Ey & Hy). unfold digit in Hy. specialize (Ha [0] 0).
    rewrite Ey in *. unfold atoi. cbn [app] in *. cbn [skip_space].
    destruct (Z.eqb_spec y 32); [lia|]. destruct (Z.leb_spec y 13); [lia|]. rewrite andb_false_r. cbn [orb].
    destruct (Z.eqb_spec y 45); [lia|]. destruct (Z.eqb_spec y 43); [lia|]. rewrite Ha.
    cbn [atoi_loop Z.leb Z.compare andb Z.mul Z.add]. rewrite Hw by lia. done.
Qed.

(** The operands whose text names them exactly: registers, stack indices and the
    addresses below ten (addresses are printed in hexadecimal without a prefix). *)
Definition exact_operand (ds : Z) (v : vm_value) : Prop :=
  (ds = EDS_REG1 \/ ds = EDS_REG2) /\ v = 0 \/ ds = EDS_STACK /\ is_word v \/ ds = EDS_ADDRESS /\ 0 <= v < 10.

Lemma fmt_x_small v : 0 <= v < 10 -> fmt_x v = fmt_d v.
Proof.
  intros Hv. assert (v = 0 \/ v = 1 \/ v = 2 \/ v = 3 \/ v = 4 \/ v = 5 \/ v = 6 \/ v = 7 \/ v = 8 \/ v = 9) as HE by lia.
  by destruct_or! HE; subst v.
Qed.

Lemma s32_range v : - 2 ^ 31 <= s32 v < 2 ^ 31.
Proof.
  unfold wraps. change (32 - 1) with 31. pose proof (Z.mod_pos_bound (v + 2 ^ 31) (2 ^ 32)). lia.
Qed.
Lemma u32_s32 v : u32 (s32 v) = u32 v.
Proof.
  unfold wrapu, wraps. change (32 - 1) with 31. rewrite Zminus_mod_idemp_l. f_equal. lia.
Qed.

Lemma operand_text_ok b ds v : blanks (chars b) -> exact_operand ds v -> operand (operand_text b ds v) ds v.
Proof.
  intros Hb [[[->| ->] ->]|[[-> Hv]|[-> Hv]]]; [constructor|constructor|..]; unfold operand_text; cbn [Z.eqb Pos.eqb EDS_IMMEDIATE EDS_ADDRESS EDS_STACK].
  - change (EDS_STACK =? EDS_IMMEDIATE) with false. change (EDS_STACK =? EDS_ADDRESS) with false.
    change (EDS_STACK =? EDS_STACK) with true. cbv iota.
    destruct (fmt_d_ok (s32 v) (s32_range v)) as (H1 & H2 & H3).
    assert (u32 (atoi (fmt_d (s32 v) ++ [0])) = v) as E by (rewrite H3, u32_s32; by apply wrapu_small).
    rewrite <- E at 2. by constructor.
  - change (EDS_ADDRESS =? EDS_IMMEDIATE) with false. change (EDS_ADDRESS =? EDS_ADDRESS) with true. cbv iota.
    rewrite (wraps_small 32) by lia. rewrite fmt_x_small by done.
    destruct (fmt_d_ok v ltac:(lia)) as (H1 & H2 & H3).
    assert (u32 (atoi (fmt_d v ++ [0])) = v) as E by (rewrite H3; apply wrapu_small; lia).
    rewrite <- E at 2. by constructor.
Qed.

(** Instructions with exact operands and nothing in the fields they do not use. *)
Definition exact_node (n : vm_instruction_node) : Prop :=
  0 <= ins n < EOP_NUMBERS /\
  (if 0 <? get_operand_num (ins n) then
     exact_operand (ds1 n) (val1 n) \/ ins n = EOP_POP /\ ds1 n = EDS_NONE /\ val1 n = 0
   else ds1 n = 0 /\ val1 n = 0) /\
  (if second_operand (get_operand_num (ins n)) then exact_operand (ds2 n) (val2 n) else ds2 n = 0 /\ val2 n = 0).

Lemma operand_num_cases op : 0 <= op < EOP_NUMBERS ->
  get_operand_num op = 0 /\ op = EOP_NOP \/ get_operand_num op = 1 \/ get_operand_num op = 2.
Proof.
  unfold get_operand_num. intros _. destruct (Z.eqb_spec op EOP_NOP); [by left|]. right.
  case_match; auto.
Qed.

(** C29: Assembling the text that [vm_output_asm] prints gives the instruction back, for
    every instruction whose operands are registers, stack indices or addresses below
    ten. *)
Theorem asm_roundtrip code n : exact_node n ->
  exists t, vm_output_asm n = Some t /\ vm_compiler_line code t = Some (1, n).
Proof.
  intros (Hop & H1 & H2). assert (exists p, get_ins_name (ins n) = Some p) as [p Ep].
  { unfold get_ins_name. destruct (Z.leb_spec 0 (ins n)); [|lia]. destruct (Z.ltb_spec (ins n) EOP_NUMBERS); [|lia].
    apply lookup_lt_is_Some_2. unfold EOP_NUMBERS in *. change (List.length __op) with 17%nat. lia. }
  assert (removelast p = name_of (ins n)) as En by (unfold name_of; by rewrite Ep).
  unfold vm_output_asm. rewrite Ep. cbn [mbind option_bind]. eexists. split; [done|]. rewrite En.
  assert (blanks [9]) as Hb9 by (by repeat constructor). assert (blank 9) as Hx9 by done.
  destruct n as [op d1 d2 v1 v2]. cbn [ins ds1 ds2 val1 val2] in *.
  destruct (operand_num_cases op Hop) as [[Hn ->]|[Hn|Hn]]; rewrite Hn in *;
    cbn [Z.ltb Z.compare Pos.compare Pos.compare_cont] in *.
  - destruct H1 as [-> ->]. pose proof (operand_text_ok " " d2 v2 ltac:(by repeat constructor) H2) as O2.
    by apply (compile_nop code (operand_text " " d2 v2) d2 v2).
  - destruct H2 as [-> ->]. cbn [app]. destruct H1 as [H1|(-> & -> & ->)].
    + rewrite <- (compile_one code [9] op 9 [] (operand_text "  " d1 v1) d1 v1 [0]); try done; [|by left].
      apply operand_text_ok; [by repeat constructor|done].
    + by apply (compile_none code [9] EOP_POP 9 []).
  - destruct H1 as [H1|(-> & _)]; [|discriminate Hn].
    pose proof (operand_text_ok "  " d1 v1 ltac:(by repeat constructor) H1) as O1.
    pose proof (operand_text_ok " " d2 v2 ltac:(by repeat constructor) H2) as O2.
    assert (spaces [32]) as Hsp by (by repeat constructor).
    rewrite <- (compile_two code [9] op 9 [] (operand_text "  " d1 v1) d1 v1 [32] [9] (operand_text " " d2 v2) d2 v2 [0]);
      try done. by left.
Qed.

Lemma asm_roundtrip_witness :
  exists t, vm_output_asm (mk_ins EOP_SUB EDS_STACK EDS_ADDRESS (u32 (-12)) 7) = Some t /\
    vm_compiler_line 0 t = Some (1, mk_ins EOP_SUB EDS_STACK EDS_ADDRESS (u32 (-12)) 7).
Proof.
  apply asm_roundtrip. split; [split; [discriminate|reflexivity]|]. split.
  - left. right. left. split; [reflexivity | split; vm_compute; [discriminate|reflexivity]].
  - right. right. split; [reflexivity | split; [discriminate|reflexivity]].
Defined.

(** What the disassembler prints is not always what the assembler reads.  An address of
    ten or more is printed in hexadecimal digits that are read back as decimal: address
    16 becomes address 10, and the text for address 10 is rejected.  The line [NOP] is
    compiled to an instruction that takes two bytes, since the count of its operands is decremented
    below zero, and that prints as a line the assembler rejects. *)
Theorem asm_reread_fails code :
  (exists t, vm_output_asm (mk_ins EOP_MOV EDS_REG1 EDS_ADDRESS 0 16) = Some t /\
     vm_compiler_line code t = Some (1, mk_ins EOP_MOV EDS_REG1 EDS_ADDRESS 0 10)) /\
  (exists t, vm_output_asm (mk_ins EOP_MOV EDS_REG1 EDS_ADDRESS 0 10) = Some t /\
     vm_compiler_line E_SRC_CODE_ANSI t = Some (-1, zero_node)) /\
  (exists n t, vm_compiler_line code (lit "NOP ") = Some (1, n) /\ vm_instruct_2buf n = [0; 0] /\
     vm_output_asm n = Some t /\ vm_compiler_line code t = Some (-1, zero_node)).
Proof.
  assert (operand (91 :: [49; 48] ++ [93]) EDS_ADDRESS 10) as Ho.
  { apply (op_mem [49; 48]); [|done]. exists [], [49; 48]. split; [done|]. split; [by left|].
    split; [|done]. repeat constructor; lia. }
  assert (blanks [9] /\ spaces [32]) as [Hb Hsp] by (split; by repeat constructor).
  split; [|split].
  2: { eexists. split; reflexivity. }
  2: { exists (mk_ins EOP_NOP EDS_NONE 0 0 0). eexists.
       split; [exact (compile_none code [] EOP_NOP 32 [] ltac:(done) eq_refl (Forall_nil_2 _) ltac:(done) (Forall_nil_2 _))|].
       split; [reflexivity|]. split; [reflexivity|].
       change ([9] ++ _) with ([9] ++ name_of EOP_NOP ++ 9 :: [32; 44; 9; 0]). 
       rewrite (compile_name code [9] _ EOP_NOP); [|done|by apply mnemonic_ok|done|done]. reflexivity. }
  eexists. split; [reflexivity|]. exact (compile_two code [9] EOP_MOV 9 [] _ EDS_REG1 0 [32] [9] _ EDS_ADDRESS 10 [0]
    ltac:(done) eq_refl Hb ltac:(done) (Forall_nil_2 _) Hsp Hb op_reg1 Ho ltac:(by left)).
Qed.

(** ** Disassembling a file *)

Lemma read_operand_at_inside code ip v ds v' ip' :
  read_operand_at code ip v = Some (ds, v', ip') -> ip' <= zlen code.
Proof.
  unfold read_operand_at. intros H. apply bind_Some in H as (d & Hd & H).
  apply mget_Some in Hd as [Hd0 Hd]. apply lookup_lt_Some in Hd. destruct (has_value d).
  - apply bind_Some in H as (w & Hw & H). unfold load_u in Hw. apply bind_Some in Hw as (b & Hb & _).
    apply mread_Some in Hb as [Hb _]. simplify_eq/=. lia.
  - simplify_eq/=. unfold zlen. lia.
Qed.

Lemma instruction_2node_inside n0 code ip n ip' :
  vm_instruction_2node n0 code ip = Some (n, ip') -> ip' <= zlen code.
Proof.
  unfold vm_instruction_2node. intros H. apply bind_Some in H as (i & Hi & H).
  apply mget_Some in Hi as [Hi0 Hi]. apply lookup_lt_Some in Hi.
  assert (ip + 1 <= zlen code) by (unfold zlen; lia).
  apply bind_Some in H as ([[d1 v1] ip1] & E1 & H). apply bind_Some in H as ([[d2 v2] ip2] & E2 & H).
  simplify_eq/=. destruct (0 <? _), (second_operand _); simplify_eq/=; eauto using read_operand_at_inside.
Qed.

(** [vm_file_rcompile] runs while [p <= buf + n], so on a file that fills its block
    (every regular file) it always reads past the end of the block. *)
Theorem rcompile_overreads infp : infp <> [] -> vm_file_rcompile infp [] = None.
Proof.
  intros Hne. unfold vm_file_rcompile. rewrite app_nil_r.
  assert (zlen infp <> 0) by (intros E; by apply Hne, zlen_0_nil). pose proof (zlen_nonneg infp).
  destruct (Z.eqb_spec (zlen infp) 0); [lia|]. destruct (Z.leb_spec (zlen infp) 0); [lia|].
  enough (forall fuel p out, p <= zlen infp -> rcompile_loop fuel infp p (zlen infp) out = None) as ->; [done|lia|].
  induction fuel as [|fuel IH]; intros p out Hp; cbn [rcompile_loop]; destruct (Z.leb_spec p (zlen infp)); [done|lia| |lia].
  destruct (vm_instruction_2node zero_node infp p) as [[nd ip]|] eqn:E; [|done]. cbn [mbind option_bind].
  apply IH. by eapply instruction_2node_inside.
Qed.
Lemma rcompile_overreads_witness : vm_file_rcompile [0; 0] [] = None.
Proof. apply rcompile_overreads. discriminate. Defined.
