(* ===== verification/Formula.v ===== *)
(** * Formula: the expression compiler of nd_formula.c

    [vm_parse_expression] cuts a formula into units (an operand, the operator after
    it and a level that counts the brackets), and walks the list to print assembler
    lines, which [asm_printf] assembles at once ([Asm]) into the caller's buffer.

    The list of units is the sequence its ring represents; a walk that starts at a
    unit knows the levels of the units before it ([prevs], nearest first), and
    returns the list from that unit on, since units are unlinked as they are used.
    The functions that call each other take fuel: the walk does not always end
    ([walk_diverges]). *)

From S2P Require Import Prelude Bytes Str Float32 Vm Asm.
From Stdlib Require Import Strings.String.

Definition OPERAND_SIZE : Z := 64.
Definition FUNCTION_SIZE : Z := 4096.
Definition FUNC_PARAM_NUM : Z := 2.
Definition OPUNIT_NUM : Z := 1024.

#[warnings="-register-all"]
Inductive sOperateUnit :=
  mk_unit (op : Z) (is_function : bool) (level : Z) (operand : list Z)
    (param_list : list (list sOperateUnit)).
Definition u_op (u : sOperateUnit) : Z := let '(mk_unit o _ _ _ _) := u in o.
Definition u_fun (u : sOperateUnit) : bool := let '(mk_unit _ f _ _ _) := u in f.
Definition u_level (u : sOperateUnit) : Z := let '(mk_unit _ _ l _ _) := u in l.
Definition u_operand (u : sOperateUnit) : list Z := let '(mk_unit _ _ _ x _) := u in x.
Definition u_params (u : sOperateUnit) : list (list sOperateUnit) := let '(mk_unit _ _ _ _ p) := u in p.
Definition set_op (u : sOperateUnit) (o l : Z) : sOperateUnit :=
  mk_unit o (u_fun u) l (u_operand u) (u_params u).
Definition set_value (u : sOperateUnit) (x : list Z) : sOperateUnit :=
  mk_unit (u_op u) false (u_level u) x (u_params u).
Definition set_params (u : sOperateUnit) (p : list (list sOperateUnit)) : sOperateUnit :=
  mk_unit (u_op u) (u_fun u) (u_level u) (u_operand u) p.

Definition LEVEL_BRACKET : Z := 3.
Definition GetOpLevel (op : Z) : Z :=
  if op =? 61 then 0
  else if (op =? 43) || (op =? 45) then 1
  else if (op =? 42) || (op =? 47) then 2
  else if (op =? 40) || (op =? 41) then 3
  else -1.

Definition __inter_func : list cstr :=
  map lit ["MAX"; "MIN"; "RAND"; "LTZERO"; "PROB"; "SET"; "SQRT"; "ROUND"; "CEIL"; "FLOOR"]%string.

Fixpoint any_equal (names : list cstr) (src : cstr) : option bool :=
  match names with
  | [] => Some false
  | n :: names => r ← ndstricmp n src; if r =? 0 then Some true else any_equal names src
  end.
Definition is_function (src : cstr) : option bool := any_equal __inter_func src.

(** [src] may fill its buffer without a terminator; then [ndstricmp] reads on. *)
Definition get_fun_params (func_name : cstr) : option Z :=
  one ← any_equal (map lit ["LTZERO"; "PROB"; "SQRT"; "ROUND"; "CEIL"; "FLOOR"]%string) func_name;
  Some (if (one : bool) then 1 else 2).

Section Code.
Context (code : Z).
(** The caller's function that replaces a name: the text it stores and success, or
    failure; [None] is a NULL pointer. *)
Context (param_parse_func : option (cstr -> option cstr)).

Definition repace_param (param : cstr) : option cstr :=
  f ← param_parse_func; f param.

(** ** Reading the text *)

(** The result, the operand and the rest of the text (or NULL). *)
Definition read_operand (textbuf : cstr) : option (Z * list Z * option cstr) :=
  p ← ndstr_first_valid textbuf;
  match p with
  | None => Some (0, [], None)
  | Some textbuf =>
      c ← deref textbuf;
      if c =? 40 then Some (2, [], Some (tail textbuf))
      else if c =? 91 then
        '(textbuf, operand_buf) ← ndstr_str_end code textbuf 93;
        _ ← fits OPERAND_SIZE operand_buf;
        c ← deref textbuf;
        if negb (c =? 93) then Some (-1, [], None)
        else
          nat ← ndstr_is_naturalnumber (tail operand_buf);
          if nat =? 0 then Some (-1, [], None)
          else
            let operand_buf := removelast operand_buf ++ [93; 0] in
            _ ← fits OPERAND_SIZE operand_buf;
            Some (1, operand_buf, Some (tail textbuf))
      else if IS_NUMERALS c || (c =? 46) || (c =? 45) || (c =? 43) then
        '(textbuf, operand_buf, readOk) ← ndstr_read_numerals textbuf;
        _ ← fits OPERAND_SIZE operand_buf;
        if readOk =? 0 then Some (-1, [], None) else Some (1, operand_buf, Some textbuf)
      else
        '(next, operand_buf) ← ndstr_parse_word code textbuf;
        _ ← fits OPERAND_SIZE operand_buf;
        f ← is_function operand_buf;
        if (f : bool) then Some (3, operand_buf, next)
        else match repace_param operand_buf with
             | Some optmp => Some (1, strncpy (Z.to_nat OPERAND_SIZE) optmp, next)
             | None => Some (-1, [], None)
             end
  end.

(** The result, the operator and the rest. *)
Definition readOperator (textbuf : cstr) : option (Z * Z * option cstr) :=
  p ← ndstr_first_valid textbuf;
  match p with
  | None => Some (0, 0, None)
  | Some textbuf =>
      c ← deref textbuf;
      if c =? 41 then Some (2, 0, Some (tail textbuf))
      else if (c =? 43) || (c =? 45) || (c =? 42) || (c =? 47) || (c =? 61)
      then Some (1, c, Some (tail textbuf))
      else Some (-1, 0, None)
  end.

(** The rest, the parameter's text and [*is_ok]. *)
Fixpoint read_func_param (textbuf : cstr) (param_buf : list Z) (is_ok : Z) : option (cstr * list Z * Z) :=
  match textbuf with
  | [] => None
  | c :: t =>
      if c =? 0 then Some (textbuf, param_buf ++ [0], is_ok)
      else if c =? 41 then
        if 0 <? is_ok then read_func_param t (param_buf ++ [c]) (is_ok - 1)
        else Some (textbuf, param_buf ++ [0], is_ok)
      else if (c =? 44) && (is_ok =? 0) then Some (textbuf, param_buf ++ [0], is_ok)
      else if c =? 40 then read_func_param t (param_buf ++ [c]) (is_ok + 1)
      else read_func_param t (param_buf ++ [c]) is_ok
  end.

Section Function.
(** [parse_express_2node]: the text and the number of free units give the result, the
    units and the number of units left. *)
Context (parse : cstr -> Z -> option (Z * list sOperateUnit * Z)).

(** The [do] loop: [n] rounds are left. *)
Fixpoint param_loop (n : nat) (textbuf : cstr) (num free : Z) (params : list (list sOperateUnit))
    : option (Z * list (list sOperateUnit) * Z * cstr * Z) :=
  match n with
  | O => Some (0, params, num, textbuf, free)
  | S n =>
      '(textbuf, f_param, is_ok) ← read_func_param textbuf [] 0;
      _ ← fits FUNCTION_SIZE f_param;
      if negb (is_ok =? 0) then Some (-1, params, num, textbuf, free)
      else
        '(r, us, free) ← parse f_param free;
        if negb (r =? 0) then Some (-1, params, num, textbuf, free)
        else
          let params := params ++ [us] in
          let num := num + 1 in
          c ← deref textbuf;
          if c =? 44 then param_loop n (tail textbuf) num free params
          else if c =? 41 then Some (0, params, num, tail textbuf, free)
          else param_loop n textbuf num free params
  end.

(** The result, the parameters, the rest and the number of free units. *)
Definition parse_function (name : cstr) (textbuf : option cstr) (free : Z)
    : option (Z * list (list sOperateUnit) * cstr * Z) :=
  textbuf ← textbuf;                           (* NULL is dereferenced *)
  p ← ndstr_first_valid textbuf;
  match p with
  | None => Some (-1, [], [], free)
  | Some textbuf =>
      c ← deref textbuf;
      if negb (c =? 40) then Some (-1, [], [], free)
      else
        '(r, params, num, textbuf, free) ←
          param_loop (Z.to_nat FUNC_PARAM_NUM) (tail textbuf) 0 free [];
        if negb (r =? 0) then Some (-1, params, textbuf, free)
        else
          n ← get_fun_params name;
          Some (if num =? n then 0 else -1, params, textbuf, free)
  end.
End Function.

Definition set_last (us : list sOperateUnit) (f : sOperateUnit -> sOperateUnit) : list sOperateUnit :=
  match last us with Some u => removelast us ++ [f u] | None => us end.

(** The [while] loop.  [opUnit]: whether the pointer is set (to the last unit). *)
Fixpoint parse_loop (fuel : nat) (nextaddr : option cstr) (bReadData opUnit : bool)
    (current_level : Z) (us : list sOperateUnit) (free : Z) : option (Z * list sOperateUnit * Z) :=
  let finish :=
    Some (if negb (current_level =? 0) then -1
          else if bReadData && opUnit && negb (default 0 (u_op <$> last us) =? 0) then -1 else 0,
          us, free) in
  match nextaddr with
  | None => finish
  | Some text =>
      c ← deref text;
      if c =? 0 then finish
      else match fuel with
      | O => None
      | S fuel =>
          let add u := us ++ [u] in
          if bReadData then
            '(ret, op_data, next) ← read_operand text;
            if ret =? -1 then Some (-1, us, free)
            else if ret =? 0 then parse_loop fuel None true false current_level us free
            else if ret =? 1 then
              if free =? 0 then Some (-1, us, free)
              else parse_loop fuel next false true current_level
                     (add (mk_unit 0 false 0 (strncpy (Z.to_nat OPERAND_SIZE) op_data) [])) (free - 1)
            else if ret =? 2 then
              parse_loop fuel next true false (current_level + LEVEL_BRACKET) us free
            else
              if free =? 0 then Some (-1, us, free)
              else
                let name := strncpy (Z.to_nat OPERAND_SIZE) op_data in
                '(r, params, next, free) ←
                  parse_function (fun t f => parse_loop fuel (Some t) true false 0 [] f) name next (free - 1);
                let us := add (mk_unit 0 true 0 name params) in
                if negb (r =? 0) then Some (-1, us, free)
                else parse_loop fuel (Some next) false true current_level us free
          else
            '(ret, chop, next) ← readOperator text;
            if ret =? -1 then Some (-1, us, free)
            else if ret =? 0 then parse_loop fuel None false opUnit current_level us free
            else if ret =? 1 then
              parse_loop fuel next true opUnit current_level
                (set_last us (fun u => set_op u chop (current_level + GetOpLevel chop))) free
            else parse_loop fuel next false opUnit (current_level - LEVEL_BRACKET) us free
      end
  end.

(** Every round reads a character, but for an empty name that the caller's function replaces;
    the operator after it is one. *)
Definition parse_express_2node (textBuf : cstr) : option (Z * list sOperateUnit) :=
  '(r, us, _) ← parse_loop (S (2 * List.length textBuf)) (Some textBuf) true false 0 [] OPUNIT_NUM;
  Some (r, us).

(** ** Printing instructions *)

(** [__asm_out]: the room left in the caller's buffer and what was stored there. *)
Record formula_out_info := mk_out { buf_size : Z; out_handle : list Z }.

(** What [%s] prints of a buffer. *)
Fixpoint c_text (s : list Z) : list Z :=
  match s with [] => [] | c :: s => if c =? 0 then [] else c :: c_text s end.

(** [text]: what the format and its arguments make. *)
Definition asm_printf (text : list Z) (st : formula_out_info) : option (formula_out_info * Z) :=
  let buf := take 127 text ++ [0] in
  '(ret, node) ← vm_compiler_line code buf;
  if ret =? -1 then Some (st, -1)
  else
    let bytes := if 0 <? ret then vm_instruct_2buf node else take 127 text in
    let done := if 0 <? ret then zlen bytes else zlen text in
    if done <=? buf_size st then
      if negb (0 <? ret) && (128 <? done) then None
      else Some (mk_out (buf_size st - done) (out_handle st ++ bytes), 0)
    else Some (st, -1).

(** For the calls whose result is ignored. *)
Definition emit (text : list Z) (st : formula_out_info) : option formula_out_info :=
  '(st, _) ← asm_printf text st; Some st.

Definition out_op_asm (op : Z) (operand1 operand2 : list Z) (st : formula_out_info) : option formula_out_info :=
  let line (name : string) := [9; 32] ++ chars name ++ [32] ++ c_text operand1 ++ chars " , "%string ++ c_text operand2 ++ [32; 10] in
  if op =? 43 then emit (line "ADD"%string) st
  else if op =? 45 then emit (line "SUB"%string) st
  else if op =? 42 then emit (line "MUL"%string) st
  else if op =? 47 then emit (line "DIV"%string) st
  else if op =? 61 then emit (line "MOV"%string) st
  else Some st.

Definition text_push : list Z := [9; 32] ++ chars "PUSH REG1 "%string ++ [10].
Definition text_push_param : list Z := [9; 32] ++ chars "PUSH   REG1"%string ++ [10].
Definition text_pop_reg : list Z := [9; 32] ++ chars "POP REG1 "%string ++ [10].
Definition text_pop : list Z := [9; 32] ++ chars "POP "%string ++ [10].
Definition text_mov21 : list Z := [9; 32] ++ chars "MOV REG2, REG1 "%string ++ [10].
Definition text_mov21' : list Z := [9; 32] ++ chars "MOV REG2 , REG1 "%string ++ [10].
Definition text_load (operand : list Z) : list Z := [9; 32] ++ chars "MOV REG1, "%string ++ c_text operand ++ [10].
Definition text_set (operand : list Z) : list Z := [9; 32] ++ chars "MOV "%string ++ c_text operand ++ chars ", REG1"%string ++ [10].
Definition text_store (operand : list Z) : list Z := [9; 32] ++ chars "MOV  "%string ++ c_text operand ++ chars ", REG1"%string ++ [10].
Definition text_fun1 (name : list Z) : list Z := [9; 32] ++ c_text name ++ chars "  REG1"%string ++ [10].
Definition text_fun2 (name : list Z) : list Z := [9; 32] ++ c_text name ++ chars "   [SP -2], [SP -1]"%string ++ [10].

Definition reg1_text : list Z := lit "REG1"%string.
Definition reg2_text : list Z := lit "REG2"%string.

(** ** Walking the list *)

(** The list from the unit the walk started at, the output and the result. *)
Abbreviation walked := (option (list sOperateUnit * formula_out_info * Z)).

Fixpoint calcNodeResult (fuel : nat) (prevs : list Z) (us : list sOperateUnit) (depth : Z)
    (st : formula_out_info) {struct fuel} : walked :=
  match fuel with
  | O => None
  | S fuel =>
      match us with
      | [] => Some ([], st, 0)
      | u :: rest =>
          if u_fun u then
            '(u, st, r) ← run_function fuel u st;
            if negb (r =? 0) then Some (u :: rest, st, -1)
            else calc_loop fuel prevs (set_value u (u_operand u)) false rest depth st
          else
            st ← emit (text_load (u_operand u)) st;
            calc_loop fuel prevs u false rest depth st
      end
  end
(** The [while] loop at the unit [u] ([pOpUnit]), before [rest]. *)
with calc_loop (fuel : nat) (prevs : list Z) (u : sOperateUnit) (is_recursion : bool)
    (rest : list sOperateUnit) (depth : Z) (st : formula_out_info) {struct fuel} : walked :=
  match fuel with
  | O => None
  | S fuel =>
      match rest with
      | [] => Some ([u], st, 0)
      | n :: rest =>
          '(n, st, r) ←
            (if u_fun n then
               st ← emit text_push st;
               '(n, st, r) ← run_function fuel n st;
               if negb (r =? 0) then Some (n, st, -1)
               else
                 st ← emit text_mov21 st;
                 st ← emit text_pop_reg st;
                 Some (set_value n (strncpy (Z.to_nat OPERAND_SIZE) reg2_text), st, 0)
             else Some (n, st, 0));
          if negb (r =? 0) then Some (u :: n :: rest, st, -1)
          else
            let operand := if (is_recursion : bool) then reg2_text else u_operand n in
            if (u_level u =? u_level n) || (u_op n =? 0) then
              st ← out_op_asm (u_op u) reg1_text operand st;
              if u_op n =? 0 then Some (n :: rest, st, 0)
              else calc_loop fuel prevs n false rest depth st
            else if u_level n <? u_level u then
              st ← out_op_asm (u_op u) reg1_text operand st;
              if negb (depth =? 0) then
                prev_level ← head prevs;          (* else the list head is read as a unit *)
                if u_level n <? prev_level then Some (n :: rest, st, 0)
                else calc_loop fuel prevs n false rest depth st
              else calc_loop fuel prevs n false rest depth st
            else
              st ← emit text_push st;
              '(l, st, _) ← calcNodeResult fuel (u_level u :: prevs) (n :: rest) (depth + 1) st;
              st ← emit text_mov21' st;
              st ← emit text_pop_reg st;
              calc_loop fuel prevs u true l depth st
      end
  end
(** The unit (its parameters are used up), the output and the result. *)
with run_function (fuel : nat) (u : sOperateUnit) (st : formula_out_info) {struct fuel}
    : option (sOperateUnit * formula_out_info * Z) :=
  match fuel with
  | O => None
  | S fuel =>
      param_num ← get_fun_params (u_operand u);
      let p0 := default [] (u_params u !! 0%nat) in
      let p1 := default [] (u_params u !! 1%nat) in
      '(p0, st, r) ← run_experssion fuel p0 st;
      if r =? -1 then Some (set_params u [p0; p1], st, -1)
      else
        st ← (if 1 <? param_num then emit text_push_param st else Some st);
        '(p1, st, r) ←
          (if 1 <? param_num then
             '(p1, st, r) ← run_experssion fuel p1 st;
             if r =? -1 then Some (p1, st, -1)
             else st ← emit text_push_param st; Some (p1, st, 0)
           else Some (p1, st, 0));
        let u := set_params u [p0; p1] in
        if r =? -1 then Some (u, st, -1)
        else
          is_set ← ndstricmp (u_operand u) (lit "SET"%string);
          st ← (if is_set =? 0 then
                  n ← head p0; emit (text_set (u_operand n)) st
                else if param_num =? 1 then emit (text_fun1 (u_operand u)) st
                else emit (text_fun2 (u_operand u)) st);
          st ← (if 1 <? param_num then st ← emit text_pop st; emit text_pop st else Some st);
          Some (u, st, 0)
  end
with run_experssion (fuel : nat) (us : list sOperateUnit) (st : formula_out_info) {struct fuel} : walked :=
  match fuel with
  | O => None
  | S fuel =>
      match us with
      | [] => Some ([], st, -1)
      | u :: rest =>
          if u_op u =? 61 then
            n ← head rest;                        (* else the list head is read as a unit *)
            '(rest, st, _) ← (if u_op n =? 61 then run_experssion fuel rest st
                              else calcNodeResult fuel [u_level u] rest 0 st);
            '(st, r) ← asm_printf (text_store (u_operand u)) st;
            Some (u :: rest, st, if r =? -1 then -1 else 0)
          else
            '(us, st, _) ← calcNodeResult fuel [] us 0 st; Some (us, st, 0)
      end
  end.

Definition oplist_2buf (fuel : nat) (us : list sOperateUnit) (size : Z) : option (Z * list Z) :=
  '(_, st, r) ← run_experssion fuel us (mk_out size []);
  Some (if r =? -1 then 0 else zlen (out_handle st), out_handle st).

(** The result and the bytes stored in [code_buf]. *)
Definition vm_parse_expression (fuel : nat) (textbuf : cstr) (size : Z) : option (Z * list Z) :=
  '(ret, us) ← parse_express_2node textbuf;
  if ret =? -1 then Some (0, []) else oplist_2buf fuel us size.
End Code.

(** Running what was compiled, on a fresh machine. *)
Definition eval_text (s : string) : option (Z * vm_value) :=
  '(n, c) ← vm_parse_expression 0 None 100 (lit s) 4096;
  '(vm, r) ← vm_run_cmd (vm_machine_init [i2f 7; i2f 8] 2 []) c n;
  Some (r, reg1 vm).

Example ex_mul : eval_text "2*3+4"%string = Some (0, i2f 10). Proof. vm_compute. reflexivity. Qed.
Example ex_prec : eval_text "2+3*4"%string = Some (0, i2f 14). Proof. vm_compute. reflexivity. Qed.
Example ex_brk : eval_text "(1+2)*(3-[1])"%string = Some (0, i2f (-15)). Proof. vm_compute. reflexivity. Qed.
Example ex_fun : eval_text "1+ MAX(2*3, 5)*SQRT(16)"%string = Some (0, i2f 25). Proof. vm_compute. reflexivity. Qed.
Example ex_bug : eval_text "10-2*3-1"%string = Some (0, i2f 5). Proof. vm_compute. reflexivity. Qed.
