(* ===== verification/Expr.v ===== *)
(** * Expr: what the formula compiler compiles

    A reference language of arithmetic expressions with its evaluation, its text
    ([print]) and its list of units ([flat]), and the proof that the compiler of
    [Formula] translates the text of a well formed expression to code that leaves
    the value of the expression in the first register.

    The proof has three parts: the instructions the printed lines stand for, the walk
    over the units ([start_ok]: an induction on the expression), and the reading of the
    text ([parse_print]). *)

From S2P Require Import Prelude Bytes Str Float32 Vm Asm Formula.
From Stdlib Require Import Strings.String.

(** ** Expressions *)

Inductive binop := Add | Sub | Mul | Div.
Inductive fun1 := Ltzero | Sqrt | Round | Ceil | Floor.
Inductive fun2 := Max | Min.

(** Constants and addresses are kept as their text. *)
Inductive expr :=
  | Num (t : list Z)
  | Mem (t : list Z)
  | Call1 (f : fun1) (a : expr)
  | Call2 (f : fun2) (a b : expr)
  | Bin (o : binop) (l r : expr)
  | Par (e : expr).

Definition sym (o : binop) : Z := match o with Add => 43 | Sub => 45 | Mul => 42 | Div => 47 end.
Definition lev (o : binop) : Z := match o with Add | Sub => 1 | Mul | Div => 2 end.
Definition opcode (o : binop) : Z :=
  match o with Add => EOP_ADD | Sub => EOP_SUB | Mul => EOP_MUL | Div => EOP_DIV end.
Definition fop1 (f : fun1) : Z :=
  match f with Ltzero => EOP_LTZERO | Sqrt => EOP_SQRT | Round => EOP_ROUND | Ceil => EOP_CEIL | Floor => EOP_FLOOR end.
Definition fop2 (f : fun2) : Z := match f with Max => EOP_MAX | Min => EOP_MIN end.

(** ** Values *)

Definition num_val (t : list Z) : vm_value := bits_of_f32 (d2f (atof (t ++ [0]))).
Definition mem_val (t : list Z) : vm_value := u32 (atoi (t ++ [0])).

(** Division by zero leaves the dividend. *)
Definition bin_val (o : binop) (a b : vm_value) : vm_value :=
  match o with
  | Add => fadd a b
  | Sub => fsub a b
  | Mul => fmul a b
  | Div => if feq b 0 then a else fdiv a b
  end.
Definition fun1_val (f : fun1) (a : vm_value) : option vm_value :=
  match f with
  | Ltzero => Some (f_ltzero a)
  | Sqrt => Some (f_sqrt a)
  | Round => f_round a
  | Ceil => Some (fceil a)
  | Floor => Some (ffloor a)
  end.
Definition fun2_val (f : fun2) (a b : vm_value) : vm_value :=
  match f with Max => f_max a b | Min => f_min a b end.

(** The value on a machine's memory; [None] when a rounded value is not an [int]. *)
Fixpoint eval (vm : vm_cpu) (e : expr) : option vm_value :=
  match e with
  | Num t => Some (num_val t)
  | Mem t => vm_getvalue EDS_ADDRESS (mem_val t) vm
  | Call1 f a => x ← eval vm a; fun1_val f x
  | Call2 f a b => x ← eval vm a; y ← eval vm b; Some (fun2_val f x y)
  | Bin o l r => x ← eval vm l; y ← eval vm r; Some (bin_val o x y)
  | Par e => eval vm e
  end.

(** ** Units *)

Definition buf_of (t : list Z) : list Z := strncpy (Z.to_nat OPERAND_SIZE) (t ++ [0]).
Definition brackets (t : list Z) : list Z := 91 :: t ++ [93].

(** The units of [e] inside [base / 3] brackets, before an operator of level [lv]. *)
Fixpoint flat (base : Z) (e : expr) (op lv : Z) : list sOperateUnit :=
  match e with
  | Num t => [mk_unit op false lv (buf_of t) []]
  | Mem t => [mk_unit op false lv (buf_of (brackets t)) []]
  | Call1 f a => [mk_unit op true lv (buf_of (name_of (fop1 f))) [flat 0 a 0 0]]
  | Call2 f a b => [mk_unit op true lv (buf_of (name_of (fop2 f))) [flat 0 a 0 0; flat 0 b 0 0]]
  | Bin o l r => flat base l (sym o) (base + lev o) ++ flat base r op lv
  | Par e => flat (base + 3) e op lv
  end.

(** A single unit, brackets aside. *)
Fixpoint atomic (e : expr) : bool :=
  match e with Bin _ _ _ => false | Par e => atomic e | _ => true end.

(** The level of the operator applied last (for an expression that is not atomic). *)
Fixpoint top (base : Z) (e : expr) : Z :=
  match e with Bin o _ _ => base + lev o | Par e => top (base + 3) e | _ => base + 3 end.

(** The right operand of the operator applied last is a single unit. *)
Fixpoint right_atomic (e : expr) : bool :=
  match e with Bin _ _ r => atomic r | Par e => right_atomic e | _ => true end.

(** *** The first unit *)

Fixpoint first (e : expr) : expr :=
  match e with Bin _ l _ => first l | Par e => first e | _ => e end.
Fixpoint hop (e : expr) (op : Z) : Z :=
  match e with Bin o l _ => hop l (sym o) | Par e => hop e op | _ => op end.
Fixpoint hlv (base : Z) (e : expr) (lv : Z) : Z :=
  match e with Bin o l _ => hlv base l (base + lev o) | Par e => hlv (base + 3) e lv | _ => lv end.

(** The texts of the constants, and the tree the compiler makes of a text: a left
    operand that ends with a compound right operand binds tighter; a compound right operand
    does not bind looser and its first operator binds tighter.  ([a - b * c - d] is read as
    [a - (b * c - d)]: see [associate].) *)
Fixpoint ok (e : expr) : Prop :=
  match e with
  | Num t => numeral t /\ zlen t < 60
  | Mem t => digits t /\ t <> [] /\ zlen t <= 20
  | Call1 _ a => ok a
  | Call2 _ a b => ok a /\ ok b
  | Bin o l r =>
      ok l /\ ok r /\
      match l with Bin o' _ r' => lev o < lev o' \/ lev o = lev o' /\ atomic r' = true | _ => True end /\
      (atomic r = true \/ lev o <= top 0 r /\ lev o < hlv 0 r 0)
  | Par e => ok e
  end.

(** How many values the code has on the stack at most. *)
Fixpoint need (e : expr) : Z :=
  match e with
  | Num _ | Mem _ => 0
  | Call1 _ a => need a
  | Call2 _ a b => Z.max (need a) (Z.max (1 + need b) 2)
  | Bin _ l r => Z.max (need l) (1 + need r)
  | Par e => need e
  end.

Lemma need_nonneg e : 0 <= need e.
Proof. induction e; cbn [need]; lia. Qed.

(** ** Instructions *)

Definition i_load (ds : Z) (v : vm_value) := mk_ins EOP_MOV EDS_REG1 ds 0 v.
Definition i_op (o : binop) (ds : Z) (v : vm_value) := mk_ins (opcode o) EDS_REG1 ds 0 v.
Definition i_push := mk_ins EOP_PUSH EDS_REG1 0 0 0.
Definition i_mov21 := mk_ins EOP_MOV EDS_REG2 EDS_REG1 0 0.
Definition i_pop1 := mk_ins EOP_POP EDS_REG1 0 0 0.
Definition i_pop := mk_ins EOP_POP EDS_NONE 0 0 0.
Definition i_fun1 (f : fun1) := mk_ins (fop1 f) EDS_REG1 0 0 0.
Definition i_fun2 (f : fun2) := mk_ins (fop2 f) EDS_STACK EDS_STACK (u32 (-2)) (u32 (-1)).

(** *** What code leaves as it was *)

Definition same_mem (vm vm' : vm_cpu) : Prop :=
  mm_func vm' = mm_func vm /\ memory vm' = memory vm /\ mem_size vm' = mem_size vm.

Record keeps (vm vm' : vm_cpu) : Prop := {
  kp_wf : vm_wf vm';
  kp_sp : sp vm' = sp vm;
  kp_mem : same_mem vm vm';
  kp_stack : take (Z.to_nat (sp vm)) (stack vm') = take (Z.to_nat (sp vm)) (stack vm)
}.

Lemma keeps_refl vm : vm_wf vm -> keeps vm vm.
Proof. intros H. split; [done | done | | done]. by split. Qed.
Lemma same_mem_trans v1 v2 v3 : same_mem v1 v2 -> same_mem v2 v3 -> same_mem v1 v3.
Proof. unfold same_mem. intuition congruence. Qed.
Lemma keeps_trans v1 v2 v3 : keeps v1 v2 -> keeps v2 v3 -> keeps v1 v3.
Proof.
  intros [A1 A2 A3 A4] [B1 B2 B3 B4].
  split; [done | congruence | by eapply same_mem_trans | rewrite A2 in B4; congruence].
Qed.
#[export] Hint Resolve keeps_refl keeps_trans : vm.

Lemma getvalue_same vm vm' v : same_mem vm vm' ->
  vm_getvalue EDS_ADDRESS v vm' = vm_getvalue EDS_ADDRESS v vm.
Proof.
  intros (E1 & E2 & E3). unfold vm_getvalue, vm_ref_operand, cell_of. rewrite E1, E3.
  change (EDS_ADDRESS =? EDS_IMMEDIATE) with false. change (EDS_ADDRESS =? EDS_REG1) with false.
  change (EDS_ADDRESS =? EDS_REG2) with false. change (EDS_ADDRESS =? EDS_STACK) with false.
  change (EDS_ADDRESS =? EDS_ADDRESS) with true. cbv iota. destruct (_ && _); [|done].
  destruct (mm_func vm) as [f|]; cbn; [destruct (f _); cbn|]; by rewrite ?E2.
Qed.

Lemma eval_same vm vm' e : same_mem vm vm' -> eval vm' e = eval vm e.
Proof.
  intros Hk. induction e; cbn [eval]; try congruence.
  - by apply getvalue_same.
  - by rewrite IHe1, IHe2.
  - by rewrite IHe1, IHe2.
Qed.

(** *** Running *)

Definition runs (ns : list vm_instruction_node) (vm vm' : vm_cpu) : Prop := run_nodes ns vm = Some (vm', 0).

Lemma runs_nil vm : runs [] vm vm.
Proof. done. Qed.
Lemma runs_app ns1 ns2 vm vm1 vm2 : runs ns1 vm vm1 -> runs ns2 vm1 vm2 -> runs (ns1 ++ ns2) vm vm2.
Proof. unfold runs. intros E1 E2. rewrite run_nodes_app, E1. exact E2. Qed.
Lemma runs_one n vm vm' : vm_run_insnode n vm = Some (vm', 0) -> runs [n] vm vm'.
Proof. unfold runs. cbn [run_nodes]. by intros ->. Qed.
Lemma runs_cons n ns vm vm1 vm2 : vm_run_insnode n vm = Some (vm1, 0) -> runs ns vm1 vm2 -> runs (n :: ns) vm vm2.
Proof. intros H1 H2. apply (runs_app [n] ns vm vm1 vm2); [by apply runs_one | done]. Qed.

Definition pushed (vm : vm_cpu) (x : vm_value) : vm_cpu :=
  set_sp (set_stack vm (<[Z.to_nat (sp vm) := x]> (stack vm))) (sp vm + 1).

Lemma run_load ds v vm x : vm_getvalue ds v vm = Some x ->
  vm_run_insnode (i_load ds v) vm = Some (set_reg1 vm x, 0).
Proof. intros E. unfold vm_run_insnode. cbn [i_load ins ds1 ds2 val1 val2]. by rewrite E. Qed.

Lemma set_reg1_same vm : set_reg1 vm (reg1 vm) = vm.
Proof. by destruct vm. Qed.

Lemma run_op o ds v vm y : vm_getvalue ds v vm = Some y ->
  vm_run_insnode (i_op o ds v) vm = Some (set_reg1 vm (bin_val o (reg1 vm) y), 0).
Proof.
  intros E. unfold vm_run_insnode. cbn [i_op ins ds1 ds2 val1 val2]. rewrite E.
  destruct o; cbn; try done. destruct (feq y 0); [by rewrite set_reg1_same|done].
Qed.

Lemma run_push vm : vm_wf vm -> sp vm < VM_STACK_SIZE ->
  vm_run_insnode i_push vm = Some (pushed vm (reg1 vm), 0).
Proof.
  intros Hw Hs. pose proof (wf_sp _ Hw). destruct (wf_stack _ Hw) as [Hl _]. unfold vm_run_insnode. cbn.
  by rewrite mset_insert by lia.
Qed.

Lemma run_pop1 vm x : vm_getvalue EDS_STACK (u32 (-1)) vm = Some x -> 0 < sp vm ->
  vm_run_insnode i_pop1 vm = Some (set_reg1 (set_sp vm (sp vm - 1)) x, 0).
Proof.
  intros E Hs. unfold vm_run_insnode. cbn. unfold vm_getvalue, vm_ref_operand in E.
  cbn [Z.eqb Pos.eqb EDS_STACK EDS_IMMEDIATE EDS_REG1 EDS_REG2] in E.
  change (EDS_STACK =? EDS_IMMEDIATE) with false in E. change (EDS_STACK =? EDS_REG1) with false in E.
  change (EDS_STACK =? EDS_REG2) with false in E. change (EDS_STACK =? EDS_STACK) with true in E.
  change (s32 (u32 (-1))) with (-1) in E. cbn [Z.ltb Z.compare] in E. cbv iota in E.
  destruct (Z.leb_spec 0 (sp vm + -1)); [|lia]. cbn [load] in E.
  change (sp vm - 1) with (sp vm + -1). by rewrite E.
Qed.

(** The entry of the stack at depth [k] below the top. *)
Lemma getvalue_stack vm k : vm_wf vm -> 0 < k <= 32 -> k <= sp vm ->
  vm_getvalue EDS_STACK (u32 (- k)) vm = stack vm !! Z.to_nat (sp vm - k).
Proof.
  intros Hw Hk Hs. pose proof (wf_sp _ Hw). destruct (wf_stack _ Hw) as [Hl _].
  unfold vm_getvalue, vm_ref_operand. assert (s32 (u32 (- k)) = - k) as ->.
  { unfold wraps, wrapu. change (32 - 1) with 31. rewrite Zplus_mod_idemp_l. rewrite Z.mod_small; lia. }
  change (EDS_STACK =? EDS_IMMEDIATE) with false. change (EDS_STACK =? EDS_REG1) with false.
  change (EDS_STACK =? EDS_REG2) with false. change (EDS_STACK =? EDS_STACK) with true. cbv iota.
  destruct (Z.ltb_spec (- k) 0); [|lia]. destruct (Z.leb_spec 0 (sp vm + - k)); [|lia].
  cbn [load]. unfold mget. rewrite (proj2 (in_range_spec _ _ _)) by lia. done.
Qed.

Lemma pushed_wf vm x : vm_wf vm -> is_word x -> sp vm < VM_STACK_SIZE -> vm_wf (pushed vm x).
Proof.
  intros Hw Hx Hs. destruct (push_ok vm x Hw Hx Hs) as (s & E & H). unfold pushed.
  pose proof (wf_sp _ Hw). destruct (wf_stack _ Hw) as [Hl _].
  rewrite mset_insert in E by lia. by simplify_eq.
Qed.

Lemma pushed_top vm x : vm_wf vm -> sp vm < VM_STACK_SIZE ->
  stack (pushed vm x) !! Z.to_nat (sp vm) = Some x.
Proof.
  intros Hw Hs. pose proof (wf_sp _ Hw). destruct (wf_stack _ Hw) as [Hl _]. unfold zlen in Hl.
  cbn. apply list_lookup_insert_eq. lia.
Qed.

Lemma keeps_lookup vm vm' i : keeps vm vm' -> 0 <= i < sp vm ->
  stack vm' !! Z.to_nat i = stack vm !! Z.to_nat i.
Proof.
  intros [_ _ _ E] Hi. rewrite <- (lookup_take_lt (stack vm') (Z.to_nat (sp vm))) by lia.
  rewrite E. apply lookup_take_lt. lia.
Qed.

(** A machine at the same depth whose stack is kept up to a push is kept. *)
Lemma keeps_pushed vm x vm1 vm2 : vm_wf vm -> sp vm < VM_STACK_SIZE -> keeps (pushed vm x) vm1 ->
  vm_wf vm2 -> sp vm2 = sp vm -> same_mem vm1 vm2 -> stack vm2 = stack vm1 -> keeps vm vm2.
Proof.
  intros Hw Hs [A1 A2 A3 A4] B1 B2 B3 B4. split; [done|done|by eapply same_mem_trans|].
  pose proof (wf_sp _ Hw). rewrite B4. cbn [pushed sp stack set_sp set_stack] in A4.
  apply (f_equal (take (Z.to_nat (sp vm)))) in A4. rewrite !take_take in A4.
  rewrite Nat.min_l in A4 by lia. rewrite A4. apply take_insert_ge. lia.
Qed.

Lemma keeps_set_reg1 vm x : vm_wf vm -> is_word x -> keeps vm (set_reg1 vm x).
Proof. intros Hw Hx. split; [by apply set_reg1_wf | done | done | done]. Qed.
Lemma set_reg2_wf vm x : vm_wf vm -> is_word x -> vm_wf (set_reg2 vm x).
Proof. intros [[H1 H2] H3 H4 H5 H6] Hx. by split. Qed.
Lemma reg1_word vm : vm_wf vm -> is_word (reg1 vm).
Proof. by intros [[H _] _ _ _ _]. Qed.
#[export] Hint Resolve keeps_set_reg1 set_reg2_wf reg1_word pushed_wf : vm.
