(* ===== verification/ExprCode.v ===== *)
(** * ExprCode: the code the formula compiler writes

    What [Formula] prints, line by line, is the instructions of [Expr]; the walk over
    the units of an expression writes code that computes its value
    ([walk_ok], [start_ok]). *)

From S2P Require Import Prelude Bytes Str Float32 Vm Asm Formula Expr.
From Stdlib Require Import Strings.String.

(** ** Lines *)

(** [text] is the line of the instruction [n]. *)
Definition line (text : list Z) (n : vm_instruction_node) : Prop :=
  zlen text <= 127 /\ forall code, vm_compiler_line code (text ++ [0]) = Some (1, n).

Definition out (st : formula_out_info) (ns : list vm_instruction_node) : formula_out_info :=
  mk_out (buf_size st - zlen (encode ns)) (out_handle st ++ encode ns).
Definition room (st : formula_out_info) (ns : list vm_instruction_node) : Prop :=
  zlen (encode ns) <= buf_size st.

Lemma encode_app ns1 ns2 : encode (ns1 ++ ns2) = encode ns1 ++ encode ns2.
Proof. unfold encode. by rewrite map_app, concat_app. Qed.
Lemma out_app st ns1 ns2 : out (out st ns1) ns2 = out st (ns1 ++ ns2).
Proof. unfold out. cbn. rewrite encode_app, zlen_app, app_assoc. f_equal. lia. Qed.
Lemma out_nil st : out st [] = st.
Proof. destruct st. unfold out. cbn. by rewrite Z.sub_0_r, app_nil_r. Qed.
Lemma room_app st ns1 ns2 : room st (ns1 ++ ns2) -> room st ns1 /\ room (out st ns1) ns2.
Proof. unfold room, out. cbn. rewrite encode_app, zlen_app. pose proof (zlen_nonneg (encode ns2)). lia. Qed.

Lemma printf_line code text n st : line text n -> room st [n] -> asm_printf code text st = Some (out st [n], 0).
Proof.
  intros [Hl Hc] Hr. unfold asm_printf. unfold zlen in Hl. rewrite take_ge by lia.
  rewrite Hc. unfold room in Hr. change (encode [n]) with (vm_instruct_2buf n ++ []) in Hr. rewrite app_nil_r in Hr.
  cbn [mbind option_bind]. change (1 =? -1) with false. change (0 <? 1) with true. cbv iota.
  destruct (Z.leb_spec (zlen (vm_instruct_2buf n)) (buf_size st)); [|lia]. cbn [negb andb mbind option_bind].
  unfold out. change (encode [n]) with (vm_instruct_2buf n ++ []). by rewrite app_nil_r.
Qed.
Lemma emit_line code text n st : line text n -> room st [n] -> emit code text st = Some (out st [n]).
Proof. intros Hl Hr. unfold emit. by rewrite (printf_line code text n). Qed.

(** The operands of a unit: the text in its buffer. *)
Definition operand_of (u : list Z) (ds v : Z) : Prop :=
  operand (c_text u) ds v /\ zlen (c_text u) < 64.

Lemma ends_10 s : ends (10 :: s).
Proof. right. do 2 eexists. split; [done|]. unfold stopper. auto. Qed.
Lemma ends_32 s : ends (32 :: s).
Proof. right. do 2 eexists. split; [done|]. unfold stopper. auto. Qed.
#[export] Hint Resolve ends_10 ends_32 : vm.

Lemma line_one b0 op x b1 t ds v s : 0 <= op < EOP_NUMBERS -> get_operand_num op = 1 -> blanks b0 -> blank x ->
  blanks b1 -> operand t ds v -> ends (s ++ [0]) -> zlen (b0 ++ name_of op ++ x :: b1 ++ t ++ s) <= 127 ->
  line (b0 ++ name_of op ++ x :: b1 ++ t ++ s) (mk_ins op ds 0 v 0).
Proof.
  intros Hop Hn Hb0 Hx Hb1 Ho Hs Hl. split; [done|]. intros code.
  repeat (rewrite <- ?app_assoc; cbn [app]). by apply (compile_one code b0 op x b1 t ds v (s ++ [0])).
Qed.
Lemma line_two b0 op x b1 t1 d1 v1 b2 b3 t2 d2 v2 s : 0 <= op < EOP_NUMBERS -> get_operand_num op = 2 ->
  blanks b0 -> blank x -> blanks b1 -> spaces b2 -> blanks b3 -> operand t1 d1 v1 -> operand t2 d2 v2 ->
  ends (s ++ [0]) -> zlen (b0 ++ name_of op ++ x :: b1 ++ t1 ++ b2 ++ 44 :: b3 ++ t2 ++ s) <= 127 ->
  line (b0 ++ name_of op ++ x :: b1 ++ t1 ++ b2 ++ 44 :: b3 ++ t2 ++ s) (mk_ins op d1 d2 v1 v2).
Proof.
  intros Hop Hn Hb0 Hx Hb1 Hb2 Hb3 Ho1 Ho2 Hs Hl. split; [done|]. intros code.
  repeat (rewrite <- ?app_assoc; cbn [app]). by apply (compile_two code b0 op x b1 t1 d1 v1 b2 b3 t2 d2 v2 (s ++ [0])).
Qed.

Ltac blank_list := repeat constructor; try done.
(** The side conditions of the lemmas on lines, lengths aside. *)
Ltac line_tac := try first [done | apply ends_10 | apply ends_32 | apply op_reg1 | apply op_reg2 | progress blank_list].

Lemma line_none b0 op x b1 : 0 <= op < EOP_NUMBERS -> check_no_operand op = 1 ->
  blanks b0 -> blank x -> blanks b1 -> zlen (b0 ++ name_of op ++ x :: b1) <= 127 ->
  line (b0 ++ name_of op ++ x :: b1) (mk_ins op EDS_NONE 0 0 0).
Proof.
  intros Hop Hn Hb0 Hx Hb1 Hl. split; [done|]. intros code.
  repeat (rewrite <- ?app_assoc; cbn [app]). by apply compile_none.
Qed.

Lemma line_push : line text_push i_push.
Proof. apply (line_one [9; 32] EOP_PUSH 32 [] (chars "REG1") EDS_REG1 0 [32; 10]); line_tac. Qed.
Lemma line_push_param : line text_push_param i_push.
Proof. apply (line_one [9; 32] EOP_PUSH 32 [32; 32] (chars "REG1") EDS_REG1 0 [10]); line_tac. Qed.
Lemma line_pop_reg : line text_pop_reg i_pop1.
Proof. apply (line_one [9; 32] EOP_POP 32 [] (chars "REG1") EDS_REG1 0 [32; 10]); line_tac. Qed.
Lemma line_pop : line text_pop i_pop.
Proof. apply (line_none [9; 32] EOP_POP 32 [10]); line_tac. Qed.
Lemma line_mov21 : line text_mov21 i_mov21.
Proof.
  apply (line_two [9; 32] EOP_MOV 32 [] (chars "REG2") EDS_REG2 0 [] [32] (chars "REG1") EDS_REG1 0 [32; 10]); line_tac.
Qed.
Lemma line_mov21' : line text_mov21' i_mov21.
Proof.
  apply (line_two [9; 32] EOP_MOV 32 [] (chars "REG2") EDS_REG2 0 [32] [32] (chars "REG1") EDS_REG1 0 [32; 10]); line_tac.
Qed.

Lemma line_load u ds v : operand_of u ds v -> line (text_load u) (i_load ds v).
Proof.
  intros [Ho Hl]. apply (line_two [9; 32] EOP_MOV 32 [] (chars "REG1"%string) EDS_REG1 0 [] [32] (c_text u) ds v [10]);
    line_tac.
  assert (zlen (name_of EOP_MOV) = 3 /\ zlen (chars "REG1") = 4) by done. zlia.
Qed.

Definition op_name (o : binop) : string :=
  match o with Add => "ADD"%string | Sub => "SUB"%string | Mul => "MUL"%string | Div => "DIV"%string end.

Lemma line_op o u ds v : operand_of u ds v ->
  line ([9; 32] ++ chars (op_name o) ++ [32] ++ c_text reg1_text ++ chars " , "%string ++ c_text u ++ [32; 10]) (i_op o ds v).
Proof.
  intros [Ho Hl]. assert (chars (op_name o) = name_of (opcode o)) as -> by (by destruct o).
  apply (line_two [9; 32] (opcode o) 32 [] (chars "REG1"%string) EDS_REG1 0 [32] [32] (c_text u) ds v [32; 10]);
    line_tac; try by destruct o.
  assert (zlen (name_of (opcode o)) = 3) as E by (by destruct o).
  assert (zlen (chars "REG1") = 4) by done. zlia.
Qed.

Lemma line_fun1 f : line (text_fun1 (buf_of (name_of (fop1 f)))) (i_fun1 f).
Proof.
  assert (text_fun1 (buf_of (name_of (fop1 f))) =
    [9; 32] ++ name_of (fop1 f) ++ 32 :: [32] ++ chars "REG1" ++ [10]) as -> by (by destruct f).
  apply (line_one [9; 32] (fop1 f) 32 [32] (chars "REG1") EDS_REG1 0 [10]); line_tac; by destruct f.
Qed.

Lemma line_fun2 f : line (text_fun2 (buf_of (name_of (fop2 f)))) (i_fun2 f).
Proof.
  assert (integer [45; 50] /\ integer [45; 49]) as [H1 H2].
  { split; exists [45]; eexists; (split; [reflexivity|]); (split; [by right|]); (split; [|discriminate]);
      repeat constructor; discriminate. }
  pose proof (op_stack [32] [45; 50] ltac:(blank_list) H1 ltac:(done)) as O1.
  pose proof (op_stack [32] [45; 49] ltac:(blank_list) H2 ltac:(done)) as O2.
  destruct f.
  - apply (line_two [9; 32] EOP_MAX 32 [32; 32] _ EDS_STACK (u32 (-2)) [] [32] _ EDS_STACK (u32 (-1)) [10]
      ltac:(done) eq_refl ltac:(blank_list) ltac:(done) ltac:(blank_list) ltac:(blank_list) ltac:(blank_list) O1 O2);
      line_tac.
  - apply (line_two [9; 32] EOP_MIN 32 [32; 32] _ EDS_STACK (u32 (-2)) [] [32] _ EDS_STACK (u32 (-1)) [10]
      ltac:(done) eq_refl ltac:(blank_list) ltac:(done) ltac:(blank_list) ltac:(blank_list) ltac:(blank_list) O1 O2);
      line_tac.
Qed.

(** [op] is the character of [o] in a unit. *)
Lemma out_op_ok code o u ds v st : operand_of u ds v -> room st [i_op o ds v] ->
  out_op_asm code (sym o) reg1_text u st = Some (out st [i_op o ds v]).
Proof.
  intros Hu Hr. pose proof (line_op o u ds v Hu) as Hl. unfold out_op_asm.
  destruct o; cbn [sym Z.eqb Pos.eqb]; by apply emit_line.
Qed.

(** ** Code that computes a value *)

(** Run with [n] free stack entries on a machine where [P] holds, the code puts the
    value [val] in the first register. *)
Definition computes (n : Z) (P : vm_cpu -> Prop) (ns : list vm_instruction_node)
    (val : vm_cpu -> option vm_value) : Prop :=
  Forall wf_node ns /\
  forall vm v, vm_wf vm -> sp vm + n <= VM_STACK_SIZE -> P vm -> val vm = Some v ->
    exists vm', runs ns vm vm' /\ reg1 vm' = v /\ keeps vm vm'.

Abbreviation always := (fun _ : vm_cpu => True).

(** The first register is saved on the stack while [ns] runs; the value ends in the second. *)
Definition guard (ns : list vm_instruction_node) : list vm_instruction_node :=
  i_push :: ns ++ [i_mov21; i_pop1].

Lemma fixed_wf : wf_node i_push /\ wf_node i_mov21 /\ wf_node i_pop1 /\ wf_node i_pop /\
  (forall f, wf_node (i_fun1 f)) /\ (forall f, wf_node (i_fun2 f)).
Proof.
  repeat match goal with |- _ /\ _ => split end; try (intros []);
    (split; [split; vm_compute; congruence | split; split; vm_compute; congruence..]).
Qed.

Lemma guard_wf ns : Forall wf_node ns -> Forall wf_node (guard ns).
Proof.
  intros H. destruct fixed_wf as (H1 & H2 & H3 & _). constructor; [done|]. apply Forall_app. auto.
Qed.

Lemma guard_ok n P ns val vm v : computes n P ns val -> 0 <= n -> vm_wf vm -> sp vm + (1 + n) <= VM_STACK_SIZE ->
  P (pushed vm (reg1 vm)) -> val (pushed vm (reg1 vm)) = Some v ->
  exists vm', runs (guard ns) vm vm' /\ reg1 vm' = reg1 vm /\ reg2 vm' = v /\ keeps vm vm'.
Proof.
  intros [_ Hc] Hn Hw Hs HP Hv. pose proof (wf_sp _ Hw).
  destruct (Hc _ _ (pushed_wf vm _ Hw (reg1_word _ Hw) ltac:(lia)) ltac:(cbn; lia) HP Hv) as (vm1 & R1 & E1 & K1).
  pose proof (kp_wf _ _ K1) as Hw1. pose proof (kp_sp _ _ K1) as Hs1. cbn [pushed sp set_sp] in Hs1.
  set (vm2 := set_reg2 vm1 (reg1 vm1)). assert (vm_wf vm2) as Hw2 by (apply set_reg2_wf; auto with vm).
  assert (sp vm2 = sp vm + 1) as Hs2 by done.
  assert (vm_getvalue EDS_STACK (u32 (-1)) vm2 = Some (reg1 vm)) as Ht.
  { change (-1) with (- (1)). rewrite (getvalue_stack vm2 1) by (done || lia). rewrite Hs2, Z.add_simpl_r.
    change (stack vm2) with (stack vm1). rewrite (keeps_lookup _ _ _ K1) by (cbn; lia). apply pushed_top; [done|lia]. }
  exists (set_reg1 (set_sp vm2 (sp vm2 - 1)) (reg1 vm)). split_and!; [|done|done|].
  - eapply runs_cons; [apply run_push; [done|lia]|]. eapply runs_app; [exact R1|].
    eapply runs_cons; [by instantiate (1 := vm2)|]. apply runs_one, run_pop1; [done|lia].
  - apply (keeps_pushed vm (reg1 vm) vm1); try done; [lia| |cbn; lia].
    apply set_reg1_wf; [|auto with vm]. apply set_sp_wf; [done|lia].
Qed.

(** Two values on the stack, a function of them, and the stack emptied. *)
Definition code2 (f : fun2) (na nb : list vm_instruction_node) : list vm_instruction_node :=
  na ++ [i_push] ++ nb ++ [i_push; i_fun2 f; i_pop; i_pop].

Lemma run_fun2 f vm a b : vm_getvalue EDS_STACK (u32 (- (2))) vm = Some a ->
  vm_getvalue EDS_STACK (u32 (- (1))) vm = Some b ->
  vm_run_insnode (i_fun2 f) vm = Some (set_reg1 vm (fun2_val f a b), 0).
Proof.
  intros Ea Eb. unfold vm_run_insnode. cbn [i_fun2 ins ds1 ds2 val1 val2].
  change (- (2)) with (-2) in Ea. change (- (1)) with (-1) in Eb. rewrite Ea, Eb. by destruct f.
Qed.
Lemma run_pop vm : vm_run_insnode i_pop vm = Some (set_sp vm (sp vm - 1), 0).
Proof. done. Qed.
Lemma run_fun1 f vm x : fun1_val f (reg1 vm) = Some x ->
  vm_run_insnode (i_fun1 f) vm = Some (set_reg1 vm x, 0).
Proof. destruct f; cbn; [by intros [= <-]..| |by intros [= <-]|by intros [= <-]]. intros H. cbn. by rewrite H. Qed.

Lemma f_round_word x y : f_round x = Some y -> is_word y.
Proof.
  unfold f_round. destruct (flt 0 x); [|destruct (feq x 0)]; intros H.
  - apply bind_Some in H as (i & _ & [= <-]). apply i2f_word.
  - injection H as <-. done.
  - apply bind_Some in H as (i & _ & [= <-]). apply i2f_word.
Qed.
Lemma fun1_word f x y : fun1_val f x = Some y -> is_word y.
Proof.
  destruct f; unfold fun1_val; [intros [= <-]; apply f_ltzero_word | intros [= <-]; apply f_sqrt_word |
    apply f_round_word | intros [= <-]; apply fceil_word | intros [= <-]; apply ffloor_word].
Qed.
Lemma bin_word o x y : is_word x -> is_word (bin_val o x y).
Proof.
  intros H. destruct o; unfold bin_val; [apply fop_word..|]. destruct (feq y 0); [done|apply fop_word].
Qed.
Lemma fun2_word f x y : is_word x -> is_word y -> is_word (fun2_val f x y).
Proof. destruct f; [apply f_max_word | apply f_min_word]. Qed.
#[export] Hint Resolve bin_word fun2_word fun1_word : vm.

Lemma push_step vm : vm_wf vm -> sp vm < VM_STACK_SIZE ->
  runs [i_push] vm (pushed vm (reg1 vm)) /\ vm_wf (pushed vm (reg1 vm)).
Proof. intros Hw Hs. split; [by apply runs_one, run_push | by apply pushed_wf; auto with vm]. Qed.

Lemma code2_ok f na nb ea eb n m : 0 <= n -> 0 <= m ->
  computes n always na (fun vm => eval vm ea) -> computes m always nb (fun vm => eval vm eb) ->
  computes (Z.max n (Z.max (1 + m) 2)) always (code2 f na nb)
    (fun vm => x ← eval vm ea; y ← eval vm eb; Some (fun2_val f x y)).
Proof.
  intros Hn Hm [Fa Ca] [Fb Cb]. destruct fixed_wf as (H1 & _ & _ & H4 & _ & H6). split.
  { unfold code2. rewrite !Forall_app, !Forall_cons. auto 20. }
  intros vm v Hw Hs _ Hv. apply bind_Some in Hv as (a & Ea & Hv). apply bind_Some in Hv as (b & Eb & [= <-]).
  pose proof (wf_sp _ Hw).
  destruct (Ca vm a) as (vm1 & R1 & <- & K1); [done|lia|done|done|]. destruct K1 as [Hw1 Hs1 Hm1 ?] eqn:EK; clear EK.
  destruct (push_step vm1) as [R2 Hw2]; [done|lia|]. set (vm2 := pushed vm1 (reg1 vm1)) in *.
  assert (sp vm2 = sp vm + 1) as Hs2 by (cbn; lia).
  destruct (Cb vm2 b) as (vm3 & R3 & <- & K3); [done|lia|done| |].
  { rewrite <- Eb. rewrite <- (eval_same vm vm1) by done. by apply eval_same. }
  pose proof (kp_wf _ _ K3) as Hw3. pose proof (kp_sp _ _ K3) as Hs3.
  destruct (push_step vm3) as [R4 Hw4]; [done|lia|]. set (vm4 := pushed vm3 (reg1 vm3)) in *.
  assert (sp vm4 = sp vm + 2) as Hs4 by (cbn; lia).
  assert (runs [i_fun2 f] vm4 (set_reg1 vm4 (fun2_val f (reg1 vm1) (reg1 vm3)))) as R5.
  { apply runs_one, run_fun2.
    - rewrite getvalue_stack by (done || lia). rewrite Hs4. replace (sp vm + 2 - 2) with (sp vm) by lia.
      cbn. rewrite list_lookup_insert_ne by lia. rewrite (keeps_lookup _ _ _ K3) by lia. rewrite <- Hs1.
      apply pushed_top; [done|lia].
    - rewrite getvalue_stack by (done || lia). rewrite Hs4. replace (sp vm + 2 - 1) with (sp vm3) by lia.
      apply pushed_top; [done|lia]. }
  set (vm5 := set_reg1 vm4 (fun2_val f (reg1 vm1) (reg1 vm3))) in *.
  assert (vm_wf vm5) as Hw5 by (apply set_reg1_wf; auto with vm).
  set (vm6 := set_sp vm5 (sp vm5 - 1)). assert (sp vm6 = sp vm + 1) as Hs6 by (cbn; lia).
  assert (vm_wf vm6) as Hw6 by (apply set_sp_wf; [done|cbn; lia]).
  set (vm7 := set_sp vm6 (sp vm6 - 1)). assert (vm_wf vm7) as Hw7 by (apply set_sp_wf; [done|cbn; lia]).
  exists vm7. split_and!; [|done|].
  - unfold code2. eapply runs_app; [exact R1|]. eapply runs_app; [exact R2|]. eapply runs_app; [exact R3|].
    eapply (runs_app [i_push]); [exact R4|]. eapply (runs_app [i_fun2 f]); [exact R5|]. done.
  - apply (keeps_trans _ vm1); [done|].
    apply (keeps_pushed vm1 (reg1 vm1) vm6); try done; [lia| |cbn; lia].
    apply (keeps_trans _ vm3); [done|].
    apply (keeps_pushed vm3 (reg1 vm3) vm4); try done; [lia|cbn; lia].
Qed.
