(* ===== verification/ExprWalk.v ===== *)
(** * ExprWalk: the walk over the units of an expression

    [calcNodeResult] and the functions it calls, on the units of a well formed
    expression: the code they write computes the value ([walk_all], [start_ok]).  The
    induction is on the expression; what the functions return is stated for every large
    enough fuel ([ev]). *)

From S2P Require Import Prelude Bytes Str Float32 Vm Asm Formula Expr ExprCode.
From Stdlib Require Import Strings.String.

(** ** Results for all large fuels *)

Definition ev {A} (F : nat -> option A) (r : A) : Prop := exists f0, forall f, (f0 <= f)%nat -> F f = Some r.

Lemma ev_const {A} (F : nat -> option A) r : (forall f, F (S f) = Some r) -> ev F r.
Proof. intros H. exists 1%nat. intros [|f] Hf; [lia|apply H]. Qed.
Lemma ev_S {A} (F G : nat -> option A) r : (forall f, F (S f) = G f) -> ev G r -> ev F r.
Proof. intros H [f0 Hg]. exists (S f0). intros [|f] Hf; [lia|]. rewrite H. apply Hg. lia. Qed.
Lemma ev_ext {A} (F G : nat -> option A) r : (forall f, F f = G f) -> ev G r -> ev F r.
Proof. intros H [f0 Hg]. exists f0. intros f Hf. by rewrite H, Hg. Qed.
Lemma ev_bind {A B} (F : nat -> option A) (G : A -> nat -> option B) a r :
  ev F a -> ev (G a) r -> ev (fun f => x ← F f; G x f) r.
Proof.
  intros [f1 H1] [f2 H2]. exists (Nat.max f1 f2). intros f Hf. rewrite H1 by lia. cbn. apply H2. lia.
Qed.

(** ** The first unit and the others *)

Fixpoint others (base : Z) (e : expr) (op lv : Z) : list sOperateUnit :=
  match e with
  | Bin o l r => others base l (sym o) (base + lev o) ++ flat base r op lv
  | Par e => others (base + 3) e op lv
  | _ => []
  end.

Lemma flat_first e : forall base op lv,
  flat base e op lv = flat 0 (first e) (hop e op) (hlv base e lv) ++ others base e op lv.
Proof.
  induction e; intros base op lv; cbn [flat first hop hlv others]; rewrite ?app_nil_r; try done.
  by rewrite IHe1, <- app_assoc.
Qed.
Lemma others_atomic e base op lv : atomic e = true ->
  others base e op lv = [] /\ hop e op = op /\ hlv base e lv = lv.
Proof. revert base. induction e; intros base; cbn; try done. apply IHe. Qed.
Lemma first_atomic vm e : atomic e = true -> eval vm (first e) = eval vm e.
Proof. by induction e. Qed.

Lemma sym_nonzero o : sym o <> 0 /\ sym o <> 61.
Proof. by destruct o. Qed.
Lemma lev_bounds o : 1 <= lev o <= 2.
Proof. by destruct o. Qed.
Lemma atomic_right e : atomic e = true -> right_atomic e = true.
Proof. by induction e. Qed.
Lemma hop_cases e : forall op, hop e op = op \/ exists o, hop e op = sym o.
Proof. induction e; intros op; cbn; eauto. destruct (IHe1 (sym o)) as [->|]; eauto. Qed.
Lemma hop_compound e op : atomic e = false -> exists o, hop e op = sym o.
Proof.
  revert op. induction e; intros op; cbn; try done; eauto. intros _. destruct (hop_cases e1 (sym o)) as [->|]; eauto.
Qed.
Lemma top_above e : forall base, base + 1 <= top base e.
Proof.
  induction e; intros base; cbn [top]; try lia.
  - pose proof (lev_bounds o). lia.
  - specialize (IHe (base + 3)). lia.
Qed.
Lemma need_first e : need (first e) <= need e.
Proof. induction e; cbn; try pose proof (need_nonneg e2); lia. Qed.

(** The operators of an operand bind tighter. *)
Lemma left_levels o l r base : ok (Bin o l r) ->
  (atomic l = true \/ base + lev o <= top base l) /\ (right_atomic l = true \/ base + lev o < top base l).
Proof.
  intros (_ & _ & Hl & _). pose proof (lev_bounds o).
  destruct l as [| | | |o' l' r'|l']; auto; cbn [atomic top right_atomic].
  - split; [right; lia|]. destruct Hl as [Hl|[E Ha]]; [right; lia|by left].
  - pose proof (top_above l' (base + 3)). split; right; lia.
Qed.
Lemma top_shift e : forall base, atomic e = false -> top base e = base + top 0 e.
Proof.
  induction e as [| | | |o l _ r _|e IH]; intros base Ha; cbn [top atomic] in *; try done.
  rewrite (IH (base + 3)), (IH (0 + 3)) by done. lia.
Qed.
Lemma hlv_shift e : forall base lv lv', atomic e = false -> hlv base e lv = base + hlv 0 e lv'.
Proof.
  induction e as [| | | |o l IHl r _|e IH]; intros base lv lv' Ha; cbn [hlv atomic] in *; try done.
  - destruct (atomic l) eqn:El.
    + destruct (others_atomic l base 0 (base + lev o) El) as (_ & _ & ->).
      destruct (others_atomic l 0 0 (0 + lev o) El) as (_ & _ & ->). lia.
    + by apply IHl.
  - rewrite (IH (base + 3) lv lv'), (IH (0 + 3) lv' lv') by done. lia.
Qed.
Lemma right_levels o l r base lv : ok (Bin o l r) ->
  atomic r = true \/ base + lev o <= top base r /\ base + lev o < hlv base r lv.
Proof.
  intros (_ & _ & _ & [Hr|[H1 H2]]); [by left|]. destruct (atomic r) eqn:Ea; [by left|right].
  rewrite top_shift, (hlv_shift r base lv 0) by done. lia.
Qed.

(** ** One round of the loop *)

Section Walk.
Context (code : Z).
Abbreviation loop := (calc_loop code).

Definition has (op lv : Z) (u : sOperateUnit) : Prop := u_op u = op /\ u_level u = lv /\ u_fun u = false.

(** Whether the loop is left before a unit of level [lv] with operator [op]. *)
Definition exits (op lv t depth : Z) (prevs : list Z) : bool :=
  (op =? 0) || (lv <? t) && negb (depth =? 0) && match head prevs with Some p => lv <? p | None => false end.

(** The levels before the unit are not higher, when there are any to look at. *)
Definition below (depth : Z) (prevs : list Z) (t : Z) : Prop :=
  0 <= depth /\ (depth = 0 \/ exists p, head prevs = Some p /\ p <= t).

(** The walk [F] comes to a unit [op], [lv] before [rest] with the output [st]: it ends
    there or goes on from there. *)
Definition arrives (stop : bool) (prevs : list Z) (rest : list sOperateUnit) (depth : Z) (st : formula_out_info)
    (op lv : Z) (F : nat -> option (list sOperateUnit * formula_out_info * Z)) : Prop :=
  exists u, has op lv u /\
    if stop then ev F (u :: rest, st, 0)
    else forall res, ev (fun f => loop f prevs u false rest depth st) res -> ev F res.

Lemma arrives_mono stop prevs rest depth st op lv F G :
  (forall res, ev F res -> ev G res) -> arrives stop prevs rest depth st op lv F ->
  arrives stop prevs rest depth st op lv G.
Proof. intros H (u & Hu & HF). exists u. split; [done|]. destruct stop; [by apply H | intros; by apply H, HF]. Qed.

(** A unit whose operand is ready: the operator before it is applied. *)
Lemma finish o ds v st prevs u n rest depth op lv (isrec : bool) :
  operand_of (if isrec then reg2_text else u_operand n) ds v -> has op lv n -> u_op u = sym o ->
  op = 0 \/ lv <= u_level u -> below depth prevs (u_level u) -> room st [i_op o ds v] ->
  arrives (exits op lv (u_level u) depth prevs) prevs rest depth (out st [i_op o ds v]) op lv
    (fun f => loop f prevs u isrec (n :: rest) depth st).
Proof.
  intros Ho (E1 & E2 & E3) Eo Hlv Hb Hr. exists n. split; [done|].
  assert (forall f, loop (S f) prevs u isrec (n :: rest) depth st =
    if exits op lv (u_level u) depth prevs then Some (n :: rest, out st [i_op o ds v], 0)
    else loop f prevs n false rest depth (out st [i_op o ds v])) as E.
  { intros f. cbn [calc_loop]. rewrite E3. cbn [mbind option_bind]. change (negb (0 =? 0)) with false. cbv iota.
    rewrite Eo, E1, E2. rewrite (out_op_ok code o _ ds v st) by done. cbn [mbind option_bind]. unfold exits.
    destruct (Z.eqb_spec op 0) as [->|Hop]; [by rewrite orb_true_r|]. rewrite orb_false_r. cbn [orb].
    destruct (Z.eqb_spec (u_level u) lv) as [Hl|Hl].
    { destruct (Z.ltb_spec lv (u_level u)); [lia|done]. }
    destruct (Z.ltb_spec lv (u_level u)); [|lia]. cbn [andb].
    destruct Hb as [_ [->|(p & Hp & Hp2)]]; [done|]. rewrite Hp. cbn [mbind option_bind].
    destruct (depth =? 0); [done|]. cbn [negb andb]. by destruct (lv <? p). }
  destruct (exits _ _ _ _ _) eqn:Ex.
  - by apply ev_const.
  - intros res H. eapply ev_S; [exact E|done].
Qed.

(** A unit of a higher level with a ready operand: its operators are applied first. *)
Lemma compound_step ds v st prevs u n tl l st1 x depth res :
  operand_of (u_operand n) ds v -> u_fun n = false -> u_op n <> 0 -> u_level u < u_level n ->
  room st [i_push; i_load ds v] -> room st1 [i_mov21; i_pop1] ->
  ev (fun f => loop f (u_level u :: prevs) n false tl (depth + 1) (out st [i_push; i_load ds v])) (l, st1, x) ->
  ev (fun f => loop f prevs u true l depth (out st1 [i_mov21; i_pop1])) res ->
  ev (fun f => loop f prevs u false (n :: tl) depth st) res.
Proof.
  intros Ho Hf Hop Hlv Hr Hr1 H1 H2.
  destruct (room_app st [i_push] [i_load ds v] Hr) as [Ra Rb].
  destruct (room_app st1 [i_mov21] [i_pop1] Hr1) as [Rc Rd].
  assert (ev (fun f => calcNodeResult code f (u_level u :: prevs) (n :: tl) (depth + 1) (out st [i_push])) (l, st1, x)) as H3.
  { eapply ev_S; [|exact H1]. intros f. cbn [calcNodeResult]. rewrite Hf.
    rewrite (emit_line code _ (i_load ds v)) by (done || by apply line_load). cbn [mbind option_bind].
    by rewrite out_app. }
  eapply (ev_S _ (fun f => '(l, st, _) ← calcNodeResult code f (u_level u :: prevs) (n :: tl) (depth + 1) (out st [i_push]);
    st ← emit code text_mov21' st; st ← emit code text_pop_reg st; loop f prevs u true l depth st)).
  - intros f. cbn [calc_loop]. rewrite Hf. cbn [mbind option_bind]. change (negb (0 =? 0)) with false. cbv iota.
    destruct (Z.eqb_spec (u_level u) (u_level n)); [lia|]. destruct (Z.eqb_spec (u_op n) 0); [done|]. cbn [orb].
    destruct (Z.ltb_spec (u_level n) (u_level u)); [lia|].
    by rewrite (emit_line code _ i_push) by (done || apply line_push).
  - eapply (ev_bind _ (fun a f => let '(l, st, _) := a in st ← emit code text_mov21' st; st ← emit code text_pop_reg st;
      loop f prevs u true l depth st)); [exact H3|]. cbn beta iota. eapply ev_ext; [|exact H2]. intros f. cbn beta.
    rewrite (emit_line code _ i_mov21) by (done || apply line_mov21'). cbn [mbind option_bind].
    rewrite (emit_line code _ i_pop1) by (done || apply line_pop_reg). cbn [mbind option_bind]. by rewrite out_app.
Qed.

Definition reg2_buf : list Z := strncpy (Z.to_nat OPERAND_SIZE) reg2_text.

(** A function as the right operand: its code runs first, and the unit becomes [REG2]. *)
Lemma call_step ns st prevs u n n' tl depth res :
  u_fun n = true -> room st (guard ns) ->
  ev (fun f => run_function code f n (out st [i_push])) (n', out (out st [i_push]) ns, 0) ->
  ev (fun f => loop f prevs u false (set_value n' reg2_buf :: tl) depth (out st (guard ns))) res ->
  ev (fun f => loop f prevs u false (n :: tl) depth st) res.
Proof.
  intros Hf Hr Hrun [f2 H2]. unfold guard in *.
  change (i_push :: ns ++ [i_mov21; i_pop1]) with ([i_push] ++ ns ++ [i_mov21] ++ [i_pop1]) in *.
  destruct (room_app st [i_push] _ Hr) as [Ra Hr1]. destruct (room_app _ ns _ Hr1) as [Rb Hr2].
  destruct (room_app _ [i_mov21] _ Hr2) as [Rc Rd]. destruct Hrun as [f1 H1].
  exists (S (Nat.max f1 f2)). intros [|f] Hle; [lia|]. rewrite <- (H2 (S f)) by lia. cbn [calc_loop].
  rewrite Hf. rewrite (emit_line code _ i_push) by (done || apply line_push). cbn [mbind option_bind].
  rewrite H1 by lia. cbn [mbind option_bind]. change (negb (0 =? 0)) with false. cbv iota.
  rewrite (emit_line code _ i_mov21) by (done || apply line_mov21). cbn [mbind option_bind].
  rewrite (emit_line code _ i_pop1) by (done || apply line_pop_reg). cbn [mbind option_bind].
  rewrite !out_app. by destruct n'.
Qed.

(** ** The first unit *)

(** A constant or an address, and a call. *)
Definition leaf_ok (x : expr) : Prop :=
  exists ds v, (forall op, is_byte op -> wf_node (mk_ins op EDS_REG1 ds 0 v)) /\
    (forall vm, vm_getvalue ds v vm = eval vm x) /\
    forall op lv, exists u, flat 0 x op lv = [u] /\ has op lv u /\ operand_of (u_operand u) ds v.
Definition call_ok (x : expr) : Prop :=
  exists ns, computes (need x) always ns (fun vm => eval vm x) /\
    forall op lv, exists u, flat 0 x op lv = [u] /\ u_fun u = true /\
      forall st, room st ns -> exists u', u_op u' = op /\ u_level u' = lv /\
        ev (fun f => run_function code f u st) (u', out st ns, 0).
Definition head_ok (e : expr) : Prop := leaf_ok (first e) \/ call_ok (first e).

(** The operand [ds], [v] has the value [x], before and after a push. *)
Definition value_at (ds v : Z) (x : vm_value) (vm : vm_cpu) : Prop :=
  vm_getvalue ds v vm = Some x /\ forall y, vm_getvalue ds v (pushed vm y) = Some x.

Lemma reg2_value vm x : reg2 vm = x -> value_at EDS_REG2 0 x vm.
Proof. by intros <-. Qed.
Lemma reg2_operand : operand_of reg2_buf EDS_REG2 0 /\ operand_of reg2_text EDS_REG2 0.
Proof. repeat split; constructor. Qed.
Lemma reg2_wf op : is_byte op -> wf_node (mk_ins op EDS_REG1 EDS_REG2 0 0).
Proof. intros H. split; [done | split; vm_compute; split; congruence..]. Qed.

(** Code [pre] that makes the first unit an operand. *)
Lemma operand_ready e : head_ok e -> exists pre ds v,
  Forall wf_node pre /\ (forall op, is_byte op -> wf_node (mk_ins op EDS_REG1 ds 0 v)) /\
  (forall vm x, vm_wf vm -> sp vm + (1 + need e) <= VM_STACK_SIZE -> eval vm (first e) = Some x ->
    exists vm1, runs pre vm vm1 /\ reg1 vm1 = reg1 vm /\ keeps vm vm1 /\ value_at ds v x vm1) /\
  forall op lv st, room st pre -> exists h n, flat 0 (first e) op lv = [h] /\ has op lv n /\
    operand_of (u_operand n) ds v /\
    forall prevs u tl depth res, ev (fun f => loop f prevs u false (n :: tl) depth (out st pre)) res ->
      ev (fun f => loop f prevs u false (h :: tl) depth st) res.
Proof.
  pose proof (need_first e) as Hn. pose proof (need_nonneg (first e)) as Hn0. intros [(ds & v & Hwf & Hv & Hu)|(ns & Hc & Hu)].
  - exists [], ds, v. split_and!; [constructor | done | |].
    + intros vm x Hw Hs He. exists vm. split_and!; [apply runs_nil | done | auto with vm |].
      split; [by rewrite Hv|]. intros y. rewrite Hv, <- He. by apply eval_same.
    + intros op lv st _. destruct (Hu op lv) as (u & E & Hh & Ho). exists u, u. split_and!; try done.
      by rewrite out_nil.
  - exists (guard ns), EDS_REG2, 0. split_and!; [by apply guard_wf, Hc | apply reg2_wf | |].
    + intros vm x Hw Hs He. destruct (guard_ok _ _ _ _ vm x Hc Hn0 Hw) as (vm' & R & E1 & E2 & K);
        [lia | done | rewrite <- He; by apply eval_same |]. exists vm'. split_and!; try done. by apply reg2_value.
    + intros op lv st Hr. destruct (Hu op lv) as (u & E & E3 & Hrun).
      destruct (room_app st [i_push] _ Hr) as [_ Hr1]. destruct (room_app _ ns _ Hr1) as [Hr2 _].
      destruct (Hrun _ Hr2) as (u' & E4 & E5 & Hrun').
      exists u, (set_value u' reg2_buf). split_and!; [done | by split_and! | apply reg2_operand |].
      intros prevs w tl depth res H. by eapply call_step.
Qed.

(** ** Expressions *)

Definition fits_in (e : expr) (base op lv depth : Z) (prevs : list Z) : Prop :=
  (atomic e = true \/ below depth prevs (top base e)) /\
  (atomic e = true \/ op = 0 \/ lv <= top base e) /\
  (right_atomic e = true \/ op = 0 \/ lv < top base e).

(** The walk from the first unit on: its value is in the first register. *)
Definition walk_ok (e : expr) : Prop :=
  exists ns, computes (need e) (fun vm => eval vm (first e) = Some (reg1 vm)) ns (fun vm => eval vm e) /\
    forall base op lv prevs depth rest st u, room st ns -> fits_in e base op lv depth prevs ->
      has (hop e op) (hlv base e lv) u ->
      arrives (negb (atomic e) && exits op lv (top base e) depth prevs) prevs rest depth (out st ns) op lv
        (fun f => loop f prevs u false (others base e op lv ++ rest) depth st).

(** A right operand: the unit before it holds the operator [o]. *)
Definition right_ok (o : binop) (r : expr) : Prop :=
  exists ns, computes (1 + need r) always ns (fun vm => y ← eval vm r; Some (bin_val o (reg1 vm) y)) /\
    forall base op lv prevs depth rest st u, room st ns ->
      op = 0 \/ lv <= base + lev o -> atomic r = true \/ op = 0 \/ lv < base + lev o ->
      atomic r = true \/ base + lev o <= top base r /\ base + lev o < hlv base r lv -> below depth prevs (base + lev o) ->
      right_atomic r = true \/ op = 0 \/ lv < top base r ->
      u_op u = sym o -> u_level u = base + lev o ->
      arrives (exits op lv (base + lev o) depth prevs) prevs rest depth (out st ns) op lv
        (fun f => loop f prevs u false (flat base r op lv ++ rest) depth st).

Lemma op_node_wf o ds v : (forall op, is_byte op -> wf_node (mk_ins op EDS_REG1 ds 0 v)) -> wf_node (i_op o ds v).
Proof. intros H. apply H. by destruct o. Qed.

Lemma value_right o e ds v pre n : 0 <= n -> Forall wf_node pre ->
  (forall op, is_byte op -> wf_node (mk_ins op EDS_REG1 ds 0 v)) ->
  (forall vm y, vm_wf vm -> sp vm + n <= VM_STACK_SIZE -> eval vm e = Some y ->
    exists vm1, runs pre vm vm1 /\ reg1 vm1 = reg1 vm /\ keeps vm vm1 /\ vm_getvalue ds v vm1 = Some y) ->
  computes n always (pre ++ [i_op o ds v]) (fun vm => y ← eval vm e; Some (bin_val o (reg1 vm) y)).
Proof.
  intros Hn Hp Hwf Hc. split.
  { apply Forall_app. split; [done|]. constructor; [by apply op_node_wf|done]. }
  intros vm w Hw Hs _ Hv. apply bind_Some in Hv as (y & Ey & [= <-]).
  destruct (Hc vm y Hw Hs Ey) as (vm1 & R & E & K & Hy). pose proof (kp_wf _ _ K) as Hw1.
  exists (set_reg1 vm1 (bin_val o (reg1 vm1) y)). split_and!.
  - eapply runs_app; [exact R|]. by apply runs_one, run_op.
  - cbn. by rewrite E.
  - eapply keeps_trans; [exact K|]. apply keeps_set_reg1; auto with vm.
Qed.

(** The code of an operand that is not a single unit: loaded, computed, moved to [REG2]. *)
Lemma computes_load e ds v ns : (forall op, is_byte op -> wf_node (mk_ins op EDS_REG1 ds 0 v)) ->
  computes (need e) (fun vm => eval vm (first e) = Some (reg1 vm)) ns (fun vm => eval vm e) ->
  computes (need e) (fun vm => exists x, vm_getvalue ds v vm = Some x /\ eval vm (first e) = Some x)
    (i_load ds v :: ns) (fun vm => eval vm e).
Proof.
  intros Hwf [Hn Hc]. split; [constructor; [by apply Hwf|done]|].
  intros vm w Hw Hs (x & Hx & Ex) Hv.
  assert (is_word x) as Hxw.
  { destruct (Hwf 0) as [_ _ [_ Hv2]]; [done|]. destruct (getvalue_ok vm ds v Hw Hv2) as (x' & E & H). by simplify_eq. }
  pose proof (keeps_set_reg1 vm x Hw Hxw) as K.
  destruct (Hc (set_reg1 vm x) w) as (vm2 & R & E & K2); [apply K | done | | |].
  - change (reg1 (set_reg1 vm x)) with x. rewrite <- Ex. apply eval_same, K.
  - rewrite <- Hv. apply eval_same, K.
  - exists vm2. split_and!; [|done|by eapply keeps_trans]. eapply runs_cons; [by apply run_load|done].
Qed.

Lemma eval_first vm e v : eval vm e = Some v -> exists x, eval vm (first e) = Some x.
Proof.
  revert v. induction e; intros v H; cbn in *; eauto. apply bind_Some in H as (x & Hx & _). eauto.
Qed.

Lemma right_from o r : head_ok r -> walk_ok r -> right_ok o r.
Proof.
  intros Hh (ns & HK & Hw). destruct (operand_ready r Hh) as (pre & ds & v & Hp & Hwf & Hv & Hu).
  pose proof (need_nonneg r) as Hn. unfold right_ok. destruct (atomic r) eqn:Ea.
  - exists (pre ++ [i_op o ds v]). split.
    + apply value_right; [lia|done|done|]. intros vm y Hvm Hs Hy. rewrite <- (first_atomic vm r Ea) in Hy.
      destruct (Hv vm y Hvm Hs Hy) as (vm1 & R & E & K & [Hg _]). eauto.
    + intros base op lv prevs depth rest st u Hr Hlv _ _ Hb _ Eo El.
      destruct (room_app st pre _ Hr) as [Ra Rb]. destruct (others_atomic r base op lv Ea) as (E1 & E2 & E3).
      rewrite flat_first, E1, E2, E3, app_nil_r. destruct (Hu op lv st Ra) as (h & n & -> & Hn1 & Ho & Hstep).
      rewrite <- El in *. rewrite <- out_app.
      eapply arrives_mono; [intros res; apply Hstep|]. by apply finish.
  - exists (pre ++ guard (i_load ds v :: ns) ++ [i_op o EDS_REG2 0]). split.
    + rewrite app_assoc. apply value_right; [lia| |apply reg2_wf|].
      { apply Forall_app. split; [done|]. apply guard_wf. by apply (computes_load r ds v ns). }
      intros vm y Hvm Hs Hy. destruct (eval_first _ _ _ Hy) as (x & Hx).
      destruct (Hv vm x Hvm Hs Hx) as (vm1 & R & E & K & [_ Hg]). pose proof (kp_sp _ _ K) as Es.
      destruct (guard_ok _ _ _ _ vm1 y (computes_load r ds v ns Hwf HK) Hn (kp_wf _ _ K)) as (vm2 & R2 & E2 & E3 & K2);
        [lia | | |].
      * exists x. split; [apply Hg|]. rewrite <- Hx. rewrite <- (eval_same vm vm1) by apply K. by apply eval_same.
      * rewrite <- Hy. rewrite <- (eval_same vm vm1) by apply K. by apply eval_same.
      * exists vm2. split_and!; [by eapply runs_app | congruence | by eapply keeps_trans |]. cbn. by rewrite E3.
    + intros base op lv prevs depth rest st u Hr Hlv Hlv2 Htop Hb Hra Eo El.
      destruct Hlv2 as [?|Hlv2]; [done|]. destruct Htop as [?|[Htop Hhlv]]; [done|].
      destruct (room_app st pre _ Hr) as [Ra Rb]. destruct (hop_compound r op Ea) as (o' & Eh).
      rewrite flat_first. destruct (Hu (hop r op) (hlv base r lv) st Ra) as (h & n & -> & (N1 & N2 & N3) & Ho & Hstep).
      specialize (Hw base op lv (u_level u :: prevs) (depth + 1) rest (out (out st pre) [i_push; i_load ds v]) n).
      change (guard (i_load ds v :: ns) ++ [i_op o EDS_REG2 0]) with
        ([i_push; i_load ds v] ++ (ns ++ [i_mov21; i_pop1]) ++ [i_op o EDS_REG2 0]) in *.
      rewrite <- app_assoc in *. destruct (room_app _ _ _ Rb) as [Rc Rd]. destruct (room_app _ _ _ Rd) as [Re Rf].
      destruct (room_app _ _ _ Rf) as [Rg Rh]. rewrite <- !out_app.
      destruct Hw as (u' & Hu' & Hw); [done | | done |].
      { split; [right; split; [destruct Hb; lia|right; exists (u_level u); split; [done|lia]]|]. split; [right; lia|done]. }
      assert (exits op lv (top base r) (depth + 1) (u_level u :: prevs) = true) as Ex.
      { unfold exits. cbn [head]. destruct (Z.eqb_spec op 0); [done|].
        destruct (Z.ltb_spec lv (top base r)); [|lia]. destruct (Z.eqb_spec (depth + 1) 0); [destruct Hb; lia|].
        destruct (Z.ltb_spec lv (u_level u)); [done|lia]. }
      cbn [negb andb] in Hw. rewrite Ex in Hw. rewrite <- El in *.
      eapply arrives_mono; [intros res Hres; apply Hstep|].
      * eapply (compound_step ds v _ prevs u n (others base r op lv ++ rest)); try done.
        -- rewrite N1, Eh. apply sym_nonzero.
        -- rewrite N2. lia.
      * apply finish; try done. apply reg2_operand.
Qed.

(** The induction on the operators. *)
Lemma walk_bin o l r : ok (Bin o l r) -> walk_ok l -> right_ok o r -> walk_ok (Bin o l r).
Proof.
  intros Hok (n1 & [F1 C1] & W1) (n2 & [F2 C2] & W2). exists (n1 ++ n2). split.
  { split; [by apply Forall_app|]. intros vm w Hvm Hs HP Hv. cbn [eval first need] in *.
    apply bind_Some in Hv as (x & Ex & Hv). apply bind_Some in Hv as (y & Ey & [= <-]).
    destruct (C1 vm x Hvm ltac:(lia) HP Ex) as (vm1 & R1 & <- & K1). pose proof (kp_sp _ _ K1) as Es.
    destruct (C2 vm1 (bin_val o (reg1 vm1) y)) as (vm2 & R2 & E2 & K2); [apply K1|lia|done| |].
    { cbn beta. rewrite (eval_same vm vm1) by apply K1. by rewrite Ey. }
    exists vm2. split_and!; [by eapply runs_app | done | by eapply keeps_trans]. }
  intros base op lv prevs depth rest st u Hr (H1 & H2 & H3) Hu. cbn [atomic top hop hlv others right_atomic negb andb] in *.
  destruct H1 as [?|H1]; [done|]. destruct H2 as [?|H2]; [done|].
  destruct (room_app st n1 n2 Hr) as [Ra Rb]. rewrite <- out_app, <- app_assoc.
  destruct (left_levels o l r base Hok) as [L1 L2]. pose proof (right_levels o l r base lv Hok) as L3.
  pose proof (sym_nonzero o) as [Hsym _].
  destruct (W1 base (sym o) (base + lev o) prevs depth (flat base r op lv ++ rest) st u Ra) as (u1 & (U1 & U2 & U3) & HW1); [|done|].
  { split; [|split]; [|tauto|tauto]. destruct L1 as [L1|L1]; [by left|]. right. destruct H1 as [Hd [->|(p & Hp & Hp2)]].
    - split; [lia|by left].
    - split; [done|right; exists p; split; [done|lia]]. }
  assert (negb (atomic l) && exits (sym o) (base + lev o) (top base l) depth prevs = false) as Ex.
  { destruct (atomic l); [done|]. cbn [negb andb]. unfold exits. destruct (Z.eqb_spec (sym o) 0); [done|]. cbn [orb].
    destruct H1 as [_ [->|(p & -> & Hp)]]; [by rewrite andb_false_r|].
    destruct (Z.ltb_spec (base + lev o) p); [lia|]. by rewrite andb_false_r. }
  rewrite Ex in HW1. eapply arrives_mono; [exact HW1|]. apply W2; try done.
  destruct L3 as [L3|[L3 _]]; [left; by apply atomic_right|].
  destruct H3 as [H3|[H3|H3]]; [left; by apply atomic_right | right; by left | right; right; lia].
Qed.

(** ** From the first unit *)

Definition start_ok (e : expr) : Prop :=
  exists ns, computes (need e) always ns (fun vm => eval vm e) /\
    forall st prevs, room st ns ->
      exists l, ev (fun f => calcNodeResult code f prevs (flat 0 e 0 0) 0 st) (l, out st ns, 0).

(** Code that puts the value of the first unit in the first register. *)
Lemma first_value x ns e : computes (need x) always ns (fun vm => eval vm (first e)) -> need x <= need e ->
  forall ns', computes (need e) (fun vm => eval vm (first e) = Some (reg1 vm)) ns' (fun vm => eval vm e) ->
  computes (need e) always (ns ++ ns') (fun vm => eval vm e).
Proof.
  intros [F1 C1] Hn ns' [F2 C2]. split; [by apply Forall_app|]. intros vm v Hw Hs _ Hv.
  destruct (eval_first _ _ _ Hv) as (y & Hy). destruct (C1 vm y Hw ltac:(lia) I Hy) as (vm1 & R1 & <- & K1).
  pose proof (kp_sp _ _ K1) as Es. destruct (C2 vm1 v) as (vm2 & R2 & E2 & K2); [apply K1 | lia | | |].
  - rewrite <- Hy. apply eval_same, K1.
  - rewrite <- Hv. apply eval_same, K1.
  - exists vm2. split_and!; [by eapply runs_app | done | by eapply keeps_trans].
Qed.

Lemma load_computes ds v x : (forall op, is_byte op -> wf_node (mk_ins op EDS_REG1 ds 0 v)) ->
  (forall vm, vm_getvalue ds v vm = eval vm x) ->
  computes (need x) always [i_load ds v] (fun vm => eval vm x).
Proof.
  intros Hwf Hg. split; [constructor; [by apply Hwf|done]|]. intros vm y Hw Hs _ Hy. rewrite <- Hg in Hy.
  destruct (Hwf 0) as [_ _ [_ Hv2]]; [done|]. destruct (getvalue_ok vm ds v Hw Hv2) as (y' & E & H).
  simplify_eq. exists (set_reg1 vm y). split_and!; [by apply runs_one, run_load | done | by apply keeps_set_reg1].
Qed.

(** The end of the walk: nothing follows the last unit, which has no operator. *)
Lemma walk_end e ns prevs u st F :
  computes (need e) (fun vm => eval vm (first e) = Some (reg1 vm)) ns (fun vm => eval vm e) /\
    (forall base op lv prevs depth rest st u, room st ns -> fits_in e base op lv depth prevs ->
      has (hop e op) (hlv base e lv) u ->
      arrives (negb (atomic e) && exits op lv (top base e) depth prevs) prevs rest depth (out st ns) op lv
        (fun f => loop f prevs u false (others base e op lv ++ rest) depth st)) ->
  room st ns -> has (hop e 0) (hlv 0 e 0) u ->
  (forall res, ev (fun f => loop f prevs u false (others 0 e 0 0) 0 st) res -> ev F res) ->
  exists l, ev F (l, out st ns, 0).
Proof.
  intros [_ W] Hr Hu HF. destruct (W 0 0 0 prevs 0 [] st u Hr) as (u' & Hu' & H); [|done|].
  { split; [right; split; [lia|by left]|]. by split; right; left. }
  rewrite app_nil_r in H. destruct (negb (atomic e) && _).
  - eexists. apply HF, H.
  - exists [u']. apply HF, H. by apply ev_const.
Qed.

Lemma start_from e : head_ok e -> walk_ok e -> start_ok e.
Proof.
  intros Hh (ns & Hw). pose proof (need_first e) as Hn.
  destruct Hh as [(ds & v & Hwf & Hg & Hu)|(nc & Hc & Hu)].
  - exists ([i_load ds v] ++ ns). split.
    { eapply first_value; [by apply load_computes|done|apply Hw]. }
    intros st prevs Hr. destruct (room_app st [i_load ds v] ns Hr) as [Ra Rb]. rewrite <- out_app.
    destruct (Hu (hop e 0) (hlv 0 e 0)) as (u & E & Hh & Ho). rewrite flat_first, E.
    eapply (walk_end e ns prevs u); [exact Hw|done|done|]. intros res H. eapply ev_S; [|exact H].
    intros f. cbn [calcNodeResult app]. destruct Hh as (_ & _ & ->).
    by rewrite (emit_line code _ (i_load ds v)) by (done || by apply line_load).
  - exists (nc ++ ns). split; [by eapply first_value; [|done|apply Hw]|].
    intros st prevs Hr. destruct (room_app st nc ns Hr) as [Ra Rb]. rewrite <- out_app.
    destruct (Hu (hop e 0) (hlv 0 e 0)) as (u & E & E3 & Hrun).
    destruct (Hrun st Ra) as (u' & E4 & E5 & Hrun'). rewrite flat_first, E.
    eapply (walk_end e ns prevs (set_value u' (u_operand u'))); [exact Hw|done|by split_and!|]. intros res H.
    eapply (ev_S _ (fun f => '(u, st, r) ← run_function code f u st;
       if negb (r =? 0) then Some (u :: others 0 e 0 0, st, -1)
       else loop f prevs (set_value u (u_operand u)) false (others 0 e 0 0) 0 st)).
    + intros f. cbn [calcNodeResult app]. by rewrite E3.
    + eapply (ev_bind _ (fun a f => let '(u, st, r) := a in if negb (r =? 0) then Some (u :: others 0 e 0 0, st, -1)
        else loop f prevs (set_value u (u_operand u)) false (others 0 e 0 0) 0 st)); [exact Hrun'|]. exact H.
Qed.

(** ** Calls *)

Lemma first_single e op lv : exists u, flat 0 (first e) op lv = [u] /\ u_op u = op.
Proof. induction e; cbn [first]; eauto; eexists; split; reflexivity. Qed.

Lemma flat_head e : exists u rest, flat 0 e 0 0 = u :: rest /\ u_op u <> 61.
Proof.
  rewrite flat_first. destruct (first_single e (hop e 0) (hlv 0 e 0)) as (u & -> & Eu).
  do 2 eexists. split; [done|]. rewrite Eu. destruct (hop_cases e 0) as [->|[o ->]]; [done|apply sym_nonzero].
Qed.

Lemma expression_ok e st st' : (exists l, ev (fun f => calcNodeResult code f [] (flat 0 e 0 0) 0 st) (l, st', 0)) ->
  exists l, ev (fun f => run_experssion code f (flat 0 e 0 0) st) (l, st', 0).
Proof.
  intros (l & H). exists l.
  destruct (flat_head e) as (u & rest & E & Hu).
  rewrite E in *. eapply (ev_S _ (fun f => '(us, st, _) ← calcNodeResult code f [] (u :: rest) 0 st; Some (us, st, 0))).
  - intros f. cbn [run_experssion]. by destruct (Z.eqb_spec (u_op u) 61).
  - eapply (ev_bind _ (fun a f => let '(us, st, _) := a in Some (us, st, 0))); [exact H|]. by apply ev_const.
Qed.

Lemma name_params f1 f2 :
  (get_fun_params (buf_of (name_of (fop1 f1))) = Some 1 /\
   exists r, ndstricmp (buf_of (name_of (fop1 f1))) (lit "SET") = Some r /\ r <> 0) /\
  (get_fun_params (buf_of (name_of (fop2 f2))) = Some 2 /\
   exists r, ndstricmp (buf_of (name_of (fop2 f2))) (lit "SET") = Some r /\ r <> 0).
Proof.
  split; [destruct f1 | destruct f2]; (split; [reflexivity|]); eexists; (split; [vm_compute; reflexivity|discriminate]).
Qed.

Lemma call1_ok f a : start_ok a -> call_ok (Call1 f a).
Proof.
  intros (ns & [F1 C1] & H). destruct fixed_wf as (_ & _ & _ & _ & H5 & _). destruct (name_params f Max) as [(En & r & Es & Hr) _].
  exists (ns ++ [i_fun1 f]). split.
  { split; [apply Forall_app; split; [done|by constructor]|]. intros vm v Hw Hs _ Hv. cbn [eval need] in *.
    apply bind_Some in Hv as (x & Ex & Hv). destruct (C1 vm x Hw Hs I Ex) as (vm1 & R1 & <- & K1).
    exists (set_reg1 vm1 v). split_and!; [|done|].
    - eapply runs_app; [exact R1|]. by apply runs_one, run_fun1.
    - eapply keeps_trans; [exact K1|]. apply keeps_set_reg1; [apply K1|by eapply fun1_word]. }
  intros op lv. cbn [flat]. eexists. split_and!; [done..|]. intros st Hroom.
  destruct (room_app st ns _ Hroom) as [Ra Rb]. destruct (expression_ok a st _ (H st [] Ra)) as (l & He).
  eexists (mk_unit op true lv _ _). split_and!; [done..|].
  eapply (ev_S _ (fun k => '(p0, st, r) ← run_experssion code k (flat 0 a 0 0) st;
    if r =? -1 then Some (mk_unit op true lv (buf_of (name_of (fop1 f))) [p0; []], st, -1)
    else st ← emit code (text_fun1 (buf_of (name_of (fop1 f)))) st;
         Some (mk_unit op true lv (buf_of (name_of (fop1 f))) [p0; []], st, 0))).
  - intros k. cbn [run_function u_operand u_params]. rewrite En. cbn [mbind option_bind].
    change (1 <? 1) with false. change (1 =? 1) with true. cbv iota.
    cbn [lookup list_lookup default from_option mbind option_bind]. unfold id.
    destruct (run_experssion code k (flat 0 a 0 0) st) as [[[p0 st1] r1]|]; [|done]. cbn [mbind option_bind].
    destruct (r1 =? -1); [done|]. cbn [mbind option_bind set_params u_operand u_op u_fun u_level].
    change (0 =? -1) with false. cbv iota. rewrite Es. cbn [mbind option_bind].
    destruct (Z.eqb_spec r 0); [done|]. by destruct (emit code _ st1).
  - eapply (ev_bind _ (fun a k => let '(p0, st, r) := a in
      if r =? -1 then Some (mk_unit op true lv (buf_of (name_of (fop1 f))) [p0; []], st, -1)
      else st ← emit code (text_fun1 (buf_of (name_of (fop1 f)))) st;
           Some (mk_unit op true lv (buf_of (name_of (fop1 f))) [p0; []], st, 0))); [exact He|].
    apply ev_const. intros k. change (0 =? -1) with false. cbv iota.
    rewrite (emit_line code _ (i_fun1 f)) by first [exact Rb | exact (line_fun1 f)]. cbn [mbind option_bind]. by rewrite out_app.
Qed.

Lemma call2_ok f a b : start_ok a -> start_ok b -> call_ok (Call2 f a b).
Proof.
  intros (na & Ca & Ha) (nb & Cb & Hb). destruct (name_params Ltzero f) as [_ (En & r & Es & Hr)].
  exists (code2 f na nb). split.
  { cbn [eval need]. apply code2_ok; try done; apply need_nonneg. }
  intros op lv. cbn [flat]. set (name := buf_of (name_of (fop2 f))) in *.
  eexists. split_and!; [done..|]. unfold code2. change [i_push; i_fun2 f; i_pop; i_pop] with ([i_push] ++ [i_fun2 f] ++ [i_pop] ++ [i_pop]).
  intros st Hroom. destruct (room_app _ _ _ Hroom) as [Ra R1]. destruct (room_app _ _ _ R1) as [Rb R2].
  destruct (room_app _ _ _ R2) as [Rc R3]. destruct (room_app _ _ _ R3) as [Rd R4].
  destruct (room_app _ _ _ R4) as [Re R5]. destruct (room_app _ _ _ R5) as [Rf Rg].
  destruct (expression_ok a st _ (Ha st [] Ra)) as (la & f1 & H1).
  destruct (expression_ok b _ _ (Hb _ [] Rc)) as (lb & f2 & H2).
  eexists (mk_unit op true lv _ _). split_and!; [done..|].
  exists (S (Nat.max f1 f2)). intros [|k] Hk; [lia|]. cbn [run_function u_operand u_params]. rewrite En.
  cbn [mbind option_bind]. change (1 <? 2) with true. cbv iota. cbn [lookup list_lookup default from_option]. unfold id.
  rewrite H1 by lia. cbn [mbind option_bind]. change (0 =? -1) with false. cbv iota.
  rewrite (emit_line code _ i_push) by (done || apply line_push_param). cbn [mbind option_bind].
  rewrite H2 by lia. cbn [mbind option_bind]. change (0 =? -1) with false. cbv iota.
  rewrite (emit_line code _ i_push) by (done || apply line_push_param).
  cbn [mbind option_bind set_params u_operand u_op u_fun u_level]. change (0 =? -1) with false. cbv iota.
  rewrite Es. cbn [mbind option_bind]. destruct (Z.eqb_spec r 0); [done|]. change (2 =? 1) with false. cbv iota.
  rewrite (emit_line code _ (i_fun2 f)) by first [exact Re | exact (line_fun2 f)]. cbn [mbind option_bind].
  rewrite (emit_line code _ i_pop) by (done || apply line_pop). cbn [mbind option_bind].
  rewrite (emit_line code _ i_pop) by (done || apply line_pop). cbn [mbind option_bind].
  by rewrite !out_app.
Qed.

(** ** All expressions *)

Lemma c_text_buf t : Forall (fun c => 0 < c) t -> zlen t < OPERAND_SIZE -> c_text (buf_of t) = t.
Proof.
  intros Ht. unfold buf_of, zlen. change OPERAND_SIZE with (Z.of_nat 64). rewrite Nat2Z.id. generalize 64%nat.
  induction Ht as [|c t Hc _ IH]; intros [|n] Hn; try done; try (cbn [List.length] in Hn; lia).
  cbn [app strncpy]. destruct (Z.eqb_spec c 0); [lia|]. cbn [c_text]. destruct (Z.eqb_spec c 0); [lia|].
  rewrite IH; [done|]. cbn [List.length] in Hn. lia.
Qed.
Lemma numeral_positive t : numeral t -> Forall (fun c => 0 < c) t.
Proof.
  intros (sg & d1 & d2 & -> & Hs & H1 & _ & H2).
  assert (forall d, digits d -> Forall (fun c => 0 < c) d) as Hd.
  { intros d H. eapply Forall_impl; [exact H|]. unfold digit. lia. }
  apply Forall_app. split; [destruct Hs as [->|[->| ->]]; by repeat constructor|].
  apply Forall_app. split; [by apply Hd|]. destruct H2 as [->|(d & -> & H2)]; [done|]. constructor; [done|by apply Hd].
Qed.
Lemma digits_integer t : digits t -> t <> [] -> integer t.
Proof. intros Ht Hne. exists [], t. auto. Qed.

Lemma num_leaf t : numeral t -> zlen t < 60 -> leaf_ok (Num t).
Proof.
  intros Ht Hl. exists EDS_IMMEDIATE, (num_val t). split_and!.
  - intros op Hop. split; [done|by split; vm_compute; split; congruence|]. split; [done|]. apply bits_range.
  - done.
  - intros op lv. eexists. split; [done|]. split; [done|]. unfold operand_of. cbn [u_operand].
    rewrite c_text_buf by (by apply numeral_positive || (unfold OPERAND_SIZE; lia)). split; [|lia]. constructor; [done|lia].
Qed.
Lemma mem_leaf t : digits t -> t <> [] -> zlen t <= 20 -> leaf_ok (Mem t).
Proof.
  intros Ht Hne Hl. exists EDS_ADDRESS, (mem_val t). split_and!.
  - intros op Hop. split; [done|by split; vm_compute; split; congruence|]. split; [done|].
    unfold mem_val. apply wrapu_range. lia.
  - done.
  - intros op lv. eexists. split; [done|]. split; [done|]. unfold operand_of. cbn [u_operand].
    assert (zlen (brackets t) = zlen t + 2) as El by (unfold brackets; zlia).
    rewrite c_text_buf; [|..|unfold OPERAND_SIZE; lia].
    { split; [|lia]. constructor; [by apply digits_integer|done]. }
    constructor; [done|]. apply Forall_app. split; [|by repeat constructor].
    eapply Forall_impl; [exact Ht|]. unfold digit. lia.
Qed.

Lemma leaf_walk x : atomic x = true -> others 0 x 0 0 = [] -> (forall vm, eval vm (first x) = eval vm x) -> walk_ok x.
Proof.
  intros Ha _ Hf. exists []. split.
  { split; [constructor|]. intros vm v Hw _ HP Hv. exists vm. split_and!; [apply runs_nil | | auto with vm].
    rewrite Hf in HP. congruence. }
  intros base op lv prevs depth rest st u _ _ Hu. rewrite Ha. cbn [negb andb].
  destruct (others_atomic x base op lv Ha) as (E1 & E2 & E3). rewrite E1, E2, E3 in *. rewrite out_nil.
  exists u. split; [done|]. intros res H. exact H.
Qed.

Lemma all_ok e : ok e -> head_ok e /\ walk_ok e.
Proof.
  induction e as [t|t|f a IHa|f a IHa b IHb|o l IHl r IHr|e IH]; intros Hok.
  - split; [left; by apply num_leaf; apply Hok | by apply leaf_walk].
  - split; [left; by apply mem_leaf; apply Hok | by apply leaf_walk].
  - destruct (IHa Hok) as [H1 H2]. split; [right; by apply call1_ok, start_from | by apply leaf_walk].
  - destruct Hok as [Ha Hb]. destruct (IHa Ha), (IHb Hb).
    split; [right; apply call2_ok; by apply start_from | by apply leaf_walk].
  - pose proof Hok as (Hl & Hr & _). destruct (IHl Hl) as [L1 L2], (IHr Hr) as [R1 R2].
    split; [exact L1|]. apply walk_bin; [done|done|]. by apply right_from.
  - destruct (IH Hok) as [H1 (ns & H2 & H3)]. split; [exact H1|]. exists ns. split; [exact H2|].
    intros base op lv prevs depth rest st u Hr Hf Hu. by apply H3.
Qed.

Lemma start_all e : ok e -> start_ok e.
Proof. intros Hok. destruct (all_ok e Hok). by apply start_from. Qed.

(** [run_experssion] on the units of a well formed expression. *)
Lemma expression_code e : ok e -> exists ns, computes (need e) always ns (fun vm => eval vm e) /\
  forall st, room st ns -> exists l, ev (fun f => run_experssion code f (flat 0 e 0 0) st) (l, out st ns, 0).
Proof.
  intros Hok. destruct (start_all e Hok) as (ns & Hc & Hs).
  exists ns. split; [done|]. intros st Hr. apply expression_ok. by apply Hs.
Qed.
End Walk.
