(* ===== verification/ExprParse.v ===== *)
(** * ExprParse: reading the text of an expression

    [print] writes an expression the way the compiler reads it; [parse_express_2node]
    on that text makes the units [flat] ([parse_print]), and [vm_parse_expression]
    compiles it to code for its value ([compile_correct]). *)

From S2P Require Import Prelude Bytes Str Float32 Vm Asm Formula Expr ExprCode ExprWalk.
From Stdlib Require Import Strings.String.

Fixpoint print (e : expr) : list Z :=
  match e with
  | Num t => t
  | Mem t => brackets t
  | Call1 f a => name_of (fop1 f) ++ [40] ++ print a ++ [41]
  | Call2 f a b => name_of (fop2 f) ++ [40] ++ print a ++ [44] ++ print b ++ [41]
  | Bin o l r => print l ++ [sym o] ++ print r
  | Par e => [40] ++ print e ++ [41]
  end.

(** The units the compiler takes from its pool. *)
Fixpoint units (e : expr) : Z :=
  match e with
  | Num _ | Mem _ => 1
  | Call1 _ a => 1 + units a
  | Call2 _ a b => 1 + units a + units b
  | Bin _ l r => units l + units r
  | Par e => units e
  end.

Lemma units_nonneg e : 1 <= units e.
Proof. induction e; cbn [units]; lia. Qed.

(** ** Characters *)

Definition plain (c : Z) : Prop := 0 < c /\ c <> 40 /\ c <> 41 /\ c <> 44.

Lemma read_plain t : Forall plain t -> forall s out k, read_func_param (t ++ s) out k = read_func_param s (out ++ t) k.
Proof.
  induction 1 as [|c t (H0 & H1 & H2 & H3) _ IH]; intros s out k; [by rewrite app_nil_r|]. cbn [app read_func_param].
  destruct (Z.eqb_spec c 0); [lia|]. destruct (Z.eqb_spec c 41); [lia|]. destruct (Z.eqb_spec c 44); [lia|].
  destruct (Z.eqb_spec c 40); [lia|]. cbn [andb]. by rewrite IH, <- app_assoc.
Qed.

Lemma digits_plain d : digits d -> Forall plain d.
Proof. intros H. eapply Forall_impl; [exact H|]. unfold digit, plain. lia. Qed.
Lemma numeral_plain t : numeral t -> Forall plain t.
Proof.
  intros (sg & d1 & d2 & -> & Hs & H1 & _ & H2). apply Forall_app. split; [destruct Hs as [->|[->| ->]]; by repeat constructor|].
  apply Forall_app. split; [by apply digits_plain|]. destruct H2 as [->|(d & -> & H2)]; [done|].
  constructor; [done|by apply digits_plain].
Qed.
Lemma name1_plain f : Forall plain (name_of (fop1 f)).
Proof. destruct f; by repeat constructor. Qed.
Lemma name2_plain f : Forall plain (name_of (fop2 f)).
Proof. destruct f; by repeat constructor. Qed.

(** A parameter is copied up to the comma or the bracket after it. *)
Lemma read_print e : ok e -> forall s out k, 0 <= k ->
  read_func_param (print e ++ s) out k = read_func_param s (out ++ print e) k.
Proof.
  induction e as [t|t|f a IHa|f a IHa b IHb|o l IHl r IHr|e IH]; intros Hok s out k Hk; cbn [print]; cbn [ok] in Hok.
  - apply read_plain, numeral_plain, Hok.
  - apply read_plain. unfold brackets. constructor; [done|]. apply Forall_app. split; [apply digits_plain, Hok|by repeat constructor].
  - rewrite <- !app_assoc, read_plain by apply name1_plain. cbn [app read_func_param]. cbn [Z.eqb Pos.eqb andb].
    rewrite IHa by (done || lia). cbn [app read_func_param Z.eqb Pos.eqb]. destruct (Z.ltb_spec 0 (k + 1)); [|lia].
    rewrite Z.add_simpl_r. by rewrite <- !app_assoc.
  - destruct Hok as [Ha Hb]. rewrite <- !app_assoc, read_plain by apply name2_plain. cbn [app read_func_param Z.eqb Pos.eqb andb].
    rewrite IHa by (done || lia). cbn [app read_func_param Z.eqb Pos.eqb andb]. destruct (Z.eqb_spec (k + 1) 0); [lia|].
    rewrite IHb by (done || lia). cbn [app read_func_param Z.eqb Pos.eqb andb]. destruct (Z.ltb_spec 0 (k + 1)); [|lia].
    rewrite Z.add_simpl_r. by rewrite <- !app_assoc.
  - destruct Hok as (Hl & Hr & _). rewrite <- !app_assoc, IHl by done.
    assert (Forall plain [sym o]) as Ho by (destruct o; by repeat constructor).
    rewrite (read_plain [sym o]) by done. rewrite IHr by done. by rewrite <- !app_assoc.
  - rewrite <- !app_assoc. cbn [app read_func_param Z.eqb Pos.eqb andb].
    rewrite IH by (done || lia). cbn [app read_func_param Z.eqb Pos.eqb]. destruct (Z.ltb_spec 0 (k + 1)); [|lia].
    rewrite Z.add_simpl_r. by rewrite <- !app_assoc.
Qed.

(** ** Operands *)

Section Parse.
Context (code : Z) (pf : option (cstr -> option cstr)).

(** What can follow an operand. *)
Definition ends_operand (s : list Z) : Prop := exists c r, s = c :: r /\ c <> 46 /\ c < 48.

Lemma read_num t s : numeral t -> zlen t < 60 -> ends_operand s ->
  read_operand code pf (t ++ s) = Some (1, t ++ [0], Some s).
Proof.
  intros Ht Hl (c & r & -> & Hc1 & Hc2). destruct (numeral_head t Ht) as (x & t' & Et & Hx). unfold read_operand.
  assert (ndstr_first_valid (t ++ c :: r) = Some (Some (t ++ c :: r))) as -> by (rewrite Et; apply first_valid_char; lia).
  cbn [mbind option_bind]. assert (deref (t ++ c :: r) = Some x) as -> by (by rewrite Et). cbn [mbind option_bind].
  assert (x <> 40 /\ (IS_NUMERALS x || (x =? 46) || (x =? 45) || (x =? 43)) = true) as [Hx1 Hx2].
  { destruct Ht as (sg & d1 & d2 & -> & Hs & H1 & Hne & _). destruct (digits_head d1 H1 Hne) as (y & u & -> & Hy).
    destruct Hs as [->|[->| ->]]; cbn [app] in Et; injection Et as <- _; try done.
    unfold digit in Hy. unfold IS_NUMERALS. lia. }
  destruct (Z.eqb_spec x 40); [lia|]. destruct (Z.eqb_spec x 91); [lia|]. rewrite Hx2.
  rewrite read_numerals_ok by (done || (unfold IS_NUMERALS; lia)). cbn [mbind option_bind].
  unfold fits. rewrite zlen_app. change (zlen [0]) with 1. unfold OPERAND_SIZE. destruct (Z.leb_spec (zlen t + 1) 64); [|lia].
  done.
Qed.

Lemma fits_ok size (t : list Z) : zlen t <= size -> fits size t = Some ().
Proof. intros H. unfold fits. by destruct (Z.leb_spec (zlen t) size); [|lia]. Qed.

Lemma natural_digits d : digits d -> natural_loop (d ++ [0]) = Some 1.
Proof.
  induction 1 as [|c d Hc _ IH]; [done|]. destruct (digit_char c Hc) as (H1 & H2 & H3).
  cbn [app natural_loop]. destruct (Z.eqb_spec c 0); [lia|]. by rewrite H1.
Qed.

Lemma read_mem_unit t s : digits t -> t <> [] -> zlen t <= 20 ->
  read_operand code pf (brackets t ++ s) = Some (1, brackets t ++ [0], Some s).
Proof.
  intros Ht Hne Hl. unfold read_operand, brackets. cbn [app]. rewrite <- app_assoc. cbn [app].
  rewrite first_valid_char by lia. cbn [mbind option_bind deref head Z.eqb Pos.eqb]. unfold ndstr_str_end.
  change (91 :: t ++ 93 :: s) with ((91 :: t) ++ 93 :: s).
  assert (Forall (fun b => 0 < b <= 0x80 /\ b <> 93) (91 :: t)) as Hp.
  { constructor; [lia|]. eapply Forall_impl; [exact Ht|]. unfold digit. lia. }
  rewrite str_end_ascii by (done || (rewrite length_app; lia)).
  rewrite length_app, Nat.add_sub_swap, Nat.sub_diag by lia. cbn [Nat.add List.length str_end_loop deref head mbind option_bind].
  change (93 =? 0) with false. change (93 =? 93) with true. cbv iota. cbn [mbind option_bind app].
  rewrite (fits_ok _ (91 :: t ++ [0])) by (unfold OPERAND_SIZE; zlia). cbn [mbind option_bind deref head negb tail].

  change (93 =? 93) with true. cbn [negb]. unfold ndstr_is_naturalnumber.
  destruct (digits_head t Ht Hne) as (y & u & Et & Hy).
  assert (ndstr_first_valid (t ++ [0]) = Some (Some (t ++ [0]))) as ->
    by (rewrite Et; unfold digit in Hy; apply first_valid_char; lia).
  cbn [mbind option_bind]. rewrite hex_prefix_digits by done. cbn [mbind option_bind].
  assert (deref (t ++ [0]) = Some y) as -> by (by rewrite Et). cbn [mbind option_bind].
  unfold digit in Hy. destruct (Z.eqb_spec y 43); [lia|].
  assert (IS_NUMERALS y = true) as -> by (unfold IS_NUMERALS; lia).
  assert (natural_loop (tail (t ++ [0])) = Some 1) as ->.
  { rewrite Et. cbn [app tail]. apply natural_digits. rewrite Et in Ht. by inversion Ht. }
  cbn [mbind option_bind]. change (1 =? 0) with false. cbv iota.
  change (91 :: t ++ [0]) with ((91 :: t) ++ [0]). rewrite removelast_last.
  rewrite fits_ok by (unfold OPERAND_SIZE; zlia). cbn [mbind option_bind]. by rewrite <- !app_assoc.
Qed.

Lemma parse_word_loop_ok w : Forall (fun c => 0 < c /\ is_word_char c = true) w -> forall s out fuel,
  (List.length w < fuel)%nat -> parse_word_loop fuel code (w ++ 40 :: s)%Z out = Some (40 :: s, out ++ w).
Proof.
  induction 1 as [|c w [Hc Hw] _ IH]; intros s out [|fuel] Hf; try (cbn [List.length] in Hf; lia); cbn [app parse_word_loop deref head mbind option_bind].
  - change (40 =? 0) with false. change (is_word_char 40 || (40 =? 36) || (40 =? 64)) with false. cbv iota.
    change (0x80 <? 40) with false. rewrite andb_false_r. by rewrite app_nil_r.
  - destruct (Z.eqb_spec c 0); [lia|]. rewrite Hw. cbn [orb tail]. rewrite IH by (cbn [List.length] in Hf; lia).
    by rewrite <- app_assoc.
Qed.

Lemma read_call name s : Forall (fun c => 0 < c /\ is_word_char c = true) name -> zlen name < 60 ->
  (exists x t, name = x :: t /\ 64 < x <= 90) -> is_function (name ++ [0]) = Some true ->
  read_operand code pf (name ++ 40 :: s) = Some (3, name ++ [0], Some (40 :: s)).
Proof.
  intros Hw Hl (x & t & Et & Hx) Hf. unfold read_operand.
  assert (ndstr_first_valid (name ++ 40 :: s) = Some (Some (name ++ 40 :: s))) as -> by (rewrite Et; apply first_valid_char; lia).
  cbn [mbind option_bind]. assert (deref (name ++ 40 :: s) = Some x) as -> by (by rewrite Et). cbn [mbind option_bind].
  destruct (Z.eqb_spec x 40); [lia|]. destruct (Z.eqb_spec x 91); [lia|].
  assert (IS_NUMERALS x || (x =? 46) || (x =? 45) || (x =? 43) = false) as -> by (unfold IS_NUMERALS; lia).
  unfold ndstr_parse_word. rewrite parse_word_loop_ok by (done || (rewrite length_app; simpl; lia)).
  cbn [mbind option_bind rest_or_null deref head]. unfold rest_or_null. cbn [deref head mbind option_bind].
  change (40 =? 0) with false. cbv iota. cbn [app]. rewrite fits_ok by (unfold OPERAND_SIZE; zlia).
  cbn [mbind option_bind]. by rewrite Hf.
Qed.

(** ** The loop *)

Abbreviation ploop := (parse_loop code pf).

Lemma ploop_step fuel x text rd ou base us free :
  x <> 0 -> ploop (S fuel) (Some (x :: text)) rd ou base us free =
    (if rd then
       '(ret, op_data, next) ← read_operand code pf (x :: text);
       if ret =? -1 then Some (-1, us, free)
       else if ret =? 0 then ploop fuel None true false base us free
       else if ret =? 1 then
         if free =? 0 then Some (-1, us, free)
         else ploop fuel next false true base
                (us ++ [mk_unit 0 false 0 (strncpy (Z.to_nat OPERAND_SIZE) op_data) []]) (free - 1)
       else if ret =? 2 then ploop fuel next true false (base + LEVEL_BRACKET) us free
       else if free =? 0 then Some (-1, us, free)
       else
         let name := strncpy (Z.to_nat OPERAND_SIZE) op_data in
         '(r, params, next, free) ← parse_function (fun t f => ploop fuel (Some t) true false 0 [] f) name next (free - 1);
         let us := us ++ [mk_unit 0 true 0 name params] in
         if negb (r =? 0) then Some (-1, us, free) else ploop fuel (Some next) false true base us free
     else
       '(ret, chop, next) ← readOperator (x :: text);
       if ret =? -1 then Some (-1, us, free)
       else if ret =? 0 then ploop fuel None false ou base us free
       else if ret =? 1 then
         ploop fuel next true ou base (set_last us (fun u => set_op u chop (base + GetOpLevel chop))) free
       else ploop fuel next false ou (base - LEVEL_BRACKET) us free).
Proof. intros Hx. cbn [parse_loop deref head mbind option_bind]. by destruct (Z.eqb_spec x 0). Qed.

(** The end of the text: the brackets are balanced and an operand was read last. *)
Lemma ploop_end fuel ou us free : ploop fuel (Some [0]) false ou 0 us free = Some (0, us, free).
Proof. by destruct fuel. Qed.

Definition parses (e : expr) : Prop :=
  forall base us s free ou fuel, ends_operand s -> units e <= free -> (List.length (print e ++ s) < fuel)%nat ->
    exists fuel', (List.length s < fuel' <= fuel)%nat /\
      ploop fuel (Some (print e ++ s)) true ou base us free =
      ploop fuel' (Some s) false true base (us ++ flat base e 0 0) (free - units e).

Lemma parses_leaf e t : print e = t -> units e = 1 -> (exists x t', t = x :: t' /\ 32 < x) ->
  (forall base, flat base e 0 0 = [mk_unit 0 false 0 (strncpy (Z.to_nat OPERAND_SIZE) (t ++ [0])) []]) ->
  (forall s, ends_operand s -> read_operand code pf (t ++ s) = Some (1, t ++ [0], Some s)) -> parses e.
Proof.
  intros Ep Eu (x & t' & Et & Hx) Ef Hr base us s free ou fuel Hs Hfree Hf. rewrite Ep in *. rewrite Eu in *.
  destruct fuel as [|fuel]; [lia|]. exists fuel. split.
  { rewrite length_app, Et in Hf. cbn [List.length] in Hf. lia. }
  specialize (Hr s Hs). rewrite Et in *. cbn [app] in *. rewrite ploop_step, Hr, Ef by lia.
  cbn [mbind option_bind Z.eqb Pos.eqb]. by destruct (Z.eqb_spec free 0); [lia|].
Qed.

Lemma parses_par e : parses e -> parses (Par e).
Proof.
  intros IH base us s free ou fuel Hs Hfree Hf. cbn [print units flat] in *.
  destruct fuel as [|fuel]; [lia|]. rewrite <- !app_assoc in *. cbn [app] in *. cbn [List.length] in Hf.
  rewrite ploop_step by lia. unfold read_operand at 1. rewrite first_valid_char by lia.
  cbn [mbind option_bind deref head Z.eqb Pos.eqb tail].
  destruct (IH (base + LEVEL_BRACKET) us (41 :: s) free false fuel) as (f1 & Hf1 & ->); [|done|lia|].
  { exists 41, s. repeat split; lia. }
  cbn [List.length] in Hf1. destruct f1 as [|f1]; [lia|]. exists f1. split; [lia|].
  rewrite ploop_step by lia. unfold readOperator. rewrite first_valid_char by lia.
  cbn [mbind option_bind deref head Z.eqb Pos.eqb tail]. f_equal. unfold LEVEL_BRACKET. lia.
Qed.

Lemma flat_last e : forall base op lv, exists us u, flat base e op lv = us ++ [u] /\
  forall op' lv', flat base e op' lv' = us ++ [set_op u op' lv'].
Proof.
  induction e as [t|t|f a _|f a _ b _|o l _ r IHr|e IH]; intros base op lv; cbn [flat];
    try (eexists [], _; split; [reflexivity|]; done).
  - destruct (IHr base op lv) as (us & u & E & H). exists (flat base l (sym o) (base + lev o) ++ us), u.
    split; [by rewrite E, app_assoc|]. intros op' lv'. by rewrite H, app_assoc.
  - apply IH.
Qed.
Lemma set_last_flat us e base op lv :
  set_last (us ++ flat base e 0 0) (fun u => set_op u op lv) = us ++ flat base e op lv.
Proof.
  destruct (flat_last e base 0 0) as (vs & u & E & H). rewrite E, (H op lv), !app_assoc. unfold set_last.
  by rewrite last_snoc, removelast_last.
Qed.

Lemma operator_step fuel o text base us e free :
  ploop (S fuel) (Some (sym o :: text)) false true base (us ++ flat base e 0 0) free =
  ploop fuel (Some text) true true base (us ++ flat base e (sym o) (base + lev o)) free.
Proof.
  rewrite ploop_step by apply sym_nonzero. unfold readOperator. rewrite first_valid_char by (destruct o; cbn; lia).
  rewrite <- (set_last_flat us e base (sym o)). assert (GetOpLevel (sym o) = lev o) as <- by (by destruct o).
  destruct o; reflexivity.
Qed.

Lemma parses_bin o l r : parses l -> parses r -> parses (Bin o l r).
Proof.
  intros IHl IHr base us s free ou fuel Hs Hfree Hf. cbn [print units flat] in *. pose proof (units_nonneg r).
  rewrite <- !app_assoc in *. cbn [app] in *.
  destruct (IHl base us (sym o :: print r ++ s) free ou fuel) as (f1 & Hf1 & ->); [|lia|done|].
  { exists (sym o), (print r ++ s). split; [done|]. destruct o; cbn; lia. }
  cbn [List.length] in Hf1. destruct f1 as [|f1]; [lia|].
  rewrite operator_step.
  destruct (IHr base (us ++ flat base l (sym o) (base + lev o)) s (free - units l) true f1) as (f2 & Hf2 & ->); [done|lia|lia|].
  exists f2. split; [lia|]. by rewrite <- app_assoc, Z.sub_add_distr.
Qed.

(** *** Calls *)

(** What the loop needs of a function's name. *)
Record fun_name (name : list Z) (n : Z) : Prop := {
  fn_word : Forall (fun c => 0 < c /\ is_word_char c = true) name;
  fn_len : zlen name < 60;
  fn_head : exists x t, name = x :: t /\ 64 < x <= 90;
  fn_fun : is_function (name ++ [0]) = Some true;
  fn_params : get_fun_params (buf_of name) = Some n
}.
Lemma fun_name1 f : fun_name (name_of (fop1 f)) 1.
Proof. destruct f; (split; [by repeat constructor | done | by do 2 eexists | done | done]). Qed.
Lemma fun_name2 f : fun_name (name_of (fop2 f)) 2.
Proof. destruct f; (split; [by repeat constructor | done | by do 2 eexists | done | done]). Qed.

(** A parameter: its text is copied and read. *)
Lemma param_step e n fuel text c s num free params :
  ok e -> parses e -> zlen (print e) < FUNCTION_SIZE -> units e <= free -> c = 44 \/ c = 41 ->
  text = print e ++ c :: s -> (List.length text < fuel)%nat ->
  param_loop (fun t f => ploop fuel (Some t) true false 0 [] f) (S n) text num free params =
    if c =? 44 then param_loop (fun t f => ploop fuel (Some t) true false 0 [] f) n s (num + 1) (free - units e) (params ++ [flat 0 e 0 0])
    else Some (0, params ++ [flat 0 e 0 0], num + 1, s, free - units e).
Proof.
  intros Hok He Hl Hfree Hc -> Hf. cbn [param_loop]. rewrite read_print by (done || lia).
  assert (read_func_param (c :: s) ([] ++ print e) 0 = Some (c :: s, print e ++ [0], 0)) as ->
    by (destruct Hc as [->| ->]; done).
  cbn [mbind option_bind]. rewrite fits_ok by (rewrite zlen_app; change (zlen [0]) with 1; lia). cbn [mbind option_bind].
  change (negb (0 =? 0)) with false. cbv iota.
  destruct (He 0 [] [0] free false fuel) as (f1 & Hf1 & ->); [|done| |].
  { exists 0, []. repeat split; lia. }
  { rewrite length_app in *. cbn [List.length] in *. lia. }
  rewrite ploop_end. cbn [mbind option_bind app deref head tail]. change (negb (0 =? 0)) with false. cbv iota.
  by destruct Hc as [->| ->].
Qed.

(** A call, from the loop over its parameters. *)
Lemma parses_fun e name n text_of params cost :
  fun_name name n -> print e = name ++ [40] ++ text_of ++ [41] -> units e = 1 + cost -> 0 <= cost ->
  (forall base, flat base e 0 0 = [mk_unit 0 true 0 (buf_of name) params]) ->
  (forall fuel s free, (List.length (text_of ++ 41 :: s)%Z < fuel)%nat -> cost <= free ->
    param_loop (fun t f => ploop fuel (Some t) true false 0 [] f) (Z.to_nat FUNC_PARAM_NUM) (text_of ++ 41 :: s) 0 free [] =
      Some (0, params, n, s, free - cost)) ->
  parses e.
Proof.
  intros [Hw Hl (x & t & Et & Hx) Hf Hp] Ep Eu Hc Ef Hloop base us s free ou fuel Hs Hfree Hfu. rewrite Ep in *.
  destruct fuel as [|fuel]; [lia|]. exists fuel. rewrite <- !app_assoc in *. cbn [app] in *.
  rewrite Et in Hfu. cbn [app List.length] in Hfu. rewrite length_app in Hfu. cbn [List.length] in Hfu.
  assert (List.length s <= List.length (text_of ++ 41 :: s)%Z)%nat as Hls by (rewrite length_app; cbn; lia).
  split; [lia|].
  pose proof (read_call name (text_of ++ 41 :: s) Hw Hl ltac:(eauto) Hf) as Hr.
  assert (name ++ 40 :: text_of ++ 41 :: s = x :: (t ++ 40 :: text_of ++ 41 :: s)) as Ex by (by rewrite Et).
  rewrite Ex in *. rewrite ploop_step, Hr by lia. cbn [mbind option_bind Z.eqb Pos.eqb].
  destruct (Z.eqb_spec free 0); [lia|]. unfold parse_function. cbn [mbind option_bind].
  rewrite first_valid_char by lia. cbn [mbind option_bind deref head tail Z.eqb Pos.eqb negb].
  rewrite Hloop by lia. cbn [mbind option_bind]. change (negb (0 =? 0)) with false. cbv iota.
  fold (buf_of name). rewrite Hp. cbn [mbind option_bind]. rewrite Z.eqb_refl.
  change (negb (0 =? 0)) with false. cbv iota. rewrite Ef. f_equal. lia.
Qed.

Lemma parses_call1 f a : ok a -> parses a -> zlen (print a) < FUNCTION_SIZE -> parses (Call1 f a).
Proof.
  intros Hok Ha Hl. apply (parses_fun _ (name_of (fop1 f)) 1 (print a) [flat 0 a 0 0] (units a)); try done.
  - apply fun_name1.
  - pose proof (units_nonneg a). lia.
  - intros fuel s free Hf Hc. change (Z.to_nat FUNC_PARAM_NUM) with 2%nat.
    rewrite (param_step a 1 fuel _ 41 s) by (done || (by right) || lia). done.
Qed.
Lemma parses_call2 f a b : ok a -> ok b -> parses a -> parses b ->
  zlen (print a) < FUNCTION_SIZE -> zlen (print b) < FUNCTION_SIZE -> parses (Call2 f a b).
Proof.
  intros Hoa Hob Ha Hb Hla Hlb. pose proof (units_nonneg a). pose proof (units_nonneg b).
  apply (parses_fun _ (name_of (fop2 f)) 2 (print a ++ 44 :: print b) [flat 0 a 0 0; flat 0 b 0 0] (units a + units b)).
  - apply fun_name2.
  - cbn [print]. by rewrite <- !app_assoc.
  - cbn [units]. lia.
  - lia.
  - done.
  - intros fuel s free Hf Hc. change (Z.to_nat FUNC_PARAM_NUM) with 2%nat. rewrite <- app_assoc in *. cbn [app] in *.
    rewrite (param_step a 1 fuel _ 44 (print b ++ 41 :: s)) by (done || (by left) || lia). cbn [Z.eqb Pos.eqb].
    rewrite (param_step b 0 fuel _ 41 s); try done; [|lia|by right|rewrite length_app in Hf; cbn [List.length] in Hf; lia].
    change (41 =? 44) with false. cbv iota. by rewrite Z.sub_add_distr.
Qed.

Lemma parses_all e : ok e -> zlen (print e) < FUNCTION_SIZE -> parses e.
Proof.
  induction e as [t|t|f a IHa|f a IHa b IHb|o l IHl r IHr|e IH]; intros Hok Hl; cbn [print ok] in *.
  - destruct Hok as [Ht Hlt]. apply (parses_leaf (Num t) t); try done.
    + destruct (numeral_head t Ht) as (y & u & -> & Hy). do 2 eexists. split; [done|lia].
    + intros s Hs. by apply read_num.
  - destruct Hok as (Ht & Hne & Hlt). apply (parses_leaf (Mem t) (brackets t)); try done.
    + do 2 eexists. split; [done|lia].
    + intros s _. by apply read_mem_unit.
  - rewrite !zlen_app in Hl. pose proof (zlen_nonneg (name_of (fop1 f))). change (zlen [40]) with 1 in Hl.
    change (zlen [41]) with 1 in Hl. apply parses_call1; [done|apply IHa; [done|lia]|lia].
  - rewrite !zlen_app in Hl. change (zlen [40]) with 1 in Hl. change (zlen [41]) with 1 in Hl. change (zlen [44]) with 1 in Hl.
    pose proof (zlen_nonneg (name_of (fop2 f))). pose proof (zlen_nonneg (print a)). pose proof (zlen_nonneg (print b)).
    destruct Hok as [Ha Hb]. apply parses_call2; try done; try lia; [apply IHa | apply IHb]; (done || lia).
  - rewrite !zlen_app in Hl. pose proof (zlen_nonneg (print l)). pose proof (zlen_nonneg (print r)).
    change (zlen [sym o]) with 1 in Hl. destruct Hok as (H1 & H2 & _). apply parses_bin; [apply IHl | apply IHr]; (done || lia).
  - rewrite !zlen_app in Hl. change (zlen [40]) with 1 in Hl. change (zlen [41]) with 1 in Hl.
    apply parses_par, IH; [done|lia].
Qed.

(** The units of the text of an expression. *)
Lemma print_units e : ok e -> zlen (print e) < FUNCTION_SIZE -> units e <= OPUNIT_NUM ->
  parse_express_2node code pf (print e ++ [0]) = Some (0, flat 0 e 0 0).
Proof.
  intros Hok Hl Hu. unfold parse_express_2node.
  destruct (parses_all e Hok Hl 0 [] [0] OPUNIT_NUM false (S (2 * List.length (print e ++ [0])%Z))) as (f & _ & ->);
    [exists 0, []; repeat split; lia | done | lia |].
  by rewrite ploop_end.
Qed.
End Parse.

(** ** The compiler *)

Lemma compile_print code pf e : ok e -> zlen (print e) < FUNCTION_SIZE -> units e <= OPUNIT_NUM ->
  exists ns, computes (need e) always ns (fun vm => eval vm e) /\
    forall size, zlen (encode ns) <= size ->
      ev (fun fuel => vm_parse_expression code pf fuel (print e ++ [0]) size) (zlen (encode ns), encode ns).
Proof.
  intros Hok Hl Hu. destruct (expression_code code e Hok) as (ns & Hc & Hrun). exists ns. split; [done|].
  intros size Hs. destruct (Hrun (mk_out size [])) as (l & Hev); [exact Hs|].
  eapply (ev_ext _ (fun fuel => oplist_2buf code fuel (flat 0 e 0 0) size)).
  { intros fuel. unfold vm_parse_expression. by rewrite print_units. }
  unfold oplist_2buf. eapply (ev_bind _ (fun a _ => let '(_, st, r) := a in
    Some (if r =? -1 then 0 else zlen (out_handle st), out_handle st))); [exact Hev|]. by apply ev_const.
Qed.

Lemma compile_ok code pf e : ok e -> zlen (print e) < FUNCTION_SIZE -> units e <= OPUNIT_NUM ->
  exists c, (forall size, zlen c <= size -> exists f0, forall fuel, (f0 <= fuel)%nat ->
      vm_parse_expression code pf fuel (print e ++ [0]) size = Some (zlen c, c)) /\
    forall vm v, vm_wf vm -> sp vm + need e <= VM_STACK_SIZE -> eval vm e = Some v ->
      exists vm', vm_run_cmd vm c (zlen c) = Some (vm', 0) /\ vm_return_val vm' = v /\ keeps vm vm'.
Proof.
  intros Hok Hl Hu. destruct (compile_print code pf e Hok Hl Hu) as (ns & [Hwf Hc] & Hp).
  exists (encode ns). split; [exact Hp|]. intros vm v Hw Hs Hv.
  destruct (Hc vm v Hw Hs I Hv) as (vm' & R & E & K). exists vm'. split_and!; [|done|done].
  pose proof (run_cmd_nodes ns [] vm Hwf) as Hrun. rewrite app_nil_r in Hrun. by rewrite Hrun.
Qed.


(** C8: The formula compiler is correct: for every well formed expression - constants,
    memory cells, the four operators with their precedence, brackets and the pure
    functions, nested to any depth, as the tree the compiler makes of it ([ok]) - whose text fits a function buffer and whose units fit the
    pool, [vm_parse_expression] ends with code, and running the code on any well formed
    machine with enough free stack leaves the value of the expression in the first register and the
    memory and the stack as they were. *)
Theorem compile_correct code pf e : ok e -> zlen (print e) < FUNCTION_SIZE -> units e <= OPUNIT_NUM ->
  exists c, (forall size, zlen c <= size -> exists f0, forall fuel, (f0 <= fuel)%nat ->
      vm_parse_expression code pf fuel (print e ++ [0]) size = Some (zlen c, c)) /\
    forall vm v, vm_wf vm -> sp vm + need e <= VM_STACK_SIZE -> eval vm e = Some v ->
      exists vm', vm_run_cmd vm c (zlen c) = Some (vm', 0) /\ vm_return_val vm' = v /\ keeps vm vm'.
Proof. apply compile_ok. Qed.

(** ** Chains of operators *)

(** The tree the compiler makes when an operator and an operand follow [t], and the tree
    of the usual precedence rule. *)
Fixpoint snoc (t : expr) (o : binop) (a : expr) : expr :=
  match t with
  | Bin o' l r =>
      if (lev o' <? lev o) || (lev o' =? lev o) && negb (atomic r) then Bin o' l (snoc r o a) else Bin o t a
  | _ => Bin o t a
  end.
Fixpoint snoc_std (t : expr) (o : binop) (a : expr) : expr :=
  match t with
  | Bin o' l r => if lev o' <? lev o then Bin o' l (snoc_std r o a) else Bin o t a
  | _ => Bin o t a
  end.

Definition chain := list (binop * expr).
Definition tree (a : expr) (l : chain) : expr := fold_left (fun t '(o, b) => snoc t o b) l a.
Definition std_tree (a : expr) (l : chain) : expr := fold_left (fun t '(o, b) => snoc_std t o b) l a.
Definition chain_text (a : expr) (l : chain) : list Z := print a ++ List.concat (map (fun '(o, b) => sym o :: print b) l).

Lemma print_snoc t o a : print (snoc t o a) = print t ++ sym o :: print a.
Proof.
  induction t as [| | | |o' l _ r IHr|]; try done. cbn [snoc].
  destruct ((lev o' <? lev o) || _); [|done]. cbn [print]. rewrite IHr. by rewrite <- !app_assoc.
Qed.

(** The first operator stays, and none binds looser than [lv]. *)
Lemma snoc_bounds t o a lv : lv <= lev o -> atomic t = true \/ lv <= top 0 t /\ lv < hlv 0 t 0 ->
  (atomic t = true -> lv < lev o) -> lv <= top 0 (snoc t o a) /\ lv < hlv 0 (snoc t o a) 0.
Proof.
  intros Ho Ht Ha.
  assert (lv < hlv 0 t (lev o)) as Hh.
  { destruct (atomic t) eqn:Ea; [|rewrite (hlv_shift t 0 (lev o) 0) by done; destruct Ht as [?|[_ Ht]]; [done|exact Ht]].
    destruct (others_atomic t 0 0 (lev o) Ea) as (_ & _ & ->). by apply Ha. }
  assert (lv <= top 0 (Bin o t a) /\ lv < hlv 0 (Bin o t a) 0) as Hb by (cbn [top hlv]; rewrite !Z.add_0_l; lia).
  destruct t as [| | | |o' l r|t]; try exact Hb. cbn [snoc]. destruct ((lev o' <? lev o) || _); [|exact Hb].
  destruct Ht as [?|[H1 H2]]; [done|]. by split.
Qed.

Lemma ok_snoc t o a : ok t -> ok a -> atomic a = true -> ok (snoc t o a).
Proof.
  intros Ht Ha Haa. induction t as [| | | |o' l _ r IHr|]; try exact (conj Ht (conj Ha (conj I (or_introl Haa)))). cbn [snoc].
  pose proof Ht as (Hl & Hr & H1 & H2).
  destruct (Z.ltb_spec (lev o') (lev o)); [|destruct (Z.eqb_spec (lev o') (lev o)); [destruct (atomic r) eqn:Ea|]]; cbn [orb andb negb].
  - cbn [ok]. split_and!; auto. right. apply snoc_bounds; [lia|done|lia].
  - cbn [ok]. split_and!; auto.
  - cbn [ok]. split_and!; auto. right. apply snoc_bounds; [lia|by rewrite Ea|by rewrite Ea].
  - cbn [ok]. split_and!; auto. left. lia.
Qed.

Definition atom (a : expr) : Prop := ok a /\ atomic a = true.

Lemma chain_ok l : forall t, ok t -> Forall (fun '(_, b) => atom b) l ->
  ok (tree t l) /\ print (tree t l) = chain_text t l.
Proof.
  induction l as [|[o b] l IH]; intros t Ht Hl.
  { split; [done|]. unfold chain_text. cbn. by rewrite app_nil_r. }
  apply Forall_cons in Hl as [[Hb Hba] Hl']. destruct (IH (snoc t o b)) as [H1 H2]; [by apply ok_snoc|done|].
  split; [exact H1|]. unfold tree in *. cbn [fold_left]. rewrite H2. unfold chain_text. cbn [map List.concat].
  rewrite print_snoc. by rewrite <- !app_assoc.
Qed.

(** C27: The formula compiler reads every chain of operands and operators, and as the
    tree [tree]: an operator that follows one of the same level joins the right operand of that
    one when this is compound.  So [a - b * c - d] is compiled to code for
    [a - (b * c - d)], not for [(a - b * c) - d] (nd_formula.c:458 compares the levels
    with [>]); the two trees are equal for chains without such a place. *)
Theorem formula_associates code pf a l :
  atom a -> Forall (fun '(_, b) => atom b) l ->
  zlen (chain_text a l) < FUNCTION_SIZE -> units (tree a l) <= OPUNIT_NUM ->
  (exists c, (forall size, zlen c <= size -> exists f0, forall fuel, (f0 <= fuel)%nat ->
      vm_parse_expression code pf fuel (chain_text a l ++ [0]) size = Some (zlen c, c)) /\
    forall vm v, vm_wf vm -> sp vm + need (tree a l) <= VM_STACK_SIZE -> eval vm (tree a l) = Some v ->
      exists vm', vm_run_cmd vm c (zlen c) = Some (vm', 0) /\ vm_return_val vm' = v /\ keeps vm vm') /\
  (forall o1 o2 o3 b c d, l = [(o1, b); (o2, c); (o3, d)] -> lev o1 < lev o2 -> lev o3 = lev o1 ->
    tree a l = Bin o1 a (Bin o3 (Bin o2 b c) d) /\ std_tree a l = Bin o3 (Bin o1 a (Bin o2 b c)) d).
Proof.
  intros [Ha Haa] Hl Hlen Hu. destruct (chain_ok l a Ha Hl) as [Hok Hp]. split.
  - rewrite <- Hp in *. by apply compile_ok.
  - intros o1 o2 o3 b c d -> H12 H31. clear Hok Hp Hlen Hu.
    apply Forall_cons in Hl as [[_ Hb] Hl]. apply Forall_cons in Hl as [[_ Hc] Hl]. apply Forall_cons in Hl as [[_ Hd] _].
    unfold tree, std_tree. cbn [fold_left].
    assert (snoc a o1 b = Bin o1 a b /\ snoc_std a o1 b = Bin o1 a b) as [-> ->] by (by destruct a).
    assert (snoc b o2 c = Bin o2 b c /\ snoc_std b o2 c = Bin o2 b c) as [Eb Eb'] by (by destruct b).
    cbn [snoc snoc_std]. rewrite (proj2 (Z.ltb_lt _ _) H12). cbn [orb]. rewrite Eb, Eb'. cbn [snoc snoc_std].
    rewrite H31, Z.ltb_irrefl, Z.eqb_refl. cbn [orb andb negb atomic].
    assert ((lev o2 <? lev o1) = false /\ (lev o2 =? lev o1) = false) as [-> ->] by (split; lia). done.
Qed.

(** ** Concrete formulas *)

Definition num (s : string) : expr := Num (chars s).
Ltac digit_list := repeat (constructor; [split; [discriminate|discriminate]|]); constructor.
Lemma digits_numeral d : digits d -> d <> [] -> numeral d.
Proof. intros Hd Hne. exists [], d, []. rewrite app_nil_r. auto 6. Qed.
Ltac is_numeral := split; [apply digits_numeral; [digit_list|discriminate] | reflexivity].

(** [(10-2*3-1)*MAX([1],7)] *)
Definition wit_expr : expr :=
  Bin Mul (Par (Bin Sub (num "10") (Bin Sub (Bin Mul (num "2") (num "3")) (num "1"))))
    (Call2 Max (Mem (chars "1")) (num "7")).
Example wit_text : print wit_expr = chars "(10-2*3-1)*MAX([1],7)". Proof. reflexivity. Qed.

Lemma wit_num_ok : ok (num "10") /\ ok (num "2") /\ ok (num "3") /\ ok (num "1") /\ ok (num "7") /\ ok (Mem (chars "1")).
Proof.
  split; [cbn [num ok]; is_numeral|]. split; [is_numeral|]. split; [is_numeral|]. split; [is_numeral|]. split; [is_numeral|].
  split; [digit_list|]. split; [discriminate|discriminate].
Qed.
Lemma wit_expr_ok : ok wit_expr.
Proof.
  destruct wit_num_ok as (H1 & H2 & H3 & H4 & H5 & H6). unfold wit_expr. cbn [ok atomic lev top hlv].
  split_and!; auto; first [exact I | left; lia | apply H6 | right; cbn; lia].
Qed.
Lemma compile_correct_witness :
  exists c vm', vm_run_cmd wit_vm c (zlen c) = Some (vm', 0) /\ vm_return_val vm' = i2f 40 /\ keeps wit_vm vm'.
Proof.
  destruct (compile_correct 0 None wit_expr wit_expr_ok) as (c & _ & H); [reflexivity | discriminate |].
  destruct (H wit_vm (i2f 40) wit_vm_wf) as (vm' & R); [discriminate | vm_compute; reflexivity |].
  exists c, vm'. exact R.
Defined.

(** [10-2*3-1] is compiled to code for 5. *)
Definition wit_chain : chain := [(Sub, num "2"); (Mul, num "3"); (Sub, num "1")].
Lemma formula_associates_witness :
  exists c vm', vm_run_cmd wit_vm c (zlen c) = Some (vm', 0) /\ vm_return_val vm' = i2f 5 /\
    eval wit_vm (std_tree (num "10") wit_chain) = Some (i2f 3).
Proof.
  destruct wit_num_ok as (H1 & H2 & H3 & H4 & _).
  destruct (formula_associates 0 None (num "10") wit_chain) as [(c & _ & H) _];
    [by split | unfold wit_chain; rewrite !Forall_cons; unfold atom; auto 10 | reflexivity | discriminate |].
  destruct (H wit_vm (i2f 5) wit_vm_wf) as (vm' & R & E & _); [discriminate | vm_compute; reflexivity |].
  exists c, vm'. split; [exact R|]. split; [exact E|]. vm_compute. reflexivity.
Defined.

(** ** A formula that never ends *)

Lemma emit_some code text n st : line text n -> exists st', emit code text st = Some st'.
Proof.
  intros [Hl Hc]. unfold emit, asm_printf. unfold zlen in Hl. rewrite take_ge by lia. rewrite Hc. cbn [mbind option_bind].
  change (1 =? -1) with false. change (0 <? 1) with true. cbv iota. cbn [negb andb].
  destruct (_ <=? _); cbn [mbind option_bind]; eauto.
Qed.

Lemma last_unit code prevs n ds v depth : u_fun n = false -> operand_of (u_operand n) ds v ->
  forall fuel st, calcNodeResult code fuel prevs [n] depth st = None \/
    exists st', calcNodeResult code fuel prevs [n] depth st = Some ([n], st', 0).
Proof.
  intros Hf Ho [|[|fuel]] st; [by left|..]; cbn [calcNodeResult]; rewrite Hf;
    destruct (emit_some code _ _ st (line_load _ _ _ Ho)) as [st2 ->]; cbn [mbind option_bind calc_loop]; eauto.
Qed.

(** The unit [n] is of a higher level and the last one: the loop comes back to it. *)
Lemma loop_stuck code prevs u n ds v depth : u_fun n = false -> u_op n <> 0 -> u_level u < u_level n ->
  operand_of (u_operand n) ds v ->
  forall fuel isrec st, calc_loop code fuel prevs u isrec [n] depth st = None.
Proof.
  intros Hf Hop Hlv Ho. induction fuel as [|fuel IH]; intros isrec st; [done|]. cbn [calc_loop]. rewrite Hf.
  cbn [mbind option_bind]. change (negb (0 =? 0)) with false. cbv iota.
  destruct (Z.eqb_spec (u_level u) (u_level n)); [lia|]. destruct (Z.eqb_spec (u_op n) 0); [done|]. cbn [orb].
  destruct (Z.ltb_spec (u_level n) (u_level u)); [lia|].
  destruct (emit_some code _ _ st line_push) as [st1 ->]. cbn [mbind option_bind].
  destruct (last_unit code (u_level u :: prevs) n ds v (depth + 1) Hf Ho fuel st1) as [->|[st2 ->]]; [done|].
  cbn [mbind option_bind].
  destruct (emit_some code _ _ st2 line_mov21') as [st3 ->]. cbn [mbind option_bind].
  destruct (emit_some code _ _ st3 line_pop_reg) as [st4 ->]. cbn [mbind option_bind]. apply IH.
Qed.

Lemma trailing_units code pf a b o p : ok a -> ok b -> zlen (print a) < FUNCTION_SIZE -> zlen (print b) < FUNCTION_SIZE ->
  units a + units b <= OPUNIT_NUM ->
  parse_express_2node code pf (print a ++ sym o :: print b ++ [sym p; 32; 0]) =
    Some (0, flat 0 a (sym o) (lev o) ++ flat 0 b (sym p) (lev p)).
Proof.
  intros Ha Hb La Lb Hu. pose proof (units_nonneg a). pose proof (units_nonneg b).
  assert (forall q s, ends_operand (sym q :: s)) as Hs.
  { intros q s. exists (sym q), s. split; [done|]. destruct q; cbn; lia. }
  unfold parse_express_2node. set (fuel := S _).
  destruct (parses_all code pf a Ha La 0 [] (sym o :: print b ++ [sym p; 32; 0]) OPUNIT_NUM false fuel)
    as (f1 & Hf1 & ->); [apply Hs|lia|unfold fuel; lia|].
  cbn [List.length] in Hf1. destruct f1 as [|f1]; [lia|]. rewrite operator_step, Z.add_0_l, app_nil_l.
  destruct (parses_all code pf b Hb Lb 0 (flat 0 a (sym o) (lev o)) [sym p; 32; 0] (OPUNIT_NUM - units a) true f1)
    as (f2 & Hf2 & ->); [apply Hs|lia|lia|].
  cbn [List.length] in Hf2. destruct f2 as [|[|f2]]; [lia..|]. rewrite operator_step.
  rewrite ploop_step by lia. cbn [read_operand ndstr_first_valid Z.leb Z.eqb Z.compare Pos.compare Pos.compare_cont mbind option_bind].
  rewrite Z.add_0_l. by destruct f2.
Qed.

(** A formula [a o b p ] that ends in an operator and blanks, with [p] binding tighter
    than [o], passes the parser - the check for a missing operand at nd_formula.c:375 is
    skipped, because the unit pointer is NULL by then - and the walk over its units
    never ends: no fuel is enough. *)
Theorem trailing_operator_diverges code pf t1 o t2 p size :
  numeral t1 -> zlen t1 < 60 -> numeral t2 -> zlen t2 < 60 -> lev o < lev p ->
  parse_express_2node code pf (t1 ++ sym o :: t2 ++ [sym p; 32; 0]) =
    Some (0, [mk_unit (sym o) false (lev o) (buf_of t1) []; mk_unit (sym p) false (lev p) (buf_of t2) []]) /\
  forall fuel, vm_parse_expression code pf fuel (t1 ++ sym o :: t2 ++ [sym p; 32; 0]) size = None.
Proof.
  intros N1 L1 N2 L2 Hlv.
  assert (ok (Num t1) /\ ok (Num t2)) as [O1 O2] by (by split).
  assert (parse_express_2node code pf (t1 ++ sym o :: t2 ++ [sym p; 32; 0]) =
    Some (0, flat 0 (Num t1) (sym o) (lev o) ++ flat 0 (Num t2) (sym p) (lev p))) as E.
  { apply (trailing_units code pf (Num t1) (Num t2)); try done. all: cbn [print]; unfold FUNCTION_SIZE; lia. }
  split; [exact E|]. intros fuel. unfold vm_parse_expression. rewrite E. cbn [mbind option_bind].
  change (0 =? -1) with false. cbv iota. unfold oplist_2buf. cbn [flat app].
  destruct fuel as [|fuel]; [done|]. cbn [run_experssion u_op].
  destruct (Z.eqb_spec (sym o) 61) as [E61|_]; [by destruct o|].
  destruct fuel as [|fuel]; [done|]. cbn [calcNodeResult u_fun].
  destruct (num_leaf t1 N1 L1) as (d1 & v1 & _ & _ & F1). destruct (F1 (sym o) (lev o)) as (u1 & [= <-] & _ & Ho1).
  destruct (num_leaf t2 N2 L2) as (d2 & v2 & _ & _ & F2). destruct (F2 (sym p) (lev p)) as (u2 & [= <-] & _ & Ho2).
  destruct (emit_some code _ _ (mk_out size []) (line_load _ _ _ Ho1)) as [st1 ->]. cbn [mbind option_bind].
  rewrite (loop_stuck code [] _ _ d2 v2) by (done || apply sym_nonzero). done.
Qed.

Lemma trailing_operator_diverges_witness :
  parse_express_2node 0 None (chars "1+2* " ++ [0]) =
    Some (0, [mk_unit 43 false 1 (buf_of [49]) []; mk_unit 42 false 2 (buf_of [50]) []]) /\
  vm_parse_expression 0 None 1000 (chars "1+2* " ++ [0]) 4096 = None.
Proof.
  destruct wit_num_ok as (_ & [N2 L2] & _ & [N1 L1] & _).
  destruct (trailing_operator_diverges 0 None (chars "1") Add (chars "2") Mul 4096) as [H1 H2];
    [exact N1 | reflexivity | exact N2 | reflexivity | reflexivity |].
  split; [exact H1 | exact (H2 1000%nat)].
Defined.

(** ** Assignments *)

Definition i_store (t : list Z) : vm_instruction_node := mk_ins EOP_MOV EDS_ADDRESS EDS_REG1 (mem_val t) 0.

Lemma line_store t : digits t -> t <> [] -> zlen t <= 20 -> line (text_store (buf_of (brackets t))) (i_store t).
Proof.
  intros Ht Hne Hl. assert (c_text (buf_of (brackets t)) = brackets t) as E.
  { apply c_text_buf; [|unfold brackets, OPERAND_SIZE; zlia]. unfold brackets. constructor; [done|].
    apply Forall_app. split; [|by repeat constructor]. eapply Forall_impl; [exact Ht|]. unfold digit. lia. }
  unfold text_store. rewrite E. assert (operand (brackets t) EDS_ADDRESS (mem_val t)) as Ho'.
  { constructor; [by apply digits_integer|done]. }
  apply (line_two [9; 32] EOP_MOV 32 [32] (brackets t) EDS_ADDRESS (mem_val t) [] [32] (chars "REG1") EDS_REG1 0 [10]); line_tac.
  assert (zlen (name_of EOP_MOV) = 3 /\ zlen (chars "REG1") = 4) by done. unfold brackets; zlia.
Qed.

Lemma assign_units code pf t e : ok (Mem t) -> ok e -> zlen (print e) < FUNCTION_SIZE -> 1 + units e <= OPUNIT_NUM ->
  parse_express_2node code pf (brackets t ++ 61 :: print e ++ [0]) =
    Some (0, mk_unit 61 false 0 (buf_of (brackets t)) [] :: flat 0 e 0 0).
Proof.
  intros Ht He Hl Hu. unfold parse_express_2node. set (fuel := S _).
  assert (List.length (print e ++ [0])%Z + 3 < fuel)%nat as Hf.
  { unfold fuel, brackets. rewrite !length_app. cbn [List.length]. rewrite !length_app. cbn [List.length].
    cbn [List.length]. lia. }
  clearbody fuel. destruct fuel as [|[|f]]; [lia..|]. destruct Ht as (H1 & H2 & H3).
  pose proof (read_mem_unit code pf t (61 :: print e ++ [0]) H1 H2 H3) as Hr. unfold brackets in *. cbn [app] in *.
  rewrite ploop_step, Hr by lia. cbn [mbind option_bind Z.eqb Pos.eqb]. change (OPUNIT_NUM =? 0) with false. cbv iota.
  rewrite ploop_step by lia. unfold readOperator. rewrite first_valid_char by lia.
  cbn [mbind option_bind deref head tail Z.eqb Pos.eqb orb app].
  destruct (parses_all code pf e He Hl 0 [mk_unit 61 false 0 (buf_of (brackets t)) []] [0] (OPUNIT_NUM - 1) true f) as (f1 & _ & E);
    [exists 0, []; repeat split; lia | lia | lia |].
  change (set_last _ _) with [mk_unit 61 false 0 (buf_of (brackets t)) []]. rewrite E. by rewrite ploop_end.
Qed.

(** The value [v] in the cell that the address [a] names, if it names one. *)
Definition assigned (vm : vm_cpu) (a : Z) (v : vm_value) : list vm_value :=
  match vm_ref_operand EDS_ADDRESS a vm with
  | Some (Cell k) => <[Z.to_nat k := v]> (memory vm)
  | _ => memory vm
  end.

Lemma address_cell a vm p : vm_ref_operand EDS_ADDRESS a vm = Some p -> exists k, p = Cell k.
Proof.
  unfold vm_ref_operand. change (EDS_ADDRESS =? EDS_REG1) with false. change (EDS_ADDRESS =? EDS_REG2) with false.
  change (EDS_ADDRESS =? EDS_STACK) with false. change (EDS_ADDRESS =? EDS_ADDRESS) with true. cbv iota.
  destruct (_ && _); [|done]. unfold cell_of. destruct (mm_func vm) as [f|]; [destruct (f _)|]; cbn; intros [= <-]; eauto.
Qed.

Lemma run_store t vm : vm_wf vm -> exists vm',
  runs [i_store t] vm vm' /\ vm_wf vm' /\ reg1 vm' = reg1 vm /\ sp vm' = sp vm /\ stack vm' = stack vm /\
  memory vm' = assigned vm (mem_val t) (reg1 vm).
Proof.
  intros Hw. unfold assigned. assert (vm_run_insnode (i_store t) vm =
    match vm_ref_operand EDS_ADDRESS (mem_val t) vm with Some p => vm ← store vm p (reg1 vm); Some (vm, 0) | None => Some (vm, 0) end) as E by done.
  destruct (vm_ref_operand EDS_ADDRESS (mem_val t) vm) as [p|] eqn:Ep.
  2: { exists vm. split_and!; try done. by apply runs_one. }
  pose proof (ref_operand_ok _ _ _ _ Hw Ep) as Hok. destruct (address_cell _ _ _ Ep) as [k ->].
  destruct (store_ok vm (Cell k) (reg1 vm) Hw Hok (reg1_word _ Hw)) as (vm' & Es & Hw' & Hs).
  rewrite Es in E. exists vm'. cbn [store] in Es. cbn [place_ok] in Hok. rewrite mset_insert in Es by done.
  injection Es as <-. split_and!; try done. by apply runs_one.
Qed.

(** The text of an assignment [[n]=e] is compiled to code that computes the value of
    [e], stores it in memory cell [n] (nothing is stored when the machine has no such cell)
    and leaves the rest of the memory, and the stack, as they were. *)
Theorem assignment_correct code pf t e : ok (Mem t) -> ok e -> zlen (print e) < FUNCTION_SIZE -> 1 + units e <= OPUNIT_NUM ->
  exists c, (forall size, zlen c <= size -> exists f0, forall fuel, (f0 <= fuel)%nat ->
      vm_parse_expression code pf fuel (brackets t ++ 61 :: print e ++ [0]) size = Some (zlen c, c)) /\
    forall vm v, vm_wf vm -> sp vm + need e <= VM_STACK_SIZE -> eval vm e = Some v ->
      exists vm', vm_run_cmd vm c (zlen c) = Some (vm', 0) /\ vm_return_val vm' = v /\
        memory vm' = assigned vm (mem_val t) v /\ sp vm' = sp vm /\
        take (Z.to_nat (sp vm)) (stack vm') = take (Z.to_nat (sp vm)) (stack vm).
Proof.
  intros Ht He Hl Hu. destruct (start_all code e He) as (ns & [Hwf Hc] & Hs). destruct Ht as (T1 & T2 & T3).
  assert (Forall wf_node (ns ++ [i_store t])) as Hwf'.
  { apply Forall_app. split; [done|]. constructor; [|done]. split; [done | by split; vm_compute; split; congruence|].
    split; [apply wrapu_range; lia | done]. }
  exists (encode (ns ++ [i_store t])). split.
  - intros size Hsize. destruct (room_app (mk_out size []) ns [i_store t] Hsize) as [Ra Rb].
    destruct (Hs (mk_out size []) [0] Ra) as (l & Hev).
    destruct (flat_head e) as (u & rest & Ef & Hop). rewrite Ef in Hev.
    eapply (ev_ext _ (fun fuel => oplist_2buf code fuel (mk_unit 61 false 0 (buf_of (brackets t)) [] :: u :: rest) size)).
    { intros fuel. unfold vm_parse_expression. by rewrite assign_units, Ef. }
    unfold oplist_2buf. eapply (ev_S _ (fun f => '(_, st, _) ← calcNodeResult code f [0] (u :: rest) 0 (mk_out size []);
      '(st, r) ← asm_printf code (text_store (buf_of (brackets t))) st;
      Some (if (if r =? -1 then -1 else 0) =? -1 then 0 else zlen (out_handle st), out_handle st))).
    { intros f. cbn [run_experssion u_op head u_level u_operand]. change (61 =? 61) with true. cbv iota.
      cbn [mbind option_bind]. destruct (Z.eqb_spec (u_op u) 61); [done|].
      destruct (calcNodeResult code f [0] (u :: rest) 0 (mk_out size [])) as [[[l' st'] r']|]; [|done]. cbn [mbind option_bind].
      by destruct (asm_printf code _ st') as [[st2 r2]|]. }
    eapply (ev_bind _ (fun a _ => let '(_, st, _) := a in '(st, r) ← asm_printf code (text_store (buf_of (brackets t))) st;
      Some (if (if r =? -1 then -1 else 0) =? -1 then 0 else zlen (out_handle st), out_handle st))); [exact Hev|].
    apply ev_const. intros _. rewrite (printf_line code _ (i_store t)) by (done || by apply line_store).
    cbn [mbind option_bind]. by rewrite out_app.
  - intros vm v Hw Hsp Hv. destruct (Hc vm v Hw Hsp I Hv) as (vm1 & R1 & E1 & K1).
    destruct (run_store t vm1 (kp_wf _ _ K1)) as (vm2 & R2 & Hw2 & E2 & S2 & T & M). exists vm2.
    pose proof (run_cmd_nodes (ns ++ [i_store t]) [] vm Hwf') as Hrun. rewrite app_nil_r in Hrun. rewrite Hrun.
    split_and!; [by eapply runs_app | by rewrite <- E1 | | by rewrite S2; apply K1 | rewrite T; apply K1].
    rewrite M, <- E1. unfold assigned, vm_ref_operand, cell_of. destruct (kp_mem _ _ K1) as (-> & -> & ->). done.
Qed.

Lemma assignment_correct_witness :
  exists c vm', vm_run_cmd wit_vm c (zlen c) = Some (vm', 0) /\ memory vm' = [i2f 7; i2f 40].
Proof.
  destruct wit_num_ok as (_ & _ & _ & _ & _ & Hm).
  destruct (assignment_correct 0 None (chars "1") wit_expr Hm wit_expr_ok) as (c & _ & H); [reflexivity | discriminate |].
  destruct (H wit_vm (i2f 40) wit_vm_wf) as (vm' & R & _ & M & _); [discriminate | vm_compute; reflexivity |].
  exists c, vm'. split; [exact R|]. rewrite M. vm_compute. reflexivity.
Defined.
