(* ===== verification/RbTree.v ===== *)
(** * RbTree: the red-black tree of bintree.c

    Nodes are linked through their addresses; the parent pointer and the colour share a
    word, as in the code.  A heap maps addresses to nodes, the tree is the heap and the
    root pointer ([rbs]); [None] is a NULL or wild pointer followed.  The loops that
    follow pointers take fuel. *)

From S2P Require Import Prelude.

(** ** Nodes *)

Record nd_rb_node := mk_rb { rb_right : Z; rb_left : Z; rb_parent_color : Z }.
Record rbs := mk_rbs { nodes : gmap Z nd_rb_node; rb_node : Z }.

Definition RB_RED : Z := 0.
Definition RB_BLACK : Z := 1.

Definition rb_parent (r : nd_rb_node) : Z := Z.land (rb_parent_color r) (Z.lnot 3).
Definition rb_color (r : nd_rb_node) : Z := Z.land (rb_parent_color r) 1.
Definition rb_is_red (r : nd_rb_node) : bool := rb_color r =? 0.
Definition rb_is_black (r : nd_rb_node) : bool := negb (rb_color r =? 0).

Definition set_left (p : Z) (r : nd_rb_node) : nd_rb_node := mk_rb (rb_right r) p (rb_parent_color r).
Definition set_right (p : Z) (r : nd_rb_node) : nd_rb_node := mk_rb p (rb_left r) (rb_parent_color r).
Definition set_parent_color (x : Z) (r : nd_rb_node) : nd_rb_node := mk_rb (rb_right r) (rb_left r) x.
Definition rb_set_red (r : nd_rb_node) : nd_rb_node := set_parent_color (Z.land (rb_parent_color r) (Z.lnot 1)) r.
Definition rb_set_black (r : nd_rb_node) : nd_rb_node := set_parent_color (Z.lor (rb_parent_color r) 1) r.
Definition rb_set_parent (p : Z) (r : nd_rb_node) : nd_rb_node :=
  set_parent_color (Z.lor (Z.land (rb_parent_color r) 3) p) r.
Definition rb_set_color (c : Z) (r : nd_rb_node) : nd_rb_node :=
  set_parent_color (Z.lor (Z.land (rb_parent_color r) (Z.lnot 1)) c) r.

(** Reading a field of the node at [p], and changing that node. *)
Definition rd {A} (f : nd_rb_node -> A) (p : Z) (s : rbs) : option A := f <$> nodes s !! p.
Definition wr (f : nd_rb_node -> nd_rb_node) (p : Z) (s : rbs) : option rbs :=
  nd ← nodes s !! p; Some (mk_rbs (<[p := f nd]> (nodes s)) (rb_node s)).
Definition set_root (p : Z) (s : rbs) : rbs := mk_rbs (nodes s) p.

Definition RB_ROOT : Z := 0.
Definition RB_EMPTY_ROOT (s : rbs) : bool := rb_node s =? 0.
Definition RB_EMPTY_NODE (node : Z) (s : rbs) : option bool := p ← rd rb_parent node s; Some (p =? node).
Definition RB_CLEAR_NODE (node : Z) (s : rbs) : option rbs := wr (rb_set_parent node) node s.

Definition rb_init_node (rb : Z) (s : rbs) : option rbs :=
  s ← wr (set_parent_color 0) rb s;
  s ← wr (set_right 0) rb s;
  s ← wr (set_left 0) rb s;
  RB_CLEAR_NODE rb s.

(** [struct nd_rb_node **]: the root pointer or a child pointer of a node. *)
Inductive rb_link := AtRoot | AtLeft (p : Z) | AtRight (p : Z).
Definition put_link (l : rb_link) (node : Z) (s : rbs) : option rbs :=
  match l with
  | AtRoot => Some (set_root node s)
  | AtLeft p => wr (set_left node) p s
  | AtRight p => wr (set_right node) p s
  end.
Definition get_link (l : rb_link) (s : rbs) : option Z :=
  match l with AtRoot => Some (rb_node s) | AtLeft p => rd rb_left p s | AtRight p => rd rb_right p s end.

Definition rb_link_node (node parent : Z) (link : rb_link) (s : rbs) : option rbs :=
  s ← wr (set_parent_color parent) node s;
  s ← wr (set_right 0) node s;
  s ← wr (set_left 0) node s;
  put_link link node s.

(** ** Rotation *)

Definition __rb_rotate_left (node : Z) (s : rbs) : option rbs :=
  right ← rd rb_right node s;
  parent ← rd rb_parent node s;
  rl ← rd rb_left right s;
  s ← wr (set_right rl) node s;
  s ← (if negb (rl =? 0) then wr (rb_set_parent node) rl s else Some s);
  s ← wr (set_left node) right s;
  s ← wr (rb_set_parent parent) right s;
  s ← (if negb (parent =? 0) then
         pl ← rd rb_left parent s;
         if node =? pl then wr (set_left right) parent s else wr (set_right right) parent s
       else Some (set_root right s));
  wr (rb_set_parent right) node s.

Definition __rb_rotate_right (node : Z) (s : rbs) : option rbs :=
  left ← rd rb_left node s;
  parent ← rd rb_parent node s;
  lr ← rd rb_right left s;
  s ← wr (set_left lr) node s;
  s ← (if negb (lr =? 0) then wr (rb_set_parent node) lr s else Some s);
  s ← wr (set_right node) left s;
  s ← wr (rb_set_parent parent) left s;
  s ← (if negb (parent =? 0) then
         pr ← rd rb_right parent s;
         if node =? pr then wr (set_right left) parent s else wr (set_left left) parent s
       else Some (set_root left s));
  wr (rb_set_parent left) node s.

(** ** Insertion *)

(** [p && rb_is_red(p)] *)
Definition red_node (p : Z) (s : rbs) : option bool :=
  if p =? 0 then Some false else rd rb_is_red p s.
(** [!p || rb_is_black(p)] *)
Definition black_node (p : Z) (s : rbs) : option bool :=
  if p =? 0 then Some true else rd rb_is_black p s.

Fixpoint rb_insert_color (fuel : nat) (node : Z) (s : rbs) : option rbs :=
  match fuel with
  | O => None
  | S fuel =>
      parent ← rd rb_parent node s;
      red ← red_node parent s;
      if negb red then wr rb_set_black (rb_node s) s
      else
        gparent ← rd rb_parent parent s;
        gleft ← rd rb_left gparent s;
        if parent =? gleft then
          uncle ← rd rb_right gparent s;
          uncle_red ← red_node uncle s;
          if (uncle_red : bool) then
            s ← wr rb_set_black uncle s;
            s ← wr rb_set_black parent s;
            s ← wr rb_set_red gparent s;
            rb_insert_color fuel gparent s
          else
            pright ← rd rb_right parent s;
            '(s, parent, node) ←
              (if pright =? node then s ← __rb_rotate_left parent s; Some (s, node, parent)
               else Some (s, parent, node));
            s ← wr rb_set_black parent s;
            s ← wr rb_set_red gparent s;
            s ← __rb_rotate_right gparent s;
            rb_insert_color fuel node s
        else
          uncle ← rd rb_left gparent s;
          uncle_red ← red_node uncle s;
          if (uncle_red : bool) then
            s ← wr rb_set_black uncle s;
            s ← wr rb_set_black parent s;
            s ← wr rb_set_red gparent s;
            rb_insert_color fuel gparent s
          else
            pleft ← rd rb_left parent s;
            '(s, parent, node) ←
              (if pleft =? node then s ← __rb_rotate_right parent s; Some (s, node, parent)
               else Some (s, parent, node));
            s ← wr rb_set_black parent s;
            s ← wr rb_set_red gparent s;
            s ← __rb_rotate_left gparent s;
            rb_insert_color fuel node s
  end.

(** ** Deletion *)

(** [if (node) rb_set_black(node)] *)
Definition blacken (node : Z) (s : rbs) : option rbs :=
  if node =? 0 then Some s else wr rb_set_black node s.

Fixpoint __rb_erase_color (fuel : nat) (node parent : Z) (s : rbs) : option rbs :=
  match fuel with
  | O => None
  | S fuel =>
      nb ← black_node node s;
      if nb && negb (node =? rb_node s) then
        pleft ← rd rb_left parent s;
        if pleft =? node then
          other ← rd rb_right parent s;
          ored ← rd rb_is_red other s;
          '(s, other) ←
            (if (ored : bool) then
               s ← wr rb_set_black other s;
               s ← wr rb_set_red parent s;
               s ← __rb_rotate_left parent s;
               other ← rd rb_right parent s; Some (s, other)
             else Some (s, other));
          oleft ← rd rb_left other s;
          oright ← rd rb_right other s;
          lb ← black_node oleft s;
          both ← (if (lb : bool) then black_node oright s else Some false);
          if (both : bool) then
            s ← wr rb_set_red other s;
            up ← rd rb_parent parent s;
            __rb_erase_color fuel parent up s
          else
            rblack ← black_node oright s;
            '(s, other) ←
              (if (rblack : bool) then
                 s ← wr rb_set_black oleft s;
                 s ← wr rb_set_red other s;
                 s ← __rb_rotate_right other s;
                 other ← rd rb_right parent s; Some (s, other)
               else Some (s, other));
            color ← rd rb_color parent s;
            s ← wr (rb_set_color color) other s;
            s ← wr rb_set_black parent s;
            oright ← rd rb_right other s;
            s ← wr rb_set_black oright s;
            s ← __rb_rotate_left parent s;
            blacken (rb_node s) s
        else
          other ← rd rb_left parent s;
          ored ← rd rb_is_red other s;
          '(s, other) ←
            (if (ored : bool) then
               s ← wr rb_set_black other s;
               s ← wr rb_set_red parent s;
               s ← __rb_rotate_right parent s;
               other ← rd rb_left parent s; Some (s, other)
             else Some (s, other));
          oleft ← rd rb_left other s;
          oright ← rd rb_right other s;
          lb ← black_node oleft s;
          both ← (if (lb : bool) then black_node oright s else Some false);
          if (both : bool) then
            s ← wr rb_set_red other s;
            up ← rd rb_parent parent s;
            __rb_erase_color fuel parent up s
          else
            lblack ← black_node oleft s;
            '(s, other) ←
              (if (lblack : bool) then
                 s ← wr rb_set_black oright s;
                 s ← wr rb_set_red other s;
                 s ← __rb_rotate_left other s;
                 other ← rd rb_left parent s; Some (s, other)
               else Some (s, other));
            color ← rd rb_color parent s;
            s ← wr (rb_set_color color) other s;
            s ← wr rb_set_black parent s;
            oleft ← rd rb_left other s;
            s ← wr rb_set_black oleft s;
            s ← __rb_rotate_right parent s;
            blacken (rb_node s) s
      else blacken node s
  end.

(** [while (node->rb_left) node = node->rb_left] and its mirror image. *)
Fixpoint go_left (fuel : nat) (node : Z) (s : rbs) : option Z :=
  match fuel with
  | O => None
  | S fuel => left ← rd rb_left node s; if left =? 0 then Some node else go_left fuel left s
  end.
Fixpoint go_right (fuel : nat) (node : Z) (s : rbs) : option Z :=
  match fuel with
  | O => None
  | S fuel => right ← rd rb_right node s; if right =? 0 then Some node else go_right fuel right s
  end.

(** The child pointer of [parent] that is [node] becomes [child]. *)
Definition replace_child (parent node child : Z) (s : rbs) : option rbs :=
  if negb (parent =? 0) then
    pl ← rd rb_left parent s;
    if pl =? node then wr (set_left child) parent s else wr (set_right child) parent s
  else Some (set_root child s).

Definition set_parent_of (child parent : Z) (s : rbs) : option rbs :=
  if negb (child =? 0) then wr (rb_set_parent parent) child s else Some s.

Definition rb_erase (fuel : nat) (node : Z) (s : rbs) : option rbs :=
  nl ← rd rb_left node s;
  nr ← rd rb_right node s;
  '(s, child, parent, color) ←
    (if (nl =? 0) || (nr =? 0) then
       let child := if nl =? 0 then nr else nl in
       parent ← rd rb_parent node s;
       color ← rd rb_color node s;
       s ← set_parent_of child parent s;
       s ← replace_child parent node child s;
       Some (s, child, parent, color)
     else
       let old := node in
       node ← go_left fuel nr s;
       oparent ← rd rb_parent old s;
       s ← replace_child oparent old node s;
       child ← rd rb_right node s;
       parent ← rd rb_parent node s;
       color ← rd rb_color node s;
       '(s, parent) ←
         (if parent =? old then Some (s, node)
          else
            s ← set_parent_of child parent s;
            s ← wr (set_left child) parent s;
            oright ← rd rb_right old s;
            s ← wr (set_right oright) node s;
            s ← wr (rb_set_parent node) oright s;
            Some (s, parent));
       opc ← rd rb_parent_color old s;
       s ← wr (set_parent_color opc) node s;
       oleft ← rd rb_left old s;
       s ← wr (set_left oleft) node s;
       s ← wr (rb_set_parent node) oleft s;
       Some (s, child, parent, color));
  if color =? RB_BLACK then __rb_erase_color fuel child parent s else Some s.

(** ** Walking *)

Definition rb_first (fuel : nat) (s : rbs) : option Z :=
  if rb_node s =? 0 then Some 0 else go_left fuel (rb_node s) s.
Definition rb_last (fuel : nat) (s : rbs) : option Z :=
  if rb_node s =? 0 then Some 0 else go_right fuel (rb_node s) s.

(** [while ((parent = rb_parent(node)) && node == parent->rb_right) node = parent] *)
Fixpoint up_from_right (fuel : nat) (node : Z) (s : rbs) : option Z :=
  match fuel with
  | O => None
  | S fuel =>
      parent ← rd rb_parent node s;
      if parent =? 0 then Some parent
      else pr ← rd rb_right parent s; if node =? pr then up_from_right fuel parent s else Some parent
  end.
Fixpoint up_from_left (fuel : nat) (node : Z) (s : rbs) : option Z :=
  match fuel with
  | O => None
  | S fuel =>
      parent ← rd rb_parent node s;
      if parent =? 0 then Some parent
      else pl ← rd rb_left parent s; if node =? pl then up_from_left fuel parent s else Some parent
  end.

Definition rb_next (fuel : nat) (node : Z) (s : rbs) : option Z :=
  empty ← RB_EMPTY_NODE node s;
  if (empty : bool) then Some 0
  else
    right ← rd rb_right node s;
    if negb (right =? 0) then go_left fuel right s else up_from_right fuel node s.
Definition rb_prev (fuel : nat) (node : Z) (s : rbs) : option Z :=
  empty ← RB_EMPTY_NODE node s;
  if (empty : bool) then Some 0
  else
    left ← rd rb_left node s;
    if negb (left =? 0) then go_right fuel left s else up_from_left fuel node s.

Definition rb_replace_node (victim new : Z) (s : rbs) : option rbs :=
  parent ← rd rb_parent victim s;
  s ← replace_child parent victim new s;
  vl ← rd rb_left victim s;
  s ← set_parent_of vl new s;
  vr ← rd rb_right victim s;
  s ← set_parent_of vr new s;
  nd ← nodes s !! victim;
  wr (fun _ => nd) new s.

(** ** Augmented trees: the nodes the caller's function is called on, in order *)

Fixpoint rb_augment_path (fuel : nat) (node : Z) (s : rbs) (calls : list Z) : option (list Z) :=
  match fuel with
  | O => None
  | S fuel =>
      let calls := calls ++ [node] in
      parent ← rd rb_parent node s;
      if parent =? 0 then Some calls
      else
        pl ← rd rb_left parent s;
        pr ← rd rb_right parent s;
        let calls :=
          if (node =? pl) && negb (pr =? 0) then calls ++ [pr]
          else if negb (pl =? 0) then calls ++ [pl] else calls in
        rb_augment_path fuel parent s calls
  end.
Definition rb_augment_insert (fuel : nat) (node : Z) (s : rbs) : option (list Z) :=
  l ← rd rb_left node s;
  r ← rd rb_right node s;
  rb_augment_path fuel (if negb (l =? 0) then l else if negb (r =? 0) then r else node) s [].
Definition rb_augment_erase_begin (fuel : nat) (node : Z) (s : rbs) : option Z :=
  l ← rd rb_left node s;
  r ← rd rb_right node s;
  if (r =? 0) && (l =? 0) then rd rb_parent node s
  else if r =? 0 then Some l
  else if l =? 0 then Some r
  else
    deepest ← rb_next fuel node s;
    dr ← rd rb_right deepest s;
    if negb (dr =? 0) then Some dr
    else p ← rd rb_parent deepest s; Some (if negb (p =? node) then p else deepest).
Definition rb_augment_erase_end (fuel : nat) (node : Z) (s : rbs) : option (list Z) :=
  if node =? 0 then Some [] else rb_augment_path fuel node s [].
