(* ===== verification/RbHeap.v ===== *)
(** * RbHeap: trees in the heap of RbTree.v

    A [cell] is a node at its address with its parent pointer and its colour apart; [heap]
    says that a list of cells, all at different addresses, is in the heap.  [lay] lists
    the cells of a tree and [layc] those around a subtree (the frames of a zipper), so
    that [zip s k t F] is a heap which holds the tree [t] in the context [k] and the
    other cells [F].

    The rules of [wp] (Prelude) follow the program: a read finds its cell, a write replaces
    it in place ([upd]).  Left and right are one case with a [side]. *)

From S2P Require Import Prelude RbTree.

(** ** Colours, sides, trees, contexts *)

Inductive color := Red | Black.
Definition bit (c : color) : Z := match c with Red => 0 | Black => 1 end.

Inductive side := Lf | Rt.

Inductive tree := L | N (c : color) (l : tree) (a : Z) (r : tree).

(** The node whose child on side [d] is [x] and whose other child is [y]. *)
Definition nd (d : side) (c : color) (a : Z) (x y : tree) : tree :=
  match d with Lf => N c x a y | Rt => N c y a x end.

Definition ptr (t : tree) : Z := match t with L => 0 | N _ _ a _ => a end.

(** A frame: a node, the side of its hole, and its other child. *)
Inductive frame := Fr (d : side) (c : color) (a : Z) (t : tree).

Fixpoint plug (k : list frame) (t : tree) : tree :=
  match k with [] => t | Fr d c a y :: k => plug k (nd d c a t y) end.

Fixpoint inorder (t : tree) : list Z :=
  match t with L => [] | N _ l a r => inorder l ++ a :: inorder r end.

Fixpoint height (t : tree) : nat :=
  match t with L => O | N _ l _ r => S (Nat.max (height l) (height r)) end.

(** The nodes before and after the hole, in order. *)
Fixpoint before (k : list frame) : list Z :=
  match k with
  | [] => []
  | Fr Lf _ _ _ :: k => before k
  | Fr Rt _ a y :: k => before k ++ inorder y ++ [a]
  end.
Fixpoint after (k : list frame) : list Z :=
  match k with
  | [] => []
  | Fr Lf _ a y :: k => a :: inorder y ++ after k
  | Fr Rt _ _ _ :: k => after k
  end.

Lemma inorder_plug k t : inorder (plug k t) = before k ++ inorder t ++ after k.
Proof.
  revert t. induction k as [|[[|] c a y] k IH]; intros t; simpl; [by rewrite app_nil_r | |];
    rewrite IH; simpl; by repeat (rewrite <- app_assoc; simpl).
Qed.

Lemma before_snoc k d c a y :
  before (k ++ [Fr d c a y]) = match d with Lf => [] | Rt => inorder y ++ [a] end ++ before k.
Proof.
  induction k as [|[[|] c' a' y'] k IH]; simpl; [by destruct d; simpl; rewrite ?app_nil_r | done |].
  rewrite IH. by rewrite <- app_assoc.
Qed.
Lemma after_snoc k d c a y :
  after (k ++ [Fr d c a y]) = after k ++ match d with Lf => a :: inorder y | Rt => [] end.
Proof.
  induction k as [|[[|] c' a' y'] k IH]; simpl; [by destruct d; simpl; rewrite ?app_nil_r | | done].
  rewrite IH. by rewrite <- app_assoc.
Qed.

Lemma length_plug k t : (length k + height t <= height (plug k t))%nat.
Proof.
  revert t. induction k as [|[d c a y] k IH]; intros t; simpl; [done|].
  specialize (IH (nd d c a t y)). destruct d; simpl in *; lia.
Qed.

Lemma plug_app k1 k2 t : plug (k1 ++ k2) t = plug k2 (plug k1 t).
Proof. revert t. induction k1 as [|[d c a y] k1 IH]; intros t; simpl; [done | apply IH]. Qed.

(** The position of a node in the sequence is a position in the tree. *)
Lemma tree_at T o1 a o2 : inorder T = o1 ++ a :: o2 ->
  exists k c l r, T = plug k (N c l a r) /\ o1 = before k ++ inorder l /\ o2 = inorder r ++ after k.
Proof.
  revert o1 o2. induction T as [|c l IHl x r IHr]; intros o1 o2 E; simpl in E; [by destruct o1|].
  apply app_eq_app in E as (m & [[E1 E2]|[E1 E2]]).
  - destruct m as [|y m]; simpl in E2; injection E2 as <- ->.
    + exists [], c, l, r. rewrite app_nil_r in *. subst. simpl. by rewrite ?app_nil_r.
    + destruct (IHl _ _ E1) as (k & c' & l' & r' & -> & -> & ->).
      exists (k ++ [Fr Lf c x r]), c', l', r'. rewrite plug_app, before_snoc, after_snoc. simpl. by rewrite <- app_assoc.
  - destruct m as [|y m]; simpl in E2; injection E2 as -> E2.
    + exists [], c, l, r. rewrite app_nil_r in *. subst. simpl. by rewrite ?app_nil_r.
    + destruct (IHr _ _ E2) as (k & c' & l' & r' & -> & -> & ->).
      exists (k ++ [Fr Rt c y l]), c', l', r'. rewrite plug_app, before_snoc, after_snoc. subst. simpl.
      by rewrite !app_nil_r, <- !app_assoc.
Qed.

(** ** Cells *)

Inductive cell := Cell (a r l p : Z) (c : color).
Definition caddr (x : cell) : Z := let 'Cell a _ _ _ _ := x in a.

Definition cell_ok (s : rbs) (x : cell) : Prop :=
  let 'Cell a r l p c := x in
  a <> 0 /\ a mod 4 = 0 /\ p mod 4 = 0 /\ nodes s !! a = Some (mk_rb r l (p + bit c)).

Definition heap (s : rbs) (root : Z) (Ls : list cell) : Prop :=
  NoDup (caddr <$> Ls) /\ Forall (cell_ok s) Ls /\ rb_node s = root.

Fixpoint lay (p : Z) (t : tree) : list cell :=
  match t with L => [] | N c l a r => Cell a (ptr r) (ptr l) p c :: lay a l ++ lay a r end.

Definition cellof (d : side) (a x y p : Z) (c : color) : cell :=
  match d with Lf => Cell a y x p c | Rt => Cell a x y p c end.

Definition top (k : list frame) : Z := match k with [] => 0 | Fr _ _ a _ :: _ => a end.

Fixpoint layc (k : list frame) (x : Z) : list cell :=
  match k with
  | [] => []
  | Fr d c a y :: k => cellof d a x (ptr y) (top k) c :: lay a y ++ layc k a
  end.

Fixpoint rootp (k : list frame) (x : Z) : Z :=
  match k with [] => x | Fr _ _ a _ :: k => rootp k a end.

Definition zip (s : rbs) (k : list frame) (t : tree) (F : list cell) : Prop :=
  heap s (rootp k (ptr t)) (lay (top k) t ++ layc k (ptr t) ++ F).

Lemma heap_perm s root Ls Ls' : heap s root Ls -> Ls ≡ₚ Ls' -> heap s root Ls'.
Proof. intros (H1 & H2 & H3) E. unfold heap. by rewrite <- E. Qed.

Lemma zip_up s d c a x y k F : zip s (Fr d c a y :: k) x F <-> zip s k (nd d c a x y) F.
Proof.
  unfold zip. destruct d; simpl; split; intros H; (eapply heap_perm; [exact H | solve_Permutation]).
Qed.

Lemma zip_close s d c a x y k F : zip s (Fr d c a y :: k) x F -> zip s k (nd d c a x y) F.
Proof. apply zip_up. Qed.
Lemma zip_open s d c a x y k F : zip s k (nd d c a x y) F -> zip s (Fr d c a y :: k) x F.
Proof. apply zip_up. Qed.

Lemma zip_plug s k t F : zip s k t F <-> zip s [] (plug k t) F.
Proof.
  revert t. induction k as [|[d c a y] k IH]; intros t; simpl; [done|]. by rewrite zip_up, IH.
Qed.

Lemma zip_frame s k t F F' : F ≡ₚ F' -> zip s k t F -> zip s k t F'.
Proof. intros E H. eapply heap_perm; [exact H|]. by rewrite E. Qed.

Lemma caddr_lay p t : caddr <$> lay p t ≡ₚ inorder t.
Proof.
  revert p. induction t as [|c l IHl a r IHr]; intros p; simpl; [done|].
  rewrite fmap_app, IHl, IHr. solve_Permutation.
Qed.

(** Replacing a segment in place. *)
Inductive upd (A B : list cell) : list cell -> list cell -> Prop :=
| upd_here : upd A B A B
| upd_front R : upd A B (A ++ R) (B ++ R)
| upd_cons x Ls Ls' : upd A B Ls Ls' -> upd A B (x :: Ls) (x :: Ls')
| upd_left Ls Ls' R : upd A B Ls Ls' -> upd A B (Ls ++ R) (Ls' ++ R)
| upd_right R Ls Ls' : upd A B Ls Ls' -> upd A B (R ++ Ls) (R ++ Ls').

Lemma upd_head x y R : upd [x] [y] (x :: R) (y :: R).
Proof. apply (upd_front [x] [y]). Qed.
Lemma upd_drop x R : upd [x] [] (x :: R) R.
Proof. apply (upd_front [x] []). Qed.

Lemma upd_perm A B Ls Ls' : upd A B Ls Ls' -> exists R, Ls ≡ₚ A ++ R /\ Ls' ≡ₚ B ++ R.
Proof.
  induction 1 as [| R | x Ls Ls' _ (R & E1 & E2) | Ls Ls' X _ (R & E1 & E2) | X Ls Ls' _ (R & E1 & E2)].
  - exists []. by rewrite !app_nil_r.
  - by exists R.
  - exists (x :: R). rewrite E1, E2. split; solve_Permutation.
  - exists (R ++ X). rewrite E1, E2. split; solve_Permutation.
  - exists (X ++ R). rewrite E1, E2. split; solve_Permutation.
Qed.

Ltac solve_upd :=
  first [ apply upd_head | apply upd_drop | apply upd_here | apply upd_front
        | apply upd_cons; solve_upd | apply upd_left; solve_upd | apply upd_right; solve_upd ].

Lemma heap_at s root Ls Ls' x y :
  heap s root Ls -> upd [x] [y] Ls Ls' -> cell_ok s x.
Proof. intros (_ & H & _) (R & E & _)%upd_perm. rewrite E in H. by apply Forall_cons in H as [? _]. Qed.

(** Two cells of a heap are at different addresses. *)
Lemma heap_ne s root Ls A B Ls' a b :
  heap s root Ls -> upd A B Ls Ls' -> a ∈ caddr <$> A ->
  b ∈ caddr <$> Ls' -> b ∉ caddr <$> B -> a <> b.
Proof.
  intros (Hn & _) (R & E1 & E2)%upd_perm Ha Hb Hb' ->.
  rewrite E1, fmap_app, NoDup_app in Hn. destruct Hn as (_ & Hn & _). apply (Hn b Ha).
  rewrite E2, fmap_app, elem_of_app in Hb. tauto.
Qed.

(** ** Colours and parents in one word *)

Lemma aligned_ex p : p mod 4 = 0 -> exists k, p = k * 2 ^ 2.
Proof. intros H. exists (p / 4). pose proof (Z_div_mod_eq_full p 4). lia. Qed.

Lemma pc_clear p b n : p mod 4 = 0 -> 0 <= b < 2 ^ n -> 1 <= n <= 2 -> Z.land (p + b) (Z.lnot (Z.ones n)) = p.
Proof.
  intros Hp Hb Hn. assert (2 ^ n = 2 \/ 2 ^ n = 4) as Hc.
  { assert (n = 1 \/ n = 2) as [-> | ->] by lia; simpl; lia. }
  rewrite <- Z.ldiff_land, Z.ldiff_ones_r by lia. rewrite Z.shiftl_mul_pow2, Z.shiftr_div_pow2 by lia.
  assert (p mod 2 ^ n = 0) as Hm.
  { destruct Hc as [-> | ->]; [|done]. pose proof (Z_div_mod_eq_full p 4).
    pose proof (Z_div_mod_eq_full p 2). pose proof (Z.mod_pos_bound p 2). lia. }
  pose proof (Z_div_mod_eq_full p (2 ^ n)).
  rewrite <- (Z.div_unique_pos (p + b) (2 ^ n) (p / 2 ^ n) b); lia.
Qed.

Lemma pc_parent p c : p mod 4 = 0 -> Z.land (p + bit c) (Z.lnot 3) = p.
Proof. intros H. apply (pc_clear p (bit c) 2); [done | destruct c; simpl; lia | lia]. Qed.
Lemma pc_nocolor p c : p mod 4 = 0 -> Z.land (p + bit c) (Z.lnot 1) = p.
Proof. intros H. apply (pc_clear p (bit c) 1); [done | destruct c; simpl; lia | lia]. Qed.

Lemma pc_or p b : p mod 4 = 0 -> 0 <= b < 4 -> Z.lor p b = p + b.
Proof. intros [k ->]%aligned_ex Hb. apply lor_add; simpl; lia. Qed.

Lemma pc_low p c n : p mod 4 = 0 -> 1 <= n <= 2 -> Z.land (p + bit c) (Z.ones n) = bit c.
Proof.
  intros Hp Hn. rewrite Z.land_ones by lia.
  assert (n = 1 \/ n = 2) as [-> | ->] by lia; simpl Z.pow;
    pose proof (Z_div_mod_eq_full p 4).
  - symmetry. apply (Z.mod_unique_pos _ 2 (2 * (p / 4))); destruct c; simpl; lia.
  - symmetry. apply (Z.mod_unique_pos _ 4 (p / 4)); destruct c; simpl; lia.
Qed.

Definition is_red (c : color) : bool := match c with Red => true | Black => false end.

Section word.
Context (r l p : Z) (c : color) (Hp : p mod 4 = 0).
Local Abbreviation nd0 := (mk_rb r l (p + bit c)).

Lemma nd_parent : rb_parent nd0 = p.
Proof. by apply pc_parent. Qed.
Lemma nd_color : rb_color nd0 = bit c.
Proof. by apply (pc_low p c 1). Qed.
Lemma nd_is_red : rb_is_red nd0 = is_red c.
Proof. unfold rb_is_red. rewrite nd_color. by destruct c. Qed.
Lemma nd_is_black : rb_is_black nd0 = negb (is_red c).
Proof. unfold rb_is_black. rewrite nd_color. by destruct c. Qed.
Lemma nd_set_red : rb_set_red nd0 = mk_rb r l (p + bit Red).
Proof. unfold rb_set_red, set_parent_color. simpl. rewrite pc_nocolor by done. f_equal. lia. Qed.
Lemma nd_set_black : rb_set_black nd0 = mk_rb r l (p + bit Black).
Proof.
  unfold rb_set_black, set_parent_color. simpl. f_equal. rewrite <- (pc_or p (bit c)), <- Z.lor_assoc by (destruct c; simpl; lia).
  rewrite <- (pc_or p 1) by lia. by destruct c.
Qed.
Lemma nd_set_parent q : q mod 4 = 0 -> rb_set_parent q nd0 = mk_rb r l (q + bit c).
Proof.
  intros Hq. unfold rb_set_parent, set_parent_color. simpl. f_equal.
  change 3 with (Z.ones 2). rewrite pc_low, Z.lor_comm, pc_or by (try done; destruct c; simpl; lia). done.
Qed.
Lemma nd_set_color c' : rb_set_color (bit c') nd0 = mk_rb r l (p + bit c').
Proof.
  unfold rb_set_color, set_parent_color. simpl. rewrite pc_nocolor, pc_or by (try done; destruct c'; simpl; lia). done.
Qed.
End word.

(** ** Reading and writing cells *)

Section rules.
Context (s : rbs) (root : Z) (Ls Ls' B : list cell) (a r l p : Z) (c : color).
Context (H : heap s root Ls) (Hu : upd [Cell a r l p c] B Ls Ls').

Lemma heap_cell : a <> 0 /\ a mod 4 = 0 /\ p mod 4 = 0 /\ nodes s !! a = Some (mk_rb r l (p + bit c)).
Proof. destruct H as (_ & Ha & _), (upd_perm _ _ _ _ Hu) as (R & E & _). rewrite E in Ha. by apply Forall_cons in Ha as [? _]. Qed.

Lemma heap_rd {A} (f : nd_rb_node -> A) : rd f a s = Some (f (mk_rb r l (p + bit c))).
Proof. unfold rd. destruct heap_cell as (_ & _ & _ & ->). done. Qed.
Lemma rd_left : rd rb_left a s = Some l.
Proof. by rewrite heap_rd. Qed.
Lemma rd_right : rd rb_right a s = Some r.
Proof. by rewrite heap_rd. Qed.
Lemma rd_pc : rd rb_parent_color a s = Some (p + bit c).
Proof. by rewrite heap_rd. Qed.
Lemma rd_parent : rd rb_parent a s = Some p.
Proof. rewrite heap_rd, nd_parent; [done | apply heap_cell]. Qed.
Lemma rd_color : rd rb_color a s = Some (bit c).
Proof. rewrite heap_rd, nd_color; [done | apply heap_cell]. Qed.
Lemma rd_is_red : rd rb_is_red a s = Some (is_red c).
Proof. rewrite heap_rd, nd_is_red; [done | apply heap_cell]. Qed.
Lemma rd_is_black : rd rb_is_black a s = Some (negb (is_red c)).
Proof. rewrite heap_rd, nd_is_black; [done | apply heap_cell]. Qed.
End rules.

Lemma heap_wr f s root Ls Ls' a r l p c r' l' p' c' :
  heap s root Ls -> upd [Cell a r l p c] [Cell a r' l' p' c'] Ls Ls' ->
  p' mod 4 = 0 -> f (mk_rb r l (p + bit c)) = mk_rb r' l' (p' + bit c') ->
  wp (wr f a s) (fun s' => heap s' root Ls').
Proof.
  intros H Hu Hp Hf. destruct (heap_cell _ _ _ _ _ _ _ _ _ _ H Hu) as (Ha0 & Ha4 & _ & Hl).
  eexists. unfold wr. rewrite Hl. split; [done|].
  destruct H as (Hn & Hc & Hr), (upd_perm _ _ _ _ Hu) as (R & E & E'). rewrite E in Hn, Hc.
  unfold heap. rewrite E'. simpl in Hn |- *. split; [done|]. split; [|done].
  apply Forall_cons in Hc as [_ Hc]. constructor.
  - simpl. by rewrite lookup_insert_eq, Hf.
  - rewrite NoDup_cons in Hn. destruct Hn as [Hn _].
    apply Forall_forall. intros [b r1 l1 p1 c1] Hb. rewrite Forall_forall in Hc.
    specialize (Hc _ Hb). simpl in Hc |- *. rewrite lookup_insert_ne; [done|].
    intros <-. apply Hn. apply list_elem_of_fmap. by exists (Cell a r1 l1 p1 c1).
Qed.

Section writes.
Context (s : rbs) (root : Z) (Ls Ls' : list cell) (a r l p : Z) (c : color).
Context (H : heap s root Ls).
Let aligned_old B := fun Hu : upd [Cell a r l p c] B Ls Ls' => heap_cell _ _ _ _ _ _ _ _ _ _ H Hu.

Lemma wr_left q : upd [Cell a r l p c] [Cell a r q p c] Ls Ls' ->
  wp (wr (set_left q) a s) (fun s' => heap s' root Ls').
Proof. intros Hu. eapply heap_wr; [done.. | apply (aligned_old _ Hu) | done]. Qed.
Lemma wr_right q : upd [Cell a r l p c] [Cell a q l p c] Ls Ls' ->
  wp (wr (set_right q) a s) (fun s' => heap s' root Ls').
Proof. intros Hu. eapply heap_wr; [done.. | apply (aligned_old _ Hu) | done]. Qed.
Lemma wr_parent q : upd [Cell a r l p c] [Cell a r l q c] Ls Ls' -> q mod 4 = 0 ->
  wp (wr (rb_set_parent q) a s) (fun s' => heap s' root Ls').
Proof. intros Hu Hq. eapply heap_wr; [done.. | apply nd_set_parent; [apply (aligned_old _ Hu) | done]]. Qed.
Lemma wr_red : upd [Cell a r l p c] [Cell a r l p Red] Ls Ls' ->
  wp (wr rb_set_red a s) (fun s' => heap s' root Ls').
Proof. intros Hu. eapply heap_wr; [done | done | apply (aligned_old _ Hu) | apply nd_set_red, (aligned_old _ Hu)]. Qed.
Lemma wr_black : upd [Cell a r l p c] [Cell a r l p Black] Ls Ls' ->
  wp (wr rb_set_black a s) (fun s' => heap s' root Ls').
Proof. intros Hu. eapply heap_wr; [done | done | apply (aligned_old _ Hu) | apply nd_set_black, (aligned_old _ Hu)]. Qed.
Lemma wr_color c' : upd [Cell a r l p c] [Cell a r l p c'] Ls Ls' ->
  wp (wr (rb_set_color (bit c')) a s) (fun s' => heap s' root Ls').
Proof. intros Hu. eapply heap_wr; [done | done | apply (aligned_old _ Hu) | apply nd_set_color, (aligned_old _ Hu)]. Qed.
Lemma wr_pc q c' : upd [Cell a r l p c] [Cell a r l q c'] Ls Ls' -> q mod 4 = 0 ->
  wp (wr (set_parent_color (q + bit c')) a s) (fun s' => heap s' root Ls').
Proof. intros Hu Hq. eapply heap_wr; done. Qed.
End writes.

(** The rules as tactics: [hread] does the reads at the head of the program, [hwrite]
    one write, [hif] decides a test on pointers known to differ. *)
Lemma heap_aligned s root Ls Ls' B a r l p c :
  heap s root Ls -> upd [Cell a r l p c] B Ls Ls' -> a mod 4 = 0.
Proof. intros H Hu. apply (heap_cell _ _ _ _ _ _ _ _ _ _ H Hu). Qed.
Lemma heap_aligned_parent s root Ls Ls' B a r l p c :
  heap s root Ls -> upd [Cell a r l p c] B Ls Ls' -> p mod 4 = 0.
Proof. intros H Hu. apply (heap_cell _ _ _ _ _ _ _ _ _ _ H Hu). Qed.
Lemma heap_nonzero s root Ls Ls' B a r l p c :
  heap s root Ls -> upd [Cell a r l p c] B Ls Ls' -> a <> 0.
Proof. intros H Hu. apply (heap_cell _ _ _ _ _ _ _ _ _ _ H Hu). Qed.

Ltac aligned :=
  first [ reflexivity | assumption
        | match goal with H : heap _ _ _ |- _ =>
            first [ by (eapply (heap_aligned_parent _ _ _ _ []); [exact H | solve_upd])
                  | by (eapply (heap_aligned _ _ _ _ []); [exact H | solve_upd]) ] end ].

Ltac hread1 H f a s :=
  let E := fresh in
  let go lem := eassert (rd f a s = Some _) as E by (eapply (lem _ _ _ _ []); [exact H | solve_upd]) in
  lazymatch f with
  | rb_left => go rd_left | rb_right => go rd_right | rb_parent => go rd_parent
  | rb_color => go rd_color | rb_is_red => go rd_is_red | rb_is_black => go rd_is_black
  | rb_parent_color => go rd_pc
  end;
  rewrite E; clear E; cbn [mbind option_bind].
Ltac hread :=
  repeat match goal with H : heap ?s _ _ |- context [mbind _ (rd ?f ?a ?s)] => hread1 H f a s end.

Ltac hnext := let s := fresh "s" in let H := fresh "Hh" in intros s H; cbv beta in H |- *.
Ltac hwrite_rule H :=
  first [ eapply wr_left; [exact H | solve_upd] | eapply wr_right; [exact H | solve_upd]
        | eapply wr_parent; [exact H | solve_upd | aligned] | eapply wr_red; [exact H | solve_upd]
        | eapply wr_black; [exact H | solve_upd] | eapply wr_color; [exact H | solve_upd]
        | eapply wr_pc; [exact H | solve_upd | aligned] ].
Ltac hwrite :=
  match goal with
  | H : heap ?s _ _ |- wp (mbind _ (wr _ _ ?s)) _ => eapply wp_bind; [hwrite_rule H | clear dependent s; hnext]
  | H : heap ?s _ _ |- wp (wr _ _ ?s) _ => eapply wp_mono; [hwrite_rule H | clear dependent s; hnext]
  end.

Lemma eqb_false (a b : Z) : a <> b -> (a =? b) = false.
Proof. apply Z.eqb_neq. Qed.

Lemma wp_heap_perm m root Ls Ls' :
  Ls' ≡ₚ Ls -> wp m (fun s => heap s root Ls) -> wp m (fun s => heap s root Ls').
Proof. intros E H. eapply wp_mono; [exact H|]. intros s Hs. eapply heap_perm; [exact Hs | by rewrite E]. Qed.

Lemma wp_set_parent_of s root Ls Ls' t p q :
  heap s root Ls -> upd (lay p t) (lay q t) Ls Ls' -> q mod 4 = 0 ->
  wp (set_parent_of (ptr t) q s) (fun s' => heap s' root Ls').
Proof.
  intros H Hu Hq. destruct (upd_perm _ _ _ _ Hu) as (R & E & E'). apply heap_perm with (2 := E) in H.
  apply (wp_heap_perm _ _ _ _ E').
  unfold set_parent_of. destruct t as [|c l a r]; simpl in *; [by apply wp_ret|].
  rewrite eqb_false by (eapply (heap_nonzero _ _ _ _ []); [exact H | solve_upd]). simpl.
  hwrite. done.
Qed.

(** The pointer to the hole of the context: a child pointer, or the root. *)
Definition sib_ne (k : list frame) (x : Z) : Prop :=
  match k with [] => True | Fr _ _ _ t :: _ => ptr t <> x end.

Section hole.
Context (s : rbs) (k : list frame) (x : Z) (Ls Ls' : list cell) (y : Z).
Context (H : heap s (rootp k x) Ls) (Hu : upd (layc k x) (layc k y) Ls Ls') (Hx : sib_ne k x).

Local Ltac hole :=
  destruct (upd_perm _ _ _ _ Hu) as (R & E & E'); apply heap_perm with (2 := E) in H;
  apply (wp_heap_perm _ _ _ _ E');
  destruct k as [|[d c a t] k']; cbn [top];
  [ exists (set_root y s); split; [done|]; destruct H as (? & ? & ?); by split_and!
  | assert (a <> 0) as Ha by (destruct d; eapply (heap_nonzero _ _ _ _ []); try exact H; solve_upd);
    rewrite (eqb_false _ _ Ha); cbn [negb]; simpl in Hx;
    destruct d; simpl in H; hread; rewrite ?Z.eqb_refl, ?(eqb_false _ _ Hx), ?(eqb_false _ _ (not_eq_sym Hx));
    hwrite; done ].

Lemma wp_hole_left :
  wp (if negb (top k =? 0) then
        pl ← rd rb_left (top k) s;
        if x =? pl then wr (set_left y) (top k) s else wr (set_right y) (top k) s
      else Some (set_root y s)) (fun s' => heap s' (rootp k y) Ls').
Proof. hole. Qed.
Lemma wp_hole_right :
  wp (if negb (top k =? 0) then
        pr ← rd rb_right (top k) s;
        if x =? pr then wr (set_right y) (top k) s else wr (set_left y) (top k) s
      else Some (set_root y s)) (fun s' => heap s' (rootp k y) Ls').
Proof. hole. Qed.
Lemma wp_replace_child : wp (replace_child (top k) x y s) (fun s' => heap s' (rootp k y) Ls').
Proof. unfold replace_child. hole. Qed.
End hole.

(** ** Zippers *)

Lemma caddr_cellof d a x y p c : caddr (cellof d a x y p c) = a.
Proof. by destruct d. Qed.

(** The nodes in a zipper are at different addresses, none of them 0. *)
Lemma zip_ptr s k t F : zip s k t F -> t <> L -> ptr t <> 0 /\ ptr t mod 4 = 0 /\ sib_ne k (ptr t).
Proof.
  intros H Ht. destruct t as [|c l a r]; [done|]. unfold zip in H. cbn [lay ptr app] in H |- *.
  destruct (heap_cell _ _ _ _ _ _ _ _ _ _ H (upd_drop _ _)) as (H1 & H2 & _). split_and!; [done..|].
  destruct k as [|[d c' b t] k]; simpl; [done|]. destruct t as [|c2 l2 b2 r2]; simpl; [done|].
  intros ->. destruct H as [H _]. rewrite fmap_cons, NoDup_cons in H. destruct H as [H _]. apply H.
  cbn [layc lay app]. rewrite !fmap_app, !fmap_cons. cbn [caddr app]. set_solver.
Qed.

Lemma zip_top_aligned s k t F : zip s k t F -> top k mod 4 = 0.
Proof.
  destruct k as [|[d c a y] k]; intros H; [done|]. unfold zip in H.
  destruct d; simpl in *; by aligned.
Qed.

Lemma zip_top_nonzero s d c a y k t F : zip s (Fr d c a y :: k) t F -> a <> 0 /\ a <> ptr t.
Proof.
  intros H. split.
  - unfold zip in H. destruct d; simpl in H; (eapply (heap_nonzero _ _ _ _ []); [exact H | solve_upd]).
  - intros E. destruct t as [|c' l b r]; simpl in E.
    + unfold zip in H. destruct d; simpl in H; eapply (heap_nonzero _ _ _ _ []); [exact H | solve_upd | done | exact H | solve_upd | done].
    + subst. destruct H as [H _]. cbn [lay layc top ptr app] in H. rewrite fmap_cons, NoDup_cons in H.
      destruct H as [H _]. apply H. rewrite !fmap_app, !fmap_cons, caddr_cellof. set_solver.
Qed.

Lemma zip_sib_eqb s d c b y k t F :
  zip s (Fr d c b y :: k) t F -> (ptr y =? 0) = match y with L => true | _ => false end.
Proof.
  intros H. destruct y as [|cy ly ay ry]; [done|]. apply eqb_false. unfold zip in H.
  destruct d; simpl in H; (eapply (heap_nonzero _ _ _ _ []); [exact H | solve_upd]).
Qed.

Ltac zsimpl H := unfold zip in H; cbn [lay layc top ptr rootp app cellof nd] in H.
Ltac zread := match goal with H : zip _ _ _ _ |- _ => let Z := fresh in pose proof H as Z; zsimpl Z; hread; clear Z end.
(** The child [t] goes from the parent [p] to the parent [q]; the hole's pointer from [x] to [y]. *)
Ltac hset_parent t p q :=
  match goal with H : heap ?s _ _ |- wp (mbind _ _) _ =>
    eapply wp_bind; [eapply (wp_set_parent_of _ _ _ _ t p q); [exact H | solve_upd | aligned] | clear dependent s; hnext] end.
Ltac hhole x y :=
  match goal with H : heap ?s _ _, Hs : sib_ne ?k x |- wp (mbind _ _) _ =>
    eapply wp_bind;
    [ first [ eapply (wp_hole_left s k x _ _ y); [exact H | solve_upd | exact Hs]
            | eapply (wp_hole_right s k x _ _ y); [exact H | solve_upd | exact Hs]
            | eapply (wp_replace_child s k x _ _ y); [exact H | solve_upd | exact Hs] ]
    | clear dependent s; hnext] end.
Ltac zfinish H := unfold zip; cbn [lay layc top ptr rootp cellof nd]; eapply heap_perm; [exact H | solve_Permutation].

Definition rotate (d : side) : Z -> rbs -> option rbs :=
  match d with Lf => __rb_rotate_left | Rt => __rb_rotate_right end.

(** Rotation lifts the other child of [a] over it, whatever the tree is part of. *)
Lemma wp_rotate d s k c a x c' b y z F :
  zip s k (nd d c a x (nd d c' b y z)) F ->
  wp (rotate d a s) (fun s' => zip s' k (nd d c' b (nd d c a x y) z) F).
Proof.
  intros H. pose proof (zip_top_aligned _ _ _ _ H) as Hal.
  destruct (zip_ptr _ _ _ _ H) as (_ & _ & Hs); [by destruct d|].
  destruct d; unfold rotate, __rb_rotate_left, __rb_rotate_right; zsimpl H; simpl in Hs; hread; hwrite;
    hset_parent y b a; hwrite; hwrite; hhole a b; hwrite; by zfinish Hh.
Qed.

(** ** Colours of subtrees *)

Definition col (t : tree) : color := match t with L => Black | N c _ _ _ => c end.
Definition paint (c : color) (t : tree) : tree := match t with L => L | N _ l a r => N c l a r end.

Lemma ptr_nd d c a x y : ptr (nd d c a x y) = a.
Proof. by destruct d. Qed.

Definition flip (d : side) : side := match d with Lf => Rt | Rt => Lf end.
Definition rb_child (d : side) : nd_rb_node -> Z := match d with Lf => rb_left | Rt => rb_right end.

Lemma rd_red_node s root Ls Ls' p t :
  heap s root Ls -> upd (lay p t) [] Ls Ls' -> red_node (ptr t) s = Some (is_red (col t)).
Proof.
  intros H Hu. unfold red_node. destruct t as [|c l a r]; simpl; [done|].
  destruct (upd_perm _ _ _ _ Hu) as (R & E & _). apply heap_perm with (2 := E) in H. simpl in H.
  rewrite eqb_false by (eapply (heap_nonzero _ _ _ _ []); [exact H | solve_upd]).
  eapply (rd_is_red _ _ _ _ []); [exact H | solve_upd].
Qed.

Lemma rd_black_node s root Ls Ls' p t :
  heap s root Ls -> upd (lay p t) [] Ls Ls' -> black_node (ptr t) s = Some (negb (is_red (col t))).
Proof.
  intros H Hu. unfold black_node. destruct t as [|c l a r]; simpl; [done|].
  destruct (upd_perm _ _ _ _ Hu) as (R & E & _). apply heap_perm with (2 := E) in H. simpl in H.
  rewrite eqb_false by (eapply (heap_nonzero _ _ _ _ []); [exact H | solve_upd]).
  eapply (rd_is_black _ _ _ _ []); [exact H | solve_upd].
Qed.

Lemma wp_blacken s k t F :
  zip s k t F -> wp (blacken (ptr t) s) (fun s' => zip s' k (paint Black t) F).
Proof.
  intros H. unfold blacken. destruct t as [|c l a r]; [by apply wp_ret|].
  destruct (zip_ptr _ _ _ _ H) as (Ha & _); [done|]. cbn [ptr] in *. rewrite eqb_false by done.
  zsimpl H. hwrite. by zfinish Hh.
Qed.

Lemma zip_root s t F : zip s [] t F -> rb_node s = ptr t.
Proof. by intros (_ & _ & H). Qed.

(** ** Down to the first or the last node *)

Definition on_side (d : side) (f : frame) : Prop := let 'Fr d' _ _ _ := f in d' = d.

Lemma before_side k : Forall (on_side Lf) k -> before k = [].
Proof. induction 1 as [|[d c a y] k E H IH]; [done|]. simpl in E. by subst. Qed.
Lemma after_side k : Forall (on_side Rt) k -> after k = [].
Proof. induction 1 as [|[d c a y] k E H IH]; [done|]. simpl in E. by subst. Qed.

Definition go (d : side) : nat -> Z -> rbs -> option Z := match d with Lf => go_left | Rt => go_right end.

Lemma nd_cases d t : t = L \/ exists c a x y, t = nd d c a x y.
Proof. destruct t as [|c l a r]; [by left | right]. destruct d; by repeat eexists. Qed.

Lemma go_ok d fuel s root p t R :
  heap s root (lay p t ++ R) -> t <> L -> (height t <= fuel)%nat ->
  exists lc c b z, t = plug lc (nd d c b L z) /\ Forall (on_side d) lc /\ go d fuel (ptr t) s = Some b.
Proof.
  revert p t R. induction fuel as [|fuel IH]; intros p t R H Ht Hf; (destruct (nd_cases d t) as [->|(c & a & x & y & ->)]; [done|]).
  { destruct d; simpl in Hf; lia. }
  assert (go d (S fuel) a s = if ptr x =? 0 then Some a else go d fuel (ptr x) s) as Eg.
  { destruct d; simpl in H; cbn [go go_left go_right]; hread; done. }
  rewrite ptr_nd, Eg. destruct x as [|cx lx ax rx].
  - exists [], c, a, y. by split_and!.
  - assert (heap s root (lay a (N cx lx ax rx) ++ (cellof d a ax (ptr y) p c :: lay a y ++ R))) as H'.
    { eapply heap_perm; [exact H|]. destruct d; simpl; solve_Permutation. }
    destruct (IH a (N cx lx ax rx) _ H') as (lc & c' & b & z & E & Hl & Hg); [done | destruct d; simpl in *; lia |].
    assert (ax <> 0) as Hax by (simpl in H'; eapply (heap_nonzero _ _ _ _ []); [exact H' | solve_upd]).
    rewrite (eqb_false _ _ Hax : (ptr (N cx lx ax rx) =? 0) = false).
    exists (lc ++ [Fr d c a y]), c', b, z. rewrite plug_app, <- E. split_and!; [done | | exact Hg].
    apply Forall_app. split; [done|]. by repeat constructor.
Qed.

(** A concrete heap is checked by computation. *)
Ltac concrete_heap :=
  unfold zip, heap; cbn; split_and!;
    [ by apply (bool_decide_unpack _); vm_compute
    | repeat (apply Forall_cons; split); try (split_and!; [done | reflexivity | reflexivity | vm_compute; reflexivity]); apply Forall_nil; done
    | reflexivity ].
