(* ===== verification/RbInsert.v ===== *)
(** * RbInsert: the red-black invariant and insertion (bintree.c)

    [rbt t c n]: a red-black tree with root colour [c] and [n] black nodes on every path.
    [ctx_ok k pc n]: the context [k] takes a tree of black height [n]; [pc] is the colour
    of the node above the hole ([Red] above the root, so that only a black root fits).
    The theorem for [rb_insert_color] follows its loop: two frames of the context per
    round. *)

From S2P Require Import Prelude RbTree RbHeap.

(** ** The invariant *)

Inductive rbt : tree -> color -> nat -> Prop :=
| rbt_L : rbt L Black 0
| rbt_R l a r n : rbt l Black n -> rbt r Black n -> rbt (N Red l a r) Red n
| rbt_B l a r cl cr n : rbt l cl n -> rbt r cr n -> rbt (N Black l a r) Black (S n).

Inductive ctx_ok : list frame -> color -> nat -> Prop :=
| ctx_nil n : ctx_ok [] Red n
| ctx_R d a y k n : rbt y Black n -> ctx_ok k Black n -> ctx_ok (Fr d Red a y :: k) Red n
| ctx_B d a y k cy pc n : rbt y cy n -> ctx_ok k pc (S n) -> ctx_ok (Fr d Black a y :: k) Black n.

(** The tree may stand under a node of colour [pc]. *)
Definition fits (pc c : color) : Prop := pc = Black \/ c = Black.

Create HintDb rb.
#[export] Hint Constructors rbt ctx_ok : rb.
#[export] Hint Unfold fits : rb.

Lemma rbt_nd_R d a x y n : rbt x Black n -> rbt y Black n -> rbt (nd d Red a x y) Red n.
Proof. destruct d; simpl; auto with rb. Qed.
Lemma rbt_nd_B d a x y cx cy n : rbt x cx n -> rbt y cy n -> rbt (nd d Black a x y) Black (S n).
Proof. destruct d; simpl; eauto with rb. Qed.
#[export] Hint Resolve rbt_nd_R rbt_nd_B : rb.

Lemma rbt_col t c n : rbt t c n -> col t = c.
Proof. by destruct 1. Qed.

Lemma rbt_black t c n : rbt t c n -> exists m, rbt (paint Black t) Black m.
Proof. destruct 1; simpl; eauto with rb. Qed.

Lemma rbt_paint_black t n : rbt t Black n -> paint Black t = t.
Proof. by inversion 1. Qed.

Lemma plug_rbt k pc n t c : ctx_ok k pc n -> rbt t c n -> fits pc c -> exists m, rbt (plug k t) Black m.
Proof.
  intros H. revert t c. induction H as [n | d a y k n Hy H IH | d a y k cy pc n Hy H IH]; intros t c Ht Hf; simpl.
  - destruct Hf as [|E]; [done|]. subst. eauto.
  - destruct Hf as [|E]; [done|]. subst. eapply IH; eauto with rb.
  - eapply IH; eauto with rb.
Qed.

Lemma unplug_rbt k t m : rbt (plug k t) Black m -> exists pc c n, ctx_ok k pc n /\ rbt t c n /\ fits pc c.
Proof.
  revert t m. induction k as [|[d c a y] k IH]; intros t m H; simpl in H.
  - exists Red, Black, m. auto with rb.
  - destruct (IH _ _ H) as (pc & c' & n & Hk & Ht & Hf). destruct d; simpl in Ht;
      inversion Ht; subst; (destruct Hf as [E|E]; [subst pc | try discriminate E]);
      do 3 eexists; split_and!; eauto with rb.
Qed.

(** The height is at most twice the black height, and the tree is big enough for it. *)
Lemma rbt_height t c n : rbt t c n -> (height t <= 2 * n + match c with Red => 1 | Black => 0 end)%nat.
Proof. induction 1; simpl; try lia; destruct cl, cr; lia. Qed.

Lemma rbt_size t c n : rbt t c n -> (2 ^ n <= S (length (inorder t)))%nat.
Proof. induction 1; simpl; rewrite ?length_app; simpl; lia. Qed.

Lemma rbt_height_log t n : rbt t Black n -> (height t <= 2 * Nat.log2 (S (length (inorder t))))%nat.
Proof.
  intros H. pose proof (rbt_height _ _ _ H) as Hh. cbv iota in Hh. pose proof (rbt_size _ _ _ H) as Hs.
  apply Nat.log2_le_mono in Hs. rewrite Nat.log2_pow2 in Hs; lia.
Qed.

(** [rbtree s T F]: the heap holds the red-black tree [T], rooted at the root pointer. *)
Definition rbtree (s : rbs) (T : tree) (F : list cell) : Prop := zip s [] T F /\ exists m, rbt T Black m.

(** The heap holds a red-black tree whose nodes are [o], in order. *)
Definition rb_seq (o : list Z) (F : list cell) (s : rbs) : Prop := exists T, rbtree s T F /\ inorder T = o.

(** ** The loop, one side at a time *)

Definition insert_step (d : side) (loop : Z -> rbs -> option rbs) (node parent gparent : Z) (s : rbs) :=
  uncle ← rd (rb_child (flip d)) gparent s;
  uncle_red ← red_node uncle s;
  if (uncle_red : bool) then
    s ← wr rb_set_black uncle s;
    s ← wr rb_set_black parent s;
    s ← wr rb_set_red gparent s;
    loop gparent s
  else
    pinner ← rd (rb_child (flip d)) parent s;
    '(s, parent, node) ←
      (if pinner =? node then s ← rotate d parent s; Some (s, node, parent)
       else Some (s, parent, node));
    s ← wr rb_set_black parent s;
    s ← wr rb_set_red gparent s;
    s ← rotate (flip d) gparent s;
    loop node s.

Lemma rb_insert_color_eq fuel node s :
  rb_insert_color (S fuel) node s =
    (parent ← rd rb_parent node s;
     red ← red_node parent s;
     if negb red then wr rb_set_black (rb_node s) s
     else
       gparent ← rd rb_parent parent s;
       gleft ← rd rb_left gparent s;
       insert_step (if parent =? gleft then Lf else Rt) (rb_insert_color fuel) node parent gparent s).
Proof.
  simpl. destruct (rd rb_parent node s) as [parent|]; [simpl | done].
  destruct (red_node parent s) as [[|]|]; [simpl | done..].
  destruct (rd rb_parent parent s) as [gparent|]; [simpl | done].
  destruct (rd rb_left gparent s) as [gleft|] eqn:E; [simpl | done].
  destruct (parent =? gleft); [reflexivity|]. unfold insert_step, rb_child, flip. rewrite E. reflexivity.
Qed.

(** The last round: the parent is black or absent, and the root is made black. *)
Lemma wp_blacken_root s T F m :
  zip s [] T F -> rbt T Red m \/ T <> L /\ rbt T Black m ->
  wp (wr rb_set_black (rb_node s) s) (fun s' => rbtree s' (paint Black T) F).
Proof.
  intros H HT. rewrite (zip_root _ _ _ H). destruct T as [|c l a r]; [destruct HT as [HT|[HT _]]; [inversion HT | done]|].
  zsimpl H. hwrite. split; [by zfinish Hh|].
  destruct HT as [HT|[_ HT]]; apply rbt_black in HT; done.
Qed.

Lemma rd_red_top s d c a y k t F : zip s (Fr d c a y :: k) t F -> red_node a s = Some (is_red c).
Proof.
  intros H. destruct (zip_top_nonzero _ _ _ _ _ _ _ _ H) as [Ha _].
  unfold red_node. rewrite eqb_false by done. zsimpl H.
  destruct d; (eapply (rd_is_red _ _ _ _ []); [exact H | solve_upd]).
Qed.

Lemma plug_ne k t : t <> L -> plug k t <> L.
Proof. revert t. induction k as [|[[|] c a y] k IH]; intros t Ht; simpl; [done | by apply IH..]. Qed.

Lemma nd_flip d c a x y : nd (flip d) c a x y = nd d c a y x.
Proof. by destruct d. Qed.

Lemma inorder_plug_eq k t t' : inorder t = inorder t' -> inorder (plug k t) = inorder (plug k t').
Proof. intros E. by rewrite !inorder_plug, E. Qed.
Lemma inorder_rotate d c a x c' b y z :
  inorder (nd d c a x (nd d c' b y z)) = inorder (nd d c' b (nd d c a x y) z).
Proof. destruct d; simpl; by repeat (rewrite <- app_assoc; simpl). Qed.
(** In-order equality of trees that differ by colours and rotations. *)
Ltac ino := simpl; repeat (rewrite <- app_assoc; simpl); reflexivity.

(** The loop ends under a black node, whatever the subtree. *)
Lemma insert_done fuel s d b y k c l a r F n :
  (0 < fuel)%nat -> zip s (Fr d Black b y :: k) (N c l a r) F ->
  ctx_ok (Fr d Black b y :: k) Black n -> rbt (N c l a r) c n ->
  wp (rb_insert_color fuel a s) (fun s' => rbtree s' (plug (Fr d Black b y :: k) (N c l a r)) F).
Proof.
  intros Hf H Hk Ht. destruct fuel as [|fuel]; [lia|]. rewrite rb_insert_color_eq.
  destruct (plug_rbt _ _ _ _ _ Hk Ht) as [m HT]; [auto with rb|].
  pose proof (rd_red_top _ _ _ _ _ _ _ _ H) as Hred.
  zread. rewrite Hred. cbn [is_red negb mbind option_bind].
  apply zip_plug in H. rewrite <- (rbt_paint_black _ _ HT). eapply wp_blacken_root; [exact H|].
  right. split; [by apply plug_ne | exact HT].
Qed.

(** The last two steps of a round with a black uncle: the tree is now right. *)
Lemma insert_turn fuel s d g u k p xl node xr z F pc cu n :
  (0 < fuel)%nat -> zip s (Fr d Black g u :: k) (nd d Red p (N Red xl node xr) z) F ->
  ctx_ok k pc (S n) -> rbt (N Red xl node xr) Red n -> rbt z Black n -> rbt u cu n -> cu = Black ->
  wp (s ← wr rb_set_black p s; s ← wr rb_set_red g s; s ← rotate (flip d) g s; rb_insert_color fuel node s)
     (fun s' => rbtree s' (plug k (nd d Black p (N Red xl node xr) (nd d Red g z u))) F).
Proof.
  intros Hf H Hk Hx Hz Hu ->.
  assert (wp (s ← wr rb_set_black p s; wr rb_set_red g s)
    (fun s' => zip s' k (nd (flip d) Red g u (nd (flip d) Black p z (N Red xl node xr))) F)) as W.
  { rewrite !nd_flip. destruct d; zsimpl H; hwrite; hwrite; by zfinish Hh. }
  destruct W as (s2 & E & H2). destruct (wr rb_set_black p s) as [s1|]; [simpl in E |- * | done].
  rewrite E. cbn [mbind option_bind].
  eapply wp_bind; [apply (wp_rotate _ _ _ _ _ _ _ _ _ _ _ H2)|].
  intros s3 H3. cbv beta in H3. rewrite !nd_flip in H3. apply zip_up in H3.
  apply (insert_done _ _ _ _ _ _ _ _ _ _ _ n Hf H3); eauto with rb.
Qed.

(** The first rotation of such a round, when the node is an inner grandchild. *)
Lemma insert_inner s d d2 b y g u k l a r F n :
  zip s (Fr d Red b y :: Fr d2 Black g u :: k) (N Red l a r) F ->
  rbt (N Red l a r) Red n -> rbt y Black n ->
  wp (pinner ← rd (rb_child (flip d2)) b s;
      if pinner =? a then s ← rotate d2 b s; Some (s, a, b) else Some (s, b, a))
     (fun '(s', p, node) => exists xl xr z,
        zip s' (Fr d2 Black g u :: k) (nd d2 Red p (N Red xl node xr) z) F /\
        rbt (N Red xl node xr) Red n /\ rbt z Black n /\
        inorder (nd d Red b (N Red l a r) y) = inorder (nd d2 Red p (N Red xl node xr) z)).
Proof.
  intros H Ha Hy. destruct (zip_ptr _ _ _ _ H) as (_ & _ & Hne); [done|]. simpl in Hne.
  inversion Ha; subst. pose proof (proj1 (zip_up _ _ _ _ _ _ _ _) H) as H'.
  destruct d, d2; cbn [flip rb_child rotate]; zread; rewrite ?Z.eqb_refl, ?(eqb_false _ _ Hne).
  1, 4: apply wp_ret; do 3 eexists; split_and!; eauto.
  - eapply wp_bind; [exact (wp_rotate Rt _ _ Red b y Red a r l _ H')|].
    intros s' Hs'. apply wp_ret. exists r, y, l. split_and!; [exact Hs' | auto with rb | done | ino].
  - eapply wp_bind; [exact (wp_rotate Lf _ _ Red b y Red a l r _ H')|].
    intros s' Hs'. apply wp_ret. exists y, l, r. split_and!; [exact Hs' | auto with rb | done | ino].
Qed.

(** What the head of a round reads under a red parent. *)
Lemma insert_reads s d c b y d2 c2 g u k l a r cu n F :
  zip s (Fr d c b y :: Fr d2 c2 g u :: k) (N Red l a r) F -> rbt u cu n ->
  exists gl, rd rb_parent a s = Some b /\ red_node b s = Some (is_red c) /\ rd rb_parent b s = Some g /\
    rd rb_left g s = Some gl /\ (if b =? gl then Lf else Rt) = d2 /\
    rd (rb_child (flip d2)) g s = Some (ptr u) /\ red_node (ptr u) s = Some (is_red cu).
Proof.
  intros H Hu. pose proof (rd_red_top _ _ _ _ _ _ _ _ H) as Hred.
  destruct (zip_ptr _ _ _ _ (proj1 (zip_up _ _ _ _ _ _ _ _) H)) as (_ & _ & Hne); [by destruct d|].
  zsimpl H. rewrite <- (rbt_col _ _ _ Hu).
  exists (match d2 with Lf => b | Rt => ptr u end).
  destruct d, d2; cbn [nd ptr sib_ne cellof flip rb_child] in *;
    rewrite ?Z.eqb_refl, ?(eqb_false _ _ (not_eq_sym Hne)); split_and!; try done;
    first [ eapply (rd_parent _ _ _ _ []); [exact H | solve_upd]
          | eapply (rd_left _ _ _ _ []); [exact H | solve_upd]
          | eapply (rd_right _ _ _ _ []); [exact H | solve_upd]
          | eapply rd_red_node; [exact H | solve_upd] ].
Qed.

(** ** [rb_insert_color] works a red node into the tree it was linked to. *)
Lemma insert_color_ok fuel s k l a r F pc n :
  (length k < fuel)%nat -> zip s k (N Red l a r) F -> rbt (N Red l a r) Red n -> ctx_ok k pc n ->
  wp (rb_insert_color fuel a s)
     (rb_seq (inorder (plug k (N Red l a r))) F).
Proof.
  revert s k l a r pc n. induction fuel as [|fuel IH]; intros s k l a r pc n Hf H Ha Hk; [lia|].
  destruct Hk as [n | d b y k n Hy Hk | d b y k cy pc n Hy Hk].
  - rewrite rb_insert_color_eq. zread. cbn [red_node Z.eqb mbind option_bind negb].
    eapply wp_mono; [eapply wp_blacken_root; [exact H | eauto]|]. intros s' Hs'. eexists. split; [exact Hs' | done].
  - inversion Hk as [| | d2 g u k2 cu pc n' Hu Hk2]; subst. simpl in Hf. rewrite rb_insert_color_eq.
    destruct (insert_reads _ _ _ _ _ _ _ _ _ _ _ _ _ _ _ _ H Hu) as (gl & -> & E1 & E2 & E3 & E4 & E5 & E6).
    cbn [mbind option_bind]. rewrite E1. cbn [is_red negb mbind option_bind]. rewrite E2. cbn [mbind option_bind].
    rewrite E3. cbn [mbind option_bind]. rewrite E4. unfold insert_step. rewrite E5. cbn [mbind option_bind].
    rewrite E6. cbn [mbind option_bind]. destruct cu; cbn [is_red].
    + clear - IH Hf H Ha Hy Hu Hk2. inversion Hu as [| ul ub ur ? Hul Hur |]; subst.
      assert (wp (s ← wr rb_set_black ub s; s ← wr rb_set_black b s; wr rb_set_red g s)
        (fun s' => zip s' k2 (nd d2 Red g (nd d Black b (N Red l a r) y) (N Black ul ub ur)) F)) as W.
      { destruct d, d2; zsimpl H; hwrite; hwrite; hwrite; by zfinish Hh. }
      cbn [ptr]. eapply wp_bind3; [exact W|]. intros s2 H2. cbv beta in H2.
      destruct d2; simpl in H2; (eapply wp_mono;
        [ eapply (IH _ k2); [lia | exact H2 | eauto with rb..]
        | intros s' (T & HT & Ei); exists T; split; [exact HT|]; rewrite Ei;
          cbn [plug]; apply inorder_plug_eq; destruct d; ino ]).
    + apply wp_assoc. eapply wp_bind; [exact (insert_inner _ _ _ _ _ _ _ _ _ _ _ _ _ H Ha Hy)|].
      intros [[s1 p] node] (xl & xr & z & H1 & Hx & Hz & Ei).
      eapply wp_mono; [eapply insert_turn; eauto; lia|].
      intros s' Hs'. eexists. split; [exact Hs'|]. simpl. apply inorder_plug_eq.
      destruct d2; simpl in *; by rewrite Ei, <- ?app_assoc.
  - eapply wp_mono; [exact (insert_done (S fuel) _ _ _ _ _ _ _ _ _ _ n ltac:(lia) H ltac:(eauto with rb) Ha)|].
    intros s' Hs'. eexists. split; [exact Hs' | done].
Qed.

(** ** Insertion: [rb_link_node] where the caller's search ended, then [rb_insert_color] *)

Definition link_of (k : list frame) : rb_link :=
  match k with [] => AtRoot | Fr Lf _ a _ :: _ => AtLeft a | Fr Rt _ a _ :: _ => AtRight a end.

Definition rb_insert (fuel : nat) (node parent : Z) (link : rb_link) (s : rbs) : option rbs :=
  s ← rb_link_node node parent link s;
  rb_insert_color fuel node s.

Lemma link_ok s k F a r l p c :
  zip s k L (Cell a r l p c :: F) ->
  wp (rb_link_node a (top k) (link_of k) s) (fun s' => zip s' k (N Red L a L) F).
Proof.
  intros H. pose proof (zip_top_aligned _ _ _ _ H) as Hal.
  unfold rb_link_node. replace (top k) with (top k + bit Red) at 1 by (simpl; lia).
  destruct k as [|[[|] c' b y] k]; cbn [link_of put_link]; zsimpl H; hwrite; hwrite; hwrite.
  - apply wp_ret. destruct Hh as (? & ? & ?). unfold zip. simpl. by split_and!.
  - hwrite. by zfinish Hh.
  - hwrite. by zfinish Hh.
Qed.

Lemma rb_insert_ok fuel s k a r l p c F :
  rbtree s (plug k L) (Cell a r l p c :: F) -> (length k < fuel)%nat ->
  wp (rb_insert fuel a (top k) (link_of k) s) (rb_seq (before k ++ a :: after k) F).
Proof.
  intros [H [m Hm]] Hf. apply zip_plug in H.
  destruct (unplug_rbt _ _ _ Hm) as (pc & c' & n & Hk & Ht & _). inversion Ht; subst.
  eapply wp_bind; [by eapply link_ok|]. intros s1 Hs1.
  eapply wp_mono; [eapply (insert_color_ok fuel s1 k); [lia | exact Hs1 | auto with rb | exact Hk]|].
  intros s' Hs'. by rewrite inorder_plug in Hs'.
Qed.

(** C16: inserting a node at any leaf position of a red-black tree - linking it there and
    rebalancing - succeeds and leaves a red-black tree whose in-order sequence is the old
    one with the node at that position; no other node is touched, and the loop makes at most
    one round for each level of the tree, so 2 log2 (n+1) + 1 rounds suffice for n nodes. *)
Theorem rb_insert_correct fuel s k a r l p c F :
  rbtree s (plug k L) (Cell a r l p c :: F) ->
  (2 * Nat.log2 (S (length (inorder (plug k L)))) < fuel)%nat ->
  wp (rb_insert fuel a (top k) (link_of k) s)
     (rb_seq (before k ++ a :: after k) F).
Proof.
  intros H Hf. destruct (H) as [_ [m Hm]]. pose proof (rbt_height_log _ _ Hm). pose proof (length_plug k L).
  eapply rb_insert_ok; [done | lia].
Qed.

(** ** Witness: a right chain is rotated *)

Definition wit_rb : rbs :=
  mk_rbs (list_to_map [(8, mk_rb 16 0 1); (16, mk_rb 0 0 8); (24, mk_rb 0 0 24)]) 8.
Definition wit_ctx : list frame := [Fr Rt Red 16 L; Fr Rt Black 8 L].

Lemma wit_rb_ok : rbtree wit_rb (plug wit_ctx L) [Cell 24 0 0 24 Red].
Proof. split; [concrete_heap | exists 1%nat]. simpl. eauto 10 with rb. Qed.

Lemma rb_insert_correct_witness : wp (rb_insert 5 24 16 (AtRight 16) wit_rb) (rb_seq [8; 16; 24] []).
Proof.
  apply (rb_insert_correct 5 wit_rb wit_ctx 24 0 0 24 Red []); [exact wit_rb_ok|]. apply Nat.ltb_lt. vm_compute. reflexivity.
Defined.
