(* ===== verification/RbErase.v ===== *)
(** * RbErase: deletion from the red-black tree (bintree.c)

    [__rb_erase_color] starts at a subtree one black node short: [rbt t c n] in a context
    for [S n].  A round is four steps - turn a red sibling away, recolour and go up, turn a
    near red nephew, turn a far red nephew - each with its lemma, for both sides at once. *)

From S2P Require Import Prelude RbTree RbHeap RbInsert.

Definition sel {A} (d : side) (x y : A) : A := match d with Lf => x | Rt => y end.

(** The code of one side of the loop. *)
Definition erase_red (d : side) (other parent : Z) (ored : bool) (s : rbs) : option (rbs * Z) :=
  if ored then
    s ← wr rb_set_black other s;
    s ← wr rb_set_red parent s;
    s ← rotate d parent s;
    other ← rd (rb_child (flip d)) parent s; Some (s, other)
  else Some (s, other).
Definition erase_near (d : side) (other near parent : Z) (far_black : bool) (s : rbs) : option (rbs * Z) :=
  if far_black then
    s ← wr rb_set_black near s;
    s ← wr rb_set_red other s;
    s ← rotate (flip d) other s;
    other ← rd (rb_child (flip d)) parent s; Some (s, other)
  else Some (s, other).
Definition erase_far (d : side) (other parent : Z) (s : rbs) : option rbs :=
  color ← rd rb_color parent s;
  s ← wr (rb_set_color color) other s;
  s ← wr rb_set_black parent s;
  far ← rd (rb_child (flip d)) other s;
  s ← wr rb_set_black far s;
  s ← rotate d parent s;
  blacken (rb_node s) s.
Definition erase_step (d : side) (loop : Z -> Z -> rbs -> option rbs) (parent : Z) (s : rbs) : option rbs :=
  other ← rd (rb_child (flip d)) parent s;
  ored ← rd rb_is_red other s;
  '(s, other) ← erase_red d other parent ored s;
  oleft ← rd rb_left other s;
  oright ← rd rb_right other s;
  lb ← black_node oleft s;
  both ← (if (lb : bool) then black_node oright s else Some false);
  if (both : bool) then
    s ← wr rb_set_red other s;
    up ← rd rb_parent parent s;
    loop parent up s
  else
    far_black ← black_node (sel d oright oleft) s;
    '(s, other) ← erase_near d other (sel d oleft oright) parent far_black s;
    erase_far d other parent s.

Lemma erase_color_eq fuel node parent s :
  __rb_erase_color (S fuel) node parent s =
    (nb ← black_node node s;
     if nb && negb (node =? rb_node s) then
       pleft ← rd rb_left parent s;
       erase_step (if pleft =? node then Lf else Rt) (__rb_erase_color fuel) parent s
     else blacken node s).
Proof.
  simpl. destruct (black_node node s) as [nb|]; [simpl | done].
  destruct (nb && negb (node =? rb_node s)); [|done].
  destruct (rd rb_left parent s) as [pleft|] eqn:E; [simpl | done].
  destruct (pleft =? node); [reflexivity|]. unfold erase_step, rb_child, flip. rewrite E. reflexivity.
Qed.

(** ** The steps *)

Lemma rootp_in k x : k <> [] -> rootp k x ∈ caddr <$> layc k x.
Proof.
  revert x. induction k as [|[d c a y] k IH]; intros x Hk; [done|]. cbn [rootp layc].
  rewrite fmap_cons, fmap_app, caddr_cellof. destruct k; [cbn; set_solver|].
  specialize (IH a). set_solver.
Qed.

Lemma zip_root_ne s f k t F : zip s (f :: k) t F -> ptr t <> rb_node s.
Proof.
  intros (Hn & Hc & ->) E. pose proof (rootp_in (f :: k) (ptr t)) as Hin. rewrite <- E in Hin.
  specialize (Hin ltac:(done)). destruct t as [|c l a r].
  - apply list_elem_of_fmap in Hin as ([b r l p c] & E' & Hin). simpl in E'. subst.
    rewrite Forall_forall in Hc. specialize (Hc (Cell 0 r l p c)). simpl in Hc. destruct Hc; [set_solver | done].
  - rewrite !fmap_app, !NoDup_app in Hn. destruct Hn as (_ & Hn & _). apply (Hn a); simpl in *; set_solver.
Qed.

(** Two nodes of one colour each side: what [rbt] of a node gives about its children. *)
Lemma rbt_nd_inv d c a x y c' n : rbt (nd d c a x y) c' n ->
  c' = c /\ match c with
            | Red => rbt x Black n /\ rbt y Black n
            | Black => exists m cx cy, n = S m /\ rbt x cx m /\ rbt y cy m
            end.
Proof. destruct d; inversion 1; subst; eauto 10. Qed.

Lemma nd_ex d t c n : rbt t c (S n) -> exists a x y, t = nd d c a x y.
Proof. inversion 1; destruct d; subst; eauto. Qed.
Lemma nd_ex_red d t n : rbt t Red n -> exists a x y, t = nd d Red a x y.
Proof. inversion 1; destruct d; subst; eauto. Qed.

(** The sibling is made black. *)
Lemma erase_red_ok s d c p w k t F cw n :
  zip s (Fr d c p w :: k) t F -> ctx_ok (Fr d c p w :: k) c (S n) -> rbt w cw (S n) ->
  wp (erase_red d (ptr w) p (is_red cw) s)
     (fun '(s', other) => exists c' w' k', other = ptr w' /\
        zip s' (Fr d c' p w' :: k') t F /\ ctx_ok (Fr d c' p w' :: k') c' (S n) /\ rbt w' Black (S n) /\
        (forall t, inorder (plug (Fr d c' p w' :: k') t) = inorder (plug (Fr d c p w :: k) t)) /\
        (c' = Red \/ k' = k)).
Proof.
  intros H Hk Hw. destruct cw; cbn [is_red erase_red].
  - destruct (nd_ex d _ _ _ Hw) as (b & x & z & ->). apply rbt_nd_inv in Hw as (_ & Hx & Hz).
    rewrite ptr_nd. inversion Hk as [| d' a' y' k0 n' Hy | d' a' y' k0 cy pc n' Hy Hk']; subst.
    { apply rbt_col in Hy. by destruct d. }
    assert (wp (s ← wr rb_set_black b s; wr rb_set_red p s)
      (fun s' => zip s' k (nd d Red p t (nd d Black b x z)) F)) as W.
    { destruct d; zsimpl H; hwrite; hwrite; by zfinish Hh. }
    apply wp_assoc. eapply wp_bind; [exact W|]. intros s2 H2. cbv beta in H2.
    eapply wp_bind; [exact (wp_rotate _ _ _ _ _ _ _ _ _ _ _ H2)|]. clear s2 H2. intros s2 H2. cbv beta in H2.
    apply zip_up, zip_up in H2.
    destruct d; cbn [rb_child flip]; zread; apply wp_ret; exists Red, x; eexists (Fr _ Black b z :: k); split_and!;
      try done; try exact H2; eauto with rb; intros t'; cbn [plug]; apply inorder_plug_eq; ino.
  - apply wp_ret. exists c, w, k. split_and!; auto.
Qed.

(** The near nephew is turned over its black parent when the far one is black. *)
Lemma erase_near_ok s d c p b x z cx cz k t F n :
  zip s (Fr d c p (nd d Black b x z) :: k) t F -> rbt x cx n -> rbt z cz n ->
  cx = Red \/ cz = Red ->
  wp (erase_near d b (ptr x) p (negb (is_red cz)) s)
     (fun '(s', other) => exists x' z' cx', other <> 0 /\
        zip s' (Fr d c p (nd d Black other x' z') :: k) t F /\ rbt x' cx' n /\ rbt z' Red n /\
        inorder (nd d Black other x' z') = inorder (nd d Black b x z)).
Proof.
  intros H Hx Hz Hr. destruct cz; cbn [is_red negb erase_near].
  - apply wp_ret. exists x, z, cx. split_and!; try done.
    assert (zip s k (nd (flip d) c p (nd d Black b x z) t) F) as H' by (rewrite nd_flip; by apply zip_up).
    apply zip_up in H'. destruct (zip_ptr _ _ _ _ H') as (Hb & _); [by destruct d | by rewrite ptr_nd in Hb].
  - destruct Hr as [->|]; [|done]. destruct (nd_ex_red d _ _ Hx) as (e & u & v & ->).
    apply rbt_nd_inv in Hx as (_ & Hu & Hv). rewrite ptr_nd.
    assert (wp (s ← wr rb_set_black e s; wr rb_set_red b s)
      (fun s' => zip s' (Fr (flip d) c p t :: k) (nd (flip d) Red b z (nd (flip d) Black e v u)) F)) as W.
    { rewrite !nd_flip. apply zip_close in H. destruct d; zsimpl H; hwrite; hwrite; by zfinish Hh. }
    apply wp_assoc. eapply wp_bind; [exact W|]. intros s2 H2. cbv beta in H2.
    eapply wp_bind; [exact (wp_rotate _ _ _ _ _ _ _ _ _ _ _ H2)|]. clear s2 H2. intros s2 H2. cbv beta in H2.
    assert (e <> 0) as He by (destruct (zip_ptr _ _ _ _ H2) as (He & _); [by destruct d | by rewrite ptr_nd in He]).
    rewrite !nd_flip in H2. apply zip_close in H2. rewrite nd_flip in H2. apply zip_open in H2.
    destruct d; cbn [rb_child flip]; zread; apply wp_ret; exists u; eexists (nd _ Red b v z), _; split_and!;
      try done; try exact H2; eauto with rb; ino.
Qed.

(** The far nephew is red: one rotation ends the work. *)
Lemma erase_far_ok s d c p b x z cx k t F n :
  zip s (Fr d c p (nd d Black b x z) :: k) t F -> ctx_ok (Fr d c p (nd d Black b x z) :: k) c (S n) ->
  rbt t Black n -> rbt x cx n -> rbt z Red n ->
  wp (erase_far d b p s)
     (rb_seq (inorder (plug (Fr d c p (nd d Black b x z) :: k) t)) F).
Proof.
  intros H Hk Ht Hx Hz. destruct (nd_ex_red d _ _ Hz) as (e & u & v & ->).
  apply rbt_nd_inv in Hz as (_ & Hu & Hv).
  assert (forall s', zip s' k (nd d Black p t (nd d c b x (nd d Black e u v))) F ->
    wp (s' ← rotate d p s'; blacken (rb_node s') s')
     (rb_seq (inorder (plug (Fr d c p (nd d Black b x (nd d Red e u v)) :: k) t)) F)) as Hend.
  { clear s H. intros s H. eapply wp_bind; [exact (wp_rotate _ _ _ _ _ _ _ _ _ _ _ H)|].
    clear s H. intros s H. cbv beta in H. apply zip_plug in H.
    set (T := plug k (nd d c b (nd d Black p t x) (nd d Black e u v))) in *.
    assert (exists m, rbt T Black m) as [m HT].
    { inversion Hk as [| d' a' y' k0 n' Hy | d' a' y' k0 cy pc n' Hy Hk']; subst; eapply plug_rbt; eauto with rb. }
    rewrite (zip_root _ _ _ H). eapply wp_mono; [exact (wp_blacken _ _ _ _ H)|]. intros s' Hs'. cbv beta in Hs'.
    rewrite (rbt_paint_black _ _ HT) in Hs'. exists T. split; [by split; eauto|].
    unfold T. cbn [plug]. apply inorder_plug_eq. destruct d; ino. }
  unfold erase_far. destruct d; cbn [rb_child flip]; zread; zsimpl H;
    hwrite; hwrite; hread; hwrite; apply Hend; by zfinish Hh.
Qed.

(** A red subtree, or the root, takes the missing black node itself. *)
Lemma erase_done fuel s k t F pc n :
  (0 < fuel)%nat -> zip s k t F -> col t = Red -> rbt (paint Black t) Black (S n) -> ctx_ok k pc (S n) ->
  wp (__rb_erase_color fuel (ptr t) (top k) s)
     (rb_seq (inorder (plug k t)) F).
Proof.
  intros Hf H Hc Ht Hk. destruct fuel as [|fuel]; [lia|]. rewrite erase_color_eq.
  rewrite (rd_black_node _ _ _ _ (top k) t H (upd_front _ _ _)), Hc.
  cbn [is_red negb andb mbind option_bind].
  eapply wp_mono; [exact (wp_blacken _ _ _ _ H)|]. intros s' Hs'. exists (plug k (paint Black t)). split.
  - split; [exact (proj1 (zip_plug _ _ _ _) Hs')|]. eapply plug_rbt; eauto with rb.
  - apply inorder_plug_eq. by destruct t.
Qed.

(** What the head of a round reads. *)
Lemma erase_reads s d c p w k t F cw n cn :
  zip s (Fr d c p w :: k) t F -> rbt t cn n -> rbt w cw (S n) ->
  exists pl, black_node (ptr t) s = Some (negb (is_red cn)) /\ (ptr t =? rb_node s) = false /\
    rd rb_left p s = Some pl /\ (if pl =? ptr t then Lf else Rt) = d /\
    rd (rb_child (flip d)) p s = Some (ptr w) /\ rd rb_is_red (ptr w) s = Some (is_red cw).
Proof.
  intros H Ht Hw. pose proof (zip_root_ne _ _ _ _ _ H) as Hr.
  rewrite <- (rbt_col _ _ _ Ht), <- (rbt_col _ _ _ Hw).
  assert (zip s (Fr (flip d) c p t :: k) w F) as H'.
  { apply zip_open. rewrite nd_flip. by apply zip_close. }
  destruct (zip_ptr _ _ _ _ H') as (_ & _ & Hne); [by intros ->; inversion Hw|]. simpl in Hne.
  destruct w as [|c2 l2 a2 r2]; [inversion Hw|]. zsimpl H. 
  exists (match d with Lf => ptr t | Rt => a2 end). cbn [ptr col] in *.
  destruct d; rewrite ?Z.eqb_refl, ?(eqb_false _ _ (not_eq_sym Hne)), (eqb_false _ _ Hr);
    cbn [cellof flip rb_child] in *; split_and!; try done;
    first [ eapply (rd_is_red _ _ _ _ []); [exact H | solve_upd]
          | eapply (rd_left _ _ _ _ []); [exact H | solve_upd]
          | eapply (rd_right _ _ _ _ []); [exact H | solve_upd]
          | eapply rd_black_node; [exact H | solve_upd] ].
Qed.

(** The nephews of a black sibling. *)
Lemma erase_nephews s d c p b x z cx cz k t F n :
  zip s (Fr d c p (nd d Black b x z) :: k) t F -> rbt x cx n -> rbt z cz n ->
  rd (rb_child d) b s = Some (ptr x) /\ rd (rb_child (flip d)) b s = Some (ptr z) /\
  black_node (ptr x) s = Some (negb (is_red cx)) /\ black_node (ptr z) s = Some (negb (is_red cz)) /\
  rd rb_parent p s = Some (top k).
Proof.
  intros H Hx Hz. rewrite <- (rbt_col _ _ _ Hx), <- (rbt_col _ _ _ Hz). zsimpl H.
  destruct d; cbn [nd lay ptr app cellof flip rb_child] in *; split_and!;
    first [ eapply (rd_left _ _ _ _ []); [exact H | solve_upd]
          | eapply (rd_right _ _ _ _ []); [exact H | solve_upd]
          | eapply (rd_parent _ _ _ _ []); [exact H | solve_upd]
          | eapply rd_black_node; [exact H | solve_upd] ].
Qed.

(** One round below a frame of the context, given that the loop does the levels above. *)
Lemma erase_step_ok loop s d c p w k t F cw n :
  zip s (Fr d c p w :: k) t F -> rbt t Black n -> rbt w cw (S n) -> ctx_ok (Fr d c p w :: k) c (S n) ->
  rd (rb_child (flip d)) p s = Some (ptr w) -> rd rb_is_red (ptr w) s = Some (is_red cw) ->
  (forall s' k' t' pc m, (col t' = Red /\ rbt (paint Black t') Black (S m) \/ k' = k /\ rbt t' Black m) -> zip s' k' t' F ->
     ctx_ok k' pc (S m) -> ptr t' = p ->
     wp (loop p (top k') s') (rb_seq (inorder (plug k' t')) F)) ->
  wp (erase_step d loop p s)
     (rb_seq (inorder (plug (Fr d c p w :: k) t)) F).
Proof.
  intros H Ht Hw Hk E1 E2 Hloop. unfold erase_step. rewrite E1. cbn [mbind option_bind].
  rewrite E2. cbn [mbind option_bind].
  eapply wp_bind; [exact (erase_red_ok _ _ _ _ _ _ _ _ _ _ H Hk Hw)|].
  clear s H E1 E2. intros [s other] (c' & w' & k' & -> & H & Hk' & Hw' & Ei & Hc).
  rewrite <- Ei. clear Ei w cw Hw Hk.
  destruct (nd_ex d _ _ _ Hw') as (b & x & z & ->).
  apply rbt_nd_inv in Hw' as (_ & m & cx & cz & Em & Hx & Hz). injection Em as <-. rewrite ptr_nd.
  destruct (erase_nephews _ _ _ _ _ _ _ _ _ _ _ _ _ H Hx Hz) as (E1 & E2 & E3 & E4 & E5).
  assert (rd rb_left b s = Some (sel d (ptr x) (ptr z)) /\ rd rb_right b s = Some (sel d (ptr z) (ptr x))) as [E6 E7]
    by (by destruct d).
  rewrite E6, E7. cbn [mbind option_bind].
  assert (black_node (sel d (ptr x) (ptr z)) s = Some (negb (is_red (sel d cx cz))) /\
          black_node (sel d (ptr z) (ptr x)) s = Some (negb (is_red (sel d cz cx)))) as [E8 E9] by (by destruct d).
  rewrite E8. cbn [mbind option_bind].
  assert (forall A (P Q : A), sel d (sel d P Q) (sel d Q P) = P) as Esel by (by destruct d).
  rewrite !Esel, E4.
  replace (if negb (is_red (sel d cx cz)) then black_node (sel d (ptr z) (ptr x)) s else Some false)
    with (Some (negb (is_red cx) && negb (is_red cz))) by (rewrite E9; by destruct d, cx, cz).
  cbn [mbind option_bind]. destruct (negb (is_red cx) && negb (is_red cz)) eqn:Eb.
  - destruct cx, cz; try discriminate Eb. clear E1 E2 E3 E4 E6 E7 E8 E9.
    assert (wp (s' ← wr rb_set_red b s; up ← rd rb_parent p s'; Some (s', up))
      (fun '(s', up) => zip s' k' (nd d c' p t (nd d Red b x z)) F /\ up = top k')) as (x' & W & W').
    { destruct d; zsimpl H; hwrite; hread; apply wp_ret; (split; [by zfinish Hh | done]). }
    destruct (wr rb_set_red b s) as [s1|]; [cbn [mbind option_bind] in W |- * | done].
    destruct (rd rb_parent p s1) as [up|]; [cbn [mbind option_bind] in W |- * | done].
    injection W as <-. destruct W' as [H1 ->].
    assert (inorder (plug (Fr d c' p (nd d Black b x z) :: k') t) = inorder (plug k' (nd d c' p t (nd d Red b x z)))) as ->
      by (cbn [plug]; apply inorder_plug_eq; destruct d; ino).
    inversion Hk' as [| d' a' y' k0 n' Hy Hk0 | d' a' y' k0 cy pc n' Hy Hk0]; subst;
      (eapply Hloop; [| exact H1 | exact Hk0 | by rewrite ptr_nd]).
    + left. split; [by destruct d | destruct d; simpl; eauto with rb].
    + right. destruct Hc as [|Hc]; [done|]. eauto with rb.
  - assert (cx = Red \/ cz = Red) as Hr by (destruct cx, cz; first [by auto | discriminate]).
    eapply wp_bind; [exact (erase_near_ok _ _ _ _ _ _ _ _ _ _ _ _ _ H Hx Hz Hr)|].
    intros [s1 other] (x' & z' & cx' & _ & H1 & Hx' & Hz' & Ei).
    assert (inorder (plug (Fr d c' p (nd d Black b x z) :: k') t) =
            inorder (plug (Fr d c' p (nd d Black other x' z') :: k') t)) as ->.
    { cbn [plug]. apply inorder_plug_eq. destruct d; simpl in *; by rewrite Ei. }
    eapply erase_far_ok; [exact H1 | | eassumption..].
    inversion Hk'; subst; eauto with rb.
Qed.

(** ** [__rb_erase_color] *)
Lemma erase_color_ok fuel s k t F pc n :
  (length k < fuel)%nat -> zip s k t F -> ctx_ok k pc (S n) ->
  col t = Red /\ rbt (paint Black t) Black (S n) \/ rbt t Black n ->
  wp (__rb_erase_color fuel (ptr t) (top k) s) (rb_seq (inorder (plug k t)) F).
Proof.
  revert s k t pc n. induction fuel as [|fuel IH]; intros s k t pc n Hf H Hk [[Hc Ht]|Ht]; [lia | lia | ..].
  - eapply erase_done; eauto; lia.
  - rewrite erase_color_eq. destruct k as [|[d c p w] k].
    + rewrite (rd_black_node _ _ _ _ 0 t H (upd_front _ _ _)), (zip_root _ _ _ H), Z.eqb_refl. cbn [negb mbind option_bind]. rewrite andb_false_r.
      cbn [mbind option_bind].
      eapply wp_mono; [exact (wp_blacken _ _ _ _ H)|]. intros s' Hs'. cbv beta in Hs'.
      rewrite (rbt_paint_black _ _ Ht) in Hs'. exists t. split; [by split; eauto | done].
    + assert (exists cw, rbt w cw (S n) /\ pc = c) as (cw & Hw & ->) by (inversion Hk; eauto).
      destruct (erase_reads _ _ _ _ _ _ _ _ _ _ _ H Ht Hw) as (pl & E1 & E2 & E3 & E4 & E5 & E6).
      rewrite E1, E2. cbn [top negb is_red andb mbind option_bind]. rewrite E3. cbn [mbind option_bind].
      rewrite E4. simpl in Hf. eapply erase_step_ok; eauto.
      intros s' k' t' pc m [[Hc Ht']|[-> Ht']] H' Hk' <-; [eapply erase_done; eauto; lia | eapply IH; eauto; lia].
Qed.

(** ** [rb_erase] *)

(** After the node of colour [c] has been taken out from above [t]. *)
Lemma erase_finish fuel s k t F pc c n ct :
  (length k < fuel)%nat -> zip s k t F -> rbt t ct n -> fits c ct ->
  ctx_ok k pc (match c with Red => n | Black => S n end) -> fits pc c ->
  wp (if bit c =? RB_BLACK then __rb_erase_color fuel (ptr t) (top k) s else Some s)
     (rb_seq (inorder (plug k t)) F).
Proof.
  intros Hf H Ht Hc Hk Hpc. destruct c; cbn [bit Z.eqb RB_BLACK Pos.eqb].
  - destruct Hc as [| ->]; [done|]. apply wp_ret. exists (plug k t). split; [|done].
    split; [exact (proj1 (zip_plug _ _ _ _) H) | eapply plug_rbt; eauto with rb].
  - eapply erase_color_ok; [exact Hf | exact H | exact Hk |].
    destruct Ht; [right; auto with rb | left; simpl; eauto with rb | right; eauto with rb].
Qed.

(** A context with its own bottom parent [q]. *)
Definition topq (k : list frame) (q : Z) : Z := match k with [] => q | Fr _ _ a _ :: _ => a end.
Fixpoint layp (k : list frame) (x q : Z) : list cell :=
  match k with
  | [] => []
  | Fr d c a y :: k => cellof d a x (ptr y) (topq k q) c :: lay a y ++ layp k a q
  end.

Lemma lay_nd p d c a x y : lay p (nd d c a x y) ≡ₚ cellof d a (ptr x) (ptr y) p c :: lay a x ++ lay a y.
Proof. destruct d; simpl; [done | solve_Permutation]. Qed.

Lemma lay_plug q k t : lay q (plug k t) ≡ₚ lay (topq k q) t ++ layp k (ptr t) q.
Proof.
  revert t. induction k as [|[d c a y] k IH]; intros t; cbn [plug topq layp]; [by rewrite app_nil_r|].
  rewrite IH, lay_nd, ptr_nd. solve_Permutation.
Qed.

Lemma ptr_plug f k t t' : ptr (plug (f :: k) t) = ptr (plug (f :: k) t').
Proof.
  revert f t t'. induction k as [|f' k IH]; intros [d c a y] t t'; [by destruct d|].
  cbn [plug]. apply (IH f').
Qed.

Lemma ctx_ok_rename k d c a b y k' pc n :
  ctx_ok (k ++ Fr d c a y :: k') pc n -> ctx_ok (k ++ Fr d c b y :: k') pc n.
Proof.
  revert pc n. induction k as [|f k IH]; intros pc n H; simpl in *; inversion H; subst; eauto with rb.
Qed.

Lemma zip_nodup s k t F : zip s k t F -> NoDup (inorder (plug k t)).
Proof.
  intros H. apply zip_plug in H. destruct H as [H _]. cbn [layc top app] in H.
  rewrite fmap_app, NoDup_app, caddr_lay in H. apply H.
Qed.

Lemma ptr_eqb s root p t R : heap s root (lay p t ++ R) -> (ptr t =? 0) = match t with L => true | _ => false end.
Proof.
  intros H. destruct t as [|c l a r]; [done|]. simpl in *. apply eqb_false.
  eapply (heap_nonzero _ _ _ _ []); [exact H | solve_upd].
Qed.

Lemma zip_ptr_eqb s k c l a r F : zip s k (N c l a r) F ->
  (ptr l =? 0) = match l with L => true | _ => false end /\ (ptr r =? 0) = match r with L => true | _ => false end.
Proof.
  intros H. unfold zip in H. cbn [lay ptr app] in H. split.
  - eapply (ptr_eqb s _ a _ (Cell a _ _ _ c :: lay a r ++ layc k a ++ F)). eapply heap_perm; [exact H | solve_Permutation].
  - eapply (ptr_eqb s _ a _ (Cell a _ _ _ c :: lay a l ++ layc k a ++ F)). eapply heap_perm; [exact H | solve_Permutation].
Qed.

(** The removed node stays in the heap, its fields as the code left them. *)
Definition erased (o : list Z) (a : Z) (F : list cell) (s : rbs) : Prop :=
  exists x, caddr x = a /\ rb_seq o (x :: F) s.

(** A node with at most one child. *)
Lemma erase_single fuel s k c l a r F m :
  (length k < fuel)%nat -> zip s k (N c l a r) F -> rbt (plug k (N c l a r)) Black m -> l = L \/ r = L ->
  wp (rb_erase fuel a s) (erased (before k ++ (inorder l ++ inorder r) ++ after k) a F).
Proof.
  intros Hf H Hm Hlr. set (t := match l with L => r | _ => l end).
  assert (inorder l ++ inorder r = inorder t) as -> by (unfold t; destruct l, r; simpl; rewrite ?app_nil_r; try done; by destruct Hlr).
  assert (lay a l ++ lay a r = lay a t) as El by (unfold t; destruct l, r; simpl; rewrite ?app_nil_r; try done; by destruct Hlr).
  destruct (zip_ptr_eqb _ _ _ _ _ _ _ H) as [El0 Er0].
  pose proof (zip_top_aligned _ _ _ _ H) as Hal.
  destruct (zip_ptr _ _ _ _ H) as (_ & _ & Hs); [done|].
  unfold rb_erase. zread. rewrite El0, Er0.
  replace (match l with L => true | _ => false end || match r with L => true | _ => false end) with true
    by (destruct l, r; try done; by destruct Hlr).
  replace (if match l with L => true | _ => false end then ptr r else ptr l) with (ptr t) by (unfold t; by destruct l).
  zread. zsimpl H. rewrite El in H. cbn [ptr] in Hs.
  assert (wp (s ← set_parent_of (ptr t) (top k) s; replace_child (top k) a (ptr t) s)
    (fun s' => zip s' k t (Cell a (ptr r) (ptr l) (top k) c :: F))) as W.
  { hset_parent t a (top k).
    eapply wp_mono; [eapply (wp_replace_child _ k a _ _ (ptr t)); [exact Hh | solve_upd | exact Hs]|].
    intros s' Hs'. cbv beta in Hs'. by zfinish Hs'. }
  destruct (unplug_rbt _ _ _ Hm) as (pc & c' & n & Hk & Hn & Hpc).
  destruct W as (s2 & E & H2). destruct (set_parent_of (ptr t) (top k) s) as [s1|]; [simpl in E |- * | done].
  rewrite E. cbn [mbind option_bind].
  assert (exists ct n', rbt t ct n' /\ fits c ct /\ c' = c /\ n = match c with Red => n' | Black => S n' end)
    as (ct & n' & Ht & Hc & -> & ->).
  { inversion Hn; subst; unfold t; destruct l; do 2 eexists; split_and!; eauto with rb. }
  eapply wp_mono; [eapply (erase_finish fuel s2 k t _ pc c n' ct); eauto|].
  intros s' Hs'. exists (Cell a (ptr r) (ptr l) (top k) c). split; [done|]. by rewrite <- inorder_plug.
Qed.

(** A node with two children: its successor [b] takes its place. *)
Lemma top_app k d c a y k' : top (k ++ Fr d c a y :: k') = topq k a.
Proof. by destruct k as [|[]]. Qed.

(** The successor leaves its place, unless it is the right child of [a] itself. *)
Definition erase_unhook (old node child parent : Z) (s : rbs) : option (rbs * Z) :=
  if parent =? old then Some (s, node)
  else
    s ← set_parent_of child parent s;
    s ← wr (set_left child) parent s;
    oright ← rd rb_right old s;
    s ← wr (set_right oright) node s;
    s ← wr (rb_set_parent node) oright s;
    Some (s, parent).

Lemma erase_unhook_ok s root lc c2 a b rr c al pa R :
  heap s root (Cell a (ptr (plug lc (N c2 L b rr))) al pa c :: Cell b (ptr rr) 0 (topq lc a) c2 ::
               lay b rr ++ layp lc b a ++ R) ->
  Forall (on_side Lf) lc -> (lc <> [] -> topq lc a <> a) ->
  wp (erase_unhook a b (ptr rr) (topq lc a) s)
     (fun '(s', parent) => parent = topq lc b /\
        heap s' root (Cell a (ptr (plug lc (N c2 L b rr))) al pa c :: Cell b (ptr (plug lc rr)) 0 (topq lc a) c2 ::
                      lay (topq lc b) rr ++ layp lc (ptr rr) b ++ R)).
Proof.
  intros H Hlc Hne. unfold erase_unhook. destruct lc as [|[d0 c0 p0 y0] lc].
  - cbn [topq]. rewrite Z.eqb_refl. apply wp_ret. split; [done | exact H].
  - rewrite eqb_false by by apply Hne. apply Forall_cons in Hlc as [Hd _]. simpl in Hd. subst d0.
    cbn [topq layp cellof app] in *. set (r' := ptr (plug (Fr Lf c0 p0 y0 :: lc) (N c2 L b rr))) in *.
    hset_parent rr b p0. hwrite. hread. hwrite.
    apply heap_perm with (Ls' := Cell a r' al pa c :: Cell b r' 0 p0 c2 ::
      lay a (plug (Fr Lf c0 p0 y0 :: lc) rr) ++ R) in Hh.
    2:{ rewrite lay_plug. cbn [topq layp cellof]. solve_Permutation. }
    assert (ptr (plug (Fr Lf c0 p0 y0 :: lc) rr) = r') as Er by apply ptr_plug.
    assert (plug (Fr Lf c0 p0 y0 :: lc) rr <> L) as Hr by (cbn [plug]; by apply plug_ne).
    pose proof (lay_plug b (Fr Lf c0 p0 y0 :: lc) rr) as Ep. cbn [topq layp cellof] in Ep.
    rewrite Er. destruct (plug (Fr Lf c0 p0 y0 :: lc) rr) as [|cr lr ar rr']; [done|].
    cbn [ptr] in Er. subst ar. cbn [lay app] in Hh, Ep. hwrite. apply wp_ret. split; [done|].
    eapply heap_perm; [exact Hh|]. apply (Permutation_app_tail R) in Ep. simpl in Ep. 
    do 2 apply Permutation_skip. rewrite Ep. solve_Permutation.
Qed.
(** The moves of the successor, as a step of its own: the state, the child, its parent, the colour lost. *)
Definition erase_splice (old node : Z) (s : rbs) : option (rbs * Z * Z * Z) :=
  oparent ← rd rb_parent old s;
  s ← replace_child oparent old node s;
  child ← rd rb_right node s;
  parent ← rd rb_parent node s;
  color ← rd rb_color node s;
  '(s, parent) ← erase_unhook old node child parent s;
  opc ← rd rb_parent_color old s;
  s ← wr (set_parent_color opc) node s;
  oleft ← rd rb_left old s;
  s ← wr (set_left oleft) node s;
  s ← wr (rb_set_parent node) oleft s;
  Some (s, child, parent, color).

Lemma erase_splice_ok s k c a l lc c2 b rr F :
  zip s k (N c l a (plug lc (N c2 L b rr))) F -> l <> L -> Forall (on_side Lf) lc ->
  wp (erase_splice a b s)
     (fun '(s', child, parent, color) => child = ptr rr /\ parent = topq lc b /\ color = bit c2 /\
        exists x, caddr x = a /\ zip s' (lc ++ Fr Rt c b l :: k) rr (x :: F)).
Proof.
  intros H Hl Hlc. pose proof (zip_top_aligned _ _ _ _ H) as Hal.
  pose proof (zip_nodup _ _ _ _ H) as Hnd. rewrite inorder_plug in Hnd. cbn [inorder] in Hnd.
  destruct (zip_ptr _ _ _ _ H) as (_ & _ & Hs); [done|]. cbn [ptr] in Hs.
  unfold erase_splice. zread. zsimpl H.
  destruct l as [|cl ll al lr]; [done|]. clear Hl.
  hhole a b.
  apply heap_perm with (Ls' := Cell a (ptr (plug lc (N c2 L b rr))) al (top k) c ::
     Cell b (ptr rr) 0 (topq lc a) c2 :: lay b rr ++ layp lc b a ++ lay a (N cl ll al lr) ++ layc k b ++ F) in Hh.
  2:{ rewrite lay_plug. cbn [ptr lay app]. solve_Permutation. }
  hread. eapply wp_bind.
  { eapply erase_unhook_ok; [exact Hh | exact Hlc |]. intros Hne E. destruct lc as [|[d0 c0 p0 y0] lc]; [done|].
    simpl in E. subst p0. apply Forall_cons in Hlc as [Hd _]. simpl in Hd. subst d0.
    rewrite inorder_plug in Hnd. cbn [after before] in Hnd.
    apply NoDup_app in Hnd as (_ & _ & Hnd). apply NoDup_app in Hnd as (Hnd & _).
    apply NoDup_app in Hnd as (_ & _ & Hnd). apply NoDup_cons in Hnd as [Hnd _]. set_solver. }
  clear dependent s. intros [s parent] [-> Hh]. cbn [lay app ptr] in Hh. cbn [mbind option_bind].
  hread. hwrite. hread. hwrite. hwrite. apply wp_ret. split_and!; try done.
  exists (Cell a (ptr (plug lc (N c2 L b rr))) al (top k) c). split; [done|].
  apply zip_plug. rewrite plug_app. cbn [plug nd]. apply (proj1 (zip_plug _ _ _ _)).
  unfold zip. cbn [ptr lay]. eapply heap_perm; [exact Hh|]. rewrite lay_plug. cbn [ptr app]. solve_Permutation.
Qed.

Lemma rb_erase_splice fuel a b s nl nr :
  rd rb_left a s = Some nl -> rd rb_right a s = Some nr -> nl <> 0 -> nr <> 0 -> go_left fuel nr s = Some b ->
  rb_erase fuel a s =
    ('(s, child, parent, color) ← erase_splice a b s;
     if color =? RB_BLACK then __rb_erase_color fuel child parent s else Some s).
Proof.
  intros E1 E2 H1 H2 E3. unfold rb_erase. rewrite E1, E2. cbn [mbind option_bind].
  rewrite !eqb_false by done. cbn [orb]. rewrite E3. reflexivity.
Qed.

(** A node with two children. *)
Lemma erase_double fuel s k c l a r F m :
  (length k + height r < fuel)%nat -> zip s k (N c l a r) F -> rbt (plug k (N c l a r)) Black m ->
  l <> L -> r <> L ->
  wp (rb_erase fuel a s) (erased (before k ++ (inorder l ++ inorder r) ++ after k) a F).
Proof.
  intros Hf H Hm Hl Hr. destruct (zip_ptr_eqb _ _ _ _ _ _ _ H) as [El0 Er0].
  destruct (go_ok Lf fuel s (rootp k a) a r (Cell a (ptr r) (ptr l) (top k) c :: lay a l ++ layc k a ++ F))
    as (lc & c2 & b & rr & -> & Hlc & Hg).
  { eapply heap_perm; [exact H|]. cbn [lay app ptr]. solve_Permutation. }
  { done. }
  { lia. }
  cbn [nd go] in *.
  assert (rd rb_left a s = Some (ptr l)) as E1 by (eapply (rd_left _ _ _ _ []); [exact H | apply upd_drop]).
  assert (rd rb_right a s = Some (ptr (plug lc (N c2 L b rr)))) as E2 by (eapply (rd_right _ _ _ _ []); [exact H | apply upd_drop]).
  rewrite (rb_erase_splice fuel a b _ _ _ E1 E2); try done.
  2:{ intros E. rewrite E in El0. by destruct l. }
  2:{ intros E. rewrite E in Er0. by destruct (plug lc (N c2 L b rr)). }
  eapply wp_bind; [exact (erase_splice_ok _ _ _ _ _ _ _ _ _ _ H Hl Hlc)|].
  clear s H El0 Er0 Hg E1 E2. intros [[[s child] parent] color] (-> & -> & -> & x & Hx & H).
  assert (plug k (N c l a (plug lc (N c2 L b rr))) = plug (lc ++ Fr Rt c a l :: k) (N c2 L b rr)) as Ep
    by by rewrite plug_app.
  rewrite Ep in Hm. destruct (unplug_rbt _ _ _ Hm) as (pc & c' & n & Hk & Hn & Hpc).
  apply (ctx_ok_rename _ _ _ _ b) in Hk. rewrite <- (top_app lc Rt c b l k).
  assert (exists ct n', rbt rr ct n' /\ fits c2 ct /\ c' = c2 /\ n = match c2 with Red => n' | Black => S n' end)
    as (ct & n' & Ht & Hc & -> & ->) by (inversion Hn; subst; do 2 eexists; split_and!; eauto with rb).
  pose proof (length_plug lc (N c2 L b rr)) as Hlen. cbn [height] in Hlen.
  eapply wp_mono; [eapply (erase_finish fuel s _ rr _ pc c2 n' ct); eauto; rewrite length_app; simpl; lia|].
  intros s' Hs'. exists x. split; [done|]. rewrite plug_app, inorder_plug in Hs'. cbn [plug nd inorder] in Hs'.
  rewrite inorder_plug, (before_side _ Hlc) in Hs'. rewrite inorder_plug, (before_side _ Hlc). cbn [inorder app] in Hs' |- *.
  assert (before k ++ (inorder l ++ b :: inorder rr ++ after lc) ++ after k =
          before (Fr Rt c b l :: k) ++ (inorder rr ++ after lc) ++ after (Fr Rt c b l :: k)) as -> by ino.
  exact Hs'.
Qed.

Lemma rb_erase_ok fuel s T o1 a o2 F :
  rbtree s T F -> inorder T = o1 ++ a :: o2 -> (height T < fuel)%nat ->
  wp (rb_erase fuel a s) (erased (o1 ++ o2) a F).
Proof.
  intros [H [m Hm]] E Hf.
  apply tree_at in E as (k & c & l & r & -> & -> & ->).
  pose proof (length_plug k (N c l a r)) as Hlen. cbn [height] in Hlen.
  apply (proj2 (zip_plug _ k _ _)) in H.
  replace ((before k ++ inorder l) ++ inorder r ++ after k) with (before k ++ (inorder l ++ inorder r) ++ after k)
    by by rewrite <- !app_assoc.
  destruct l as [|c1 l1 b1 r1]; [|destruct r as [|c2 l2 b2 r2]].
  - eapply erase_single; eauto. lia.
  - eapply erase_single; eauto. lia.
  - eapply erase_double; eauto; lia.
Qed.

(** C15: erasing a node - wherever it is in a red-black tree, with no, one or two children -
    succeeds and leaves a red-black tree whose in-order sequence is the old one without that
    node; the erased node is out of the tree and no other memory is touched; the loops take
    at most 2 log2 (n+1) rounds for n nodes. *)
Theorem rb_erase_correct fuel s T o1 a o2 F :
  rbtree s T F -> inorder T = o1 ++ a :: o2 ->
  (2 * Nat.log2 (S (length (inorder T))) < fuel)%nat ->
  wp (rb_erase fuel a s) (erased (o1 ++ o2) a F).
Proof.
  intros H E Hf. destruct (H) as [_ [m Hm]]. pose proof (rbt_height_log _ _ Hm).
  by eapply rb_erase_ok; [done.. | lia].
Qed.

(** ** Witness: three black nodes; the root is erased *)

Definition wit_rb3 : rbs :=
  mk_rbs (list_to_map [(8, mk_rb 16 4 1); (4, mk_rb 0 0 9); (16, mk_rb 0 0 9)]) 8.
Definition wit_t3 : tree := N Black (N Black L 4 L) 8 (N Black L 16 L).

Lemma wit_rb3_ok : rbtree wit_rb3 wit_t3 [].
Proof. split; [concrete_heap | exists 2%nat]. unfold wit_t3. eauto 10 with rb. Qed.

Lemma rb_erase_correct_witness : wp (rb_erase 5 8 wit_rb3) (erased [4; 16] 8 []).
Proof.
  apply (rb_erase_correct 5 wit_rb3 wit_t3 [4] 8 [16] []); [exact wit_rb3_ok | reflexivity |].
  apply Nat.ltb_lt. vm_compute. reflexivity.
Defined.
