(* ===== verification/RbWalk.v ===== *)
(** * RbWalk: walking, replacing and augmenting the red-black tree (bintree.c)

    [rb_first], [rb_last], [rb_next] and [rb_prev] give the neighbours in the in-order
    sequence; [rb_replace_node] renames a node; [rb_augment_path] calls the caller's
    function on a node, its ancestors and their other children. *)

From S2P Require Import Prelude RbTree RbHeap RbInsert RbErase.

Lemma head_left lc c b rr : Forall (on_side Lf) lc -> head (inorder (plug lc (N c L b rr))) = Some b.
Proof. intros H. by rewrite inorder_plug, (before_side _ H). Qed.
Lemma last_right lc c b ll : Forall (on_side Rt) lc -> last (inorder (plug lc (N c ll b L))) = Some b.
Proof. intros H. rewrite inorder_plug, (after_side _ H), app_nil_r. simpl. by rewrite app_assoc, last_snoc. Qed.

Lemma go_left_head fuel s root p t R :
  heap s root (lay p t ++ R) -> t <> L -> (height t <= fuel)%nat -> go_left fuel (ptr t) s = head (inorder t).
Proof. intros H Ht Hf. destruct (go_ok Lf _ _ _ _ _ _ H Ht Hf) as (lc & c & b & z & -> & Hl & Hg). etrans; [exact Hg|]. cbn [nd]. by rewrite head_left. Qed.
Lemma go_right_last fuel s root p t R :
  heap s root (lay p t ++ R) -> t <> L -> (height t <= fuel)%nat -> go_right fuel (ptr t) s = last (inorder t).
Proof. intros H Ht Hf. destruct (go_ok Rt _ _ _ _ _ _ H Ht Hf) as (lc & c & b & z & -> & Hl & Hg). etrans; [exact Hg|]. cbn [nd]. by rewrite last_right. Qed.

Lemma head_some t : t <> L -> exists x, head (inorder t) = Some x.
Proof. destruct t as [|c l a r]; [done|]. intros _. simpl. destruct (inorder l); by eexists. Qed.
Lemma last_some t : t <> L -> exists x, last (inorder t) = Some x.
Proof. destruct t as [|c l a r]; [done|]. intros _. simpl. rewrite last_app_cons, last_cons. destruct (last (inorder r)); by eexists. Qed.

(** Up to the first ancestor on the other side. *)
Lemma up_right_ok fuel s k t F :
  zip s k t F -> t <> L -> (length k < fuel)%nat -> up_from_right fuel (ptr t) s = Some (default 0 (head (after k))).
Proof.
  revert fuel t. induction k as [|[d c b y] k IH]; intros fuel t H Ht Hf; (destruct fuel as [|fuel]; [simpl in Hf; lia|]);
    simpl in Hf; (destruct t as [|ct lt at' rt]; [done|]); cbn [up_from_right ptr].
  - zread. done.
  - destruct (zip_ptr _ _ _ _ H) as (_ & _ & Hs); [done|]. simpl in Hs. zread.
    destruct (zip_top_nonzero _ _ _ _ _ _ _ _ H) as [Hb _]. rewrite (eqb_false _ _ Hb).
    destruct d; zread; rewrite ?Z.eqb_refl, ?(eqb_false _ _ (not_eq_sym Hs)); [done|].
    apply zip_close in H. simpl. apply (IH fuel _ H); [done | lia].
Qed.
Lemma up_left_ok fuel s k t F :
  zip s k t F -> t <> L -> (length k < fuel)%nat -> up_from_left fuel (ptr t) s = Some (default 0 (last (before k))).
Proof.
  revert fuel t. induction k as [|[d c b y] k IH]; intros fuel t H Ht Hf; (destruct fuel as [|fuel]; [simpl in Hf; lia|]);
    simpl in Hf; (destruct t as [|ct lt at' rt]; [done|]); cbn [up_from_left ptr].
  - zread. done.
  - destruct (zip_ptr _ _ _ _ H) as (_ & _ & Hs); [done|]. simpl in Hs. zread.
    destruct (zip_top_nonzero _ _ _ _ _ _ _ _ H) as [Hb _]. rewrite (eqb_false _ _ Hb).
    destruct d; zread; rewrite ?Z.eqb_refl, ?(eqb_false _ _ (not_eq_sym Hs)).
    + apply zip_close in H. simpl. apply (IH fuel _ H); [done | lia].
    + simpl. by rewrite app_assoc, last_snoc.
Qed.

Lemma not_empty_node s k c l a r F : zip s k (N c l a r) F -> RB_EMPTY_NODE a s = Some false.
Proof.
  intros H. unfold RB_EMPTY_NODE. zread. f_equal. apply eqb_false.
  destruct k as [|[d c' b y] k]; [|by destruct (zip_top_nonzero _ _ _ _ _ _ _ _ H)].
  destruct (zip_ptr _ _ _ _ H) as (Ha & _); [done|]. simpl in *. congruence.
Qed.

Lemma rb_next_zip fuel s k c l a r F :
  zip s k (N c l a r) F -> (length k < fuel)%nat -> (height r <= fuel)%nat ->
  rb_next fuel a s = Some (default 0 (head (inorder r ++ after k))).
Proof.
  intros H Hk Hr. unfold rb_next. rewrite (not_empty_node _ _ _ _ _ _ _ H). cbn [mbind option_bind]. zread.
  destruct r as [|c2 l2 b2 r2]; [by apply (up_right_ok _ _ _ _ _ H)|].
  assert (heap s (rootp k a) (lay a (N c2 l2 b2 r2) ++ Cell a b2 (ptr l) (top k) c :: lay a l ++ layc k a ++ F)) as H'
    by (eapply heap_perm; [exact H|]; cbn [lay ptr app]; solve_Permutation).
  assert (ptr (N c2 l2 b2 r2) <> 0) as Hb by (simpl in H'; eapply (heap_nonzero _ _ _ _ []); [exact H' | solve_upd]).
  rewrite (eqb_false _ _ Hb). cbn [negb]. rewrite (go_left_head _ _ _ _ _ _ H') by done.
  destruct (head_some (N c2 l2 b2 r2)) as [x Hx]; [done|]. rewrite Hx.
  destruct (inorder (N c2 l2 b2 r2)); [done|]. simpl in *. congruence.
Qed.
Lemma rb_prev_zip fuel s k c l a r F :
  zip s k (N c l a r) F -> (length k < fuel)%nat -> (height l <= fuel)%nat ->
  rb_prev fuel a s = Some (default 0 (last (before k ++ inorder l))).
Proof.
  intros H Hk Hr. unfold rb_prev. rewrite (not_empty_node _ _ _ _ _ _ _ H). cbn [mbind option_bind]. zread.
  destruct l as [|c2 l2 b2 r2]; [rewrite app_nil_r; by apply (up_left_ok _ _ _ _ _ H)|].
  assert (heap s (rootp k a) (lay a (N c2 l2 b2 r2) ++ Cell a (ptr r) b2 (top k) c :: lay a r ++ layc k a ++ F)) as H'
    by (eapply heap_perm; [exact H|]; cbn [lay ptr app]; solve_Permutation).
  assert (ptr (N c2 l2 b2 r2) <> 0) as Hb by (simpl in H'; eapply (heap_nonzero _ _ _ _ []); [exact H' | solve_upd]).
  rewrite (eqb_false _ _ Hb). cbn [negb]. rewrite (go_right_last _ _ _ _ _ _ H') by done.
  destruct (last_some (N c2 l2 b2 r2)) as [x Hx]; [done|]. rewrite Hx, last_app, Hx. done.
Qed.

(** C25: in a red-black tree [rb_first] and [rb_last] give the ends of the in-order sequence (NULL
    for an empty tree), and [rb_next] and [rb_prev] of any node the node after and before
    it, NULL at the ends; 2 log2 (n+1) + 1 rounds suffice. *)
Theorem rb_walk_correct fuel s T F :
  rbtree s T F -> (2 * Nat.log2 (S (length (inorder T))) < fuel)%nat ->
  rb_first fuel s = Some (default 0 (head (inorder T))) /\
  rb_last fuel s = Some (default 0 (last (inorder T))) /\
  forall o1 a o2, inorder T = o1 ++ a :: o2 ->
    rb_next fuel a s = Some (default 0 (head o2)) /\ rb_prev fuel a s = Some (default 0 (last o1)).
Proof.
  intros [H [m Hm]] Hf. pose proof (rbt_height_log _ _ Hm). split_and!.
  - unfold rb_first. rewrite (zip_root _ _ _ H). destruct T as [|c l a r]; [done|].
    destruct (zip_ptr _ _ _ _ H) as (Ha & _); [done|]. rewrite (eqb_false _ _ Ha).
    rewrite (go_left_head _ _ _ _ _ _ H) by (done || lia).
    by destruct (head_some (N c l a r)) as [x ->].
  - unfold rb_last. rewrite (zip_root _ _ _ H). destruct T as [|c l a r]; [done|].
    destruct (zip_ptr _ _ _ _ H) as (Ha & _); [done|]. rewrite (eqb_false _ _ Ha).
    rewrite (go_right_last _ _ _ _ _ _ H) by (done || lia).
    by destruct (last_some (N c l a r)) as [x ->].
  - intros o1 a o2 E. apply tree_at in E as (k & c & l & r & -> & -> & ->).
    pose proof (length_plug k (N c l a r)) as Hlen. cbn [height] in Hlen.
    apply (proj2 (zip_plug _ k _ _)) in H.
    split; [eapply rb_next_zip | eapply rb_prev_zip]; eauto; lia.
Qed.

(** ** [rb_replace_node] *)

(** The node [v] of the tree gives its place, its colour and its children to [n]. *)
Lemma rb_replace_node_ok s k c l v r F n rn ln pn cn :
  zip s k (N c l v r) (Cell n rn ln pn cn :: F) ->
  wp (rb_replace_node v n s)
     (fun s' => zip s' k (N c l n r) (Cell v (ptr r) (ptr l) (top k) c :: F)).
Proof.
  intros H. pose proof (zip_top_aligned _ _ _ _ H) as Hal.
  destruct (zip_ptr _ _ _ _ H) as (_ & _ & Hs); [done|]. cbn [ptr] in Hs.
  unfold rb_replace_node. zread. zsimpl H. hhole v n. hread. hset_parent l v n. hread. hset_parent r v n.
  match goal with H : heap _ _ _ |- _ => rename H into Hh end.
  eassert (nodes _ !! v = Some _) as -> by (eapply (heap_cell _ _ _ _ []); [exact Hh | solve_upd]).
  cbn [mbind option_bind]. eapply wp_mono.
  - eapply (heap_wr _ _ _ _ _ n rn ln pn cn (ptr r) (ptr l) (top k) c); [exact Hh | solve_upd | done | done].
  - intros s' Hs'. by zfinish Hs'.
Qed.

(** ** The augmented tree *)

(** The nodes the function is called on, from a node with context [k] upwards. *)
Fixpoint augment_calls (k : list frame) (a : Z) : list Z :=
  a :: match k with
       | [] => []
       | Fr Lf _ b y :: k => (match y with L => a | _ => ptr y end) :: augment_calls k b
       | Fr Rt _ b y :: k => match y with L => augment_calls k b | _ => ptr y :: augment_calls k b end
       end.

Lemma rb_augment_path_ok fuel s k t F calls :
  zip s k t F -> t <> L -> (length k < fuel)%nat ->
  rb_augment_path fuel (ptr t) s calls = Some (calls ++ augment_calls k (ptr t)).
Proof.
  revert fuel t calls. induction k as [|[d c b y] k IH]; intros fuel t calls H Ht Hf;
    (destruct fuel as [|fuel]; [simpl in Hf; lia|]); simpl in Hf; (destruct t as [|ct lt at' rt]; [done|]);
    cbn [rb_augment_path ptr].
  - zread. done.
  - destruct (zip_ptr _ _ _ _ H) as (Ha & _ & Hs); [done|]. simpl in Hs, Ha. zread.
    destruct (zip_top_nonzero _ _ _ _ _ _ _ _ H) as [Hb _]. rewrite (eqb_false _ _ Hb).
    pose proof (zip_sib_eqb _ _ _ _ _ _ _ _ H) as Ey.
    destruct d; zread; rewrite ?Z.eqb_refl, ?(eqb_false _ _ (not_eq_sym Hs)), Ey, ?(eqb_false _ _ Ha);
      apply zip_close in H; simpl in H; cbn [andb negb nd] in *.
    + rewrite (IH fuel _ _ H) by (done || lia). destruct y; simpl; by rewrite <- !app_assoc.
    + destruct y; (rewrite (IH fuel _ _ H) by (done || lia)); simpl; by rewrite <- ?app_assoc.
Qed.

Lemma rb_walk_correct_witness :
  rb_first 5 wit_rb3 = Some 4 /\ rb_last 5 wit_rb3 = Some 16 /\ rb_next 5 4 wit_rb3 = Some 8 /\ rb_prev 5 4 wit_rb3 = Some 0.
Proof.
  destruct (rb_walk_correct 5 wit_rb3 wit_t3 [] wit_rb3_ok) as (H1 & H2 & H3);
    [apply Nat.ltb_lt; vm_compute; reflexivity|].
  destruct (H3 [] 4 [8; 16] eq_refl) as [H4 H5]. split_and!; [exact H1 | exact H2 | exact H4 | exact H5].
Defined.
