(* ===== verification/HandleTree.v ===== *)
(** * HandleTree: the registry of live objects in nd_handle.c

    With ND_SOURCE_TRACE the live objects are kept in a red-black tree by object id, so that
    [nd_handle_checkvalid] can tell a live handle from a stale pointer.  A handle is
    named by the address of its tree node ([rb_entry] is a fixed offset).  The registry
    refines the list of the live objects in the order of registration, which is also
    the order of their ids: [live]. *)

From Stdlib Require Import Sorting.Sorted.
From S2P Require Import Prelude RbTree RbHeap RbInsert RbErase.

(** ** State *)

(** The fields of ND_OBJ_BASE the registry uses. *)
Record hobj := mk_hobj { h_created : Z; __objid : Z; h_type : Z }.

Record hmgr := mk_hmgr {
  hobjs : gmap Z hobj;              (* by the address of __self_rbnode *)
  _g_rb_handler_root : rbs;         (* the root, with the nodes of the heap *)
  _g_is_init : Z;
  _g_objindex : Z;
  _g_handle_num : Z
}.

Definition set_obj (a : Z) (o : hobj) (m : hmgr) : hmgr :=
  mk_hmgr (<[a := o]> (hobjs m)) (_g_rb_handler_root m) (_g_is_init m) (_g_objindex m) (_g_handle_num m).
Definition set_tree (t : rbs) (m : hmgr) : hmgr :=
  mk_hmgr (hobjs m) t (_g_is_init m) (_g_objindex m) (_g_handle_num m).
Definition set_counts (index num : Z) (m : hmgr) : hmgr :=
  mk_hmgr (hobjs m) (_g_rb_handler_root m) (_g_is_init m) index num.

(** ** Operations *)

Definition _tryto_init_handle_mgr (m : hmgr) : hmgr :=
  if _g_is_init m =? 0 then mk_hmgr (hobjs m) (set_root 0 (_g_rb_handler_root m)) 1 1 0 else m.

(** The walk of [_search_handle]: the difference of the ids as an int. *)
Fixpoint search_loop (fuel : nat) (objid node : Z) (m : hmgr) : option Z :=
  match fuel with
  | O => None
  | S fuel =>
      if node =? 0 then Some 0
      else
        data ← hobjs m !! node;
        let result := s32 (u32 (objid - __objid data)) in
        if result <? 0 then left ← rd rb_left node (_g_rb_handler_root m); search_loop fuel objid left m
        else if 0 <? result then right ← rd rb_right node (_g_rb_handler_root m); search_loop fuel objid right m
        else Some node
  end.
Definition _search_handle (fuel : nat) (objid : Z) (m : hmgr) : option Z :=
  if _g_handle_num m <? 1 then Some 0
  else search_loop fuel objid (rb_node (_g_rb_handler_root m)) m.

(** The walk of [nd_reg_handle]: where the new node is linked, [None] when the id is there. *)
Fixpoint reg_loop (fuel : nat) (objid : Z) (new_node : rb_link) (parent : Z) (m : hmgr)
    : option (option (rb_link * Z)) :=
  match fuel with
  | O => None
  | S fuel =>
      cur ← get_link new_node (_g_rb_handler_root m);
      if cur =? 0 then Some (Some (new_node, parent))
      else
        cur_node ← hobjs m !! cur;
        if objid <? __objid cur_node then reg_loop fuel objid (AtLeft cur) cur m
        else if __objid cur_node <? objid then reg_loop fuel objid (AtRight cur) cur m
        else Some None
  end.

Definition nd_reg_handle (fuel : nat) (hobj : Z) (m : hmgr) : option (hmgr * Z) :=
  if hobj =? 0 then Some (m, -1)
  else
    let m := _tryto_init_handle_mgr m in
    o ← hobjs m !! hobj;
    t ← rb_init_node hobj (_g_rb_handler_root m);
    let index := s32 (_g_objindex m + 1) in
    let objid := u32 index in
    let m := set_counts index (_g_handle_num m) (set_tree t (set_obj hobj (mk_hobj 1 objid (h_type o)) m)) in
    pos ← reg_loop fuel objid AtRoot 0 m;
    match pos with
    | None => Some (m, -1)
    | Some (new_node, parent) =>
        t ← rb_link_node hobj parent new_node (_g_rb_handler_root m);
        t ← rb_insert_color fuel hobj t;
        Some (set_counts (_g_objindex m) (s32 (_g_handle_num m + 1)) (set_tree t m), 0)
    end.

Definition nd_unreg_handle (fuel : nat) (hobj : Z) (m : hmgr) : option (hmgr * Z) :=
  if hobj =? 0 then Some (m, -1)
  else
    o ← hobjs m !! hobj;
    p ← _search_handle fuel (__objid o) m;
    if p =? 0 then Some (m, -1)
    else
      let m := set_obj hobj (mk_hobj 0 (__objid o) (h_type o)) m in
      t ← rb_erase fuel p (_g_rb_handler_root m);
      let m := set_counts (_g_objindex m) (s32 (_g_handle_num m - 1)) (set_tree t m) in
      t ← rb_init_node hobj (_g_rb_handler_root m);
      Some (set_obj hobj (mk_hobj 0 0 (h_type o)) (set_tree t m), 0).

Definition nd_handle_checkvalid (fuel : nat) (hobj objtype : Z) (m : hmgr) : option Z :=
  if hobj =? 0 then Some 0
  else
    o ← hobjs m !! hobj;
    p ← _search_handle fuel (__objid o) m;
    if p =? 0 then Some 0
    else
      po ← hobjs m !! p;
      Some (if (h_created po =? 0) || (__objid po =? 0) || (u32 (_g_objindex m) <? __objid po) ||
               negb (h_type po =? objtype) then 0 else 1).

(** ** The state and the list of live objects *)

Definition objid_of (m : hmgr) (a : Z) : Z := match hobjs m !! a with Some o => __objid o | None => 0 end.

(** [live m ids F]: the tree holds the nodes [ids], in increasing order of their object ids;
    the other nodes of the heap are [F]. *)
Definition live (m : hmgr) (ids : list Z) (F : list cell) : Prop :=
  rb_seq ids F (_g_rb_handler_root m) /\
  StronglySorted (fun a b => objid_of m a < objid_of m b) ids /\
  Forall (fun a => exists o, hobjs m !! a = Some o /\ h_created o = 1 /\ 0 < __objid o <= _g_objindex m) ids /\
  _g_handle_num m = zlen ids /\ _g_is_init m <> 0 /\ 1 <= _g_objindex m.

(** ** Walks *)

Definition find_id (m : hmgr) (objid : Z) (ids : list Z) : Z :=
  default 0 (List.find (fun a => objid_of m a =? objid) ids).

Lemma sorted_app {A} (R : A -> A -> Prop) l1 l2 :
  StronglySorted R (l1 ++ l2) <-> StronglySorted R l1 /\ StronglySorted R l2 /\ (forall a b, a ∈ l1 -> b ∈ l2 -> R a b).
Proof.
  induction l1 as [|x l1 IH]; simpl.
  - split; [intros H; split_and!; [constructor | done | intros a b Ha; by apply not_elem_of_nil in Ha] | tauto].
  - split.
    + intros H. apply StronglySorted_inv in H as [H Hx]. apply IH in H as (H1 & H2 & H3).
      apply Forall_app in Hx as [Hx1 Hx2]. split_and!; [by constructor | done |].
      intros a b Ha Hb. apply elem_of_cons in Ha as [->|Ha]; [|by apply H3]. rewrite Forall_forall in Hx2. by apply Hx2.
    + intros (H1 & H2 & H3). apply StronglySorted_inv in H1 as [H1 Hx]. constructor.
      * apply IH. split_and!; [done..|]. intros a b Ha Hb. apply H3; [by right | done].
      * apply Forall_app. split; [done|]. apply Forall_forall. intros b Hb. apply H3; [by left | done].
Qed.

Lemma find_none (m : hmgr) objid l : (forall a, a ∈ l -> objid_of m a <> objid) ->
  List.find (fun a => objid_of m a =? objid) l = None.
Proof.
  induction l as [|x l IH]; intros H; simpl; [done|].
  rewrite (proj2 (Z.eqb_neq _ _)) by (apply H; by left). apply IH. intros a Ha. apply H. by right.
Qed.

Lemma find_app_id (m : hmgr) objid l1 l2 :
  List.find (fun a => objid_of m a =? objid) (l1 ++ l2) =
    match List.find (fun a => objid_of m a =? objid) l1 with Some a => Some a | None => List.find (fun a => objid_of m a =? objid) l2 end.
Proof. induction l1 as [|x l1 IH]; simpl; [done|]. by destruct (objid_of m x =? objid). Qed.

(** The difference of two ids below 2^31, as an int. *)
Lemma s32_diff x y : 0 <= x < 2 ^ 31 -> 0 <= y < 2 ^ 31 -> s32 (u32 (x - y)) = x - y.
Proof.
  intros Hx Hy. unfold wraps, wrapu. change (2 ^ 31) with 2147483648 in *. change (2 ^ 32) with 4294967296.
  change (2 ^ (32 - 1)) with 2147483648. destruct (Z_lt_ge_dec x y).
  - replace ((x - y) mod 4294967296) with (x - y + 4294967296) by (apply (Z.mod_unique_pos _ _ (-1)); lia).
    replace ((x - y + 4294967296 + 2147483648) mod 4294967296) with (x - y + 2147483648)
      by (apply (Z.mod_unique_pos _ _ 1); lia). lia.
  - rewrite (Z.mod_small (x - y)) by lia. rewrite Z.mod_small by lia. lia.
Qed.

Section walks.
Context (m : hmgr).
Local Abbreviation key := (objid_of m).
Local Abbreviation sorted := (StronglySorted (fun a b => key a < key b)).
Local Abbreviation present := (Forall (fun a => is_Some (hobjs m !! a))).

Lemma objid_of_some a o : hobjs m !! a = Some o -> objid_of m a = __objid o.
Proof. intros E. unfold objid_of. by rewrite E. Qed.

(** The ids less than 2^31: the sign of the difference is the order. *)
Lemma search_loop_ok objid (Hid : 0 <= objid < 2 ^ 31) fuel root p t R :
  heap (_g_rb_handler_root m) root (lay p t ++ R) -> (height t < fuel)%nat ->
  sorted (inorder t) -> present (inorder t) -> Forall (fun a => 0 <= key a < 2 ^ 31) (inorder t) ->
  search_loop fuel objid (ptr t) m = Some (find_id m objid (inorder t)).
Proof.
  revert p t R. induction fuel as [|fuel IH]; intros p t R H Hf Hs Hp Hw; [lia|].
  destruct t as [|c l a r]; [done|]. cbn [search_loop ptr]. simpl in H, Hf.
  rewrite eqb_false by (eapply (heap_nonzero _ _ _ _ []); [exact H | solve_upd]).
  cbn [inorder] in *. apply sorted_app in Hs as (Hs1 & Hs2 & Hlt). apply StronglySorted_inv in Hs2 as [Hs2 Hgt].
  apply Forall_app in Hp as [Hp1 [Ha Hp2]%Forall_cons]. apply Forall_app in Hw as [Hw1 [Hwa Hw2]%Forall_cons].
  destruct Ha as [o Ho]. rewrite Ho. cbn [mbind option_bind].
  rewrite <- (objid_of_some _ _ Ho).
  assert (s32 (u32 (objid - key a)) = objid - key a) as ->
    by (apply s32_diff; [done | exact Hwa]).
  unfold find_id in *. rewrite find_app_id. simpl.
  destruct (Z.ltb_spec (objid - key a) 0); [|destruct (Z.ltb_spec 0 (objid - key a))].
  - hread. rewrite (IH a l (Cell a (ptr r) (ptr l) p c :: lay a r ++ R)); [|eapply heap_perm; [exact H | solve_Permutation]|lia|done..].
    rewrite (eqb_false (key a) objid) by lia. rewrite (find_none m objid (inorder r)).
    + by destruct (List.find _ _).
    + intros b Hb. rewrite Forall_forall in Hgt. specialize (Hgt b Hb). simpl in Hgt. lia.
  - hread. rewrite (IH a r (Cell a (ptr r) (ptr l) p c :: lay a l ++ R)); [|eapply heap_perm; [exact H | solve_Permutation]|lia|done..].
    rewrite (eqb_false (key a) objid) by lia. rewrite (find_none m objid (inorder l)); [done|].
    intros b Hb. specialize (Hlt b a Hb ltac:(by left)). simpl in Hlt. lia.
  - rewrite (find_none m objid (inorder l)).
    + by rewrite (proj2 (Z.eqb_eq (key a) objid)) by lia.
    + intros b Hb. specialize (Hlt b a Hb ltac:(by left)). simpl in Hlt. lia.
Qed.

Lemma get_link_zip s k t F : zip s k t F -> get_link (link_of k) s = Some (ptr t).
Proof.
  intros H. destruct k as [|[[|] c b y] k]; cbn [link_of get_link].
  - f_equal. by apply zip_root in H.
  - zsimpl H. eapply (rd_left _ _ _ _ []); [exact H | solve_upd].
  - zsimpl H. eapply (rd_right _ _ _ _ []); [exact H | solve_upd].
Qed.

(** An id above all the ids of the tree is linked at the end. *)
Lemma reg_loop_last objid fuel k t F :
  zip (_g_rb_handler_root m) k t F -> (height t < fuel)%nat -> present (inorder t) ->
  Forall (fun a => key a < objid) (inorder t) -> after k = [] ->
  exists k', reg_loop fuel objid (link_of k) (top k) m = Some (Some (link_of k', top k')) /\
    plug k' L = plug k t /\ after k' = [].
Proof.
  revert k t. induction fuel as [|fuel IH]; intros k t H Hf Hp Hlt Ha; [lia|].
  cbn [reg_loop]. rewrite (get_link_zip _ _ _ _ H). cbn [mbind option_bind].
  destruct t as [|c l a r]; [by exists k|].
  destruct (zip_ptr _ _ _ _ H) as (Hn & _); [done|]. rewrite (eqb_false _ _ Hn). cbn [ptr inorder height] in *.
  apply Forall_app in Hp as [_ [[o Ho] Hp]%Forall_cons]. apply Forall_app in Hlt as [_ [Hka Hlt]%Forall_cons].
  rewrite Ho. cbn [mbind option_bind]. rewrite <- (objid_of_some _ _ Ho).
  rewrite (proj2 (Z.ltb_ge _ _)), (proj2 (Z.ltb_lt _ _)) by lia.
  apply (zip_open _ Rt c a r l k F) in H. destruct (IH _ _ H) as (k' & E & Ep & Ea); [lia | done.. |].
  exists k'. split_and!; [exact E | exact Ep | exact Ea].
Qed.
End walks.

(** ** The operations on the list of live objects *)

Lemma sorted_ext {A} (f g : A -> Z) l : (forall a, a ∈ l -> f a = g a) ->
  StronglySorted (fun a b => f a < f b) l -> StronglySorted (fun a b => g a < g b) l.
Proof.
  intros E. induction 1 as [|a l H IH Ha]; constructor.
  - apply IH. intros b Hb. apply E. by right.
  - rewrite Forall_forall in Ha. apply Forall_forall. intros b Hb. rewrite <- !E; [by apply Ha | by right | by left].
Qed.

(** Distinct positive ids: no more objects than ids given out. *)
Lemma sorted_length (f : Z -> Z) l lo hi :
  StronglySorted (fun a b => f a < f b) l -> Forall (fun a => lo < f a <= hi) l -> lo <= hi -> zlen l <= hi - lo.
Proof.
  unfold zlen. intros H. revert lo. induction H as [|a l H IH Ha]; intros lo Hf Hlo; simpl; [lia|].
  apply Forall_cons in Hf as [Hfa Hf]. specialize (IH (f a)). enough (Z.of_nat (length l) <= hi - f a) by lia.
  apply IH; [|lia]. rewrite Forall_forall in Hf, Ha. apply Forall_forall. intros b Hb.
  specialize (Hf b Hb). specialize (Ha b Hb). simpl in *. lia.
Qed.

Lemma rb_seq_addr o F s : rb_seq o F s -> NoDup (o ++ (caddr <$> F)) /\ Forall (fun a => a <> 0 /\ a mod 4 = 0) (o ++ (caddr <$> F)).
Proof.
  intros (T & [[Hn [Hc _]] _] & <-). cbn [layc top app] in *. rewrite fmap_app, caddr_lay in Hn. split; [done|].
  assert (Forall (fun a => a <> 0 /\ a mod 4 = 0) (caddr <$> lay 0 T ++ F)) as Ha.
  { apply Forall_fmap. eapply Forall_impl; [exact Hc|]. intros [a r l p c] (H1 & H2 & _). done. }
  by rewrite fmap_app, caddr_lay in Ha.
Qed.

(** [rb_init_node] on a node outside the tree. *)
Lemma rb_init_node_ok o x F s :
  rb_seq o (x :: F) s -> wp (rb_init_node (caddr x) s) (rb_seq o (Cell (caddr x) 0 0 (caddr x) Red :: F)).
Proof.
  intros (T & [H HT] & Ho). destruct x as [a r l p c]. zsimpl H. unfold rb_init_node, RB_CLEAR_NODE. cbn [caddr].
  change (set_parent_color 0) with (set_parent_color (0 + bit Red)).
  hwrite. hwrite. hwrite. hwrite. exists T. split; [|done]. split; [exact Hh | done].
Qed.

Lemma find_id_in m ids a : StronglySorted (fun a b => objid_of m a < objid_of m b) ids -> a ∈ ids ->
  find_id m (objid_of m a) ids = a.
Proof.
  intros Hs Ha. apply list_elem_of_split in Ha as (l1 & l2 & ->). apply sorted_app in Hs as (_ & _ & H).
  unfold find_id. rewrite find_app_id, find_none; [simpl; by rewrite Z.eqb_refl|].
  intros b Hb. specialize (H b a Hb ltac:(by left)). simpl in H. lia.
Qed.

Section steps.
Context (fuel : nat) (m : hmgr) (ids : list Z) (F : list cell).
Context (Hl : live m ids F) (Hmax : _g_objindex m < 2 ^ 31).
Context (Hf : (2 * Nat.log2 (S (length ids)) < fuel)%nat).

Lemma live_ids a : a ∈ ids -> 0 < objid_of m a <= _g_objindex m.
Proof.
  destruct Hl as (_ & _ & H & _). rewrite Forall_forall in H. intros Ha.
  destruct (H a Ha) as (o & E & _ & Hid). by rewrite (objid_of_some _ _ _ E).
Qed.

Lemma search_live objid : 0 <= objid < 2 ^ 31 -> _search_handle fuel objid m = Some (find_id m objid ids).
Proof.
  intros Hid. destruct (Hl) as ((T & [H [n HT]] & Ho) & Hs & Hp & Hn & _). unfold _search_handle. rewrite Hn.
  pose proof (rbt_height_log _ _ HT) as Hh. rewrite Ho in Hh.
  destruct (Z.ltb_spec (zlen ids) 1) as [Hz|Hz].
  - destruct ids; [done|]. unfold zlen in Hz. simpl in Hz. lia.
  - rewrite (zip_root _ _ _ H), (search_loop_ok m objid Hid fuel (ptr T) 0 T F); rewrite ?Ho; try done; [lia | |].
    + eapply Forall_impl; [exact Hp|]. intros a (o & -> & _). by eexists.
    + apply Forall_forall. intros a Ha. pose proof (live_ids a Ha). lia.
Qed.

Lemma search_zero : _search_handle fuel 0 m = Some 0.
Proof.
  rewrite search_live by lia. unfold find_id. rewrite find_none; [done|].
  intros a Ha. pose proof (live_ids a Ha). lia.
Qed.

Lemma search_self a : a ∈ ids -> _search_handle fuel (objid_of m a) m = Some a.
Proof.
  intros Ha. pose proof (live_ids a Ha). rewrite search_live by lia.
  destruct Hl as (_ & Hs & _). by rewrite find_id_in.
Qed.
End steps.

Lemma tryto_done m : _g_is_init m <> 0 -> _tryto_init_handle_mgr m = m.
Proof. intros H. unfold _tryto_init_handle_mgr. by rewrite eqb_false. Qed.

(** Changing an object that is not in the list keeps the ids of those that are. *)
Lemma objid_set_ne m m' a o b : hobjs m' = <[a := o]> (hobjs m) -> a <> b -> objid_of m' b = objid_of m b.
Proof. intros E Hab. unfold objid_of. by rewrite E, lookup_insert_ne. Qed.
Lemma objid_set_eq m m' a o : hobjs m' = <[a := o]> (hobjs m) -> objid_of m' a = __objid o.
Proof. intros E. unfold objid_of. by rewrite E, lookup_insert_eq. Qed.

Lemma reg_live fuel m ids x F o :
  live m ids (x :: F) -> hobjs m !! caddr x = Some o -> _g_objindex m + 1 < 2 ^ 31 ->
  (2 * Nat.log2 (S (length ids)) < fuel)%nat ->
  wp (nd_reg_handle fuel (caddr x) m)
     (fun '(m', ret) => ret = 0 /\ live m' (ids ++ [caddr x]) F /\ _g_objindex m' = _g_objindex m + 1 /\
        hobjs m' = <[caddr x := mk_hobj 1 (_g_objindex m + 1) (h_type o)]> (hobjs m)).
Proof.
  intros Hl Ho Hmax Hf. pose proof (live_ids m ids _ Hl) as Hids.
  destruct (Hl) as (Hseq & Hs & Hp & Hn & Hi & H1).
  destruct (rb_seq_addr _ _ _ Hseq) as [Hnd Hok]. rewrite fmap_cons in Hnd, Hok.
  apply NoDup_app in Hnd as (_ & Hout & _). apply Forall_app in Hok as [_ [[Ha _] _]%Forall_cons].
  assert (caddr x ∉ ids) as Hx by (intros Hin; apply (Hout _ Hin); by left).
  assert (zlen ids <= _g_objindex m - 0) as Hlen.
  { apply (sorted_length (objid_of m)); [done | | lia]. apply Forall_forall. intros a Hin. by apply Hids. }
  unfold nd_reg_handle. rewrite (eqb_false _ _ Ha), (tryto_done m Hi), Ho. cbn [mbind option_bind].
  eapply wp_bind; [exact (rb_init_node_ok _ _ _ _ Hseq)|]. intros t Ht. cbv beta in Ht.
  change (2 ^ 31) with 2147483648 in *.
  assert (s32 (_g_objindex m + 1) = _g_objindex m + 1) as -> by (apply wraps_small; lia).
  assert (u32 (_g_objindex m + 1) = _g_objindex m + 1) as -> by (apply wrapu_small; lia).
  set (a := caddr x) in *. set (i := _g_objindex m + 1) in *.
  set (m1 := set_counts i (_g_handle_num m) (set_tree t (set_obj a (mk_hobj 1 i (h_type o)) m))).
  assert (hobjs m1 = <[a := mk_hobj 1 i (h_type o)]> (hobjs m)) as E1 by done.
  assert (forall b, b ∈ ids -> objid_of m1 b = objid_of m b) as Ek.
  { intros b Hb. apply (objid_set_ne _ _ _ _ _ E1). by intros ->. }
  destruct Ht as (T & [HT [n Hrb]] & ET).
  pose proof (rbt_height_log _ _ Hrb) as Hh. rewrite ET in Hh.
  destruct (reg_loop_last m1 i fuel [] T (Cell a 0 0 a Red :: F)) as (k & Eloop & Epl & Eaf); [exact HT | lia | | | done | ].
  { rewrite ET. apply Forall_forall. intros b Hb. rewrite E1. destruct (decide (b = a)) as [->|Hba].
    - rewrite lookup_insert_eq. by eexists.
    - rewrite lookup_insert_ne by done. rewrite Forall_forall in Hp. destruct (Hp b Hb) as (ob & -> & _). by eexists. }
  { rewrite ET. apply Forall_forall. intros b Hb. rewrite Ek by done. specialize (Hids b Hb). lia. }
  cbn [link_of top] in Eloop. rewrite Eloop. cbn [mbind option_bind].
  apply wp_assoc. eapply wp_bind.
  { eapply (rb_insert_ok fuel t k a 0 0 a Red F); [rewrite Epl; split; eauto|].
    pose proof (length_plug k L) as Hk. rewrite Epl in Hk. cbn [plug] in Hk. lia. }
  intros t' Ht'. apply wp_ret. cbn beta iota. rewrite Eaf in Ht'.
  assert (before k = ids) as Ebk.
  { assert (inorder (plug k L) = before k) as <- by (rewrite inorder_plug, Eaf; simpl; by rewrite app_nil_r).
    by rewrite Epl. }
  rewrite Ebk in Ht'.
  set (m2 := set_counts _ _ _). assert (forall b, objid_of m2 b = objid_of m1 b) as E2 by done.
  split_and!; [done | | done | done]. unfold live. split_and!; [exact Ht' | | | | exact Hi | simpl; lia].
  - apply sorted_app. split_and!.
    + eapply (sorted_ext (objid_of m)); [|exact Hs]. intros b Hb. by rewrite E2, Ek.
    + by repeat constructor.
    + intros b c Hb Hc. apply list_elem_of_singleton in Hc. subst c.
      rewrite !E2, Ek by done. rewrite (objid_set_eq _ _ _ _ E1). specialize (Hids b Hb). simpl. lia.
  - apply Forall_app. split.
    + apply Forall_forall. intros b Hb. rewrite Forall_forall in Hp. destruct (Hp b Hb) as (ob & Eb & Hc & Hi').
      exists ob. simpl. rewrite lookup_insert_ne by (intros ->; done). split_and!; try done; lia.
    + repeat constructor. exists (mk_hobj 1 i (h_type o)). simpl. rewrite lookup_insert_eq. split_and!; simpl; try done; lia.
  - simpl. rewrite Hn. unfold zlen in *. rewrite length_app. simpl. rewrite wraps_small; lia.
Qed.

Lemma unreg_live fuel m o1 a o2 F o :
  live m (o1 ++ a :: o2) F -> hobjs m !! a = Some o -> _g_objindex m < 2 ^ 31 ->
  (2 * Nat.log2 (S (length (o1 ++ a :: o2))) < fuel)%nat ->
  wp (nd_unreg_handle fuel a m)
     (fun '(m', ret) => ret = 0 /\ (exists x, caddr x = a /\ live m' (o1 ++ o2) (x :: F)) /\
        _g_objindex m' = _g_objindex m /\ hobjs m' = <[a := mk_hobj 0 0 (h_type o)]> (hobjs m)).
Proof.
  intros Hl Ho Hmax Hf. pose proof (live_ids m _ _ Hl) as Hids. destruct (Hl) as (Hseq & Hs & Hp & Hn & Hi & H1).
  assert (a ∈ o1 ++ a :: o2) as Hin by set_solver.
  destruct (rb_seq_addr _ _ _ Hseq) as [Hnd Hok].
  apply NoDup_app in Hnd as (Hnd & _ & _). apply Forall_app in Hok as [Hok _].
  apply Forall_app in Hok as [_ [[Ha _] _]%Forall_cons].
  assert (forall b, b ∈ o1 ++ o2 -> b <> a /\ b ∈ o1 ++ a :: o2) as Hne.
  { intros b Hb. apply NoDup_app in Hnd as (_ & Hd & Hnd). apply NoDup_cons in Hnd as [Hnd _].
    apply elem_of_app in Hb as [Hb|Hb]; (split; [|set_solver]); intros ->; [apply (Hd a Hb) | apply Hnd]; set_solver. }
  assert (zlen (o1 ++ a :: o2) <= _g_objindex m - 0) as Hlen.
  { apply (sorted_length (objid_of m)); [done | | lia]. apply Forall_forall. intros b Hb. by apply Hids. }
  unfold nd_unreg_handle. rewrite (eqb_false _ _ Ha), Ho. cbn [mbind option_bind].
  rewrite <- (objid_of_some _ _ _ Ho), (search_self fuel m _ _ Hl Hmax Hf a Hin). cbn [mbind option_bind].
  rewrite (eqb_false _ _ Ha).
  destruct Hseq as (T & HT & ET). destruct (HT) as [_ [n Hrb]]. pose proof (rbt_height_log _ _ Hrb) as Hh. rewrite ET in Hh.
  eapply wp_bind; [apply (rb_erase_ok fuel _ T o1 a o2 F HT ET); lia|].
  intros t (x & Hx & Ht). subst a. eapply wp_bind; [exact (rb_init_node_ok _ _ _ _ Ht)|].
  intros t' Ht'. apply wp_ret. set (a := caddr x) in *. split_and!; [done | | done | simpl; by rewrite insert_insert_eq].
  exists (Cell a 0 0 a Red). split; [done|]. set (m2 := set_obj _ _ _).
  assert (hobjs m2 = <[a := mk_hobj 0 0 (h_type o)]> (hobjs m)) as E2 by (simpl; by rewrite insert_insert_eq).
  assert (forall b, b ∈ o1 ++ o2 -> objid_of m2 b = objid_of m b) as Ek.
  { intros b Hb. apply (objid_set_ne _ _ _ _ _ E2). destruct (Hne b Hb). congruence. }
  unfold live. split_and!; [exact Ht' | | | | exact Hi | exact H1].
  - eapply (sorted_ext (objid_of m)); [intros b Hb; by rewrite Ek|].
    apply sorted_app in Hs as (Hs1 & Hs2 & Hs3). apply StronglySorted_inv in Hs2 as [Hs2 _].
    apply sorted_app. split_and!; [done..|]. intros b c Hb Hc. apply Hs3; [done | by right].
  - apply Forall_forall. intros b Hb. destruct (Hne b Hb) as [Hba Hb']. rewrite Forall_forall in Hp.
    destruct (Hp b Hb') as (ob & Eb & Hob). exists ob. rewrite E2, lookup_insert_ne by congruence. done.
  - simpl. rewrite Hn. unfold zlen in *. rewrite !length_app in *. simpl in *.
    change (2 ^ 31) with 2147483648 in *. rewrite wraps_small; lia.
Qed.

(** An object that is not registered has the id 0 and is not found. *)
Lemma unreg_absent fuel m ids F a o :
  live m ids F -> hobjs m !! a = Some o -> __objid o = 0 -> _g_objindex m < 2 ^ 31 ->
  (2 * Nat.log2 (S (length ids)) < fuel)%nat -> nd_unreg_handle fuel a m = Some (m, -1).
Proof.
  intros Hl Ho Hid Hmax Hf. unfold nd_unreg_handle. destruct (a =? 0); [done|].
  rewrite Ho. cbn [mbind option_bind]. by rewrite Hid, (search_zero fuel m ids F).
Qed.

Lemma checkvalid_live fuel m ids F a o ty :
  live m ids F -> hobjs m !! a = Some o -> (a ∈ ids \/ a <> 0 /\ __objid o = 0) -> _g_objindex m < 2 ^ 31 ->
  (2 * Nat.log2 (S (length ids)) < fuel)%nat ->
  nd_handle_checkvalid fuel a ty m = Some (if bool_decide (a ∈ ids) && (h_type o =? ty) then 1 else 0).
Proof.
  intros Hl Ho Hcase Hmax Hf. unfold nd_handle_checkvalid. pose proof (live_ids m ids F Hl) as Hids.
  destruct (Hl) as (Hseq & _ & Hp & _). destruct Hcase as [Hin | [Ha Hid]].
  - destruct (rb_seq_addr _ _ _ Hseq) as [_ Hok]. apply Forall_app in Hok as [Hok _].
    rewrite Forall_forall in Hok, Hp. destruct (Hok a Hin) as [Ha _].
    rewrite (eqb_false _ _ Ha), Ho. cbn [mbind option_bind].
    rewrite <- (objid_of_some _ _ _ Ho), (search_self fuel m _ _ Hl Hmax Hf a Hin). cbn [mbind option_bind].
    rewrite (eqb_false _ _ Ha), Ho. cbn [mbind option_bind].
    destruct (Hp a Hin) as (o' & Ho' & Hc & Hi). rewrite Ho in Ho'. injection Ho' as <-.
    rewrite bool_decide_eq_true_2 by done. rewrite Hc. rewrite (eqb_false (__objid o)) by lia.
    change (2 ^ 31) with 2147483648 in *. rewrite wrapu_small by lia.
    rewrite (proj2 (Z.ltb_ge _ _)) by lia. simpl. by destruct (h_type o =? ty).
  - rewrite (eqb_false _ _ Ha), Ho. cbn [mbind option_bind]. rewrite Hid, (search_zero fuel m ids F) by done.
    cbn [mbind option_bind]. rewrite Z.eqb_refl. rewrite bool_decide_eq_false_2; [done|].
    intros Hin. specialize (Hids a Hin). rewrite (objid_of_some _ _ _ Ho) in Hids. lia.
Qed.

(** ** Refinement: the registry is the list of its live objects *)

Inductive hop := HReg (a : Z) | HUnreg (a : Z) | HValid (a ty : Z).

Definition hop_run (fuel : nat) (op : hop) (m : hmgr) : option (hmgr * Z) :=
  match op with
  | HReg a => nd_reg_handle fuel a m
  | HUnreg a => nd_unreg_handle fuel a m
  | HValid a ty => r ← nd_handle_checkvalid fuel a ty m; Some (m, r)
  end.
Fixpoint hops_run (fuel : nat) (ops : list hop) (m : hmgr) : option (hmgr * list Z) :=
  match ops with
  | [] => Some (m, [])
  | op :: ops => '(m, r) ← hop_run fuel op m; '(m, rs) ← hops_run fuel ops m; Some (m, r :: rs)
  end.

(** The specification: the objects that are registered, in order; [ty] gives their types. *)
Definition hspec (ty : Z -> Z) (op : hop) (ids : list Z) : list Z * Z :=
  match op with
  | HReg a => (ids ++ [a], 0)
  | HUnreg a => if bool_decide (a ∈ ids) then (filter (fun b => b <> a) ids, 0) else (ids, -1)
  | HValid a t => (ids, if bool_decide (a ∈ ids) && (ty a =? t) then 1 else 0)
  end.
Fixpoint hspecs (ty : Z -> Z) (ops : list hop) (ids : list Z) : list Z * list Z :=
  match ops with
  | [] => (ids, [])
  | op :: ops => let '(ids, r) := hspec ty op ids in let '(ids, rs) := hspecs ty ops ids in (ids, r :: rs)
  end.

(** The caller's side: only objects of [U], and no object is registered twice. *)
Definition hop_ok (U ids : list Z) (op : hop) : Prop :=
  match op with
  | HReg a => a ∈ U /\ a ∉ ids
  | HUnreg a => a ∈ U
  | HValid a _ => a ∈ U
  end.
Fixpoint hops_ok (U : list Z) (ty : Z -> Z) (ids : list Z) (ops : list hop) : Prop :=
  match ops with [] => True | op :: ops => hop_ok U ids op /\ hops_ok U ty (fst (hspec ty op ids)) ops end.

(** The registry over the objects [U]. *)
Definition registry (U : list Z) (ty : Z -> Z) (m : hmgr) (ids : list Z) : Prop :=
  (_g_is_init m = 0 -> _g_handle_num m = 0) /\
  exists F, live (_tryto_init_handle_mgr m) ids F /\ ids ++ (caddr <$> F) ≡ₚ U /\
    Forall (fun a => exists o, hobjs m !! a = Some o /\ h_type o = ty a) U /\
    Forall (fun a => objid_of m a = 0) (caddr <$> F).

Lemma live_perm m ids F F' : F ≡ₚ F' -> live m ids F -> live m ids F'.
Proof. intros E ((T & [H HT] & Ho) & Hr). split; [|exact Hr]. exists T. split; [|done]. split; [by eapply zip_frame | done]. Qed.

Lemma filter_out (a : Z) (l : list Z) : a ∉ l -> filter (fun b => b <> a) l = l.
Proof.
  induction l as [|b l IH]; intros H; [done|]. apply not_elem_of_cons in H as [Hb Hl].
  rewrite filter_cons_True by congruence. by rewrite IH.
Qed.

Lemma tryto_idem m : _tryto_init_handle_mgr (_tryto_init_handle_mgr m) = _tryto_init_handle_mgr m.
Proof. unfold _tryto_init_handle_mgr at 2 3. destruct (Z.eqb_spec (_g_is_init m) 0) as [E|E]; [done | by apply tryto_done]. Qed.
Lemma tryto_init m : _g_is_init (_tryto_init_handle_mgr m) <> 0.
Proof. unfold _tryto_init_handle_mgr. destruct (Z.eqb_spec (_g_is_init m) 0); [done | assumption]. Qed.
Lemma tryto_objs m : hobjs (_tryto_init_handle_mgr m) = hobjs m.
Proof. unfold _tryto_init_handle_mgr. by destruct (_g_is_init m =? 0). Qed.
Lemma reg_tryto fuel a m : nd_reg_handle fuel a m = nd_reg_handle fuel a (_tryto_init_handle_mgr m) \/ a = 0.
Proof. unfold nd_reg_handle. destruct (Z.eqb_spec a 0); [by right | left]. by rewrite tryto_idem. Qed.

Lemma registry_split U ty m ids a : registry U ty m ids -> a ∈ U -> a ∉ ids ->
  exists x F, caddr x = a /\ live (_tryto_init_handle_mgr m) ids (x :: F) /\ ids ++ a :: (caddr <$> F) ≡ₚ U /\
    objid_of m a = 0 /\ Forall (fun a => objid_of m a = 0) (caddr <$> F).
Proof.
  intros (_ & F & Hl & HU & _ & Hz) Ha Hn. rewrite <- HU in Ha. apply elem_of_app in Ha as [Ha|Ha]; [done|].
  apply list_elem_of_fmap in Ha as (x & -> & Hx). apply list_elem_of_split in Hx as (F1 & F2 & ->).
  assert (F1 ++ x :: F2 ≡ₚ x :: F1 ++ F2) as E by solve_Permutation.
  exists x, (F1 ++ F2). rewrite E in HU, Hz. apply Forall_cons in Hz as [Hz Hz']. split_and!; try done.
  by eapply live_perm.
Qed.

Section refine.
Context (U : list Z) (ty : Z -> Z) (fuel : nat) (m : hmgr) (ids : list Z).
Context (H : registry U ty m ids) (Hmax : _g_objindex (_tryto_init_handle_mgr m) + 1 < 2 ^ 31).
Context (Hf : (2 * Nat.log2 (S (length U)) < fuel)%nat).

Lemma registry_fuel : (2 * Nat.log2 (S (length ids)) < fuel)%nat.
Proof.
  destruct H as (_ & F & _ & HU & _). rewrite <- HU, length_app in Hf.
  pose proof (Nat.log2_le_mono (S (length ids)) (S (length ids + length (caddr <$> F)))). lia.
Qed.

Lemma registry_obj a : a ∈ U -> exists o, hobjs m !! a = Some o /\ h_type o = ty a.
Proof. destruct H as (_ & F & _ & _ & Ho & _). rewrite Forall_forall in Ho. apply Ho. Qed.

Lemma registry_nonzero a : a ∈ U -> a <> 0.
Proof.
  destruct H as (_ & F & (Hs & _) & HU & _). rewrite <- HU. intros Ha.
  destruct (rb_seq_addr _ _ _ Hs) as [_ Hok]. rewrite Forall_forall in Hok. by apply Hok.
Qed.

(** Before the first registration nothing is live and the search stops at the count. *)
Lemma registry_uninit : _g_is_init m = 0 -> ids = [] /\ forall objid, _search_handle fuel objid m = Some 0.
Proof.
  intros E. destruct H as (Hn & F & Hl & _). destruct Hl as (_ & _ & _ & Hnum & _).
  unfold _tryto_init_handle_mgr in Hnum. rewrite E in Hnum. simpl in Hnum. split.
  - destruct ids; [done|]. unfold zlen in Hnum. simpl in Hnum. lia.
  - intros objid. unfold _search_handle. by rewrite (Hn E).
Qed.

(** The state after an operation on [a], which gets the object [o]. *)
Lemma registry_after m' ids' F' a o :
  live m' ids' F' -> ids' ++ (caddr <$> F') ≡ₚ U -> a ∈ U ->
  hobjs m' = <[a := o]> (hobjs m) -> h_type o = ty a ->
  Forall (fun b => b = a /\ __objid o = 0 \/ b <> a /\ objid_of m b = 0) (caddr <$> F') ->
  registry U ty m' ids'.
Proof.
  intros Hl HU Ha E Ho HF. destruct (Hl) as (_ & _ & _ & _ & Hi & _).
  split; [by intros ?|]. exists F'. rewrite tryto_done by done. split_and!; [done | done | |].
  - apply Forall_forall. intros b Hb. rewrite E. destruct (decide (b = a)) as [->|Hba].
    + rewrite lookup_insert_eq. eauto.
    + rewrite lookup_insert_ne by done. by apply registry_obj.
  - eapply Forall_impl; [exact HF|]. intros b [[-> Hz]|[Hb Hz]].
    + by rewrite (objid_set_eq _ _ _ _ E).
    + by rewrite (objid_set_ne _ _ _ _ _ E) by done.
Qed.

Lemma hreg_refines a : hop_ok U ids (HReg a) ->
  wp (nd_reg_handle fuel a m)
     (fun '(m', r) => r = 0 /\ registry U ty m' (ids ++ [a]) /\
        _g_objindex (_tryto_init_handle_mgr m') <= _g_objindex (_tryto_init_handle_mgr m) + 1).
Proof.
  intros [Ha Hn]. pose proof registry_fuel as Hfuel.
  destruct (reg_tryto fuel a m) as [-> | ->]; [|by destruct (registry_nonzero 0 Ha)].
  destruct (registry_split _ _ _ _ _ H Ha Hn) as (x & F & <- & Hl & HU & _ & Hz).
  destruct (registry_obj _ Ha) as (o & Ho & Hty).
  assert (hobjs (_tryto_init_handle_mgr m) !! caddr x = Some o) as Ho' by by rewrite tryto_objs.
  eapply wp_mono; [exact (reg_live _ _ _ _ _ _ Hl Ho' Hmax Hfuel)|].
  intros [m' r] (-> & Hl' & Hi & Eo). rewrite tryto_objs in Eo. split_and!; [done | |].
  - eapply registry_after; [exact Hl' | | exact Ha | exact Eo | done |].
    + rewrite <- HU. solve_Permutation.
    + destruct Hl as (Hs & _). destruct (rb_seq_addr _ _ _ Hs) as [Hnd _]. rewrite fmap_cons in Hnd.
      apply NoDup_app in Hnd as (_ & _ & Hnd). apply NoDup_cons in Hnd as [Hnd _].
      rewrite Forall_forall in Hz. apply Forall_forall. intros b Hb. right. split; [intros ->; done | by apply Hz].
  - rewrite tryto_done by apply Hl'. lia.
Qed.

Lemma hunreg_refines a : hop_ok U ids (HUnreg a) ->
  wp (nd_unreg_handle fuel a m)
     (fun '(m', r) => r = snd (hspec ty (HUnreg a) ids) /\ registry U ty m' (fst (hspec ty (HUnreg a) ids)) /\
        _g_objindex (_tryto_init_handle_mgr m') <= _g_objindex (_tryto_init_handle_mgr m) + 1).
Proof.
  intros Ha. pose proof registry_fuel as Hfuel. simpl in Ha. pose proof (registry_nonzero _ Ha) as Ha0.
  destruct (registry_obj _ Ha) as (o & Ho & Hty). cbn [hspec].
  destruct (Z.eq_dec (_g_is_init m) 0) as [Ei|Ei].
  { destruct (registry_uninit Ei) as [-> Hs]. exists (m, -1). split; [|by split_and!; [| |lia]].
    unfold nd_unreg_handle. rewrite (eqb_false _ _ Ha0), Ho. cbn [mbind option_bind]. by rewrite Hs. }
  case_bool_decide as Hin; cbn [fst snd].
  - destruct (H) as (_ & F & Hl & HU & _ & Hz). rewrite tryto_done in Hl by done.
    apply list_elem_of_split in Hin as (o1 & o2 & E).
    assert ((a ∉ o1 ++ o2) /\ forall b, b ∈ caddr <$> F -> b <> a) as [Hout HaF].
    { destruct Hl as (Hs & _). destruct (rb_seq_addr _ _ _ Hs) as [Hnd _]. rewrite E in Hnd.
      assert ((o1 ++ a :: o2) ++ (caddr <$> F) ≡ₚ a :: (o1 ++ o2) ++ (caddr <$> F)) as Ep by solve_Permutation.
      rewrite Ep in Hnd. apply NoDup_cons in Hnd as [Hnd _]. split; [set_solver|]. intros b Hb ->. set_solver. }
    assert (filter (fun b => b <> a) ids = o1 ++ o2) as ->.
    { rewrite E, filter_app, filter_cons_False by tauto. rewrite !filter_out; [done | set_solver..]. }
    rewrite E in Hl, Hfuel. rewrite tryto_done in Hmax by done.
    eapply wp_mono; [eapply (unreg_live fuel m o1 a o2 F o Hl Ho); [lia | exact Hfuel]|].
    intros [m' r] (-> & (x & Hx & Hl') & Hi & Eo). split_and!; [done | |].
    + eapply registry_after; [exact Hl' | | exact Ha | exact Eo | done |].
      * rewrite <- HU, E, fmap_cons, Hx. solve_Permutation.
      * rewrite fmap_cons, Hx. apply Forall_cons. split; [by left|]. rewrite Forall_forall in Hz.
        apply Forall_forall. intros b Hb. right. split; [by apply HaF | by apply Hz].
    + rewrite !tryto_done by (done || apply Hl'). lia.
  - destruct (registry_split _ _ _ _ _ H Ha Hin) as (x & F & <- & Hl & _ & Hz & _). rewrite tryto_done in Hl, Hmax by done.
    exists (m, -1). split; [|by split_and!; [| |lia]].
    eapply (unreg_absent fuel m ids _ _ o Hl Ho); [by rewrite <- (objid_of_some _ _ _ Ho) | lia | done].
Qed.

Lemma hvalid_refines a t : hop_ok U ids (HValid a t) ->
  nd_handle_checkvalid fuel a t m = Some (snd (hspec ty (HValid a t) ids)).
Proof.
  intros Ha. pose proof registry_fuel as Hfuel. simpl in Ha. pose proof (registry_nonzero _ Ha) as Ha0.
  destruct (registry_obj _ Ha) as (o & Ho & Hty). cbn [hspec snd]. rewrite <- Hty.
  destruct (Z.eq_dec (_g_is_init m) 0) as [Ei|Ei].
  { destruct (registry_uninit Ei) as [-> Hs]. unfold nd_handle_checkvalid.
    rewrite (eqb_false _ _ Ha0), Ho. cbn [mbind option_bind]. by rewrite Hs. }
  destruct (H) as (_ & F & Hl & _). rewrite tryto_done in Hl, Hmax by done.
  eapply (checkvalid_live fuel m ids F a o t Hl Ho); [|lia | done].
  destruct (decide (a ∈ ids)) as [Hin|Hin]; [by left | right].
  destruct (registry_split _ _ _ _ _ H Ha Hin) as (x & F' & _ & _ & _ & Hz & _).
  by rewrite <- (objid_of_some _ _ _ Ho).
Qed.
End refine.

(** C19: as long as the ids stay below 2^31 ([_g_objindex] and the number of operations;
    [far_ids_lost] shows what happens beyond), the registry refines the list of registered
    objects: a sequence of registrations, removals and validity checks on objects of [U]
    that registers no object while it is live ([hops_ok]) returns what the list says - a
    removal of an object that is not live is refused, a check is 1 exactly for a live
    object of the asked type - and leaves the registry of the new list; every loop ends
    within 2 log2 (|U|+1) + 1 rounds. *)
Theorem registry_refines U ty fuel ops m ids :
  registry U ty m ids -> hops_ok U ty ids ops ->
  _g_objindex (_tryto_init_handle_mgr m) + zlen ops < 2 ^ 31 ->
  (2 * Nat.log2 (S (length U)) < fuel)%nat ->
  wp (hops_run fuel ops m)
     (fun '(m', rs) => rs = snd (hspecs ty ops ids) /\ registry U ty m' (fst (hspecs ty ops ids))).
Proof.
  revert m ids. induction ops as [|op ops IH]; intros m ids H Hok Hmax Hf; [by apply wp_ret|].
  destruct Hok as [Ho Hok]. unfold zlen in *. cbn [length] in Hmax.
  assert (wp (hop_run fuel op m) (fun '(m', r) => r = snd (hspec ty op ids) /\ registry U ty m' (fst (hspec ty op ids)) /\
      _g_objindex (_tryto_init_handle_mgr m') <= _g_objindex (_tryto_init_handle_mgr m) + 1)) as W.
  { destruct op as [a|a|a t]; cbn [hop_run].
    - by apply hreg_refines; [done | lia | done..].
    - by apply hunreg_refines; [done | lia | done..].
    - rewrite (hvalid_refines U ty fuel m ids H ltac:(lia) Hf a t Ho). apply wp_ret. split_and!; [done..|lia]. }
  cbn [hops_run hspecs]. eapply wp_bind; [exact W|]. intros [m1 r] (-> & H1 & Hi).
  destruct (hspec ty op ids) as [ids1 r1]. cbn [fst snd] in *.
  eapply wp_bind; [apply (IH m1 ids1); [done | done | lia | done]|].
  intros [m2 rs] (-> & H2). apply wp_ret. by destruct (hspecs ty ops ids1).
Qed.

(** ** Witness *)

Definition wit_mgr : hmgr :=
  mk_hmgr (list_to_map [(8, mk_hobj 0 0 3); (16, mk_hobj 0 0 4)])
    (mk_rbs (list_to_map [(8, mk_rb 0 0 0); (16, mk_rb 0 0 0)]) 0) 0 1 0.
Definition wit_ty (a : Z) : Z := if a =? 8 then 3 else 4.

Lemma wit_mgr_ok : registry [8; 16] wit_ty wit_mgr [].
Proof.
  split; [done|]. exists [Cell 8 0 0 0 Red; Cell 16 0 0 0 Red]. split_and!.
  - unfold live. split_and!; [| apply SSorted_nil | by apply Forall_nil | done..].
    exists L. split; [|done]. split; [concrete_heap | by exists 0%nat; constructor].
  - done.
  - repeat constructor; eexists; split; vm_compute; reflexivity.
  - repeat constructor; vm_compute; reflexivity.
Qed.

Lemma registry_refines_witness :
  wp (hops_run 9 [HReg 8; HReg 16; HUnreg 8; HValid 16 4; HValid 8 3; HUnreg 8] wit_mgr)
     (fun '(m', rs) => rs = [0; 0; 0; 1; 0; -1] /\ registry [8; 16] wit_ty m' [16]).
Proof.
  apply (registry_refines [8; 16] wit_ty 9 [HReg 8; HReg 16; HUnreg 8; HValid 16 4; HValid 8 3; HUnreg 8] wit_mgr []
           wit_mgr_ok).
  - cbn -[elem_of]. split_and!; set_solver.
  - vm_compute. reflexivity.
  - apply Nat.ltb_lt. vm_compute. reflexivity.
Defined.

(** Ids 2^31 or more apart: the search takes the difference for negative and goes the wrong way,
    so an object just registered is not valid and cannot be unregistered. *)
Definition wit_old : hmgr :=
  mk_hmgr (list_to_map [(8, mk_hobj 1 2 3); (16, mk_hobj 0 0 4)])
    (mk_rbs (list_to_map [(8, mk_rb 0 0 1); (16, mk_rb 0 0 16)]) 8) 1 (- 2 ^ 31 + 3) 1.
Lemma far_ids_lost :
  ('(m, r) ← nd_reg_handle 9 16 wit_old;
   v ← nd_handle_checkvalid 9 16 4 m;
   '(m, u) ← nd_unreg_handle 9 16 m;
   v' ← nd_handle_checkvalid 9 8 3 m;
   Some [r; v; u; v']) = Some [0; 0; -1; 1].
Proof. vm_compute. reflexivity. Qed.
