(* ===== verification/MemChunk.v ===== *)
(** * MemChunk: the sub-allocators of the memory pool (nd_mempool.c)

    A sub-allocator hands out blocks of one memory region: from its free lists (64 of little
    sizes, multiples of 16; 64 of big sizes, multiples of 1024), or from the range
    [start, end).  Every block begins with its size word; a free block keeps the next
    block of its list in its second word.

    The memory is its 8-byte words by address; an access outside the mapped words is
    [None].  size_t is 64 bits wide. *)

From S2P Require Import Prelude.

(** ** Sizes *)

Definition _ND_ALINE (size aline : Z) : Z := Z.land (u64 (size + aline - 1)) (Z.lnot (aline - 1)).

Definition MIN_SIZE : Z := 16.
Definition ALIGN_SIZE : Z := 16.
Definition SIZE_ALINE (s : Z) : Z := Z.max (_ND_ALINE s ALIGN_SIZE) MIN_SIZE.
Definition BIG_SIZE : Z := 0x400.
Definition LITTLE_CHUNK_NUM : Z := BIG_SIZE / ALIGN_SIZE - MIN_SIZE / ALIGN_SIZE + 1.
Definition CHUNK_INDEX (size : Z) : Z := size / ALIGN_SIZE - MIN_SIZE / ALIGN_SIZE.
Definition GET_LITTLE_SIZE (index : Z) : Z := (index + 1) * ALIGN_SIZE + MIN_SIZE - ALIGN_SIZE.
Definition LITTLE_ROUND_LOWWER (size : Z) : Z := Z.land size (Z.lnot (ALIGN_SIZE - 1)).
Definition BIG_CHUNK_NUM : Z := 64.
Definition BIG_ALINE (size : Z) : Z := Z.max (_ND_ALINE size BIG_SIZE) BIG_SIZE.
Definition BIG_INDEX (size : Z) : Z := size / BIG_SIZE - 1.
Definition GET_BIG_SIZE (index : Z) : Z := (index + 1) * BIG_SIZE.
Definition BIG_ROUND_LOWWER (size : Z) : Z := Z.land size (Z.lnot (BIG_SIZE - 1)).
Definition ALLOCATOR_PAGE_BITMASK : Z := 0xFFF.
Definition ALLOC_NODE_SIZE : Z := 8.     (* sizeof(struct alloc_node) *)

(** ** State *)

Abbreviation words := (gmap Z Z).
Definition wload (a : Z) (m : words) : option Z := m !! a.
Definition wstore (a v : Z) (m : words) : option words :=
  match m !! a with Some _ => Some (<[a := v]> m) | None => None end.

(** [nd_sub_allocator]; [parent] and [self_list] belong to the pool. *)
Record nd_sub_allocator := mk_sub {
  sub_addr : Z;                 (* where the structure is *)
  sub_size : Z;
  sub_allocated_size : Z;
  sub_start : Z;
  sub_end : Z;
  big_list : list Z;
  free_littles : list Z
}.
Definition SUB_ALLOCATOR_SIZE : Z := 1088.   (* sizeof(nd_sub_allocator) *)

Definition set_range (s e : Z) (p : nd_sub_allocator) : nd_sub_allocator :=
  mk_sub (sub_addr p) (sub_size p) (sub_allocated_size p) s e (big_list p) (free_littles p).
Definition set_allocated (n : Z) (p : nd_sub_allocator) : nd_sub_allocator :=
  mk_sub (sub_addr p) (sub_size p) n (sub_start p) (sub_end p) (big_list p) (free_littles p).
Definition set_big (i : nat) (v : Z) (p : nd_sub_allocator) : nd_sub_allocator :=
  mk_sub (sub_addr p) (sub_size p) (sub_allocated_size p) (sub_start p) (sub_end p) (<[i := v]> (big_list p)) (free_littles p).
Definition set_little (i : nat) (v : Z) (p : nd_sub_allocator) : nd_sub_allocator :=
  mk_sub (sub_addr p) (sub_size p) (sub_allocated_size p) (sub_start p) (sub_end p) (big_list p) (<[i := v]> (free_littles p)).

Definition sub_mem : Type := nd_sub_allocator * words.

Definition __adjust_freeaddr '((p, m) : sub_mem) : option sub_mem :=
  let free_size := sub_end p - sub_start p in
  if negb (free_size =? 0) then m ← wstore (sub_start p) (Z.lor free_size 1) m; Some (p, m)
  else Some (p, m).

Definition __sub_allocator_init (addr size : Z) (m : words) : option sub_mem :=
  __adjust_freeaddr (mk_sub addr (u32 size) 0 (addr + SUB_ALLOCATOR_SIZE) (addr + size)
                       (replicate 64 0) (replicate 64 0), m).

Definition _get_max_free_chunk (p : nd_sub_allocator) : Z := sub_end p - sub_start p.

(** ** Free lists *)

Definition pool_add_free (insert_node : Z) '((p, m) : sub_mem) : option sub_mem :=
  w ← wload insert_node m;
  let size := Z.land w (Z.lnot 3) in
  m ← wstore insert_node (Z.lor w 1) m;
  if BIG_SIZE <=? size then
    let index := Z.to_nat (BIG_INDEX (BIG_ROUND_LOWWER size)) in
    next ← big_list p !! index;
    m ← wstore (insert_node + 8) next m;
    Some (set_big index insert_node p, m)
  else
    let index := Z.to_nat (CHUNK_INDEX (LITTLE_ROUND_LOWWER size)) in
    next ← free_littles p !! index;
    m ← wstore (insert_node + 8) next m;
    Some (set_little index insert_node p, m).

Definition add_freeto_list '((p, m) : sub_mem) : option sub_mem :=
  let free_size := sub_end p - sub_start p in
  '(p, m, free_size) ←
    (if BIG_SIZE <? free_size then
       let size := BIG_ROUND_LOWWER free_size in
       m ← wstore (sub_start p) size m;
       '(p, m) ← pool_add_free (sub_start p) (p, m);
       Some (set_range (sub_start p + size) (sub_end p) p, m, free_size - size)
     else Some (p, m, free_size));
  '(p, m) ←
    (if MIN_SIZE <=? free_size then
       m ← wstore (sub_start p) free_size m;
       pool_add_free (sub_start p) (p, m)
     else Some (p, m));
  Some (set_range (sub_end p) (sub_end p) p, m).

(** [for (i = n-1; i >= 0; i--)]: a size below [min_size] ends the search, a list that is not empty is found. *)
Inductive scan := TooSmall | Found (i : nat) | Exhausted.
Fixpoint find_loop (i : nat) (get_size : Z -> Z) (l : list Z) (min_size : Z) : option scan :=
  match i with
  | O => Some Exhausted
  | S i =>
      if get_size (Z.of_nat i) <? min_size then Some TooSmall
      else h ← l !! i; if negb (h =? 0) then Some (Found i) else find_loop i get_size l min_size
  end.

Definition _find_free_chunk (min_size : Z) '((p, m) : sub_mem) : option (sub_mem * Z) :=
  big ← find_loop (Z.to_nat BIG_CHUNK_NUM) GET_BIG_SIZE (big_list p) min_size;
  match big with
  | TooSmall => Some ((p, m), 0)
  | Found i =>
      alloc_chunk ← big_list p !! i;
      next ← wload (alloc_chunk + 8) m;
      Some ((set_big i next p, m), alloc_chunk)
  | Exhausted =>
      if min_size <? BIG_SIZE then
        little ← find_loop (Z.to_nat LITTLE_CHUNK_NUM) GET_LITTLE_SIZE (free_littles p) min_size;
        match little with
        | Found i =>
            alloc_chunk ← free_littles p !! i;
            next ← wload (alloc_chunk + 8) m;
            Some ((set_little i next p, m), alloc_chunk)
        | _ => Some ((p, m), 0)
        end
      else Some ((p, m), 0)
  end.

(** ** The size word of a block in use: the page of its allocator and the index of its size *)

Definition __alloc_addr_size2index (alloc_addr : Z) '((p, m) : sub_mem) : option words :=
  size ← wload alloc_addr m;
  let index := Z.land (sub_addr p) (Z.lnot ALLOCATOR_PAGE_BITMASK) in
  let size := if BIG_SIZE <=? size then Z.lor (Z.shiftl (BIG_INDEX size) 3) 4 else Z.shiftl (CHUNK_INDEX size) 3 in
  wstore alloc_addr (Z.lor index (Z.land size ALLOCATOR_PAGE_BITMASK)) m.

Definition index_size (w : Z) : Z :=
  let size := Z.shiftr (Z.land w ALLOCATOR_PAGE_BITMASK) 3 in
  if negb (Z.land w 4 =? 0) then GET_BIG_SIZE size else GET_LITTLE_SIZE size.
(** The page of the allocator, and the size written back. *)
Definition __index2_alloc_size (alloc_addr : Z) (m : words) : option (words * Z) :=
  w ← wload alloc_addr m;
  m ← wstore alloc_addr (index_size w) m;
  Some (m, Z.land w (Z.lnot ALLOCATOR_PAGE_BITMASK)).
Definition __get_real_size (alloc_addr : Z) (m : words) : option Z :=
  w ← wload alloc_addr m; Some (index_size w).

(** ** Allocation and release *)

Definition __allocator_alloc (alloc_size : Z) '((p, m) : sub_mem) : option (sub_mem * Z) :=
  let alloc_size := u64 (alloc_size + ALLOC_NODE_SIZE) in
  let size := SIZE_ALINE alloc_size in
  let big := BIG_SIZE <=? size in
  let size := if big then BIG_ALINE alloc_size else size in
  let index := Z.to_nat (if big then BIG_INDEX size else CHUNK_INDEX size) in
  head ← (if big then big_list p else free_littles p) !! index;
  if negb (head =? 0) then
    next ← wload (head + 8) m;
    let p := if big then set_big index next p else set_little index next p in
    w ← wload head m;
    m ← wstore head (Z.land w (Z.lnot 1)) m;
    Some ((p, m), head)
  else
    let free_size := sub_end p - sub_start p in
    '(p, m, ok) ←
      (if free_size <? size then
         '((p, m), chunk) ← _find_free_chunk size (p, m);
         if negb (chunk =? 0) then
           '(p, m) ← (if MIN_SIZE <=? free_size then add_freeto_list (p, m) else Some (p, m));
           w ← wload chunk m;
           let w := Z.land w (Z.lnot 3) in
           m ← wstore chunk w m;
           Some (set_range chunk (w + chunk) p, m, true)
         else Some (p, m, false)
       else Some (p, m, true));
    if negb ok then Some ((p, m), 0)
    else
      m ← wstore (sub_start p) size m;
      Some ((set_range (sub_start p + size) (sub_end p) p, m), sub_start p).

Definition __allocator_free (chunk : Z) '((p, m) : sub_mem) : option sub_mem :=
  w ← wload chunk m;
  let size := Z.land w (Z.lnot (ALIGN_SIZE - 1)) in
  if chunk + size =? sub_start p then Some (set_range chunk (sub_end p) p, m)
  else
    let free_size := sub_end p - sub_start p in
    if free_size =? 0 then Some (set_range chunk (chunk + size) p, m)
    else if free_size + 3 <? w then
      '(p, m) ← add_freeto_list (p, m);
      Some (set_range chunk (chunk + size) p, m)
    else pool_add_free chunk (p, m).

Definition nd_allocator_alloc (alloc_size : Z) (pm : sub_mem) : option (sub_mem * Z) :=
  '((p, m), node) ← __allocator_alloc alloc_size pm;
  if negb (node =? 0) then
    size ← wload node m;
    let p := set_allocated (u64 (sub_allocated_size p + u32 size)) p in
    m ← __alloc_addr_size2index node (p, m);
    pm ← __adjust_freeaddr (p, m);
    Some (pm, node + ALLOC_NODE_SIZE)
  else Some ((p, m), 0).

Definition nd_allocator_free (free_addr : Z) '((p, m) : sub_mem) : option (sub_mem * Z) :=
  w ← wload free_addr m;
  let p := set_allocated (u64 (sub_allocated_size p - Z.land w (Z.lnot 3))) p in
  pm ← __allocator_free free_addr (p, m);
  '(p, m) ← __adjust_freeaddr pm;
  Some ((p, m), if sub_allocated_size p =? 0 then 0 else 1).

(** The size of the block a request gets. *)
Definition SYS_PAGE_SIZE : Z := 4096.
Definition MIN_PAGE_SIZE : Z := 65536.
Definition PAGE_ALINE (s : Z) : Z := Z.max (_ND_ALINE s SYS_PAGE_SIZE) MIN_PAGE_SIZE.
Definition DIRECT_ALLOC_SIZE : Z := MIN_PAGE_SIZE - SYS_PAGE_SIZE.
Definition __get_need_size (user_size : Z) : Z :=
  let user_size := u64 (user_size + ALLOC_NODE_SIZE) in
  if DIRECT_ALLOC_SIZE <? user_size then PAGE_ALINE user_size
  else
    let user_size := SIZE_ALINE user_size in
    if BIG_SIZE <=? user_size then BIG_ALINE user_size else user_size.

(** [_walk_trunk]: the blocks the callback is called on. *)
Fixpoint _walk_trunk (fuel : nat) (header end_ : Z) (m : words) : option (list (Z * Z)) :=
  match fuel with
  | O => None
  | S fuel =>
      if header <? end_ then
        w ← wload header m;
        let free := negb (Z.land w 1 =? 0) in
        let size := if free then Z.land w (Z.lnot 3) else index_size w in
        rest ← _walk_trunk fuel (header + size) end_ m;
        Some (if free then rest else (header + ALLOC_NODE_SIZE, size) :: rest)
      else Some []
  end.

(** ** Size arithmetic *)

Lemma land_lnot_pow2 x k : 0 <= k -> Z.land x (Z.lnot (2 ^ k - 1)) = x / 2 ^ k * 2 ^ k.
Proof.
  intros Hk. replace (2 ^ k - 1) with (Z.ones k) by (rewrite Z.ones_equiv; lia).
  by rewrite <- Z.ldiff_land, Z.ldiff_ones_r, Z.shiftl_mul_pow2, Z.shiftr_div_pow2 by lia.
Qed.

Lemma aline_eq s k : 0 <= k < 64 -> 0 <= s -> s + 2 ^ k - 1 < 2 ^ 64 -> _ND_ALINE s (2 ^ k) = (s + 2 ^ k - 1) / 2 ^ k * 2 ^ k.
Proof.
  intros Hk Hs Hm. unfold _ND_ALINE. rewrite wrapu_small, land_lnot_pow2 by (pose proof (Z.pow_pos_nonneg 2 k); lia). done.
Qed.

Lemma aline16 s : 0 <= s < 2 ^ 63 -> _ND_ALINE s 16 = (s + 15) / 16 * 16.
Proof. intros Hs. pose proof (aline_eq s 4) as E. change (2 ^ 4) with 16 in E. rewrite E by lia. do 2 f_equal. lia. Qed.
Lemma aline1024 s : 0 <= s < 2 ^ 63 -> _ND_ALINE s 1024 = (s + 1023) / 1024 * 1024.
Proof. intros Hs. pose proof (aline_eq s 10) as E. change (2 ^ 10) with 1024 in E. rewrite E by lia. do 2 f_equal. lia. Qed.

Lemma round16 n : LITTLE_ROUND_LOWWER n = n / 16 * 16.
Proof. apply (land_lnot_pow2 n 4). lia. Qed.
Lemma round1024 n : BIG_ROUND_LOWWER n = n / 1024 * 1024.
Proof. apply (land_lnot_pow2 n 10). lia. Qed.

Section flags.
Context (n : Z) (Hn : n mod 16 = 0).
Lemma flag_or : Z.lor n 1 = n + 1.
Proof.
  pose proof (Z_div_mod_eq_full n 16). replace n with ((n / 16 * 8) * 2 ^ 1) by lia. apply lor_add; lia.
Qed.
Lemma flag_or' : Z.lor (n + 1) 1 = n + 1.
Proof. rewrite <- flag_or, <- Z.lor_assoc. done. Qed.
Lemma mask3 b : 0 <= b < 4 -> Z.land (n + b) (Z.lnot 3) = n.
Proof.
  intros Hb. change 3 with (2 ^ 2 - 1). rewrite land_lnot_pow2 by lia. change (2 ^ 2) with 4.
  pose proof (Z_div_mod_eq_full n 16). rewrite <- (Z.div_unique_pos (n + b) 4 (n / 16 * 4) b); lia.
Qed.
Lemma mask30 : Z.land n (Z.lnot 3) = n.
Proof. pose proof (mask3 0 ltac:(lia)) as E. by rewrite Z.add_0_r in E. Qed.
Lemma mask1 : Z.land (n + 1) (Z.lnot 1) = n.
Proof.
  change 1 with (2 ^ 1 - 1) at 2. rewrite land_lnot_pow2 by lia. change (2 ^ 1) with 2.
  pose proof (Z_div_mod_eq_full n 16). rewrite <- (Z.div_unique_pos (n + 1) 2 (n / 16 * 8) 1); lia.
Qed.
Lemma mask15 : Z.land n (Z.lnot (ALIGN_SIZE - 1)) = n.
Proof.
  unfold ALIGN_SIZE. change (16 - 1) with (2 ^ 4 - 1). rewrite land_lnot_pow2 by lia. change (2 ^ 4) with 16.
  pose proof (Z_div_mod_eq_full n 16). lia.
Qed.
Lemma flag_bit : Z.land (n + 1) 1 = 1.
Proof.
  change 1 with (Z.ones 1) at 2. rewrite Z.land_ones by lia. change (2 ^ 1) with 2.
  pose proof (Z_div_mod_eq_full n 16). rewrite <- (Z.mod_unique_pos (n + 1) 2 (n / 16 * 8) 1); lia.
Qed.
End flags.

(** The sizes blocks have. *)
Definition class_ok (n : Z) : Prop := n mod 16 = 0 /\ 16 <= n /\ (n < 1024 \/ n mod 1024 = 0) /\ n <= 61440.

Definition enc (addr n : Z) : Z :=
  Z.lor (Z.land addr (Z.lnot ALLOCATOR_PAGE_BITMASK))
    (Z.land (if BIG_SIZE <=? n then Z.lor (Z.shiftl (BIG_INDEX n) 3) 4 else Z.shiftl (CHUNK_INDEX n) 3) ALLOCATOR_PAGE_BITMASK).

Lemma enc_parts addr n : class_ok n -> exists q i, 0 <= i < 64 /\
  enc addr n = q * 4096 + (i * 8 + (if BIG_SIZE <=? n then 4 else 0)) /\
  q * 4096 = Z.land addr (Z.lnot ALLOCATOR_PAGE_BITMASK) /\ n = (if BIG_SIZE <=? n then GET_BIG_SIZE i else GET_LITTLE_SIZE i).
Proof.
  intros (H16 & Hmin & Hc & Hmax). unfold enc, BIG_INDEX, CHUNK_INDEX, GET_BIG_SIZE, GET_LITTLE_SIZE, BIG_SIZE, ALIGN_SIZE, MIN_SIZE in *.
  change ALLOCATOR_PAGE_BITMASK with (2 ^ 12 - 1). rewrite land_lnot_pow2 by lia.
  exists (addr / 2 ^ 12). destruct (Z.leb_spec 0x400 n) as [Hb|Hb].
  - exists (n / 1024 - 1). pose proof (Z_div_mod_eq_full n 1024) as Hd. change 0x400 with 1024 in *.
    destruct Hc as [Hc|Hc]; [lia|]. split_and!; try lia.
    rewrite Z.shiftl_mul_pow2, (lor_add 3) by lia. change (2 ^ 12 - 1) with (Z.ones 12).
    rewrite Z.land_ones, Z.mod_small, lor_add by lia. lia.
  - exists (n / 16 - 1). pose proof (Z_div_mod_eq_full n 16). split_and!; try lia.
    change (16 / 16) with 1. rewrite Z.shiftl_mul_pow2 by lia. change (2 ^ 12 - 1) with (Z.ones 12).
    rewrite Z.land_ones, (Z.mod_small ((n / 16 - 1) * 2 ^ 3)), lor_add by lia. lia.
Qed.

Lemma enc_size addr n : class_ok n -> index_size (enc addr n) = n.
Proof.
  intros Hn. destruct (enc_parts addr n Hn) as (q & i & Hi & -> & _ & En). unfold index_size.
  set (b := if BIG_SIZE <=? n then 4 else 0). assert (b = 0 \/ b = 4) as Hb by (unfold b; destruct (BIG_SIZE <=? n); auto).
  change ALLOCATOR_PAGE_BITMASK with (Z.ones 12). rewrite Z.land_ones by lia. change (2 ^ 12) with 4096.
  rewrite <- (Z.mod_unique_pos (q * 4096 + (i * 8 + b)) 4096 q (i * 8 + b)) by lia.
  rewrite Z.shiftr_div_pow2 by lia. change (2 ^ 3) with 8. rewrite <- (Z.div_unique_pos (i * 8 + b) 8 i b) by lia.
  assert (negb (Z.land (q * 4096 + (i * 8 + b)) 4 =? 0) = (BIG_SIZE <=? n)) as ->.
  { replace (q * 4096 + (i * 8 + b)) with ((q * 512 + i) * 2 ^ 3 + b) by lia.
    assert (forall x, Z.land (x * 2 ^ 3 + b) 4 = b) as ->.
    { intros x. rewrite <- lor_add by lia. rewrite Z.land_lor_distr_l.
      replace (Z.land (x * 2 ^ 3) 4) with 0; [by destruct Hb as [-> | ->]|].
      symmetry. apply Z.bits_inj'. intros j Hj. rewrite Z.land_spec, Z.bits_0.
      destruct (Z.lt_ge_cases j 3); [by rewrite Z.mul_pow2_bits_low by lia|].
      replace (Z.testbit 4 j) with false; [apply andb_false_r|]. symmetry. apply Z.bits_above_log2; simpl; lia. }
    unfold b. by destruct (BIG_SIZE <=? n). }
  symmetry. rewrite En at 1. by destruct (BIG_SIZE <=? n).
Qed.

Lemma enc_mod4 addr n : class_ok n -> enc addr n mod 4 = 0.
Proof.
  intros Hn. destruct (enc_parts addr n Hn) as (q & i & Hi & -> & _ & _).
  symmetry. apply (Z.mod_unique_pos _ 4 (q * 1024 + i * 2 + (if BIG_SIZE <=? n then 1 else 0))); destruct (BIG_SIZE <=? n); lia.
Qed.
Lemma enc_bit addr n k : class_ok n -> k = 1 \/ k = 2 -> Z.land (enc addr n) k = 0.
Proof.
  intros Hn Hk. pose proof (enc_mod4 addr n Hn) as Hm. replace k with (Z.land 3 k) by (destruct Hk as [-> | ->]; done).
  rewrite Z.land_assoc. change 3 with (Z.ones 2). rewrite Z.land_ones by lia. change (2 ^ 2) with 4. by rewrite Hm.
Qed.
Lemma enc_page addr n : class_ok n -> Z.land (enc addr n) (Z.lnot ALLOCATOR_PAGE_BITMASK) = Z.land addr (Z.lnot ALLOCATOR_PAGE_BITMASK).
Proof.
  intros Hn. destruct (enc_parts addr n Hn) as (q & i & Hi & -> & <- & _).
  change ALLOCATOR_PAGE_BITMASK with (2 ^ 12 - 1). rewrite land_lnot_pow2 by lia. change (2 ^ 12) with 4096.
  rewrite <- (Z.div_unique_pos _ 4096 q (i * 8 + (if BIG_SIZE <=? n then 4 else 0))); [done | destruct (BIG_SIZE <=? n); lia | lia].
Qed.

(** ** Blocks that tile a region *)

Definition block : Type := Z * Z.

Fixpoint contig (lo hi : Z) (tl : list block) : Prop :=
  match tl with [] => lo = hi | (a, n) :: tl => a = lo /\ contig (lo + n) hi tl end.

Definition ok_size '((a, n) : block) : Prop := n mod 16 = 0 /\ 16 <= n.

(** The blocks [bs], in some order, cover [lo, hi) without gaps or overlaps. *)
Definition tiled (lo hi : Z) (bs : list block) : Prop :=
  exists tl, contig lo hi tl /\ tl ≡ₚ bs /\ Forall ok_size tl.

Lemma contig_app lo hi l1 l2 : contig lo hi (l1 ++ l2) <-> exists mid, contig lo mid l1 /\ contig mid hi l2.
Proof.
  revert lo. induction l1 as [|[a n] l1 IH]; intros lo; simpl; [naive_solver|].
  rewrite IH. naive_solver.
Qed.

Lemma contig_bounds lo hi tl a n : contig lo hi tl -> Forall ok_size tl -> (a, n) ∈ tl -> lo <= a /\ a + n <= hi.
Proof.
  revert lo. induction tl as [|[b k] tl IH]; intros lo H Hok Hin; [by apply not_elem_of_nil in Hin|].
  destruct H as [-> H]. apply Forall_cons in Hok as [[_ Hk] Hok].
  assert (lo + k <= hi) as Hle.
  { clear -H Hok. revert H. generalize (lo + k). induction tl as [|[b n] tl IH]; intros x H; simpl in H; [lia|].
    apply Forall_cons in Hok as [[_ Hn] Hok]. destruct H as [-> H]. specialize (IH Hok _ H). lia. }
  apply elem_of_cons in Hin as [[= -> ->]|Hin]; [lia|]. specialize (IH _ H Hok Hin). lia.
Qed.

Lemma tiled_perm lo hi bs bs' : bs ≡ₚ bs' -> tiled lo hi bs -> tiled lo hi bs'.
Proof. intros E (tl & H1 & H2 & H3). exists tl. by rewrite <- E. Qed.

#[export] Instance tiled_proper lo hi : Proper ((≡ₚ) ==> iff) (tiled lo hi).
Proof. intros bs bs' E. split; apply tiled_perm; [done | by symmetry]. Qed.

Lemma tiled_in lo hi bs a n : tiled lo hi bs -> (a, n) ∈ bs -> lo <= a /\ a + n <= hi /\ n mod 16 = 0 /\ 16 <= n.
Proof.
  intros (tl & H1 & H2 & H3) Hin. rewrite <- H2 in Hin. destruct (contig_bounds _ _ _ _ _ H1 H3 Hin).
  rewrite Forall_forall in H3. by destruct (H3 _ Hin).
Qed.

(** A block and the others. *)
Lemma tiled_cons lo hi a n bs : tiled lo hi ((a, n) :: bs) <-> exists l1 l2,
  contig lo a l1 /\ contig (a + n) hi l2 /\ l1 ++ l2 ≡ₚ bs /\ Forall ok_size (l1 ++ l2) /\ ok_size (a, n).
Proof.
  split.
  - intros (tl & H1 & H2 & H3). assert ((a, n) ∈ tl) as Hin by (rewrite H2; by left).
    apply list_elem_of_split in Hin as (l1 & l2 & ->). apply contig_app in H1 as (mid & H1 & -> & H4).
    exists l1, l2. split_and!; try done.
    + rewrite <- Permutation_middle in H2. by apply Permutation_cons_inv in H2.
    + apply Forall_app in H3 as [Ha Hb]. apply Forall_cons in Hb as [_ Hb]. by apply Forall_app.
    + apply Forall_app in H3 as [_ Hb]. by apply Forall_cons in Hb as [? _].
  - intros (l1 & l2 & H1 & H2 & H3 & H4 & H5). exists (l1 ++ (a, n) :: l2). split_and!.
    + apply contig_app. exists a. by split.
    + by rewrite <- Permutation_middle, H3.
    + apply Forall_app in H4 as [Ha Hb]. apply Forall_app. split; [done | by constructor].
Qed.

Lemma tiled_disj lo hi a n b k bs : tiled lo hi ((a, n) :: bs) -> (b, k) ∈ bs -> a + n <= b \/ b + k <= a.
Proof.
  intros (l1 & l2 & H1 & H2 & H3 & H4 & _)%tiled_cons Hin. apply Forall_app in H4 as [Ha Hb].
  rewrite <- H3 in Hin. apply elem_of_app in Hin as [Hin|Hin].
  - right. by eapply contig_bounds in Hin as [_ ?].
  - left. by eapply contig_bounds in Hin as [? _].
Qed.

Lemma tiled_split lo hi a n k bs : n mod 16 = 0 -> 16 <= n -> k mod 16 = 0 -> 16 <= k ->
  tiled lo hi ((a, n + k) :: bs) -> tiled lo hi ((a, n) :: (a + n, k) :: bs).
Proof.
  intros Hn Hn' Hk Hk' (l1 & l2 & H1 & H2 & H3 & H4 & _)%tiled_cons. apply tiled_cons.
  exists l1, ((a + n, k) :: l2). split_and!; try done.
  - split; [done|]. by rewrite <- Z.add_assoc.
  - by rewrite <- Permutation_middle, H3.
  - apply Forall_app in H4 as [Ha Hb]. apply Forall_app. split; [done | by constructor].
Qed.

Lemma tiled_join lo hi a n k bs :
  tiled lo hi ((a, n) :: (a + n, k) :: bs) -> tiled lo hi ((a, n + k) :: bs).
Proof.
  intros H. destruct (tiled_in _ _ _ (a + n) k H) as (_ & _ & Hk & Hk'); [by right; left|].
  apply tiled_cons in H as (l1 & l2 & H1 & H2 & H3 & H4 & Hn & Hn').
  assert ((a + n, k) ∈ l1 ++ l2) as Hin by (rewrite H3; by left).
  assert (exists l2', l2 = (a + n, k) :: l2') as (l2' & ->).
  { apply Forall_app in H4 as [Ha Hb]. apply elem_of_app in Hin as [Hin|Hin].
    - eapply contig_bounds in Hin as [? ?]; [|done..]. lia.
    - destruct l2 as [|[b j] l2']; [by apply not_elem_of_nil in Hin|]. destruct H2 as [-> H2].
      apply elem_of_cons in Hin as [[= ->]|Hin]; [by eexists|].
      apply Forall_cons in Hb as [[_ Hj] Hb]. eapply contig_bounds in Hin as [? ?]; [|done..]. lia. }
  destruct H2 as [_ H2]. apply Forall_app in H4 as [Ha [_ Hb]%Forall_cons]. apply tiled_cons.
  exists l1, l2'. rewrite Z.add_assoc. split_and!; try done.
  - rewrite <- Permutation_middle in H3. by apply Permutation_cons_inv in H3.
  - apply Forall_app. done.
  - split; [by rewrite Z.add_mod, Hn, Hk by lia | lia].
Qed.

(** ** Memory *)

Definition mapped (lo hi : Z) (m : words) : Prop := forall x, lo <= x < hi -> x mod 8 = 0 -> is_Some (m !! x).

(** Only words of the block at [a] have changed. *)
Definition writes (a n : Z) (m m' : words) : Prop :=
  (forall x, x < a \/ a + n <= x -> m' !! x = m !! x) /\ (forall x, is_Some (m !! x) -> is_Some (m' !! x)).

Definition same_on (bs : list block) (m m' : words) : Prop :=
  forall a n x, (a, n) ∈ bs -> a <= x < a + n -> m' !! x = m !! x.

Definition disj (a n : Z) (bs : list block) : Prop := forall b k, (b, k) ∈ bs -> a + n <= b \/ b + k <= a.

Lemma writes_refl a n m : writes a n m m.
Proof. done. Qed.
Lemma writes_trans a n m1 m2 m3 : writes a n m1 m2 -> writes a n m2 m3 -> writes a n m1 m3.
Proof. intros [H1 H1'] [H2 H2']. split; [intros x Hx; by rewrite H2, H1 | auto]. Qed.
Lemma writes_sub a n b k m m' : b <= a -> a + n <= b + k -> writes a n m m' -> writes b k m m'.
Proof. intros Hb Hk [H1 H2]. split; [intros x Hx; apply H1; lia | done]. Qed.
Lemma writes_same a n m m' bs : writes a n m m' -> disj a n bs -> same_on bs m m'.
Proof. intros [H _] Hd b k x Hb Hx. apply H. specialize (Hd b k Hb). lia. Qed.
Lemma writes_insert a n x v m : a <= x < a + n -> is_Some (m !! x) -> writes a n m (<[x := v]> m).
Proof.
  intros Hx Hm. split; intros y Hy.
  - apply lookup_insert_ne. lia.
  - destruct (decide (y = x)) as [->|]; [rewrite lookup_insert_eq; eauto | by rewrite lookup_insert_ne].
Qed.
Lemma writes_mapped a n lo hi m m' : writes a n m m' -> mapped lo hi m -> mapped lo hi m'.
Proof. intros [_ H] Hm x Hx Hx8. by apply H, Hm. Qed.

Lemma wstore_ok a v m : is_Some (m !! a) -> wstore a v m = Some (<[a := v]> m).
Proof. intros [w Hw]. unfold wstore. by rewrite Hw. Qed.

Lemma disj_tiled lo hi a n bs : tiled lo hi ((a, n) :: bs) -> disj a n bs.
Proof. intros H b k Hb. by eapply tiled_disj. Qed.
Lemma disj_app a n bs bs' : disj a n (bs ++ bs') <-> disj a n bs /\ disj a n bs'.
Proof.
  unfold disj. split; [intros H; split; intros b k Hb; apply H; set_solver | intros [H1 H2] b k Hb].
  apply elem_of_app in Hb as [Hb|Hb]; [by apply H1 | by apply H2].
Qed.

Lemma same_on_trans bs m1 m2 m3 : same_on bs m1 m2 -> same_on bs m2 m3 -> same_on bs m1 m3.
Proof. intros H1 H2 a n x Ha Hx. by rewrite (H2 a n x), (H1 a n x). Qed.
Lemma same_on_app bs bs' m m' : same_on (bs ++ bs') m m' <-> same_on bs m m' /\ same_on bs' m m'.
Proof.
  unfold same_on. split; [intros H; split; intros a n x Ha; apply (H a n x); set_solver | intros [H1 H2] a n x Ha Hx].
  apply elem_of_app in Ha as [Ha|Ha]; [by apply (H1 a n) | by apply (H2 a n)].
Qed.
#[export] Instance same_on_proper : Proper ((≡ₚ) ==> eq ==> eq ==> iff) same_on.
Proof. intros bs bs' E m ? <- m' ? <-. unfold same_on. setoid_rewrite E. done. Qed.
#[export] Instance disj_proper a n : Proper ((≡ₚ) ==> iff) (disj a n).
Proof. intros bs bs' E. unfold disj. by setoid_rewrite E. Qed.

Lemma writes_tiled lo hi a n R m m' : tiled lo hi ((a, n) :: R) -> writes a n m m' -> same_on R m m'.
Proof. intros Ht W. eapply writes_same; [exact W|]. by eapply disj_tiled. Qed.
