(* ===== verification/MemSub.v ===== *)
(** * MemSub: the operations of a sub-allocator (nd_mempool.c)

    The definitions are in [MemChunk].  Here: the free lists as lists of blocks, the
    invariant of a sub-allocator (its region is tiled by the blocks in use, the free blocks
    and the range [start, end)), allocation, release, initialisation and the walk. *)

From Stdlib Require Import Sorted.
From stdpp Require Import functions.
From S2P Require Import Prelude MemChunk.

(** ** The free lists *)

Definition csize (k : nat) : Z :=
  if (k <? 64)%nat then GET_LITTLE_SIZE (Z.of_nat k) else GET_BIG_SIZE (Z.of_nat k - 64).
Definition head_of (p : nd_sub_allocator) (k : nat) : option Z :=
  if (k <? 64)%nat then free_littles p !! k else big_list p !! (k - 64)%nat.
Definition kidx (n : Z) : nat :=
  if BIG_SIZE <=? n then (64 + Z.to_nat (BIG_INDEX n))%nat else Z.to_nat (CHUNK_INDEX n).

Definition frees (fl : nat -> list Z) : list block :=
  List.concat (List.map (fun k => (fun a => (a, csize k)) <$> fl k) (List.seq 0 128)).

(** The list from [h] of the free blocks [l] of [n] bytes. *)
Fixpoint chain (m : words) (n h : Z) (l : list Z) : Prop :=
  match l with
  | [] => h = 0
  | a :: l => h = a /\ a <> 0 /\ m !! a = Some (n + 1) /\ exists next, m !! (a + 8) = Some next /\ chain m n next l
  end.

Definition free_ok (p : nd_sub_allocator) (m : words) (fl : nat -> list Z) : Prop :=
  forall k, (k < 128)%nat -> exists h, head_of p k = Some h /\ (k = 63%nat -> h = 0) /\ chain m (csize k) h (fl k).

Lemma csize_ge k : 16 <= csize k.
Proof.
  unfold csize, GET_LITTLE_SIZE, GET_BIG_SIZE, ALIGN_SIZE, MIN_SIZE, BIG_SIZE.
  destruct (Nat.ltb_spec k 64); lia.
Qed.

Lemma kidx_ok n : class_ok n -> (kidx n < 128)%nat /\ csize (kidx n) = n /\ kidx n <> 63%nat.
Proof.
  intros (H16 & Hm & Hc & Hx). unfold kidx, csize, BIG_INDEX, CHUNK_INDEX, GET_LITTLE_SIZE, GET_BIG_SIZE, ALIGN_SIZE, MIN_SIZE, BIG_SIZE.
  change 0x400 with 1024. pose proof (Z_div_mod_eq_full n 1024). pose proof (Z_div_mod_eq_full n 16). change (16 / 16) with 1.
  destruct (Z.leb_spec 1024 n).
  - destruct Hc as [Hc|Hc]; [lia|]. split_and!; [lia | | lia]. destruct (Nat.ltb_spec (64 + Z.to_nat (n / 1024 - 1)) 64); lia.
  - split_and!; [lia | | lia]. destruct (Nat.ltb_spec (Z.to_nat (n / 16 - 1)) 64); lia.
Qed.

Lemma frees_in fl k a : (k < 128)%nat -> a ∈ fl k -> (a, csize k) ∈ frees fl.
Proof.
  intros Hk Ha. unfold frees. apply list_elem_of_In, in_concat.
  exists ((fun a => (a, csize k)) <$> fl k). split.
  - apply in_map_iff. exists k. split; [done|]. apply in_seq. lia.
  - apply list_elem_of_In, list_elem_of_fmap. by exists a.
Qed.

Lemma frees_insert_gen (fl : nat -> list Z) k (l : list Z) s n : ~ (s <= k < s + n)%nat ->
  List.concat (List.map (fun j => (fun a => (a, csize j)) <$> (<[k := l]> fl) j) (List.seq s n)) =
  List.concat (List.map (fun j => (fun a => (a, csize j)) <$> fl j) (List.seq s n)).
Proof.
  revert s. induction n as [|n IH]; intros s Hk; simpl; [done|].
  rewrite fn_lookup_insert_ne by lia. rewrite IH by lia. done.
Qed.

Lemma frees_split fl k : (k < 128)%nat -> exists R, forall l, frees (<[k := l]> fl) ≡ₚ ((fun a => (a, csize k)) <$> l) ++ R.
Proof.
  intros Hk. unfold frees.
  exists (List.concat (List.map (fun j => (fun a => (a, csize j)) <$> fl j) (List.seq 0 k)) ++
          List.concat (List.map (fun j => (fun a => (a, csize j)) <$> fl j) (List.seq (S k) (127 - k)))).
  intros l. replace 128%nat with (k + S (127 - k))%nat by lia. rewrite List.seq_app, List.map_app, List.concat_app.
  simpl. rewrite fn_lookup_insert, !frees_insert_gen by lia. solve_Permutation.
Qed.

Lemma frees_id fl k : frees (<[k := fl k]> fl) = frees fl.
Proof.
  unfold frees. f_equal. apply List.map_ext. intros j. by destruct (decide (j = k)) as [->|Hj];
    rewrite ?fn_lookup_insert, ?fn_lookup_insert_ne by done.
Qed.

Lemma frees_push fl k a : (k < 128)%nat -> frees (<[k := a :: fl k]> fl) ≡ₚ (a, csize k) :: frees fl.
Proof. intros Hk. destruct (frees_split fl k Hk) as [R HR]. by rewrite HR, <- (frees_id fl k), HR. Qed.
Lemma frees_pop fl k a l : (k < 128)%nat -> fl k = a :: l -> frees fl ≡ₚ (a, csize k) :: frees (<[k := l]> fl).
Proof. intros Hk E. destruct (frees_split fl k Hk) as [R HR]. by rewrite <- (frees_id fl k), E, !HR. Qed.

Lemma chain_same m m' n h l : (forall a, a ∈ l -> m' !! a = m !! a /\ m' !! (a + 8) = m !! (a + 8)) ->
  chain m n h l -> chain m' n h l.
Proof.
  revert h. induction l as [|a l IH]; intros h E; simpl; [done|].
  intros (-> & Ha & Hw & next & Hn & Hc). destruct (E a) as [E1 E2]; [by left|]. rewrite E1, E2.
  split_and!; try done. exists next. split; [done|]. apply IH; [|done]. intros b Hb. apply E. by right.
Qed.

Lemma free_ok_same p m m' fl : same_on (frees fl) m m' -> free_ok p m fl -> free_ok p m' fl.
Proof.
  intros Hs Hf k Hk. destruct (Hf k Hk) as (h & Hh & Hz & Hc). exists h. split_and!; [done | done |].
  eapply chain_same; [|exact Hc]. intros a Ha. pose proof (csize_ge k).
  pose proof (frees_in fl k a Hk Ha) as Hin. split; apply (Hs _ _ _ Hin); lia.
Qed.

(** The same structure but for the heads of the free lists. *)
Definition same_sub (p p' : nd_sub_allocator) : Prop :=
  sub_addr p' = sub_addr p /\ sub_size p' = sub_size p /\ sub_allocated_size p' = sub_allocated_size p /\
  sub_start p' = sub_start p /\ sub_end p' = sub_end p.

Definition set_head (k : nat) (v : Z) (p : nd_sub_allocator) : nd_sub_allocator :=
  if (k <? 64)%nat then set_little k v p else set_big (k - 64) v p.

Lemma set_head_same k v p : same_sub p (set_head k v p).
Proof. unfold set_head. destruct (k <? 64)%nat; by split_and!. Qed.

Lemma head_set_eq k v p : (k < 128)%nat -> is_Some (head_of p k) -> head_of (set_head k v p) k = Some v.
Proof.
  unfold head_of, set_head. intros Hk Hh. destruct (k <? 64)%nat; simpl; apply list_lookup_insert_eq, lookup_lt_is_Some, Hh.
Qed.
Lemma head_set_ne k j v p : (k < 128)%nat -> (j < 128)%nat -> j <> k -> head_of (set_head k v p) j = head_of p j.
Proof.
  unfold head_of, set_head. intros Hk Hj Hne.
  destruct (Nat.ltb_spec k 64), (Nat.ltb_spec j 64); simpl; try done; apply list_lookup_insert_ne; lia.
Qed.

Lemma free_ok_set p m fl k h l : (k < 128)%nat -> free_ok p m fl -> (k = 63%nat -> h = 0) -> chain m (csize k) h l ->
  free_ok (set_head k h p) m (<[k := l]> fl).
Proof.
  intros Hk Hf Hz Hc j Hj. destruct (Hf k Hk) as (h0 & Hh0 & _). destruct (decide (j = k)) as [->|Hne].
  - exists h. rewrite fn_lookup_insert. split_and!; [|done..]. apply head_set_eq; eauto.
  - rewrite fn_lookup_insert_ne, head_set_ne by done. by apply Hf.
Qed.

Lemma contig_aligned lo hi tl a n : contig lo hi tl -> Forall ok_size tl -> lo mod 16 = 0 -> (a, n) ∈ tl -> a mod 16 = 0.
Proof.
  revert lo. induction tl as [|[b k] tl IH]; intros lo H Hok Hlo Hin; [by apply not_elem_of_nil in Hin|].
  destruct H as [-> H]. apply Forall_cons in Hok as [[Hk _] Hok].
  apply elem_of_cons in Hin as [[= -> ->]|Hin]; [done|]. eapply (IH _ H Hok); [|done]. by rewrite Z.add_mod, Hlo, Hk by lia.
Qed.

Section steps.
Context (lo hi : Z) (Hlo : lo mod 16 = 0 /\ 0 < lo).

(** Only words of the region have changed. *)
Definition inr (m m' : words) : Prop := writes lo (hi - lo) m m'.
Lemma inr_refl m : inr m m.
Proof. apply writes_refl. Qed.
Lemma inr_trans m1 m2 m3 : inr m1 m2 -> inr m2 m3 -> inr m1 m3.
Proof. apply writes_trans. Qed.
Lemma inr_mapped m m' : inr m m' -> mapped lo hi m -> mapped lo hi m'.
Proof. apply writes_mapped. Qed.
Lemma writes_inr bs a n m m' : tiled lo hi bs -> (a, n) ∈ bs -> writes a n m m' -> inr m m'.
Proof. intros Ht Hin. destruct (tiled_in _ _ _ _ _ Ht Hin) as (? & ? & _). apply writes_sub; lia. Qed.
Lemma writes_inr_hd bs a n m m' : tiled lo hi ((a, n) :: bs) -> writes a n m m' -> inr m m'.
Proof. intros Ht. eapply writes_inr; [exact Ht | by left]. Qed.

(** The words of a block can be used. *)
Lemma tiled_words bs a n m : tiled lo hi bs -> mapped lo hi m -> (a, n) ∈ bs ->
  a <> 0 /\ a mod 16 = 0 /\ is_Some (m !! a) /\ is_Some (m !! (a + 8)).
Proof.
  intros Ht Hm Hin. destruct (tiled_in _ _ _ _ _ Ht Hin) as (H1 & H2 & H3 & H4).
  assert (a mod 16 = 0) as Ha.
  { destruct Ht as (tl & Hc & E & Hok). rewrite <- E in Hin. eapply contig_aligned; [exact Hc | done | apply Hlo | done]. }
  assert (forall c, c = 0 \/ c = 8 -> (a + c) mod 8 = 0) as H8.
  { intros c Hc. pose proof (Z_div_mod_eq_full a 16). symmetry. apply (Z.mod_unique_pos _ 8 (a / 16 * 2 + c / 8)); [lia|].
    destruct Hc as [-> | ->]; [change (0 / 8) with 0 | change (8 / 8) with 1]; lia. }
  split_and!; [lia | done | |]; [replace a with (a + 0) by lia|]; apply Hm; try lia; apply H8; auto.
Qed.

Lemma pool_add_free_ok p m fl a n w O :
  class_ok n -> (w = n \/ w = n + 1) -> m !! a = Some w ->
  tiled lo hi ((a, n) :: frees fl ++ O) -> mapped lo hi m -> free_ok p m fl ->
  wp (pool_add_free a (p, m)) (fun '(p', m') => writes a n m m' /\ same_sub p p' /\ exists fl',
     free_ok p' m' fl' /\ frees fl' ≡ₚ (a, n) :: frees fl).
Proof.
  intros Hn Hw Ha Ht Hm Hf. destruct (kidx_ok n Hn) as (Hk & Hsz & H63). destruct Hn as (H16 & Hmin & Hc & Hmax).
  destruct (tiled_words _ a n m Ht Hm) as (Ha0 & _ & _ & Ha8); [by left|].
  assert (disj a n (frees fl)) as Hd by by apply disj_tiled, disj_app in Ht as [? _].
  destruct (Hf _ Hk) as (h & Hh & _ & Hch).
  set (m1 := <[a := n + 1]> m). set (m2 := <[a + 8 := h]> m1).
  assert (is_Some (m1 !! (a + 8))) as Ha8' by (unfold m1; by rewrite lookup_insert_ne by lia).
  assert (writes a n m m2) as W.
  { eapply writes_trans; apply writes_insert; [lia | by eexists | lia | done]. }
  assert (pool_add_free a (p, m) = Some (set_head (kidx n) a p, m2)) as ->.
  { unfold pool_add_free. unfold wload. rewrite Ha. cbn [mbind option_bind].
    replace (Z.land w (Z.lnot 3)) with n by (symmetry; destruct Hw as [-> | ->]; [by apply mask30 | apply mask3; (done || lia)]).
    replace (Z.lor w 1) with (n + 1) by (destruct Hw as [-> | ->]; [by rewrite flag_or | by rewrite flag_or']).
    rewrite wstore_ok by by eexists. cbn [mbind option_bind]. fold m1.
    unfold kidx, head_of, set_head in *. rewrite round1024, round16. change BIG_SIZE with 1024 in *.
    destruct (Z.leb_spec 1024 n) as [Hb|Hb].
    - destruct Hc as [Hc|Hc]; [lia|]. replace (n / 1024 * 1024) with n by (pose proof (Z_div_mod_eq_full n 1024); lia).
      rewrite (proj2 (Nat.ltb_ge _ _)) in * by lia. rewrite Nat.add_sub_swap, Nat.sub_diag in * by lia. simpl in Hh |- *.
      rewrite Hh. cbn [mbind option_bind]. by rewrite wstore_ok.
    - replace (n / 16 * 16) with n by (pose proof (Z_div_mod_eq_full n 16); lia).
      assert (Z.to_nat (CHUNK_INDEX n) < 64)%nat as Hi.
      { unfold CHUNK_INDEX, ALIGN_SIZE, MIN_SIZE. pose proof (Z_div_mod_eq_full n 16). change (16 / 16) with 1. lia. }
      rewrite (proj2 (Nat.ltb_lt _ _)) in * by done. rewrite Hh. cbn [mbind option_bind]. by rewrite wstore_ok. }
  apply wp_ret. split_and!; [exact W | apply set_head_same|].
  exists (<[kidx n := a :: fl (kidx n)]> fl). split; [|by rewrite frees_push, Hsz].
  assert (same_on (frees fl) m m2) as Hs by by eapply writes_same.
  apply free_ok_set; [done | by eapply free_ok_same | by intros ? |]. simpl. split_and!; try done.
  - rewrite Hsz. unfold m2, m1. by rewrite lookup_insert_ne, lookup_insert_eq by lia.
  - exists h. split; [apply lookup_insert_eq|]. destruct (free_ok_same _ _ _ _ Hs Hf _ Hk) as (h' & Hh' & _ & Hc').
    rewrite Hh in Hh'. by injection Hh' as <-.
Qed.

(** Writing a size and putting the block into its list. *)
Lemma add_block_ok p m fl a n O :
  class_ok n -> tiled lo hi ((a, n) :: frees fl ++ O) -> mapped lo hi m -> free_ok p m fl ->
  wp (m ← wstore a n m; pool_add_free a (p, m)) (fun '(p', m') => writes a n m m' /\ same_sub p p' /\ exists fl',
     free_ok p' m' fl' /\ tiled lo hi (frees fl' ++ O)).
Proof.
  intros Hn Ht Hm Hf. destruct (tiled_words _ a n m Ht Hm) as (_ & _ & Hw & _); [by left|].
  destruct (Hn) as (_ & Hmin & _). rewrite wstore_ok by done. cbn [mbind option_bind].
  assert (writes a n m (<[a := n]> m)) as W by (apply writes_insert; [lia | done]).
  assert (free_ok p (<[a := n]> m) fl) as Hf'.
  { eapply free_ok_same; [|exact Hf]. eapply writes_same; [exact W|]. by apply disj_tiled, disj_app in Ht as [? _]. }
  eapply wp_mono; [apply (pool_add_free_ok p (<[a := n]> m) fl a n n O Hn); eauto using writes_mapped; apply lookup_insert_eq|].
  intros [p' m'] (W' & Hs & fl' & Hfl & E). split_and!; [by eapply writes_trans | done |].
  exists fl'. split; [done|]. by rewrite E.
Qed.

Lemma add_rest_ok p m fl a r O :
  (r = 0 /\ tiled lo hi (frees fl ++ O) \/ class_ok r /\ tiled lo hi ((a, r) :: frees fl ++ O)) ->
  mapped lo hi m -> free_ok p m fl ->
  wp (if MIN_SIZE <=? r then m ← wstore a r m; pool_add_free a (p, m) else Some (p, m))
     (fun '(p', m') => writes a r m m' /\ same_sub p p' /\ exists fl',
     free_ok p' m' fl' /\ tiled lo hi (frees fl' ++ O)).
Proof.
  intros [[-> Ht]|[Hr Ht]] Hm Hf; unfold MIN_SIZE.
  - apply wp_ret. split_and!; [done | by split_and! | by exists fl].
  - rewrite (proj2 (Z.leb_le _ _)) by apply Hr. by apply (add_block_ok p m fl).
Qed.

Lemma class_part n : 16 <= n <= 61440 -> n mod 16 = 0 ->
  let b := n / 1024 * 1024 in b <= n < b + 1024 /\ (1024 <= n -> class_ok b) /\ (n - b = 0 \/ class_ok (n - b)).
Proof.
  intros Hn H16 b. assert (b = n / 1024 * 1024) as Eb by done. clearbody b. pose proof (Z_div_mod_eq_full n 1024). pose proof (Z.mod_pos_bound n 1024 ltac:(lia)). pose proof (Z_div_mod_eq_full n 16).
  assert (b mod 16 = 0) as Hb by (symmetry; apply (Z.mod_unique_pos _ 16 (n / 1024 * 64)); lia).
  assert ((n - b) mod 16 = 0) as Hr by (symmetry; apply (Z.mod_unique_pos _ 16 (n / 16 - n / 1024 * 64)); lia).
  split_and!; [lia | lia | |].
  - intros Hbig. split_and!; [done | lia | right | lia]. rewrite Eb. apply Z.mod_mul. lia.
  - destruct (Z.eq_dec (n - b) 0); [by left | right]. pose proof (Z_div_mod_eq_full (n - b) 16).
    split_and!; [done | lia | left; lia | lia].
Qed.

(** The same structure but for its range and the heads of its free lists. *)
Definition same_id (p p' : nd_sub_allocator) : Prop :=
  sub_addr p' = sub_addr p /\ sub_size p' = sub_size p /\ sub_allocated_size p' = sub_allocated_size p.

Lemma add_big_ok p m fl O :
  let fs := sub_end p - sub_start p in
  16 <= fs <= 61440 -> tiled lo hi ((sub_start p, fs) :: frees fl ++ O) -> mapped lo hi m -> free_ok p m fl ->
  wp (if BIG_SIZE <? fs then
        let size := BIG_ROUND_LOWWER fs in
        m ← wstore (sub_start p) size m;
        '(p, m) ← pool_add_free (sub_start p) (p, m);
        Some (set_range (sub_start p + size) (sub_end p) p, m, fs - size)
      else Some (p, m, fs))
     (fun '(p1, m1, r) => writes (sub_start p) fs m m1 /\ same_id p p1 /\ sub_end p1 = sub_end p /\
        sub_start p <= sub_start p1 /\ sub_start p1 + r = sub_end p /\ exists fl1, free_ok p1 m1 fl1 /\
        (r = 0 /\ tiled lo hi (frees fl1 ++ O) \/ class_ok r /\ tiled lo hi ((sub_start p1, r) :: frees fl1 ++ O))).
Proof.
  intros fs Hfs Ht Hm Hf. destruct (tiled_in _ _ _ (sub_start p) fs Ht) as (_ & _ & H16 & _); [by left|].
  destruct (class_part fs Hfs H16) as (Hb & Hcb & Hcr). set (b := fs / 1024 * 1024) in *. cbv zeta.
  rewrite round1024. fold b. change BIG_SIZE with 1024. destruct (Z.ltb_spec 1024 fs) as [Hbig|Hbig].
  - specialize (Hcb ltac:(lia)).
    set (O' := if decide (fs - b = 0) then O else (sub_start p + b, fs - b) :: O).
    assert (tiled lo hi ((sub_start p, b) :: frees fl ++ O')) as Ht'.
    { unfold O'. destruct (decide (fs - b = 0)) as [E|E]; [by replace b with fs by lia|].
      replace fs with (b + (fs - b)) in Ht by lia. destruct Hcr as [?|Hcr]; [done|].
      apply tiled_split in Ht; [|apply Hcb|apply Hcb|apply Hcr|apply Hcr].
      eapply tiled_perm; [|exact Ht]. by rewrite <- Permutation_middle. }
    apply wp_assoc. eapply wp_bind; [exact (add_block_ok p m fl _ b O' Hcb Ht' Hm Hf)|].
    intros [p1 m1] (W & (E1 & E2 & E3 & E4 & E5) & fl1 & Hf1 & Ht1). apply wp_ret. simpl. rewrite E4, E5.
    split_and!; try (done || lia).
    + eapply writes_sub; [..|exact W]; lia.
    + exists fl1. split; [done|]. unfold O' in Ht1. destruct (decide (fs - b = 0)) as [E|E]; [by left | right].
      destruct Hcr as [?|Hcr]; [done|]. split; [done|]. by rewrite Permutation_middle.
  - apply wp_ret. split_and!; try (done || lia). exists fl. split; [done|]. right. split; [|done].
    split_and!; [done | lia | | lia]. destruct (Z.eq_dec fs 1024) as [E|E]; [right; by rewrite E | left; lia].
Qed.

Lemma add_freeto_list_ok p m fl O :
  let fs := sub_end p - sub_start p in
  16 <= fs <= 61440 -> tiled lo hi ((sub_start p, fs) :: frees fl ++ O) -> mapped lo hi m -> free_ok p m fl ->
  wp (add_freeto_list (p, m)) (fun '(p', m') => writes (sub_start p) fs m m' /\ same_id p p' /\
     sub_start p' = sub_end p /\ sub_end p' = sub_end p /\ exists fl', free_ok p' m' fl' /\ tiled lo hi (frees fl' ++ O)).
Proof.
  intros fs Hfs Ht Hm Hf. unfold add_freeto_list. fold fs.
  eapply wp_bind; [exact (add_big_ok p m fl O Hfs Ht Hm Hf)|].
  intros [[p1 m1] r] (W1 & (I1 & I2 & I3) & E1 & Hs & Er & fl1 & Hf1 & Ht1).
  eapply wp_bind; [apply (add_rest_ok p1 m1 fl1 _ r O); eauto using writes_mapped|].
  intros [p2 m2] (W2 & (J1 & J2 & J3 & J4 & J5) & fl2 & Hf2 & Ht2). apply wp_ret. simpl.
  unfold same_id. simpl. rewrite J1, J2, J3, J5. split_and!; try done; [|by exists fl2].
  eapply writes_trans; [exact W1|]. eapply writes_sub; [..|exact W2]; lia.
Qed.
(** A list that is not empty gives its first block. *)
Lemma class_pop_ok p m fl k h : (k < 128)%nat -> free_ok p m fl -> head_of p k = Some h -> h <> 0 ->
  m !! h = Some (csize k + 1) /\ exists next fl', m !! (h + 8) = Some next /\
  free_ok (set_head k next p) m fl' /\ frees fl ≡ₚ (h, csize k) :: frees fl'.
Proof.
  intros Hk Hf Hh Hne. destruct (Hf k Hk) as (h' & Hh' & Hz & Hc). rewrite Hh in Hh'. injection Hh' as <-.
  destruct (fl k) as [|a l] eqn:E; [done|]. destruct Hc as (-> & _ & Hw & next & Hn & Hc).
  split; [done|]. exists next, (<[k := l]> fl). split_and!; [done | | by apply frees_pop].
  apply free_ok_set; [done | done | | done]. intros E'. by specialize (Hz E').
Qed.

Lemma frees_elem fl a n : (a, n) ∈ frees fl -> exists k, (k < 128)%nat /\ n = csize k /\ a ∈ fl k.
Proof.
  unfold frees. intros (l & Hl & Hin)%list_elem_of_In%in_concat. apply in_map_iff in Hl as (k & <- & Hk%in_seq).
  apply list_elem_of_In, list_elem_of_fmap in Hin as (b & [= -> ->] & Hb). exists k. split_and!; [lia | done | done].
Qed.

Lemma find_loop_ok n gs (l : list Z) mn :
  (forall i j, i <= j -> gs i <= gs j) -> (forall i, (i < n)%nat -> is_Some (l !! i)) ->
  exists r, find_loop n gs l mn = Some r /\
  match r with
  | Found i => (i < n)%nat /\ mn <= gs (Z.of_nat i) /\ exists h, l !! i = Some h /\ h <> 0
  | TooSmall => (0 < n)%nat /\ gs 0 < mn /\ forall i, (i < n)%nat -> mn <= gs (Z.of_nat i) -> l !! i = Some 0
  | Exhausted => forall i, (i < n)%nat -> l !! i = Some 0
  end.
Proof.
  intros Hgs. induction n as [|n IH]; intros Hl; simpl.
  - exists Exhausted. split; [done|]. intros i Hi. lia.
  - destruct (Z.ltb_spec (gs (Z.of_nat n)) mn) as [Hlt|Hge].
    { exists TooSmall. split; [done|]. pose proof (Hgs 0 (Z.of_nat n) ltac:(lia)). split_and!; [lia | lia |].
      intros i Hi Hmn. pose proof (Hgs (Z.of_nat i) (Z.of_nat n) ltac:(lia)). lia. }
    destruct (Hl n ltac:(lia)) as [h Hh]. rewrite Hh. cbn [mbind option_bind].
    destruct (Z.eqb_spec h 0) as [->|Hne]; cbn [negb]; [|exists (Found n); split_and!; [done | lia | done | by eexists]].
    destruct IH as (r & -> & Hr); [intros i Hi; apply Hl; lia|]. exists r. split; [done|].
    assert (forall i, (i < S n)%nat -> i = n \/ (i < n)%nat) as Hi by lia.
    destruct r as [|i|].
    + destruct Hr as (H1 & H2 & H3). split_and!; [lia | done |]. intros i [-> | Hi']%Hi ?; [done | by apply H3].
    + destruct Hr as (H1 & H2 & H3). split_and!; [lia | done | done].
    + intros i [-> | Hi']%Hi; [done | by apply Hr].
Qed.

Lemma listhead_some p m fl k : (k < 128)%nat -> free_ok p m fl -> is_Some (head_of p k).
Proof. intros Hk Hf. destruct (Hf k Hk) as (h & -> & _). by eexists. Qed.
Lemma head_zero p m fl k : (k < 128)%nat -> free_ok p m fl -> head_of p k = Some 0 -> fl k = [].
Proof.
  intros Hk Hf Hh. destruct (Hf k Hk) as (h & Hh' & _ & Hc). rewrite Hh in Hh'. injection Hh' as <-.
  destruct (fl k) as [|a l]; [done|]. by destruct Hc as (<- & ? & _).
Qed.
Lemma head_big p i : head_of p (64 + i) = big_list p !! i.
Proof. unfold head_of. rewrite (proj2 (Nat.ltb_ge _ _)) by lia. f_equal. lia. Qed.
Lemma head_little p i : (i < 64)%nat -> head_of p i = free_littles p !! i.
Proof. intros Hi. unfold head_of. by rewrite (proj2 (Nat.ltb_lt _ _)). Qed.
Lemma csize_big i : csize (64 + i) = GET_BIG_SIZE (Z.of_nat i).
Proof. unfold csize. rewrite (proj2 (Nat.ltb_ge _ _)) by lia. f_equal. lia. Qed.
Lemma csize_little i : (i < 64)%nat -> csize i = GET_LITTLE_SIZE (Z.of_nat i).
Proof. intros Hi. unfold csize. by rewrite (proj2 (Nat.ltb_lt _ _)). Qed.

(** No free block is found exactly when all of them are too small. *)
Lemma _find_free_chunk_ok p m fl mn : free_ok p m fl ->
  wp (_find_free_chunk mn (p, m)) (fun '((p', m'), c) => m' = m /\
    (c = 0 /\ p' = p /\ (forall a n, (a, n) ∈ frees fl -> n < mn) \/
     c <> 0 /\ same_sub p p' /\ exists k fl', (k < 128)%nat /\ mn <= csize k /\ m !! c = Some (csize k + 1) /\
       free_ok p' m fl' /\ frees fl ≡ₚ (c, csize k) :: frees fl')).
Proof.
  intros Hf. unfold _find_free_chunk. change (Z.to_nat BIG_CHUNK_NUM) with 64%nat. change (Z.to_nat LITTLE_CHUNK_NUM) with 64%nat.
  destruct (find_loop_ok 64 GET_BIG_SIZE (big_list p) mn) as (r & -> & Hr).
  { unfold GET_BIG_SIZE, BIG_SIZE. intros. lia. }
  { intros i Hi. rewrite <- head_big. apply (listhead_some p m fl); [lia | done]. }
  cbn [mbind option_bind]. destruct r as [|i|].
  - apply wp_ret. split; [done|]. left. split_and!; [done..|]. destruct Hr as (_ & H0 & Hr).
    intros a n (k & Hk & -> & Hin)%frees_elem. destruct (Z.lt_ge_cases (csize k) mn) as [|Hge]; [done|exfalso].
    destruct (Nat.lt_ge_cases k 64) as [Hk'|Hk'].
    { rewrite csize_little in Hge by done. unfold GET_LITTLE_SIZE, GET_BIG_SIZE, BIG_SIZE, ALIGN_SIZE, MIN_SIZE in *. lia. }
    replace k with (64 + (k - 64))%nat in * by lia. rewrite csize_big in Hge. specialize (Hr (k - 64)%nat ltac:(lia) Hge).
    rewrite <- head_big in Hr. eapply head_zero in Hr; [|done|done]. rewrite Hr in Hin. by apply not_elem_of_nil in Hin.
  - destruct Hr as (Hi & Hmn & h & Hh & Hne). rewrite Hh. cbn [mbind option_bind]. rewrite <- head_big in Hh.
    destruct (class_pop_ok p m fl (64 + i)%nat h ltac:(lia) Hf Hh Hne) as (Hw & next & fl' & Hn & Hf' & E). unfold wload. rewrite Hn.
    apply wp_ret. split; [done|]. right. split; [done|].
    unfold set_head in Hf'. rewrite (proj2 (Nat.ltb_ge _ _)) in Hf' by lia. replace (64 + i - 64)%nat with i in Hf' by lia.
    split; [by split_and!|]. exists (64 + i)%nat, fl'. rewrite csize_big in *. split_and!; (lia || done).
  - assert (forall k, (64 <= k < 128)%nat -> fl k = []) as Hbig.
    { intros k Hk. specialize (Hr (k - 64)%nat ltac:(lia)). rewrite <- head_big in Hr. replace (64 + (k - 64))%nat with k in Hr by lia.
      eapply head_zero; [lia | done | done]. }
    destruct (Z.ltb_spec mn BIG_SIZE) as [Hmn|Hmn]; unfold BIG_SIZE in Hmn.
    + destruct (find_loop_ok 64 GET_LITTLE_SIZE (free_littles p) mn) as (r & -> & Hl).
      { unfold GET_LITTLE_SIZE, ALIGN_SIZE. intros. lia. }
      { intros i Hi. rewrite <- head_little by done. apply (listhead_some p m fl); [lia | done]. }
      cbn [mbind option_bind].
      assert ((forall k, (k < 64)%nat -> mn <= csize k -> fl k = []) -> forall a n, (a, n) ∈ frees fl -> n < mn) as Hnone.
      { intros H a n (k & Hk & -> & Hin)%frees_elem. destruct (Z.lt_ge_cases (csize k) mn) as [|Hge]; [done|exfalso].
        assert (fl k = []) as E; [|rewrite E in Hin; by apply not_elem_of_nil in Hin].
        destruct (Nat.lt_ge_cases k 64); [by apply H | apply Hbig; lia]. }
      destruct r as [|i|].
      * apply wp_ret. split; [done|]. left. split_and!; [done..|]. apply Hnone. intros k Hk Hge.
        rewrite csize_little in Hge by done. destruct Hl as (_ & _ & Hl). specialize (Hl k Hk Hge).
        rewrite <- head_little in Hl by done. eapply head_zero; [lia | done | done].
      * destruct Hl as (Hi & Hge & h & Hh & Hne). rewrite Hh. cbn [mbind option_bind]. rewrite <- head_little in Hh by done.
        destruct (class_pop_ok p m fl i h ltac:(lia) Hf Hh Hne) as (Hw & next & fl' & Hn & Hf' & E). unfold wload. rewrite Hn.
        apply wp_ret. split; [done|]. right. split; [done|].
        unfold set_head in Hf'. rewrite (proj2 (Nat.ltb_lt _ _)) in Hf' by lia.
        split; [by split_and!|]. exists i, fl'. rewrite csize_little in * by done. split_and!; (lia || done).
      * apply wp_ret. split; [done|]. left. split_and!; [done..|]. apply Hnone. intros k Hk _. specialize (Hl k Hk).
        rewrite <- head_little in Hl by done. eapply head_zero; [lia | done | done].
    + apply wp_ret. split; [done|]. left. split_and!; [done..|]. intros a n (k & Hk & -> & Hin)%frees_elem.
      destruct (Nat.lt_ge_cases k 64) as [Hk'|Hk']; [|rewrite (Hbig k) in Hin by lia; by apply not_elem_of_nil in Hin].
      destruct (decide (k = 63%nat)) as [->|].
      * destruct (Hf 63%nat Hk) as (h & Hh & Hz & _). rewrite Hz in Hh by done.
        rewrite (head_zero p m fl 63 Hk Hf Hh) in Hin. by apply not_elem_of_nil in Hin.
      * rewrite csize_little by done. unfold GET_LITTLE_SIZE, ALIGN_SIZE, MIN_SIZE. lia.
Qed.
(** The range [start, end) as a block. *)
Definition bump (p : nd_sub_allocator) : list block :=
  if decide (sub_start p = sub_end p) then [] else [(sub_start p, sub_end p - sub_start p)].

Lemma bump_some p : sub_start p <> sub_end p -> bump p = [(sub_start p, sub_end p - sub_start p)].
Proof. intros H. unfold bump. by rewrite decide_False. Qed.
Lemma bump_none p : sub_start p = sub_end p -> bump p = [].
Proof. intros H. unfold bump. by rewrite decide_True. Qed.

(** The size of a block. *)
Lemma need_ok s : 0 < s <= DIRECT_ALLOC_SIZE - ALLOC_NODE_SIZE ->
  let a := u64 (s + ALLOC_NODE_SIZE) in let n := __get_need_size s in
  class_ok n /\ s + 8 <= n <= 61440 /\ (BIG_SIZE <=? SIZE_ALINE a) = (BIG_SIZE <=? n) /\
  (if BIG_SIZE <=? n then BIG_ALINE a else SIZE_ALINE a) = n.
Proof.
  change (DIRECT_ALLOC_SIZE - ALLOC_NODE_SIZE) with 61432. intros Hs a n. unfold n, __get_need_size.
  assert (a = s + 8) as Ea by (unfold a, ALLOC_NODE_SIZE; apply wrapu_small; lia). fold a. clearbody a.
  change DIRECT_ALLOC_SIZE with 61440. rewrite (proj2 (Z.ltb_ge _ _)) by lia.
  unfold SIZE_ALINE, BIG_ALINE, ALIGN_SIZE, BIG_SIZE, MIN_SIZE. change 0x400 with 1024.
  rewrite !aline16 by lia. pose proof (Z_div_mod_eq_full (a + 15) 16). pose proof (Z.mod_pos_bound (a + 15) 16 ltac:(lia)).
  set (b := (a + 15) / 16 * 16) in *. rewrite !(Z.max_l b) by lia.
  assert (b mod 16 = 0) as Hb by (apply Z.mod_mul; lia).
  destruct (Z.leb_spec 1024 b) as [Hbig|Hbig].
  - assert (_ND_ALINE b 1024 = _ND_ALINE a 1024) as Eb.
    { rewrite !aline1024 by lia. f_equal. pose proof (Z_div_mod_eq_full b 16). 
      pose proof (Z_div_mod_eq_full (a + 1023) 1024). pose proof (Z.mod_pos_bound (a + 1023) 1024 ltac:(lia)).
      symmetry. apply (Z.div_unique_pos _ 1024 _ (b + 1023 - (a + 1023) / 1024 * 1024)); lia. }
    rewrite Eb, aline1024 by lia. pose proof (Z_div_mod_eq_full (a + 1023) 1024). pose proof (Z.mod_pos_bound (a + 1023) 1024 ltac:(lia)).
    set (c := (a + 1023) / 1024 * 1024) in *. assert (c mod 1024 = 0) as Hc by (apply Z.mod_mul; lia).
    rewrite (Z.max_l c), (proj2 (Z.leb_le 1024 c)) by lia. split_and!; try (done || lia).
    split_and!; [|lia | by right | lia]. symmetry. apply (Z.mod_unique_pos _ 16 ((a + 1023) / 1024 * 64)); lia.
  - rewrite (proj2 (Z.leb_gt 1024 b)) by lia. split_and!; try (done || lia). split_and!; [done | lia | by left | lia].
Qed.

(** A block of [n] bytes is taken from the start of the range. *)
Lemma carve_ok p m a k n R : class_ok n -> n <= k -> sub_start p = a -> sub_end p - a = k ->
  tiled lo hi ((a, k) :: R) -> mapped lo hi m ->
  wp (m ← wstore (sub_start p) n m; Some ((set_range (sub_start p + n) (sub_end p) p, m), sub_start p))
     (fun '((p', m'), node) => node = a /\ node <> 0 /\ m' !! node = Some n /\ writes a n m m' /\ same_id p p' /\
        (forall fl, free_ok p' m' fl <-> free_ok p m' fl) /\ tiled lo hi ((a, n) :: R ++ bump p')).
Proof.
  intros Hn Hk Ea Ek Ht Hm. destruct (tiled_words _ a k m Ht Hm) as (H0 & _ & Hw & _); [by left|].
  destruct (tiled_in _ _ _ a k Ht) as (_ & _ & Hk16 & _); [by left|]. destruct Hn as (H16 & Hmin & _).
  rewrite wstore_ok by by rewrite Ea. apply wp_ret. rewrite Ea.
  split_and!; try done; [apply lookup_insert_eq | apply writes_insert; [lia | done] |].
  unfold bump. simpl. destruct (decide (a + n = sub_end p)) as [E|E].
  - rewrite app_nil_r. by replace n with k by lia.
  - rewrite (Permutation_app_comm R). simpl. replace k with (n + (k - n)) in Ht by lia.
    replace (sub_end p - (a + n)) with (k - n) by lia. assert ((k - n) mod 16 = 0) as Hr by (by rewrite Zminus_mod, Hk16, H16).
    apply tiled_split; try done. pose proof (Z_div_mod_eq_full (k - n) 16). lia.
Qed.

Lemma tiled_bump p R : tiled lo hi (R ++ bump p) -> 16 <= sub_end p - sub_start p -> tiled lo hi ((sub_start p, sub_end p - sub_start p) :: R).
Proof. intros Ht Hfs. rewrite bump_some in Ht by lia. by rewrite <- Permutation_cons_append in Ht. Qed.

Lemma bump_small p R : tiled lo hi (R ++ bump p) -> sub_end p - sub_start p < 16 -> sub_start p = sub_end p.
Proof.
  intros Ht Hfs. unfold bump in Ht. destruct (decide (sub_start p = sub_end p)); [done|].
  destruct (tiled_in _ _ _ (sub_start p) (sub_end p - sub_start p) Ht) as (_ & _ & _ & ?); [|lia].
  apply elem_of_app. right. by left.
Qed.

(** The range given up for a free block. *)
Lemma take_range_ok p m fl c k R : free_ok p m fl -> m !! c = Some (k + 1) -> tiled lo hi ((c, k) :: R ++ frees fl ++ bump p) ->
  sub_end p - sub_start p <= 61440 -> mapped lo hi m ->
  wp ('(p, m) ← (if MIN_SIZE <=? sub_end p - sub_start p then add_freeto_list (p, m) else Some (p, m));
      w ← wload c m;
      let w := Z.land w (Z.lnot 3) in
      m ← wstore c w m;
      Some (set_range c (w + c) p, m, true))
     (fun '(p', m', ok) => ok = true /\ same_id p p' /\ sub_start p' = c /\ sub_end p' - c = k /\ inr m m' /\ same_on R m m' /\
        exists fl', free_ok p' m' fl' /\ tiled lo hi ((c, k) :: R ++ frees fl')).
Proof.
  intros Hf Hw Ht Hfs Hm.
  eapply (wp_bind _ _ (fun '(p1, m1) => same_id p p1 /\ inr m m1 /\ same_on ((c, k) :: R) m m1 /\
    exists fl1, free_ok p1 m1 fl1 /\ tiled lo hi ((c, k) :: R ++ frees fl1))).
  - unfold MIN_SIZE. destruct (Z.leb_spec 16 (sub_end p - sub_start p)) as [Hge|Hlt].
    + assert (tiled lo hi ((sub_start p, sub_end p - sub_start p) :: frees fl ++ (c, k) :: R)) as Ht'.
      { rewrite bump_some, !app_assoc, <- Permutation_cons_append in Ht by lia.
        eapply tiled_perm; [|exact Ht]. rewrite (Permutation_app_comm (frees fl)). simpl. rewrite (perm_swap (c, k)). done. }
      eapply wp_mono; [apply (add_freeto_list_ok p m fl _ ltac:(lia) Ht' Hm Hf)|].
      intros [p1 m1] (W & I & _ & _ & fl1 & Hf1 & Ht1). split_and!; [done | by eapply writes_inr_hd | |].
      * eapply writes_same; [exact W|]. apply disj_tiled, disj_app in Ht'. by destruct Ht'.
      * exists fl1. split; [done|]. by rewrite (Permutation_app_comm (frees fl1)) in Ht1.
    + apply wp_ret. split_and!; [done | apply inr_refl | done |]. exists fl. split; [done|]. rewrite bump_none, app_nil_r in Ht; [done|].
      eapply (bump_small p ((c, k) :: R ++ frees fl)); [|done]. simpl; by rewrite <- app_assoc.
  - intros [p1 m1] (I & R1 & S1 & fl1 & Hf1 & Ht1). pose proof (inr_mapped _ _ R1 Hm) as Hm1.
    destruct (tiled_in _ _ _ c k Ht1) as (_ & _ & H16 & Hk); [by left|].
    assert (m1 !! c = Some (k + 1)) as Hw1 by (rewrite (S1 c k c) by (by left || lia); done).
    unfold wload. rewrite Hw1. cbn [mbind option_bind]. cbv zeta. rewrite mask3 by (done || lia).
    rewrite wstore_ok by by eexists. apply wp_ret. simpl.
    assert (writes c k m1 (<[c := k]> m1)) as W by (apply writes_insert; [lia | by eexists]).
    pose proof (writes_same _ _ _ _ _ W (disj_tiled _ _ _ _ _ Ht1)) as [S2 S3]%same_on_app.
    split_and!; [done | done | done | lia | eapply inr_trans; [exact R1 | by eapply writes_inr_hd] | |].
    + eapply same_on_trans; [|exact S2]. intros a n x Ha. apply (S1 a n x). by right.
    + exists fl1. split; [|done]. by eapply free_ok_same.
Qed.

Lemma refill_ok p m fl O n : class_ok n -> n <= 61440 -> free_ok p m fl -> tiled lo hi (O ++ frees fl ++ bump p) -> mapped lo hi m ->
  let free_size := sub_end p - sub_start p in
  wp (if free_size <? n then
         '((p, m), chunk) ← _find_free_chunk n (p, m);
         if negb (chunk =? 0) then
           '(p, m) ← (if MIN_SIZE <=? free_size then add_freeto_list (p, m) else Some (p, m));
           w ← wload chunk m;
           let w := Z.land w (Z.lnot 3) in
           m ← wstore chunk w m;
           Some (set_range chunk (w + chunk) p, m, true)
         else Some (p, m, false)
       else Some (p, m, true))
    (fun '(p', m', ok) => same_id p p' /\ inr m m' /\ same_on O m m' /\
       if ok : bool then exists fl', free_ok p' m' fl' /\ n <= sub_end p' - sub_start p' /\
         tiled lo hi ((sub_start p', sub_end p' - sub_start p') :: O ++ frees fl')
       else p' = p /\ m' = m /\ forall a k, (a, k) ∈ frees fl ++ bump p -> k < n).
Proof.
  intros Hn Hmax Hf Ht Hm. cbv zeta. destruct (Hn) as (_ & Hmin & _).
  destruct (Z.ltb_spec (sub_end p - sub_start p) n) as [Hlt|Hge].
  - eapply wp_bind; [apply (_find_free_chunk_ok p m fl n Hf)|]. intros [[p1 m1] c] (-> & H).
    destruct H as [(-> & -> & Hall)|(Hc & I & k & fl1 & Hk & Hge & Hw & Hf1 & E)].
    + simpl. apply wp_ret. split_and!; try done. intros a k [Hin|Hin]%elem_of_app; [by eapply Hall|].
      unfold bump in Hin. destruct (decide _); [by apply not_elem_of_nil in Hin|]. apply list_elem_of_singleton in Hin. by injection Hin as -> ->.
    + destruct I as (I1 & I2 & I3 & I4 & I5). rewrite (proj2 (Z.eqb_neq _ _) Hc). cbn [negb].
      assert (bump p1 = bump p) as Eb by (unfold bump; by rewrite I4, I5).
      rewrite <- I4, <- I5. eapply wp_mono; [apply (take_range_ok p1 m fl1 c (csize k) O); try done|].
      * rewrite Eb. eapply tiled_perm; [|exact Ht]. rewrite E. simpl. by rewrite <- Permutation_middle.
      * rewrite I4, I5. lia.
      * intros [[p2 m2] ok] (-> & (J1 & J2 & J3) & -> & Ek & Hm2 & Ho & fl2 & Hf2 & Ht2). rewrite Ek.
        split_and!; [split_and!; congruence | done | done |]. by exists fl2.
  - apply wp_ret. split_and!; [done | apply inr_refl | done |]. exists fl. split_and!; [done | done |].
    apply tiled_bump; [by rewrite <- app_assoc | lia].
Qed.

Lemma index_head p n : class_ok n ->
  (if BIG_SIZE <=? n then big_list p else free_littles p) !! Z.to_nat (if BIG_SIZE <=? n then BIG_INDEX n else CHUNK_INDEX n) = head_of p (kidx n) /\
  forall v, (if BIG_SIZE <=? n then set_big (Z.to_nat (if BIG_SIZE <=? n then BIG_INDEX n else CHUNK_INDEX n)) v p
             else set_little (Z.to_nat (if BIG_SIZE <=? n then BIG_INDEX n else CHUNK_INDEX n)) v p) = set_head (kidx n) v p.
Proof.
  intros (H16 & Hmin & Hc & Hmax). unfold kidx. destruct (Z.leb_spec BIG_SIZE n) as [Hb|Hb]; unfold BIG_SIZE in Hb.
  - rewrite head_big. split; [done|]. intros v. unfold set_head. rewrite (proj2 (Nat.ltb_ge _ _)) by lia. f_equal. lia.
  - assert (Z.to_nat (CHUNK_INDEX n) < 64)%nat as Hi.
    { unfold CHUNK_INDEX, ALIGN_SIZE, MIN_SIZE. pose proof (Z_div_mod_eq_full n 16). change (16 / 16) with 1. lia. }
    rewrite head_little by done. split; [done|]. intros v. unfold set_head. by rewrite (proj2 (Nat.ltb_lt _ _)).
Qed.

(** A new block of the size the request needs, outside the blocks [O] in use, or none when no block is large enough. *)
Lemma __allocator_alloc_ok p m fl O s : 0 < s <= DIRECT_ALLOC_SIZE - ALLOC_NODE_SIZE -> let n := __get_need_size s in
  free_ok p m fl -> tiled lo hi (O ++ frees fl ++ bump p) -> mapped lo hi m ->
  wp (__allocator_alloc s (p, m)) (fun '((p', m'), node) => same_id p p' /\ inr m m' /\ same_on O m m' /\
    (node = 0 /\ p' = p /\ m' = m /\ (forall a k, (a, k) ∈ frees fl ++ bump p -> k < n) \/
     node <> 0 /\ m' !! node = Some n /\ exists fl', free_ok p' m' fl' /\ tiled lo hi ((node, n) :: O ++ frees fl' ++ bump p'))).
Proof.
  intros Hs n Hf Ht Hm. destruct (need_ok s Hs) as (Hn & Hle & Eb & En). fold n in Hn, Hle, Eb, En.
  unfold __allocator_alloc. cbv zeta. rewrite Eb, En. destruct (index_head p n Hn) as [-> Eset].
  destruct (kidx_ok n Hn) as (Hk & Hsz & _). destruct (listhead_some p m fl _ Hk Hf) as [h Hh]. rewrite Hh. cbn [mbind option_bind].
  destruct (Z.eqb_spec h 0) as [->|Hne]; cbn [negb].
  - eapply wp_bind; [exact (refill_ok p m fl O n Hn ltac:(lia) Hf Ht Hm)|].
    intros [[p1 m1] ok] (I & R1 & S1 & H). pose proof (inr_mapped _ _ R1 Hm) as Hm1.
    destruct ok; cbn [negb]; [|destruct H as (-> & -> & Hall); apply wp_ret; by split_and!; try left].
    destruct H as (fl1 & Hf1 & Hge & Ht1).
    eapply wp_mono; [apply (carve_ok p1 m1 _ _ n (O ++ frees fl1) Hn Hge eq_refl eq_refl Ht1 Hm1)|].
    intros [[p2 m2] node] (-> & H0 & Hw & W & (J1 & J2 & J3) & Hfree & Ht2). destruct I as (I1 & I2 & I3).
    pose proof (writes_tiled _ _ _ _ _ _ _ Ht2 W) as S2. rewrite <- app_assoc in S2, Ht2. apply same_on_app in S2 as [S2 S3].
    apply same_on_app in S3 as [S3 _].
    split_and!; [split_and!; congruence | eapply inr_trans; [exact R1 | by eapply writes_inr_hd] | by eapply same_on_trans |].
    right. split_and!; try done. exists fl1. split; [|done]. apply Hfree. by eapply free_ok_same.
  - destruct (class_pop_ok p m fl _ h Hk Hf Hh Hne) as (Hw & next & fl' & Hnext & Hf' & E). rewrite Hsz in *.
    unfold wload. rewrite Hnext. cbn [mbind option_bind]. rewrite Eset, Hw. cbn [mbind option_bind].
    destruct Hn as (H16 & Hmin & _). rewrite mask1 by done. rewrite wstore_ok by by eexists. apply wp_ret.
    assert (tiled lo hi ((h, n) :: O ++ frees fl' ++ bump p)) as Ht'.
    { eapply tiled_perm; [|exact Ht]. rewrite E. simpl. by rewrite <- Permutation_middle. }
    assert (writes h n m (<[h := n]> m)) as W by (apply writes_insert; [lia | by eexists]).
    pose proof (writes_tiled _ _ _ _ _ _ _ Ht' W) as [S1 [S2 _]%same_on_app]%same_on_app.
    destruct (set_head_same (kidx n) next p) as (I1 & I2 & I3 & I4 & I5).
    split_and!; [split_and!; congruence | by eapply writes_inr_hd | done |]. right.
    split_and!; [done | apply lookup_insert_eq |]. exists fl'. split; [by eapply free_ok_same|].
    unfold bump. rewrite I4, I5. done.
Qed.
Lemma __allocator_free_ok p m fl O a n : class_ok n -> m !! a = Some n ->
  free_ok p m fl -> tiled lo hi ((a, n) :: O ++ frees fl ++ bump p) -> mapped lo hi m ->
  wp (__allocator_free a (p, m)) (fun '(p', m') => same_id p p' /\ inr m m' /\ same_on O m m' /\
    exists fl', free_ok p' m' fl' /\ tiled lo hi (O ++ frees fl' ++ bump p')).
Proof.
  intros Hn Hw Hf Ht Hm. unfold __allocator_free. unfold wload. rewrite Hw. cbn [mbind option_bind]. cbv zeta.
  destruct (Hn) as (H16 & Hmin & _ & Hmax). rewrite mask15 by done.
  assert (tiled lo hi ((a, n) :: (O ++ frees fl) ++ bump p)) as Ht' by by rewrite <- app_assoc.
  assert (sub_start p <> sub_end p -> 16 <= sub_end p - sub_start p) as Hbs.
  { intros Hne. destruct (Z.lt_ge_cases (sub_end p - sub_start p) 16) as [Hlt|]; [|lia]. exfalso.
    by apply Hne, (bump_small p ((a, n) :: O ++ frees fl)). }
  assert (forall q, sub_start q = a -> sub_end q = a + n -> tiled lo hi ((a, n) :: O ++ frees fl) -> 
    tiled lo hi (O ++ frees fl ++ bump q)) as Hq.
  { intros q Es Ee Hq. rewrite bump_some by lia. rewrite Es, Ee, app_assoc, <- Permutation_cons_append. by replace (a + n - a) with n by lia. }
  destruct (Z.eqb_spec (a + n) (sub_start p)) as [Ea|Ea].
  - apply wp_ret. split_and!; try done. exists fl. split; [done|].
    destruct (decide (sub_start p = sub_end p)) as [E|E].
    + apply Hq; simpl; [done | lia |]. by rewrite (bump_none p), app_nil_r in Ht'.
    + specialize (Hbs E). rewrite (bump_some p E), <- Permutation_cons_append, <- Ea in Ht'. apply tiled_join in Ht'.
      rewrite bump_some by (simpl; lia). simpl. rewrite app_assoc, <- Permutation_cons_append.
      by replace (sub_end p - a) with (n + (sub_end p - (a + n))) by lia.
  - destruct (Z.eqb_spec (sub_end p - sub_start p) 0) as [E|E].
    + apply wp_ret. split_and!; try done. exists fl. split; [done|]. apply Hq; [done..|].
      rewrite (bump_none p), app_nil_r in Ht'; [done | lia].
    + specialize (Hbs ltac:(lia)). destruct (Z.ltb_spec (sub_end p - sub_start p + 3) n) as [Hlt|Hge].
      * assert (tiled lo hi ((sub_start p, sub_end p - sub_start p) :: frees fl ++ (a, n) :: O)) as Ht2.
        { rewrite (bump_some p), <- Permutation_cons_append in Ht' by lia. eapply tiled_perm; [|exact Ht'].
          rewrite (Permutation_app_comm (frees fl)). simpl. rewrite (perm_swap (a, n)). done. }
        eapply wp_bind; [apply (add_freeto_list_ok p m fl _ ltac:(lia) Ht2 Hm Hf)|].
        intros [p1 m1] (W & I & _ & _ & fl1 & Hf1 & Ht1). apply wp_ret.
        pose proof (writes_tiled _ _ _ _ _ _ _ Ht2 W) as [_ S]%same_on_app.
        split_and!; [done | by eapply writes_inr_hd | intros b k x Hb; apply (S b k x); by right |].
        exists fl1. split; [done|]. rewrite bump_some by (simpl; lia). simpl.
        rewrite app_assoc, <- Permutation_cons_append. replace (a + n - a) with n by lia.
        by rewrite (Permutation_app_comm (frees fl1)) in Ht1.
      * assert (tiled lo hi ((a, n) :: frees fl ++ bump p ++ O)) as Ht2.
        { eapply tiled_perm; [|exact Ht]. f_equiv. by rewrite (Permutation_app_comm O), <- app_assoc. }
        eapply wp_mono; [apply (pool_add_free_ok p m fl a n n (bump p ++ O)); eauto|].
        intros [p1 m1] (W & (I1 & I2 & I3 & I4 & I5) & fl1 & Hf1 & E1).
        pose proof (writes_tiled _ _ _ _ _ _ _ Ht W) as [S _]%same_on_app.
        split_and!; [done | by eapply writes_inr_hd | done |]. exists fl1. split; [done|].
        assert (bump p1 = bump p) as -> by (unfold bump; by rewrite I4, I5).
        rewrite E1. simpl. by rewrite <- Permutation_middle.
Qed.

Lemma adjust_ok p m fl O : free_ok p m fl -> tiled lo hi (O ++ frees fl ++ bump p) -> mapped lo hi m ->
  wp (__adjust_freeaddr (p, m)) (fun '(p', m') => p' = p /\ inr m m' /\ same_on O m m' /\ free_ok p m' fl /\
    (sub_start p <> sub_end p -> m' !! sub_start p = Some (sub_end p - sub_start p + 1))).
Proof.
  intros Hf Ht Hm. unfold __adjust_freeaddr. destruct (Z.eqb_spec (sub_end p - sub_start p) 0) as [E|E]; cbn [negb].
  - apply wp_ret. split_and!; try done. intros ?. lia.
  - rewrite bump_some in Ht by lia. rewrite app_assoc, <- Permutation_cons_append in Ht.
    destruct (tiled_words _ _ _ _ Ht Hm (list_elem_of_here _ _)) as (_ & _ & Hw & _).
    destruct (tiled_in _ _ _ _ _ Ht (list_elem_of_here _ _)) as (_ & _ & H16 & Hge).
    rewrite wstore_ok, flag_or by done. apply wp_ret.
    assert (writes (sub_start p) (sub_end p - sub_start p) m (<[sub_start p := sub_end p - sub_start p + 1]> m)) as W
      by (apply writes_insert; [lia | done]).
    pose proof (writes_tiled _ _ _ _ _ _ _ Ht W) as [S1 S2]%same_on_app.
    split_and!; [done | by eapply writes_inr_hd | done | by eapply free_ok_same |]. intros _. apply lookup_insert_eq.
Qed.

Definition total (bs : list block) : Z := foldr (fun b s => b.2 + s) 0 bs.
Lemma total_app l1 l2 : total (l1 ++ l2) = total l1 + total l2.
Proof. induction l1 as [|[a n] l1 IH]; simpl; [done|]. rewrite IH. lia. Qed.
#[export] Instance total_proper : Proper ((≡ₚ) ==> eq) total.
Proof. intros l1 l2 E. induction E; simpl; lia. Qed.
Lemma total_nonneg bs : Forall ok_size bs -> 0 <= total bs.
Proof. induction 1 as [|[a n] l [_ Hn] _ IH]; simpl; lia. Qed.
Lemma contig_total x tl : contig x hi tl -> total tl = hi - x.
Proof. revert x. induction tl as [|[a n] tl IH]; intros x; simpl; [lia|]. intros [-> H]. rewrite (IH _ H). lia. Qed.
Lemma tiled_total l1 l2 : tiled lo hi (l1 ++ l2) -> 0 <= total l1 <= hi - lo.
Proof.
  intros (tl & Hc & E & Hok). rewrite E in Hok. apply Forall_app in Hok as [H1 H2].
  pose proof (total_nonneg _ H1). pose proof (total_nonneg _ H2). apply contig_total in Hc.
  assert (total tl = total (l1 ++ l2)) as Et by by rewrite E. rewrite total_app in Et. lia.
Qed.
(** ** The invariant *)

(** [live]: the blocks in use. *)
Record sub_inv (p : nd_sub_allocator) (m : words) (live : list block) : Prop := mk_inv {
  inv_addr : lo = sub_addr p + SUB_ALLOCATOR_SIZE /\ hi = sub_addr p + sub_size p;
  inv_mapped : mapped lo hi m;
  inv_live : forall a n, (a, n) ∈ live -> class_ok n /\ m !! a = Some (enc (sub_addr p) n);
  inv_free : exists fl, free_ok p m fl /\ tiled lo hi (live ++ frees fl ++ bump p);
  inv_bump : sub_start p <> sub_end p -> m !! sub_start p = Some (sub_end p - sub_start p + 1);
  inv_size : sub_allocated_size p = total live
}.

Lemma live_keep p live m m' a n : (forall a n, (a, n) ∈ live -> class_ok n /\ m !! a = Some (enc (sub_addr p) n)) ->
  same_on live m m' -> (a, n) ∈ live -> class_ok n /\ m' !! a = Some (enc (sub_addr p) n).
Proof.
  intros Hl Hs Hin. destruct (Hl a n Hin) as [Hn Hw]. split; [done|]. destruct Hn as (_ & Hmin & _).
  rewrite (Hs a n a) by (done || lia). done.
Qed.

Lemma inv_in p m live a n : sub_inv p m live -> (a, n) ∈ live -> lo <= a /\ a + n <= hi /\ a mod 16 = 0 /\ class_ok n.
Proof.
  intros [_ Hm Hl (fl & _ & Ht) _ _] Hin. destruct (Hl a n Hin) as [Hn _].
  assert ((a, n) ∈ live ++ frees fl ++ bump p) as Hin' by (apply elem_of_app; by left).
  destruct (tiled_in _ _ _ _ _ Ht Hin') as (? & ? & _). destruct (tiled_words _ _ _ _ Ht Hm Hin') as (_ & ? & _). done.
Qed.

Lemma enc_eq p m node n : m !! node = Some n -> __alloc_addr_size2index node (p, m) = Some (<[node := enc (sub_addr p) n]> m).
Proof. intros Hw. unfold __alloc_addr_size2index, wload. rewrite Hw. cbn [mbind option_bind]. by rewrite wstore_ok by by eexists. Qed.

Context (Hhi : hi < 2 ^ 64).

(** The free blocks of the sub-allocator, all smaller than [n]. *)
Definition no_room (p : nd_sub_allocator) (m : words) (live : list block) (n : Z) : Prop :=
  exists fl, free_ok p m fl /\ tiled lo hi (live ++ frees fl ++ bump p) /\ forall a k, (a, k) ∈ frees fl ++ bump p -> k < n.

(** The request gets a block of its own of the size it needs; every word of the blocks in use stays; no block is
    given only when no free block is large enough. *)
Lemma nd_allocator_alloc_ok p m live s : 0 < s <= DIRECT_ALLOC_SIZE - ALLOC_NODE_SIZE -> sub_inv p m live ->
  wp (nd_allocator_alloc s (p, m)) (fun '((p', m'), ret) =>
    (ret = 0 /\ p' = p /\ m' = m /\ no_room p m live (__get_need_size s)) \/
    (exists node, ret = node + ALLOC_NODE_SIZE /\ same_on live m m' /\ inr m m' /\ sub_addr p' = sub_addr p /\ sub_size p' = sub_size p /\
       sub_inv p' m' ((node, __get_need_size s) :: live))).
Proof.
  intros Hs [Ha Hm Hl (fl & Hf & Ht) Hb Hsz]. set (n := __get_need_size s).
  destruct (need_ok s Hs) as (Hn & Hle & _). fold n in Hn, Hle. unfold nd_allocator_alloc.
  eapply wp_bind; [exact (__allocator_alloc_ok p m fl live s Hs Hf Ht Hm)|]. fold n.
  intros [[p1 m1] node] ((I1 & I2 & I3) & R1 & S1 & H). pose proof (inr_mapped _ _ R1 Hm) as Hm1.
  destruct H as [(-> & -> & -> & Hall)|(H0 & Hw & fl1 & Hf1 & Ht1)].
  { apply wp_ret. left. split_and!; try done. by exists fl. }
  rewrite (proj2 (Z.eqb_neq _ _) H0). cbn [negb]. unfold wload. rewrite Hw. cbn [mbind option_bind]. cbv zeta.
  set (p2 := set_allocated _ p1). rewrite (enc_eq p2 m1 node n Hw). cbn [mbind option_bind].
  assert (writes node n m1 (<[node := enc (sub_addr p2) n]> m1)) as W by (apply writes_insert; [lia | by eexists]).
  pose proof (writes_tiled _ _ _ _ _ _ _ Ht1 W) as [S2 [S3 _]%same_on_app]%same_on_app.
  eapply wp_bind; [apply (adjust_ok p2 _ fl1 ((node, n) :: live)); [by eapply free_ok_same | done | by eapply writes_mapped]|].
  intros [p3 m3] (-> & R3 & S4 & Hf3 & Hb3). apply wp_ret. right. exists node.
  pose proof (writes_inr_hd _ _ _ _ _ Ht1 W) as R2. pose proof (inr_trans _ _ _ R1 (inr_trans _ _ _ R2 R3)) as R4.
  assert (same_on live m m3) as S5.
  { eapply same_on_trans; [exact S1|]. eapply same_on_trans; [exact S2|]. intros a k x Hin. apply (S4 a k x). by right. }
  split_and!; [done | done | done | done | done |].
  assert (0 <= total ((node, n) :: live) <= hi - lo) as Htot by by eapply (tiled_total ((node, n) :: live)).
  split.
  - simpl. by rewrite I1, I2.
  - by eapply inr_mapped.
  - intros a k [[= -> ->]|Hin]%elem_of_cons.
    + split; [done|]. rewrite (S4 node n node) by (by left || lia). apply lookup_insert_eq.
    + simpl. rewrite I1. by eapply live_keep.
  - by exists fl1.
  - done.
  - simpl in Htot |- *. rewrite I3, Hsz, (wrapu_small 32 n) by lia. rewrite wrapu_small by lia. lia.
Qed.

(** A block whose size word is written back is free again; every word of the other blocks in use stays. *)
Lemma nd_allocator_free_ok p m live a n : sub_inv p (<[a := enc (sub_addr p) n]> m) ((a, n) :: live) -> m !! a = Some n ->
  wp (nd_allocator_free a (p, m)) (fun '((p', m'), r) => sub_inv p' m' live /\ same_on live m m' /\ inr m m' /\
    sub_addr p' = sub_addr p /\ sub_size p' = sub_size p /\ r = (if total live =? 0 then 0 else 1)).
Proof.
  intros [Ha Hm Hl (fl & Hf & Ht) Hb Hsz] Hw. destruct (Hl a n) as [Hn _]; [by left|]. destruct (Hn) as (H16 & Hmin & _).
  set (m0 := <[a := enc (sub_addr p) n]> m) in *.
  assert (m = <[a := n]> m0) as Em by (unfold m0; rewrite insert_insert_eq; symmetry; by apply insert_id).
  assert (writes a n m0 m) as W by (rewrite Em; apply writes_insert; [lia | unfold m0; rewrite lookup_insert_eq; by eexists]).
  pose proof (writes_tiled _ _ _ _ _ _ _ Ht W) as [S1 [S2 _]%same_on_app]%same_on_app.
  unfold nd_allocator_free, wload. rewrite Hw. cbn [mbind option_bind]. rewrite mask30 by done. cbv zeta.
  set (p1 := set_allocated _ p).
  eapply wp_bind; [apply (__allocator_free_ok p1 m fl live a n Hn Hw); [by eapply free_ok_same | done | by eapply writes_mapped]|].
  intros [p2 m2] ((I1 & I2 & I3) & R2 & S3 & fl2 & Hf2 & Ht2).
  assert (mapped lo hi m2) as Hm2 by (eapply inr_mapped; [exact R2|]; by eapply writes_mapped).
  eapply wp_bind; [apply (adjust_ok p2 m2 fl2 live Hf2 Ht2 Hm2)|].
  intros [p3 m3] (-> & R3 & S4 & Hf3 & Hb3). apply wp_ret.
  assert (0 <= total ((a, n) :: live) <= hi - lo) as Htot by by eapply (tiled_total ((a, n) :: live)).
  assert (0 <= total live <= hi - lo) as Htot' by by eapply (tiled_total live).
  assert (sub_allocated_size p2 = total live) as Esz.
  { rewrite I3. simpl in *. rewrite Hsz, wrapu_small by lia. lia. }
  split_and!; [|by eapply same_on_trans | by eapply inr_trans | by rewrite I1 | by rewrite I2 | by rewrite Esz].
  split.
  - rewrite I1, I2. done.
  - by eapply inr_mapped.
  - intros b k Hin. rewrite I1. simpl. eapply (live_keep p live m0); [|by eapply same_on_trans; [exact S1|]; eapply same_on_trans|done].
    intros c j Hc. apply Hl. by right.
  - by exists fl2.
  - done.
  - done.
Qed.

(** Writing to the words of a block in use after its size word keeps the invariant. *)
Lemma user_write_ok p m live a n x v : sub_inv p m live -> (a, n) ∈ live -> a + ALLOC_NODE_SIZE <= x < a + n -> x mod 8 = 0 ->
  sub_inv p (<[x := v]> m) live.
Proof.
  intros Hinv Hin Hx Hx8. destruct (inv_in _ _ _ _ _ Hinv Hin) as (Hlo' & Hhi' & _). destruct Hinv as [Ha Hm Hl (fl & Hf & Ht) Hb Hsz].
  unfold ALLOC_NODE_SIZE in Hx.
  assert (writes a n m (<[x := v]> m)) as W by (apply writes_insert; [lia | apply Hm; lia]).
  apply list_elem_of_split in Hin as (l1 & l2 & ->).
  assert (tiled lo hi ((a, n) :: (l1 ++ l2) ++ frees fl ++ bump p)) as Ht'.
  { eapply tiled_perm; [|exact Ht]. by rewrite <- Permutation_middle. }
  pose proof (writes_tiled _ _ _ _ _ _ _ Ht' W) as [S1 [S2 S3]%same_on_app]%same_on_app.
  split; try done.
  - by eapply writes_mapped.
  - intros b k Hbk. destruct (Hl b k Hbk) as [Hn Hw]. split; [done|]. rewrite lookup_insert_ne; [done|].
    intros ->. rewrite <- Permutation_middle in Hbk. apply elem_of_cons in Hbk as [[= -> ->]|Hbk]; [lia|].
    destruct (tiled_disj _ _ _ _ b k _ Ht') as [?|?]; [apply elem_of_app; by left | |]; destruct Hn as (_ & ? & _); lia.
  - exists fl. split; [by eapply free_ok_same | done].
  - intros Hne. rewrite (S3 (sub_start p) (sub_end p - sub_start p)); [by apply Hb | by rewrite bump_some; [left|] |].
    rewrite bump_some in Ht' by done. destruct (tiled_in _ _ _ (sub_start p) (sub_end p - sub_start p) Ht') as (_ & _ & _ & ?); [|lia].
    right. apply elem_of_app. right. apply elem_of_app. right. by left.
Qed.
(** ** A new sub-allocator *)

(** No block of the region has been handed out. *)
Definition sub_empty (p : nd_sub_allocator) : Prop :=
  sub_start p = lo /\ sub_end p = hi /\ forall k, (k < 128)%nat -> head_of p k = Some 0.

Lemma no_room_empty p m live n : sub_empty p -> lo < hi -> no_room p m live n -> hi - lo < n.
Proof.
  intros (Es & Ee & _) Hlt (fl & _ & _ & Hall). apply (Hall lo). apply elem_of_app. right. rewrite bump_some, Es, Ee by lia. by left.
Qed.

Lemma frees_nil : frees (fun _ => []) = [].
Proof. done. Qed.

Lemma __sub_allocator_init_ok addr size m :
  lo = addr + SUB_ALLOCATOR_SIZE -> hi = addr + size -> 0 <= size < 2 ^ 32 -> (hi - lo) mod 16 = 0 -> lo < hi -> mapped lo hi m ->
  wp (__sub_allocator_init addr size m) (fun '(p, m') => sub_inv p m' [] /\ writes lo (hi - lo) m m' /\ sub_addr p = addr /\ sub_size p = size /\ sub_empty p).
Proof.
  intros El Eh Hsz H16 Hlt Hm. unfold __sub_allocator_init. rewrite (wrapu_small 32) by lia. rewrite <- El, <- Eh.
  set (p := mk_sub _ _ _ _ _ _ _).
  assert (bump p = [(lo, hi - lo)]) as Eb by (apply bump_some; simpl; lia).
  assert (16 <= hi - lo) as Hge by (pose proof (Z_div_mod_eq_full (hi - lo) 16); lia).
  assert (tiled lo hi ([] ++ frees (fun _ => []) ++ bump p)) as Ht.
  { rewrite frees_nil, Eb. exists [(lo, hi - lo)]. split_and!; [split; [done|]; simpl; lia | done | by repeat constructor]. }
  assert (sub_empty p) as Hemp.
  { split_and!; [done..|]. intros k Hk. unfold head_of, p. cbn [free_littles big_list].
    destruct (Nat.ltb_spec k 64); apply lookup_replicate; lia. }
  assert (free_ok p m (fun _ => [])) as Hf by (intros k Hk; exists 0; split_and!; [by apply Hemp | done..]).
  eapply wp_mono; [exact (adjust_ok p m _ [] Hf Ht Hm)|]. intros [p' m'] (-> & R & _ & Hf' & Hb').
  split_and!; [|exact R | done | done | done].
  split; [done | by eapply inr_mapped | by intros ? ? ?%not_elem_of_nil | by exists (fun _ => []) | done | done].
Qed.

(** ** The walk *)

Lemma list_filter_all {A} (P : A -> bool) (l : list A) : (forall x, x ∈ l -> P x) -> filter P l = l.
Proof.
  induction l as [|x l IH]; intros H; [done|]. rewrite filter_cons, decide_True by (apply H; by left).
  f_equal. apply IH. intros y Hy. apply H. by right.
Qed.
Lemma list_filter_none {A} (P : A -> bool) (l : list A) : (forall x, x ∈ l -> ~ P x) -> filter P l = [].
Proof.
  induction l as [|x l IH]; intros H; [done|]. rewrite filter_cons, decide_False by (apply H; by left).
  apply IH. intros y Hy. apply H. by right.
Qed.

Definition used (m : words) (b : block) : bool := match m !! b.1 with Some w => Z.land w 1 =? 0 | None => false end.
(** The size word says what the block is. *)
Definition header_ok (m : words) (addr : Z) '((a, n) : block) : Prop :=
  16 <= n /\ (class_ok n /\ m !! a = Some (enc addr n) \/ n mod 16 = 0 /\ m !! a = Some (n + 1)).

Lemma walk_ok m addr tl : forall x fuel, contig x hi tl -> Forall (header_ok m addr) tl -> (length tl < fuel)%nat ->
  _walk_trunk fuel x hi m = Some ((fun '(a, n) => (a + ALLOC_NODE_SIZE, n)) <$> filter (fun b => used m b) tl).
Proof.
  induction tl as [|[a n] tl IH]; intros x fuel Hc Hok Hfuel; (destruct fuel as [|fuel]; [simpl in Hfuel; lia|]); simpl.
  - simpl in Hc. subst x. by rewrite Z.ltb_irrefl.
  - destruct Hc as [-> Hc]. apply Forall_cons in Hok as [[Hn Hw] Hok].
    assert (x < hi) as Hx.
    { assert (Forall ok_size tl -> total tl = hi - (x + n)) as _ by (intros; by apply contig_total).
      assert (0 <= total tl) as H0. { clear -Hok. induction tl as [|[b k] tl IH]; simpl; [lia|]. apply Forall_cons in Hok as [[? _] Hok]. specialize (IH Hok). lia. }
      rewrite (contig_total _ _ Hc) in H0. lia. }
    rewrite (proj2 (Z.ltb_lt _ _) Hx). unfold wload. rewrite filter_cons. simpl in Hfuel.
    destruct Hw as [[Hcl Hw]|[H16 Hw]]; rewrite Hw; cbn [mbind option_bind].
    + assert (used m (x, n)) as Hu by (unfold used; simpl; rewrite Hw, enc_bit by auto; done).
      rewrite decide_True by done. rewrite enc_bit by auto. rewrite Z.eqb_refl. cbn [negb]. rewrite enc_size by done.
      rewrite IH by (done || lia). done.
    + assert (~ used m (x, n)) as Hu by (unfold used; simpl; rewrite Hw, flag_bit by done; by intros []).
      rewrite decide_False by done. rewrite flag_bit by done. change (1 =? 0) with false. cbn [negb]. rewrite mask3 by (done || lia).
      rewrite IH by (done || lia). done.
Qed.

Lemma contig_length x tl addr m : contig x hi tl -> Forall (header_ok m addr) tl -> 16 * Z.of_nat (length tl) <= hi - x.
Proof.
  revert x. induction tl as [|[a n] tl IH]; intros x Hc Hok; simpl in *; [lia|].
  destruct Hc as [-> Hc]. apply Forall_cons in Hok as [[Hn _] Hok]. specialize (IH _ Hc Hok). lia.
Qed.
Lemma contig_sorted x tl addr m : contig x hi tl -> Forall (header_ok m addr) tl ->
  StronglySorted (fun b c : block => b.1 < c.1) tl /\ Forall (fun b => x <= b.1) tl.
Proof.
  revert x. induction tl as [|[a n] tl IH]; intros x Hc Hok; [by split; constructor|].
  destruct Hc as [-> Hc]. apply Forall_cons in Hok as [[Hn _] Hok]. destruct (IH _ Hc Hok) as [H1 H2]. split.
  - constructor; [done|]. eapply Forall_impl; [exact H2|]. simpl. intros [b k] Hb. simpl in *. lia.
  - constructor; [simpl; lia|]. eapply Forall_impl; [exact H2|]. simpl. intros [b k] Hb. simpl in *. lia.
Qed.

Lemma StronglySorted_filter {A} (R : A -> A -> Prop) (P : A -> bool) (l : list A) :
  StronglySorted R l -> StronglySorted R (filter P l).
Proof.
  induction 1 as [|x l Hl IH Hx]; [constructor|]. rewrite filter_cons. destruct (decide (P x)); [|done].
  constructor; [done|]. rewrite Forall_forall in Hx |- *. intros y [_ Hy]%list_elem_of_filter. by apply Hx.
Qed.

(** The walk of the region visits the blocks in use, each once, in the order of their addresses. *)
Lemma walk_inv_ok p m live fuel : sub_inv p m live -> (Z.to_nat ((hi - lo) / 16) < fuel)%nat -> exists l,
  _walk_trunk fuel lo hi m = Some ((fun '(a, n) => (a + ALLOC_NODE_SIZE, n)) <$> l) /\
  l ≡ₚ live /\ StronglySorted (fun b c : block => b.1 < c.1) l.
Proof.
  intros [_ _ Hl (fl & Hf & (tl & Hc & E & Hok)) Hb _] Hfuel.
  assert (forall a n, (a, n) ∈ frees fl ++ bump p -> m !! a = Some (n + 1)) as Hfree.
  { intros a n [Hin|Hin]%elem_of_app.
    - apply frees_elem in Hin as (k & Hk & -> & Hin). destruct (Hf k Hk) as (h & _ & _ & Hch). revert h Hch Hin.
      induction (fl k) as [|b l IH]; intros h Hch Hin; [by apply not_elem_of_nil in Hin|].
      destruct Hch as (-> & _ & Hw & next & _ & Hch). apply elem_of_cons in Hin as [-> |Hin]; [done|]. by eapply IH.
    - unfold bump in Hin. destruct (decide _) as [|Hne]; [by apply not_elem_of_nil in Hin|].
      apply list_elem_of_singleton in Hin. injection Hin as -> ->. by apply Hb. }
  assert (Forall (header_ok m (sub_addr p)) tl) as Hh.
  { rewrite E in Hok |- *. rewrite Forall_forall in Hok |- *. intros [a n] Hin. destruct (Hok _ Hin) as [H16 Hn].
    split; [done|]. apply elem_of_app in Hin as [Hin|Hin]; [left; by apply Hl | right; by auto]. }
  exists (filter (fun b => used m b) tl). pose proof (contig_length _ _ _ _ Hc Hh) as Hlen. split_and!.
  - apply (walk_ok m (sub_addr p)); [done..|]. pose proof (Z_div_mod_eq_full (hi - lo) 16). pose proof (Z.mod_pos_bound (hi - lo) 16 ltac:(lia)). lia.
  - rewrite E, filter_app.
    assert (filter (fun b => used m b) live = live) as ->.
    { apply list_filter_all. intros [a n] Hin. destruct (Hl a n Hin) as [Hn Hw]. unfold used. simpl. by rewrite Hw, enc_bit, Z.eqb_refl by auto. }
    assert (filter (fun b => used m b) (frees fl ++ bump p) = []) as ->; [|by rewrite app_nil_r].
    apply list_filter_none. intros [a n] Hin. unfold used. simpl. rewrite (Hfree _ _ Hin).
    rewrite flag_bit; [by intros []|]. rewrite E in Hok. rewrite Forall_forall in Hok. apply (Hok (a, n)). apply elem_of_app. by right.
  - apply StronglySorted_filter. by apply (contig_sorted lo tl (sub_addr p) m).
Qed.
End steps.
