(* ===== verification/MemPool.v ===== *)
(** * MemPool: pools of memory (nd_mempool.c)

    A pool begins in its first page, which also holds its first sub-allocator; it gets
    more sub-allocators from the system as they are needed, keeps up to two empty ones, and
    serves large requests directly from the system.  The size word of a block names the page
    of its sub-allocator, which is how a released address finds its way back.

    [nd_mmap] is the system call: the address of the new pages, or NULL or [MAP_FAILED] when
    it fails.  The structure sizes are those of a Linux build with ND_SOURCE_TRACE and 8-byte
    pointers.  The guard bytes that ND_MEM_CHECK puts around the blocks are a layer on top of
    these operations; [nd_pool_realloc] is the code of the builds without them. *)

From stdpp Require Import gmap.
From S2P Require Import Prelude Handle MemChunk MemSub.

Definition POOL_STRUCT_SIZE : Z := 240.    (* sizeof(nd_mmpool_t) *)
Definition BIG_CHUNK_SIZE : Z := 32.       (* sizeof(struct big_chunk_list) *)
Definition DEFAULT_PAGE_SIZE : Z := MIN_PAGE_SIZE.
Definition EMEMPOOL_NORMAL : Z := 256 * 1024.
Definition EMEMPOOL_HUGE : Z := 1024 * 1024.
Definition UNLIMITED : Z := 2 ^ 64 - 1.    (* (size_t) -1 *)
Definition MAP_FAILED : Z := 2 ^ 64 - 1.
Definition ROUND_PAGE_SIZE (s : Z) : Z := Z.land (u64 (s + MIN_PAGE_SIZE - 1)) (Z.lnot (MIN_PAGE_SIZE - 1)).

(** [nd_mmpool_t]; its lists hold the addresses of their members, [subs] are the sub-allocators. *)
Record nd_mmpool_t := mk_pool {
  pool_addr : Z;
  pool_size : Z;
  capacity : Z;
  pool_allocated : Z;
  alloc_granularity : Z;
  free_allocator_num : Z;
  in_used : bool;
  destruct_func : bool;          (* a destructor is set *)
  pool_errno : Z;
  cur_allocator : Z;
  allocator_list : list Z;
  free_allocator : list Z;
  page_list : list Z;
  subs : gmap Z nd_sub_allocator
}.

Definition pool_set_errno (e : Z) (q : nd_mmpool_t) : nd_mmpool_t :=
  mk_pool (pool_addr q) (pool_size q) (capacity q) (pool_allocated q) (alloc_granularity q) (free_allocator_num q)
    (in_used q) (destruct_func q) e (cur_allocator q) (allocator_list q) (free_allocator q) (page_list q) (subs q).
Definition set_cur (a : Z) (q : nd_mmpool_t) : nd_mmpool_t :=
  mk_pool (pool_addr q) (pool_size q) (capacity q) (pool_allocated q) (alloc_granularity q) (free_allocator_num q)
    (in_used q) (destruct_func q) (pool_errno q) a (allocator_list q) (free_allocator q) (page_list q) (subs q).
Definition set_used (q : nd_mmpool_t) : nd_mmpool_t :=
  mk_pool (pool_addr q) (pool_size q) (capacity q) (pool_allocated q) (alloc_granularity q) (free_allocator_num q)
    true (destruct_func q) (pool_errno q) (cur_allocator q) (allocator_list q) (free_allocator q) (page_list q) (subs q).
Definition set_pages (n : Z) (l : list Z) (q : nd_mmpool_t) : nd_mmpool_t :=
  mk_pool (pool_addr q) (pool_size q) (capacity q) n (alloc_granularity q) (free_allocator_num q)
    (in_used q) (destruct_func q) (pool_errno q) (cur_allocator q) (allocator_list q) (free_allocator q) l (subs q).
Definition set_lists (al fr : list Z) (num : Z) (q : nd_mmpool_t) : nd_mmpool_t :=
  mk_pool (pool_addr q) (pool_size q) (capacity q) (pool_allocated q) (alloc_granularity q) num
    (in_used q) (destruct_func q) (pool_errno q) (cur_allocator q) al fr (page_list q) (subs q).
Definition pool_set_subs (s : gmap Z nd_sub_allocator) (q : nd_mmpool_t) : nd_mmpool_t :=
  mk_pool (pool_addr q) (pool_size q) (capacity q) (pool_allocated q) (alloc_granularity q) (free_allocator_num q)
    (in_used q) (destruct_func q) (pool_errno q) (cur_allocator q) (allocator_list q) (free_allocator q) (page_list q) s.

(** [pool->_allocator] *)
Definition _allocator (q : nd_mmpool_t) : Z := pool_addr q + POOL_STRUCT_SIZE.

(** ** Pages of the system *)

Fixpoint map_words (n : nat) (a : Z) (m : words) : words :=
  match n with O => m | S n => map_words n (a + 8) (<[a := 0]> m) end.
Fixpoint unmap_words (n : nat) (a : Z) (m : words) : words :=
  match n with O => m | S n => unmap_words n (a + 8) (delete a m) end.
Definition map_region (a size : Z) (m : words) : words := map_words (Z.to_nat (size / 8)) a m.
Definition unmap_region (a size : Z) (m : words) : words := unmap_words (Z.to_nat (size / 8)) a m.

Definition nd_addr_checkvalid (addr : Z) : bool := (0x10000 <=? addr) && (addr <=? 0x7fffffffffff).
Definition nd_alloc_checkvalid (addr : Z) : bool := nd_addr_checkvalid addr && (Z.land addr 3 =? 0).

Section pool.
Context (nd_mmap : Z -> words -> Z).

(** The address of the pages, 0 when there are none.  The failure of the system call is not 0. *)
Definition __sys_page_alloc (size : Z) (m : words) : option (words * Z) :=
  let size := PAGE_ALINE size in
  let ret := nd_mmap size m in
  if ret =? 0 then Some (m, 0)
  else
    let m := if ret =? MAP_FAILED then m else map_region ret size m in
    m ← wstore ret size m;
    Some (m, ret).

Definition __sys_page_free (addr : Z) (m : words) : option words :=
  size ← wload addr m;
  Some (unmap_region addr size m).

(** ** Sub-allocators of a pool *)

Abbreviation pmem := (nd_mmpool_t * words)%type.

Definition init_sub (addr size : Z) '((q, m) : pmem) : option pmem :=
  '(p, m) ← __sub_allocator_init addr size m;
  Some (set_lists (addr :: allocator_list q) (free_allocator q) (free_allocator_num q) (pool_set_subs (<[addr := p]> (subs q)) q), m).

(** [goto RE_ALLOC] with half the size: never more rounds than the size has bits. *)
Fixpoint re_alloc (fuel : nat) (alloc_size size : Z) (m : words) : option (words * Z * Z) :=
  match fuel with
  | O => None
  | S fuel =>
      '(m, p) ← __sys_page_alloc alloc_size m;
      if p =? 0 then
        let alloc_size := Z.shiftr alloc_size 1 in
        if size <? alloc_size then re_alloc fuel alloc_size size m else Some (m, 0, alloc_size)
      else Some (m, p, alloc_size)
  end.

Definition __alloc_sub_allocator (size : Z) '((q, m) : pmem) : option (pmem * Z) :=
  match free_allocator q with
  | [] =>
      let alloc_size := Z.max (alloc_granularity q * MIN_PAGE_SIZE) size in
      '(m, p, alloc_size) ← re_alloc 64 alloc_size size m;
      if p =? 0 then Some ((q, m), 0)
      else qm ← init_sub p alloc_size (q, m); Some (qm, p)
  | pos :: rest =>
      let q := set_lists (allocator_list q) rest (u8 (free_allocator_num q - 1)) q in
      p ← subs q !! pos;
      qm ← init_sub pos (sub_size p) (q, m);
      Some (qm, pos)
  end.

Definition del (a : Z) (l : list Z) : list Z := filter (fun b => b <> a) l.

Definition __free_sub_allocator (sub_allocator : Z) '((q, m) : pmem) : option pmem :=
  let al := del sub_allocator (allocator_list q) in
  if 2 <=? free_allocator_num q then
    p ← subs q !! sub_allocator;
    m ← wstore sub_allocator (sub_size p) m;   (* the first word of the structure *)
    m ← __sys_page_free sub_allocator m;
    Some (set_lists al (free_allocator q) (free_allocator_num q) (pool_set_subs (delete sub_allocator (subs q)) q), m)
  else Some (set_lists al (sub_allocator :: free_allocator q) (u8 (free_allocator_num q + 1)) q, m).

(** The bound is the size of the structure past the end of the region. *)
Definition __check_in_sub (sub : nd_sub_allocator) (p : Z) : bool :=
  (sub_addr sub <? p) && (p <? sub_addr sub + SUB_ALLOCATOR_SIZE + sub_size sub).

(** ** The pool *)

Definition pool_shape (maxsize : Z) : Z * Z * Z :=   (* size, maxsize, _gran *)
  if maxsize =? UNLIMITED then (DEFAULT_PAGE_SIZE * 64, maxsize, 64)
  else if maxsize <=? DEFAULT_PAGE_SIZE then (DEFAULT_PAGE_SIZE, DEFAULT_PAGE_SIZE, 1)
  else if maxsize <=? EMEMPOOL_NORMAL then (DEFAULT_PAGE_SIZE, DEFAULT_PAGE_SIZE, 1)
  else (EMEMPOOL_HUGE, ROUND_PAGE_SIZE maxsize, 1).

Definition nd_pool_create (maxsize : Z) (m : words) : option (option nd_mmpool_t * words) :=
  if maxsize =? 0 then Some (None, m)
  else
    let '(size, maxsize, _gran) := pool_shape maxsize in
    '(m, pool) ← __sys_page_alloc size m;
    if pool =? 0 then Some (None, m)
    else
      let q := mk_pool pool (u32 size) maxsize size _gran 0 false false NDERR_SUCCESS 0 [] [] [] ∅ in
      '(q, m) ← init_sub (_allocator q) (size - POOL_STRUCT_SIZE) (q, m);
      Some (Some (set_cur (_allocator q) q), m).

Definition max_free (s : Z) (q : nd_mmpool_t) : option Z := p ← subs q !! s; Some (_get_max_free_chunk p).

Definition alloc_in (s size : Z) '((q, m) : pmem) : option (pmem * Z) :=
  p ← subs q !! s;
  '((p, m), addr) ← nd_allocator_alloc size (p, m);
  Some ((pool_set_subs (<[s := p]> (subs q)) q, m), addr).

(** Without a current sub-allocator: the first one with room becomes the current one. *)
Fixpoint alloc_any (l : list Z) (size : Z) (qm : pmem) : option (pmem * Z) :=
  match l with
  | [] => Some (qm, 0)
  | s :: l =>
      if s =? cur_allocator qm.1 then alloc_any l size qm
      else
        '((q, m), addr) ← alloc_in s size qm;
        if negb (addr =? 0) then Some ((set_cur s q, m), addr) else alloc_any l size (q, m)
  end.

Definition _pool_alloc_real (size : Z) '((q, m) : pmem) : option (pmem * Z) :=
  if negb (nd_alloc_checkvalid (pool_addr q)) then Some ((q, m), 0)
  else
    let q := pool_set_errno NDERR_SUCCESS q in
    if size =? 0 then Some ((pool_set_errno NDERR_INVALID_INPUT q, m), 0)
    else if capacity q <? pool_allocated q then Some ((pool_set_errno NDERR_NOSOURCE q, m), 0)
    else if DIRECT_ALLOC_SIZE <? u64 (size + ALLOC_NODE_SIZE) then
      '(m, new_chunk) ← __sys_page_alloc (u64 (size + BIG_CHUNK_SIZE)) m;
      if new_chunk =? 0 then Some ((pool_set_errno NDERR_NOSOURCE q, m), 0)
      else
        alloc_size ← wload new_chunk m;
        let chunk_size := alloc_size - BIG_CHUNK_SIZE + ALLOC_NODE_SIZE in
        m ← wstore (new_chunk + 24) chunk_size m;
        m ← wstore new_chunk (pool_addr q) m;                       (* alloc_addr->pool, where new_chunk->size was *)
        m ← wstore (new_chunk + 24) (Z.lor chunk_size 2) m;
        Some ((set_used (set_pages (u64 (pool_allocated q + chunk_size)) (new_chunk :: page_list q) q), m), new_chunk + BIG_CHUNK_SIZE)
    else
      '((q, m), addr) ←
        (if negb (cur_allocator q =? 0) then alloc_in (cur_allocator q) size (q, m)
         else alloc_any (allocator_list q) size (q, m));
      '((q, m), addr) ←
        (if addr =? 0 then
           '((q, m), sub) ← __alloc_sub_allocator size (q, m);
           if negb (sub =? 0) then
             '((q, m), addr) ← alloc_in sub size (q, m);
             f1 ← max_free sub q;
             f2 ← max_free (cur_allocator q) q;
             Some ((if f2 <? f1 then set_cur sub q else q, m), addr)
           else Some ((q, m), addr)
         else Some ((q, m), addr));
      Some ((set_used q, m), addr).

(** The sub-allocator a size word names. *)
Definition find_sub (page : Z) (q : nd_mmpool_t) : Z := if page =? pool_addr q then _allocator q else page.

(** [nd_atomic_sub] through a pointer to the first four bytes of a word: [ndatomic_t] is an [int],
    so that nothing is borrowed from the other four. *)
Definition nd_atomic_sub (word step : Z) : Z := word - wrapu 32 word + u32 (word - step).

Definition _pool_free_real (addr : Z) '((q, m) : pmem) : option pmem :=
  if negb (nd_alloc_checkvalid addr) then Some (q, m)
  else
    let free_addr := addr - ALLOC_NODE_SIZE in
    w ← wload free_addr m;
    if negb (Z.land w 2 =? 0) then
      let size := Z.land w (Z.lnot 3) in
      let chunk := addr - BIG_CHUNK_SIZE in
      pool ← wload chunk m;
      if negb (nd_alloc_checkvalid pool) then Some (q, m)
      else if negb (pool =? pool_addr q) then None     (* a block of another pool *)
      else
        let q := set_pages (nd_atomic_sub (pool_allocated q) size) (del chunk (page_list q)) q in
        m ← wstore chunk (size + BIG_CHUNK_SIZE - ALLOC_NODE_SIZE) m;
        m ← __sys_page_free chunk m;
        Some (q, m)
    else
      '(m, page) ← __index2_alloc_size free_addr m;
      let s := find_sub page q in
      sub_alloc ← subs q !! s;
      if negb (nd_alloc_checkvalid s) || negb (__check_in_sub sub_alloc addr) then Some (q, m)
      else
        '((p, m), r) ← nd_allocator_free free_addr (sub_alloc, m);
        let q := pool_set_subs (<[s := p]> (subs q)) q in
        if r =? 0 then
          if negb (s =? _allocator q) && negb (s =? cur_allocator q) then __free_sub_allocator s (q, m) else Some (q, m)
        else
          f1 ← max_free s q;
          f2 ← max_free (cur_allocator q) q;
          Some (if f2 <? f1 then set_cur s q else q, m).
(** ** Walk, reset, destruction *)

(** The blocks the callback is called on. *)
Fixpoint walk_subs (l : list Z) (qm : pmem) : option (list (Z * Z)) :=
  let '(q, m) := qm in
  match l with
  | [] => Some []
  | s :: l =>
      p ← subs q !! s;
      here ← _walk_trunk (Z.to_nat (sub_size p / 16) + 1) (s + SUB_ALLOCATOR_SIZE) (s + sub_size p) m;
      rest ← walk_subs l (q, m);
      Some (here ++ rest)
  end.
Fixpoint walk_pages (l : list Z) (m : words) : option (list (Z * Z)) :=
  match l with
  | [] => Some []
  | c :: l =>
      w ← wload (c + 24) m;
      rest ← walk_pages l m;
      Some ((c + BIG_CHUNK_SIZE, Z.land w (Z.lnot 3)) :: rest)
  end.
Definition _walk_alloced_inpool '((q, m) : pmem) : option (list (Z * Z)) :=
  if negb (destruct_func q) then Some []
  else l1 ← walk_subs (allocator_list q) (q, m); l2 ← walk_pages (page_list q) m; Some (l1 ++ l2).

Fixpoint free_subs (l : list Z) (qm : pmem) : option pmem :=
  let '(q, m) := qm in
  match l with
  | [] => Some (q, m)
  | s :: l =>
      if s =? _allocator q then free_subs l (q, m)
      else
        p ← subs q !! s;
        m ← wstore s (sub_size p) m;
        m ← __sys_page_free s m;
        free_subs l (pool_set_subs (delete s (subs q)) q, m)
  end.
Fixpoint free_pages (l : list Z) (m : words) : option words :=
  match l with
  | [] => Some m
  | c :: l =>
      w ← wload (c + 24) m;
      m ← wstore c (Z.land w (Z.lnot 3) + BIG_CHUNK_SIZE - ALLOC_NODE_SIZE) m;
      m ← __sys_page_free c m;
      free_pages l m
  end.

(** The destructor's calls, and the pool with its first sub-allocator only. *)
Definition nd_pool_reset '((q, m) : pmem) : option (list (Z * Z) * pmem) :=
  calls ← (if destruct_func q && in_used q then _walk_alloced_inpool (q, m) else Some []);
  let sub_list := del (_allocator q) (allocator_list q) in
  let page := page_list q in
  let q := set_lists [] (free_allocator q) (free_allocator_num q) (set_pages (pool_size q) [] q) in
  '(q, m) ← init_sub (_allocator q) (pool_size q - POOL_STRUCT_SIZE) (q, m);
  let q := set_cur (_allocator q) q in
  '(q, m) ← free_subs sub_list (q, m);
  m ← free_pages page m;
  Some (calls, (q, m)).

(** What is left of the memory. *)
Definition nd_pool_destroy '((q, m) : pmem) : option (list (Z * Z) * words) :=
  '(calls, (q, m)) ← nd_pool_reset (q, m);
  m ← wstore (pool_addr q) (pool_size q) m;
  m ← __sys_page_free (pool_addr q) m;
  Some (calls, m).

(** [_tryto_desctroy] *)
Definition _tryto_desctroy (permament : bool) (qm : pmem) : option (option (list (Z * Z) * words)) :=
  if permament then Some None else r ← nd_pool_destroy qm; Some (Some r).

(** ** Reallocation *)

(** The lengths of the user's part and of the block. *)
Definition _user_addr_2sys (useraddr : Z) (m : words) : option (Z * Z) :=
  w ← wload (useraddr - ALLOC_NODE_SIZE) m;
  let alloc_len := if negb (Z.land w 2 =? 0) then Z.land w (Z.lnot 3) else index_size w in
  Some (alloc_len - ALLOC_NODE_SIZE, alloc_len).

(** [memcpy] of [n] words. *)
Fixpoint copy_words (n : nat) (dst src : Z) (m : words) : option words :=
  match n with
  | O => Some m
  | S n => v ← wload src m; m ← wstore dst v m; copy_words n (dst + 8) (src + 8) m
  end.

Definition nd_pool_realloc (oldaddr newsize : Z) '((q, m) : pmem) : option (pmem * Z) :=
  if negb (nd_alloc_checkvalid oldaddr) then Some ((q, m), 0)
  else
    '(user_len, alloc_len) ← _user_addr_2sys oldaddr m;
    let size := __get_need_size (u64 (newsize + (alloc_len - user_len))) in
    if size <=? alloc_len then Some ((q, m), oldaddr)
    else
      '((q, m), newaddr) ← _pool_alloc_real newsize (q, m);
      if negb (newaddr =? 0) then
        m ← copy_words (Z.to_nat (user_len / 8)) newaddr oldaddr m;
        qm ← _pool_free_real oldaddr (q, m);
        Some (qm, newaddr)
      else Some ((q, m), 0).
End pool.

(** After large blocks of 3 GB and 2 GB and the release of the first, 4 GB too much are counted. *)
Example free_counts_too_much :
  nd_atomic_sub (3 * 2 ^ 30 + 2 * 2 ^ 30) (3 * 2 ^ 30) = 2 * 2 ^ 30 + 2 ^ 32.
Proof. reflexivity. Qed.
