(* ===== verification/MemPoolInv.v ===== *)
(** * MemPoolInv: the pool keeps its blocks apart

    The definitions are in [MemPool].  A pool owns regions of the memory: its own pages, those
    of its other sub-allocators, in use or kept for later, and those of the large blocks.
    Allocation and release keep these regions apart and each sub-allocator correct, so that
    the blocks in use never overlap and keep their contents. *)

From stdpp Require Import functions gmap.
From S2P Require Import Prelude Handle MemChunk MemSub MemPool.

(** ** Regions *)

Fixpoint apart (l : list block) : Prop :=
  match l with [] => True | b :: l => disj b.1 b.2 l /\ apart l end.

Lemma disj_sym a n b k (l : list block) : a + n <= b \/ b + k <= a -> disj b k l -> disj b k ((a, n) :: l).
Proof. intros H Hd c j [[= -> ->]|Hc]%elem_of_cons; [lia | by apply Hd]. Qed.

#[export] Instance apart_proper : Proper ((≡ₚ) ==> iff) apart.
Proof.
  assert (forall l1 l2, l1 ≡ₚ l2 -> apart l1 -> apart l2) as H; [|intros l1 l2 E; split; apply H; [done | by symmetry]].
  intros l1 l2 E. induction E as [|[a n] l1 l2 E IH|[a n] [b k] l|]; simpl; [done | | |auto].
  - intros [Hd Ha]. split; [by rewrite <- E | auto].
  - intros [Hd [Hd' Ha]]. assert (b + k <= a \/ a + n <= b) as Hab by (specialize (Hd a n ltac:(by left)); simpl in *; lia).
    split_and!; [| | done].
    + apply disj_sym; [lia | done].
    + intros c j Hc. apply Hd. by right.
Qed.

Lemma apart_two l a n b k : apart l -> (a, n) ∈ l -> (b, k) ∈ l -> (a, n) <> (b, k) -> a + n <= b \/ b + k <= a.
Proof.
  intros Hl Ha Hb Hne. apply list_elem_of_split in Ha as (l1 & l2 & ->). rewrite <- Permutation_middle in Hl, Hb.
  destruct Hl as [Hd _]. apply elem_of_cons in Hb as [[= -> ->]|Hb]; [done|]. by apply Hd.
Qed.

(** ** Pages *)

Lemma map_words_lookup n a m x : map_words n a m !! x =
  if decide (a <= x < a + 8 * Z.of_nat n /\ (x - a) mod 8 = 0) then Some 0 else m !! x.
Proof.
  revert a m. induction n as [|n IH]; intros a m; cbn [map_words].
  - rewrite decide_False by lia. done.
  - rewrite IH. replace (x - (a + 8)) with (x - a + (-1) * 8) by lia. rewrite Z.mod_add by lia.
    destruct (decide (a + 8 <= x < a + 8 + 8 * Z.of_nat n /\ (x - a) mod 8 = 0)) as [H|H].
    { by rewrite decide_True by lia. }
    destruct (decide (x = a)) as [->|Hne].
    + rewrite lookup_insert_eq, decide_True; [done|]. rewrite Z.sub_diag. split; [lia | done].
    + rewrite lookup_insert_ne by done. rewrite decide_False; [done|]. intros [Hx H8].
      pose proof (Z_div_mod_eq_full (x - a) 8). lia.
Qed.
Lemma unmap_words_lookup n a m x : unmap_words n a m !! x =
  if decide (a <= x < a + 8 * Z.of_nat n /\ (x - a) mod 8 = 0) then None else m !! x.
Proof.
  revert a m. induction n as [|n IH]; intros a m; cbn [unmap_words].
  - rewrite decide_False by lia. done.
  - rewrite IH. replace (x - (a + 8)) with (x - a + (-1) * 8) by lia. rewrite Z.mod_add by lia.
    destruct (decide (a + 8 <= x < a + 8 + 8 * Z.of_nat n /\ (x - a) mod 8 = 0)) as [H|H].
    { by rewrite decide_True by lia. }
    destruct (decide (x = a)) as [->|Hne].
    + rewrite lookup_delete_eq, decide_True; [done|]. rewrite Z.sub_diag. split; [lia | done].
    + rewrite lookup_delete_ne by done. rewrite decide_False; [done|]. intros [Hx H8].
      pose proof (Z_div_mod_eq_full (x - a) 8). lia.
Qed.

Lemma mod8_of x k : (k | x) -> (8 | k) -> x mod 8 = 0.
Proof. intros H1 H2. apply Z.mod_divide; [done|]. by etransitivity. Qed.

(** A region of the system. *)
Definition page_ok (a n : Z) : Prop := a mod 4096 = 0 /\ n mod 4096 = 0 /\ 0x10000 <= a /\ 0x10000 <= n /\ a + n <= 2 ^ 47.

Lemma map_region_out a n m x : 0 <= n -> x < a \/ a + n <= x -> map_region a n m !! x = m !! x.
Proof.
  intros Hn Hx. unfold map_region. rewrite map_words_lookup, decide_False; [done|]. rewrite Z2Nat.id by (apply Z.div_pos; lia).
  pose proof (Z_div_mod_eq_full n 8). pose proof (Z.mod_pos_bound n 8 ltac:(lia)). lia.
Qed.
Lemma unmap_region_out a n m x : 0 <= n -> x < a \/ a + n <= x -> unmap_region a n m !! x = m !! x.
Proof.
  intros Hn Hx. unfold unmap_region. rewrite unmap_words_lookup, decide_False; [done|]. rewrite Z2Nat.id by (apply Z.div_pos; lia).
  pose proof (Z_div_mod_eq_full n 8). pose proof (Z.mod_pos_bound n 8 ltac:(lia)). lia.
Qed.
Lemma map_region_mapped a n m : page_ok a n -> mapped a (a + n) (map_region a n m).
Proof.
  intros (Ha & Hn & Hge & Hgn & _) x Hx H8. unfold map_region. rewrite map_words_lookup, decide_True; [by eexists|].
  pose proof (Z_div_mod_eq_full n 4096). pose proof (Z_div_mod_eq_full a 4096).
  pose proof (Z_div_mod_eq_full x 8).
  assert (n / 8 = n / 4096 * 512) as -> by (symmetry; apply (Z.div_unique_pos n 8 (n / 4096 * 512) 0); lia). split; [lia|].
  symmetry. apply (Z.mod_unique_pos _ 8 (x / 8 - a / 4096 * 512)); lia.
Qed.

(** ** A sub-allocator depends on its region only *)

Lemma sub_inv_frame lo hi p m m' live : (forall x, lo <= x < hi -> m' !! x = m !! x) ->
  sub_inv lo hi p m live -> sub_inv lo hi p m' live.
Proof.
  intros E [Ha Hm Hl (fl & Hf & Ht) Hb Hsz].
  assert (forall bs, (forall b, b ∈ bs -> b ∈ live ++ frees fl ++ bump p) -> same_on bs m m') as Hs.
  { intros bs Hbs a n x Hin Hx. apply E. destruct (tiled_in _ _ _ a n Ht) as (? & ? & _); [by apply Hbs | lia]. }
  split; [done | intros x Hx H8; rewrite E by done; by apply Hm | | | | done].
  - intros a n Hin. eapply live_keep; [exact Hl | | done]. apply Hs. set_solver.
  - exists fl. split; [|done]. eapply free_ok_same; [|exact Hf]. apply Hs. set_solver.
  - intros Hne. rewrite (Hs (bump p) ltac:(set_solver) (sub_start p) (sub_end p - sub_start p)); [by apply Hb | |].
    + rewrite bump_some by done. by left.
    + rewrite bump_some in Ht by done. destruct (tiled_in _ _ _ (sub_start p) (sub_end p - sub_start p) Ht) as (_ & _ & _ & ?); [|lia].
      rewrite !elem_of_app. right. right. by left.
Qed.

Lemma sub_inv_live_in lo hi p m live a n : sub_inv lo hi p m live -> (a, n) ∈ live -> lo <= a /\ a + n <= hi.
Proof.
  intros [_ _ _ (fl & _ & Ht) _ _] Hin. destruct (tiled_in _ _ _ a n Ht) as (? & ? & _); [|done]. apply elem_of_app. by left.
Qed.

(** ** The invariant of a pool *)

Definition gran_size (q : nd_mmpool_t) : Z := alloc_granularity q * MIN_PAGE_SIZE.
(** The region of a sub-allocator, and the size it manages. *)
Definition sub_page (q : nd_mmpool_t) (s : Z) : block :=
  if s =? _allocator q then (pool_addr q, pool_size q) else (s, gran_size q).
Definition sub_len (q : nd_mmpool_t) (s : Z) : Z := if s =? _allocator q then pool_size q - POOL_STRUCT_SIZE else gran_size q.

Definition regions (q : nd_mmpool_t) (D : list block) : list block :=
  (sub_page q <$> allocator_list q) ++ ((fun s => (s, gran_size q)) <$> free_allocator q) ++ D.

Definition sub_ok (q : nd_mmpool_t) (m : words) (s : Z) (live : list block) : Prop :=
  exists p, subs q !! s = Some p /\ sub_addr p = s /\ sub_size p = sub_len q s /\
    sub_inv (s + SUB_ALLOCATOR_SIZE) (s + sub_len q s) p m live.

(** [L s]: the blocks of the sub-allocator [s] in use; [D]: the pages of the large blocks. *)
Record pool_inv (q : nd_mmpool_t) (m : words) (L : Z -> list block) (D : list block) : Prop := mk_pool_inv {
  pi_pool : 1 <= alloc_granularity q <= 64 /\ pool_size q <= 64 * MIN_PAGE_SIZE;
  pi_first : _allocator q ∈ allocator_list q;
  pi_cur : cur_allocator q ∈ allocator_list q;
  pi_pages : page_list q = D.*1;
  pi_apart : apart (regions q D);
  pi_ok : forall a n, (a, n) ∈ regions q D -> page_ok a n /\ mapped a (a + n) m;
  pi_subs : forall s, s ∈ allocator_list q -> sub_ok q m s (L s);
  pi_cached : forall s, s ∈ free_allocator q -> exists p, subs q !! s = Some p /\ sub_size p = gran_size q;
  pi_num : free_allocator_num q = Z.of_nat (length (free_allocator q)) /\ free_allocator_num q <= 2;
  pi_words : forall a n, (a, n) ∈ D -> m !! a = Some (pool_addr q) /\ m !! (a + 24) = Some (Z.lor (n - 24) 2)
}.

(** What the users of the pool have: the blocks of the sub-allocators, and the large ones, without their headers. *)
Definition user_of : block -> block := fun '(a, n) => (a + ALLOC_NODE_SIZE, n - ALLOC_NODE_SIZE).
Definition data_of : block -> block := fun '(a, n) => (a + BIG_CHUNK_SIZE, n - BIG_CHUNK_SIZE).
Definition in_use (q : nd_mmpool_t) (L : Z -> list block) (D : list block) : list block :=
  (allocator_list q ≫= fun s => user_of <$> L s) ++ (data_of <$> D).

Lemma in_use_cases q L D a n : (a, n) ∈ in_use q L D ->
  (exists s, s ∈ allocator_list q /\ (a - ALLOC_NODE_SIZE, n + ALLOC_NODE_SIZE) ∈ L s) \/ (a - BIG_CHUNK_SIZE, n + BIG_CHUNK_SIZE) ∈ D.
Proof.
  unfold in_use. intros [H|H]%elem_of_app.
  - left. apply list_elem_of_bind in H as (s & H & Hs).
    apply list_elem_of_fmap in H as ([b k] & [= -> ->] & H). exists s. split; [done|].
    replace (b + ALLOC_NODE_SIZE - ALLOC_NODE_SIZE) with b by lia. by replace (k - ALLOC_NODE_SIZE + ALLOC_NODE_SIZE) with k by lia.
  - right. apply list_elem_of_fmap in H as ([b k] & [= -> ->] & H).
    replace (b + BIG_CHUNK_SIZE - BIG_CHUNK_SIZE) with b by lia. by replace (k - BIG_CHUNK_SIZE + BIG_CHUNK_SIZE) with k by lia.
Qed.

Section inv.
Context (q : nd_mmpool_t) (m : words) (L : Z -> list block) (D : list block) (I : pool_inv q m L D).

Lemma sub_page_in s : s ∈ allocator_list q -> sub_page q s ∈ regions q D.
Proof. intros Hs. apply elem_of_app. left. apply list_elem_of_fmap. by exists s. Qed.

(** Where a sub-allocator is. *)
Lemma sub_geom s : s ∈ allocator_list q -> exists a n, sub_page q s = (a, n) /\ page_ok a n /\ mapped a (a + n) m /\
  (s + SUB_ALLOCATOR_SIZE) mod 16 = 0 /\ a <= s /\ s + sub_len q s = a + n /\ (s = a \/ s = _allocator q /\ a = pool_addr q) /\
  Z.land s (Z.lnot ALLOCATOR_PAGE_BITMASK) = a.
Proof.
  intros Hs. pose proof (sub_page_in s Hs) as Hin. destruct (sub_page q s) as [a n] eqn:E.
  destruct (pi_ok _ _ _ _ I a n Hin) as [Hp Hm]. exists a, n.
  assert (exists c, s = a + c /\ (c = 0 \/ c = 240 /\ s = _allocator q /\ a = pool_addr q) /\ s + sub_len q s = a + n) as (c & -> & Hc & Hlen).
  { unfold sub_page, sub_len in *. destruct (Z.eqb_spec s (_allocator q)) as [->|Hne]; injection E as <- <-.
    - exists 240. unfold _allocator, POOL_STRUCT_SIZE. split_and!; [done | by right | lia].
    - exists 0. split_and!; [lia | by left | lia]. }
  destruct Hp as (Ha & Hn & Hge & Hgn & Hle). pose proof (Z_div_mod_eq_full a 4096).
  split_and!; try done; try lia.
  - symmetry. apply (Z.mod_unique_pos _ 16 (a / 4096 * 256 + c / 16 + 68)); unfold SUB_ALLOCATOR_SIZE;
      destruct Hc as [-> | (-> & _)]; [lia | lia | change (0 / 16) with 0; lia | change (240 / 16) with 15; lia].
  - change ALLOCATOR_PAGE_BITMASK with (2 ^ 12 - 1). rewrite land_lnot_pow2 by lia. change (2 ^ 12) with 4096.
    rewrite <- (Z.div_unique_pos (a + c) 4096 (a / 4096) c); lia.
Qed.

(** The regions of two sub-allocators, of a sub-allocator and another region. *)
Lemma apart_subs s t : s ∈ allocator_list q -> t ∈ allocator_list q -> s <> t -> s + sub_len q s <= t \/ t + sub_len q t <= s.
Proof.
  intros Hs Ht Hne. pose proof (pi_apart _ _ _ _ I) as Ha. unfold regions in Ha.
  destruct (elem_of_Permutation (allocator_list q) s) as [[l1 E1] _]; [done|].
  rewrite E1 in Ht. apply elem_of_cons in Ht as [->|Ht]; [done|].
  destruct (elem_of_Permutation l1 t) as [[l2 E2] _]; [done|]. rewrite E1, E2 in Ha. destruct Ha as [Hd _].
  destruct (sub_geom s Hs) as (a & n & Es & _ & _ & _ & Ha & Hl & _).
  destruct (sub_geom t) as (b & k & Et & _ & _ & _ & Hb & Hk & _); [rewrite E1; by right|].
  rewrite Es in Hd. simpl in Hd. specialize (Hd b k ltac:(rewrite Et; by left)). lia.
Qed.
Lemma apart_other s a n : s ∈ allocator_list q -> (a, n) ∈ ((fun s => (s, gran_size q)) <$> free_allocator q) ++ D ->
  s + sub_len q s <= a \/ a + n <= s.
Proof.
  intros Hs Hin. pose proof (pi_apart _ _ _ _ I) as Ha. unfold regions in Ha.
  destruct (elem_of_Permutation (allocator_list q) s) as [[l1 E1] _]; [done|]. rewrite E1 in Ha. destruct Ha as [Hd _].
  destruct (sub_geom s Hs) as (b & k & Es & _ & _ & _ & Hb & Hl & _). rewrite Es in Hd. simpl in Hd.
  specialize (Hd a n). destruct Hd; [apply elem_of_app; by right | lia | lia].
Qed.

(** A block of a sub-allocator is in its region. *)
Lemma live_in s a n : s ∈ allocator_list q -> (a, n) ∈ L s -> s + SUB_ALLOCATOR_SIZE <= a /\ a + n <= s + sub_len q s.
Proof.
  intros Hs Hin. destruct (pi_subs _ _ _ _ I s Hs) as (p & _ & _ & _ & Hinv). by eapply sub_inv_live_in.
Qed.

(** A change within the region of one sub-allocator. *)
Lemma update_sub s p' m' live : s ∈ allocator_list q -> sub_addr p' = s -> sub_size p' = sub_len q s ->
  sub_inv (s + SUB_ALLOCATOR_SIZE) (s + sub_len q s) p' m' live ->
  inr (s + SUB_ALLOCATOR_SIZE) (s + sub_len q s) m m' ->
  pool_inv (pool_set_subs (<[s := p']> (subs q)) q) m' (<[s := live]> L) D.
Proof.
  intros Hs Ha Hsz Hinv [Hout Hin]. split; try apply I.
  - intros a n H. destruct (pi_ok _ _ _ _ I a n H) as [Hp Hm]. split; [done|]. intros x Hx H8. by apply Hin, Hm.
  - intros t Ht. simpl in Ht. destruct (decide (t = s)) as [->|Hne].
    + exists p'. rewrite fn_lookup_insert. simpl. rewrite lookup_insert_eq. done.
    + rewrite fn_lookup_insert_ne by done. destruct (pi_subs _ _ _ _ I t Ht) as (p & Hp & E1 & E2 & Hp'). exists p.
      simpl. rewrite lookup_insert_ne by done. split_and!; try done. eapply sub_inv_frame; [|exact Hp'].
      intros x Hx. apply Hout. destruct (apart_subs s t Hs Ht ltac:(done)); unfold SUB_ALLOCATOR_SIZE in *; change (sub_len (pool_set_subs (<[s:=p']> (subs q)) q) t) with (sub_len q t) in *; lia.
  - intros t Ht. destruct (pi_cached _ _ _ _ I t Ht) as (p & Hp & E). simpl. exists p. split; [|done].
    rewrite lookup_insert_ne; [done|]. intros <-.
    destruct (sub_geom s Hs) as (a & n & Es & (_ & _ & _ & Hn & _) & _ & _ & Ha' & Hl & Hc & _). unfold _allocator, POOL_STRUCT_SIZE in Hc.
    assert ((s, gran_size q) ∈ ((fun s => (s, gran_size q)) <$> free_allocator q) ++ D) as Hin'.
    { apply elem_of_app. left. apply list_elem_of_fmap. by exists s. }
    destruct (pi_ok _ _ _ _ I s (gran_size q)) as [(_ & _ & _ & Hg & _) _]; [apply elem_of_app; by right|].
    destruct (apart_other s s _ Hs Hin'); lia.
  - intros a n HD. destruct (pi_words _ _ _ _ I a n HD) as [H1 H2].
    destruct (pi_ok _ _ _ _ I a n) as [(_ & _ & _ & Hg & _) _]; [unfold regions; rewrite !elem_of_app; by right; right|].
    destruct (apart_other s a n Hs); [apply elem_of_app; by right | |]; unfold SUB_ALLOCATOR_SIZE in *; rewrite !Hout by lia; done.
Qed.

(** It leaves the blocks of the others. *)
Lemma update_same s m' : s ∈ allocator_list q -> inr (s + SUB_ALLOCATOR_SIZE) (s + sub_len q s) m m' -> same_on (L s) m m' ->
  same_on (in_use q L D) m m'.
Proof.
  intros Hs [Hout _] Hsame a n x Hin Hx. destruct (in_use_cases q L D a n Hin) as [(t & Ht & Hl)|HD].
  - destruct (decide (t = s)) as [->|Hne]; [apply (Hsame _ _ x Hl); unfold ALLOC_NODE_SIZE; lia|]. apply Hout.
    destruct (live_in t _ _ Ht Hl). unfold ALLOC_NODE_SIZE in *. destruct (apart_subs s t Hs Ht ltac:(done)); unfold SUB_ALLOCATOR_SIZE in *; lia.
  - apply Hout. destruct (apart_other s _ _ Hs ltac:(apply elem_of_app; right; exact HD)); unfold SUB_ALLOCATOR_SIZE, BIG_CHUNK_SIZE in *; lia.
Qed.
Lemma update_same_sub s live m' : s ∈ allocator_list q -> (forall b, b ∈ live -> b ∈ L s) ->
  inr (s + SUB_ALLOCATOR_SIZE) (s + sub_len q s) m m' -> same_on live m m' -> same_on (in_use q (<[s := live]> L) D) m m'.
Proof.
  intros Hs Hsub [Hout _] Hsame a n x Hin Hx. destruct (in_use_cases q _ D a n Hin) as [(t & Ht & Hl)|HD].
  - destruct (decide (t = s)) as [->|Hne].
    { rewrite fn_lookup_insert in Hl. apply (Hsame _ _ x Hl). unfold ALLOC_NODE_SIZE. lia. }
    rewrite fn_lookup_insert_ne in Hl by done. apply Hout. destruct (live_in t _ _ Ht Hl). unfold ALLOC_NODE_SIZE in *.
    destruct (apart_subs s t Hs Ht ltac:(done)); unfold SUB_ALLOCATOR_SIZE in *; lia.
  - apply Hout. destruct (apart_other s _ _ Hs ltac:(apply elem_of_app; right; exact HD)); unfold SUB_ALLOCATOR_SIZE, BIG_CHUNK_SIZE in *; lia.
Qed.

Lemma list_split s : s ∈ allocator_list q -> exists l, allocator_list q ≡ₚ s :: l /\ s ∉ l.
Proof.
  intros Hs. destruct (elem_of_Permutation (allocator_list q) s) as [[l E] _]; [done|]. exists l. split; [done|].
  intros (l' & E')%elem_of_Permutation. pose proof (pi_apart _ _ _ _ I) as Ha. unfold regions in Ha. rewrite E, E' in Ha.
  destruct Ha as [Hd _]. destruct (sub_geom s Hs) as (a & n & Es & (_ & _ & _ & Hn & _) & _). rewrite Es in Hd. simpl in Hd.
  specialize (Hd a n ltac:(rewrite Es; by left)). lia.
Qed.
End inv.

Lemma bind_other (L : Z -> list block) s l (ls : list Z) : s ∉ ls ->
  (ls ≫= fun t => user_of <$> <[s := l]> L t) = (ls ≫= fun t => user_of <$> L t).
Proof.
  induction ls as [|t ls IH]; intros Hs; [done|]. cbn. rewrite fn_lookup_insert_ne by set_solver. f_equal. apply IH. set_solver.
Qed.

Lemma in_use_set q m L D s live : pool_inv q m L D -> s ∈ allocator_list q -> exists R, in_use q L D ≡ₚ (user_of <$> L s) ++ R /\
  in_use q (<[s := live]> L) D ≡ₚ (user_of <$> live) ++ R.
Proof.
  intros I Hs. destruct (list_split q m L D I s Hs) as (l & E & Hl). exists ((l ≫= fun t => user_of <$> L t) ++ (data_of <$> D)).
  unfold in_use. rewrite !E. cbn. rewrite fn_lookup_insert, bind_other by done. by rewrite <- !app_assoc.
Qed.

(** ** The pool as its users see it: the blocks [U] they have. *)
Definition pool_state (q : nd_mmpool_t) (m : words) (U : list block) : Prop :=
  exists L D, pool_inv q m L D /\ U ≡ₚ in_use q L D.

#[export] Instance pool_state_proper q m : Proper ((≡ₚ) ==> iff) (pool_state q m).
Proof. intros U V E. unfold pool_state. by setoid_rewrite E. Qed.

Lemma set_subs_id q s p : subs q !! s = Some p -> pool_set_subs (<[s := p]> (subs q)) q = q.
Proof. intros H. rewrite insert_id by done. by destruct q. Qed.

Lemma sub_bounds q m L D s : pool_inv q m L D -> s ∈ allocator_list q ->
  ((s + SUB_ALLOCATOR_SIZE) mod 16 = 0 /\ 0 < s + SUB_ALLOCATOR_SIZE) /\ s + sub_len q s < 2 ^ 64 /\ 0x10000 <= s.
Proof.
  intros I Hs. destruct (sub_geom q m L D I s Hs) as (a & n & _ & (_ & _ & Ha & Hn & Hle) & _ & H16 & Has & Hl & _).
  unfold SUB_ALLOCATOR_SIZE in *. split_and!; (done || lia).
Qed.

(** A request served by the sub-allocator [s]. *)
Lemma alloc_in_ok q m L D s size : pool_inv q m L D -> s ∈ allocator_list q -> 0 < size <= DIRECT_ALLOC_SIZE - ALLOC_NODE_SIZE ->
  wp (alloc_in s size (q, m)) (fun '((q', m'), r) =>
    (r = 0 /\ q' = q /\ m' = m /\ exists p, subs q !! s = Some p /\
       no_room (s + SUB_ALLOCATOR_SIZE) (s + sub_len q s) p m (L s) (__get_need_size size)) \/
    (r <> 0 /\ exists p k L', q' = pool_set_subs (<[s := p]> (subs q)) q /\ pool_inv q' m' L' D /\ k = __get_need_size size - ALLOC_NODE_SIZE /\
       in_use q' L' D ≡ₚ (r, k) :: in_use q L D /\ same_on (in_use q L D) m m')).
Proof.
  intros I Hs Hsize. destruct (sub_bounds q m L D s I Hs) as (Hlo & Hhi & Hs0).
  destruct (pi_subs _ _ _ _ I s Hs) as (p & Hp & Ea & El & Hinv). unfold alloc_in. rewrite Hp. cbn [mbind option_bind].
  eapply wp_bind; [apply (nd_allocator_alloc_ok _ _ Hlo Hhi p m (L s) size Hsize Hinv)|].
  intros [[p' m'] r] [(-> & -> & -> & Hno)|(node & -> & Hsame & Hr & Ea' & El' & Hinv')]; apply wp_ret.
  - left. rewrite set_subs_id by done. split_and!; try done. by exists p.
  - right. destruct (need_ok size Hsize) as (Hcl & Hn & _).
    destruct (sub_inv_live_in _ _ _ _ _ node (__get_need_size size) Hinv') as [Hge _]; [by left|].
    unfold ALLOC_NODE_SIZE, SUB_ALLOCATOR_SIZE in *. split; [lia|].
    pose proof (update_sub q m L D I s p' m' _ Hs ltac:(congruence) ltac:(congruence) Hinv' Hr) as I'.
    exists p', (__get_need_size size - 8), (<[s := (node, __get_need_size size) :: L s]> L). split_and!; [done | done | done | | ].
    + destruct (in_use_set q m L D s ((node, __get_need_size size) :: L s) I Hs) as (R & -> & E). by rewrite E.
    + by eapply update_same.
Qed.

(** ** New sub-allocators *)

Lemma pool_first_page q m L D : pool_inv q m L D -> page_ok (pool_addr q) (pool_size q) /\ (pool_addr q, pool_size q) ∈ regions q D /\
  1 <= alloc_granularity q <= 64.
Proof.
  intros I. pose proof (sub_page_in q D _ (pi_first _ _ _ _ I)) as Hin. unfold sub_page in Hin. rewrite Z.eqb_refl in Hin.
  destruct (pi_ok _ _ _ _ I _ _ Hin) as [Hp _]. split_and!; [done | done | apply I..].
Qed.

Lemma not_first q m L D n : pool_inv q m L D -> page_ok (_allocator q) n -> False.
Proof.
  intros I (Ha & _). destruct (pool_first_page q m L D I) as ((HP & _) & _). unfold _allocator, POOL_STRUCT_SIZE in Ha.
  pose proof (Z_div_mod_eq_full (pool_addr q) 4096). pose proof (Z_div_mod_eq_full (pool_addr q + 240) 4096). lia.
Qed.

Lemma add_sub q m L D a : pool_inv q m L D -> disj a (gran_size q) (regions q D) -> page_ok a (gran_size q) ->
  mapped a (a + gran_size q) m -> (forall s, s ∈ free_allocator q -> s <> a) ->
  wp (init_sub a (gran_size q) (q, m)) (fun '(q', m') => pool_inv q' m' (<[a := []]> L) D /\ in_use q' (<[a := []]> L) D ≡ₚ in_use q L D /\
     writes a (gran_size q) m m' /\ allocator_list q' = a :: allocator_list q /\
     exists p, subs q' = <[a := p]> (subs q) /\ q' = set_lists (a :: allocator_list q) (free_allocator q) (free_allocator_num q) (pool_set_subs (subs q') q) /\
       sub_empty (a + SUB_ALLOCATOR_SIZE) (a + gran_size q) p).
Proof.
  intros I Hd Hp Hm Hfree. destruct (pool_first_page q m L D I) as ((HP & HP' & HP0 & HP1 & _) & HPin & Hgran).
  destruct (Hp) as (Ha & Hg & Ha0 & Hg0 & Hle).
  assert (a <> _allocator q) as Hne by (intros ->; by eapply not_first).
  assert (a ∉ allocator_list q) as Hnew.
  { intros Hin. destruct (sub_geom q m L D I a Hin) as (b & n & E & (_ & _ & _ & Hn & _) & _ & _ & Hb & Hl & Hc & _).
    specialize (Hd b n). rewrite <- E in Hd. unfold _allocator, POOL_STRUCT_SIZE in *. destruct Hd; [by apply sub_page_in | lia | lia]. }
  pose proof (Z_div_mod_eq_full a 4096). pose proof (Z_div_mod_eq_full (gran_size q) 4096).
  unfold init_sub. eapply wp_bind.
  { apply (__sub_allocator_init_ok (a + SUB_ALLOCATOR_SIZE) (a + gran_size q)); unfold SUB_ALLOCATOR_SIZE.
    - split; [|lia]. symmetry. apply (Z.mod_unique_pos _ 16 (a / 4096 * 256 + 68)); lia.
    - done.
    - done.
    - unfold gran_size, MIN_PAGE_SIZE in *. lia.
    - symmetry. apply (Z.mod_unique_pos _ 16 (gran_size q / 4096 * 256 - 68)); lia.
    - lia.
    - intros x Hx. apply Hm. lia. }
  intros [p m'] (Hinv & W & Ea & Esz & Hemp). apply wp_ret. replace (a + gran_size q - (a + SUB_ALLOCATOR_SIZE)) with (gran_size q - SUB_ALLOCATOR_SIZE) in W by lia.
  assert (writes a (gran_size q) m m') as W' by (eapply writes_sub; [..|exact W]; unfold SUB_ALLOCATOR_SIZE; lia).
  set (q' := set_lists _ _ _ _).
  assert (sub_page q' a = (a, gran_size q)) as Esp by (unfold sub_page; change (_allocator q') with (_allocator q); by rewrite (proj2 (Z.eqb_neq _ _) Hne)).
  assert (regions q' D = (a, gran_size q) :: regions q D) as Er by (unfold regions at 1; simpl; rewrite Esp; done).
  split_and!; [| | done | done | by exists p].
  - split; try apply I.
    + right. apply I.
    + right. apply I.
    + rewrite Er. split; [exact Hd | apply I].
    + intros b n Hin. rewrite Er in Hin. apply elem_of_cons in Hin as [[= -> ->]|Hin]; [split; [done|]; by eapply writes_mapped|].
      destruct (pi_ok _ _ _ _ I b n Hin) as [? ?]. split; [done|]. by eapply writes_mapped.
    + intros t Ht. simpl in Ht. apply elem_of_cons in Ht as [-> |Ht].
      * exists p. simpl. rewrite lookup_insert_eq, fn_lookup_insert.
        assert (sub_len q' a = gran_size q) as -> by (unfold sub_len; change (_allocator q') with (_allocator q); by rewrite (proj2 (Z.eqb_neq _ _) Hne)).
        done.
      * assert (t <> a) as Hta by congruence. rewrite fn_lookup_insert_ne by done.
        destruct (pi_subs _ _ _ _ I t Ht) as (p0 & Hp0 & E1 & E2 & Hp0'). exists p0. simpl. rewrite lookup_insert_ne by done.
        split_and!; try done. eapply sub_inv_frame; [|exact Hp0']. intros x Hx. apply W'.
        destruct (sub_geom q m L D I t Ht) as (b & n & E & _ & _ & _ & Hb & Hl & _).
        change (sub_len q' t) with (sub_len q t) in Hx. unfold SUB_ALLOCATOR_SIZE in Hx.
        specialize (Hd b n). rewrite <- E in Hd. destruct Hd; [by apply sub_page_in | lia | lia].
    + intros t Ht. destruct (pi_cached _ _ _ _ I t Ht) as (p0 & Hp0 & E). exists p0. simpl. rewrite lookup_insert_ne; [done|].
      intros <-. by apply (Hfree a).
    + intros b n HD. destruct (pi_words _ _ _ _ I b n HD) as [H1 H2].
      assert ((b, n) ∈ regions q D) as Hin by (unfold regions; rewrite !elem_of_app; by right; right).
      destruct (pi_ok _ _ _ _ I b n Hin) as [(_ & _ & _ & Hn & _) _]. destruct W' as [W' _].
      specialize (Hd b n Hin). rewrite !W' by lia. done.
  - unfold in_use. simpl. rewrite fn_lookup_insert. simpl. by rewrite bind_other.
Qed.

(** Nothing changes in the regions of the pool. *)
Lemma pool_frame q m m' L D : pool_inv q m L D -> (forall a n x, (a, n) ∈ regions q D -> a <= x < a + n -> m' !! x = m !! x) ->
  pool_inv q m' L D.
Proof.
  intros I E. split; try apply I.
  - intros a n Hin. destruct (pi_ok _ _ _ _ I a n Hin) as [Hp Hm]. split; [done|]. intros x Hx H8. rewrite (E a n) by done. by apply Hm.
  - intros s Hs. destruct (pi_subs _ _ _ _ I s Hs) as (p & Hp & E1 & E2 & Hinv). exists p. split_and!; try done.
    eapply sub_inv_frame; [|exact Hinv]. intros x Hx. destruct (sub_geom q m L D I s Hs) as (a & n & Es & _ & _ & _ & Ha & Hl & _).
    unfold SUB_ALLOCATOR_SIZE in Hx. apply (E a n); [rewrite <- Es; by apply sub_page_in | lia].
  - intros a n HD. destruct (pi_words _ _ _ _ I a n HD) as [H1 H2].
    assert ((a, n) ∈ regions q D) as Hin by (unfold regions; rewrite !elem_of_app; by right; right).
    destruct (pi_ok _ _ _ _ I a n Hin) as [(_ & _ & _ & Hn & _) _]. rewrite !(E a n) by (done || lia). done.
Qed.

Lemma in_use_in q m L D b k : pool_inv q m L D -> (b, k) ∈ in_use q L D -> exists a n, (a, n) ∈ regions q D /\ a <= b /\ b + k <= a + n.
Proof.
  intros I Hin. destruct (in_use_cases q L D b k Hin) as [(s & Hs & Hl)|HD].
  - destruct (live_in q m L D I s _ _ Hs Hl). destruct (sub_geom q m L D I s Hs) as (a & n & Es & _ & _ & _ & Ha & Hlen & _).
    exists a, n. unfold SUB_ALLOCATOR_SIZE, ALLOC_NODE_SIZE in *. split_and!; [rewrite <- Es; by apply sub_page_in | lia | lia].
  - exists (b - BIG_CHUNK_SIZE), (k + BIG_CHUNK_SIZE). unfold BIG_CHUNK_SIZE in *.
    split_and!; [unfold regions; rewrite !elem_of_app; by right; right | lia | lia].
Qed.

(** A large block more, or less. *)
Lemma regions_pages q n l D : regions (set_pages n l q) D = regions q D.
Proof. done. Qed.

Lemma fresh_disj q m L D a n : pool_inv q m L D -> page_ok a n -> (forall x, a <= x < a + n -> m !! x = None) -> disj a n (regions q D).
Proof.
  intros I (Ha & Hn & _ & Hn0 & _) Hf b k Hin. destruct (pi_ok _ _ _ _ I b k Hin) as [(Hb & Hk & _ & Hk0 & _) Hm].
  destruct (Z.lt_ge_cases b (a + n)) as [H1|]; [|by left]. destruct (Z.lt_ge_cases a (b + k)) as [H2|]; [|by right].
  exfalso. destruct (Hm (Z.max a b)) as [v Hv]; [lia | |].
  - destruct (Z.max_spec a b) as [[_ ->]|[_ ->]]; eapply mod8_of; try (by apply Z.mod_divide; [|eassumption]); by exists 512.
  - rewrite Hf in Hv by lia. done.
Qed.

Lemma page_aline s : 0 <= s < 2 ^ 46 -> let n := PAGE_ALINE s in n mod 4096 = 0 /\ 0x10000 <= n /\ s <= n /\ n < 2 ^ 47.
Proof.
  intros Hs n. unfold n, PAGE_ALINE, SYS_PAGE_SIZE, MIN_PAGE_SIZE. pose proof (aline_eq s 12) as E. change (2 ^ 12) with 4096 in E.
  rewrite E by lia. pose proof (Z_div_mod_eq_full (s + 4096 - 1) 4096). pose proof (Z.mod_pos_bound (s + 4096 - 1) 4096 ltac:(lia)).
  destruct (Z.max_spec ((s + 4096 - 1) / 4096 * 4096) 65536) as [[? ->]|[? ->]]; split_and!; try (done || lia). apply Z.mod_mul. lia.
Qed.
Lemma page_aline_id s : 0x10000 <= s < 2 ^ 46 -> s mod 4096 = 0 -> PAGE_ALINE s = s.
Proof.
  intros Hs H0. unfold PAGE_ALINE, SYS_PAGE_SIZE, MIN_PAGE_SIZE. pose proof (aline_eq s 12) as E. change (2 ^ 12) with 4096 in E.
  rewrite E by lia. pose proof (Z_div_mod_eq_full s 4096). assert ((s + 4096 - 1) / 4096 = s / 4096) as -> by (symmetry; apply (Z.div_unique_pos _ 4096 _ 4095); lia). lia.
Qed.

(** ** The system call *)

(** It found pages: neither NULL nor [MAP_FAILED]. *)
Definition got_pages (nd_mmap : Z -> words -> Z) (n : Z) (m : words) : Prop := nd_mmap n m <> 0 /\ nd_mmap n m <> MAP_FAILED.

(** The pages it gives are page-aligned and were not mapped. *)
Definition mmap_spec (nd_mmap : Z -> words -> Z) : Prop := forall n m, 0x10000 <= n -> n mod 4096 = 0 ->
  ~ got_pages nd_mmap n m \/ (page_ok (nd_mmap n m) n /\ forall x, nd_mmap n m <= x < nd_mmap n m + n -> m !! x = None).

Section system.
Context (nd_mmap : Z -> words -> Z) (Hmmap : mmap_spec nd_mmap).

Lemma __sys_page_alloc_ok s m : 0 <= s < 2 ^ 46 -> got_pages nd_mmap (PAGE_ALINE s) m ->
  wp (__sys_page_alloc nd_mmap s m) (fun '(m', a) => let n := PAGE_ALINE s in a = nd_mmap n m /\ page_ok a n /\ (forall x, a <= x < a + n -> m !! x = None) /\
     mapped a (a + n) m' /\ m' !! a = Some n /\ (forall x, x < a \/ a + n <= x -> m' !! x = m !! x)).
Proof.
  intros Hs Hne. destruct (page_aline s Hs) as (Hn & Hn0 & _). unfold __sys_page_alloc. cbv zeta. set (n := PAGE_ALINE s) in *.
  destruct (Hmmap n m Hn0 Hn) as [?|[Hp Hf]]; [done|]. destruct Hne as [_ Hne]. set (a := nd_mmap n m) in *. destruct (Hp) as (Ha & _ & Ha0 & _ & Hle).
  rewrite (proj2 (Z.eqb_neq a 0)), (proj2 (Z.eqb_neq a _) Hne) by lia.
  pose proof (map_region_mapped a n m Hp) as Hm.
  assert (is_Some (map_region a n m !! a)) as Hw.
  { apply Hm; [lia|]. eapply mod8_of; [by apply Z.mod_divide; [|exact Ha] | by exists 512]. }
  rewrite wstore_ok by done. apply wp_ret. split_and!; [done | done | done | | apply lookup_insert_eq |].
  - intros x Hx H8. destruct (decide (x = a)) as [->|]; [rewrite lookup_insert_eq; by eexists|]. rewrite lookup_insert_ne by done. by apply Hm.
  - intros x Hx. rewrite lookup_insert_ne by lia. apply map_region_out; lia.
Qed.
Lemma same_on_fresh q (m m' : words) L D a n : pool_inv q m L D -> disj a n (regions q D) -> (forall x, x < a \/ a + n <= x -> m' !! x = m !! x) ->
  forall b k x, (b, k) ∈ regions q D -> b <= x < b + k -> m' !! x = m !! x.
Proof. intros I Hd E b k x Hin Hx. apply E. specialize (Hd b k Hin). lia. Qed.

Lemma same_on_regions q (m m' : words) L D : pool_inv q m L D -> (forall b k x, (b, k) ∈ regions q D -> b <= x < b + k -> m' !! x = m !! x) ->
  same_on (in_use q L D) m m'.
Proof.
  intros I E b k x Hin Hx. destruct (in_use_in q m L D b k I Hin) as (a & n & Hr & H1 & H2). apply (E a n); [done | lia].
Qed.

(** A sub-allocator from the ones kept, or from the system. *)
Lemma __alloc_sub_allocator_ok q m L D size : pool_inv q m L D -> 0 < size <= DIRECT_ALLOC_SIZE - ALLOC_NODE_SIZE ->
  (free_allocator q = [] -> got_pages nd_mmap (gran_size q) m) ->
  wp (__alloc_sub_allocator nd_mmap size (q, m)) (fun '((q', m'), s) => s <> 0 /\ s ∈ allocator_list q' /\
     exists L', pool_inv q' m' L' D /\ in_use q' L' D ≡ₚ in_use q L D /\ same_on (in_use q L D) m m' /\
       exists p, subs q' !! s = Some p /\ sub_empty (s + SUB_ALLOCATOR_SIZE) (s + sub_len q' s) p /\ sub_len q' s = gran_size q).
Proof.
  intros I Hsize Hmm. change (DIRECT_ALLOC_SIZE - ALLOC_NODE_SIZE) with 61432 in Hsize.
  destruct (pool_first_page q m L D I) as (_ & _ & Hgran).
  assert (0x10000 <= gran_size q < 2 ^ 46 /\ gran_size q mod 4096 = 0) as (Hg & Hg16).
  { unfold gran_size, MIN_PAGE_SIZE. split; [lia|]. symmetry. apply (Z.mod_unique_pos _ 4096 (alloc_granularity q * 16)); lia. }
  unfold __alloc_sub_allocator. destruct (free_allocator q) as [|pos rest] eqn:Ef.
  - specialize (Hmm eq_refl). cbv zeta. fold (gran_size q). rewrite Z.max_l by lia. change 64%nat with (S 63). cbn [re_alloc].
    pose proof (page_aline_id _ Hg Hg16) as Eg.
    eapply wp_bind.
    { eapply wp_bind; [apply (__sys_page_alloc_ok (gran_size q) m ltac:(lia)); by rewrite Eg|]. rewrite Eg. cbv zeta.
      intros [m1 a] (_ & Hp & Hf & Hm1 & Hw & Hout). rewrite (proj2 (Z.eqb_neq a 0)) by (destruct Hp as (_ & _ & ? & _); lia).
      apply wp_ret. instantiate (1 := fun '(m1, a, n) => n = gran_size q /\ page_ok a n /\ disj a n (regions q D) /\ mapped a (a + n) m1 /\
        (forall x, x < a \/ a + n <= x -> m1 !! x = m !! x)). simpl. split_and!; try done. by eapply fresh_disj. }
    intros [[m1 a] n] (-> & Hp & Hd & Hm1 & Hout). rewrite (proj2 (Z.eqb_neq a 0)) by (destruct Hp as (_ & _ & ? & _); lia).
    pose proof (same_on_fresh q m m1 L D a _ I Hd Hout) as Hsame. pose proof (pool_frame q m m1 L D I Hsame) as I1.
    eapply wp_bind; [apply (add_sub q m1 L D a I1 Hd Hp Hm1); rewrite Ef; by intros s ?%not_elem_of_nil|].
    intros [q' m'] (I' & E & [W _] & El & p' & Esub & Eq & Hemp). apply wp_ret. split_and!; [destruct Hp as (_ & _ & ? & _); lia | rewrite El; by left |].
    assert (sub_len q' a = gran_size q) as Elen.
    { assert (a <> _allocator q) as Hne; [|unfold sub_len; rewrite Eq; change (_allocator (set_lists _ _ _ _)) with (_allocator q); by rewrite (proj2 (Z.eqb_neq _ _) Hne)].
      intros ->. exact (not_first q m L D _ I Hp). }
    exists (<[a := []]> L). split_and!; [done | done | | exists p'; rewrite Esub, lookup_insert_eq, Elen; by split_and!].
    eapply same_on_regions; [exact I|]. intros b k x Hin Hx.
    rewrite W by (specialize (Hd b k Hin); lia). by apply (Hsame b k).
  - set (q1 := set_lists (allocator_list q) rest (u8 (free_allocator_num q - 1)) q).
    destruct (pi_num _ _ _ _ I) as [En En2]. rewrite Ef in En. simpl in En.
    assert (regions q D ≡ₚ (pos, gran_size q) :: regions q1 D) as Er.
    { unfold regions. rewrite Ef. simpl. by rewrite <- Permutation_middle. }
    pose proof (pi_apart _ _ _ _ I) as Ha. rewrite Er in Ha. destruct Ha as [Hd Ha]. simpl in Hd.
    destruct (pi_ok _ _ _ _ I pos (gran_size q)) as [Hp Hm]; [rewrite Er; by left|].
    assert (pool_inv q1 m L D) as I1.
    { split; try apply I.
      - exact Ha.
      - intros a n Hin. apply I. rewrite Er. by right.
      - intros s Hs. simpl in Hs. apply I. rewrite Ef. by right.
      - simpl. rewrite wrapu_small by lia. lia. }
    destruct (pi_cached _ _ _ _ I pos) as (p & Hp0 & Esz); [rewrite Ef; by left|]. cbv zeta. fold q1.
    change (subs q1) with (subs q). rewrite Hp0. cbn [mbind option_bind]. rewrite Esz.
    eapply wp_bind; [apply (add_sub q1 m L D pos I1 Hd Hp Hm)|].
    { intros s Hs. simpl in Hs. intros ->. specialize (Hd pos (gran_size q)). destruct Hp as (_ & _ & _ & Hg0 & _).
      destruct Hd; [|lia|lia]. unfold regions. rewrite !elem_of_app. right. left. apply list_elem_of_fmap. by exists pos. }
    intros [q' m'] (I' & E & [W _] & El & p' & Esub & Eq & Hemp). apply wp_ret. split_and!; [destruct Hp as (_ & _ & ? & _); lia | rewrite El; by left |].
    assert (sub_len q' pos = gran_size q) as Elen.
    { assert (pos <> _allocator q) as Hne; [|unfold sub_len; rewrite Eq; change (_allocator (set_lists _ _ _ _)) with (_allocator q); by rewrite (proj2 (Z.eqb_neq _ _) Hne)].
      intros ->. exact (not_first q m L D _ I Hp). }
    exists (<[pos := []]> L). split_and!; [done | done | | exists p'; rewrite Esub, lookup_insert_eq, Elen; by split_and!].
    apply (same_on_regions q1 m m' L D I1). intros b k x Hin Hx.
    apply W. specialize (Hd b k Hin). change (gran_size q1) with (gran_size q). lia.
Qed.
Lemma pool_inv_errno e q m L D : pool_inv q m L D -> pool_inv (pool_set_errno e q) m L D.
Proof. intros I. split; apply I. Qed.
Lemma pool_inv_used q m L D : pool_inv q m L D -> pool_inv (set_used q) m L D.
Proof. intros I. split; apply I. Qed.
Lemma pool_inv_cur s q m L D : s ∈ allocator_list q -> pool_inv q m L D -> pool_inv (set_cur s q) m L D.
Proof. intros Hs I. split; try apply I. done. Qed.

(** One large block more. *)
Lemma add_page q m m' L D a n total : pool_inv q m L D -> page_ok a n -> disj a n (regions q D) -> mapped a (a + n) m' ->
  (forall x, x < a \/ a + n <= x -> m' !! x = m !! x) -> m' !! a = Some (pool_addr q) -> m' !! (a + 24) = Some (Z.lor (n - 24) 2) ->
  pool_inv (set_pages total (a :: page_list q) q) m' L ((a, n) :: D) /\
  in_use (set_pages total (a :: page_list q) q) L ((a, n) :: D) ≡ₚ (a + BIG_CHUNK_SIZE, n - BIG_CHUNK_SIZE) :: in_use q L D /\
  same_on (in_use q L D) m m'.
Proof.
  intros I Hp Hd Hm Hout Hw1 Hw2. pose proof (same_on_fresh q m m' L D a n I Hd Hout) as Hsame.
  pose proof (pool_frame q m m' L D I Hsame) as I'.
  assert (regions (set_pages total (a :: page_list q) q) ((a, n) :: D) ≡ₚ (a, n) :: regions q D) as Er.
  { unfold regions. simpl. rewrite !app_assoc. by rewrite <- Permutation_middle. }
  split_and!.
  - split; try apply I'.
    + simpl. f_equal. apply I.
    + rewrite Er. split; [exact Hd | apply I].
    + intros b k Hin. rewrite Er in Hin. apply elem_of_cons in Hin as [[= -> ->]|Hin]; [done | by apply I'].
    + intros b k [[= -> ->]|Hin]%elem_of_cons; [done | by apply I'].
  - unfold in_use. simpl. by rewrite <- Permutation_middle.
  - by apply (same_on_regions q m m' L D).
Qed.

Lemma large_block_ok q m L D size : pool_inv q m L D -> 0 < size < 2 ^ 45 -> got_pages nd_mmap (PAGE_ALINE (size + BIG_CHUNK_SIZE)) m ->
  wp ('(m, new_chunk) ← __sys_page_alloc nd_mmap (u64 (size + BIG_CHUNK_SIZE)) m;
      if new_chunk =? 0 then Some ((pool_set_errno NDERR_NOSOURCE q, m), 0)
      else
        alloc_size ← wload new_chunk m;
        let chunk_size := alloc_size - BIG_CHUNK_SIZE + ALLOC_NODE_SIZE in
        m ← wstore (new_chunk + 24) chunk_size m;
        m ← wstore new_chunk (pool_addr q) m;
        m ← wstore (new_chunk + 24) (Z.lor chunk_size 2) m;
        Some ((set_used (set_pages (u64 (pool_allocated q + chunk_size)) (new_chunk :: page_list q) q), m), new_chunk + BIG_CHUNK_SIZE))
     (fun '((q', m'), r) => r <> 0 /\ exists k D', k = PAGE_ALINE (size + BIG_CHUNK_SIZE) - BIG_CHUNK_SIZE /\ pool_inv q' m' L D' /\ in_use q' L D' ≡ₚ (r, k) :: in_use q L D /\
        same_on (in_use q L D) m m').
Proof.
  intros I Hsize Hmm. change BIG_CHUNK_SIZE with 32 in Hmm.
  assert (u64 (size + BIG_CHUNK_SIZE) = size + 32) as -> by (unfold BIG_CHUNK_SIZE; apply wrapu_small; lia).
  destruct (page_aline (size + 32) ltac:(lia)) as (_ & _ & Hle & _).
  eapply wp_bind; [apply (__sys_page_alloc_ok (size + 32) m ltac:(lia) Hmm)|]. cbv zeta. set (n := PAGE_ALINE (size + 32)) in *.
  intros [m1 a] (_ & Hp & Hf & Hm1 & Hw & Hout). destruct (Hp) as (Ha & Hn & Ha0 & Hn0 & _).
  rewrite (proj2 (Z.eqb_neq a 0)) by lia. unfold wload. rewrite Hw. cbn [mbind option_bind].
  replace (n - BIG_CHUNK_SIZE + ALLOC_NODE_SIZE) with (n - 24) by (unfold BIG_CHUNK_SIZE, ALLOC_NODE_SIZE; lia).
  assert (is_Some (m1 !! (a + 24))) as Hw24.
  { apply Hm1; [lia|]. pose proof (Z_div_mod_eq_full a 4096). symmetry. apply (Z.mod_unique_pos _ 8 (a / 4096 * 512 + 3)); lia. }
  rewrite wstore_ok by done. cbn [mbind option_bind]. rewrite wstore_ok by (rewrite lookup_insert_ne by lia; by eexists). cbn [mbind option_bind].
  rewrite wstore_ok by (rewrite lookup_insert_ne, lookup_insert_eq by lia; by eexists). apply wp_ret. split; [unfold BIG_CHUNK_SIZE; lia|].
  set (m3 := <[a + 24 := _]> _).
  assert (writes a n m1 m3) as W.
  { eapply writes_trans; [|eapply writes_trans]; apply writes_insert; try lia; try done.
    - rewrite lookup_insert_ne by lia. by eexists.
    - rewrite lookup_insert_ne, lookup_insert_eq by lia. by eexists. }
  destruct (add_page q m m3 L D a n (u64 (pool_allocated q + (n - 24))) I Hp) as (I' & E & Hs).
  - by eapply fresh_disj.
  - by eapply writes_mapped.
  - intros x Hx. destruct W as [W _]. by rewrite W, Hout.
  - unfold m3. by rewrite lookup_insert_ne, lookup_insert_eq by lia.
  - unfold m3. by rewrite lookup_insert_eq.
  - exists (n - BIG_CHUNK_SIZE), ((a, n) :: D). unfold BIG_CHUNK_SIZE in *. split_and!; [done | by apply pool_inv_used | done | done].
Qed.
Lemma checkvalid_ok a : 0x10000 <= a < 2 ^ 47 -> a mod 4 = 0 -> nd_alloc_checkvalid a = true.
Proof.
  intros Ha H4. unfold nd_alloc_checkvalid, nd_addr_checkvalid. rewrite (proj2 (Z.leb_le 65536 a)), (proj2 (Z.leb_le a _)) by lia. simpl.
  change 3 with (Z.ones 2). rewrite Z.land_ones by lia. change (2 ^ 2) with 4. by rewrite H4.
Qed.
Lemma mod_mod_small a k : k = 4 \/ k = 8 -> a mod 4096 = 0 -> a mod k = 0.
Proof.
  intros Hk H. pose proof (Z_div_mod_eq_full a 4096). destruct Hk as [-> | ->].
  - symmetry. apply (Z.mod_unique_pos _ 4 (a / 4096 * 1024)); lia.
  - symmetry. apply (Z.mod_unique_pos _ 8 (a / 4096 * 512)); lia.
Qed.

Lemma pool_valid q m L D : pool_inv q m L D -> nd_alloc_checkvalid (pool_addr q) = true.
Proof.
  intros I. destruct (pool_first_page q m L D I) as ((HP & _ & HP0 & HP1 & HP2) & _). apply checkvalid_ok; [lia|]. apply mod_mod_small; auto.
Qed.

(** A small request: from the current sub-allocator, else from a new one, which becomes the current one when
    it has more room left. *)
Lemma small_block_ok q m L D size : pool_inv q m L D -> 0 < size <= DIRECT_ALLOC_SIZE - ALLOC_NODE_SIZE ->
  (free_allocator q = [] -> got_pages nd_mmap (gran_size q) m) ->
  wp ('((q, m), addr) ←
        (if negb (cur_allocator q =? 0) then alloc_in (cur_allocator q) size (q, m)
         else alloc_any (allocator_list q) size (q, m));
      '((q, m), addr) ←
        (if addr =? 0 then
           '((q, m), sub) ← __alloc_sub_allocator nd_mmap size (q, m);
           if negb (sub =? 0) then
             '((q, m), addr) ← alloc_in sub size (q, m);
             f1 ← max_free sub q;
             f2 ← max_free (cur_allocator q) q;
             Some ((if f2 <? f1 then set_cur sub q else q, m), addr)
           else Some ((q, m), addr)
         else Some ((q, m), addr));
      Some ((set_used q, m), addr))
     (fun '((q', m'), r) => r <> 0 /\ exists k L', k = __get_need_size size - ALLOC_NODE_SIZE /\ pool_inv q' m' L' D /\ in_use q' L' D ≡ₚ (r, k) :: in_use q L D /\
        same_on (in_use q L D) m m').
Proof.
  intros I Hsize Hmm. pose proof (pi_cur _ _ _ _ I) as Hcur. destruct (sub_bounds q m L D _ I Hcur) as (_ & _ & Hc0).
  rewrite (proj2 (Z.eqb_neq (cur_allocator q) 0)) by lia. cbn [negb].
  eapply wp_bind; [exact (alloc_in_ok q m L D _ size I Hcur Hsize)|].
  intros [[q1 m1] r] [(-> & -> & -> & _)|(Hr & p & k & L' & -> & I' & Hk & E & Hs)].
  - simpl. eapply (wp_bind _ _ (fun '((q2, m2), r) => r <> 0 /\ exists k L', k = __get_need_size size - ALLOC_NODE_SIZE /\ pool_inv q2 m2 L' D /\
      in_use q2 L' D ≡ₚ (r, k) :: in_use q L D /\ same_on (in_use q L D) m m2)); [|intros [[q2 m2] r] (Hr & k & L' & Hk & I' & E & Hs); apply wp_ret; split; [exact Hr|];
      exists k, L'; split_and!; [exact Hk | apply pool_inv_used, I' | exact E | exact Hs]].
    eapply wp_bind; [exact (__alloc_sub_allocator_ok q m L D size I Hsize Hmm)|].
    intros [[q1 m1] s] (Hs0 & Hsin & L1 & I1 & E1 & Hs1 & p & Hp & Hemp & Hlen). rewrite (proj2 (Z.eqb_neq s 0)) by done. cbn [negb].
    eapply wp_bind; [exact (alloc_in_ok q1 m1 L1 D s size I1 Hsin Hsize)|].
    intros [[q2 m2] r] [(-> & -> & -> & p' & Hp' & Hno)|(Hr & p2 & k & L' & -> & I' & Hk & E & Hs)].
    + exfalso. rewrite Hp in Hp'. injection Hp' as <-. destruct (need_ok size Hsize) as (_ & Hn & _).
      destruct (pool_first_page q m L D I) as (_ & _ & Hgran).
      assert (0x10000 <= gran_size q) as Hg by (unfold gran_size, MIN_PAGE_SIZE; lia).
      apply no_room_empty in Hno; [unfold SUB_ALLOCATOR_SIZE in Hno; lia | done | unfold SUB_ALLOCATOR_SIZE; lia].
    + unfold max_free. simpl. rewrite lookup_insert_eq. cbn [mbind option_bind].
      destruct (pi_subs _ _ _ _ I' (cur_allocator q1) (pi_cur _ _ _ _ I')) as (pc & Hpc & _). simpl in Hpc. rewrite Hpc. cbn [mbind option_bind].
      apply wp_ret. split; [done|]. exists k, L'.
      assert (same_on (in_use q L D) m m2) as Hs2 by (eapply same_on_trans; [exact Hs1|]; by rewrite E1 in Hs).
      rewrite E1 in E. destruct (_ <? _); split_and!; try done. by apply pool_inv_cur.
  - rewrite (proj2 (Z.eqb_neq r 0)) by done. apply wp_ret. split; [done|]. exists k, L'. split_and!; try done. by apply pool_inv_used.
Qed.

(** The room a block for [size] bytes has. *)
Definition usable (size : Z) : Z :=
  if DIRECT_ALLOC_SIZE <? size + ALLOC_NODE_SIZE then PAGE_ALINE (size + BIG_CHUNK_SIZE) - BIG_CHUNK_SIZE
  else __get_need_size size - ALLOC_NODE_SIZE.
Lemma usable_ge size : 0 < size < 2 ^ 45 -> size <= usable size.
Proof.
  intros Hs. unfold usable, BIG_CHUNK_SIZE, ALLOC_NODE_SIZE. change DIRECT_ALLOC_SIZE with 61440. destruct (Z.ltb_spec 61440 (size + 8)).
  - destruct (page_aline (size + 32) ltac:(lia)) as (_ & _ & ? & _). lia.
  - destruct (need_ok size) as (_ & ? & _); [unfold DIRECT_ALLOC_SIZE, MIN_PAGE_SIZE, SYS_PAGE_SIZE, ALLOC_NODE_SIZE; lia | lia].
Qed.

(** A block for each request, apart from all others, which keep their contents; none only for an empty request or
    when the pool is over its capacity. *)
Lemma _pool_alloc_real_ok q m U size : pool_state q m U -> 0 <= size < 2 ^ 45 ->
  got_pages nd_mmap (gran_size q) m -> got_pages nd_mmap (PAGE_ALINE (size + BIG_CHUNK_SIZE)) m ->
  wp (_pool_alloc_real nd_mmap size (q, m)) (fun '((q', m'), r) => same_on U m m' /\
    ((r = 0 /\ (size = 0 \/ capacity q < pool_allocated q) /\ pool_state q' m' U) \/
     (r <> 0 /\ exists k, k = usable size /\ size <= k /\ pool_state q' m' ((r, k) :: U)))).
Proof.
  intros (L & D & I & EU) Hsize Hmm1 Hmm2. unfold _pool_alloc_real. rewrite (pool_valid q m L D I). cbn [negb]. cbv zeta.
  assert (forall e, pool_state (pool_set_errno e q) m U) as HU by (intros e; exists L, D; split; [by apply pool_inv_errno | done]).
  destruct (Z.eqb_spec size 0) as [->|Hne]; [apply wp_ret; split; [done|]; left; split_and!; [done | by left |]; exists L, D; split; [by do 2 apply pool_inv_errno | done]|].
  change (capacity (pool_set_errno NDERR_SUCCESS q) <? pool_allocated (pool_set_errno NDERR_SUCCESS q)) with (capacity q <? pool_allocated q).
  destruct (Z.ltb_spec (capacity q) (pool_allocated q)) as [Hcap|Hcap];
    [apply wp_ret; split; [done|]; left; split_and!; [done | by right |]; exists L, D; split; [by do 2 apply pool_inv_errno | done]|].
  pose proof (pool_inv_errno NDERR_SUCCESS q m L D I) as I0. set (q0 := pool_set_errno NDERR_SUCCESS q) in *.
  assert (u64 (size + ALLOC_NODE_SIZE) = size + 8) as -> by (unfold ALLOC_NODE_SIZE; apply wrapu_small; lia).
  pose proof (usable_ge size ltac:(lia)) as Hus. change DIRECT_ALLOC_SIZE with 61440. destruct (Z.ltb_spec 61440 (size + 8)) as [Hbig|Hsmall].
  - eapply wp_mono; [exact (large_block_ok q0 m L D size I0 ltac:(lia) Hmm2)|].
    intros [[q' m'] r] (Hr & k & D' & Hk & I' & E & Hs). change (in_use q0 L D) with (in_use q L D) in *. rewrite <- EU in Hs, E.
    split; [done|]. right. split; [done|]. exists k.
    assert (k = usable size) as -> by (unfold usable, ALLOC_NODE_SIZE; change DIRECT_ALLOC_SIZE with 61440; by rewrite (proj2 (Z.ltb_lt _ _) Hbig)).
    split_and!; [done | done |]. exists L, D'. split; [done|]. by rewrite E.
  - eapply wp_mono; [exact (small_block_ok q0 m L D size I0 ltac:(unfold DIRECT_ALLOC_SIZE, MIN_PAGE_SIZE, SYS_PAGE_SIZE, ALLOC_NODE_SIZE; lia) (fun _ => Hmm1))|].
    intros [[q' m'] r] (Hr & k & L' & Hk & I' & E & Hs). change (in_use q0 L D) with (in_use q L D) in *. rewrite <- EU in Hs, E.
    split; [done|]. right. split; [done|]. exists k.
    assert (k = usable size) as -> by (unfold usable, ALLOC_NODE_SIZE; change DIRECT_ALLOC_SIZE with 61440; by rewrite (proj2 (Z.ltb_ge _ _) Hsmall)).
    split_and!; [done | done |]. exists L', D. split; [done|]. by rewrite E.
Qed.
End system.

(** ** Release *)

Lemma sub_inv_perm lo hi p m l l' : l ≡ₚ l' -> sub_inv lo hi p m l -> sub_inv lo hi p m l'.
Proof.
  intros E [Ha Hm Hl (fl & Hf & Ht) Hb Hsz]. split; try done.
  - intros a n Hin. apply Hl. by rewrite E.
  - exists fl. by rewrite <- E.
  - rewrite Hsz. by apply total_proper.
Qed.

Lemma del_perm (s : Z) l l' : l ≡ₚ s :: l' -> s ∉ l' -> del s l ≡ₚ l'.
Proof.
  intros E Hs. unfold del. rewrite E, filter_cons, decide_False by auto. clear E.
  induction l' as [|t l' IH]; [done|]. rewrite filter_cons, decide_True by set_solver. f_equiv. apply IH. set_solver.
Qed.

Lemma unmap_out q m L D a n : pool_inv q m L D -> 0 <= n -> disj a n (regions q D) ->
  pool_inv q (unmap_region a n m) L D /\ same_on (in_use q L D) m (unmap_region a n m).
Proof.
  intros I Hn Hd. assert (forall b k x, (b, k) ∈ regions q D -> b <= x < b + k -> unmap_region a n m !! x = m !! x) as H.
  { intros b k x Hin Hx. apply unmap_region_out; [done|]. specialize (Hd b k Hin). lia. }
  split; [by eapply pool_frame | by apply (same_on_regions q m _ L D)].
Qed.

(** An empty sub-allocator is kept when fewer than two are, else given back. *)
Lemma __free_sub_allocator_ok q m L D s : pool_inv q m L D -> s ∈ allocator_list q -> s <> _allocator q -> s <> cur_allocator q -> L s = [] ->
  wp (__free_sub_allocator s (q, m)) (fun '(q', m') => pool_inv q' m' L D /\ in_use q' L D ≡ₚ in_use q L D /\ same_on (in_use q L D) m m').
Proof.
  intros I Hs Hne Hnc Hl. destruct (list_split q m L D I s Hs) as (l & E & Hnl).
  pose proof (del_perm s _ l E Hnl) as Ed. destruct (pi_subs _ _ _ _ I s Hs) as (p & Hp & Ea & Esz & Hinv).
  assert (sub_len q s = gran_size q /\ sub_page q s = (s, gran_size q)) as [El Ep] by (unfold sub_len, sub_page; by rewrite (proj2 (Z.eqb_neq _ _) Hne)).
  destruct (pi_num _ _ _ _ I) as [En En2].
  assert (forall t, t ∈ allocator_list q -> t <> s -> t ∈ del s (allocator_list q)) as Hdel by (intros t Ht Hts; unfold del; by apply list_elem_of_filter).
  assert (forall t, t ∈ del s (allocator_list q) -> t ∈ allocator_list q /\ t <> s) as Hdel' by (intros t [? ?]%list_elem_of_filter; done).
  assert (forall q', allocator_list q' = del s (allocator_list q) -> in_use q' L D ≡ₚ in_use q L D) as Hiu.
  { intros q' E'. unfold in_use. rewrite E', Ed, E. cbn. by rewrite Hl. }
  pose proof (pi_apart _ _ _ _ I) as Hap. unfold regions in Hap. rewrite E in Hap. cbn in Hap. rewrite Ep in Hap.
  assert (regions q D ≡ₚ (s, gran_size q) :: (sub_page q <$> del s (allocator_list q)) ++ ((fun s => (s, gran_size q)) <$> free_allocator q) ++ D) as Er.
  { unfold regions. rewrite E at 1. cbn. by rewrite Ep, Ed. }
  unfold __free_sub_allocator. destruct (Z.leb_spec 2 (free_allocator_num q)) as [Hge|Hlt].
  - rewrite Hp. cbn [mbind option_bind]. rewrite Esz, El.
    destruct (pi_ok _ _ _ _ I s (gran_size q)) as [Hpok Hm]; [rewrite <- Ep; by apply sub_page_in|]. destruct (Hpok) as (Hs0 & _ & _ & Hg & _).
    rewrite wstore_ok by (apply Hm; [lia|]; apply mod_mod_small; auto). cbn [mbind option_bind].
    unfold __sys_page_free, wload. rewrite lookup_insert_eq. cbn [mbind option_bind]. apply wp_ret.
    set (q1 := set_lists _ _ _ _).
    assert (pool_inv q1 m L D) as I1.
    { split; try apply I.
      - apply Hdel; [apply I | done].
      - apply Hdel; [apply I | done].
      - change (regions q1 D) with ((sub_page q <$> del s (allocator_list q)) ++ ((fun s => (s, gran_size q)) <$> free_allocator q) ++ D).
        rewrite Ed. apply Hap.
      - intros a n Hin. apply I. rewrite Er. by right.
      - intros t Ht. destruct (Hdel' t Ht) as [Ht' Hts]. destruct (pi_subs _ _ _ _ I t Ht') as (pt & Hpt & H'). exists pt. split; [|exact H'].
        simpl. by rewrite lookup_delete_ne.
      - intros t Ht. simpl in Ht. destruct (pi_cached _ _ _ _ I t Ht) as (pt & Hpt & H'). exists pt. split; [|exact H'].
        simpl. rewrite lookup_delete_ne; [done|]. intros <-. destruct Hap as [Hd _]. specialize (Hd s (gran_size q)). simpl in Hd.
        destruct Hd; [|lia|lia]. rewrite !elem_of_app. right. left. apply list_elem_of_fmap. by exists s. }
    assert (disj s (gran_size q) (regions q1 D)) as Hd.
    { destruct Hap as [Hd _]. change (regions q1 D) with ((sub_page q <$> del s (allocator_list q)) ++ ((fun s => (s, gran_size q)) <$> free_allocator q) ++ D).
      by rewrite Ed. }
    assert (pool_inv q1 (<[s := gran_size q]> m) L D /\ same_on (in_use q1 L D) m (<[s := gran_size q]> m)) as [I2 S2].
    { assert (forall b k x, (b, k) ∈ regions q1 D -> b <= x < b + k -> <[s := gran_size q]> m !! x = m !! x) as H.
      { intros b k x Hin Hx. specialize (Hd b k Hin). rewrite lookup_insert_ne by lia. done. }
      split; [by eapply pool_frame | by apply (same_on_regions q1 m _ L D)]. }
    destruct (unmap_out q1 _ L D s (gran_size q) I2 ltac:(lia) Hd) as [I3 S3].
    split_and!; [done | by apply Hiu |]. rewrite <- (Hiu q1 eq_refl). by eapply same_on_trans.
  - apply wp_ret. split_and!; [|by apply Hiu | done]. set (q1 := set_lists _ _ _ _). split; try apply I.
    + apply Hdel; [apply I | done].
    + apply Hdel; [apply I | done].
    + change (regions q1 D) with ((sub_page q <$> del s (allocator_list q)) ++ (s, gran_size q) :: ((fun s => (s, gran_size q)) <$> free_allocator q) ++ D).
      rewrite <- Permutation_middle, Ed. exact Hap.
    + intros a n Hin. apply I. rewrite Er.
      change (regions q1 D) with ((sub_page q <$> del s (allocator_list q)) ++ (s, gran_size q) :: ((fun s => (s, gran_size q)) <$> free_allocator q) ++ D) in Hin.
      by rewrite <- Permutation_middle in Hin.
    + intros t Ht. destruct (Hdel' t Ht) as [Ht' Hts]. by apply I.
    + intros t [-> |Ht]%elem_of_cons; [exists p; split; [done | by rewrite Esz, El] | by apply I].
    + simpl. rewrite wrapu_small by lia. lia.
Qed.

Lemma total_zero l : (forall a n, (a, n) ∈ l -> 0 < n) -> total l = 0 -> l = [].
Proof.
  destruct l as [|[a n] l]; [done|]. intros H Ht. exfalso. assert (0 <= total l) as H0; [|specialize (H a n ltac:(by left)); simpl in Ht; lia].
  clear Ht. assert (forall b k, (b, k) ∈ l -> 0 < k) as H' by (intros b k Hb; apply (H b k); by right). clear H.
  induction l as [|[b k] l IH]; simpl; [lia|]. pose proof (H' b k ltac:(by left)). specialize (IH ltac:(intros c j Hc; apply (H' c j); by right)). lia.
Qed.

(** A block of a sub-allocator is released: its size word leads to the sub-allocator. *)
Lemma free_small_ok q m L D s a n : pool_inv q m L D -> s ∈ allocator_list q -> (a, n) ∈ L s ->
  wp (_pool_free_real (a + ALLOC_NODE_SIZE) (q, m)) (fun '(q', m') => exists L' U, pool_inv q' m' L' D /\ in_use q' L' D ≡ₚ U /\
     in_use q L D ≡ₚ user_of (a, n) :: U /\ same_on U m m').
Proof.
  intros I Hs Hin. destruct (sub_bounds q m L D s I Hs) as (Hlo & Hhi & Hs0).
  destruct (pi_subs _ _ _ _ I s Hs) as (p & Hp & Ea & Esz & Hinv).
  destruct (inv_in _ _ Hlo _ _ _ _ _ Hinv Hin) as (Ha1 & Ha2 & Ha16 & Hn). destruct (inv_live _ _ _ _ _ Hinv a n Hin) as [_ Hw].
  destruct (sub_geom q m L D I s Hs) as (b & k & Es & (Hb & _ & Hb0 & Hk0 & Hb2) & _ & _ & Hbs & Hlen & Hc & Hpage).
  unfold _pool_free_real. unfold SUB_ALLOCATOR_SIZE in Ha1. destruct (Hn) as (_ & Hn16 & _).
  rewrite (checkvalid_ok (a + ALLOC_NODE_SIZE)); unfold ALLOC_NODE_SIZE; [|lia|].
  2:{ pose proof (Z_div_mod_eq_full a 16). symmetry. apply (Z.mod_unique_pos _ 4 (a / 16 * 4 + 2)); lia. }
  fold ALLOC_NODE_SIZE.
  cbn [negb]. replace (a + ALLOC_NODE_SIZE - ALLOC_NODE_SIZE) with a by lia.
  pose proof (Hw : wload a m = _) as Hw'. rewrite Hw'. cbn [mbind option_bind]. cbv zeta.
  rewrite enc_bit by auto. rewrite Z.eqb_refl. cbn [negb]. unfold __index2_alloc_size. rewrite Hw'. cbn [mbind option_bind].
  rewrite enc_size by done. rewrite wstore_ok by by eexists. cbn [mbind option_bind]. rewrite enc_page, Ea, Hpage by done.
  assert (find_sub b q = s) as ->.
  { unfold find_sub. destruct (Z.eqb_spec b (pool_addr q)) as [Eb|Eb]; [|destruct Hc as [Hc|(_ & Hc)]; congruence].
    destruct Hc as [Hc|(Hc & _)]; [|done]. destruct (decide (s = _allocator q)) as [|Hne]; [done|exfalso].
    destruct (pool_first_page q m L D I) as (_ & _ & Hgran).
    destruct (apart_subs q m L D I s (_allocator q) Hs (pi_first _ _ _ _ I) Hne) as [H|H]; unfold sub_len, _allocator, POOL_STRUCT_SIZE in *.
    - rewrite (proj2 (Z.eqb_neq _ _) Hne) in H. unfold gran_size, MIN_PAGE_SIZE in H. lia.
    - rewrite Z.eqb_refl in H. destruct (pool_first_page q m L D I) as ((_ & _ & _ & ? & _) & _). lia. }
  rewrite Hp. cbn [mbind option_bind].
  rewrite (checkvalid_ok s); [|lia|].
  2:{ unfold _allocator, POOL_STRUCT_SIZE in Hc. pose proof (Z_div_mod_eq_full b 4096). destruct Hc as [-> |(-> & <-)]; symmetry;
        [apply (Z.mod_unique_pos _ 4 (b / 4096 * 1024)); lia | apply (Z.mod_unique_pos _ 4 (b / 4096 * 1024 + 60)); lia]. }
  assert (__check_in_sub p (a + ALLOC_NODE_SIZE) = true) as ->.
  { unfold __check_in_sub. rewrite Ea, Esz. destruct Hn as (_ & Hn & _). unfold ALLOC_NODE_SIZE, SUB_ALLOCATOR_SIZE in *.
    rewrite (proj2 (Z.ltb_lt s _)), (proj2 (Z.ltb_lt _ (s + 1088 + _))) by lia. done. }
  cbn [negb orb]. set (m1 := <[a := n]> m).
  destruct (elem_of_Permutation (L s) (a, n)) as [[live El] _]; [done|].
  assert (<[a := enc (sub_addr p) n]> m1 = m) as Em by (unfold m1; rewrite insert_insert_eq; by apply insert_id).
  eapply wp_bind.
  { apply (nd_allocator_free_ok _ _ Hlo Hhi p m1 live a n); [|unfold m1; by rewrite lookup_insert_eq].
    rewrite Em. by eapply sub_inv_perm. }
  intros [[p2 m2] r] (Hinv2 & Hs2 & Hr2 & Ea2 & El2 & ->).
  assert (inr (s + SUB_ALLOCATOR_SIZE) (s + sub_len q s) m m2) as Hr.
  { eapply inr_trans; [|exact Hr2]. destruct Hn as (_ & Hn & _). apply (writes_sub a n); [unfold SUB_ALLOCATOR_SIZE; lia | unfold SUB_ALLOCATOR_SIZE; lia |].
    apply writes_insert; [lia | by eexists]. }
  assert (same_on live m m2) as Hs3.
  { eapply same_on_trans; [|exact Hs2]. destruct Hinv as [_ _ _ (fl & _ & Ht) _ _]. rewrite El in Ht.
    apply (same_on_app live (frees fl ++ bump p)), (writes_tiled _ _ a n _ _ _ Ht). apply writes_insert; [lia | by eexists]. }
  pose proof (update_sub q m L D I s p2 m2 live Hs ltac:(congruence) ltac:(congruence) Hinv2 Hr) as I2.
  destruct (in_use_set q m L D s live I Hs) as (R & E1 & E2). rewrite El in E1.
  set (q2 := pool_set_subs (<[s := p2]> (subs q)) q) in *. change (in_use q (<[s:=live]> L) D) with (in_use q2 (<[s:=live]> L) D) in E2.
  pose proof (update_same_sub q m L D I s live m2 Hs ltac:(intros b' Hb'; rewrite El; by right) Hr Hs3) as Hs4.
  change (in_use q (<[s := live]> L) D) with (in_use q2 (<[s := live]> L) D) in Hs4.
  set (L2 := <[s := live]> L) in *.
  assert (in_use q L D ≡ₚ user_of (a, n) :: in_use q2 L2 D) as EU by by rewrite E1, E2.
  destruct (Z.eqb_spec (total live) 0) as [E0|E0].
  - cbn [Z.eqb]. change (_allocator q2) with (_allocator q). change (cur_allocator q2) with (cur_allocator q).
    destruct (Z.eqb_spec s (_allocator q)) as [H1|H1]; cbn [negb andb]; [by apply wp_ret; exists L2, (in_use q2 L2 D)|].
    destruct (Z.eqb_spec s (cur_allocator q)) as [H2|H2]; cbn [negb]; [by apply wp_ret; exists L2, (in_use q2 L2 D)|].
    eapply wp_mono; [apply (__free_sub_allocator_ok q2 m2 L2 D s I2 Hs H1 H2)|].
    + unfold L2. rewrite fn_lookup_insert. apply total_zero; [|done]. intros c j Hcj. destruct (inv_live _ _ _ _ _ Hinv2 c j Hcj) as [(_ & ? & _) _]. lia.
    + intros [q3 m3] (I3 & E3 & Hs5). exists L2, (in_use q2 L2 D). split_and!; [done | done | done | by eapply same_on_trans].
  - simpl. unfold max_free. simpl. rewrite lookup_insert_eq. cbn [mbind option_bind].
    destruct (pi_subs _ _ _ _ I2 (cur_allocator q) (pi_cur _ _ _ _ I)) as (pc & Hpc & _). simpl in Hpc. rewrite Hpc. cbn [mbind option_bind].
    apply wp_ret. exists L2, (in_use q2 L2 D). destruct (_ <? _); split_and!; try done. by apply pool_inv_cur.
Qed.

Lemma list_filter_all_prop {A} (P : A -> Prop) `{forall x, Decision (P x)} (l : list A) : (forall x, x ∈ l -> P x) -> filter P l ≡ₚ l.
Proof.
  induction l as [|x l IH]; intros Hl; [done|]. rewrite filter_cons, decide_True by (apply Hl; by left).
  f_equiv. apply IH. intros y Hy. apply Hl. by right.
Qed.

Lemma large_word x : x mod 4 = 0 -> Z.land (Z.lor x 2) (Z.lnot 3) = x /\ Z.land (Z.lor x 2) 2 <> 0.
Proof.
  intros H. pose proof (Z_div_mod_eq_full x 4). assert (Z.lor x 2 = x + 2) as ->.
  { replace x with ((x / 4) * 2 ^ 2) by lia. apply lor_add; lia. }
  split.
  - change 3 with (2 ^ 2 - 1). rewrite land_lnot_pow2 by lia. change (2 ^ 2) with 4. rewrite <- (Z.div_unique_pos (x + 2) 4 (x / 4) 2); lia.
  - intros E. assert (Z.testbit (Z.land (x + 2) 2) 1 = true) as Hb; [|by rewrite E in Hb].
    rewrite Z.land_spec. change (Z.testbit 2 1) with true. rewrite andb_true_r. apply Z.testbit_true; [lia|]. change (2 ^ 1) with 2.
    rewrite <- (Z.div_unique_pos (x + 2) 2 (x / 4 * 2 + 1) 0) by lia.
    symmetry. apply (Z.mod_unique_pos (x / 4 * 2 + 1) 2 (x / 4) 1); lia.
Qed.

(** A large block goes back to the system. *)
Lemma free_large_ok q m L D a n : pool_inv q m L D -> (a, n) ∈ D ->
  wp (_pool_free_real (a + BIG_CHUNK_SIZE) (q, m)) (fun '(q', m') => exists D' U, pool_inv q' m' L D' /\ in_use q' L D' ≡ₚ U /\
     in_use q L D ≡ₚ data_of (a, n) :: U /\ same_on U m m').
Proof.
  intros I HD. assert ((a, n) ∈ regions q D) as Hreg by (unfold regions; rewrite !elem_of_app; by right; right).
  destruct (pi_ok _ _ _ _ I a n Hreg) as [(Ha & Hn & Ha0 & Hn0 & Hle) Hm]. destruct (pi_words _ _ _ _ I a n HD) as [Hw1 Hw2].
  pose proof (Z_div_mod_eq_full a 4096). pose proof (Z_div_mod_eq_full n 4096).
  destruct (large_word (n - 24)) as [Hsz Hbit]; [symmetry; apply (Z.mod_unique_pos _ 4 (n / 4096 * 1024 - 6)); lia|].
  unfold _pool_free_real, BIG_CHUNK_SIZE, ALLOC_NODE_SIZE. rewrite (checkvalid_ok (a + 32)); [|lia|symmetry; apply (Z.mod_unique_pos _ 4 (a / 4096 * 1024 + 8)); lia].
  cbn [negb]. cbv zeta. replace (a + 32 - 8) with (a + 24) by lia.
  rewrite (Hw2 : wload (a + 24) m = _). cbn [mbind option_bind].
  rewrite (proj2 (Z.eqb_neq _ 0) Hbit). cbn [negb]. replace (a + 32 - 32) with a by lia. rewrite (Hw1 : wload a m = _). cbn [mbind option_bind].
  rewrite (pool_valid q m L D I), Z.eqb_refl. cbn [negb]. rewrite Hsz. replace (n - 24 + 32 - 8) with n by lia.
  rewrite wstore_ok by by eexists. cbn [mbind option_bind]. unfold __sys_page_free, wload. rewrite lookup_insert_eq. cbn [mbind option_bind].
  apply wp_ret. destruct (elem_of_Permutation D (a, n)) as [[D1 ED] _]; [done|].
  assert (regions q D ≡ₚ (a, n) :: regions q D1) as Er by (unfold regions; rewrite ED, !app_assoc; by rewrite <- Permutation_middle).
  pose proof (pi_apart _ _ _ _ I) as Hap. rewrite Er in Hap. destruct Hap as [Hd Hap]. simpl in Hd.
  set (D' := filter (fun b : block => b.1 <> a) D).
  assert (D' ≡ₚ D1) as ED'.
  { unfold D'. rewrite ED, filter_cons, decide_False by (simpl; auto). apply list_filter_all_prop. intros [b k] Hb Hba. simpl in Hba. subst b.
    destruct (Hd a k); [unfold regions; rewrite !elem_of_app; by right; right | lia |].
    destruct (pi_ok _ _ _ _ I a k) as [(_ & _ & _ & ? & _) _]; [rewrite Er; right; unfold regions; rewrite !elem_of_app; by right; right | lia]. }
  set (q1 := set_pages _ _ _).
  assert (pool_inv q1 m L D') as I1.
  { split; try apply I.
    - simpl. rewrite (pi_pages _ _ _ _ I). unfold del, D'. clear. induction D as [|[b k] D IH]; [done|]. rewrite fmap_cons, !filter_cons. simpl.
      destruct (decide (b <> a)); rewrite ?fmap_cons; by rewrite IH.
    - change (regions q1 D') with (regions q D'). assert (regions q D' ≡ₚ regions q D1) as -> by (unfold regions; by rewrite ED'). done.
    - intros b k Hin. apply I. rewrite Er. right. change (regions q1 D') with (regions q D') in Hin. unfold regions in *. by rewrite ED' in Hin.
    - intros b k Hin. apply I. rewrite ED. right. by rewrite ED' in Hin. }
  assert (disj a n (regions q1 D')) as Hd1.
  { change (regions q1 D') with (regions q D'). unfold regions in *. by rewrite ED'. }
  assert (forall b k x, (b, k) ∈ regions q1 D' -> b <= x < b + k -> unmap_region a n (<[a := n]> m) !! x = m !! x) as Hsame.
  { intros b k x Hin Hx. specialize (Hd1 b k Hin). rewrite unmap_region_out, lookup_insert_ne by lia. done. }
  exists D', (in_use q L D1). split_and!.
  - by eapply pool_frame.
  - change (in_use q1 L D') with (in_use q L D'). unfold in_use. by rewrite ED'.
  - unfold in_use. rewrite ED. cbn. by rewrite <- Permutation_middle.
  - assert (in_use q L D1 ≡ₚ in_use q1 L D') as -> by (change (in_use q1 L D') with (in_use q L D'); unfold in_use; by rewrite ED').
    by apply (same_on_regions q1 m _ L D').
Qed.

(** Release of a block a user has: it leaves the others. *)
Lemma _pool_free_real_ok q m U r k : pool_state q m ((r, k) :: U) ->
  wp (_pool_free_real r (q, m)) (fun '(q', m') => pool_state q' m' U /\ same_on U m m').
Proof.
  intros (L & D & I & EU). assert ((r, k) ∈ in_use q L D) as Hin by (rewrite <- EU; by left).
  destruct (in_use_cases q L D r k Hin) as [(s & Hs & Hl)|HD].
  - replace r with (r - ALLOC_NODE_SIZE + ALLOC_NODE_SIZE) at 1 by lia.
    eapply wp_mono; [exact (free_small_ok q m L D s _ _ I Hs Hl)|]. intros [q' m'] (L' & U' & I' & E1 & E2 & Hsame).
    unfold user_of in E2. replace (r - ALLOC_NODE_SIZE + ALLOC_NODE_SIZE) with r in E2 by lia.
    replace (k + ALLOC_NODE_SIZE - ALLOC_NODE_SIZE) with k in E2 by lia. rewrite E2 in EU. apply Permutation_cons_inv in EU.
    rewrite EU. split; [|done]. exists L', D. by rewrite E1.
  - replace r with (r - BIG_CHUNK_SIZE + BIG_CHUNK_SIZE) at 1 by lia.
    eapply wp_mono; [exact (free_large_ok q m L D _ _ I HD)|]. intros [q' m'] (D' & U' & I' & E1 & E2 & Hsame).
    unfold data_of in E2. replace (r - BIG_CHUNK_SIZE + BIG_CHUNK_SIZE) with r in E2 by lia.
    replace (k + BIG_CHUNK_SIZE - BIG_CHUNK_SIZE) with k in E2 by lia. rewrite E2 in EU. apply Permutation_cons_inv in EU.
    rewrite EU. split; [|done]. exists L, D'. by rewrite E1.
Qed.

(** ** The blocks the users have *)

(** Writing to a block in use. *)
Lemma pool_write_ok q m U r k x v : pool_state q m U -> (r, k) ∈ U -> r <= x < r + k -> x mod 8 = 0 -> pool_state q (<[x := v]> m) U.
Proof.
  intros (L & D & I & EU) Hin Hx H8. exists L, D. split; [|done]. rewrite EU in Hin.
  destruct (in_use_cases q L D r k Hin) as [(s & Hs & Hl)|HD].
  - destruct (sub_bounds q m L D s I Hs) as (Hlo & _ & _). destruct (pi_subs _ _ _ _ I s Hs) as (p & Hp & Ea & Esz & Hinv).
    destruct (live_in q m L D I s _ _ Hs Hl) as [H1 H2].
    assert (sub_inv (s + SUB_ALLOCATOR_SIZE) (s + sub_len q s) p (<[x := v]> m) (L s)) as Hinv'.
    { eapply (user_write_ok _ _ Hlo); [exact Hinv | exact Hl | lia | done]. }
    assert (inr (s + SUB_ALLOCATOR_SIZE) (s + sub_len q s) m (<[x := v]> m)) as Hr.
    { apply writes_insert; [unfold ALLOC_NODE_SIZE in *; lia|]. apply (inv_mapped _ _ _ _ _ Hinv); [unfold ALLOC_NODE_SIZE in *; lia | done]. }
    pose proof (update_sub q m L D I s p _ (L s) Hs Ea Esz Hinv' Hr) as I'. rewrite set_subs_id in I' by done.
    split; try apply I'. intros t Ht. pose proof (pi_subs _ _ _ _ I' t Ht) as H. destruct (decide (t = s)) as [->|Hne];
      [by rewrite fn_lookup_insert in H | by rewrite fn_lookup_insert_ne in H].
  - set (a := r - BIG_CHUNK_SIZE) in *. set (n := k + BIG_CHUNK_SIZE) in *.
    assert (a + 32 <= x < a + n) as Hxa by (unfold a, n, BIG_CHUNK_SIZE; lia). clearbody a n.
    assert ((a, n) ∈ regions q D) as Hreg by (unfold regions; rewrite !elem_of_app; by right; right).
    destruct (pi_ok _ _ _ _ I a n Hreg) as [Hpo Hma].
    assert (forall c j y, (c, j) ∈ regions q D -> c <= y < c + j -> (c, j) <> (a, n) -> <[x := v]> m !! y = m !! y) as Hfr.
    { intros c j y Hc Hy Hne. rewrite lookup_insert_ne; [done|]. intros ->. destruct (apart_two _ a n c j (pi_apart _ _ _ _ I) Hreg Hc); [congruence | lia | lia]. }
    split; try apply I.
    + intros c j Hc. destruct (pi_ok _ _ _ _ I c j Hc) as [Hpc Hmc]. split; [done|]. intros y Hy Hy8.
      destruct (decide (y = x)) as [->|]; [rewrite lookup_insert_eq; by eexists | rewrite lookup_insert_ne by done; by apply Hmc].
    + intros t Ht. destruct (pi_subs _ _ _ _ I t Ht) as (p & Hp & E1 & E2 & Hinv). exists p. split_and!; try done.
      eapply sub_inv_frame; [|exact Hinv]. intros y Hy. rewrite lookup_insert_ne; [done|]. intros ->.
      unfold SUB_ALLOCATOR_SIZE in Hy. destruct (apart_other q m L D I t a n Ht); [apply elem_of_app; by right | lia | lia].
    + intros c j HD'. destruct (pi_words _ _ _ _ I c j HD') as [H1 H2].
      assert ((c, j) ∈ regions q D) as Hreg' by (unfold regions; rewrite !elem_of_app; by right; right).
      destruct (pi_ok _ _ _ _ I c j Hreg') as [(_ & _ & _ & Hj & _) _].
      destruct (decide ((c, j) = (a, n))) as [[= -> ->]|Hne]; [rewrite !lookup_insert_ne by lia; done|].
      rewrite !(Hfr c j) by (done || lia). done.
Qed.

Lemma apart_app l1 l2 : apart (l1 ++ l2) <-> apart l1 /\ apart l2 /\ forall a n, (a, n) ∈ l1 -> disj a n l2.
Proof.
  induction l1 as [|[a n] l1 IH]; simpl; [split; [intros H; split_and!; [done | done | by intros ? ? ?%not_elem_of_nil] | by intros (_ & H & _)]|].
  rewrite IH, disj_app. split.
  - intros [[H1 H2] (H3 & H4 & H5)]. split_and!; try done. intros b k [[= -> ->]|Hb]%elem_of_cons; [done | by apply H5].
  - intros ([H1 H2] & H3 & H4). split_and!; try done; [apply H4; by left | intros b k Hb; apply H4; by right].
Qed.
Lemma apart_nodup l : apart l -> (forall a n, (a, n) ∈ l -> 0 < n) -> NoDup l.
Proof.
  induction l as [|[a n] l IH]; intros H Hp; [constructor|]. destruct H as [Hd H]. constructor.
  - intros Hin. pose proof (Hp a n ltac:(by left)). specialize (Hd a n Hin). simpl in Hd. lia.
  - apply IH; [done|]. intros b k Hb. apply (Hp b k). by right.
Qed.
Lemma apart_shrink c (f : block -> block) l : 0 <= c -> (forall a n, f (a, n) = (a + c, n - c)) -> apart l -> apart (f <$> l).
Proof.
  intros Hc Hf. induction l as [|[a n] l IH]; intros H; [done|]. destruct H as [Hd H]. rewrite fmap_cons. split; [|by apply IH].
  rewrite Hf. intros b k Hin. apply list_elem_of_fmap in Hin as ([b' k'] & E & Hin). rewrite Hf in E. injection E as -> ->.
  specialize (Hd b' k' Hin). simpl in *. lia.
Qed.
Lemma tiled_apart lo hi l1 l2 : tiled lo hi (l1 ++ l2) -> apart l1.
Proof.
  revert l2. induction l1 as [|[a n] l1 IH]; intros l2 Ht; [done|]. split.
  - by destruct (proj1 (disj_app a n l1 l2) (disj_tiled _ _ _ _ _ Ht)).
  - apply (IH ((a, n) :: l2)). by rewrite <- Permutation_middle.
Qed.

(** Blocks in use do not overlap, and their words are mapped. *)
Lemma pool_apart q m U : pool_state q m U -> apart U /\ forall r k, (r, k) ∈ U -> 0 < r /\ 0 < k /\ r mod 8 = 0 /\ mapped r (r + k) m.
Proof.
  intros (L & D & I & EU). rewrite EU. split.
  - assert (NoDup (allocator_list q)) as Hnd.
    { pose proof (pi_apart _ _ _ _ I) as Ha. unfold regions in Ha. apply apart_app in Ha as [Ha _].
      eapply NoDup_fmap_1, apart_nodup; [exact Ha|]. intros a n Hin.
      destruct (pi_ok _ _ _ _ I a n) as [(_ & _ & _ & ? & _) _]; [apply elem_of_app; by left | lia]. }
    unfold in_use. apply apart_app. split_and!.
    + assert (forall s, s ∈ allocator_list q -> s ∈ allocator_list q) as Hall by done. revert Hnd Hall.
      generalize (allocator_list q) at 1 2 4 as ls. induction ls as [|s ls IH]; intros Hnd Hall; [done|].
      apply NoDup_cons in Hnd as [Hs Hnd]. assert (s ∈ allocator_list q) as Hsin by (apply Hall; by left).
      change (apart ((user_of <$> L s) ++ (ls ≫= fun s => user_of <$> L s))). apply apart_app. split_and!.
      * apply (apart_shrink 8); [lia | done |]. destruct (pi_subs _ _ _ _ I s Hsin) as (p & _ & _ & _ & [_ _ _ (fl & _ & Ht) _ _]).
        by eapply tiled_apart.
      * apply IH; [done|]. intros t Ht. apply Hall. by right.
      * intros a n Ha b k Hb. apply list_elem_of_fmap in Ha as ([a' n'] & [= -> ->] & Ha).
        apply list_elem_of_bind in Hb as (t & Hb & Ht). apply list_elem_of_fmap in Hb as ([b' k'] & [= -> ->] & Hb).
        destruct (live_in q m L D I s _ _ Hsin Ha). destruct (live_in q m L D I t _ _ (Hall t ltac:(by right)) Hb).
        destruct (apart_subs q m L D I s t Hsin (Hall t ltac:(by right)) ltac:(congruence)); unfold SUB_ALLOCATOR_SIZE, ALLOC_NODE_SIZE in *; lia.
    + apply (apart_shrink 32); [lia | done |]. pose proof (pi_apart _ _ _ _ I) as Ha. unfold regions in Ha.
      apply apart_app in Ha as (_ & Ha & _). by apply apart_app in Ha as (_ & Ha & _).
    + intros a n Ha b k Hb. apply list_elem_of_bind in Ha as (t & Ha & Ht). apply list_elem_of_fmap in Ha as ([a' n'] & [= -> ->] & Ha).
      apply list_elem_of_fmap in Hb as ([b' k'] & [= -> ->] & Hb). destruct (live_in q m L D I t _ _ Ht Ha).
      destruct (apart_other q m L D I t b' k' Ht); [apply elem_of_app; by right | |]; unfold SUB_ALLOCATOR_SIZE, ALLOC_NODE_SIZE, BIG_CHUNK_SIZE in *; lia.
  - intros r k Hin. rewrite EU in Hin. destruct (in_use_in q m L D r k I Hin) as (a & n & Hreg & H1 & H2).
    destruct (pi_ok _ _ _ _ I a n Hreg) as [(_ & _ & H0 & _) Hm]. split; [lia|].
    assert (0 < k /\ r mod 8 = 0) as [Hk Hr]; [|split_and!; [done | done | intros x Hx; apply Hm; lia]].
    destruct (in_use_cases q L D r k Hin) as [(s & Hs & Hl)|HD].
    + destruct (sub_bounds q m L D s I Hs) as (Hlo & _ & _). destruct (pi_subs _ _ _ _ I s Hs) as (p & _ & _ & _ & Hinv).
      destruct (inv_in _ _ Hlo _ _ _ _ _ Hinv Hl) as (_ & _ & H16 & _ & Hn & _). unfold ALLOC_NODE_SIZE in *. split; [lia|].
      pose proof (Z_div_mod_eq_full (r - 8) 16). symmetry. apply (Z.mod_unique_pos _ 8 ((r - 8) / 16 * 2 + 1)); lia.
    + destruct (pi_ok _ _ _ _ I _ _ ltac:(unfold regions; rewrite !elem_of_app; right; right; exact HD)) as [(Ha & _ & _ & Hn & _) _].
      unfold BIG_CHUNK_SIZE in *. split; [lia|]. pose proof (Z_div_mod_eq_full (r - 32) 4096).
      symmetry. apply (Z.mod_unique_pos _ 8 ((r - 32) / 4096 * 512 + 4)); lia.
Qed.

(** ** A new pool *)

Lemma pool_shape_ok maxsize size ms g : 0 < maxsize <= UNLIMITED -> pool_shape maxsize = (size, ms, g) ->
  0x10000 <= size <= 64 * MIN_PAGE_SIZE /\ size mod 0x10000 = 0 /\ 1 <= g <= 64.
Proof.
  intros Hm. unfold pool_shape, DEFAULT_PAGE_SIZE, MIN_PAGE_SIZE, EMEMPOOL_HUGE.
  destruct (_ =? _); [|destruct (_ <=? _); [|destruct (_ <=? _)]]; intros [= <- <- <-]; by split_and!.
Qed.

Lemma nd_pool_create_ok nd_mmap maxsize size ms g m : mmap_spec nd_mmap -> 0 < maxsize <= UNLIMITED -> pool_shape maxsize = (size, ms, g) ->
  got_pages nd_mmap size m ->
  wp (nd_pool_create nd_mmap maxsize m) (fun '(o, m') => exists q, o = Some q /\ pool_state q m' [] /\
    capacity q = ms /\ pool_allocated q = size /\ alloc_granularity q = g /\ pool_addr q = nd_mmap size m /\ (forall x, x < pool_addr q \/ pool_addr q + size <= x -> m' !! x = m !! x)).
Proof.
  intros Hmm Hms Esh Hne. destruct (pool_shape_ok _ _ _ _ Hms Esh) as (Hs & Hs16 & Hg). unfold MIN_PAGE_SIZE in Hs.
  unfold nd_pool_create. rewrite (proj2 (Z.eqb_neq maxsize 0)), Esh by lia.
  assert (size mod 4096 = 0) as H4096 by (pose proof (Z_div_mod_eq_full size 65536); symmetry; apply (Z.mod_unique_pos _ 4096 (size / 65536 * 16)); lia).
  pose proof (page_aline_id size ltac:(lia) H4096) as Eid.
  eapply wp_bind; [apply (__sys_page_alloc_ok nd_mmap Hmm size m ltac:(lia)); by rewrite Eid|]. rewrite Eid. cbv zeta.
  intros [m1 P] (EP & Hp & Hf & Hm1 & Hw & Hout). destruct (Hp) as (HP & _ & HP0 & _ & Hle). rewrite (proj2 (Z.eqb_neq P 0)) by lia.
  set (q0 := mk_pool _ _ _ _ _ _ _ _ _ _ _ _ _ _). unfold init_sub.
  pose proof (Z_div_mod_eq_full P 4096). pose proof (Z_div_mod_eq_full size 4096).
  change (_allocator q0) with (P + 240). change POOL_STRUCT_SIZE with 240.
  set (lo := P + 240 + SUB_ALLOCATOR_SIZE). set (hi := P + size).
  assert (lo mod 16 = 0 /\ 0 < lo) as Hlo.
  { unfold lo, SUB_ALLOCATOR_SIZE. split; [|lia]. symmetry. apply (Z.mod_unique_pos _ 16 (P / 4096 * 256 + 83)); lia. }
  eapply (wp_bind _ _ (fun '(q, m') => exists p, q = set_lists [P + 240] [] 0 (pool_set_subs {[P + 240 := p]} q0) /\
    sub_inv lo hi p m' [] /\ writes lo (hi - lo) m1 m' /\ sub_addr p = P + 240 /\ sub_size p = size - 240)).
  { eapply wp_bind.
    - apply (__sub_allocator_init_ok lo hi Hlo); unfold lo, hi, SUB_ALLOCATOR_SIZE; try lia.
      + symmetry. apply (Z.mod_unique_pos _ 16 (size / 4096 * 256 - 83)); lia.
      + intros x Hx. apply Hm1. lia.
    - intros [p m'] (Hinv & W & Ea & Esz & _). apply wp_ret. by exists p. }
  intros [q m'] (p & -> & Hinv & W & Ea & Esz). apply wp_ret. eexists. split; [done|].
  assert (writes P size m1 m') as W' by (eapply writes_sub; [..|exact W]; unfold lo, hi, SUB_ALLOCATOR_SIZE; lia).
  split_and!; try done; [|intros x Hx; simpl in Hx; destruct W' as [W' _]; by rewrite W', Hout].
  exists (fun _ => []), []. split; [|done]. set (q := set_cur _ _).
  assert (u32 size = size) as Eu by (apply wrapu_small; lia).
  assert (regions q [] = [(P, size)]) as Er by (unfold regions, sub_page; simpl; by rewrite Z.eqb_refl, Eu).
  split; try done.
  - simpl. rewrite Eu. unfold MIN_PAGE_SIZE. lia.
  - by left.
  - by left.
  - rewrite Er. split; [|done]. by intros b k ?%not_elem_of_nil.
  - intros a n Hin. rewrite Er in Hin. apply list_elem_of_singleton in Hin. injection Hin as -> ->. split; [done|]. by eapply writes_mapped.
  - intros s Hin. simpl in Hin. apply list_elem_of_singleton in Hin as ->. exists p. simpl. rewrite lookup_singleton_eq.
    assert (sub_len q (P + 240) = size - 240) as El by (unfold sub_len; change (_allocator q) with (P + 240); rewrite Z.eqb_refl; simpl; by rewrite Eu).
    rewrite El. split_and!; try done. by replace (P + 240 + (size - 240)) with hi by (unfold hi; lia).
  - intros s Hin. by apply not_elem_of_nil in Hin.
  - intros a n Hin. by apply not_elem_of_nil in Hin.
Qed.
