(* ===== verification/MemHeap.v ===== *)
(** * MemHeap: what a pool promises (nd_mempool.c)

    The specification is a heap of separate blocks, each with its own contents.  The pool
    implements it: whatever the requests were, a new block is none of the blocks in use, a
    word read is the one last written, and every operation comes to an end. *)

From stdpp Require Import functions gmap.
From S2P Require Import Prelude Handle MemChunk MemSub MemPool MemPoolInv.

(** ** Reallocation *)

Lemma apart_in (U : list block) r k r' k' : apart ((r, k) :: U) -> (r', k') ∈ U -> 0 < k -> 0 < k' -> r <> r'.
Proof. intros [Hd _] Hin Hk Hk'. specialize (Hd r' k' Hin). simpl in Hd. lia. Qed.

Lemma round_least x k c : 0 < k -> c mod k = 0 -> x <= c -> (x + k - 1) / k * k <= c.
Proof.
  intros Hk Hc Hx. pose proof (Z_div_mod_eq_full c k). pose proof (Z_div_mod_eq_full (x + k - 1) k). pose proof (Z.mod_pos_bound (x + k - 1) k Hk).
  assert ((x + k - 1) / k <= c / k); [|nia]. apply Z.lt_succ_r. apply Z.div_lt_upper_bound; [done|]. nia.
Qed.

(** The size of a block is the least one with room for the request. *)
Lemma need_least s c : 0 < s <= DIRECT_ALLOC_SIZE - ALLOC_NODE_SIZE -> class_ok c -> s + 8 <= c -> __get_need_size s <= c.
Proof.
  change (DIRECT_ALLOC_SIZE - ALLOC_NODE_SIZE) with 61432. intros Hs (H16 & Hmin & Hc & Hmax) Hle. unfold __get_need_size.
  assert (u64 (s + ALLOC_NODE_SIZE) = s + 8) as -> by (unfold ALLOC_NODE_SIZE; apply wrapu_small; lia).
  change DIRECT_ALLOC_SIZE with 61440. rewrite (proj2 (Z.ltb_ge _ _)) by lia.
  unfold SIZE_ALINE, BIG_ALINE, ALIGN_SIZE, BIG_SIZE, MIN_SIZE. change 0x400 with 1024. rewrite aline16 by lia.
  pose proof (round_least (s + 8) 16 c ltac:(lia) H16 Hle) as Hr. replace (s + 8 + 16 - 1) with (s + 8 + 15) in Hr by lia.
  pose proof (Z_div_mod_eq_full (s + 8 + 15) 16). pose proof (Z.mod_pos_bound (s + 8 + 15) 16 ltac:(lia)).
  set (b := (s + 8 + 15) / 16 * 16) in *. rewrite !(Z.max_l b) by lia. destruct (Z.leb_spec 1024 b); [|lia].
  rewrite aline1024 by lia. destruct Hc as [Hc|Hc]; [lia|].
  pose proof (round_least b 1024 c ltac:(lia) Hc Hr) as Hr'. replace (b + 1024 - 1) with (b + 1023) in Hr' by lia. lia.
Qed.

(** The lengths of a block are found from its size word. *)
Lemma user_len_ok q m U r k : pool_state q m U -> (r, k) ∈ U -> _user_addr_2sys r m = Some (k, k + 8) /\ nd_alloc_checkvalid r = true /\
  (class_ok (k + 8) \/ (k + 32) mod 4096 = 0 /\ 0x10000 <= k + 32) /\ k < 2 ^ 47.
Proof.
  intros HU Hin. destruct (pool_apart _ _ _ HU) as [_ Hp]. destruct (Hp r k Hin) as (_ & Hk0 & Hr8 & _).
  destruct HU as (L & D & I & EU). rewrite EU in Hin.
  destruct (in_use_in q m L D r k I Hin) as (b & n & Hreg & Hb1 & Hb2). destruct (pi_ok _ _ _ _ I b n Hreg) as [(_ & _ & Hb0 & _ & Hb3) _].
  assert (nd_alloc_checkvalid r = true) as Hv.
  { apply checkvalid_ok; [lia|]. pose proof (Z_div_mod_eq_full r 8). symmetry. apply (Z.mod_unique_pos _ 4 (r / 8 * 2)); lia. }
  unfold _user_addr_2sys, ALLOC_NODE_SIZE. destruct (in_use_cases q L D r k Hin) as [(s & Hs & Hl)|HD].
  - destruct (pi_subs _ _ _ _ I s Hs) as (p & _ & _ & _ & Hinv). destruct (inv_live _ _ _ _ _ Hinv _ _ Hl) as [Hn Hw].
    unfold ALLOC_NODE_SIZE in *. unfold wload. rewrite Hw. cbn [mbind option_bind]. rewrite enc_bit by auto. rewrite Z.eqb_refl. cbn [negb].
    rewrite enc_size by done. replace (k + 8 - 8) with k by lia. split_and!; [done | done | by left | lia].
  - destruct (pi_words _ _ _ _ I _ _ HD) as [_ Hw]. unfold BIG_CHUNK_SIZE in *. replace (r - 32 + 24) with (r - 8) in Hw by lia.
    destruct (pi_ok _ _ _ _ I (r - 32) (k + 32)) as [(_ & Hn & _ & Hn0 & _) _]; [unfold regions; rewrite !elem_of_app; by right; right|].
    unfold wload. rewrite Hw. cbn [mbind option_bind]. pose proof (Z_div_mod_eq_full (k + 32) 4096).
    destruct (large_word (k + 32 - 24)) as [Hsz Hbit]; [symmetry; apply (Z.mod_unique_pos _ 4 ((k + 32) / 4096 * 1024 - 6)); lia|].
    rewrite (proj2 (Z.eqb_neq _ 0) Hbit). cbn [negb]. rewrite Hsz. replace (k + 32 - 24) with (k + 8) by lia. replace (k + 8 - 8) with k by lia.
    split_and!; [done | done | by right | lia].
Qed.

Lemma copy_words_ok q U n : forall dst src m d k s j, pool_state q m U -> (d, k) ∈ U -> (s, j) ∈ U -> d <> s ->
  d <= dst -> dst + 8 * Z.of_nat n <= d + k -> s <= src -> src + 8 * Z.of_nat n <= s + j -> dst mod 8 = 0 -> src mod 8 = 0 ->
  wp (copy_words n dst src m) (fun m' => pool_state q m' U /\
    (forall i, 0 <= i < Z.of_nat n -> m' !! (dst + 8 * i) = m !! (src + 8 * i)) /\
    (forall x, x < dst \/ dst + 8 * Z.of_nat n <= x -> m' !! x = m !! x)).
Proof.
  induction n as [|n IH]; intros dst src m d k s j HU Hd Hs Hne H1 H2 H3 H4 Hd8 Hs8; cbn [copy_words].
  { apply wp_ret. split_and!; [done | lia | done]. }
  destruct (pool_apart _ _ _ HU) as [Ha Hp]. destruct (Hp d k Hd) as (_ & _ & _ & Hmd). destruct (Hp s j Hs) as (_ & _ & _ & Hms).
  destruct (Hms src) as [v Hv]; [lia | done |]. unfold wload. rewrite Hv. cbn [mbind option_bind].
  rewrite wstore_ok by (apply Hmd; [lia | done]). cbn [mbind option_bind].
  assert (forall x, (x + 8) mod 8 = x mod 8) as E8 by (intros x; replace (x + 8) with (x + 1 * 8) by lia; apply Z.mod_add; lia).
  eapply wp_mono.
  { apply (IH (dst + 8) (src + 8) (<[dst := v]> m) d k s j); try done; try lia; [|by rewrite E8..].
    apply (pool_write_ok q m U d k); [done | done | lia | done]. }
  intros m' (HU' & Hcopy & Hout). split_and!; [done | |].
  - intros i Hi. destruct (decide (i = 0)) as [->|].
    + rewrite Hout by lia. rewrite Z.mul_0_r, !Z.add_0_r. by rewrite lookup_insert_eq.
    + replace (dst + 8 * i) with (dst + 8 + 8 * (i - 1)) by lia. rewrite Hcopy by lia.
      replace (src + 8 * i) with (src + 8 + 8 * (i - 1)) by lia. rewrite lookup_insert_ne; [done|].
      destruct (apart_two U d k s j Ha Hd Hs); [congruence | lia | lia].
  - intros x Hx. rewrite Hout, lookup_insert_ne by lia. done.
Qed.

(** When the old block is too small for the new size, it also fits in the new one, except for a large block and these few sizes. *)
Lemma realloc_fits k newsize : 0 < newsize < 2 ^ 44 -> (class_ok (k + 8) \/ (k + 32) mod 4096 = 0 /\ 0x10000 <= k + 32) ->
  k + 8 < __get_need_size (newsize + 8) -> ~ (61424 < newsize <= 61432 /\ 61440 < k) -> k <= usable newsize.
Proof.
  intros Hs Hk Hlt Hex. unfold usable, ALLOC_NODE_SIZE. change DIRECT_ALLOC_SIZE with 61440.
  assert (__get_need_size (newsize + 8) = PAGE_ALINE (newsize + 16) \/ newsize + 16 <= 61440) as Hn.
  { unfold __get_need_size. assert (u64 (newsize + 8 + ALLOC_NODE_SIZE) = newsize + 16) as -> by (unfold ALLOC_NODE_SIZE; rewrite wrapu_small by lia; lia).
    change DIRECT_ALLOC_SIZE with 61440. destruct (Z.ltb_spec 61440 (newsize + 16)); auto. }
  assert (newsize + 16 <= 61440 -> k <= __get_need_size newsize - 8) as Hsmall.
  { intros Hle. destruct (need_ok (newsize + 8)) as (_ & Hb & _); [unfold DIRECT_ALLOC_SIZE, MIN_PAGE_SIZE, SYS_PAGE_SIZE, ALLOC_NODE_SIZE; lia|].
    destruct (need_ok newsize) as ((H16 & _) & Hb' & _); [unfold DIRECT_ALLOC_SIZE, MIN_PAGE_SIZE, SYS_PAGE_SIZE, ALLOC_NODE_SIZE; lia|].
    destruct Hk as [Hk|[_ Hk]]; [|lia].
    assert (~ newsize + 16 <= k + 8) as Hnot.
    { intros Hge. pose proof (need_least (newsize + 8) (k + 8)) as H'. unfold DIRECT_ALLOC_SIZE, MIN_PAGE_SIZE, SYS_PAGE_SIZE, ALLOC_NODE_SIZE in H'.
      specialize (H' ltac:(lia) Hk ltac:(lia)). lia. }
    destruct Hk as (Hk16 & _). pose proof (Z_div_mod_eq_full (k + 8) 16). pose proof (Z_div_mod_eq_full (__get_need_size newsize) 16). lia. }
  destruct (Z.ltb_spec 61440 (newsize + 8)) as [Hbig|Hle].
  - destruct Hn as [Hn|Hn]; [|lia]. rewrite Hn in Hlt. unfold BIG_CHUNK_SIZE.
    destruct (page_aline (newsize + 16) ltac:(lia)) as (Hp & Hp0 & Hp1 & _). destruct (page_aline (newsize + 32) ltac:(lia)) as (Hq & Hq0 & Hq1 & _).
    pose proof (round_least (newsize + 16) 4096 (PAGE_ALINE (newsize + 32)) ltac:(lia) Hq ltac:(lia)) as Hr.
    assert (PAGE_ALINE (newsize + 16) <= PAGE_ALINE (newsize + 32)) as Hpq.
    { unfold PAGE_ALINE at 1, SYS_PAGE_SIZE, MIN_PAGE_SIZE. pose proof (aline_eq (newsize + 16) 12) as E. change (2 ^ 12) with 4096 in E. rewrite E by lia. lia. }
    destruct Hk as [(_ & _ & _ & Hk)|[Hk _]]; [lia|].
    pose proof (Z_div_mod_eq_full (k + 32) 4096). pose proof (Z_div_mod_eq_full (PAGE_ALINE (newsize + 16)) 4096). lia.
  - destruct Hn as [Hn|Hn]; [|by apply Hsmall]. destruct (Z.le_gt_cases (newsize + 16) 61440) as [H'|H']; [by apply Hsmall|].
    destruct (need_ok newsize) as (_ & Hb' & _); [unfold DIRECT_ALLOC_SIZE, MIN_PAGE_SIZE, SYS_PAGE_SIZE, ALLOC_NODE_SIZE; lia|].
    destruct (need_ok newsize) as (Hcl & _ & _); [unfold DIRECT_ALLOC_SIZE, MIN_PAGE_SIZE, SYS_PAGE_SIZE, ALLOC_NODE_SIZE; lia|].
    assert (__get_need_size newsize = 61440) as ->; [|].
    { destruct Hcl as (_ & _ & [Hc|Hc] & _); [lia|]. pose proof (Z_div_mod_eq_full (__get_need_size newsize) 1024). lia. }
    destruct Hk as [Hk|[Hk Hk']]; [|lia]. destruct Hk as (_ & _ & Hc & Hmax). rewrite Hn in Hlt.
    destruct (page_aline (newsize + 16) ltac:(lia)) as (_ & _ & _ & _).
    assert (PAGE_ALINE (newsize + 16) = 65536) as E.
    { unfold PAGE_ALINE, SYS_PAGE_SIZE, MIN_PAGE_SIZE. pose proof (aline_eq (newsize + 16) 12) as E. change (2 ^ 12) with 4096 in E. rewrite E by lia.
      pose proof (round_least (newsize + 16) 4096 65536 ltac:(lia) ltac:(done) ltac:(lia)). lia. }
    rewrite E in Hlt. destruct Hc as [Hc|Hc]; [lia|]. pose proof (Z_div_mod_eq_full (k + 8) 1024). 
    destruct (Z.le_gt_cases k 61440); lia.
Qed.

(** The old block, when it has room for the new size, or a new one with the words of the old one. *)
Lemma nd_pool_realloc_ok nd_mmap q m U r k newsize : mmap_spec nd_mmap -> pool_state q m ((r, k) :: U) -> 0 < newsize < 2 ^ 44 ->
  ~ (61424 < newsize <= 61432 /\ 61440 < k) ->
  got_pages nd_mmap (gran_size q) m -> got_pages nd_mmap (PAGE_ALINE (newsize + BIG_CHUNK_SIZE)) m ->
  wp (nd_pool_realloc nd_mmap r newsize (q, m)) (fun '((q', m'), r') => same_on U m m' /\
    ((r' = 0 /\ capacity q < pool_allocated q /\ pool_state q' m' ((r, k) :: U) /\ same_on [(r, k)] m m') \/
     (r' <> 0 /\ exists k', newsize <= k' /\ pool_state q' m' ((r', k') :: U) /\
        forall i, 0 <= i -> 8 * i + 8 <= k -> m' !! (r' + 8 * i) = m !! (r + 8 * i)))).
Proof.
  intros Hmm HU Hs Hex Hw1 Hw2. destruct (user_len_ok q m _ r k HU ltac:(by left)) as (Hlen & Hv & Hk & Hk47).
  destruct (pool_apart _ _ _ HU) as [Ha Hp]. destruct (Hp r k ltac:(by left)) as (Hr0 & Hk0 & Hr8 & Hmr).
  unfold nd_pool_realloc. rewrite Hv, Hlen. cbn [negb mbind option_bind]. replace (k + 8 - k) with 8 by lia.
  assert (u64 (newsize + 8) = newsize + 8) as -> by (apply wrapu_small; lia). cbv zeta.
  destruct (Z.leb_spec (__get_need_size (newsize + 8)) (k + 8)) as [Hle|Hlt].
  { apply wp_ret. split; [done|]. right. split; [lia|]. exists k. split_and!; [|done | done].
    assert (newsize + 8 <= __get_need_size (newsize + 8) - 8) as H'; [|lia].
    unfold __get_need_size at 1. assert (u64 (newsize + 8 + ALLOC_NODE_SIZE) = newsize + 16) as E by (unfold ALLOC_NODE_SIZE; rewrite wrapu_small by lia; lia). rewrite E.
    change DIRECT_ALLOC_SIZE with 61440. destruct (Z.ltb_spec 61440 (newsize + 16)).
    - destruct (page_aline (newsize + 16) ltac:(lia)) as (_ & _ & ? & _). lia.
    - destruct (need_ok (newsize + 8)) as (_ & ? & _); [unfold DIRECT_ALLOC_SIZE, MIN_PAGE_SIZE, SYS_PAGE_SIZE, ALLOC_NODE_SIZE; lia|].
      unfold __get_need_size in H0. rewrite E in H0. change DIRECT_ALLOC_SIZE with 61440 in H0. rewrite (proj2 (Z.ltb_ge _ _)) in H0 by lia. lia. }
  eapply wp_bind; [exact (_pool_alloc_real_ok nd_mmap Hmm q m _ newsize HU ltac:(lia) Hw1 Hw2)|].
  intros [[q1 m1] r1] (Hs1 & [(-> & [?|Hcap] & HU1)|(Hr1 & k1 & Hus & Hk1 & HU1)]); [lia | |].
  { apply wp_ret. split; [intros a n x Hin; apply (Hs1 a n x); by right|]. left. split_and!; [done..|].
    intros a n x Hin%list_elem_of_singleton. injection Hin as -> ->. apply (Hs1 r k x). by left. }
  rewrite (proj2 (Z.eqb_neq r1 0)) by done. cbn [negb]. pose proof (realloc_fits k newsize Hs Hk Hlt Hex) as Hfit. rewrite <- Hus in Hfit.
  destruct (pool_apart _ _ _ HU1) as [Ha1 Hp1]. destruct (Hp1 r1 k1 ltac:(by left)) as (_ & Hk10 & Hr18 & _).
  destruct (Hp1 r k ltac:(by right; left)) as (_ & _ & _ & _).
  assert (r1 <> r) as Hne by (eapply apart_in; [exact Ha1 | by left | lia | lia]).
  pose proof (Z_div_mod_eq_full k 8) as Ek. pose proof (Z.mod_pos_bound k 8 ltac:(lia)).
  eapply wp_bind.
  { apply (copy_words_ok q1 _ (Z.to_nat (k / 8)) r1 r m1 r1 k1 r k HU1); try done; [by left | by right; left | lia..]. }
  intros m2 (HU2 & Hcopy & Hout). rewrite Z2Nat.id in Hcopy, Hout by (apply Z.div_pos; lia).
  assert (pool_state q1 m2 ((r, k) :: (r1, k1) :: U)) as HU2' by by rewrite perm_swap.
  eapply wp_bind; [exact (_pool_free_real_ok q1 m2 _ r k HU2')|]. intros [q3 m3] [HU3 Hs3]. apply wp_ret. split.
  - intros a n x Hin Hx. rewrite (Hs3 a n x) by (done || by right). rewrite Hout.
    + apply (Hs1 a n x); [by right | done].
    + destruct Ha1 as [Hd _]. specialize (Hd a n ltac:(by right)). simpl in Hd. lia.
  - right. split; [done|]. exists k1. split_and!; [done | done |]. intros i Hi Hik.
    rewrite (Hs3 r1 k1) by (by left || lia). rewrite Hcopy by lia. apply (Hs1 r k); [by left | lia].
Qed.

(** ** The walk of a pool *)

Lemma walk_subs_ok q m L D : pool_inv q m L D -> forall l, (forall s, s ∈ l -> s ∈ allocator_list q) ->
  wp (walk_subs l (q, m)) (fun r => r.*1 ≡ₚ (l ≫= fun s => user_of <$> L s).*1).
Proof.
  intros I l. induction l as [|s l IH]; intros Hl; cbn [walk_subs]; [by apply wp_ret|].
  assert (s ∈ allocator_list q) as Hs by (apply Hl; by left). destruct (sub_bounds q m L D s I Hs) as (Hlo & Hhi & _).
  destruct (pi_subs _ _ _ _ I s Hs) as (p & Hp & Ea & Esz & Hinv). rewrite Hp. cbn [mbind option_bind]. rewrite Esz.
  assert (Z.to_nat ((s + sub_len q s - (s + SUB_ALLOCATOR_SIZE)) / 16) < Z.to_nat (sub_len q s / 16) + 1)%nat as Hfuel.
  { assert ((s + sub_len q s - (s + SUB_ALLOCATOR_SIZE)) / 16 <= sub_len q s / 16); [|lia]. apply Z.div_le_mono; unfold SUB_ALLOCATOR_SIZE; lia. }
  destruct (walk_inv_ok _ _ p m (L s) _ Hinv Hfuel) as (t & -> & Et & _). cbn [mbind option_bind].
  eapply wp_bind; [apply IH; intros t' Ht'; apply Hl; by right|]. intros r Hr. apply wp_ret. cbv beta.
  rewrite (fmap_app fst), Hr. cbn [list_bind]. rewrite (fmap_app fst (user_of <$> L s)). apply Permutation_app; [|done].
  rewrite <- !list_fmap_compose, Et. clear.
  induction (L s) as [|[a n] l IH]; [done|]. rewrite !fmap_cons, IH. done.
Qed.

Lemma walk_pages_ok q m L D : pool_inv q m L D -> wp (walk_pages (page_list q) m) (fun r => r.*1 = (data_of <$> D).*1).
Proof.
  intros I. rewrite (pi_pages _ _ _ _ I). pose proof (pi_words _ _ _ _ I) as Hw. clear I. induction D as [|[a n] D IH]; cbn [walk_pages]; [by apply wp_ret|].
  rewrite fmap_cons. cbn [walk_pages]. destruct (Hw a n ltac:(by left)) as [_ H]. simpl. unfold wload. rewrite H. cbn [mbind option_bind].
  eapply wp_bind; [apply IH; intros b k Hb; apply Hw; by right|]. intros r Hr. apply wp_ret. cbv beta in Hr |- *. rewrite !fmap_cons, Hr. done.
Qed.

Module Heap.
(** ** The specification *)

(** The blocks in use: the size asked for and the words written. *)
Abbreviation heap := (gmap Z (Z * gmap Z Z)).
Inductive op := OpAlloc (size : Z) | OpFree (r : Z) | OpWrite (r off v : Z) | OpRead (r off : Z).

Inductive heap_step : heap -> op -> Z -> heap -> Prop :=
  | HAllocFail h size : heap_step h (OpAlloc size) 0 h
  | HAlloc h size r : r <> 0 -> h !! r = None -> heap_step h (OpAlloc size) r (<[r := (size, ∅)]> h)
  | HFree h r b : h !! r = Some b -> heap_step h (OpFree r) 0 (delete r h)
  | HWrite h r size c off v : h !! r = Some (size, c) -> heap_step h (OpWrite r off v) 0 (<[r := (size, <[off := v]> c)]> h)
  | HRead h r size c off v : h !! r = Some (size, c) -> (forall w, c !! off = Some w -> v = w) -> heap_step h (OpRead r off) v h.

(** What a user may do: release and access the blocks that are in use, within the size asked for. *)
Definition legal (h : heap) (o : op) : Prop :=
  match o with
  | OpAlloc size => 0 <= size < 2 ^ 45
  | OpFree r => is_Some (h !! r)
  | OpWrite r off _ | OpRead r off => exists size c, h !! r = Some (size, c) /\ 0 <= off /\ off + 8 <= size /\ off mod 8 = 0
  end.

Section pool.
Context (nd_mmap : Z -> words -> Z).

Definition pool_step (o : op) '((q, m) : nd_mmpool_t * words) : option ((nd_mmpool_t * words) * Z) :=
  match o with
  | OpAlloc size => _pool_alloc_real nd_mmap size (q, m)
  | OpFree r => qm ← _pool_free_real r (q, m); Some (qm, 0)
  | OpWrite r off v => m ← wstore (r + off) v m; Some ((q, m), 0)
  | OpRead r off => v ← wload (r + off) m; Some ((q, m), v)
  end.

(** The system has pages for the request. *)
Definition mmap_works (o : op) '((q, m) : nd_mmpool_t * words) : Prop :=
  match o with
  | OpAlloc size => got_pages nd_mmap (gran_size q) m /\ got_pages nd_mmap (PAGE_ALINE (size + BIG_CHUNK_SIZE)) m
  | _ => True
  end.

(** Every block of the heap is a block of the pool, with the words written to it. *)
Definition heap_rel '((q, m) : nd_mmpool_t * words) (h : heap) : Prop :=
  exists U, pool_state q m U /\ (forall r k, (r, k) ∈ U -> is_Some (h !! r)) /\
    forall r size c, h !! r = Some (size, c) -> exists k, (r, k) ∈ U /\ size <= k /\
      forall off v, c !! off = Some v -> 0 <= off /\ off + 8 <= size /\ m !! (r + off) = Some v.

Lemma alloc_refines q m h size : mmap_spec nd_mmap -> heap_rel (q, m) h -> legal h (OpAlloc size) -> mmap_works (OpAlloc size) (q, m) ->
  wp (pool_step (OpAlloc size) (q, m)) (fun '(qm', r) => exists h', heap_step h (OpAlloc size) r h' /\ heap_rel qm' h').
Proof.
  intros Hmm (U & HU & Hin & Hh) Hl [Hw1 Hw2].
  eapply wp_mono; [exact (_pool_alloc_real_ok nd_mmap Hmm q m U size HU Hl Hw1 Hw2)|].
  intros [[q' m'] r] (Hs & [(-> & _ & HU')|(Hr & k & _ & Hk & HU')]).
  - exists h. split; [constructor|]. exists U. split_and!; [done | done |]. intros r sz c Hc. destruct (Hh r sz c Hc) as (k & Hk & Hle & Hv).
    exists k. split_and!; [done | done |]. intros off v Ho. destruct (Hv off v Ho) as (H1 & H2 & H3). split_and!; [done | done |].
    by rewrite (Hs r k) by (done || lia).
  - destruct (pool_apart _ _ _ HU') as [Ha Hp]. destruct (Hp r k ltac:(by left)) as (_ & Hk0 & _).
    assert (h !! r = None) as Hnone.
    { destruct (h !! r) as [[sz c]|] eqn:E; [|done]. exfalso. destruct (Hh r sz c E) as (k' & Hin' & _).
      destruct (Hp r k' ltac:(by right)) as (_ & Hk0' & _). by apply (apart_in U r k r k'). }
    exists (<[r := (size, ∅)]> h). split; [by constructor|]. exists ((r, k) :: U). split_and!; [done | |].
    + intros r' k' [[= -> ->]|Hin']%elem_of_cons; [rewrite lookup_insert_eq; by eexists|].
      destruct (decide (r' = r)) as [->|]; [rewrite lookup_insert_eq; by eexists | rewrite lookup_insert_ne by done; by eapply Hin].
    + intros r' sz c Hc. destruct (decide (r' = r)) as [->|Hne].
      * rewrite lookup_insert_eq in Hc. injection Hc as <- <-. exists k. split_and!; [by left | done |]. by intros off v ?%lookup_empty_Some.
      * rewrite lookup_insert_ne in Hc by done. destruct (Hh r' sz c Hc) as (k' & Hk' & Hle & Hv). exists k'. split_and!; [by right | done |].
        intros off v Ho. destruct (Hv off v Ho) as (H1 & H2 & H3). split_and!; [done | done |]. by rewrite (Hs r' k') by (done || lia).
Qed.

Lemma free_refines q m h r : heap_rel (q, m) h -> legal h (OpFree r) ->
  wp (pool_step (OpFree r) (q, m)) (fun '(qm', x) => exists h', heap_step h (OpFree r) x h' /\ heap_rel qm' h').
Proof.
  intros (U & HU & Hin & Hh) [[size c] Hc]. destruct (Hh r size c Hc) as (k & Hk & Hle & _).
  apply elem_of_Permutation in Hk as [U' E]. rewrite E in HU. unfold pool_step.
  eapply wp_bind; [exact (_pool_free_real_ok q m U' r k HU)|]. intros [q' m'] [HU' Hs]. apply wp_ret.
  exists (delete r h). split; [by econstructor|]. exists U'. destruct (pool_apart _ _ _ HU) as [Ha Hp].
  assert (forall r' k', (r', k') ∈ U' -> r <> r') as Hne.
  { intros r' k' Hin'. destruct (Hp r k ltac:(by left)) as (_ & ? & _). destruct (Hp r' k' ltac:(by right)) as (_ & ? & _). by eapply apart_in. }
  split_and!; [done | |].
  - intros r' k' Hin'. rewrite lookup_delete_ne by (by eapply Hne). apply (Hin r' k'). rewrite E. by right.
  - intros r' sz c' Hc'. apply lookup_delete_Some in Hc' as [Hr Hc']. destruct (Hh r' sz c' Hc') as (k' & Hk' & Hle' & Hv).
    rewrite E in Hk'. apply elem_of_cons in Hk' as [[= -> ->]|Hk']; [done|]. exists k'. split_and!; [done | done |].
    intros off v Ho. destruct (Hv off v Ho) as (H1 & H2 & H3). split_and!; [done | done |]. by rewrite (Hs r' k') by (done || lia).
Qed.

Lemma access_mapped q m h r off size c : heap_rel (q, m) h -> h !! r = Some (size, c) -> 0 <= off -> off + 8 <= size -> off mod 8 = 0 ->
  is_Some (m !! (r + off)) /\ (r + off) mod 8 = 0.
Proof.
  intros (U & HU & Hin & Hh) Hc H0 H1 H8. destruct (Hh r size c Hc) as (k & Hk & Hle & _). destruct (pool_apart _ _ _ HU) as [_ Hp].
  destruct (Hp r k Hk) as (_ & _ & Hr8 & Hm). assert ((r + off) mod 8 = 0) as E by by rewrite Z.add_mod, Hr8, H8 by lia.
  split; [apply Hm; (done || lia) | done].
Qed.

Lemma write_refines q m h r off v : heap_rel (q, m) h -> legal h (OpWrite r off v) ->
  wp (pool_step (OpWrite r off v) (q, m)) (fun '(qm', x) => exists h', heap_step h (OpWrite r off v) x h' /\ heap_rel qm' h').
Proof.
  intros Hrel (size & c & Hc & H0 & H1 & H8). destruct (access_mapped q m h r off size c Hrel Hc H0 H1 H8) as [Hm Hx8].
  destruct Hrel as (U & HU & Hin & Hh). destruct (Hh r size c Hc) as (k & Hk & Hle & Hv0).
  unfold pool_step. rewrite wstore_ok by done. apply wp_ret. eexists. split; [by econstructor|]. exists U. split_and!.
  - apply (pool_write_ok q m U r k); [done | done | lia | done].
  - intros r' k' Hin'. destruct (decide (r' = r)) as [->|]; [rewrite lookup_insert_eq; by eexists | rewrite lookup_insert_ne by done; by eapply Hin].
  - intros r' sz c' Hc'. destruct (decide (r' = r)) as [->|Hne].
    + rewrite lookup_insert_eq in Hc'. injection Hc' as <- <-. exists k. split_and!; [done | done |]. intros off' v' Ho.
      destruct (decide (off' = off)) as [->|Hno].
      * rewrite lookup_insert_eq in Ho. injection Ho as <-. split_and!; [done | done | apply lookup_insert_eq].
      * rewrite lookup_insert_ne in Ho by done. destruct (Hv0 off' v' Ho) as (? & ? & ?). split_and!; [done | done |].
        by rewrite lookup_insert_ne by lia.
    + rewrite lookup_insert_ne in Hc' by done. destruct (Hh r' sz c' Hc') as (k' & Hk' & Hle' & Hv). exists k'. split_and!; [done | done |].
      intros off' v' Ho. destruct (Hv off' v' Ho) as (? & ? & ?). split_and!; [done | done |]. rewrite lookup_insert_ne; [done|]. intros E.
      destruct (pool_apart _ _ _ HU) as [Ha _]. destruct (apart_two U r k r' k' Ha Hk Hk'); [congruence | lia | lia].
Qed.

Lemma read_refines q m h r off : heap_rel (q, m) h -> legal h (OpRead r off) ->
  wp (pool_step (OpRead r off) (q, m)) (fun '(qm', x) => exists h', heap_step h (OpRead r off) x h' /\ heap_rel qm' h').
Proof.
  intros Hrel (size & c & Hc & H0 & H1 & H8). destruct (access_mapped q m h r off size c Hrel Hc H0 H1 H8) as [[w Hw] _].
  unfold pool_step, wload. rewrite Hw. apply wp_ret. exists h. split; [|done]. econstructor; [done|].
  destruct Hrel as (U & HU & Hin & Hh). destruct (Hh r size c Hc) as (k & Hk & Hle & Hv0).
  intros v Hv. destruct (Hv0 off v Hv) as (_ & _ & E). rewrite Hw in E. by injection E.
Qed.
End pool.
Lemma heap_rel_new q m : pool_state q m [] -> heap_rel (q, m) ∅.
Proof. intros H. exists []. split_and!; [done | by intros ? ? ?%not_elem_of_nil | by intros ? ? ? ?%lookup_empty_Some]. Qed.

(** A system with pages at two places. *)
Definition all_below (a : Z) (m : words) : bool := forallb (fun kv => kv.1 <? a) (map_to_list m).
Definition two_maps (n : Z) (m : words) : Z :=
  if (n <=? 2 ^ 30) && all_below 0x100000 m then 0x100000
  else if (n <=? 2 ^ 30) && all_below (2 ^ 31) m then 2 ^ 31 else MAP_FAILED.

Lemma two_maps_spec : mmap_spec two_maps.
Proof.
  intros n m Hn H4096. unfold got_pages, two_maps. destruct (Z.leb_spec n (2 ^ 30)); [|left; intros [_ H']; by apply H']. simpl.
  assert (forall a, all_below a m = true -> forall x, a <= x < a + n -> m !! x = None) as Hf.
  { intros a Ha x Hx. destruct (m !! x) as [v|] eqn:E; [|done]. unfold all_below in Ha. rewrite forallb_forall in Ha.
    apply elem_of_map_to_list, list_elem_of_In in E. specialize (Ha _ E). simpl in Ha. apply Z.ltb_lt in Ha. lia. }
  destruct (all_below 0x100000 m) eqn:E1; [right; split; [split_and!; (done || lia) | by apply Hf]|].
  destruct (all_below (2 ^ 31) m) eqn:E2; [right; split; [split_and!; (done || lia) | by apply Hf] | left; intros [_ H']; by apply H'].
Qed.

(** The state after the creation of a small pool. *)
Definition new_pool : option (nd_mmpool_t * words) :=
  '(o, m) ← nd_pool_create two_maps 65536 ∅; q ← o; Some (q, m).

Lemma new_pool_below : match new_pool with Some (_, m) => all_below (2 ^ 31) m | None => false end = true.
Proof. vm_compute. reflexivity. Qed.

Lemma new_pool_ok : exists q m, new_pool = Some (q, m) /\ pool_state q m [] /\ gran_size q = 65536 /\ all_below (2 ^ 31) m = true.
Proof.
  destruct (nd_pool_create_ok two_maps 65536 65536 65536 1 ∅ two_maps_spec) as ([o m] & E & q & -> & HU & H1 & H2 & H3 & _); [done | done | split; vm_compute; discriminate |].
  exists q, m. assert (new_pool = Some (q, m)) as E' by (unfold new_pool; rewrite E; reflexivity).
  pose proof new_pool_below as Hb. rewrite E' in Hb. clear E.
  split; [exact E'|]. clear E'. unfold gran_size. rewrite H3. split_and!; [exact HU | reflexivity | exact Hb].
Qed.

Lemma two_maps_next n m : n <= 2 ^ 30 -> all_below (2 ^ 31) m = true -> got_pages two_maps n m.
Proof. intros Hn H. unfold got_pages, two_maps. rewrite (proj2 (Z.leb_le _ _) Hn), H. by destruct (all_below 0x100000 m). Qed.

(** The state after a first request of 100 bytes. *)
Definition one_block : option ((nd_mmpool_t * words) * Z) := qm ← new_pool; _pool_alloc_real two_maps 100 qm.

Lemma one_block_below : match one_block with Some ((q, m), r) => all_below (2 ^ 31) m && (gran_size q =? 65536) && negb (r =? 0) | None => false end = true.
Proof. vm_compute. reflexivity. Qed.

Lemma one_block_ok : exists q m r, one_block = Some ((q, m), r) /\ pool_state q m [(r, usable 100)] /\ gran_size q = 65536 /\ all_below (2 ^ 31) m = true.
Proof.
  destruct new_pool_ok as (q & m & E & HU & Hg & Hk).
  destruct (_pool_alloc_real_ok two_maps two_maps_spec q m [] 100 HU) as ([[q' m'] r] & E' & _ & H);
    [lia | rewrite Hg; apply two_maps_next; [lia | exact Hk] | apply two_maps_next; [vm_compute; discriminate | exact Hk] |].
  exists q', m', r. assert (one_block = Some ((q', m'), r)) as E2 by (unfold one_block; rewrite E; exact E').
  pose proof one_block_below as Hb. rewrite E2 in Hb. clear E E'.
  split; [exact E2|]. clear E2. apply andb_true_iff in Hb as [Hb Hr]. apply andb_true_iff in Hb as [Hb Hg']. apply Z.eqb_eq in Hg'.
  destruct H as [(-> & _)|(_ & k & -> & _ & HU')]; [done|]. by split_and!.
Qed.

(** ** What the pool promises *)

(** C9: the pool implements a heap of separate blocks: allocation gives none of the blocks in use, a word read is the
    one last written to that place of that block, and every legal operation of the user comes to an end. *)
Theorem pool_refines_heap nd_mmap qm h o (Hmm : mmap_spec nd_mmap) (Hrel : heap_rel qm h) (Hl : legal h o) (Hw : mmap_works nd_mmap o qm) :
  exists qm' r h', pool_step nd_mmap o qm = Some (qm', r) /\ heap_step h o r h' /\ heap_rel qm' h'.
Proof.
  destruct qm as [q m].
  assert (wp (pool_step nd_mmap o (q, m)) (fun '(qm', r) => exists h', heap_step h o r h' /\ heap_rel qm' h')) as ([qm' r] & E & h' & Hs & Hr).
  { destruct o; [by apply alloc_refines | by apply free_refines | by apply write_refines | by apply read_refines]. }
  exists qm', r, h'. by split_and!.
Qed.

Lemma pool_refines_heap_witness : exists q m, new_pool = Some (q, m) /\
  exists qm' r h', pool_step two_maps (OpAlloc 100) (q, m) = Some (qm', r) /\ heap_step ∅ (OpAlloc 100) r h' /\ heap_rel qm' h'.
Proof.
  destruct new_pool_ok as (q & m & E & HU & Hg & Hk). exists q, m. split; [exact E|]. clear E.
  apply pool_refines_heap; [apply two_maps_spec | by apply heap_rel_new | by split |].
  split; [rewrite Hg|]; by apply two_maps_next.
Defined.

(** C31: a request of at least one byte is served as long as the pool is within its capacity: the block has room for
    the request, does not overlap the others and leaves their contents; otherwise the pool is as it was. *)
Theorem pool_alloc_served nd_mmap q m U size (Hmm : mmap_spec nd_mmap) (HU : pool_state q m U) (Hs : 0 <= size < 2 ^ 45)
  (Hw1 : got_pages nd_mmap (gran_size q) m) (Hw2 : got_pages nd_mmap (PAGE_ALINE (size + BIG_CHUNK_SIZE)) m) :
  exists q' m' r, _pool_alloc_real nd_mmap size (q, m) = Some ((q', m'), r) /\ same_on U m m' /\
    if bool_decide (size = 0 \/ capacity q < pool_allocated q) then r = 0 /\ pool_state q' m' U
    else r <> 0 /\ size <= usable size /\ pool_state q' m' ((r, usable size) :: U) /\ apart ((r, usable size) :: U).
Proof.
  destruct (_pool_alloc_real_ok nd_mmap Hmm q m U size HU Hs Hw1 Hw2) as ([[q' m'] r] & E & Hsame & H). exists q', m', r. split_and!; [done | done |].
  assert (r = 0 <-> size = 0 \/ capacity q < pool_allocated q) as Hr.
  { split; [destruct H as [(_ & H & _)|(Hr & _)]; done|]. intros Hz. unfold _pool_alloc_real in E.
    destruct HU as (L & D & I & _). rewrite (pool_valid q m L D I) in E. cbn [negb] in E. cbv zeta in E.
    destruct (Z.eqb_spec size 0) as [->|Hne]; [by injection E|]. destruct Hz as [?|Hcap]; [done|].
    change (capacity (pool_set_errno NDERR_SUCCESS q) <? pool_allocated (pool_set_errno NDERR_SUCCESS q)) with (capacity q <? pool_allocated q) in E.
    rewrite (proj2 (Z.ltb_lt _ _) Hcap) in E. by injection E. }
  case_bool_decide as Hz; destruct H as [(Hr0 & _ & HU')|(Hr0 & k & -> & Hk & HU')].
  - done.
  - exfalso. by apply Hr0, Hr.
  - exfalso. by apply Hz, Hr.
  - split_and!; try done. by apply pool_apart in HU' as [? _].
Qed.

Lemma pool_alloc_served_witness : exists q m, new_pool = Some (q, m) /\
  exists q' m' r, _pool_alloc_real two_maps 70000 (q, m) = Some ((q', m'), r) /\ same_on [] m m' /\
    if bool_decide (70000 = 0 \/ capacity q < pool_allocated q) then r = 0 /\ pool_state q' m' []
    else r <> 0 /\ 70000 <= usable 70000 /\ pool_state q' m' [(r, usable 70000)] /\ apart [(r, usable 70000)].
Proof.
  destruct new_pool_ok as (q & m & E & HU & Hg & Hk). exists q, m. split; [exact E|]. clear E.
  apply pool_alloc_served; [apply two_maps_spec | done | by split | rewrite Hg; by apply two_maps_next | by apply two_maps_next].
Defined.

(** C32: reallocation keeps the contents of the block and leaves the other blocks; a failed one keeps the block.  Not so
    for a large block reallocated to 61425 to 61432 bytes. *)
Theorem pool_realloc_keeps nd_mmap q m U r k newsize (Hmm : mmap_spec nd_mmap) (HU : pool_state q m ((r, k) :: U)) (Hs : 0 < newsize < 2 ^ 44)
  (Hex : ~ (61424 < newsize <= 61432 /\ 61440 < k)) (Hw1 : got_pages nd_mmap (gran_size q) m)
  (Hw2 : got_pages nd_mmap (PAGE_ALINE (newsize + BIG_CHUNK_SIZE)) m) :
  exists q' m' r', nd_pool_realloc nd_mmap r newsize (q, m) = Some ((q', m'), r') /\ same_on U m m' /\
    ((r' = 0 /\ capacity q < pool_allocated q /\ pool_state q' m' ((r, k) :: U) /\ same_on [(r, k)] m m') \/
     (r' <> 0 /\ exists k', newsize <= k' /\ pool_state q' m' ((r', k') :: U) /\
        forall i, 0 <= i -> 8 * i + 8 <= k -> m' !! (r' + 8 * i) = m !! (r + 8 * i))).
Proof.
  destruct (nd_pool_realloc_ok nd_mmap q m U r k newsize Hmm HU Hs Hex Hw1 Hw2) as ([[q' m'] r'] & E & H). exists q', m', r'. by split.
Qed.

Lemma pool_realloc_keeps_witness : exists q m r, pool_state q m [(r, usable 100)] /\
  exists q' m' r', nd_pool_realloc two_maps r 120 (q, m) = Some ((q', m'), r') /\ same_on [] m m' /\
    ((r' = 0 /\ capacity q < pool_allocated q /\ pool_state q' m' [(r, usable 100)] /\ same_on [(r, usable 100)] m m') \/
     (r' <> 0 /\ exists k', 120 <= k' /\ pool_state q' m' [(r', k')] /\
        forall i, 0 <= i -> 8 * i + 8 <= usable 100 -> m' !! (r' + 8 * i) = m !! (r + 8 * i))).
Proof.
  destruct one_block_ok as (q & m & r & _ & HU & Hg & Hk). exists q, m, r. split; [exact HU|].
  apply pool_realloc_keeps; [apply two_maps_spec | exact HU | done | lia | rewrite Hg; by apply two_maps_next | by apply two_maps_next].
Defined.
(** the walk of a pool with a destructor finds the address of each block in use, once. *)
Theorem pool_walk_visits q m U (HU : pool_state q m U) (Hd : destruct_func q = true) :
  exists l, _walk_alloced_inpool (q, m) = Some l /\ l.*1 ≡ₚ U.*1 /\ NoDup (l.*1).
Proof.
  destruct (pool_apart _ _ _ HU) as [Ha Hp]. destruct HU as (L & D & I & EU). unfold _walk_alloced_inpool. rewrite Hd. cbn [negb].
  destruct (walk_subs_ok q m L D I (allocator_list q)) as (l1 & -> & E1); [done|]. cbn [mbind option_bind].
  destruct (walk_pages_ok q m L D I) as (l2 & -> & E2). cbn [mbind option_bind]. exists (l1 ++ l2). split; [done|].
  assert ((l1 ++ l2).*1 ≡ₚ U.*1) as E by (rewrite fmap_app, E1, E2, EU; unfold in_use; by rewrite fmap_app).
  split; [done|]. rewrite E. clear -Ha Hp. induction U as [|[r k] U IH]; [constructor|]. rewrite fmap_cons. constructor.
  - intros ([r' k'] & E & Hin)%list_elem_of_fmap. simpl in E. subst r'. destruct (Hp r k ltac:(by left)) as (_ & ? & _).
    destruct (Hp r k' ltac:(by right)) as (_ & ? & _). by apply (apart_in U r k r k').
  - apply IH; [apply Ha | intros b j Hb; apply Hp; by right].
Qed.

Definition with_destructor (q : nd_mmpool_t) : nd_mmpool_t :=
  mk_pool (pool_addr q) (pool_size q) (capacity q) (pool_allocated q) (alloc_granularity q) (free_allocator_num q)
    (in_used q) true (pool_errno q) (cur_allocator q) (allocator_list q) (free_allocator q) (page_list q) (subs q).

Lemma pool_walk_visits_witness : exists q m r, pool_state q m [(r, usable 100)] /\
  exists l, _walk_alloced_inpool (with_destructor q, m) = Some l /\ l.*1 ≡ₚ [r] /\ NoDup (l.*1).
Proof.
  destruct one_block_ok as (q & m & r & _ & HU & _). exists q, m, r. split; [exact HU|].
  apply (pool_walk_visits (with_destructor q) m [(r, usable 100)]); [|reflexivity].
  destruct HU as (L & D & I & EU). exists L, D. split; [split; apply I | exact EU].
Defined.

(** a pool created for more than 256 KB and at most 960 KB serves nothing: it begins with 1 MB allocated, which
    is more than its capacity. *)
Theorem pool_create_dead nd_mmap maxsize m (Hmm : mmap_spec nd_mmap) (Hms : EMEMPOOL_NORMAL < maxsize <= 960 * 1024)
  (Hw : got_pages nd_mmap EMEMPOOL_HUGE m) :
  exists q m', nd_pool_create nd_mmap maxsize m = Some (Some q, m') /\ pool_state q m' [] /\
    forall size, exists q', _pool_alloc_real nd_mmap size (q, m') = Some ((q', m'), 0) /\ pool_state q' m' [].
Proof.
  unfold EMEMPOOL_NORMAL in Hms.
  assert (pool_shape maxsize = (EMEMPOOL_HUGE, ROUND_PAGE_SIZE maxsize, 1)) as Esh.
  { unfold pool_shape, UNLIMITED, DEFAULT_PAGE_SIZE, MIN_PAGE_SIZE, EMEMPOOL_NORMAL.
    rewrite (proj2 (Z.eqb_neq _ _)), (proj2 (Z.leb_gt _ 65536)), (proj2 (Z.leb_gt _ (256 * 1024))) by lia. done. }
  destruct (nd_pool_create_ok nd_mmap maxsize _ _ _ m Hmm ltac:(unfold UNLIMITED; lia) Esh Hw) as ([o m'] & E & q & -> & HU & Hc & Ha & _).
  exists q, m'. split_and!; [done | done |]. intros size.
  assert (capacity q < pool_allocated q) as Hcap.
  { rewrite Hc, Ha. unfold ROUND_PAGE_SIZE, MIN_PAGE_SIZE. rewrite wrapu_small by lia. pose proof (land_lnot_pow2 (maxsize + 65536 - 1) 16) as El.
    change (2 ^ 16) with 65536 in El. rewrite El by lia. pose proof (round_least maxsize 65536 983040 ltac:(lia) ltac:(done) ltac:(lia)). unfold EMEMPOOL_HUGE. lia. }
  destruct HU as (L & D & I & EU). unfold _pool_alloc_real. rewrite (pool_valid q m' L D I). cbn [negb]. cbv zeta.
  assert (forall e, pool_state (pool_set_errno e (pool_set_errno NDERR_SUCCESS q)) m' []) as HU' by (intros e; exists L, D; split; [by do 2 apply pool_inv_errno | done]).
  destruct (size =? 0); [by eexists|].
  change (capacity (pool_set_errno NDERR_SUCCESS q) <? pool_allocated (pool_set_errno NDERR_SUCCESS q)) with (capacity q <? pool_allocated q).
  rewrite (proj2 (Z.ltb_lt _ _) Hcap). by eexists.
Qed.

Lemma pool_create_dead_witness : exists q m', nd_pool_create two_maps (300 * 1024) ∅ = Some (Some q, m') /\ pool_state q m' [] /\
    forall size, exists q', _pool_alloc_real two_maps size (q, m') = Some ((q', m'), 0) /\ pool_state q' m' [].
Proof. apply pool_create_dead; [apply two_maps_spec | unfold EMEMPOOL_NORMAL; lia | split; vm_compute; discriminate]. Defined.
(** ** Where the code goes wrong *)

Definition by_size (n : Z) (m : words) : Z := 0x10000000 + n * 65536.

(** A large block reallocated to 61430 bytes: its 65504 bytes are copied to a block of 61432, over the size word of the free range. *)
Definition overrun : option (Z * Z * Z * option Z) :=
  '(o, m) ← nd_pool_create by_size (2 * 1024 * 1024) ∅;
  q ← o;
  '((q, m), r) ← _pool_alloc_real by_size 65000 (q, m);
  m ← wstore (r + 61432) 7 m;
  '((q, m), r') ← nd_pool_realloc by_size r 61430 (q, m);
  p ← subs q !! _allocator q;
  Some (r', sub_start p, sub_end p - sub_start p, wload (sub_start p) m).
Lemma realloc_overruns : match overrun with
  | Some (r', start, free, w) => r' <> 0 /\ start = r' + 61432 /\ 0 < free /\ w = Some 7
  | None => False
  end.
Proof. vm_compute. split_and!; (discriminate || reflexivity). Qed.

(** A sub-allocator kept for later is still mapped when the pool is destroyed. *)
Definition leak : option (list Z * Z) :=
  '(o, m) ← nd_pool_create by_size 65536 ∅;
  q ← o;
  '((q, m), c) ← _pool_alloc_real by_size 100 (q, m);
  '((q, m), a) ← _pool_alloc_real by_size 61432 (q, m);
  '((q, m), b) ← _pool_alloc_real (fun _ m => 0x20000000) 61000 (q, m);
  '(q, m) ← _pool_free_real a (q, m);
  '(q, m) ← _pool_free_real b (q, m);
  '(calls, m) ← nd_pool_destroy (q, m);
  Some (free_allocator q, Z.of_nat (base.size m)).
Lemma destroy_leaks : leak = Some ([0x20000000], 8192).
Proof. vm_compute. reflexivity. Qed.

(** The size of the pool structure matters.  With 216 bytes, as without the fields of ND_SOURCE_TRACE, the first region would
    not be a multiple of 16: its last 24 bytes become a block of size 16, and the walk takes the rest for a block in use. *)
Definition odd_region : option (list (Z * Z) * Z * Z) :=
  let page := 0x10000000 in
  pm ← __sub_allocator_init (page + 216) (65536 - 216) (map_region page 65536 ∅);
  '(pm, a) ← nd_allocator_alloc 61432 pm;
  '(pm, b) ← nd_allocator_alloc 2040 pm;
  '(pm, c) ← nd_allocator_alloc 712 pm;
  '(m, _) ← __index2_alloc_size (a - ALLOC_NODE_SIZE) pm.2;
  '(pm, _) ← nd_allocator_free (a - ALLOC_NODE_SIZE) (pm.1, m);
  '((p, m), d) ← nd_allocator_alloc 8 pm;
  l ← _walk_trunk 100 (page + 216 + SUB_ALLOCATOR_SIZE) (page + 65536) m;
  Some (l, d, page + 65536).
Lemma odd_region_walk : exists b c d hi, odd_region = Some ([(b, 2048); (c, 720); (d, 16); (hi, 16)], d, hi).
Proof. vm_compute. do 4 eexists. reflexivity. Qed.
End Heap.
