(* ===== verification/XmlText.v ===== *)
(** * XmlText: the text of an XML node (nd_xml.c, l.14-209)

    Attribute values and node values are written with the characters quote,
    apostrophe, ampersand and the angle brackets replaced by entities, and read
    back.  A [const char *] is a [cstr] as in Str.v; an output buffer is the
    block [m] it points into and the offset [o], so that a store outside the
    block is [None].  [code] is the character encoding in force. *)

From S2P Require Import Prelude Bytes Str.
From Stdlib Require Import Strings.String Lists.List.

Definition _ND_QUOT : Z := 0x22.
Definition _ND_SINGLE_QUOT : Z := 0x27.

(** A string literal, terminator included. *)
Definition lit (s : string) : cstr := chars s ++ [0].

(** The string stored at the start of a block: the bytes before the first NUL. *)
Fixpoint until_nul (m : mem) : list Z :=
  match m with
  | [] => []
  | c :: m => if c =? 0 then [] else c :: until_nul m
  end.

(** [strncat(m + o, s, n)]: appends at most [n] bytes of the text [s] and a NUL
    at the first NUL from [o]. *)
Definition strncat (m : mem) (o : Z) (s : list Z) (n : Z) : option mem :=
  mwrite m (o + zlen (until_nul (slice o (zlen m - o) m))) (slice 0 n s ++ [0]).

(** ** The two marks *)

Definition _is_mark_end (p : cstr) : option bool :=
  c ← deref p;
  if c =? 0x2f then c1 ← deref (tail p); Some (c1 =? 62) else Some false.

Definition _is_mark_start (p : cstr) : option bool :=
  c ← deref p;
  if c =? 60 then c1 ← deref (tail p); Some (c1 =? 0x2f) else Some false.

(** ** Entities *)

(** Returns the rest of the text and the block behind [outText]; an unknown name
    stores nothing. *)
Definition _read_replace_text (src : cstr) (m : mem) (o : Z) : option (cstr * mem) :=
  c ← deref src;
  if negb (c =? 38) then Some (src, m)
  else
    '(p, buf) ← ndstr_nstr_ansi (tail src) 59 15;
    e ← deref p;
    if negb (e =? 59) then m ← mset m o c; Some (tail src, m)
    else
      let p := tail p in
      r ← ndstricmp buf (lit "amp");
      if r =? 0 then m ← mset m o 38; Some (p, m) else
      r ← ndstricmp buf (lit "lt");
      if r =? 0 then m ← mset m o 60; Some (p, m) else
      r ← ndstricmp buf (lit "gt");
      if r =? 0 then m ← mset m o 62; Some (p, m) else
      r ← ndstricmp buf (lit "quot");
      if r =? 0 then m ← mset m o _ND_QUOT; Some (p, m) else
      r ← ndstricmp buf (lit "apos");
      if r =? 0 then m ← mset m o _ND_SINGLE_QUOT; Some (p, m) else
      Some (p, m).

(** The entity each of the five characters is written as. *)
Definition entity_of (c : Z) : option (list Z) :=
  if c =? _ND_SINGLE_QUOT then Some (chars "&apos;")
  else if c =? _ND_QUOT then Some (chars "&quot;")
  else if c =? 38 then Some (chars "&amp;")
  else if c =? 60 then Some (chars "&lt;")
  else if c =? 62 then Some (chars "&gt;")
  else None.

Section Encoding.
Context {sp : Spent} (code : Z).

(** [ndstr_read_utf8char(&p, &out)] with [out] the offset [o] of [m]. *)
Definition read_char_to (p : cstr) (m : mem) (o : Z) : option (cstr * mem * Z) :=
  '(p, w, ret) ← ndstr_read_utf8char code p [];
  m ← mwrite m o w; Some (p, m, ret).

Fixpoint out_replace_loop (fuel : nat) (p : cstr) (m : mem) (o buf_size : Z) : option mem :=
  c ← deref p;
  if negb (c =? 0) && (0 <? buf_size) then
    match fuel with
    | O => None
    | S fuel =>
        match entity_of c with
        | Some e =>
            m ← strncat m o e buf_size;
            out_replace_loop fuel (tail p) m (o + zlen e) (buf_size - zlen e)
        | None =>
            '(p, m, ret) ← read_char_to p m o;
            m ← mset m (o + ret) 0;
            out_replace_loop fuel p m (o + ret) (buf_size - ret)
        end
    end
  else mset m o 0.

(** The block [outText] after the call; the result is its start. *)
Definition _out_replace_text (src : cstr) (outText : mem) (len : Z) : option mem :=
  m ← mset outText 0 0; out_replace_loop (length src) src m 0 len.

(** [*p == '&' && (IS_LITTLE_LATIN(p[1]) || IS_BIG_LATIN(p[1]))] *)
Definition is_entity (p : cstr) : option bool :=
  c ← deref p;
  if c =? 38 then c1 ← deref (tail p); Some (IS_LITTLE_LATIN c1 || IS_BIG_LATIN c1)
  else Some false.

(** Up to the opening quote; [Some None] is the result NULL. *)
Fixpoint skip_to_quote (p : cstr) : option (option cstr) :=
  match p with
  | [] => None
  | c :: t =>
      if c =? _ND_QUOT then Some (Some p)
      else if c =? 0 then Some None
      else if c =? 62 then Some None
      else skip_to_quote t
  end.

Fixpoint attrval_loop (fuel : nat) (p : cstr) (m : mem) (o size : Z)
    : option (option (cstr * mem * Z)) :=
  c ← deref p;
  if negb (c =? 0) && (0 <? size) then
    match fuel with
    | O => spent _ (Some (p, m, o))
    | S fuel =>
        if c =? _ND_QUOT then Some (Some (tail p, m, o))
        else
          e ← is_entity p;
          if e : bool then
            '(p, m) ← _read_replace_text p m o;
            attrval_loop fuel p m (o + 1) (size - 1)
          else
            '(p, m, ret) ← read_char_to p m o;
            if size <? ret then Some None
            else attrval_loop fuel p m (o + ret) (size - ret)
    end
  else Some (Some (p, m, o)).

(** Returns the rest of the text, or NULL, and the buffer. *)
Definition _xml_read_attrval (xmlbuf : cstr) (buf : mem) (size : Z) : option (option (cstr * mem)) :=
  q ← skip_to_quote xmlbuf;
  match q with
  | None => Some None
  | Some p =>
      r ← attrval_loop (length p) (tail p) buf 0 size;
      match r with
      | None => Some None
      | Some (p, m, o) => m ← mset m o 0; Some (Some (p, m))
      end
  end.

(** [*p == '<' && *(p+1) == '/'] is [_is_mark_start]. *)
Fixpoint value_loop (fuel : nat) (p : cstr) (m : mem) (o : Z) : option (cstr * mem * Z) :=
  c ← deref p;
  if c =? 0 then Some (p, m, o)
  else match fuel with
  | O => spent _ (p, m, o)
  | S fuel =>
      e ← is_entity p;
      if e : bool then
        '(p, m) ← _read_replace_text p m o; value_loop fuel p m (o + 1)
      else
        s ← _is_mark_start p;
        if s : bool then Some (p, m, o)
        else '(p, m, ret) ← read_char_to p m o; value_loop fuel p m (o + ret)
  end.
(** [size] is only counted down, never tested. *)
Definition _xml_read_value (xmlbuf : cstr) (buf : mem) : option (cstr * mem) :=
  '(p, m, o) ← value_loop (length xmlbuf) xmlbuf buf 0;
  m ← mset m o 0; Some (p, m).

(** The scratch [char buf[10]] only serves as a destination. *)
Fixpoint value_size_loop (fuel : nat) (p : cstr) (ret : Z) : option Z :=
  c ← deref p;
  if c =? 0 then Some ret
  else match fuel with
  | O => spent _ ret
  | S fuel =>
      e ← is_entity p;
      if e : bool then
        '(p, _) ← _read_replace_text p (zrepeat 0 10) 0; value_size_loop fuel p (ret + 1)
      else
        s ← _is_mark_start p;
        if s : bool then Some ret
        else '(p, _, len) ← read_char_to p (zrepeat 0 10) 0; value_size_loop fuel p (ret + len)
  end.
Definition _xml_get_value_size (p : cstr) : option Z := value_size_loop (length p) p 0.
End Encoding.

Example escape_ex : (m ← _out_replace_text 0 (lit "a<'b'>") (zrepeat 1 40) 40; Some (until_nul m))
  = Some (chars "a&lt;&apos;b&apos;&gt;").
Proof. vm_compute. reflexivity. Qed.
Example attrval_ex : (r ← _xml_read_attrval 0 (chars "= " ++ [34] ++ chars "x&amp;y&z" ++ [34] ++ lit "/>")
    (zrepeat 1 40) 40;
  match r with Some (p, m) => Some (p, until_nul m) | None => None end)
  = Some (lit "/>", chars "x&y&z").
Proof. vm_compute. reflexivity. Qed.
Example value_ex : (_xml_read_value 0 (lit "x&LT;y&foo;z</a>") (zrepeat 1 7), _xml_get_value_size 0 (lit "x&LT;y&foo;z</a>"))
  = (Some (lit "</a>", [120; 60; 121; 1; 122; 0; 1]), Some 5).
Proof. vm_compute. reflexivity. Qed.

(** ** Writing into a block split at the offset *)

Lemma mwrite_drop pre blk d : zlen d <= zlen blk ->
  mwrite (pre ++ blk) (zlen pre) d = Some (pre ++ d ++ drop (length d) blk).
Proof.
  intros H. rewrite <- (take_drop (length d) blk) at 1. apply mwrite_app.
  unfold zlen in *. rewrite length_take. lia.
Qed.
Lemma mset_drop pre blk c : 0 < zlen blk -> mset (pre ++ blk) (zlen pre) c = Some (pre ++ c :: drop 1 blk).
Proof. intros. apply (mwrite_drop pre blk [c]). rewrite zlen_cons, zlen_nil. lia. Qed.

Lemma zlen_drop {A} n (l : list A) : Z.of_nat n <= zlen l -> zlen (drop n l) = zlen l - Z.of_nat n.
Proof. unfold zlen. rewrite length_drop. lia. Qed.

Lemma until_nul_app t rest : Forall (fun b => b <> 0) t -> until_nul (t ++ 0 :: rest) = t.
Proof. induction 1 as [|c t Hc _ IH]; simpl; [done|]. destruct (Z.eqb_spec c 0); [done|]. by rewrite IH. Qed.

(** At a block that holds the empty string from [zlen pre] on. *)
Lemma strncat_empty pre blk s n : zlen s <= n -> zlen s <= zlen blk ->
  strncat (pre ++ 0 :: blk) (zlen pre) s n = Some (pre ++ s ++ 0 :: drop (length s) blk).
Proof.
  intros Hn Hl. unfold strncat. pose proof (zlen_nonneg s).
  rewrite slice_app_r by lia. rewrite Z.sub_diag, zlen_app, zlen_cons.
  rewrite slice_cons by (pose proof (zlen_nonneg blk); lia).
  replace (zlen (until_nul _)) with 0 by done. rewrite Z.add_0_r.
  assert (slice 0 n s = s) as ->.
  { unfold slice. rewrite drop_0, take_ge; [done|]. unfold zlen in *. lia. }
  rewrite mwrite_drop by (rewrite zlen_app, zlen_cons, zlen_nil, zlen_cons; lia).
  f_equal. f_equal. rewrite length_app, <- app_assoc, Nat.add_1_r. done.
Qed.

(** ** Characters *)

(** One character of the encoding: its lead byte says how many bytes it has. *)
Definition char_ok (code : Z) (w : list Z) : Prop :=
  match w with [] => False | c :: _ => ctext w /\ zlen w = word_len code c end.
Definition escape_char (w : list Z) : list Z :=
  match w with [] => [] | c :: _ => match entity_of c with Some e => e | None => w end end.
(** A text is the list of its characters; [raw] its bytes, [escape] its entities. *)
Abbreviation raw := (@concat Z).
Definition escape (cs : list (list Z)) : list Z := concat (map escape_char cs).

Lemma entity_inv c e : entity_of c = Some e ->
  c = 39 /\ e = chars "&apos;" \/ c = 34 /\ e = chars "&quot;" \/ c = 38 /\ e = chars "&amp;" \/
  c = 60 /\ e = chars "&lt;" \/ c = 62 /\ e = chars "&gt;".
Proof. unfold entity_of, _ND_QUOT, _ND_SINGLE_QUOT. intros E. repeat bcase_in E; simplify_eq; auto 10. Qed.

Lemma entity_None c : entity_of c = None -> c <> 39 /\ c <> 34 /\ c <> 38 /\ c <> 60 /\ c <> 62.
Proof. unfold entity_of, _ND_QUOT, _ND_SINGLE_QUOT. intros E. repeat bcase_in E; simplify_eq; auto 10. Qed.

Lemma word_len_ascii code c : c <= 0x80 -> word_len code c = 1.
Proof. intros. unfold word_len. destruct (Z.ltb_spec 0x80 c); [lia|]. repeat bcase; done. Qed.
Lemma word_len_pos code c : 1 <= word_len code c <= 4.
Proof. unfold word_len. repeat bcase; lia. Qed.

Lemma char_cases code w : char_ok code w ->
  (exists c e, w = [c] /\ entity_of c = Some e /\ escape_char w = e) \/
  (exists c t, w = c :: t /\ entity_of c = None /\ escape_char w = w).
Proof.
  destruct w as [|c t]; [done|]. intros [Ht Hl]. unfold escape_char.
  destruct (entity_of c) as [e|] eqn:E; [left|right; eauto].
  exists c, e. split; [|done]. rewrite word_len_ascii in Hl by (apply entity_inv in E; lia).
  rewrite zlen_cons in Hl. by rewrite (zlen_0_nil t) by lia.
Qed.

Lemma char_ok_pos code w : char_ok code w -> 0 < zlen w /\ ctext w.
Proof. destruct w as [|c t]; [done|]. intros [? ->]. pose proof (word_len_pos code c). split; [lia|done]. Qed.

Lemma copy_bytes_app w : forall p out, copy_bytes (length w) (w ++ p) out = Some (p, out ++ w).
Proof.
  induction w as [|c w IH]; intros p out; simpl; [by rewrite app_nil_r|].
  rewrite IH. by rewrite <- app_assoc.
Qed.

Lemma read_char code w p out : char_ok code w ->
  ndstr_read_utf8char code (w ++ p) out = Some (p, out ++ w, zlen w).
Proof.
  destruct w as [|c t]; [done|]. intros [_ Hl]. unfold ndstr_read_utf8char, _read_word.
  cbn [app deref head mbind option_bind]. rewrite <- Hl. unfold zlen. rewrite Nat2Z.id.
  change (c :: t ++ p) with ((c :: t) ++ p). by rewrite (copy_bytes_app (c :: t)).
Qed.

Lemma read_char_to_ok code w p pre blk : char_ok code w -> zlen w <= zlen blk ->
  read_char_to code (w ++ p) (pre ++ blk) (zlen pre) =
  Some (p, pre ++ w ++ drop (length w) blk, zlen w).
Proof.
  intros Hw Hl. unfold read_char_to. rewrite (read_char code w p [] Hw). cbn [mbind option_bind app].
  by rewrite mwrite_drop.
Qed.

(** An entity is read back as its character. *)
Lemma read_entity c e p m o : entity_of c = Some e ->
  deref (e ++ p) = Some 38 /\ is_entity (e ++ p) = Some true /\
  _read_replace_text (e ++ p) m o = (m ← mset m o c; Some (p, m)).
Proof. intros E. destruct (entity_inv _ _ E) as [[-> ->]|[[-> ->]|[[-> ->]|[[-> ->]|[-> ->]]]]]; done. Qed.

Lemma escape_cons w cs : escape (w :: cs) = escape_char w ++ escape cs.
Proof. done. Qed.

Lemma escape_char_len code w : char_ok code w -> zlen w <= zlen (escape_char w) <= 6 * zlen w.
Proof.
  intros Hw. destruct (char_ok_pos _ _ Hw).
  destruct (char_cases _ _ Hw) as [(c&e&->&E&->)|(c&t&->&E&->)]; [|lia].
  destruct (entity_inv _ _ E) as [[-> ->]|[[-> ->]|[[-> ->]|[[-> ->]|[-> ->]]]]]; done.
Qed.

Lemma escape_len code cs : Forall (char_ok code) cs -> zlen (raw cs) <= zlen (escape cs).
Proof.
  induction 1 as [|w cs Hw _ IH]; [done|]. rewrite escape_cons. cbn [concat]. rewrite !zlen_app.
  pose proof (escape_char_len _ _ Hw). lia.
Qed.

Lemma raw_ctext code cs : Forall (char_ok code) cs -> ctext (raw cs).
Proof. induction 1 as [|w cs Hw _ IH]; simpl; [done|]. apply Forall_app. split; [by destruct (char_ok_pos _ _ Hw)|done]. Qed.

(** ** Writing a text *)

Lemma raw_first code w : char_ok code w -> exists c t, w = c :: t /\ 0 < c < 256.
Proof. destruct w as [|c t]; [done|]. intros [H _]. inversion_clear H. eauto. Qed.

Lemma out_replace_ok code cs : Forall (char_ok code) cs -> forall fuel rest pre blk buf_size,
  (length (raw cs) <= fuel)%nat -> zlen (escape cs) < buf_size -> zlen (escape cs) <= zlen blk ->
  out_replace_loop code fuel (raw cs ++ 0 :: rest) (pre ++ 0 :: blk) (zlen pre) buf_size =
  Some (pre ++ escape cs ++ 0 :: drop (length (escape cs)) blk).
Proof.
  induction 1 as [|w cs Hw Hcs IH]; intros fuel rest pre blk buf_size Hf Hb Hl.
  - destruct fuel; cbn [out_replace_loop concat app deref head mbind option_bind negb andb Z.eqb];
      rewrite mset_drop by (rewrite zlen_cons; pose proof (zlen_nonneg blk); lia); done.
  - rewrite escape_cons, zlen_app in *. pose proof (zlen_nonneg (escape cs)).
    pose proof (escape_char_len _ _ Hw). destruct (char_ok_pos _ _ Hw).
    cbn [concat] in *. rewrite length_app in Hf. rewrite <- app_assoc.
    destruct fuel as [|fuel]; [unfold zlen in *; lia|]. cbn [out_replace_loop].
    destruct (char_cases _ _ Hw) as [(c&e&->&E&Ee)|(c&t&Ew&E&Ee)]; rewrite Ee in *.
    + cbn [app deref head tail mbind option_bind].
      assert (c <> 0) by (apply entity_inv in E; lia).
      destruct (Z.eqb_spec c 0); [done|]. destruct (Z.ltb_spec 0 buf_size); [|lia]. cbn [negb andb].
      rewrite E. rewrite strncat_empty by lia. cbn [mbind option_bind]. rewrite (app_assoc pre e).
      rewrite <- (zlen_app pre e). simpl in Hf. rewrite IH; [|lia|lia|rewrite zlen_drop; unfold zlen in *; lia].
      rewrite <- !app_assoc, drop_drop, length_app. done.
    + assert (exists c0, deref (w ++ raw cs ++ 0 :: rest) = Some c0 /\ c0 <> 0 /\ entity_of c0 = None) as (c0&D&Hc0&E0).
      { rewrite Ew. exists c. split_and!; [done| |done].
        rewrite Ew in *. match goal with H : ctext _ |- _ => inversion H end. lia. }
      rewrite D. cbn [mbind option_bind]. destruct (Z.eqb_spec c0 0); [done|].
      destruct (Z.ltb_spec 0 buf_size); [|lia]. cbn [negb andb]. rewrite E0.
      rewrite read_char_to_ok; [|done|rewrite zlen_cons; lia]. cbn [mbind option_bind].
      rewrite <- zlen_app, (app_assoc pre w). rewrite mset_drop by (rewrite zlen_drop; rewrite ?zlen_cons; unfold zlen in *; lia).
      cbn [mbind option_bind]. rewrite drop_drop.
      replace (length w + 1)%nat with (S (length w)) by lia. cbn [drop].
      rewrite IH; [|unfold zlen in *; lia|lia|rewrite zlen_drop; unfold zlen in *; lia].
      rewrite <- !app_assoc, drop_drop, length_app. done.
Qed.

(** A text whose entities fit in the block is written in full; it never fails. *)
Lemma out_replace_text_ok code cs rest outText len : Forall (char_ok code) cs ->
  zlen (escape cs) < len <= zlen outText ->
  exists m, _out_replace_text code (raw cs ++ 0 :: rest) outText len = Some m /\
    until_nul m = escape cs /\ zlen m = zlen outText.
Proof.
  intros Hcs Hl. unfold _out_replace_text. destruct outText as [|b blk].
  { rewrite zlen_nil in Hl. pose proof (zlen_nonneg (escape cs)). lia. }
  rewrite mset_head. cbn [mbind option_bind]. rewrite zlen_cons in Hl.
  rewrite (out_replace_ok code cs Hcs _ rest [] blk len); [|rewrite length_app; lia|lia|lia].
  eexists. split; [done|]. cbn [app]. split.
  - apply until_nul_app. clear Hl. induction Hcs as [|w cs Hw _ IH]; [done|]. rewrite escape_cons.
    apply Forall_app. split; [|done].
    destruct (char_cases _ _ Hw) as [(c&e&->&E&->)|(c&t&->&E&->)].
    + destruct (entity_inv _ _ E) as [[-> ->]|[[-> ->]|[[-> ->]|[[-> ->]|[-> ->]]]]]; repeat constructor; done.
    + destruct Hw as [Hw _]. eapply Forall_impl; [|exact Hw]. simpl. lia.
  - rewrite zlen_app, !zlen_cons, zlen_drop; unfold zlen in *; lia.
Qed.

(** ** Reading a text back *)

Section Read.
Context (code : Z).

(** The head of an escaped text that is not empty. *)
Lemma escape_head w cs p : char_ok code w -> exists c0,
  deref (escape_char w ++ p) = Some c0 /\ c0 <> 0 /\ c0 <> _ND_QUOT /\ c0 <> 60 /\ c0 <> 62 /\
  (entity_of c0 = Some (chars "&amp;") \/ entity_of c0 = None) /\ (0x20 < c0 \/ raw (w :: cs) = c0 :: tail (raw (w :: cs))).
Proof.
  intros Hw. destruct (char_cases _ _ Hw) as [(c&e&->&E&->)|(c&t&->&E&->)].
  - exists 38. split; [by destruct (read_entity c e p [] 0 E)|]. split_and!; try done. all: left; done.
  - exists c. destruct (entity_None c E) as (?&?&?&?&?). destruct Hw as [Hw _]. inversion_clear Hw.
    split_and!; try done; [lia|by right|by right].
Qed.

(** One character, escaped: either an entity, or no entity and no mark. *)
Lemma escape_char_step w p : char_ok code w ->
  (exists c, w = [c] /\ is_entity (escape_char w ++ p) = Some true /\
     forall m o, _read_replace_text (escape_char w ++ p) m o = (m ← mset m o c; Some (p, m))) \/
  (is_entity (escape_char w ++ p) = Some false /\ _is_mark_start (escape_char w ++ p) = Some false /\
   escape_char w = w).
Proof.
  intros Hw. destruct (char_cases _ _ Hw) as [(c&e&->&E&->)|(c&t&->&E&->)].
  - left. exists c. split; [done|]. split; [by destruct (read_entity c e p [] 0 E) as (?&?&?)|].
    intros m o. by destruct (read_entity c e p m o E) as (?&?&?).
  - right. destruct (entity_None c E) as (?&?&?&?&?). unfold is_entity, _is_mark_start.
    cbn [app deref head mbind option_bind]. destruct (Z.eqb_spec c 38); [done|].
    destruct (Z.eqb_spec c 60); done.
Qed.

Lemma attrval_ok cs : Forall (char_ok code) cs -> forall fuel rest pre blk size,
  (length (escape cs) < fuel)%nat -> zlen (raw cs) < size -> zlen (raw cs) <= zlen blk ->
  attrval_loop code fuel (escape cs ++ _ND_QUOT :: rest) (pre ++ blk) (zlen pre) size =
  Some (Some (rest, pre ++ raw cs ++ drop (length (raw cs)) blk, zlen pre + zlen (raw cs))).
Proof.
  induction 1 as [|w cs Hw _ IH]; intros fuel rest pre blk size Hf Hs Hl.
  - destruct fuel; [simpl in *; lia|]. cbn [attrval_loop escape concat map app deref head mbind option_bind negb andb Z.eqb _ND_QUOT].
    change (zlen (raw [])) with 0 in *. destruct (Z.ltb_spec 0 size); [|lia]. by rewrite Z.add_0_r.
  - cbn [concat] in *. rewrite zlen_app in *. pose proof (zlen_nonneg (raw cs)).
    rewrite escape_cons in *. rewrite <- app_assoc. destruct fuel as [|fuel]; [lia|]. cbn [attrval_loop].
    destruct (escape_head w cs (escape cs ++ _ND_QUOT :: rest) Hw) as (c0&->&?&?&_).
    destruct (char_ok_pos _ _ Hw) as [? _]. pose proof (escape_char_len _ _ Hw).
    rewrite length_app in Hf. cbn [mbind option_bind].
    destruct (Z.eqb_spec c0 0); [done|]. destruct (Z.ltb_spec 0 size); [|lia]. cbn [negb andb].
    destruct (Z.eqb_spec c0 _ND_QUOT); [done|].
    destruct (escape_char_step w (escape cs ++ _ND_QUOT :: rest) Hw) as [(c&->&->&R)|(->&_&->)]; cbn [mbind option_bind].
    + rewrite R. change (zlen [c]) with 1 in *. rewrite mset_drop by lia. cbn [mbind option_bind].
      replace (pre ++ c :: drop 1 blk) with ((pre ++ [c]) ++ drop 1 blk) by (by rewrite <- app_assoc).
      replace (zlen pre + 1) with (zlen (pre ++ [c])) by (by rewrite zlen_app).
      rewrite IH; [|unfold zlen in *; lia|lia|rewrite zlen_drop; lia].
      rewrite <- !app_assoc, drop_drop, zlen_app, Z.add_assoc. done.
    + rewrite read_char_to_ok by (done || lia). cbn [mbind option_bind].
      destruct (Z.ltb_spec size (zlen w)); [lia|]. rewrite <- zlen_app, (app_assoc pre w).
      rewrite IH; [|unfold zlen in *; lia|lia|rewrite zlen_drop; unfold zlen in *; lia].
      rewrite <- !app_assoc, drop_drop, length_app, zlen_app, Z.add_assoc. done.
Qed.

Lemma value_ok cs : Forall (char_ok code) cs -> forall fuel rest pre blk,
  (length (escape cs) < fuel)%nat -> zlen (raw cs) <= zlen blk ->
  value_loop code fuel (escape cs ++ 60 :: 0x2f :: rest) (pre ++ blk) (zlen pre) =
  Some (60 :: 0x2f :: rest, pre ++ raw cs ++ drop (length (raw cs)) blk, zlen pre + zlen (raw cs)).
Proof.
  induction 1 as [|w cs Hw _ IH]; intros fuel rest pre blk Hf Hl.
  - destruct fuel; [simpl in *; lia|]. cbn.  change (zlen (raw [])) with 0. by rewrite Z.add_0_r.
  - cbn [concat] in *. rewrite zlen_app in *. pose proof (zlen_nonneg (raw cs)).
    rewrite escape_cons in *. rewrite <- app_assoc. destruct fuel as [|fuel]; [lia|]. cbn [value_loop].
    destruct (escape_head w cs (escape cs ++ 60 :: 0x2f :: rest) Hw) as (c0&->&?&?&_).
    destruct (char_ok_pos _ _ Hw) as [? _]. pose proof (escape_char_len _ _ Hw).
    rewrite length_app in Hf. cbn [mbind option_bind]. destruct (Z.eqb_spec c0 0); [done|].
    destruct (escape_char_step w (escape cs ++ 60 :: 0x2f :: rest) Hw) as [(c&->&->&R)|(->&->&->)]; cbn [mbind option_bind].
    + rewrite R. change (zlen [c]) with 1 in *. rewrite mset_drop by lia. cbn [mbind option_bind].
      replace (pre ++ c :: drop 1 blk) with ((pre ++ [c]) ++ drop 1 blk) by (by rewrite <- app_assoc).
      replace (zlen pre + 1) with (zlen (pre ++ [c])) by (by rewrite zlen_app).
      rewrite IH; [|unfold zlen in *; lia|rewrite zlen_drop; lia].
      rewrite <- !app_assoc, drop_drop, zlen_app, Z.add_assoc. done.
    + rewrite read_char_to_ok by (done || lia). cbn [mbind option_bind].
      rewrite <- zlen_app, (app_assoc pre w).
      rewrite IH; [|unfold zlen in *; lia|rewrite zlen_drop; unfold zlen in *; lia].
      rewrite <- !app_assoc, drop_drop, length_app, zlen_app, Z.add_assoc. done.
Qed.

Lemma value_size_ok cs : Forall (char_ok code) cs -> forall fuel rest r,
  (length (escape cs) < fuel)%nat ->
  value_size_loop code fuel (escape cs ++ 60 :: 0x2f :: rest) r = Some (r + zlen (raw cs)).
Proof.
  induction 1 as [|w cs Hw _ IH]; intros fuel rest r Hf.
  - destruct fuel; [simpl in *; lia|]. cbn. change (zlen (raw [])) with 0. by rewrite Z.add_0_r.
  - cbn [concat] in *. rewrite zlen_app.
    rewrite escape_cons in *. rewrite <- app_assoc. destruct fuel as [|fuel]; [lia|]. cbn [value_size_loop].
    destruct (escape_head w cs (escape cs ++ 60 :: 0x2f :: rest) Hw) as (c0&->&?&?&_).
    destruct (char_ok_pos _ _ Hw) as [? _]. pose proof (escape_char_len _ _ Hw).
    rewrite length_app in Hf. cbn [mbind option_bind]. destruct (Z.eqb_spec c0 0); [done|].
    assert (zlen w <= 4) by (destruct w as [|x w]; [done|destruct Hw as [_ ->]; pose proof (word_len_pos code x); lia]).
    destruct (escape_char_step w (escape cs ++ 60 :: 0x2f :: rest) Hw) as [(c&->&->&R)|(->&->&->)]; cbn [mbind option_bind].
    + rewrite R. destruct (mset_ex (zrepeat 0 10) 0 c) as (m'&->&_); [done|]. cbn [mbind option_bind].
      change (zlen [c]) with 1 in *. rewrite IH by (unfold zlen in *; lia). by rewrite Z.add_assoc.
    + pose proof (read_char_to_ok code w (escape cs ++ 60 :: 0x2f :: rest) [] (zrepeat 0 10) Hw) as Rc.
      change (zlen []) with 0 in Rc. cbn [app] in Rc. rewrite Rc by (change (zlen (zrepeat 0 10)) with 10; lia). cbn [mbind option_bind].
      rewrite IH by (unfold zlen in *; lia). by rewrite Z.add_assoc.
Qed.

(** Whatever the text, the size computed first is the number of bytes the second
    pass stores: a block of that size and one byte more is never overrun. *)
Lemma replace_scratch p p' m o m' m2 o2 : _read_replace_text p m o = Some (p', m') ->
  0 <= o2 < zlen m2 -> exists m2', _read_replace_text p m2 o2 = Some (p', m2') /\ zlen m2' = zlen m2.
Proof.
  intros E Ho. pose proof (fun c => mset_ex m2 o2 c Ho) as W. unfold _read_replace_text in *.
  destruct (deref p) as [c|]; [|done]. cbn [mbind option_bind] in *.
  destruct (negb (c =? 38)); [simplify_eq; eauto|].
  destruct (ndstr_nstr_ansi (tail p) 59 15) as [[q buf]|]; [|done]. cbn [mbind option_bind] in *.
  destruct (deref q) as [e|]; [|done]. cbn [mbind option_bind] in *.
  destruct (negb (e =? 59)).
  { destruct (W c) as (m2'&->&?). apply bind_Some in E as (?&_&E). simplify_eq/=. eauto. }
  do 5 (match goal with H : context [ndstricmp buf ?l] |- _ => destruct (ndstricmp buf l) as [r|]; [|done] end;
    cbn [mbind option_bind] in *; destruct (r =? 0);
    [match goal with |- context [mset m2 o2 ?x] => destruct (W x) as (m2'&->&?) end;
     apply bind_Some in E as (?&_&E); simplify_eq/=; eauto|]; clear r).
  simplify_eq. eauto.
Qed.

Lemma copy_bytes_out n : forall p out, copy_bytes n p out =
  match copy_bytes n p [] with Some (p', w) => Some (p', out ++ w) | None => None end.
Proof.
  induction n as [|n IH]; intros p out; simpl; [by rewrite app_nil_r|].
  destruct (deref p) as [c|]; [|done]. cbn [mbind option_bind]. rewrite IH, (IH _ ([] ++ [c])).
  destruct (copy_bytes n (tail p) []) as [[p' w]|]; [|done]. by rewrite <- app_assoc.
Qed.

Lemma copy_bytes_len n : forall p p' w, copy_bytes n p [] = Some (p', w) ->
  length w = n /\ (length p = n + length p')%nat.
Proof.
  induction n as [|n IH]; intros p p' w E; simpl in E; [by simplify_eq|].
  destruct p as [|c p]; [done|]. cbn [deref head mbind option_bind tail] in E. rewrite copy_bytes_out in E.
  destruct (copy_bytes n p []) as [[q v]|] eqn:Ec; [|done]. simplify_eq. destruct (IH _ _ _ Ec).
  rewrite length_app. simpl. lia.
Qed.

Lemma read_char_len p p' w ret : ndstr_read_utf8char code p [] = Some (p', w, ret) ->
  zlen w = ret /\ 1 <= ret <= 4 /\ zlen p = ret + zlen p'.
Proof.
  unfold ndstr_read_utf8char, _read_word. intros E. apply bind_Some in E as (c&_&E).
  pose proof (word_len_pos code c). destruct (copy_bytes _ p []) as [[q v]|] eqn:Ec; [|done].
  simplify_eq/=. apply copy_bytes_len in Ec. unfold zlen. lia.
Qed.

Lemma read_char_to_any p m o p' m' ret m2 o2 : read_char_to code p m o = Some (p', m', ret) ->
  1 <= ret <= 4 /\ zlen p = ret + zlen p' /\
  (0 <= o2 -> o2 + ret <= zlen m2 ->
   exists m2', read_char_to code p m2 o2 = Some (p', m2', ret) /\ zlen m2' = zlen m2).
Proof.
  unfold read_char_to. intros E. destruct (ndstr_read_utf8char code p []) as [[[q w] r]|] eqn:Er; [|done].
  apply read_char_len in Er as (?&?&?). cbn [mbind option_bind] in *.
  apply bind_Some in E as (?&_&E). simplify_eq/=. split_and!; try lia. intros Ho Hl.
  destruct (mwrite_ex m2 o2 w) as (m2'&->&?); [done|lia|]. eauto.
Qed.

Lemma value_size_mono fuel : forall p r n, value_size_loop code fuel p r = Some n -> r <= n.
Proof.
  induction fuel as [|fuel IH]; intros p r n; cbn [value_size_loop]; intros E;
    apply bind_Some in E as (c&Hc&E); destruct (c =? 0); simplify_eq; [lia|lia|].
  apply bind_Some in E as (e&He&E). destruct e.
  - apply bind_Some in E as ([q ?]&_&E). apply IH in E. lia.
  - apply bind_Some in E as (s&Hs&E). destruct s; [simplify_eq; lia|].
    apply bind_Some in E as ([[q ?] k]&R&E).
    apply (read_char_to_any _ _ _ _ _ _ [] 0) in R as (?&_&_). apply IH in E. lia.
Qed.

Lemma value_fits fuel : forall p r n m o, value_size_loop code fuel p r = Some n ->
  0 <= o -> o + (n - r) < zlen m ->
  exists p' m', value_loop code fuel p m o = Some (p', m', o + (n - r)) /\ zlen m' = zlen m.
Proof.
  induction fuel as [|fuel IH]; intros p r n m o; cbn [value_size_loop value_loop]; intros E Ho Hl;
    apply bind_Some in E as (c&->&E); cbn [mbind option_bind] in *;
    (destruct (c =? 0); [simplify_eq; exists p, m; split; [do 2 f_equal; lia|done]|]); [done|].
  apply bind_Some in E as (e&->&E). cbn [mbind option_bind]. destruct e.
  - apply bind_Some in E as ([q ?]&R&E). pose proof (value_size_mono _ _ _ _ E).
    destruct (replace_scratch _ _ _ _ _ m o R) as (m2&->&E2); [lia|]. cbn [mbind option_bind].
    destruct (IH q (r + 1) n m2 (o + 1) E) as (p'&m'&->&?); [lia|lia|]. exists p', m'.
    split; [do 2 f_equal; lia|lia].
  - apply bind_Some in E as (s&->&E). cbn [mbind option_bind].
    destruct s; [simplify_eq; exists p, m; split; [do 2 f_equal; lia|done]|].
    apply bind_Some in E as ([[q ?] k]&R&E). pose proof (value_size_mono _ _ _ _ E).
    destruct (read_char_to_any _ _ _ _ _ _ m o R) as (?&_&K).
    destruct K as (m2&->&?); [lia|lia|]. cbn [mbind option_bind].
    destruct (IH q (r + k) n m2 (o + k) E) as (p'&m'&->&?); [lia|lia|]. exists p', m'.
    split; [do 2 f_equal; lia|lia].
Qed.
End Read.

(** ** The block for a value *)

Definition round4 (n : Z) : Z := Z.land n (Z.lnot 3).
Lemma round4_spec n : round4 n = 4 * (n / 4).
Proof.
  unfold round4. change (Z.lnot 3) with (Z.lnot (Z.ones 2)).
  rewrite <- Z.ldiff_land, Z.ldiff_ones_r, Z.shiftl_mul_pow2, Z.shiftr_div_pow2 by lia.
  change (2 ^ 2) with 4. lia.
Qed.
Lemma round4_bounds n : n - 3 <= round4 n <= n.
Proof. rewrite round4_spec. Z.to_euclidean_division_equations. lia. Qed.

(** [val_size += 8; val_size &= ~3] *)
Definition value_block_size (n : Z) : Z := round4 (n + 8).

(** C35: whatever text follows an opening tag, entities known or unknown,
    characters of several bytes included: when the first pass computes a size,
    the second pass reads the value into the block allocated for it without a
    store outside the block, and leaves a terminated string in it. *)
Theorem xml_value_fits code p n blk : _xml_get_value_size code p = Some n ->
  zlen blk = value_block_size n ->
  exists p' m, _xml_read_value code p blk = Some (p', m) /\ zlen m = zlen blk /\
    zlen (until_nul m) <= n.
Proof.
  intros E Hb. unfold _xml_get_value_size in E. unfold _xml_read_value, value_block_size in *.
  pose proof (round4_bounds (n + 8)).
  pose proof (value_size_mono _ _ _ _ _ E). destruct (value_fits code (length p) p 0 n blk 0 E) as (p'&m&->&Hm); [lia|lia|].
  cbn [mbind option_bind]. rewrite Z.add_0_l, Z.sub_0_r. destruct (mset_ex m n 0) as (m'&E'&?); [lia|]. rewrite E'.
  cbn [mbind option_bind]. exists p', m'. split_and!; [done|lia|].
  apply mwrite_inv in E' as (?&_&->).
  assert (forall a b, zlen (until_nul (a ++ [0] ++ b)) <= zlen a) as K.
  { induction a as [|x a IH]; intros b; simpl; [done|].
    destruct (x =? 0); rewrite ?zlen_nil, ?zlen_cons; [pose proof (zlen_nonneg a); lia|]. specialize (IH b). simpl in IH. lia. }
  etransitivity; [apply K|]. rewrite zlen_slice; lia.
Qed.

Lemma xml_value_fits_witness :
  exists p' m, _xml_read_value 2 (lit "x&amp;y&foo;z</a>") (zrepeat 7 12) = Some (p', m) /\ zlen m = 12 /\
    zlen (until_nul m) <= 5.
Proof. apply (xml_value_fits 2 (lit "x&amp;y&foo;z</a>") 5 (zrepeat 7 12)); reflexivity. Defined.
