(* ===== verification/XmlParse.v ===== *)
(** * XmlParse: the parser of nd_xml.c

    [parse_marked] and [parse_xmlbuf] (l.1252-1516) build a tree of freshly
    allocated nodes.  A parsed node is a value of [xml]; the lengths of its
    lists of attributes and children are the counts [attr_num] and [sub_num],
    and the list that holds a node says who its [parent] is.  Addresses are
    suffixes of the text, compared by their lengths. *)

From S2P Require Import Prelude Bytes Str XmlText.
From Stdlib Require Import Strings.String Lists.List.

(** ** Nodes *)

Definition MAX_XMLNAME_SIZE : Z := 64.
(** [sizeof(ndxml)], [sizeof(struct ndxml_attr)] on the 64-bit targets. *)
Definition sizeof_ndxml : Z := 152.
Definition sizeof_ndxml_attr : Z := 24.

(** [text] is the block behind the header: the name, then at [name_size] the
    value. *)
Record ndxml_attr := Attr { name_size : Z; value_size : Z; text : mem }.

#[local] Set Warnings "-register-all".
Inductive ndxml :=
  | Ndxml (name : list Z) (value : option mem) (val_size : Z) (attrs : list ndxml_attr) (subs : list ndxml).

Definition xname (x : ndxml) : list Z := let '(Ndxml n _ _ _ _) := x in n.
Definition xvalue (x : ndxml) : option mem := let '(Ndxml _ v _ _ _) := x in v.
Definition xattrs (x : ndxml) : list ndxml_attr := let '(Ndxml _ _ _ a _) := x in a.
Definition xsubs (x : ndxml) : list ndxml := let '(Ndxml _ _ _ _ s) := x in s.

(** [(char* )(attr + 1)] and [(char* )(attr + 1) + attr->name_size]. *)
Definition attr_name (a : ndxml_attr) : list Z := until_nul (text a).
Definition attr_val (a : ndxml_attr) : list Z := until_nul (slice (name_size a) (zlen (text a) - name_size a) (text a)).

(** [ndstrcpy] *)
Definition strcpy (m : mem) (o : Z) (s : list Z) : option mem := mwrite m o (s ++ [0]).

(** ** Functions of the C library *)

(** [strchr(p, c)]; [Some None] is NULL. *)
Fixpoint strchr (p : cstr) (c : Z) : option (option cstr) :=
  match p with
  | [] => None
  | a :: t => if a =? c then Some (Some p) else if a =? 0 then Some None else strchr t c
  end.

(** Whether [p] starts with the text [s]; stops at the first difference. *)
Fixpoint starts_with (p : cstr) (s : list Z) : option bool :=
  match s with
  | [] => Some true
  | b :: s => a ← deref p; if a =? b then starts_with (tail p) s else Some false
  end.
Fixpoint strstr (p : cstr) (s : list Z) : option (option cstr) :=
  match p with
  | [] => None
  | a :: t => r ← starts_with p s;
      if r : bool then Some (Some p) else if a =? 0 then Some None else strstr t s
  end.

(** ** Pointers the parser hands back through its arguments

    [Wild] is a pointer that must not be dereferenced: one never set, or the
    successor of NULL. *)
Inductive ptr := Wild | Null | At (p : cstr).
Definition at_ (p : ptr) : option cstr := match p with At p => Some p | _ => None end.
Definition ptr_of (p : option cstr) : ptr := match p with Some p => At p | None => Null end.
(** [NULL == p] *)
Definition is_null (p : ptr) : option bool :=
  match p with Wild => None | Null => Some true | At _ => Some false end.

Record out_args := Out { parse_end : ptr; error_addr : ptr }.
Definition set_end (p : ptr) (st : out_args) : out_args := Out p (error_addr st).
Definition set_error (p : ptr) (st : out_args) : out_args := Out (parse_end st) p.

(** The offset of [p] from [base]. *)
Definition offset (base p : cstr) : Z := zlen base - zlen p.

(** ** Comments and declarations

    Every round moves past a mark: the length of the text is enough fuel. *)
Section Marked.
Context {sp : Spent}.

Fixpoint parse_marked_loop (fuel : nat) (xmlbuf pstart : cstr) (size : Z) (error : ptr)
    : option (ptr * ptr) :=
  if offset xmlbuf pstart <? size then
    match fuel with
    | O => spent _ (Null, At pstart)
    | S fuel =>
        let error := At pstart in
        p ← ndstr_first_valid pstart;
        match p with
        | None => Some (Null, error)
        | Some paddr =>
            c ← deref paddr;
            if negb (c =? 60) then Some (Null, error)
            else if size <=? offset xmlbuf paddr then Some (Null, Null)
            else
              c1 ← deref (tail paddr);
              if c1 =? 63 then
                q ← strstr (drop 2 paddr) (chars "?>");
                match q with
                | None => Some (Null, error)
                | Some q =>
                    if size <=? offset xmlbuf q then Some (Null, error)
                    else parse_marked_loop fuel xmlbuf (drop 2 q) size error
                end
              else if c1 =? 33 then
                c2 ← deref (drop 2 paddr);
                dash ← (if c2 =? 45 then c3 ← deref (drop 3 paddr); Some (c3 =? 45) else Some false);
                if dash : bool then
                  q ← strstr (drop 4 paddr) (chars "-->");
                  match q with
                  | None => Some (Null, error)
                  | Some q =>
                      if size <=? offset xmlbuf q then Some (Null, error)
                      else parse_marked_loop fuel xmlbuf (drop 3 q) size error
                  end
                else Some (Null, error)
              else Some (At paddr, Null)
        end
    end
  else Some (Null, error).
(** The result and [*error_addr]. *)
Definition parse_marked (xmlbuf : cstr) (size : Z) (error : ptr) : option (ptr * ptr) :=
  parse_marked_loop (S (length xmlbuf)) xmlbuf xmlbuf size error.
End Marked.

Section Parser.
Context {sp : Spent} `{!Malloc} (code : Z).
(** The buffer [char buf[4096]] of an attribute value before it is written. *)
Context (buf0 : mem).

Definition alloc_xml : option ndxml :=
  match malloc sizeof_ndxml with
  | Some _ => Some (Ndxml [] None 0 [] [])
  | None => None
  end.

(** [None]: a store outside the block; [Some None]: no memory. *)
Definition alloc_attrib_node (name value : list Z) : option (option ndxml_attr) :=
  let len := round4 (s32 (zlen name) + 4) in
  let val_len := round4 (s32 (zlen value) + 4) in
  match malloc (sizeof_ndxml_attr + len + val_len) with
  | None => Some None
  | Some blk =>
      let p := slice sizeof_ndxml_attr (len + val_len) blk in
      p ← strcpy p 0 name;
      p ← (if 0 <? s32 (zlen value) then strcpy p len value else mset p len 0);
      Some (Some (Attr (u16 len) (u16 val_len) p))
  end.

(** [ndstr_parse_variant_n(paddr, name, MAX_XMLNAME_SIZE)] into a buffer of
    [MAX_XMLNAME_SIZE] bytes: [None] also when it stores past the end. *)
Definition read_name (paddr : cstr) : option (Z * list Z) :=
  '(ret, out) ← ndstr_parse_variant_n code paddr MAX_XMLNAME_SIZE;
  if MAX_XMLNAME_SIZE <? zlen out then None else Some (ret, until_nul out).

(** How the reading of the attributes ends. *)
Inductive attrs_end :=
  | HeadClosed (paddr : cstr) (attrs : list ndxml_attr)   (** after [>] *)
  | NodeClosed (paddr : cstr) (attrs : list ndxml_attr)   (** after [/>] *)
  | AttrError.                                            (** NULL is returned *)

Fixpoint read_attrs (fuel : nat) (paddr : cstr) (attrs : list ndxml_attr) (st : out_args)
    : option (attrs_end * out_args) :=
  c ← deref paddr;
  if c =? 0 then Some (HeadClosed paddr attrs, st)
  else match fuel with
  | O => spent _ (AttrError, Out Null (At paddr))
  | S fuel =>
      p ← ndstr_first_valid paddr;
      paddr ← p;                             (* NULL is dereferenced *)
      e ← _is_mark_end paddr;
      if e : bool then Some (NodeClosed (drop 2 paddr) attrs, set_end (At (drop 2 paddr)) st)
      else
        c ← deref paddr;
        if c =? 62 then Some (HeadClosed (tail paddr) attrs, st)
        else
          let st := set_error (At paddr) st in
          '(ret, name) ← read_name paddr;
          if ret <=? 0 then Some (AttrError, set_end Null st)
          else
            let paddr := drop (Z.to_nat ret) paddr in
            let st := set_error (At paddr) st in
            q ← strchr paddr 61;
            match q with
            | None => Some (AttrError, set_end Null st)
            | Some paddr =>
                let st := set_error (At paddr) st in
                v ← _xml_read_attrval code paddr buf0 4096;
                match v with
                | None => Some (AttrError, st)   (* [*parse_end] is left as it was *)
                | Some (paddr, buf) =>
                    a ← alloc_attrib_node name (until_nul buf);
                    read_attrs fuel paddr (match a with Some a => attrs ++ [a] | None => attrs end) st
                end
            end
  end.

(** From the label [READ_END]. *)
Definition read_end (paddr : cstr) (node : ndxml) (st : out_args) : option (option ndxml * out_args) :=
  s ← _is_mark_start paddr;
  if negb s then Some (None, Out Null (At paddr))
  else
    p ← ndstr_first_valid (drop 2 paddr);
    paddr ← p;
    '(q, end_name) ← ndstr_parse_word code paddr;
    if MAX_XMLNAME_SIZE <? zlen end_name then None
    else
      r ← ndstricmp (xname node ++ [0]) end_name;
      if negb (r =? 0) then Some (None, Out Null (ptr_of q))
      else
        paddr ← q;                           (* NULL is dereferenced *)
        g ← strchr paddr 62;
        Some (Some node, set_end (match g with Some g => At (tail g) | None => Wild end) st).

(** Between the head of the node and its children: up to the name. *)
Inductive head_end := HeadFail | HeadName (paddr : cstr) (name : list Z).
Definition read_head (xmlbuf : cstr) (size : Z) (st : out_args) : option (head_end * out_args) :=
  '(p, error) ← parse_marked xmlbuf size (error_addr st);
  let st := set_error error st in
  match p with
  | At paddr =>
      s ← _is_mark_start paddr;
      if s : bool then Some (HeadFail, Out (At paddr) Null)
      else
        q ← ndstr_first_valid (tail paddr);
        match q with
        | None => Some (HeadFail, set_end Null st)
        | Some paddr =>
            c ← deref paddr;
            if (c =? 62) || (c =? 60) || (c =? 34) || (c =? 0x2f)
            then Some (HeadFail, Out Null (At paddr))
            else
              match alloc_xml with
              | None => Some (HeadFail, set_end Null st)
              | Some _ =>
                  '(ret, name) ← read_name paddr;
                  if ret <=? 0 then Some (HeadFail, set_end Null st)
                  else Some (HeadName (drop (Z.to_nat ret) paddr) name, st)
              end
        end
  | _ =>
      null ← is_null error;
      Some (HeadFail, Out Null (if null : bool then At xmlbuf else error))
  end.

(** The value between the tags, and what follows it. *)
Definition read_value (paddr : cstr) (name : list Z) (attrs : list ndxml_attr) (st : out_args)
    : option (option ndxml * out_args) :=
  n ← _xml_get_value_size code paddr;
  let val_size := value_block_size n in
  match malloc val_size with
  | None => Some (None, set_end Null st)
  | Some blk =>
      let st := set_end (At paddr) st in
      '(paddr, value) ← _xml_read_value code paddr blk;
      read_end paddr (Ndxml name (Some value) val_size attrs []) st
  end.

(** The body of [parse_xmlbuf]; [parse_subs] is the loop that reads the children. *)
Definition parse_node (parse_subs : cstr -> cstr -> Z -> list Z -> list ndxml_attr -> list ndxml ->
      out_args -> option (option ndxml * out_args))
    (xmlbuf : cstr) (size : Z) (st : out_args) : option (option ndxml * out_args) :=
  '(h, st) ← read_head xmlbuf size st;
  match h with
  | HeadFail => Some (None, st)
  | HeadName paddr name =>
      '(a, st) ← read_attrs (length paddr) paddr [] st;
      match a with
      | AttrError => Some (None, st)
      | NodeClosed _ attrs => Some (Some (Ndxml name None 0 attrs []), st)
      | HeadClosed paddr attrs =>
          p ← ndstr_first_valid paddr;
          paddr ← p;                         (* NULL is dereferenced *)
          s ← _is_mark_start paddr;
          if s : bool then read_end paddr (Ndxml name None 0 attrs []) st
          else
            c ← deref paddr;
            if c =? 60 then parse_subs xmlbuf paddr size name attrs [] st
            else read_value paddr name attrs st
      end
  end.

(** [*error_addr && NULL==parsed] after a call that returned [r]. *)
Definition sub_failed (r : option ndxml) (o : out_args) : option bool :=
  match r with
  | Some _ => Some false
  | None => e ← is_null (error_addr o); if e : bool then Some false else is_null (parse_end o)
  end.

(** One round of the loop over the children; [parsed] starts uninitialised. *)
Definition parse_sub (parse_xmlbuf : cstr -> Z -> out_args -> option (option ndxml * out_args))
    (parse_subs : cstr -> cstr -> Z -> list Z -> list ndxml_attr -> list ndxml ->
      out_args -> option (option ndxml * out_args))
    (xmlbuf paddr : cstr) (size : Z) (name : list Z) (attrs : list ndxml_attr)
    (subs : list ndxml) (st : out_args) : option (option ndxml * out_args) :=
  c ← deref paddr;
  if c =? 0 then read_end paddr (Ndxml name None 0 attrs subs) st
  else
    let left_size := s32 (size - offset xmlbuf paddr) in
    '(r, o) ← parse_xmlbuf paddr left_size (Out Wild (error_addr st));
    let st := set_error (error_addr o) st in
    failed ← sub_failed r o;
    if failed : bool then Some (None, set_end Null st)
    else
      p ← at_ (parse_end o);
      q ← ndstr_first_valid p;
      paddr ← q;                             (* NULL is dereferenced *)
      let subs := match r with Some x => subs ++ [x] | None => subs end in
      s ← _is_mark_start paddr;
      if s : bool then read_end paddr (Ndxml name None 0 attrs subs) st
      else parse_subs xmlbuf paddr size name attrs subs st.

Fixpoint parse_xmlbuf (fuel : nat) (xmlbuf : cstr) (size : Z) (st : out_args)
    : option (option ndxml * out_args) :=
  match fuel with
  | O => spent _ (None, Out Null (At xmlbuf))
  | S fuel => parse_node (parse_subs fuel) xmlbuf size st
  end
with parse_subs (fuel : nat) (xmlbuf paddr : cstr) (size : Z) (name : list Z) (attrs : list ndxml_attr)
    (subs : list ndxml) (st : out_args) : option (option ndxml * out_args) :=
  match fuel with
  | O => spent _ (None, Out Null (At paddr))
  | S fuel => parse_sub (parse_xmlbuf fuel) (parse_subs fuel) xmlbuf paddr size name attrs subs st
  end.

Lemma parse_xmlbuf_S fuel xmlbuf size st :
  parse_xmlbuf (S fuel) xmlbuf size st = parse_node (parse_subs fuel) xmlbuf size st.
Proof. done. Qed.
Lemma parse_subs_S fuel xmlbuf paddr size name attrs subs st :
  parse_subs (S fuel) xmlbuf paddr size name attrs subs st =
  parse_sub (parse_xmlbuf fuel) (parse_subs fuel) xmlbuf paddr size name attrs subs st.
Proof. done. Qed.

(** The recursion consumes a character at every second level. *)
Definition ndxml_from_text (txt : cstr) : option (option ndxml * out_args) :=
  parse_xmlbuf (2 * length txt + 2) txt (s32 (zlen (until_nul txt))) (Out Wild Wild).
End Parser.

(** ** Progress *)

Lemma first_valid_len p q : ndstr_first_valid p = Some (Some q) ->
  (length q <= length p)%nat /\ exists c, deref q = Some c /\ 0x20 < c /\ c <> 0.
Proof.
  induction p as [|c p IH]; simpl; [done|]. destruct (Z.leb_spec c 0x20).
  - destruct (c =? 0); [done|]. intros [? ?]%IH. split; [lia|done].
  - intros [= <-]. simpl. split; [lia|]. exists c. split_and!; [done|lia|lia].
Qed.

Lemma first_valid_id p c : deref p = Some c -> 0x20 < c -> ndstr_first_valid p = Some (Some p).
Proof. destruct p as [|d p]; simpl; intros [=->] ?. destruct (Z.leb_spec c 0x20); [lia|done]. Qed.

Lemma strchr_len p c q : strchr p c = Some (Some q) -> (length q <= length p)%nat /\ deref q = Some c.
Proof.
  induction p as [|a p IH]; simpl; [done|]. destruct (Z.eqb_spec a c) as [->|].
  - intros [= <-]. split; [simpl; lia|done].
  - destruct (a =? 0); [done|]. intros [? ?]%IH. split; [lia|done].
Qed.

Lemma strstr_len p s q : strstr p s = Some (Some q) -> (length q <= length p)%nat.
Proof.
  induction p as [|a p IH]; [done|]. cbn [strstr]. intros E. apply bind_Some in E as (r&_&E).
  destruct r; [simplify_eq; lia|]. destruct (a =? 0); [done|]. apply IH in E. simpl. lia.
Qed.

Lemma nstr_ansi_len p : forall out e n q o, nstr_ansi_loop p out e n = Some (q, o) -> (length q <= length p)%nat.
Proof.
  induction p as [|a p IH]; intros out e n q o; cbn [nstr_ansi_loop]; [done|]. intros E.
  repeat bcase_in E; simplify_eq; try lia. apply IH in E. simpl. lia.
Qed.

Lemma replace_text_len p m o q m' : is_entity p = Some true -> _read_replace_text p m o = Some (q, m') ->
  (length q < length p)%nat.
Proof.
  unfold is_entity, _read_replace_text. destruct p as [|c p]; [done|]. cbn [deref head tail mbind option_bind].
  destruct (Z.eqb_spec c 38) as [->|]; [|done]. intros _. cbn [negb Z.eqb].
  destruct (ndstr_nstr_ansi p 59 15) as [[r buf]|] eqn:Er; [|done]. cbn [mbind option_bind].
  unfold ndstr_nstr_ansi in Er. apply bind_Some in Er as ([r' ?]&Er&?). simplify_eq.
  apply nstr_ansi_len in Er. destruct r as [|e r]; [done|]. cbn [deref head tail mbind option_bind length] in *.
  intros E. destruct (negb (e =? 59)).
  { apply bind_Some in E as (?&_&E). simplify_eq. simpl. lia. }
  do 5 (apply bind_Some in E as (?&_&E);
    match type of E with context [if ?b then _ else _] => destruct b end;
    [apply bind_Some in E as (?&_&E); simplify_eq; simpl; lia|]).
  simplify_eq. simpl. lia.
Qed.

Lemma parse_word_len code fuel : forall p out q o, parse_word_loop fuel code p out = Some (q, o) ->
  (length q <= length p)%nat.
Proof.
  induction fuel as [|fuel IH]; intros p out q o; cbn [parse_word_loop]; intros E;
    apply bind_Some in E as (c&D&E); (destruct (c =? 0); [simplify_eq; lia|]); [done|].
  destruct (_ || _); [apply IH in E; destruct p; simpl in *; lia|]. destruct (_ && _); [|simplify_eq; lia].
  apply bind_Some in E as ([[p1 w1] ret]&R&E). apply IH in E. unfold _read_word in R.
  apply bind_Some in R as (c1&_&R). rewrite copy_bytes_out in R.
  destruct (copy_bytes _ p []) as [[p2 w2]|] eqn:Ec; [|done]. apply copy_bytes_len in Ec. simplify_eq/=. lia.
Qed.

Section Progress.
Context `{!Malloc} (code : Z) (buf0 : mem).

Lemma attrval_len fuel : forall p m o size q m' o',
  attrval_loop code fuel p m o size = Some (Some (q, m', o')) -> (length q <= length p)%nat.
Proof.
  induction fuel as [|fuel IH]; intros p m o size q m' o'; cbn [attrval_loop]; intros E;
    apply bind_Some in E as (c&D&E); (destruct (_ && _); [|simplify_eq; lia]); [done|].
  destruct (c =? _ND_QUOT); [simplify_eq; destruct p; simpl; lia|].
  apply bind_Some in E as (e&He&E). destruct e.
  - apply bind_Some in E as ([p1 m1]&R&E). apply replace_text_len in R; [|done]. apply IH in E. lia.
  - apply bind_Some in E as ([[p1 m1] ret]&R&E). destruct (size <? ret); [done|]. apply IH in E.
    apply (read_char_to_any code _ _ _ _ _ _ [] 0) in R as (?&?&_). unfold zlen in *. lia.
Qed.

Lemma skip_to_quote_len p q : skip_to_quote p = Some (Some q) -> (length q <= length p)%nat.
Proof.
  induction p as [|c p IH]; simpl; [done|]. intros E. repeat bcase_in E; simplify_eq; try done; simpl.
  apply IH in E. lia.
Qed.

Lemma read_attrval_len p m size q m' : _xml_read_attrval code p m size = Some (Some (q, m')) ->
  (length q <= length p)%nat.
Proof.
  unfold _xml_read_attrval. intros E. apply bind_Some in E as ([r|]&Hs&E); [|done].
  apply bind_Some in E as ([[[p1 m1] o1]|]&Ha&E); [|done]. apply bind_Some in E as (?&_&E). simplify_eq.
  apply skip_to_quote_len in Hs. apply attrval_len in Ha. destruct r; simpl in *; lia.
Qed.

Lemma value_loop_len fuel : forall p m o q m' o',
  value_loop code fuel p m o = Some (q, m', o') -> (length q <= length p)%nat.
Proof.
  induction fuel as [|fuel IH]; intros p m o q m' o'; cbn [value_loop]; intros E;
    apply bind_Some in E as (c&D&E); (destruct (c =? 0); [simplify_eq; lia|]); [done|].
  apply bind_Some in E as (e&He&E). destruct e.
  - apply bind_Some in E as ([p1 m1]&R&E). apply replace_text_len in R; [|done]. apply IH in E. lia.
  - apply bind_Some in E as (s&_&E). destruct s; [simplify_eq; lia|].
    apply bind_Some in E as ([[p1 m1] ret]&R&E). apply IH in E.
    apply (read_char_to_any code _ _ _ _ _ _ [] 0) in R as (?&?&_). unfold zlen in *. lia.
Qed.

Lemma marked_len fuel : forall xmlbuf p size e q e',
  parse_marked_loop fuel xmlbuf p size e = Some (At q, e') -> (length q <= length p)%nat /\ deref q = Some 60.
Proof.
  induction fuel as [|fuel IH]; intros xmlbuf p size e q e'; cbn [parse_marked_loop]; intros E;
    (destruct (_ <? _); [|done]); [done|].
  apply bind_Some in E as ([r|]&Hr&E); [|done]. apply first_valid_len in Hr as [? _].
  apply bind_Some in E as (c&Hc&E). destruct (Z.eqb_spec c 60) as [->|]; [|done]. cbn [negb] in E.
  destruct (_ <=? _); [done|]. apply bind_Some in E as (c1&Hc1&E). destruct (c1 =? 63).
  - apply bind_Some in E as ([s|]&Hs&E); [|done]. destruct (_ <=? _); [done|].
    apply strstr_len in Hs. apply IH in E. rewrite !length_drop in *. destruct E. split; [lia|done].
  - destruct (c1 =? 33); [|simplify_eq; split; [lia|done]].
    apply bind_Some in E as (c2&Hc2&E). apply bind_Some in E as (d&Hd&E). destruct d; [|done].
    apply bind_Some in E as ([s|]&Hs&E); [|done]. destruct (_ <=? _); [done|].
    apply strstr_len in Hs. apply IH in E. rewrite !length_drop in *. destruct E. split; [lia|done].
Qed.

(** The head of a node: past its name, at a closing tag, or an error. *)
Lemma read_head_len xmlbuf size st h st' : read_head code xmlbuf size st = Some (h, st') ->
  match h with
  | HeadName paddr _ => (length paddr < length xmlbuf)%nat /\ parse_end st' = parse_end st
  | HeadFail => forall q, parse_end st' = At q -> (length q <= length xmlbuf)%nat /\ _is_mark_start q = Some true
  end.
Proof.
  unfold read_head. intros E. apply bind_Some in E as ([p e]&Hp&E).
  destruct p as [| |p]; [apply bind_Some in E as (?&_&E); by simplify_eq/=..|]. apply marked_len in Hp as [? Hd].
  apply bind_Some in E as (s&Hs&E). destruct s; [simplify_eq/=; by intros q [= <-]|].
  apply bind_Some in E as ([q|]&Hq&E); [|by simplify_eq].
  apply first_valid_len in Hq as [? _]. apply bind_Some in E as (c&_&E).
  destruct (_ || _); [by simplify_eq|]. destruct alloc_xml; [|by simplify_eq].
  apply bind_Some in E as ([ret nm]&_&E). destruct (ret <=? 0); [by simplify_eq|].
  simplify_eq. rewrite length_drop. destruct p; [done|]. simpl in *. split; [lia|done].
Qed.

Lemma read_attrs_len fuel : forall paddr attrs st r st', read_attrs code buf0 fuel paddr attrs st = Some (r, st') ->
  match r with
  | HeadClosed q _ => (length q <= length paddr)%nat
  | NodeClosed q _ => (length q <= length paddr)%nat /\ parse_end st' = At q
  | AttrError => parse_end st' = parse_end st \/ parse_end st' = Null
  end.
Proof.
  induction fuel as [|fuel IH]; intros paddr attrs st r st'; cbn [read_attrs]; intros E;
    apply bind_Some in E as (c&_&E); (destruct (c =? 0); [simplify_eq; lia|]); [done|].
  apply bind_Some in E as ([p|]&Hp&E); [|done]. apply first_valid_len in Hp as [? _].
  cbn [mbind option_bind] in E. apply bind_Some in E as (e&_&E). destruct e.
  { simplify_eq. simpl. rewrite length_drop. split; [lia|done]. }
  apply bind_Some in E as (c1&_&E). destruct (c1 =? 62); [simplify_eq; destruct p; simpl in *; lia|].
  apply bind_Some in E as ([ret nm]&_&E). destruct (ret <=? 0); [simplify_eq; by right|].
  apply bind_Some in E as ([q|]&Hq&E); [|simplify_eq; by right].
  apply strchr_len in Hq as [? _]. rewrite length_drop in *.
  apply bind_Some in E as ([[p2 buf]|]&Hv&E); [|simplify_eq; by left].
  apply read_attrval_len in Hv. apply bind_Some in E as (a&_&E). apply IH in E.
  destruct r; simpl in *; [lia|destruct E; split; [lia|done]|done].
Qed.

Lemma read_end_len paddr x st r st' : read_end code paddr x st = Some (r, st') ->
  match r with
  | Some _ => forall q, parse_end st' = At q -> (length q < length paddr)%nat
  | None => parse_end st' = Null
  end.
Proof.
  unfold read_end. intros E. apply bind_Some in E as (s&Hs&E). destruct s; [|by simplify_eq/=].
  cbn [negb] in E. apply bind_Some in E as ([p|]&Hp&E); [|done]. cbn [mbind option_bind] in E.
  apply bind_Some in E as ([q nm]&Hw&E). destruct (_ <? _); [done|]. apply bind_Some in E as (c&_&E).
  destruct (negb _); [by simplify_eq|]. apply bind_Some in E as (p1&->&E).
  apply bind_Some in E as (g&Hg&E). simplify_eq. intros q'. destruct g as [g|]; [|done]. intros [= <-].
  apply first_valid_len in Hp as [Hp _]. apply strchr_len in Hg as [Hg Hd].
  unfold ndstr_parse_word in Hw. apply bind_Some in Hw as ([q0 o0]&Hw&Hr). apply parse_word_len in Hw.
  apply bind_Some in Hr as (r0&Hr&E). simplify_eq. unfold rest_or_null in Hr.
  apply bind_Some in Hr as (c0&_&Hr). destruct (c0 =? 0); [done|]. simplify_eq.
  rewrite length_drop in Hp. destruct g; [done|]. simpl in *. lia.
Qed.

Lemma read_value_len paddr name attrs st r st' : read_value code paddr name attrs st = Some (r, st') ->
  match r with
  | Some _ => forall q, parse_end st' = At q -> (length q < length paddr)%nat
  | None => parse_end st' = Null
  end.
Proof.
  unfold read_value. intros E. apply bind_Some in E as (n0&_&E). destruct (malloc _); [|by simplify_eq].
  apply bind_Some in E as ([p v]&Hv&E). apply read_end_len in E. unfold _xml_read_value in Hv.
  apply bind_Some in Hv as ([[p1 m1] o1]&Hv&E1). apply bind_Some in E1 as (m2&_&E1). simplify_eq.
  apply value_loop_len in Hv. destruct r; [|done]. intros q0 Hq. apply E in Hq. lia.
Qed.

(** What a call hands back: after a node, a place further on; after a closing
    tag, that tag; or an error. *)
Definition moves_on (n : nat) (st : out_args) (r : option ndxml) (st' : out_args) : Prop :=
  match r with
  | Some _ => forall q, parse_end st' = At q -> (length q < n)%nat
  | None => forall q, parse_end st' = At q ->
      parse_end st = At q \/ (length q <= n)%nat /\ _is_mark_start q = Some true
  end.
Definition moves_past (n : nat) (r : option ndxml) (st' : out_args) : Prop :=
  match r with
  | Some _ => forall q, parse_end st' = At q -> (length q < n)%nat
  | None => parse_end st' = Null
  end.

Lemma moves_past_le n n' r st : moves_past n r st -> (n <= n')%nat -> moves_past n' r st.
Proof. destruct r; [|done]. intros Hp Hn q Hq. apply Hp in Hq. lia. Qed.

Lemma parse_moves_on fuel : (forall xmlbuf size st r st',
    parse_xmlbuf code buf0 fuel xmlbuf size st = Some (r, st') -> moves_on (length xmlbuf) st r st') /\
  (forall xmlbuf paddr size name attrs subs st r st',
    parse_subs code buf0 fuel xmlbuf paddr size name attrs subs st = Some (r, st') ->
    moves_past (length paddr) r st').
Proof.
  induction fuel as [|fuel [IHp IHs]]; [done|]. split.
  - intros xmlbuf size st r st' E. rewrite parse_xmlbuf_S in E; unfold parse_node in E. apply bind_Some in E as ([h st1]&Hh&E).
    apply read_head_len in Hh. destruct h as [|paddr name]; [simplify_eq; intros q Hq; right; by apply Hh|].
    destruct Hh as [Hl Es]. apply bind_Some in E as ([a st2]&Ha&E).
    apply read_attrs_len in Ha. destruct a as [p attrs|p attrs|].
    + apply bind_Some in E as ([p1|]&Hp&E); [|done]. apply first_valid_len in Hp as [Hp _].
      cbn [mbind option_bind] in E. apply bind_Some in E as (s&Hs&E).
      assert (moves_past (length p1) r st') as K.
      { destruct s; [by apply read_end_len in E|]. apply bind_Some in E as (c&_&E).
        destruct (c =? 60); [by apply IHs in E|by apply read_value_len in E]. }
      destruct r; intros q Hq; simpl in K; [apply K in Hq; lia|congruence].
    + simplify_eq. intros q Hq. destruct Ha as [? Ha]. rewrite Ha in Hq. simplify_eq. lia.
    + simplify_eq. intros q Hq. destruct Ha as [Ha|Ha]; rewrite Ha in Hq; [left; congruence|done].
  - intros xmlbuf paddr size name attrs subs st r st' E. rewrite parse_subs_S in E; unfold parse_sub in E.
    apply bind_Some in E as (c&Hc&E). destruct (c =? 0); [by apply read_end_len in E|].
    apply bind_Some in E as ([r1 o1]&H1&E). apply bind_Some in E as (fl&Hf&E).
    destruct fl; [by simplify_eq|]. apply bind_Some in E as (p&Hp&E).
    apply bind_Some in E as ([p1|]&Hv&E); [|done]. cbn [mbind option_bind] in E.
    apply bind_Some in E as (s&Hs&E). destruct (parse_end o1) as [| |p0] eqn:Ho; [done..|]. injection Hp as ->.
    apply IHp in H1. apply first_valid_len in Hv as [Hv _].
    assert (length p <= length paddr)%nat as Hle.
    { destruct r1; simpl in H1; apply H1 in Ho; [lia|]. destruct Ho as [|[? _]]; [done|lia]. }
    eapply moves_past_le; [|exact (Nat.le_trans _ _ _ Hv Hle)].
    destruct s; [by apply read_end_len in E|by apply IHs in E].
Qed.

End Progress.

(** ** Termination

    What a loop gives when its fuel is used up is of no consequence from a
    bound on: no loop of the parser uses up its fuel. *)

Lemma mark_start_valid p : _is_mark_start p = Some true -> ndstr_first_valid p = Some (Some p).
Proof.
  unfold _is_mark_start. destruct p as [|c p]; [done|]. cbn [deref head mbind option_bind].
  destruct (Z.eqb_spec c 60) as [->|]; [|done]. done.
Qed.

Lemma word_shorter code p out q o n : _read_word code p out = Some (q, o, n) -> (length q < length p)%nat.
Proof.
  unfold _read_word. intros E. apply bind_Some in E as (c&_&E). rewrite copy_bytes_out in E.
  destruct (copy_bytes _ p []) as [[p2 w2]|] eqn:Ec; [|done]. apply copy_bytes_len in Ec.
  pose proof (word_len_pos code c). simplify_eq/=. lia.
Qed.

Lemma char_shorter code p m o q m' n : read_char_to code p m o = Some (q, m', n) -> (length q < length p)%nat.
Proof. intros R. apply (read_char_to_any code _ _ _ _ _ _ [] 0) in R as (?&?&_). unfold zlen in *. lia. Qed.

(** Two runs of a loop on the text [p], each with fuel for it. *)
Ltac both_fuels :=
  match goal with
  | |- forall f2 p, _ => intros [|f2] [|a p]; intros; simpl in *; try lia; try done
  end;
  cbn [deref head tail mbind option_bind].

Section Fuel.
Context (sp : Spent).

Lemma word_fuel code f1 : forall f2 p out, (length p <= f1)%nat -> (length p <= f2)%nat ->
  parse_word_loop (sp := sp) f1 code p out = parse_word_loop (sp := spent_none) f2 code p out.
Proof.
  induction f1 as [|f1 IH]; both_fuels. destruct (a =? 0); [done|].
  destruct (_ || _); [apply IH; lia|]. destruct (_ && _); [|done].
  destruct (_read_word _ _ _) as [[[q w] n]|] eqn:E; [|done]. apply word_shorter in E. apply IH; simpl in *; lia.
Qed.

Lemma variant_fuel code f1 : forall f2 p out n b, (length p <= f1)%nat -> (length p <= f2)%nat ->
  parse_variant_n_loop (sp := sp) f1 code p out n b = parse_variant_n_loop (sp := spent_none) f2 code p out n b.
Proof.
  induction f1 as [|f1 IH]; both_fuels. destruct (a =? 0); [done|]. destruct (_ <? _); [|done].
  destruct (_ && _).
  - destruct (_read_word _ _ _) as [[[q w] k]|] eqn:E; [|done]. apply word_shorter in E. apply IH; simpl in *; lia.
  - destruct (_ || _); [apply IH; lia|done].
Qed.

Lemma attrval_fuel code f1 : forall f2 p m o size, (length p <= f1)%nat -> (length p <= f2)%nat ->
  attrval_loop (sp := sp) code f1 p m o size = attrval_loop (sp := spent_none) code f2 p m o size.
Proof.
  induction f1 as [|f1 IH]; both_fuels. destruct (_ && _); [|done]. destruct (a =? _ND_QUOT); [done|].
  destruct (is_entity _) as [[]|] eqn:He; [| |done]; cbn [mbind option_bind].
  - destruct (_read_replace_text _ _ _) as [[q m']|] eqn:E; [|done]. apply replace_text_len in E; [|done].
    apply IH; simpl in *; lia.
  - destruct (read_char_to _ _ _ _) as [[[q m'] n]|] eqn:E; [|done]. apply char_shorter in E.
    cbn [mbind option_bind]. destruct (_ <? _); [done|]. apply IH; simpl in *; lia.
Qed.

Lemma value_fuel code f1 : forall f2 p m o, (length p <= f1)%nat -> (length p <= f2)%nat ->
  value_loop (sp := sp) code f1 p m o = value_loop (sp := spent_none) code f2 p m o.
Proof.
  induction f1 as [|f1 IH]; both_fuels. destruct (a =? 0); [done|].
  destruct (is_entity _) as [[]|] eqn:He; [| |done]; cbn [mbind option_bind].
  - destruct (_read_replace_text _ _ _) as [[q m']|] eqn:E; [|done]. apply replace_text_len in E; [|done].
    apply IH; simpl in *; lia.
  - destruct (_is_mark_start _) as [[]|]; [done| |done]. cbn [mbind option_bind].
    destruct (read_char_to _ _ _ _) as [[[q m'] n]|] eqn:E; [|done]. apply char_shorter in E.
    apply IH; simpl in *; lia.
Qed.

Lemma value_size_fuel code f1 : forall f2 p n, (length p <= f1)%nat -> (length p <= f2)%nat ->
  value_size_loop (sp := sp) code f1 p n = value_size_loop (sp := spent_none) code f2 p n.
Proof.
  induction f1 as [|f1 IH]; both_fuels. destruct (a =? 0); [done|].
  destruct (is_entity _) as [[]|] eqn:He; [| |done]; cbn [mbind option_bind].
  - destruct (_read_replace_text _ _ _) as [[q m']|] eqn:E; [|done]. apply replace_text_len in E; [|done].
    apply IH; simpl in *; lia.
  - destruct (_is_mark_start _) as [[]|]; [done| |done]. cbn [mbind option_bind].
    destruct (read_char_to _ _ _ _) as [[[q m'] k]|] eqn:E; [|done]. apply char_shorter in E.
    apply IH; simpl in *; lia.
Qed.

Lemma marked_fuel f1 : forall f2 base p size e, (length p < f1)%nat -> (length p < f2)%nat ->
  parse_marked_loop (sp := sp) f1 base p size e = parse_marked_loop (sp := spent_none) f2 base p size e.
Proof.
  induction f1 as [|f1 IH]; intros [|f2] base p size e H1 H2; [lia..|]. cbn [parse_marked_loop].
  destruct (_ <? _); [|done]. destruct (ndstr_first_valid p) as [[q|]|] eqn:Hp; [|done..].
  apply first_valid_len in Hp as [Hp _]. cbn [mbind option_bind].
  destruct (deref q) as [c|] eqn:Hq; [|done]. cbn [mbind option_bind].
  assert (0 < length q)%nat by (destruct q; [done|simpl; lia]).
  destruct (negb _); [done|]. destruct (_ <=? _); [done|].
  destruct (deref (tail q)); [|done]. cbn [mbind option_bind]. destruct (_ =? 63).
  - destruct (strstr _ _) as [[s|]|] eqn:Hs; [|done..]. cbn [mbind option_bind]. apply strstr_len in Hs.
    destruct (_ <=? _); [done|]. rewrite length_drop in Hs. apply IH; rewrite length_drop; lia.
  - destruct (_ =? 33); [|done]. destruct (deref (drop 2 q)); [|done]. cbn [mbind option_bind].
    destruct (if _ =? 45 then _ else _) as [[]|]; [|done..]. cbn [mbind option_bind].
    destruct (strstr _ _) as [[s|]|] eqn:Hs; [|done..]. cbn [mbind option_bind]. apply strstr_len in Hs.
    destruct (_ <=? _); [done|]. rewrite length_drop in Hs. apply IH; rewrite length_drop; lia.
Qed.

Context `{!Malloc} (code : Z) (buf0 : mem).

Lemma read_name_fuel p : read_name (sp := sp) code p = read_name (sp := spent_none) code p.
Proof. unfold read_name, ndstr_parse_variant_n. by rewrite (variant_fuel code (length p) (length p)) by lia. Qed.

Lemma read_head_fuel xmlbuf size st :
  read_head (sp := sp) code xmlbuf size st = read_head (sp := spent_none) code xmlbuf size st.
Proof.
  unfold read_head, parse_marked. rewrite (marked_fuel _ (S (length xmlbuf))) by lia.
  destruct (parse_marked_loop _ _ _ _ _) as [[[| |p] e]|]; [done..| |done]. cbn [mbind option_bind].
  destruct (_is_mark_start p) as [[]|]; [done| |done]. cbn [mbind option_bind].
  destruct (ndstr_first_valid _) as [[q|]|]; [|done..]. cbn [mbind option_bind]. by rewrite read_name_fuel.
Qed.

Lemma read_end_fuel p x st : read_end (sp := sp) code p x st = read_end (sp := spent_none) code p x st.
Proof.
  unfold read_end. destruct (_is_mark_start p) as [[]|]; [|done..]. cbn [mbind option_bind negb].
  destruct (ndstr_first_valid _) as [[q|]|]; [|done..]. cbn [mbind option_bind]. unfold ndstr_parse_word.
  by rewrite (word_fuel code _ (length q)) by lia.
Qed.

Lemma read_value_fuel p name attrs st :
  read_value (sp := sp) code p name attrs st = read_value (sp := spent_none) code p name attrs st.
Proof.
  unfold read_value, _xml_get_value_size, _xml_read_value. rewrite (value_size_fuel code _ (length p)) by lia.
  destruct (value_size_loop _ _ _ _) as [n|]; [|done]. cbn [mbind option_bind].
  destruct (malloc _) as [blk|]; [|done]. rewrite (value_fuel code _ (length p)) by lia.
  destruct (value_loop _ _ _ _ _) as [[[q m] o]|]; [|done]. cbn [mbind option_bind].
  destruct (mset _ _ _); [|done]. cbn [mbind option_bind]. apply read_end_fuel.
Qed.

Lemma read_attrval_fuel p m size :
  _xml_read_attrval (sp := sp) code p m size = _xml_read_attrval (sp := spent_none) code p m size.
Proof.
  unfold _xml_read_attrval. destruct (skip_to_quote p) as [[q|]|]; [|done..]. cbn [mbind option_bind].
  by rewrite (attrval_fuel code _ (length q)) by (destruct q; simpl; lia).
Qed.

Lemma read_attrs_fuel f1 : forall f2 p attrs st, (length p <= f1)%nat -> (length p <= f2)%nat ->
  read_attrs (sp := sp) code buf0 f1 p attrs st = read_attrs (sp := spent_none) code buf0 f2 p attrs st.
Proof.
  induction f1 as [|f1 IH]; intros [|f2] [|a p] attrs st H1 H2; try done; [simpl in *; lia..|].
  cbn [read_attrs deref head mbind option_bind]. destruct (a =? 0); [done|].
  destruct (ndstr_first_valid _) as [[q|]|] eqn:Hp; [|done..].
  apply first_valid_len in Hp as (Hp&c&Hc&_). assert (0 < length q)%nat by (destruct q; [done|simpl; lia]).
  cbn [mbind option_bind]. destruct (_is_mark_end q) as [[]|]; [done| |done]. cbn [mbind option_bind].
  rewrite Hc. cbn [mbind option_bind]. destruct (c =? 62); [done|]. rewrite read_name_fuel.
  destruct (read_name _ _) as [[ret nm]|]; [|done]. cbn [mbind option_bind].
  destruct (Z.leb_spec ret 0); [done|]. destruct (strchr _ _) as [[q1|]|] eqn:Hq; [|done..].
  apply strchr_len in Hq as [Hq _]. rewrite length_drop in Hq. cbn [mbind option_bind].
  rewrite read_attrval_fuel. destruct (_xml_read_attrval _ _ _ _) as [[[q2 b]|]|] eqn:Hv; [|done..].
  apply read_attrval_len in Hv. cbn [mbind option_bind].
  destruct (alloc_attrib_node _ _) as [r|]; [|done]. cbn [mbind option_bind]. apply IH; simpl in *; lia.
Qed.

(** The recursion descends: a call on a child, or on the rest, has a shorter
    text, or the same at the next level. *)
Lemma parse_fuel f1 : (forall f2 xmlbuf size st,
    (2 * length xmlbuf + 1 <= f1)%nat -> (2 * length xmlbuf + 1 <= f2)%nat ->
    parse_xmlbuf (sp := sp) code buf0 f1 xmlbuf size st =
    parse_xmlbuf (sp := spent_none) code buf0 f2 xmlbuf size st) /\
  (forall f2 xmlbuf paddr size name attrs subs st,
    (2 * length paddr + 2 <= f1)%nat -> (2 * length paddr + 2 <= f2)%nat ->
    parse_subs (sp := sp) code buf0 f1 xmlbuf paddr size name attrs subs st =
    parse_subs (sp := spent_none) code buf0 f2 xmlbuf paddr size name attrs subs st).
Proof.
  induction f1 as [|f1 [IHp IHs]]; [split; intros; lia|].
  split; (intros [|f2]; [intros; lia|]).
  - intros xmlbuf size st Hf1 Hf2. rewrite !parse_xmlbuf_S. unfold parse_node. rewrite read_head_fuel.
    destruct (read_head code xmlbuf size st) as [[h st1]|] eqn:Hh; [|done]. cbn [mbind option_bind].
    destruct h as [|paddr name]; [done|]. apply read_head_len in Hh as [? _].
    rewrite (read_attrs_fuel _ (length paddr)) by lia.
    destruct (read_attrs _ _ _ _ _ _) as [[a st2]|] eqn:Ha; [|done]. cbn [mbind option_bind].
    apply read_attrs_len in Ha. destruct a as [p attrs| |]; [|done..].
    destruct (ndstr_first_valid p) as [[p1|]|] eqn:Hp; [|done..]. apply first_valid_len in Hp as [? _].
    cbn [mbind option_bind]. destruct (_is_mark_start p1) as [[]|]; [apply read_end_fuel| |done].
    cbn [mbind option_bind]. destruct (deref p1) as [c|]; [|done]. cbn [mbind option_bind].
    destruct (c =? 60); [apply IHs; lia|apply read_value_fuel].
  - intros xmlbuf paddr size name attrs subs st Hf1 Hf2. rewrite !parse_subs_S. unfold parse_sub.
    destruct (deref paddr) as [c|]; [|done]. cbn [mbind option_bind].
    destruct (c =? 0); [apply read_end_fuel|]. rewrite (IHp f2) by lia.
    destruct (parse_xmlbuf _ _ f2 _ _ _) as [[r o]|] eqn:E; [|done]. cbn [mbind option_bind].
    apply (proj1 (parse_moves_on _ _ f2)) in E.
    destruct (sub_failed r o) as [fl|]; [|done]. cbn [mbind option_bind].
    destruct fl; [done|]. destruct (parse_end o) as [| |p] eqn:Ho; [done..|]. cbn [at_ mbind option_bind].
    destruct (ndstr_first_valid p) as [[p1|]|] eqn:Hv; [|done..]. cbn [mbind option_bind].
    destruct (_is_mark_start p1) as [[]|] eqn:Hs; [apply read_end_fuel| |done]. cbn [mbind option_bind].
    apply first_valid_len in Hv as Hv'. destruct Hv' as [Hv' _].
    destruct r; simpl in E; apply E in Ho; [apply IHs; lia|]. destruct Ho as [|[_ Hm]]; [done|].
    rewrite (mark_start_valid p Hm) in Hv. simplify_eq.
Qed.
End Fuel.

(** Fuel that is used up shows: an error is handed up to the first call. *)
Example no_fuel_shows :
  let run (sp : Spent) fuel := option_map fst
    (parse_xmlbuf (sp := sp) 2 (zrepeat 1 4096) fuel (lit "<a><b><c/></b></a>") 18 (Out Wild Wild)) in
  map (fun fuel => (run spent_some fuel, run spent_none fuel)) [0; 1; 2; 3; 4]%nat = repeat (Some None, None) 5 /\
  run spent_some 39%nat =
    Some (Some (Ndxml [97] None 0 [] [Ndxml [98] None 0 [] [Ndxml [99] None 0 [] []]])).
Proof. vm_compute. repeat split. Qed.

(** C34: the parser ends on any text: whatever its loops and its recursion
    ([parse_xmlbuf], the children, the attributes, values, names, comments)
    would give when their fuel is used up ([sp]), fuel twice the length of the
    text makes the result that of [spent_none], so that none of them uses it up:
    where there is no result, the code has dereferenced or stored where it must
    not.  A node that is returned ends strictly behind its start. *)
Theorem xml_parse_terminates `{!Malloc} (sp : Spent) code buf0 fuel xmlbuf size st :
  (2 * length xmlbuf + 1 <= fuel)%nat ->
  parse_xmlbuf (sp := sp) code buf0 fuel xmlbuf size st =
    parse_xmlbuf (sp := spent_none) code buf0 (2 * length xmlbuf + 1) xmlbuf size st /\
  (forall x o q, parse_xmlbuf (sp := sp) code buf0 fuel xmlbuf size st = Some (Some x, o) ->
    parse_end o = At q -> (length q < length xmlbuf)%nat).
Proof.
  intros Hf. rewrite (proj1 (parse_fuel sp code buf0 fuel) (2 * length xmlbuf + 1)%nat) by lia.
  split; [done|]. intros x o q E. apply parse_moves_on in E. apply E.
Qed.

Lemma xml_parse_terminates_witness :
  parse_xmlbuf (sp := spent_some) 2 (zrepeat 1 4096) 100 (lit "<a><b/></a>") 11 (Out Wild Wild) =
    parse_xmlbuf (sp := spent_none) 2 (zrepeat 1 4096) 25 (lit "<a><b/></a>") 11 (Out Wild Wild) /\
  (forall x o q, parse_xmlbuf (sp := spent_some) 2 (zrepeat 1 4096) 100 (lit "<a><b/></a>") 11 (Out Wild Wild) =
      Some (Some x, o) -> parse_end o = At q -> (length q < 12)%nat).
Proof.
  apply (xml_parse_terminates spent_some 2 (zrepeat 1 4096) 100 (lit "<a><b/></a>") 11 (Out Wild Wild)).
  vm_compute. lia.
Defined.
