(* ===== verification/XmlWrite.v ===== *)
(** * XmlWrite: the writers of nd_xml.c

    [xml_tobuf] and [ndxml_to_buf] (l.1710-1806) print a node into a buffer with
    [snprintf], [xml_write] (l.1660-1708) into a file, which is the list of the
    bytes written so far.  The local [char textBuf[4096]] of the writers is the
    parameter [textBuf]: what it holds before it is written does not matter. *)

From S2P Require Import Prelude Bytes Str XmlText XmlParse.
From Stdlib Require Import Strings.String Lists.List.

(** [snprintf(m + o, size, "%s", s)]: the length of [s] is returned also when
    it does not fit. *)
Definition snprintf (m : mem) (o size : Z) (s : list Z) : option (mem * Z) :=
  m ← (if size =? 0 then Some m else mwrite m o (slice 0 (size - 1) s ++ [0]));
  Some (m, zlen s).

Section Writers.
Context (code : Z) (textBuf : mem).

(** [_out_replace_text(s, textBuf, sizeof(textBuf))] *)
Definition replaced (s : list Z) : option (list Z) :=
  m ← mset textBuf 0 0;
  m ← _out_replace_text code (s ++ [0]) m 4096; Some (until_nul m).

(** What is printed for an attribute. *)
Definition attr_text (a : ndxml_attr) : option (list Z) :=
  match attr_val a with
  | [] => Some (chars " " ++ attr_name a ++ chars "=" ++ [_ND_QUOT; _ND_QUOT])
  | v => r ← replaced v; Some (chars " " ++ attr_name a ++ chars "=" ++ [_ND_QUOT] ++ r ++ [_ND_QUOT])
  end.

(** [xmlnode->value && xmlnode->value[0]] *)
Definition value_text (value : option mem) : list Z :=
  match value with Some v => until_nul v | None => [] end.

(** [len = ndsnprintf(p, size, ...); p += len; size -= len;] *)
Definition emit (s : list Z) (st : mem * Z * Z) : option (mem * Z * Z) :=
  let '(m, o, size) := st in
  '(m, len) ← snprintf m o size s; Some (m, o + len, u64 (size - len)).

Fixpoint emit_attrs (attrs : list ndxml_attr) (st : mem * Z * Z) : option (mem * Z * Z) :=
  match attrs with
  | [] => Some st
  | a :: attrs => s ← attr_text a; st ← emit s st; emit_attrs attrs st
  end.

(** [p] is the offset of the block [m]; the result is the block and [p - buf]. *)
Fixpoint xml_tobuf (x : ndxml) (m : mem) (buf size : Z) {struct x} : option (mem * Z) :=
  let '(Ndxml name value _ attrs subs) := x in
  st ← emit (chars "<" ++ name) (m, buf, size);
  st ← emit_attrs attrs st;
  '(m, p, size) ←
    (match value_text value with
     | v :: vs =>
         r ← replaced (v :: vs);
         emit (chars ">" ++ r ++ chars "</" ++ name ++ chars "> ") st
     | [] =>
         match subs with
         | _ :: _ =>
             st ← emit (chars "> ") st;
             st ← (fix tobuf_subs l (st : mem * Z * Z) :=
                     match l with
                     | [] => Some st
                     | y :: l =>
                         let '(m, p, size) := st in
                         '(m, len) ← xml_tobuf y m p size;
                         tobuf_subs l (m, p + len, u64 (size - len))
                     end) subs st;
             emit (chars "</" ++ name ++ chars "> ") st
         | [] => emit (chars "/> ") st
         end
     end);
  Some (m, s32 (p - buf)).

Fixpoint tobuf_list (l : list ndxml) (st : mem * Z * Z) : option (mem * Z * Z) :=
  match l with
  | [] => Some st
  | y :: l =>
      let '(m, p, size) := st in
      '(m, len) ← xml_tobuf y m p size;
      tobuf_list l (m, p + len, u64 (size - len))
  end.

(** A node without a name stands for the list of its children. *)
Definition ndxml_to_buf (root : ndxml) (m : mem) (buf size : Z) : option (mem * Z) :=
  match xname root with
  | _ :: _ => xml_tobuf root m buf size
  | [] => '(m, p, _) ← tobuf_list (xsubs root) (m, buf, size); Some (m, p - buf)
  end.

Definition indent (deep : nat) : list Z := repeat 9 deep.

Fixpoint write_attrs (attrs : list ndxml_attr) (fp : list Z) : option (list Z) :=
  match attrs with
  | [] => Some fp
  | a :: attrs => s ← attr_text a; write_attrs attrs (fp ++ s)
  end.

Fixpoint xml_write (x : ndxml) (fp : list Z) (deep : nat) {struct x} : option (list Z) :=
  let '(Ndxml name value _ attrs subs) := x in
  let fp := fp ++ indent deep ++ chars "<" ++ name in
  fp ← write_attrs attrs fp;
  match value_text value with
  | v :: vs =>
      r ← replaced (v :: vs);
      Some (fp ++ chars ">" ++ r ++ chars "</" ++ name ++ chars ">" ++ [10])
  | [] =>
      match subs with
      | _ :: _ =>
          fp ← (fix write_subs l fp :=
                  match l with
                  | [] => Some fp
                  | y :: l => fp ← xml_write y fp (S deep); write_subs l fp
                  end) subs (fp ++ chars ">" ++ [10]);
          Some (fp ++ indent deep ++ chars "</" ++ name ++ chars ">" ++ [10])
      | [] => Some (fp ++ chars "/>" ++ [10])
      end
  end.

Fixpoint write_list (l : list ndxml) (fp : list Z) (deep : nat) : option (list Z) :=
  match l with
  | [] => Some fp
  | y :: l => fp ← xml_write y fp deep; write_list l fp deep
  end.

(** The bytes of the file after [ndxml_save_ex] on a file that could be opened;
    the header is a string. *)
Definition ndxml_save_ex (root : ndxml) (header : list Z) : option (list Z) :=
  let fp := match header with [] => [] | _ => chars "<?xml " ++ header ++ chars " ?>" ++ [10] end in
  write_list (xsubs root) fp 0.
Definition ndxml_output (node : ndxml) (pf : list Z) : option (list Z) := xml_write node pf 0.
End Writers.

(** ** What is printed *)

(** A node as the writers see it: the name, the attributes and the value, with
    the texts split in their characters, and the children. *)
#[local] Set Warnings "-register-all".
Inductive node :=
  | Node (n_name : list Z) (n_attrs : list (list Z * list (list Z))) (n_value : list (list Z)) (n_subs : list node).

Definition shows_attr (a : ndxml_attr) (kv : list Z * list (list Z)) : Prop :=
  attr_name a = kv.1 /\ attr_val a = raw kv.2.
Inductive shows : ndxml -> node -> Prop :=
  | shows_node name value vs attrs subs attrs' value' subs' :
      value_text value = raw value' -> Forall2 shows_attr attrs attrs' -> Forall2 shows subs subs' ->
      shows (Ndxml name value vs attrs subs) (Node name attrs' value' subs').

Definition render_attr (kv : list Z * list (list Z)) : list Z :=
  chars " " ++ kv.1 ++ chars "=" ++ [_ND_QUOT] ++ escape kv.2 ++ [_ND_QUOT].

Section Render.
(** The indentation of a depth, and what follows every tag. *)
Context (ind : nat -> list Z) (sep : list Z).

Fixpoint render (deep : nat) (n : node) {struct n} : list Z :=
  let '(Node name attrs value subs) := n in
  ind deep ++ chars "<" ++ name ++ concat (map render_attr attrs) ++
  match value, subs with
  | _ :: _, _ => chars ">" ++ escape value ++ chars "</" ++ name ++ chars ">" ++ sep
  | [], _ :: _ =>
      chars ">" ++ sep ++ concat (map (render (S deep)) subs) ++
      ind deep ++ chars "</" ++ name ++ chars ">" ++ sep
  | [], [] => chars "/>" ++ sep
  end.
End Render.
(** The two layouts. *)
Abbreviation render_buf := (render (fun _ => []) [32] 0).
Abbreviation render_file := (render indent [10]).

Section Printable.
Context (code : Z).
(** The texts of a node are made of characters of the encoding and fit in
    [textBuf] when their entities are written out. *)
Definition text_fits (cs : list (list Z)) : Prop := Forall (char_ok code) cs /\ zlen (escape cs) < 4096.
Inductive printable : node -> Prop :=
  | printable_node name attrs value subs :
      Forall (fun kv => text_fits kv.2) attrs -> text_fits value -> Forall printable subs ->
      printable (Node name attrs value subs).
End Printable.

(** Induction with the hypothesis for all the children. *)
Lemma node_ind' (P : node -> Prop) :
  (forall name attrs value subs, Forall P subs -> P (Node name attrs value subs)) -> forall n, P n.
Proof.
  intros H. fix IH 1. intros [name attrs value subs]. apply H. induction subs; constructor; [apply IH|done].
Qed.

Section WriterProofs.
Context (code : Z) (textBuf : mem) (textBuf_len : zlen textBuf = 4096).

Lemma raw_nil cs : Forall (char_ok code) cs -> raw cs = [] -> cs = [].
Proof. destruct 1 as [|w cs Hw _]; [done|]. destruct w; [done|]. by intros ?. Qed.

Lemma replaced_ok cs : text_fits code cs -> replaced code textBuf (raw cs) = Some (escape cs).
Proof.
  intros [Hc Hl]. unfold replaced. destruct (mset_ex textBuf 0 0) as (m&->&Hm); [lia|]. cbn [mbind option_bind].
  destruct (out_replace_text_ok code cs [] m 4096 Hc) as (m'&->&E&_); [lia|]. cbn [mbind option_bind]. by rewrite E.
Qed.

Lemma attr_text_ok a kv : shows_attr a kv -> text_fits code kv.2 ->
  attr_text code textBuf a = Some (render_attr kv).
Proof.
  intros [Hn Hv] Hf. unfold attr_text, render_attr. rewrite Hn, Hv. destruct (raw kv.2) as [|c v] eqn:E.
  - apply raw_nil in E as ->; [done|apply Hf].
  - rewrite <- E, replaced_ok by done. done.
Qed.

Lemma emit_ok s pre blk size : zlen s < size -> size <= zlen blk + 1 -> size < 2 ^ 64 ->
  emit s (pre ++ 0 :: blk, zlen pre, size) =
  Some (pre ++ s ++ 0 :: drop (length s) blk, zlen pre + zlen s, size - zlen s).
Proof.
  intros H1 H2 H3. unfold emit, snprintf. pose proof (zlen_nonneg s).
  destruct (Z.eqb_spec size 0); [lia|].
  assert (slice 0 (size - 1) s = s) as ->.
  { unfold slice. rewrite drop_0, take_ge; [done|]. unfold zlen in *. lia. }
  rewrite mwrite_drop by (rewrite zlen_app, !zlen_cons, zlen_nil; lia). cbn [mbind option_bind].
  rewrite wrapu_small by lia. rewrite length_app, <- !app_assoc, Nat.add_1_r. done.
Qed.

(** The state of a writer that has printed [pre]. *)
Definition at_end (pre blk : list Z) (size : Z) : mem * Z * Z := (pre ++ 0 :: blk, zlen pre, size).
Definition printed (s pre blk : list Z) (size : Z) : mem * Z * Z :=
  at_end (pre ++ s) (drop (length s) blk) (size - zlen s).
Definition room (s blk : list Z) (size : Z) : Prop := zlen s < size <= zlen blk + 1 /\ size < 2 ^ 31.

Lemma xroom_app s1 s2 blk size : room (s1 ++ s2) blk size ->
  room s1 blk size /\ room s2 (drop (length s1) blk) (size - zlen s1).
Proof.
  unfold room. rewrite zlen_app. pose proof (zlen_nonneg s1). pose proof (zlen_nonneg s2). intros ?.
  rewrite zlen_drop by (unfold zlen in *; lia). unfold zlen in *. lia.
Qed.

Lemma emit_at s pre blk size : room s blk size -> emit s (at_end pre blk size) = Some (printed s pre blk size).
Proof.
  intros [? ?]. unfold at_end, printed. rewrite emit_ok by lia. unfold at_end.
  by rewrite <- app_assoc, zlen_app.
Qed.

Lemma printed_app s1 s2 pre blk size : printed s2 (pre ++ s1) (drop (length s1) blk) (size - zlen s1) = printed (s1 ++ s2) pre blk size.
Proof. unfold printed. rewrite drop_drop, length_app, zlen_app, <- (app_assoc pre). f_equal. lia. Qed.

Lemma emit_attrs_ok attrs kvs : Forall2 shows_attr attrs kvs -> Forall (fun kv => text_fits code kv.2) kvs ->
  forall pre blk size, room (concat (map render_attr kvs)) blk size ->
  emit_attrs code textBuf attrs (at_end pre blk size) = Some (printed (concat (map render_attr kvs)) pre blk size).
Proof.
  induction 1 as [|a kv attrs kvs Ha _ IH]; intros Hf pre blk size Hr; cbn [emit_attrs map concat] in *.
  - unfold printed. cbn [length drop]. rewrite zlen_nil, Z.sub_0_r, app_nil_r. done.
  - inversion_clear Hf as [|?? Hkv Hf']. apply xroom_app in Hr as [H1 H2]. rewrite (attr_text_ok a kv) by done.
    cbn [mbind option_bind]. rewrite emit_at by done. cbn [mbind option_bind]. unfold printed at 1.
    rewrite IH by done. by rewrite printed_app.
Qed.

(** The inner loop of [xml_tobuf] is [tobuf_list]. *)
Lemma xml_tobuf_eq name value vs attrs subs m buf size :
  xml_tobuf code textBuf (Ndxml name value vs attrs subs) m buf size =
  (st ← emit (chars "<" ++ name) (m, buf, size);
   st ← emit_attrs code textBuf attrs st;
   '(m, p, size) ←
    (match value_text value with
     | v :: vs => r ← replaced code textBuf (v :: vs);
         emit (chars ">" ++ r ++ chars "</" ++ name ++ chars "> ") st
     | [] =>
         match subs with
         | _ :: _ => st ← emit (chars "> ") st; st ← tobuf_list code textBuf subs st;
             emit (chars "</" ++ name ++ chars "> ") st
         | [] => emit (chars "/> ") st
         end
     end);
   Some (m, s32 (p - buf))).
Proof.
  reflexivity.
Qed.

Lemma write_list_eq name value vs attrs subs fp deep :
  xml_write code textBuf (Ndxml name value vs attrs subs) fp deep =
  (fp ← write_attrs code textBuf attrs (fp ++ indent deep ++ chars "<" ++ name);
   match value_text value with
   | v :: vs => r ← replaced code textBuf (v :: vs);
       Some (fp ++ chars ">" ++ r ++ chars "</" ++ name ++ chars ">" ++ [10])
   | [] =>
       match subs with
       | _ :: _ => fp ← write_list code textBuf subs (fp ++ chars ">" ++ [10]) (S deep);
           Some (fp ++ indent deep ++ chars "</" ++ name ++ chars ">" ++ [10])
       | [] => Some (fp ++ chars "/>" ++ [10])
       end
   end).
Proof.
  cbn [xml_write]. destruct (write_attrs _ _ attrs _) as [fp1|]; [|done]. cbn [mbind option_bind].
  destruct (value_text value); [|done]. destruct subs; [done|].
  cbn [write_list]. destruct (xml_write _ _ n _ _) as [fp2|]; [|done]. cbn [mbind option_bind].
  match goal with |- ?a ≫= _ = ?b ≫= _ => assert (a = b) as ->; [|done] end.
  revert fp2. clear. induction subs as [|y l IH]; intros fp; [done|].
  cbn [write_list]. destruct (xml_write _ _ y _ _); [|done]. apply IH.
Qed.

Lemma write_attrs_ok attrs kvs : Forall2 shows_attr attrs kvs -> Forall (fun kv => text_fits code kv.2) kvs ->
  forall fp, write_attrs code textBuf attrs fp = Some (fp ++ concat (map render_attr kvs)).
Proof.
  induction 1 as [|a kv attrs kvs Ha _ IH]; intros Hf fp; cbn [write_attrs map concat]; [by rewrite app_nil_r|].
  inversion_clear Hf as [|?? Hkv Hf']. rewrite (attr_text_ok a kv) by done. cbn [mbind option_bind].
  rewrite IH by done. by rewrite <- app_assoc.
Qed.

(** The branch of the writers is that of [render]. *)
Lemma value_cases value value' : text_fits code value' -> value_text value = raw value' ->
  value_text value = [] /\ value' = [] \/
  (exists c t, value_text value = c :: t /\ replaced code textBuf (c :: t) = Some (escape value') /\
   exists w l, value' = w :: l).
Proof.
  intros Hf E. destruct (raw value') as [|c t] eqn:Er.
  - left. split; [done|]. apply raw_nil in Er; [done|apply Hf].
  - right. exists c, t. split; [done|]. rewrite <- Er, replaced_ok by done. split; [done|].
    destruct value'; [done|eauto].
Qed.

Lemma xml_write_ok n : forall x, shows x n -> printable code n -> forall fp deep,
  xml_write code textBuf x fp deep = Some (fp ++ render_file deep n).
Proof.
  induction n as [name attrs value subs IH] using node_ind'. intros x Hx Hp fp deep.
  inversion Hx as [? v vs a s ? ? ? Hv Ha Hs]; subst. inversion_clear Hp as [? ? ? ? Fa Fv Fs].
  rewrite write_list_eq, (write_attrs_ok a attrs) by done. cbn [mbind option_bind render].
  destruct (value_cases v value Fv Hv) as [[-> ->]|(c&t&->&->&w&l&->)].
  - assert (forall fp deep, write_list code textBuf s fp deep = Some (fp ++ concat (map (render_file deep) subs))) as K.
    { clear - IH Hs Fs. induction Hs as [|x n s subs Hx Hs IHs]; intros fp deep; cbn [write_list map concat].
      - by rewrite app_nil_r.
      - inversion_clear IH as [|?? Hn IH']. inversion_clear Fs as [|?? Fn Fs'].
        rewrite (Hn x Hx Fn fp deep). cbn [mbind option_bind]. rewrite IHs by done. by rewrite <- app_assoc. }
    destruct Hs as [|y n s subs Hy Hs].
    + by rewrite <- !app_assoc.
    + rewrite K. cbn [mbind option_bind]. by rewrite <- !app_assoc.
  - cbn [mbind option_bind]. by rewrite <- !app_assoc.
Qed.

Lemma room_s32 s blk size : room s blk size -> s32 (zlen s) = zlen s /\ u64 (size - zlen s) = size - zlen s.
Proof. intros [??]. pose proof (zlen_nonneg s). split; [apply wraps_small; lia|apply wrapu_small; lia]. Qed.

(** The steps of [xml_tobuf] after [s1] has been printed, while the whole text [s]
    has room. *)
Section Steps.
Context (pre blk : list Z) (size : Z).

Lemma room_prefix s1 s2 b z : room (s1 ++ s2) b z -> room s1 b z.
Proof. intros H. apply (xroom_app s1 s2 b z H). Qed.

Lemma emit_step s1 s2 s3 : room (s1 ++ s2 ++ s3) blk size ->
  emit s2 (printed s1 pre blk size) = Some (printed (s1 ++ s2) pre blk size).
Proof.
  intros Hr. rewrite app_assoc in Hr. apply room_prefix, xroom_app in Hr as [_ Hr].
  unfold printed at 1. rewrite emit_at by done. by rewrite printed_app.
Qed.

Lemma attrs_step attrs kvs s1 s3 : Forall2 shows_attr attrs kvs -> Forall (fun kv => text_fits code kv.2) kvs ->
  room (s1 ++ concat (map render_attr kvs) ++ s3) blk size ->
  emit_attrs code textBuf attrs (printed s1 pre blk size) =
  Some (printed (s1 ++ concat (map render_attr kvs)) pre blk size).
Proof.
  intros Ha Hf Hr. rewrite app_assoc in Hr. apply room_prefix, xroom_app in Hr as [_ Hr].
  unfold printed at 1. rewrite (emit_attrs_ok attrs kvs) by done. by rewrite printed_app.
Qed.

Abbreviation render0 := (render (fun _ => []) [32]).

Lemma subs_step deep l ns : Forall2 shows l ns -> Forall (printable code) ns ->
  Forall (fun n => forall x, shows x n -> printable code n -> forall deep pre blk size,
    room (render0 deep n) blk size ->
    xml_tobuf code textBuf x (pre ++ 0 :: blk) (zlen pre) size =
    Some (pre ++ render0 deep n ++ 0 :: drop (length (render0 deep n)) blk, zlen (render0 deep n))) ns ->
  forall s1 s3, room (s1 ++ concat (map (render0 deep) ns) ++ s3) blk size ->
  tobuf_list code textBuf l (printed s1 pre blk size) =
  Some (printed (s1 ++ concat (map (render0 deep) ns)) pre blk size).
Proof.
  induction 1 as [|x n l ns Hx _ IHl]; intros Hp Hn s1 s3 Hr; cbn [map concat].
  { by rewrite app_nil_r. }
  inversion_clear Hp as [|?? Hp1 Hp2]. inversion_clear Hn as [|?? Hn1 Hn2].
  cbn [map concat] in Hr. rewrite <- app_assoc in Hr.
  assert (room (render0 deep n) (drop (length s1) blk) (size - zlen s1)) as Hr1.
  { apply xroom_app in Hr as [_ Hr]. by apply room_prefix in Hr. }
  cbn [tobuf_list]. unfold printed at 1, at_end. rewrite (Hn1 x Hx Hp1 deep) by done. cbn [mbind option_bind].
  destruct (room_s32 _ _ _ Hr1) as [_ ->].
  assert ((_, _, _) = printed (s1 ++ render0 deep n) pre blk size) as ->.
  { rewrite <- printed_app. unfold printed, at_end. rewrite <- !app_assoc, !zlen_app. f_equal. f_equal. lia. }
  rewrite (IHl Hp2 Hn2 _ s3); [|by rewrite <- app_assoc]. by rewrite <- app_assoc.
Qed.
End Steps.

Lemma xml_tobuf_ok n : forall x, shows x n -> printable code n -> forall deep pre blk size,
  room (render (fun _ => []) [32] deep n) blk size ->
  let s := render (fun _ => []) [32] deep n in
  xml_tobuf code textBuf x (pre ++ 0 :: blk) (zlen pre) size =
  Some (pre ++ s ++ 0 :: drop (length s) blk, zlen s).
Proof.
  induction n as [name attrs value subs IH] using node_ind'. intros x Hx Hp deep pre blk size Hr r.
  inversion Hx as [? v vs a s ? ? ? Hv Ha Hs]; subst. inversion_clear Hp as [? ? ? ? Fa Fv Fs].
  assert (xml_tobuf code textBuf (Ndxml name v vs a s) (pre ++ 0 :: blk) (zlen pre) size =
    ('(m, p, size) ← Some (printed r pre blk size); Some (m, s32 (p - zlen pre)))) as ->; cycle 1.
  { cbn [mbind option_bind]. unfold printed, at_end. rewrite <- app_assoc, zlen_app.
    replace (zlen pre + zlen r - zlen pre) with (zlen r) by lia. destruct (room_s32 _ _ _ Hr) as [Es _].
    fold r in Es. by rewrite Es. }
  rewrite xml_tobuf_eq. change (pre ++ 0 :: blk, zlen pre, size) with (at_end pre blk size).
  subst r. cbn [render] in *. cbn [app] in Hr. rewrite app_nil_l. rewrite (app_assoc (chars "<")) in *.
  set (s1 := chars "<" ++ name) in *. rewrite emit_at by (by apply room_prefix in Hr). cbn [mbind option_bind].
  rewrite (attrs_step _ _ _ a attrs s1 _ Ha Fa Hr). cbn [mbind option_bind]. rewrite (app_assoc s1) in *.
  set (s2 := s1 ++ _) in *.
  destruct (value_cases v value Fv Hv) as [[-> ->]|(c&t&->&->&w&l&->)].
  - destruct Hs as [|y n s subs Hy Hs].
    + by rewrite (emit_step _ _ _ s2 _ []) by (by rewrite app_nil_r).
    + rewrite (emit_step _ _ _ s2 (chars "> ") _) by exact Hr. cbn [mbind option_bind].
      set (ss := concat (map (render _ _ _) _)) in *.
      assert (room ((s2 ++ chars "> ") ++ ss ++ chars "</" ++ name ++ chars "> ") blk size) as Hr2
        by (rewrite <- app_assoc; exact Hr).
      rewrite (subs_step _ _ _ (S deep) (y :: s) (n :: subs) (Forall2_cons _ _ Hy Hs) Fs IH _ _ Hr2).
      fold ss. cbn [mbind option_bind]. rewrite (app_assoc (s2 ++ _)) in Hr2.
      rewrite (emit_step _ _ _ _ _ []) by (by rewrite app_nil_r). by rewrite <- !(app_assoc s2), <- !app_assoc.
  - cbn [mbind option_bind]. by rewrite (emit_step _ _ _ s2 _ []) by (by rewrite app_nil_r).
Qed.
End WriterProofs.
