(* ===== verification/XmlAttr.v ===== *)
(** * XmlAttr: the attributes of an XML node (nd_xml.c, l.1000-1220, 1536-1590)

    The attributes of a node in the order of its list [lst_attr]; each is a
    block that holds its name and, at [name_size], its value, with room for
    [value_size] bytes.  A [const char *] argument is [None] for NULL. *)

From S2P Require Import Prelude Bytes Str XmlText XmlParse.
From Stdlib Require Import Strings.String Lists.List.

Section Attributes.
Context `{!Malloc}.

(** [Some None] is NULL. *)
Fixpoint ndxml_getattrib (attrs : list ndxml_attr) (name : list Z) : option (option (nat * ndxml_attr)) :=
  match attrs with
  | [] => Some None
  | a :: attrs =>
      r ← ndstricmp (name ++ [0]) (attr_name a ++ [0]);
      if r =? 0 then Some (Some (O, a))
      else q ← ndxml_getattrib attrs name;
           Some (match q with Some (i, a) => Some (S i, a) | None => None end)
  end.

(** [i] counts up from 0 to [index]. *)
Fixpoint getattribi_loop (attrs : list ndxml_attr) (i index : Z) : option ndxml_attr :=
  match attrs with
  | [] => None
  | a :: attrs => if i =? index then Some a else getattribi_loop attrs (i + 1) index
  end.
Definition ndxml_getattribi (attrs : list ndxml_attr) (index : Z) : option ndxml_attr :=
  getattribi_loop attrs 0 index.

(** [*p ? p : NULL] *)
Definition text_or_null (s : list Z) : option (list Z) := match s with [] => None | _ => Some s end.

Definition ndxml_getattr_val (attrs : list ndxml_attr) (name : list Z) : option (option (list Z)) :=
  a ← ndxml_getattrib attrs name;
  Some (match a with Some (_, a) => text_or_null (attr_val a) | None => None end).
Definition ndxml_getattr_name (attrs : list ndxml_attr) (index : Z) : option (list Z) :=
  a ← ndxml_getattribi attrs index; text_or_null (attr_name a).
Definition ndxml_getattr_vali (attrs : list ndxml_attr) (index : Z) : option (list Z) :=
  a ← ndxml_getattribi attrs index; text_or_null (attr_val a).

(** The new list and whether an attribute was added. *)
Definition ndxml_addattrib (attrs : list ndxml_attr) (name value : option (list Z))
    : option (list ndxml_attr * bool) :=
  match name, value with
  | Some name, Some value =>
      a ← alloc_attrib_node name value;
      Some (match a with Some a => (attrs ++ [a], true) | None => (attrs, false) end)
  | _, _ => Some (attrs, false)
  end.

Definition ndxml_delattrib (attrs : list ndxml_attr) (name : list Z) : option (list ndxml_attr * Z) :=
  a ← ndxml_getattrib attrs name;
  Some (match a with Some (i, _) => (delete i attrs, 0) | None => (attrs, -1) end).
Definition ndxml_delattribi (attrs : list ndxml_attr) (index : Z) : list ndxml_attr * Z :=
  match ndxml_getattribi attrs index with
  | Some _ => (delete (Z.to_nat index) attrs, 0)
  | None => (attrs, -1)
  end.

(** The value of the attribute at [i] replaced: by a new node in its place when
    it does not fit, else in the block. *)
Definition replace_value (attrs : list ndxml_attr) (i : nat) (a : ndxml_attr) (value : list Z)
    : option (list ndxml_attr * Z) :=
  if value_size a <? s32 (zlen value) + 1 then
    n ← alloc_attrib_node (attr_name a) value;
    Some (match n with Some n => (<[i := n]> attrs, 0) | None => (attrs, -1) end)
  else
    t ← strcpy (text a) (name_size a) value;
    Some (<[i := Attr (name_size a) (value_size a) t]> attrs, 0).

Definition ndxml_setattrval (attrs : list ndxml_attr) (name value : option (list Z))
    : option (list ndxml_attr * Z) :=
  match name with
  | None => Some (attrs, -1)
  | Some name =>
      match value with
      | None | Some [] => ndxml_delattrib attrs name
      | Some value =>
          a ← ndxml_getattrib attrs name;
          match a with
          | None =>
              '(attrs, added) ← ndxml_addattrib attrs (Some name) (Some value);
              Some (attrs, if added : bool then 0 else -1)
          | Some (i, a) => replace_value attrs i a value
          end
      end
  end.

Definition ndxml_setattrvali (attrs : list ndxml_attr) (index : Z) (value : option (list Z))
    : option (list ndxml_attr * Z) :=
  if (index <? 0) || (zlen attrs <=? index) then Some (attrs, -1)
  else
    match value with
    | None | Some [] => Some (ndxml_delattribi attrs index)
    | Some value =>
        match ndxml_getattribi attrs index with
        | None => Some (attrs, -1)
        | Some a => replace_value attrs (Z.to_nat index) a value
        end
    end.
End Attributes.

(** ** The attributes as an ordered table

    Names are compared without regard to the case of letters. *)

Abbreviation attr_view := (list (list Z * list Z)).
Definition view (attrs : list ndxml_attr) : attr_view := map (fun a => (attr_name a, attr_val a)) attrs.
Definition same_name (n1 n2 : list Z) : Prop := map to_big n1 = map to_big n2.
#[export] Instance same_name_dec n1 n2 : Decision (same_name n1 n2).
Proof. unfold same_name. apply _. Defined.

(** The table after [name] is set to [value]; the empty value removes it. *)
Fixpoint table_set (t : attr_view) (name value : list Z) : attr_view :=
  match t with
  | [] => match value with [] => [] | _ => [(name, value)] end
  | (n, v) :: t =>
      if decide (same_name name n)
      then match value with [] => t | _ => (n, value) :: t end
      else (n, v) :: table_set t name value
  end.
Fixpoint table_get (t : attr_view) (name : list Z) : list Z :=
  match t with
  | [] => []
  | (n, v) :: t => if decide (same_name name n) then v else table_get t name
  end.

(** A well-formed attribute: its block holds the terminated name in front of
    [name_size], and from there room for [value_size] bytes with a terminated
    value. *)
Record attr_ok (a : ndxml_attr) : Prop := {
  ao_name : ctext (attr_name a) /\ zlen (attr_name a) < name_size a /\ zlen (attr_name a) < 65532;
  ao_sizes : 0 < value_size a < 2 ^ 16 /\ name_size a < 2 ^ 16 /\ zlen (text a) = name_size a + value_size a;
  ao_name_text : slice 0 (zlen (attr_name a) + 1) (text a) = attr_name a ++ [0];
  ao_value : ctext (attr_val a) /\ zlen (attr_val a) < value_size a
}.

(** ** Blocks that hold strings *)

(** [m] holds the string [s] at the offset [o]. *)
Definition holds (m : mem) (o : Z) (s : list Z) : Prop :=
  0 <= o /\ o + zlen s + 1 <= zlen m /\ slice o (zlen s + 1) m = s ++ [0].

Lemma ctext_nonzero s : ctext s -> Forall (fun b => b <> 0) s.
Proof. apply Forall_impl. lia. Qed.

Lemma holds_until m o s : holds m o s -> ctext s -> until_nul (slice o (zlen m - o) m) = s.
Proof.
  intros (Ho&Hl&E) Hs. pose proof (zlen_nonneg s).
  replace (zlen m - o) with (zlen s + 1 + (zlen m - o - (zlen s + 1))) by lia.
  rewrite slice_split by lia. rewrite E, <- app_assoc. cbn [app]. apply until_nul_app. by apply ctext_nonzero.
Qed.
Lemma holds_until_0 m s : holds m 0 s -> ctext s -> until_nul m = s.
Proof. intros H Hs. rewrite <- (holds_until m 0 s H Hs). by rewrite Z.sub_0_r, slice_all. Qed.

Lemma strcpy_ex m o s : 0 <= o -> o + zlen s + 1 <= zlen m ->
  exists m', strcpy m o s = Some m' /\ zlen m' = zlen m /\ holds m' o s /\
    (forall o2 s2, holds m o2 s2 -> o2 + zlen s2 + 1 <= o -> holds m' o2 s2).
Proof.
  intros Ho Hl. unfold strcpy. destruct (mwrite_ex m o (s ++ [0])) as (m'&E&L); [done|rewrite zlen_app, zlen_cons, zlen_nil; lia|].
  rewrite E. exists m'. split_and!; [done|done| |].
  - split_and!; [done|lia|]. rewrite <- (slice_mwrite_same _ _ _ _ E). f_equal. by rewrite zlen_app.
  - intros o2 s2 (H1&H2&H3) Hd. split_and!; [done|lia|]. rewrite <- H3. pose proof (zlen_nonneg s2).
    by apply (slice_mwrite_before _ _ _ _ _ _ E); lia.
Qed.

(** ** Allocation *)

Section Allocation.
Context `{!Malloc} (malloc_ok : forall n, is_Some (malloc n)).

(** A fresh attribute node holds the name and the value it was given. *)
Lemma alloc_attrib_ok name v : zlen name < 65532 -> zlen v < 65532 -> ctext name -> ctext v ->
  exists a, alloc_attrib_node name v = Some (Some a) /\ attr_name a = name /\ attr_val a = v /\ attr_ok a.
Proof.
  intros Hn Hv Fn Fv. unfold alloc_attrib_node. pose proof (zlen_nonneg name). pose proof (zlen_nonneg v).
  rewrite !wraps_small by lia. pose proof (round4_bounds (zlen name + 4)). pose proof (round4_bounds (zlen v + 4)).
  set (len := round4 (zlen name + 4)) in *. set (vlen := round4 (zlen v + 4)) in *.
  destruct (malloc_ok (sizeof_ndxml_attr + len + vlen)) as [blk Eb]. rewrite Eb.
  pose proof (malloc_length _ _ Eb) as Lb. unfold sizeof_ndxml_attr in *.
  set (t := slice 24 (len + vlen) blk). assert (zlen t = len + vlen) as Lt by (unfold t; rewrite zlen_slice; lia).
  clearbody t len vlen. destruct (strcpy_ex t 0 name) as (m1&->&L1&Hm1&_); [lia|lia|]. cbn [mbind option_bind].
  assert ((if 0 <? zlen v then strcpy m1 len v else mset m1 len 0) = strcpy m1 len v) as ->.
  { destruct (Z.ltb_spec 0 (zlen v)); [done|]. by rewrite (zlen_0_nil v) by lia. }
  destruct (strcpy_ex m1 len v) as (m2&->&L2&Hm2&Hk); [lia|lia|]. cbn [mbind option_bind].
  assert (holds m2 0 name) as Hm0 by (apply Hk; [done|lia]).
  eexists. split; [done|]. rewrite !wrapu_small by lia.
  assert (attr_name (Attr len vlen m2) = name) as En by (by apply holds_until_0).
  assert (attr_val (Attr len vlen m2) = v) as Ev by (by apply holds_until).
  split_and!; [done|done|]. constructor; rewrite ?En, ?Ev; cbn [name_size value_size text]; [split; [done|lia]|lia| |split; [done|lia]].
  by destruct Hm0 as (_&_&?).
Qed.

(** The value of a well-formed attribute replaced in its block. *)
Lemma replace_in_block a value t : attr_ok a -> ctext value -> zlen value < value_size a ->
  strcpy (text a) (name_size a) value = Some t ->
  let a' := Attr (name_size a) (value_size a) t in
  attr_name a' = attr_name a /\ attr_val a' = value /\ attr_ok a'.
Proof.
  intros [(Hn&Hnl&Hn6) (Hvs&Hns&Hl) Ht [Hv Hvl]] Hc Hf E. pose proof (zlen_nonneg (attr_name a)).
  assert (holds (text a) 0 (attr_name a)) as Ha by (split_and!; [done|lia|done]).
  destruct (strcpy_ex (text a) (name_size a) value) as (t'&E'&L&H1&H2); [lia|lia|].
  rewrite E in E'. injection E' as <-. specialize (H2 _ _ Ha). cbn zeta.
  assert (attr_name (Attr (name_size a) (value_size a) t) = attr_name a) as En by (apply holds_until_0; [apply H2; lia|done]).
  assert (attr_val (Attr (name_size a) (value_size a) t) = value) as Ev by (by apply holds_until).
  split_and!; [done|done|]. constructor; rewrite ?En, ?Ev; cbn [name_size value_size text]; [done|lia| |done].
  destruct H2 as (_&_&?); [lia|done].
Qed.

(** ** The operations on the table *)

Lemma getattrib_ok attrs name : Forall attr_ok attrs -> ctext name ->
  exists r, ndxml_getattrib attrs name = Some r /\
    match r with
    | Some (i, a) => attrs !! i = Some a /\ same_name name (attr_name a) /\
        (forall j b, (j < i)%nat -> attrs !! j = Some b -> ~ same_name name (attr_name b))
    | None => forall b, b ∈ attrs -> ~ same_name name (attr_name b)
    end.
Proof.
  intros Ha Hc. induction Ha as [|a attrs Ha _ IH]; cbn [ndxml_getattrib].
  - exists None. split; [done|]. set_solver.
  - destruct (ndstricmp_zero name (attr_name a) [] [] Hc (proj1 (ao_name _ Ha))) as (r&->&Hr).
    cbn [mbind option_bind]. destruct (Z.eqb_spec r 0) as [E0|E0].
    + eexists. split; [done|]. split_and!; [done|by apply Hr|lia].
    + destruct IH as (q&->&Hq). cbn [mbind option_bind]. eexists. split; [done|]. destruct q as [[i b]|].
      * destruct Hq as (H1&H2&H3). split_and!; [done|done|]. intros [|j] c Hj E; [simplify_eq/=; tauto|].
        apply (H3 j c); [lia|done].
      * intros b [-> |Hb]%elem_of_cons; [tauto|by apply Hq].
Qed.

Lemma table_set_at attrs i a name value : attrs !! i = Some a -> same_name name (attr_name a) ->
  (forall j b, (j < i)%nat -> attrs !! j = Some b -> ~ same_name name (attr_name b)) ->
  table_set (view attrs) name value =
  match value with
  | [] => view (delete i attrs)
  | _ => <[i := (attr_name a, value)]> (view attrs)
  end.
Proof.
  revert i. induction attrs as [|b attrs IH]; intros i Hi Hs Hb; [done|]. destruct i as [|i]; simpl in Hi.
  - injection Hi as ->. cbn [view map table_set]. rewrite decide_True by done. by destruct value.
  - cbn [view map table_set]. rewrite decide_False by (apply (Hb O b); [lia|done]).
    fold (view attrs). rewrite (IH i Hi Hs) by (intros j c Hj Hc; apply (Hb (S j) c); [lia|done]).
    by destruct value.
Qed.

Lemma table_set_new attrs name value : (forall b, b ∈ attrs -> ~ same_name name (attr_name b)) ->
  table_set (view attrs) name value = view attrs ++ match value with [] => [] | _ => [(name, value)] end.
Proof.
  induction attrs as [|b attrs IH]; intros Hb; [by destruct value|]. cbn [view map table_set].
  rewrite decide_False by (apply Hb; set_solver). fold (view attrs). rewrite IH by set_solver. done.
Qed.

Lemma view_insert attrs i a : view (<[i := a]> attrs) = <[i := (attr_name a, attr_val a)]> (view attrs).
Proof. exact (list_fmap_insert (fun a => (attr_name a, attr_val a)) attrs i a). Qed.

Lemma replace_value_ok attrs i a value : attrs !! i = Some a -> Forall attr_ok attrs -> ctext value ->
  zlen value < 65532 -> value <> [] -> exists attrs', replace_value attrs i a value = Some (attrs', 0) /\
  Forall attr_ok attrs' /\ view attrs' = <[i := (attr_name a, value)]> (view attrs).
Proof.
  intros Hi Ha Hc Hl Hne. assert (attr_ok a) as Hao by (by eapply Forall_lookup_1).
  pose proof (zlen_nonneg value). unfold replace_value. rewrite wraps_small by lia.
  pose proof Hao as [(Hn&Hnl&Hn6) (Hvs&Hns&Hlen) Ht [Hv Hvl]]. pose proof (zlen_nonneg (attr_name a)).
  destruct (Z.ltb_spec (value_size a) (zlen value + 1)).
  - destruct (alloc_attrib_ok (attr_name a) value) as (n&->&En&Ev&Hok); [done..|]. cbn [mbind option_bind].
    eexists. split_and!; [done|by apply Forall_insert|]. by rewrite view_insert, En, Ev.
  - destruct (strcpy_ex (text a) (name_size a) value) as (t&Et&_); [lia|lia|]. rewrite Et. cbn [mbind option_bind].
    destruct (replace_in_block a value t Hao Hc) as (En&Ev&Hok); [lia|done|].
    eexists. split_and!; [done|by apply Forall_insert|]. by rewrite view_insert, En, Ev.
Qed.

Lemma delete_view attrs i : view (delete i attrs) = delete i (view attrs).
Proof. revert i. induction attrs as [|a attrs IH]; intros [|i]; cbn; [done..|]. f_equal. apply IH. Qed.

(** [ndxml_setattrval] is [table_set]: it fails only when it is asked to remove
    an attribute the node does not have. *)
Lemma setattrval_ok attrs name value : Forall attr_ok attrs -> ctext name -> zlen name < 65532 ->
  ctext value -> zlen value < 65532 ->
  exists attrs' r, ndxml_setattrval attrs (Some name) (Some value) = Some (attrs', r) /\
    Forall attr_ok attrs' /\ view attrs' = table_set (view attrs) name value /\
    (r = 0 \/ r = -1 /\ value = [] /\ forall b, b ∈ attrs -> ~ same_name name (attr_name b)).
Proof.
  intros Ha Hn Hnl Hv Hvl. destruct (getattrib_ok attrs name Ha Hn) as (q&Eq&Hq).
  unfold ndxml_setattrval, ndxml_delattrib, ndxml_addattrib. destruct value as [|c value].
  - rewrite Eq. cbn [mbind option_bind]. destruct q as [[i a]|].
    + destruct Hq as (H1&H2&H3). eexists _, _. split_and!; [done| | |by left].
      * by apply Forall_delete.
      * by rewrite (table_set_at attrs i a).
    + eexists _, _. split_and!; [done|done| |by right]. rewrite table_set_new by done. by rewrite app_nil_r.
  - rewrite Eq. cbn [mbind option_bind]. destruct q as [[i a]|].
    + destruct Hq as (H1&H2&H3). destruct (replace_value_ok attrs i a (c :: value)) as (l&->&Hl&El); [done..|].
      eexists _, _. split_and!; [done|done| |by left]. by rewrite (table_set_at attrs i a).
    + destruct (alloc_attrib_ok name (c :: value)) as (n&->&En&Ev&Hok); [done..|]. cbn [mbind option_bind].
      eexists _, _. split_and!; [done| | |by left]; [by apply Forall_app; split; [|constructor]|].
      rewrite table_set_new by done. unfold view. by rewrite map_app, <- En, <- Ev.
Qed.

Lemma getattr_val_ok attrs name : Forall attr_ok attrs -> ctext name ->
  ndxml_getattr_val attrs name = Some (text_or_null (table_get (view attrs) name)).
Proof.
  intros Ha Hn. unfold ndxml_getattr_val. destruct (getattrib_ok attrs name Ha Hn) as (q&->&Hq).
  cbn [mbind option_bind]. f_equal. clear Ha. revert q Hq. induction attrs as [|b attrs IH]; intros q Hq.
  - destruct q as [[i a]|]; [by destruct Hq as [? _]|done].
  - cbn [view map table_get]. fold (view attrs). destruct q as [[i a]|].
    + destruct Hq as (H1&H2&H3). destruct i as [|i]; simpl in H1.
      * injection H1 as ->. by rewrite decide_True.
      * rewrite decide_False by (apply (H3 O b); [lia|done]). apply (IH (Some (i, a))).
        split_and!; [done|done|]. intros j c Hj Hc. apply (H3 (S j) c); [lia|done].
    + rewrite decide_False by (apply Hq; set_solver). apply (IH None). set_solver.
Qed.
End Allocation.

(** *** Laws of the table *)

#[export] Instance same_name_equiv : Equivalence same_name.
Proof. split; unfold same_name; congruence. Qed.

Fixpoint distinct (t : attr_view) : Prop :=
  match t with [] => True | (n, _) :: t => (forall m v, (m, v) ∈ t -> ~ same_name n m) /\ distinct t end.

Lemma table_get_absent t name : (forall m v, (m, v) ∈ t -> ~ same_name name m) -> table_get t name = [].
Proof.
  induction t as [|[n v] t IH]; intros Ht; [done|]. cbn [table_get].
  rewrite decide_False by (apply (Ht n v); set_solver). apply IH. set_solver.
Qed.

Lemma table_get_set t name value other : (value = [] -> distinct t) ->
  table_get (table_set t name value) other = if decide (same_name name other) then value else table_get t other.
Proof.
  induction t as [|[n v] t IH]; intros Hd; cbn [table_set table_get].
  - destruct value as [|c value]; [by destruct (decide _)|]. cbn [table_get].
    destruct (decide (same_name other name)) as [E|E], (decide (same_name name other)) as [E'|E']; try done;
      exfalso; (apply E || apply E'); by symmetry.
  - destruct (decide (same_name name n)) as [E|E].
    + destruct value as [|c value].
      * destruct (Hd eq_refl) as [Hn _]. destruct (decide (same_name name other)) as [E'|E'].
        -- apply table_get_absent. intros m w Hm Hs. apply (Hn m w Hm). by rewrite <- E, E'.
        -- rewrite decide_False; [done|]. intros E2. apply E'. by rewrite E, E2.
      * cbn [table_get]. destruct (decide (same_name other n)) as [E2|E2], (decide (same_name name other)) as [E'|E']; try done.
        -- destruct E'. by rewrite E, E2.
        -- destruct E2. by rewrite <- E', E.
    + cbn [table_get]. rewrite IH by (intros Ev; by destruct (Hd Ev)). destruct (decide (same_name other n)) as [E2|E2]; [|done].
      rewrite decide_False; [done|]. intros E'. apply E. by rewrite E', E2.
Qed.

(** C36: for names and values of at most 65531 bytes (what the 16-bit sizes of a
    block can hold) and memory that is there, setting an attribute of a node, whether
    the value fits in the old block, needs a new one, or is new to the node, makes
    [ndxml_getattr_val] return that value for the name in any case of its letters
    and what it returned before for every other name; the order of the names is kept,
    every block stays well-formed.  The empty value removes the attribute (then NULL is
    returned, provided that no second attribute has the name), and the only
    failure is to remove what is not there. *)
Theorem xml_attr_table `{!Malloc} attrs name value : (forall n, is_Some (malloc n)) ->
  Forall attr_ok attrs -> (value = [] -> distinct (view attrs)) -> ctext name -> zlen name < 65532 -> ctext value -> zlen value < 65532 ->
  exists attrs' r, ndxml_setattrval attrs (Some name) (Some value) = Some (attrs', r) /\
    Forall attr_ok attrs' /\ view attrs' = table_set (view attrs) name value /\
    (forall other, ctext other -> ndxml_getattr_val attrs' other =
       if decide (same_name name other) then Some (text_or_null value) else ndxml_getattr_val attrs other) /\
    (r = 0 \/ r = -1 /\ value = [] /\ attrs' = attrs).
Proof.
  intros Hm Ha Hd Hn Hnl Hv Hvl. destruct (setattrval_ok Hm attrs name value) as (l&r&E&Hl&Ev&Hr); [done..|].
  exists l, r. split_and!; [done|done|done| |].
  - intros other Ho. rewrite !getattr_val_ok by done. rewrite Ev, table_get_set by done. by destruct (decide _).
  - destruct Hr as [->|(->&->&Hb)]; [by left|right]. split_and!; [done|done|].
    unfold ndxml_setattrval, ndxml_delattrib in E. destruct (getattrib_ok Hm attrs name Ha Hn) as (q&Eq&Hq).
    rewrite Eq in E. cbn [mbind option_bind] in E. destruct q as [[i a]|]; congruence.
Qed.

Lemma malloc_zero_ok n : is_Some (malloc n).
Proof. by eexists. Qed.
Definition attr_ex (n v : string) : ndxml_attr :=
  match alloc_attrib_node (chars n) (chars v) with Some (Some a) => a | _ => Attr 0 0 [] end.
Definition attrs_ex : list ndxml_attr := [attr_ex "id" "7"; attr_ex "Kind" "node"].
Lemma attr_ex_ok n v : zlen (chars n) < 65532 -> zlen (chars v) < 65532 -> ctext (chars n) -> ctext (chars v) ->
  attr_ok (attr_ex n v).
Proof.
  intros H1 H2 H3 H4. unfold attr_ex. destruct (alloc_attrib_ok malloc_zero_ok _ _ H1 H2 H3 H4) as (a&->&_&_&?). done.
Qed.

Lemma xml_attr_table_witness :
  exists attrs' r, ndxml_setattrval attrs_ex (Some (chars "KIND")) (Some (chars "a longer value")) = Some (attrs', r) /\
    Forall attr_ok attrs' /\ view attrs' = [(chars "id", chars "7"); (chars "Kind", chars "a longer value")] /\
    (forall other, ctext other -> ndxml_getattr_val attrs' other =
       if decide (same_name (chars "KIND") other) then Some (Some (chars "a longer value"))
       else ndxml_getattr_val attrs_ex other) /\
    (r = 0 \/ r = -1 /\ chars "a longer value" = [] /\ attrs' = attrs_ex).
Proof.
  apply (xml_attr_table attrs_ex (chars "KIND") (chars "a longer value")).
  - apply malloc_zero_ok.
  - repeat constructor; apply attr_ex_ok; try reflexivity; repeat constructor; lia.
  - discriminate.
  - repeat constructor; lia.
  - reflexivity.
  - repeat constructor; lia.
  - reflexivity.
Defined.

(** A name of one character more: the sizes wrap, and the value is read from the
    beginning of the name. *)
Example long_name_wraps :
  match alloc_attrib_node (zrepeat 97 65532) [98] with
  | Some (Some a) => (name_size a, zlen (attr_name a), zlen (attr_val a))
  | _ => (0, 0, 0)
  end = (0, 65532, 65532).
Proof. vm_compute. reflexivity. Qed.
