(* ===== verification/XmlRound.v ===== *)
(** * XmlRound: reading back what was written

    The parser of nd_xml.c applied to the text that [xml_tobuf] or [xml_write]
    prints gives a node with the same name, attributes, value and children. *)

From S2P Require Import Prelude Bytes Str XmlText XmlParse XmlWrite XmlAttr.
From Stdlib Require Import Strings.String Lists.List.

(** ** Well-formed nodes *)

(** The characters that both [ndstr_parse_variant_n] and [ndstr_parse_word] take
    into a name; an attribute name may also contain a dot. *)
Definition tag_char (a : Z) : bool := is_word_char a || (a =? 36).
Definition key_char (a : Z) : bool := tag_char a || (a =? 46).
Definition name_ok (ok : Z -> bool) (s : list Z) : Prop :=
  s <> [] /\ Forall (fun a => ok a = true) s /\ zlen s < MAX_XMLNAME_SIZE.

(** A value is kept if it does not start with a blank and the node has no
    children: the writers print either the value or the children. *)
Definition value_kept (cs : list (list Z)) (subs : list node) : Prop :=
  match raw cs with [] => True | c :: _ => 0x20 < c /\ subs = [] end.

#[local] Set Warnings "-register-all".
Inductive wf_node (code : Z) : node -> Prop :=
  | wf_node_intro name attrs value subs :
      name_ok tag_char name ->
      Forall (fun kv => name_ok key_char kv.1 /\ text_fits code kv.2) attrs ->
      text_fits code value -> value_kept value subs -> Forall (wf_node code) subs ->
      wf_node code (Node name attrs value subs).

Lemma wf_printable code n : wf_node code n -> printable code n.
Proof.
  induction n as [name attrs value subs IH] using node_ind'. intros Hn.
  inversion_clear Hn as [? ? ? ? _ Ha Hv _ Hs]. constructor; [|done|].
  - eapply Forall_impl; [|exact Ha]. by intros kv [_ ?].
  - clear - IH Hs. induction IH as [|n subs Hn _ IHs]; inversion_clear Hs; constructor; auto.
Qed.

(** ** Names *)

Lemma key_char_range a : key_char a = true -> 0x20 < a <= 0x80 /\ a <> 33 /\ a <> 34 /\ a <> 47 /\ a <> 60 /\ a <> 61 /\ a <> 62 /\ a <> 63.
Proof.
  unfold key_char, tag_char, is_word_char, IS_NUMERALS, IS_BIG_LATIN, IS_LITTLE_LATIN.
  rewrite !orb_true_iff, !andb_true_iff, !Z.leb_le, !Z.eqb_eq. lia.
Qed.
Lemma tag_key a : tag_char a = true -> key_char a = true.
Proof. unfold key_char. by intros ->. Qed.
Lemma key_variant a : key_char a = is_word_char a || (a =? 46) || (a =? 36).
Proof. unfold key_char, tag_char. destruct (is_word_char a), (a =? 36), (a =? 46); done. Qed.

Lemma name_tag_key s : name_ok tag_char s -> name_ok key_char s.
Proof. intros (?&Hs&?). split_and!; try done. eapply Forall_impl; [|exact Hs]. simpl. apply tag_key. Qed.

(** What follows a name in a printed text: a blank, [=], [>], [/] or [<]. *)
Definition stops (p : cstr) : Prop := exists c, deref p = Some c /\ c <> 0 /\ c <= 0x80 /\ key_char c = false.

Lemma variant_name code s : Forall (fun a => key_char a = true) s -> forall fuel p out n start,
  stops p -> (length s < fuel)%nat -> zlen s < n ->
  parse_variant_n_loop fuel code (s ++ p) out n start =
  Some (p, out ++ s, match s with [] => start | _ => false end).
Proof.
  induction 1 as [|a s Ha _ IH]; intros fuel p out n start Hp Hf Hn.
  - destruct Hp as (c&Hd&?&?&Hc), fuel as [|fuel]; [simpl in *; lia|]. cbn [app parse_variant_n_loop].
    rewrite Hd. cbn [mbind option_bind]. destruct (Z.eqb_spec c 0); [done|].
    change (zlen []) with 0 in Hn. destruct (Z.ltb_spec 0 n); [|lia].
    destruct (Z.ltb_spec 0x80 c); [lia|]. rewrite andb_false_r. rewrite key_variant in Hc. rewrite Hc.
    by rewrite app_nil_r.
  - destruct fuel as [|fuel]; [simpl in *; lia|]. rewrite zlen_cons in Hn. pose proof (zlen_nonneg s).
    destruct (key_char_range a Ha) as (?&_). cbn [app parse_variant_n_loop deref head tail mbind option_bind].
    destruct (Z.eqb_spec a 0); [lia|]. destruct (Z.ltb_spec 0 n); [|lia].
    destruct (Z.ltb_spec 0x80 a); [lia|]. rewrite andb_false_r. rewrite key_variant in Ha. rewrite Ha.
    simpl in Hf. rewrite IH by (done || lia). rewrite <- app_assoc. by destruct s.
Qed.

Lemma until_nul_key s rest : Forall (fun a => key_char a = true) s -> until_nul (s ++ 0 :: rest) = s.
Proof.
  intros Hs. apply until_nul_app. eapply Forall_impl; [|exact Hs]. intros a Ha.
  destruct (key_char_range a Ha). simpl in *. lia.
Qed.

Lemma stops_length p : stops p -> (0 < length p)%nat.
Proof. intros (c&Hd&_). destruct p; [done|]. simpl. lia. Qed.

Lemma read_name_ok code s p : name_ok key_char s -> stops p ->
  read_name code (s ++ p) = Some (zlen s, s).
Proof.
  intros (Hne&Hs&Hl) Hp. unfold read_name, ndstr_parse_variant_n. unfold MAX_XMLNAME_SIZE in *.
  pose proof (stops_length _ Hp). rewrite variant_name; [|done|done|rewrite length_app; lia|lia].
  destruct s as [|a s]; [done|]. cbn [mbind option_bind app].
  change (a :: s ++ [0]) with ((a :: s) ++ [0]). rewrite zlen_app, !zlen_cons, zlen_nil.
  rewrite zlen_cons in Hl. pose proof (zlen_nonneg s).
  destruct (Z.ltb_spec 64 (1 + zlen s + (1 + 0))); [lia|]. rewrite until_nul_key by done.
  rewrite zlen_app. rewrite wraps_small by lia. do 2 f_equal. lia.
Qed.

Lemma parse_word_tag code s : Forall (fun a => tag_char a = true) s -> forall fuel p out,
  stops p -> deref p <> Some 64 -> (length s < fuel)%nat ->
  parse_word_loop fuel code (s ++ p) out = Some (p, out ++ s).
Proof.
  induction 1 as [|a s Ha _ IH]; intros fuel p out Hp H64 Hf.
  - destruct Hp as (c&Hd&?&?&Hc), fuel as [|fuel]; [simpl in *; lia|]. cbn [app parse_word_loop].
    rewrite Hd in *. cbn [mbind option_bind]. destruct (Z.eqb_spec c 0); [done|].
    unfold key_char, tag_char in Hc. apply orb_false_iff in Hc as [Hc _]. rewrite Hc.
    destruct (Z.eqb_spec c 64); [congruence|]. cbn [orb].
    destruct (Z.ltb_spec 0x80 c); [lia|]. rewrite andb_false_r. by rewrite app_nil_r.
  - destruct fuel as [|fuel]; [simpl in *; lia|]. destruct (key_char_range a (tag_key a Ha)) as (?&_).
    cbn [app parse_word_loop deref head tail mbind option_bind]. destruct (Z.eqb_spec a 0); [lia|].
    unfold tag_char in Ha. rewrite Ha. cbn [orb]. simpl in Hf. rewrite IH by (done || lia).
    by rewrite <- app_assoc.
Qed.

(** ** Blanks *)

Definition blank (s : list Z) : Prop := Forall (fun a => 0 < a <= 0x20) s.

Lemma first_valid_blank b p c : blank b -> deref p = Some c -> 0x20 < c -> ndstr_first_valid (b ++ p) = Some (Some p).
Proof.
  intros Hb Hd Hc. induction Hb as [|a b Ha _ IH]; simpl; [by eapply first_valid_id|].
  destruct (Z.leb_spec a 0x20); [|lia]. destruct (Z.eqb_spec a 0); [lia|done].
Qed.

(** ** The closing tag *)

Definition closing (name : list Z) : list Z := chars "</" ++ name ++ chars ">".

Lemma read_end_ok code x p st : name_ok tag_char (xname x) ->
  read_end code (closing (xname x) ++ p) x st = Some (Some x, set_end (At p) st).
Proof.
  intros (Hne&Hs&Hl). unfold read_end, closing. unfold MAX_XMLNAME_SIZE in *.
  rewrite <- !app_assoc. change (chars "</" ++ ?r) with (60 :: 47 :: r).
  change (_is_mark_start (60 :: 47 :: _)) with (Some true). cbn [mbind option_bind negb drop]. rewrite drop_0.
  assert (stops (chars ">" ++ p)) as Hst by (by exists 62).
  assert (ndstr_first_valid (xname x ++ chars ">" ++ p) = Some (Some (xname x ++ chars ">" ++ p))) as ->.
  { destruct (xname x) as [|a s]; [done|]. inversion_clear Hs as [|?? Ha _].
    eapply first_valid_id; [done|]. pose proof (key_char_range a (tag_key a Ha)). lia. }
  cbn [mbind option_bind]. unfold ndstr_parse_word. rewrite parse_word_tag; [|done|done|done|].
  2: { rewrite length_app. simpl. lia. }
  cbn [mbind option_bind app]. change (rest_or_null (chars ">" ++ p)) with (Some (Some (62 :: p))).
  cbn [mbind option_bind]. rewrite zlen_app, zlen_cons, zlen_nil.
  destruct (Z.ltb_spec 64 (zlen (xname x) + (1 + 0))); [lia|].
  assert (ctext (xname x)) as Hct.
  { eapply Forall_impl; [|exact Hs]. intros a Ha. destruct (key_char_range a (tag_key a Ha)). simpl in *. lia. }
  destruct (ndstricmp_zero (xname x) (xname x) [] [] Hct Hct) as (r&->&Hr). cbn [mbind option_bind].
  rewrite (proj2 Hr) by done. done.
Qed.

(** ** Attributes *)

Section Reader.
Context `{!Malloc} (malloc_ok : forall n, is_Some (malloc n)) (code : Z).
Context (buf0 : mem) (buf0_len : zlen buf0 = 4096).

Lemma text_nonzero cs : Forall (char_ok code) cs -> Forall (fun b => b <> 0) (raw cs).
Proof. intros Hc. eapply Forall_impl; [|exact (raw_ctext _ _ Hc)]. simpl. lia. Qed.
Lemma key_ctext s : Forall (fun a => key_char a = true) s -> ctext s.
Proof. apply Forall_impl. intros a Ha. destruct (key_char_range a Ha). lia. Qed.

(** The text of a value between quotes. *)
Lemma read_attrval_ok cs p : text_fits code cs ->
  exists buf, _xml_read_attrval code (61 :: _ND_QUOT :: escape cs ++ _ND_QUOT :: p) buf0 4096 = Some (Some (p, buf)) /\
    until_nul buf = raw cs.
Proof.
  intros [Hc Hl]. unfold _xml_read_attrval. pose proof (escape_len _ _ Hc).
  change (skip_to_quote (61 :: _ND_QUOT :: ?r)) with (Some (Some (_ND_QUOT :: r))). cbn [mbind option_bind tail].
  rewrite (attrval_ok code cs Hc _ p [] buf0 4096); [|simpl; rewrite length_app; simpl; lia|lia|lia].
  cbn [app mbind option_bind]. rewrite zlen_nil, Z.add_0_l.
  rewrite mset_drop by (rewrite zlen_drop; unfold zlen in *; lia). cbn [mbind option_bind].
  eexists. split; [done|]. apply until_nul_app. by apply text_nonzero.
Qed.

(** The end of an opening tag. *)
Definition tag_end (p : cstr) : Prop := exists c t, p = c :: t /\ (c = 47 \/ c = 62).

Lemma stops_attr kvs p : tag_end p -> stops (concat (map render_attr kvs) ++ p).
Proof.
  intros (c&t&->&Hc). destruct kvs as [|kv kvs]; cbn [map concat app].
  - exists c. destruct Hc as [-> | ->]; done.
  - exists 32. done.
Qed.

Lemma read_attrs_ok kvs : Forall (fun kv => name_ok key_char kv.1 /\ text_fits code kv.2) kvs ->
  forall fuel p attrs st, tag_end p -> (length (concat (map render_attr kvs)) < fuel)%nat ->
  exists attrs' e f2, Forall2 shows_attr attrs' kvs /\ (0 < f2)%nat /\
    read_attrs code buf0 fuel (concat (map render_attr kvs) ++ p) attrs st =
    read_attrs code buf0 f2 p (attrs ++ attrs') (Out (parse_end st) e).
Proof.
  induction 1 as [|[k v] kvs [Hk Hv] _ IH]; intros fuel p attrs st Hp Hf.
  - exists [], (error_addr st), fuel. rewrite app_nil_r. split_and!; [done|simpl in *; lia|by destruct st].
  - cbn [map concat] in *. rewrite length_app in Hf. destruct fuel as [|fuel]; [lia|].
    cbn [fst snd] in *. unfold render_attr at 1. cbn [fst snd]. rewrite <- !app_assoc.
    change (chars " " ++ ?r) with (32 :: r). cbn [read_attrs deref head mbind option_bind Z.eqb].
    destruct Hk as (Hne&Hks&Hkl). pose proof Hks as Hks'. destruct k as [|a k0] eqn:Ek; [done|]. rewrite <- Ek in *.
    assert (key_char a = true) as Ha by (rewrite Ek in Hks; by inversion_clear Hks). destruct (key_char_range a Ha) as (?&?&?&?&?&?&?&?).
    set (R := chars "=" ++ _). assert (deref (k ++ R) = Some a) as Hd by (by rewrite Ek).
    assert (ndstr_first_valid (32 :: k ++ R) = Some (Some (k ++ R))) as ->.
    { apply (first_valid_blank [32] (k ++ R) a); [by repeat constructor|done|lia]. }
    cbn [mbind option_bind]. unfold _is_mark_end. rewrite Hd. cbn [mbind option_bind].
    destruct (Z.eqb_spec a 47); [lia|]. cbn [mbind option_bind]. destruct (Z.eqb_spec a 62); [lia|].
    rewrite read_name_ok; [|done|by exists 61]. cbn [mbind option_bind].
    assert (0 < zlen k) by (rewrite Ek, zlen_cons; pose proof (zlen_nonneg k0); lia).
    destruct (Z.leb_spec (zlen k) 0); [lia|]. 
    assert (drop (Z.to_nat (zlen k)) (k ++ R) = R) as -> by (unfold zlen; by rewrite Nat2Z.id, drop_app_length).
    change (strchr R 61) with (Some (Some R)). cbn [mbind option_bind]. unfold R.
    change (chars "=" ++ [_ND_QUOT] ++ ?r) with (61 :: _ND_QUOT :: r).
    change ([_ND_QUOT] ++ ?r) with (_ND_QUOT :: r).
    destruct (read_attrval_ok v (concat (map render_attr kvs) ++ p) Hv) as (buf&->&Eb). cbn [mbind option_bind].
    rewrite Eb. destruct Hv as [Hc Hl]. pose proof (escape_len _ _ Hc).
    destruct (alloc_attrib_ok malloc_ok k (raw v)) as (x&->&Exn&Exv&_); [unfold MAX_XMLNAME_SIZE in *; lia|lia|by apply key_ctext|by eapply raw_ctext|].
    cbn [mbind option_bind]. match goal with |- context [read_attrs _ _ fuel _ _ ?st'] => set (st1 := st') end.
    destruct (IH fuel p (attrs ++ [x]) st1 Hp) as (l&e&f2&Hl'&Hf2&->); [cbn [render_attr app chars] in Hf; simpl in Hf; lia|].
    exists (x :: l), e, f2. split_and!; [by constructor|done|]. by rewrite <- app_assoc.
Qed.

(** ** The head of a node *)

(** A prefix that [parse_marked] skips before a tag. *)
Definition skippable (b : list Z) : Prop := forall q a size e,
  deref q = Some a -> a <> 63 -> a <> 33 -> zlen b < size ->
  parse_marked (b ++ 60 :: q) size e = Some (At (60 :: q), Null).

(** The last round of [parse_marked]: blanks, then a tag. *)
Lemma marked_blank fuel pre b q a size e : blank b -> deref q = Some a -> a <> 63 -> a <> 33 ->
  zlen (pre ++ b) < size ->
  parse_marked_loop (S fuel) (pre ++ b ++ 60 :: q) (b ++ 60 :: q) size e = Some (At (60 :: q), Null).
Proof.
  intros Hb Hd H1 H2 Hs. rewrite zlen_app in Hs. pose proof (zlen_nonneg b). cbn [parse_marked_loop].
  unfold offset. rewrite !zlen_app.
  destruct (Z.ltb_spec (zlen pre + (zlen b + zlen (60 :: q)) - (zlen b + zlen (60 :: q))) size); [|lia].
  rewrite (first_valid_blank b (60 :: q) 60) by done.
  cbn [mbind option_bind deref head tail negb Z.eqb Pos.eqb].
  destruct (Z.leb_spec size (zlen pre + (zlen b + zlen (60 :: q)) - zlen (60 :: q))); [lia|].
  change (head q) with (deref q). rewrite Hd. cbn [mbind option_bind].
  destruct (Z.eqb_spec a 63); [done|]. destruct (Z.eqb_spec a 33); [done|done].
Qed.

Lemma blank_skippable b : blank b -> skippable b.
Proof. intros Hb q a size e Hd H1 H2 Hs. exact (marked_blank (length (b ++ 60 :: q)) [] b q a size e Hb Hd H1 H2 Hs). Qed.

Lemma strstr_decl h r : Forall (fun c => c <> 63 /\ c <> 0) h ->
  strstr (h ++ chars "?>" ++ r) (chars "?>") = Some (Some (chars "?>" ++ r)).
Proof.
  induction 1 as [|c h [Hc H0] _ IH]; [done|]. cbn [app strstr].
  change (chars "?>") with [63; 62]. cbn [starts_with deref head mbind option_bind].
  destruct (Z.eqb_spec c 63); [done|]. cbn [mbind option_bind]. destruct (Z.eqb_spec c 0); [done|]. exact IH.
Qed.

(** A declaration [<? ... ?>] and blanks. *)
Lemma decl_skippable h b : Forall (fun c => c <> 63 /\ c <> 0) h -> blank b ->
  skippable (chars "<?" ++ h ++ chars "?>" ++ b).
Proof.
  intros Hh Hb q a size e Hd H1 H2 Hs. unfold parse_marked. rewrite !zlen_app in Hs.
  change (zlen (chars "<?")) with 2 in Hs. change (zlen (chars "?>")) with 2 in Hs.
  pose proof (zlen_nonneg h). pose proof (zlen_nonneg b).
  set (txt := (chars "<?" ++ h ++ chars "?>" ++ b) ++ 60 :: q).
  assert (txt = 60 :: 63 :: h ++ chars "?>" ++ b ++ 60 :: q) as Et by (unfold txt; by rewrite <- !app_assoc).
  clearbody txt. assert (exists n, length txt = S n) as [n Hn] by (rewrite Et; simpl; eauto).
  rewrite Hn. remember (S n) as f. cbn [parse_marked_loop]. unfold offset at 1. rewrite Z.sub_diag.
  destruct (Z.ltb_spec 0 size); [|lia]. rewrite (first_valid_id txt 60) by (rewrite ?Et; done).
  cbn [mbind option_bind]. assert (deref txt = Some 60) as -> by (by rewrite Et).
  cbn [mbind option_bind negb Z.eqb Pos.eqb]. unfold offset at 1. rewrite Z.sub_diag.
  destruct (Z.leb_spec size 0); [lia|].
  assert (deref (tail txt) = Some 63) as -> by (by rewrite Et). cbn [mbind option_bind Z.eqb Pos.eqb].
  assert (drop 2 txt = h ++ chars "?>" ++ b ++ 60 :: q) as -> by (by rewrite Et).
  rewrite strstr_decl by done. cbn [mbind option_bind]. unfold offset at 1.
  assert (zlen txt = 2 + zlen h + zlen (chars "?>" ++ b ++ 60 :: q)) as Lt.
  { rewrite Et, !zlen_cons, zlen_app. lia. }
  destruct (Z.leb_spec size (zlen txt - zlen (chars "?>" ++ b ++ 60 :: q))); [lia|].
  change (drop 2 (chars "?>" ++ ?r)) with (drop 0 r). rewrite drop_0. subst f.
  replace txt with ((chars "<?" ++ h ++ chars "?>") ++ b ++ 60 :: q) by (rewrite Et, <- !app_assoc; done).
  apply (marked_blank n _ b q a size); [done..|]. rewrite !zlen_app.
  change (zlen (chars "<?")) with 2. change (zlen (chars "?>")) with 2. lia.
Qed.

Lemma read_head_ok b name q size st : skippable b -> name_ok tag_char name -> stops q -> zlen b < size ->
  read_head code (b ++ 60 :: name ++ q) size st = Some (HeadName q name, Out (parse_end st) Null).
Proof.
  intros Hb Hn Hq Hs. destruct (name_tag_key _ Hn) as (Hne&Hks&_). destruct name as [|a s] eqn:En; [done|].
  rewrite <- En in *. assert (key_char a = true) as Ha by (rewrite En in Hks; by inversion_clear Hks).
  destruct (key_char_range a Ha) as (?&?&?&?&?&?&?&?). pose proof (zlen_nonneg b).
  assert (deref (name ++ q) = Some a) as Hd by (by rewrite En).
  unfold read_head. rewrite (Hb _ a) by done. cbn [mbind option_bind].
  unfold _is_mark_start. cbn [deref head tail mbind option_bind Z.eqb Pos.eqb].
  change (head (name ++ q)) with (deref (name ++ q)). rewrite Hd. cbn [mbind option_bind].
  destruct (Z.eqb_spec a 47); [lia|]. rewrite (first_valid_id _ a) by (done || lia). cbn [mbind option_bind].
  rewrite Hd. cbn [mbind option_bind]. destruct (Z.eqb_spec a 62); [lia|]. destruct (Z.eqb_spec a 60); [lia|].
  destruct (Z.eqb_spec a 34); [lia|]. destruct (Z.eqb_spec a 47); [lia|]. cbn [orb].
  unfold alloc_xml. destruct (malloc_ok sizeof_ndxml) as [m ->].
  rewrite (read_name_ok code name q) by (by apply name_tag_key || done). cbn [mbind option_bind].
  assert (0 < zlen name) by (rewrite En, zlen_cons; pose proof (zlen_nonneg s); lia).
  destruct (Z.leb_spec (zlen name) 0); [lia|].
  assert (drop (Z.to_nat (zlen name)) (name ++ q) = q) as -> by (unfold zlen; by rewrite Nat2Z.id, drop_app_length).
  done.
Qed.

(** ** The value of a node *)

Lemma escape_first w cs p : Forall (char_ok code) (w :: cs) -> value_kept (w :: cs) [] ->
  exists c, deref (escape (w :: cs) ++ p) = Some c /\ 0x20 < c /\ c <> 60.
Proof.
  intros Hc Hv. inversion_clear Hc as [|?? Hw _]. rewrite escape_cons, <- app_assoc.
  destruct (char_cases _ _ Hw) as [(c&e&->&E&->)|(c&t&->&E&->)].
  - exists 38. by destruct (read_entity c e (escape cs ++ p) [] 0 E) as (->&_).
  - exists c. destruct (entity_None c E) as (?&?&?&?&?). unfold value_kept in Hv. cbn [concat app] in Hv.
    destruct Hv. done.
Qed.

Lemma read_value_ok cs name attrs p st : text_fits code cs -> name_ok tag_char name ->
  exists x st', read_value code (escape cs ++ closing name ++ p) name attrs st =
      Some (Some x, set_end (At p) st') /\
    exists v z, x = Ndxml name (Some v) z attrs [] /\ until_nul v = raw cs.
Proof.
  intros [Hc Hl] Hn. unfold read_value, _xml_get_value_size, _xml_read_value.
  assert (closing name ++ p = 60 :: 47 :: name ++ chars ">" ++ p) as Eq by (unfold closing; by rewrite <- !app_assoc).
  set (q := closing name ++ p) in *.
  pose proof (value_size_ok code cs Hc (length (escape cs ++ q)) (name ++ chars ">" ++ p) 0) as S.
  rewrite <- Eq in S. rewrite S by (rewrite length_app; simpl; lia). clear S. cbn [mbind option_bind].
  rewrite Z.add_0_l. unfold value_block_size. pose proof (round4_bounds (zlen (raw cs) + 8)).
  destruct (malloc_ok (round4 (zlen (raw cs) + 8))) as [blk Eb]. rewrite Eb.
  pose proof (malloc_length _ _ Eb) as Lb. pose proof (zlen_nonneg (raw cs)).
  pose proof (value_ok code cs Hc (length (escape cs ++ q)) (name ++ chars ">" ++ p) [] blk) as V.
  rewrite <- Eq in V. change (zlen []) with 0 in V. cbn [app] in V.
  rewrite V; [|rewrite length_app; simpl; lia|lia]. clear V. cbn [mbind option_bind]. rewrite Z.add_0_l.
  rewrite mset_drop by (rewrite zlen_drop; unfold zlen in *; lia). cbn [mbind option_bind].
  set (v := raw cs ++ 0 :: _).
  unfold q. rewrite (read_end_ok code (Ndxml name (Some v) _ attrs []) p) by done.
  eexists _, _. split; [done|]. exists v, (round4 (zlen (raw cs) + 8)). split; [done|].
  apply until_nul_app. by apply text_nonzero.
Qed.

(** ** Nodes *)

Section Layout.
Context (ind : nat -> list Z) (sep : list Z) (ind_blank : forall d, blank (ind d)) (sep_blank : blank sep).

(** A printed node without its indentation. *)
Definition core (deep : nat) (n : node) : list Z :=
  let '(Node name attrs value subs) := n in
  60 :: name ++ concat (map render_attr attrs) ++
  match value, subs with
  | _ :: _, _ => 62 :: escape value ++ closing name ++ sep
  | [], _ :: _ => 62 :: sep ++ concat (map (render ind sep (S deep)) subs) ++ ind deep ++ closing name ++ sep
  | [], [] => 47 :: 62 :: sep
  end.

Lemma render_core deep n : render ind sep deep n = ind deep ++ core deep n.
Proof.
  destruct n as [name attrs value subs]. cbn [render core]. unfold closing.
  destruct value; [destruct subs|]; rewrite <- ?app_assoc; done.
Qed.

Lemma core_head deep n p : exists t, core deep n ++ p = 60 :: t.
Proof. destruct n as [name attrs value subs]. cbn [core app]. eauto. Qed.
Lemma core_no_mark deep n p : wf_node code n -> _is_mark_start (core deep n ++ p) = Some false.
Proof.
  intros Hw. destruct n as [name attrs value subs]. inversion_clear Hw as [? ? ? ? Hn _ _ _ _].
  destruct Hn as (?&Hs&_). destruct name as [|a s]; [done|]. inversion_clear Hs as [|?? Ha _].
  destruct (key_char_range a (tag_key a Ha)) as (?&?&?&?&_).
  cbn [core app]. unfold _is_mark_start. cbn [deref head tail mbind option_bind Z.eqb Pos.eqb].
  destruct (Z.eqb_spec a 47); [lia|done].
Qed.

(** The parser reads the printed node [n], after a prefix it skips, and stops behind its
    last tag. *)
Definition reads (n : node) : Prop := forall deep fuel b p size st, skippable b ->
  zlen (b ++ core deep n) <= size < 2 ^ 31 -> (2 * length (b ++ core deep n ++ p) + 1 <= fuel)%nat ->
  exists x e, parse_xmlbuf code buf0 fuel (b ++ core deep n ++ p) size st = Some (Some x, Out (At (sep ++ p)) e) /\
    shows x n.

Lemma blank_app b1 b2 : blank b1 -> blank b2 -> blank (b1 ++ b2).
Proof. intros. by apply Forall_app. Qed.

Lemma closing_valid b name p : blank b -> ndstr_first_valid (b ++ closing name ++ p) = Some (Some (closing name ++ p)).
Proof. intros Hb. by apply (first_valid_blank b (closing name ++ p) 60). Qed.

Lemma parse_subs_ok deep name attrs q n l : reads n -> Forall reads l -> Forall (wf_node code) (n :: l) ->
  name_ok tag_char name ->
  forall fuel xmlbuf size acc st paddr,
  paddr = core (S deep) n ++ concat (map (render ind sep (S deep)) l) ++ ind deep ++ closing name ++ q ->
  0 <= zlen xmlbuf - zlen paddr -> zlen xmlbuf - zlen q <= size < 2 ^ 31 -> (2 * length paddr + 2 <= fuel)%nat ->
  exists xs e, parse_subs code buf0 fuel xmlbuf paddr size name attrs acc st =
      Some (Some (Ndxml name None 0 attrs (acc ++ xs)), Out (At q) e) /\ Forall2 shows xs (n :: l).
Proof.
  intros Hn Hl. revert n Hn. induction Hl as [|m l Hm Hl IH];
    intros n Hn Hw Hname fuel xmlbuf size acc st paddr Ep Ho Hs Hf; inversion_clear Hw as [|?? Wn Wl].
  - destruct fuel as [|fuel]; [lia|]. rewrite parse_subs_S. unfold parse_sub.
    cbn [map concat app] in Ep. destruct (core_head (S deep) n (ind deep ++ closing name ++ q)) as [t Et].
    assert (deref paddr = Some 60) as -> by (by rewrite Ep, Et). cbn [mbind option_bind Z.eqb Pos.eqb].
    assert (zlen (core (S deep) n) <= zlen paddr - zlen q) as Hlen.
    { rewrite Ep, !zlen_app. pose proof (zlen_nonneg (ind deep)). pose proof (zlen_nonneg (closing name)). lia. }
    pose proof (zlen_nonneg q). pose proof (zlen_nonneg (core (S deep) n)). unfold offset.
    rewrite wraps_small by lia.
    destruct (Hn (S deep) fuel [] (ind deep ++ closing name ++ q) (size - (zlen xmlbuf - zlen paddr))
      (Out Wild (error_addr st))) as (x&e&E&Hx); [apply blank_skippable; constructor|cbn [app]; lia|cbn [app]; rewrite <- Ep; lia|].
    cbn [app] in E. rewrite <- Ep in E. rewrite E. cbn [mbind option_bind sub_failed parse_end error_addr at_].
    rewrite (app_assoc sep), closing_valid by (by apply blank_app). cbn [mbind option_bind].
    change (_is_mark_start (closing name ++ q)) with (Some true). cbn [mbind option_bind].
    rewrite (read_end_ok code (Ndxml name None 0 attrs (acc ++ [x])) q) by done.
    eexists [x], _. split; [done|by repeat constructor].
  - destruct fuel as [|fuel]; [lia|]. rewrite parse_subs_S. unfold parse_sub.
    inversion_clear Wl as [|?? Wm Wl']. cbn [map concat] in Ep. rewrite render_core, <- !app_assoc in Ep.
    set (p2 := core (S deep) m ++ concat (map (render ind sep (S deep)) l) ++ ind deep ++ closing name ++ q) in *.
    destruct (core_head (S deep) n (ind (S deep) ++ p2)) as [t Et].
    assert (deref paddr = Some 60) as -> by (by rewrite Ep, Et). cbn [mbind option_bind Z.eqb Pos.eqb].
    assert (zlen (core (S deep) n) + zlen p2 <= zlen paddr /\ zlen q <= zlen p2) as [Hlen Hp2].
    { rewrite Ep, !zlen_app. unfold p2. rewrite !zlen_app. pose proof (zlen_nonneg (ind deep)). pose proof (zlen_nonneg (closing name)).
      pose proof (zlen_nonneg (ind (S deep))). pose proof (zlen_nonneg (core (S deep) m)).
      pose proof (zlen_nonneg (concat (map (render ind sep (S deep)) l))). lia. }
    pose proof (zlen_nonneg q). assert (0 < zlen (core (S deep) n)).
    { destruct (core_head (S deep) n []) as [t' Et']. rewrite app_nil_r in Et'. rewrite Et', zlen_cons. pose proof (zlen_nonneg t'). lia. }
    unfold offset. rewrite wraps_small by lia.
    destruct (Hn (S deep) fuel [] (ind (S deep) ++ p2) (size - (zlen xmlbuf - zlen paddr))
      (Out Wild (error_addr st))) as (x&e&E&Hx); [apply blank_skippable; constructor|cbn [app]; lia|cbn [app]; rewrite <- Ep; lia|].
    cbn [app] in E. rewrite <- Ep in E. rewrite E. cbn [mbind option_bind sub_failed parse_end error_addr at_].
    rewrite (app_assoc sep). destruct (core_head (S deep) m (concat (map (render ind sep (S deep)) l) ++ ind deep ++ closing name ++ q)) as [t2 Et2].
    rewrite (first_valid_blank (sep ++ ind (S deep)) p2 60); [|by apply blank_app|unfold p2; by rewrite Et2|done].
    cbn [mbind option_bind].
    assert (_is_mark_start p2 = Some false) as -> by (by apply core_no_mark). cbn [mbind option_bind].
    destruct (IH m Hm (Forall_cons _ _ _ Wm Wl') Hname fuel xmlbuf size (acc ++ [x])
      (set_error e st) p2) as (xs&e2&->&Hxs); [done|lia|done|unfold zlen in *; lia|].
    exists (x :: xs), e2. rewrite <- app_assoc. split; [done|by constructor].
Qed.

Lemma read_node n : wf_node code n -> reads n.
Proof.
  induction n as [name attrs value subs IH] using node_ind'.
  intros Hw deep fuel b p size st Hb Hs Hf. pose proof Hw as Hw0.
  inversion_clear Hw as [? ? ? ? Hn Ha Hv Hk Hsub]. destruct fuel as [|fuel]; [lia|].
  rewrite parse_xmlbuf_S. unfold parse_node. set (rest := match value, subs with
    | _ :: _, _ => 62 :: escape value ++ closing name ++ sep
    | [], _ :: _ => 62 :: sep ++ concat (map (render ind sep (S deep)) subs) ++ ind deep ++ closing name ++ sep
    | [], [] => 47 :: 62 :: sep
    end).
  assert (core deep (Node name attrs value subs) ++ p = 60 :: name ++ concat (map render_attr attrs) ++ rest ++ p) as Ec.
  { cbn [core]. fold rest. cbn [app]. by rewrite <- !app_assoc. }
  assert (tag_end (rest ++ p)) as Ht.
  { unfold rest. destruct value; [destruct subs|]; eexists _, _; (split; [done|]); auto. }
  rewrite Ec. rewrite read_head_ok; [|done|done|by apply stops_attr|].
  2: { destruct (core_head deep (Node name attrs value subs) []) as [t Et]. rewrite app_nil_r in Et.
       rewrite Et, zlen_app, zlen_cons in Hs. pose proof (zlen_nonneg t). lia. }
  cbn [mbind option_bind].
  destruct (read_attrs_ok attrs Ha (length (concat (map render_attr attrs) ++ rest ++ p)) (rest ++ p) []
    (Out (parse_end st) Null) Ht) as (xa&e&f2&Hxa&Hf2&->).
  { rewrite length_app. destruct Ht as (?&?&->&_). simpl. lia. }
  cbn [app parse_end]. destruct f2 as [|f2]; [lia|].
  assert ((2 * length (rest ++ p) + 1 <= fuel)%nat) as Hfr.
  { rewrite Ec, length_app in Hf. simpl in Hf. rewrite !length_app in Hf. rewrite length_app. lia. }
  destruct value as [|w cs]; [destruct subs as [|n l]|].
  - unfold rest. cbn [app read_attrs deref head mbind option_bind Z.eqb].
    change (ndstr_first_valid (47 :: ?r)) with (Some (Some (47 :: r))). cbn [mbind option_bind].
    change (_is_mark_end (47 :: 62 :: ?r)) with (Some true). cbn [mbind option_bind drop set_end error_addr].
    rewrite drop_0. eexists _, _. split; [done|]. by constructor.
  - set (q := sep ++ p). inversion_clear IH as [|?? IHn IHl]. pose proof Hsub as Hsub'.
    inversion_clear Hsub' as [|?? Wn Wl].
    set (p2 := core (S deep) n ++ concat (map (render ind sep (S deep)) l) ++ ind deep ++ closing name ++ q).
    assert (rest ++ p = 62 :: (sep ++ ind (S deep)) ++ p2) as Er.
    { unfold rest. cbn [map concat app]. rewrite render_core. unfold p2, q. by rewrite <- !app_assoc. }
    rewrite Er in Hfr. rewrite Er in Ec. rewrite Er. cbn [read_attrs deref head mbind option_bind Z.eqb].
    change (ndstr_first_valid (62 :: ?r)) with (Some (Some (62 :: r))). cbn [mbind option_bind].
    change (_is_mark_end (62 :: ?r)) with (Some false). cbn [mbind option_bind deref head Z.eqb Pos.eqb tail].
    destruct (core_head (S deep) n (concat (map (render ind sep (S deep)) l) ++ ind deep ++ closing name ++ q)) as [t Et].
    fold p2 in Et. rewrite (first_valid_blank (sep ++ ind (S deep)) p2 60); [|by apply blank_app|by rewrite Et|done].
    cbn [mbind option_bind]. assert (_is_mark_start p2 = Some false) as -> by (by apply core_no_mark).
    cbn [mbind option_bind]. assert (deref p2 = Some 60) as -> by (by rewrite Et). cbn [mbind option_bind Z.eqb Pos.eqb].
    rewrite <- Ec. set (xmlbuf := b ++ core deep (Node name attrs [] (n :: l)) ++ p) in *.
    assert (zlen xmlbuf - zlen q <= size) as Hq by (unfold xmlbuf, q; rewrite !zlen_app in *; pose proof (zlen_nonneg sep); lia).
    assert (zlen p2 <= zlen xmlbuf) as Hp2.
    { unfold xmlbuf. rewrite Ec, zlen_app, zlen_cons, !zlen_app, zlen_cons, !zlen_app.
      pose proof (zlen_nonneg b). pose proof (zlen_nonneg name). pose proof (zlen_nonneg (concat (map render_attr attrs))).
      pose proof (zlen_nonneg sep). pose proof (zlen_nonneg (ind (S deep))). lia. }
    destruct (parse_subs_ok deep name xa q n l (IHn Wn)) with (fuel := fuel) (xmlbuf := xmlbuf) (size := size)
      (acc := @nil ndxml) (st := Out (parse_end st) e) (paddr := p2) as (xs&e2&->&Hxs); [|done|done|done|lia|lia| |].
    { clear - IHl Wl. induction IHl; inversion_clear Wl; constructor; auto. }
    { simpl in Hfr. rewrite length_app in Hfr. lia. }
    eexists _, _. split; [done|]. by constructor.
  - unfold rest in *. cbn [app read_attrs deref head mbind option_bind Z.eqb].
    change (ndstr_first_valid (62 :: ?r)) with (Some (Some (62 :: r))). cbn [mbind option_bind].
    change (_is_mark_end (62 :: ?r)) with (Some false). cbn [mbind option_bind deref head Z.eqb Pos.eqb tail].
    rewrite <- app_assoc, <- app_assoc.
    destruct (escape_first w cs (closing name ++ sep ++ p) (proj1 Hv)) as (c&Hc&?&?).
    { unfold value_kept in *. destruct (concat (w :: cs)); [done|]. by destruct Hk. }
    rewrite (first_valid_id _ c) by done. cbn [mbind option_bind]. unfold _is_mark_start.
    rewrite Hc. cbn [mbind option_bind]. destruct (Z.eqb_spec c 60); [done|]. cbn [mbind option_bind].
    destruct (read_value_ok (w :: cs) name xa (sep ++ p) (Out (parse_end st) e) Hv Hn) as (x&st'&->&v&z&->&Ev).
    eexists _, _. split; [done|]. unfold value_kept in Hk. destruct (raw (w :: cs)) eqn:Er.
    { by apply (raw_nil code _ (proj1 Hv)) in Er. }
    destruct Hk as [_ ->]. constructor; [|done|done]. simpl value_text. congruence.
Qed.
End Layout.
End Reader.

(** ** Round trip through a buffer *)

Lemma char_nonzero code w : char_ok code w -> Forall (fun b => b <> 0) (escape_char w).
Proof.
  intros Hw. destruct (char_cases _ _ Hw) as [(c&e&->&E&->)|(c&t&->&E&->)].
  - destruct (entity_inv _ _ E) as [[-> ->]|[[-> ->]|[[-> ->]|[[-> ->]|[-> ->]]]]]; repeat constructor; done.
  - apply ctext_nonzero. by destruct (char_ok_pos _ _ Hw).
Qed.
Lemma escape_nonzero code cs : Forall (char_ok code) cs -> Forall (fun b => b <> 0) (escape cs).
Proof.
  induction 1 as [|w cs Hw _ IH]; [done|]. rewrite escape_cons. apply Forall_app. split; [by eapply char_nonzero|done].
Qed.
Lemma name_nonzero ok s : (forall a, ok a = true -> key_char a = true) -> name_ok ok s -> Forall (fun b => b <> 0) s.
Proof.
  intros Hk (_&Hs&_). eapply Forall_impl; [|exact Hs]. intros a Ha. pose proof (key_char_range a (Hk a Ha)). lia.
Qed.

Lemma render_nonzero code ind sep : (forall d, blank (ind d)) -> blank sep -> forall n, wf_node code n ->
  forall deep, Forall (fun b => b <> 0) (render ind sep deep n).
Proof.
  intros Hi Hs. assert (forall b, blank b -> Forall (fun c => c <> 0) b) as Hb.
  { intros b. apply Forall_impl. lia. }
  induction n as [name attrs value subs IH] using node_ind'. intros Hw deep.
  inversion_clear Hw as [? ? ? ? Hn Ha Hv _ Hsub].
  assert (Forall (fun b => b <> 0) name) as Hname by (by eapply name_nonzero; [apply tag_key|]).
  assert (Forall (fun b => b <> 0) (concat (map render_attr attrs))) as Hattrs.
  { clear - Ha. induction Ha as [|[k v] attrs [Hk [Hv _]] _ IH]; [done|]. cbn [map concat fst snd] in *.
    unfold render_attr. cbn [fst snd]. rewrite !Forall_app. split_and!; try done; try (by repeat constructor).
    - by eapply name_nonzero; [|exact Hk].
    - by eapply escape_nonzero. }
  assert (Forall (fun b => b <> 0) (concat (map (render ind sep (S deep)) subs))) as Hsubs.
  { clear - IH Hsub. induction IH as [|n subs Hn _ IHs]; inversion_clear Hsub as [|?? Wn Ws]; [done|].
    cbn [map concat]. apply Forall_app. split; auto. }
  cbn [render]. rewrite !Forall_app. split_and!; auto; [by repeat constructor|].
  destruct value as [|w cs]; [destruct subs|]; rewrite ?Forall_app; split_and!; auto; try (by repeat constructor).
  by eapply escape_nonzero, (proj1 Hv).
Qed.

Section RoundTrip.
Context `{!Malloc} (malloc_ok : forall n, is_Some (malloc n)) (code : Z).
Context (buf0 : mem) (buf0_len : zlen buf0 = 4096) (textBuf : mem) (textBuf_len : zlen textBuf = 4096).

Lemma emit_first s b blk size : s <> [] -> zlen s < size <= zlen blk + 1 ->
  emit s (b :: blk, 0, size) = emit s (0 :: blk, 0, size).
Proof.
  intros Hne Hs. unfold emit, snprintf. pose proof (zlen_nonneg s). destruct (Z.eqb_spec size 0); [lia|].
  assert (slice 0 (size - 1) s = s) as ->.
  { unfold slice. rewrite drop_0, take_ge; [done|]. unfold zlen in *. lia. }
  assert (forall c, mwrite (c :: blk) 0 (s ++ [0]) = Some ((s ++ [0]) ++ drop (length (s ++ [0])) (c :: blk))) as W.
  { intros c. pose proof (mwrite_drop [] (c :: blk) (s ++ [0])) as W. change (zlen []) with 0 in W. cbn [app] in W.
    apply W. rewrite zlen_app, !zlen_cons, zlen_nil. lia. }
  rewrite !W. rewrite length_app, Nat.add_1_r. done.
Qed.

(** A node printed into a buffer: the whole block afterwards. *)
Lemma tobuf_block x n buf size : shows x n -> wf_node code n ->
  zlen (render_buf n) < size <= zlen buf -> size < 2 ^ 31 ->
  xml_tobuf code textBuf x buf 0 size =
  Some (render_buf n ++ 0 :: drop (length (render_buf n) + 1) buf, zlen (render_buf n)).
Proof.
  intros Hx Hw Hs Hz. destruct buf as [|b blk].
  { rewrite zlen_nil in Hs. pose proof (zlen_nonneg (render_buf n)). lia. }
  rewrite zlen_cons in Hs. pose proof (xml_tobuf_ok code textBuf textBuf_len n x Hx (wf_printable _ _ Hw) 0 [] blk size) as E.
  change (zlen []) with 0 in E. cbn [app] in E. rewrite Nat.add_1_r. cbn [drop]. rewrite <- E by (split; lia).
  inversion Hx as [name v vs a s attrs' value' subs' Hv Ha Hsub]; subst. rewrite !xml_tobuf_eq.
  assert (zlen (chars "<" ++ name) <= zlen (render_buf (Node name attrs' value' subs'))) as Hn.
  { cbn [render]. rewrite app_nil_l, (app_assoc (chars "<")), (zlen_app (chars "<" ++ name)).
    match goal with |- _ <= _ + zlen ?y => pose proof (zlen_nonneg y) end. lia. }
  by rewrite (emit_first _ b) by (done || lia).
Qed.

Lemma from_text_ok n p : wf_node code n -> zlen (render_buf n) < 2 ^ 31 ->
  exists y e, ndxml_from_text code buf0 (render_buf n ++ 0 :: p) = Some (Some y, Out (At (32 :: 0 :: p)) e) /\ shows y n.
Proof.
  intros Hw Hl. assert (blank [32]) as Hb by (by repeat constructor).
  assert (forall d : nat, blank []) as Hi by (by constructor).
  unfold ndxml_from_text. rewrite until_nul_app by (by apply (render_nonzero code _ _ Hi Hb)).
  pose proof (zlen_nonneg (render_buf n)). rewrite wraps_small by lia.
  pose proof (read_node malloc_ok code buf0 buf0_len (fun _ => []) [32] Hi Hb n Hw 0%nat) as R.
  pose proof (render_core (fun _ => []) [32] 0 n) as Ec. cbn [app] in Ec. rewrite Ec in *.
  set (c := core _ _ _ _) in *.
  destruct (R (2 * length (c ++ 0%Z :: p) + 2)%nat [] (0 :: p) (zlen c) (Out Wild Wild))
    as (y&e&E&Hy); [apply blank_skippable; constructor|cbn [app]; lia|cbn [app]; lia|].
  exists y, e. split; [exact E|done].
Qed.
End RoundTrip.

(** C13: a node whose names are XML names of at most 63 characters and whose
    texts fit in the 4 KB scratch buffer is printed by [ndxml_to_buf] into any
    buffer with room for it: the result is the length of the text, nothing is
    stored behind the terminator, and [ndxml_from_text] applied to the buffer
    gives a node with the same name, the same attributes in the same order, the
    same value and, at every depth, the same children. *)
Theorem xml_buf_roundtrip `{!Malloc} code buf0 textBuf x n buf size :
  (forall n, is_Some (malloc n)) -> zlen buf0 = 4096 -> zlen textBuf = 4096 ->
  shows x n -> wf_node code n -> zlen (render_buf n) < size <= zlen buf -> size < 2 ^ 31 ->
  exists buf' y o, ndxml_to_buf code textBuf x buf 0 size = Some (buf', zlen (render_buf n)) /\
    zlen buf' = zlen buf /\ until_nul buf' = render_buf n /\
    drop (length (render_buf n) + 1) buf' = drop (length (render_buf n) + 1) buf /\
    ndxml_from_text code buf0 buf' = Some (Some y, o) /\ shows y n.
Proof.
  intros Hm H0 Ht Hx Hw Hs Hz.
  assert (ndxml_to_buf code textBuf x buf 0 size = xml_tobuf code textBuf x buf 0 size) as ->.
  { unfold ndxml_to_buf. destruct Hx as [name ? ? ? ? ? ? ? ? ? ?]. inversion_clear Hw as [? ? ? ? (Hne&_) _ _ _ _].
    by destruct name. }
  rewrite (tobuf_block code buf0 textBuf Ht x n buf size Hx Hw Hs Hz).
  destruct (from_text_ok Hm code buf0 H0 n (drop (length (render_buf n) + 1) buf) Hw) as (y&e&E&Hy); [lia|].
  eexists _, y, _. split_and!; [done| | | |exact E|done].
  - rewrite zlen_app, zlen_cons, zlen_drop; unfold zlen in *; lia.
  - apply until_nul_app. apply (render_nonzero code); [by constructor|by repeat constructor|done].
  - rewrite drop_app_ge by lia. replace (length (render_buf n) + 1 - length (render_buf n))%nat with 1%nat by lia. done.
Qed.

(** ** A concrete node *)

Definition singles (s : string) : list (list Z) := map (fun c => [c]) (chars s).
Definition node_ex : node :=
  Node (chars "cfg") [(chars "k.1", singles "a<'b'")] []
    [Node (chars "v") [] (singles "x & y") []; Node (chars "w") [(chars "e", [])] [] []].
Definition xml_ex : ndxml :=
  Ndxml (chars "cfg") None 0 [attr_ex "k.1" "a<'b'"]
    [Ndxml (chars "v") (Some (lit "x & y")) 8 [] []; Ndxml (chars "w") None 0 [attr_ex "e" ""] []].

Lemma xml_ex_shows : shows xml_ex node_ex.
Proof.
  constructor; [reflexivity| |].
  - repeat constructor.
  - constructor; [by constructor; [reflexivity| |]|]. constructor; [|done].
    constructor; [reflexivity|by repeat constructor|done].
Qed.
Lemma node_ex_wf : wf_node 2 node_ex.
Proof.
  assert (forall s, forallb (fun c => (0 <? c) && (c <=? 0x80)) (chars s) = true -> Forall (char_ok 2) (singles s)) as Hc.
  { intros s E. unfold singles. induction (chars s) as [|c l IH]; [done|]. cbn [forallb map] in *.
    apply andb_true_iff in E as [E1 E2]. apply andb_true_iff in E1 as [?%Z.ltb_lt ?%Z.leb_le].
    constructor; [|by apply IH]. split; [by repeat constructor; lia|]. by rewrite word_len_ascii. }
  constructor.
  - split_and!; [done|by repeat constructor|done].
  - constructor; [|done]. split; [split_and!; [done|by repeat constructor|done]|]. split; [by apply Hc|done].
  - split; [done|done].
  - done.
  - repeat constructor; try done; try (by apply (Hc "x & y"%string)).
Qed.

Lemma xml_buf_roundtrip_witness :
  exists buf' y o, ndxml_to_buf 2 (zrepeat 7 4096) xml_ex (zrepeat 9 200) 0 200 = Some (buf', 65) /\
    zlen buf' = 200 /\
    until_nul buf' = chars "<cfg k.1=" ++ [34] ++ chars "a&lt;&apos;b&apos;" ++ [34] ++ chars "> <v>x &amp; y</v> <w e=" ++ [34; 34] ++ chars "/> </cfg> " /\
    drop 66 buf' = drop 66 (zrepeat 9 200) /\
    ndxml_from_text 2 (zrepeat 5 4096) buf' = Some (Some y, o) /\ shows y node_ex.
Proof.
  apply (xml_buf_roundtrip 2 (zrepeat 5 4096) (zrepeat 7 4096) xml_ex node_ex (zrepeat 9 200) 200);
    [apply malloc_zero_ok|reflexivity|reflexivity|apply xml_ex_shows|apply node_ex_wf|vm_compute; split; [reflexivity|discriminate]|reflexivity].
Defined.

(** ** Texts that break off *)

(** when the text ends behind a well-formed opening tag, or behind its name
    and a blank, the parser reports no error: for every amount of fuel and every
    size it dereferences the NULL pointer of [ndstr_first_valid]. *)
Theorem xml_unclosed_crash `{!Malloc} code buf0 name c tl fuel size st :
  (forall n, is_Some (malloc n)) -> name_ok tag_char name -> c = 62 \/ c = 32 -> 0 < size ->
  parse_xmlbuf code buf0 fuel (60 :: name ++ c :: 0 :: tl) size st = None.
Proof.
  intros Hm Hn Hc Hs. destruct fuel as [|fuel]; [done|]. rewrite parse_xmlbuf_S. unfold parse_node.
  assert (skippable []) as Hb by (apply blank_skippable; constructor).
  assert (stops (c :: 0 :: tl)) as Hst by (exists c; by destruct Hc as [-> | ->]).
  pose proof (read_head_ok Hm code [] name _ size st Hb Hn Hst Hs) as R. cbn [app] in R. rewrite R.
  cbn [mbind option_bind]. by destruct Hc as [-> | ->].
Qed.

Lemma xml_unclosed_crash_witness :
  parse_xmlbuf 2 (zrepeat 5 4096) 100 (60 :: chars "root" ++ 62 :: 0 :: [97]) 6 (Out Wild Wild) = None.
Proof.
  apply (xml_unclosed_crash 2 (zrepeat 5 4096) (chars "root") 62 [97] 100 6 (Out Wild Wild));
    [apply malloc_zero_ok|split_and!; [done|by repeat constructor|done]|by left|lia].
Defined.
