(* ===== verification/XmlLoad.v ===== *)
(** * XmlLoad: loading and saving XML documents (nd_xml.c, l.222-330, 404-560)

    A document is a root without a name: its attributes are those of the
    declaration [<?xml ... ?>], its children the top-level nodes.  The character
    encoding in force is passed around.  The conversions between encodings call
    the iconv library, which is a parameter. *)

From S2P Require Import Prelude Bytes Str XmlText XmlParse XmlWrite XmlAttr XmlRound.
From Stdlib Require Import Strings.String Lists.List.

(** ** Encodings (nd_str.c, nd_iconv.c) *)

Definition nd_get_encode_name (encode_type : Z) : string :=
  if encode_type =? E_SRC_CODE_GBK then "gbk"
  else if encode_type =? E_SRC_CODE_UTF_8 then "utf8" else "ansi".

(** The comparisons stop at the first that succeeds. *)
Fixpoint is_one_of (s : list Z) (l : list string) : option bool :=
  match l with
  | [] => Some false
  | n :: l => r ← ndstricmp (s ++ [0]) (lit n); if r =? 0 then Some true else is_one_of s l
  end.
Definition nd_get_encode_val (encodeText : list Z) : option Z :=
  g ← is_one_of encodeText ["gbk"; "gb2312"; "gb-2312"]%string;
  if g : bool then Some E_SRC_CODE_GBK
  else
    u ← is_one_of encodeText ["utf8"; "utf-8"]%string;
    Some (if u : bool then E_SRC_CODE_UTF_8 else E_SRC_CODE_ANSI).

Inductive converter := gbk_to_utf8 | utf8_to_gbk.

Definition nd_get_code_convert (fromType toType : Z) : option converter :=
  if (toType =? E_SRC_CODE_UTF_8) && negb (fromType =? E_SRC_CODE_UTF_8) then Some gbk_to_utf8
  else if negb (toType =? E_SRC_CODE_UTF_8) && (fromType =? E_SRC_CODE_UTF_8) then Some utf8_to_gbk
  else None.

Section Load.
Context `{!Malloc}.
(** [iconv c text n]: the bytes [iconv] stores for the text in a buffer of [n]
    bytes, or [None] when it fails. *)
Context (iconv : converter -> list Z -> Z -> option (list Z)).
Context (buf0 : mem).

(** [code_convert]: the buffer is cleared, then filled. *)
Definition code_convert (c : converter) (inbuf : list Z) (outlen : Z) : option mem :=
  match iconv c inbuf outlen with
  | Some out => mwrite (zrepeat 0 outlen) 0 out
  | None => None
  end.

Record ndxml_root := Root { r_attrs : list ndxml_attr; r_subs : list ndxml }.
Definition ndxml_initroot : ndxml_root := Root [] [].

(** ** The declaration *)

(** Each round moves [p] on; [None] also for a word or a value that overruns its
    buffer of 64 or 1024 bytes. *)
Fixpoint fileinfo_loop (fuel : nat) (code : Z) (p pEnd : cstr) (attrs : list ndxml_attr)
    : option (Z * list ndxml_attr) :=
  if zlen pEnd <? zlen p then
    match fuel with
    | O => None
    | S fuel =>
        q ← ndstr_first_valid p;
        p ← q;                               (* NULL is dereferenced *)
        '(q, attr_name) ← ndstr_parse_word code p;
        if MAX_XMLNAME_SIZE <? zlen attr_name then None
        else
          match until_nul attr_name with
          | [] => Some (0, attrs)
          | name =>
              p ← q;
              g ← strchr p _ND_QUOT;
              match g with
              | None => Some (-1, attrs)
              | Some p =>
                  '(p, val) ← ndstr_str_end code (tail p) _ND_QUOT;
                  if 1024 <? zlen val then None
                  else
                    a ← alloc_attrib_node name (until_nul val);
                    fileinfo_loop fuel code (tail p) pEnd
                      (match a with Some a => attrs ++ [a] | None => attrs end)
              end
          end
    end
  else Some (0, attrs).

(** The result and the attributes of the root; the addresses it also reports are
    not used by its callers. *)
Definition xml_parse_fileinfo (code : Z) (start : cstr) : option (Z * list ndxml_attr) :=
  p ← ndstr_first_valid start;
  match p with
  | None => Some (-1, [])
  | Some p =>
      p ← strstr p (chars "<?");
      match p with
      | None => Some (0, [])
      | Some p =>
          p ← strstr p (chars "xml");
          match p with
          | None => Some (0, [])
          | Some p =>
              let p := drop 3 p in
              e ← strstr p (chars "?>");
              match e with
              | None => Some (-1, [])
              | Some pEnd => fileinfo_loop (length p) code p pEnd []
              end
          end
      end
  end.

(** ** The nodes of a document *)

(** How the loop of [xml_load_from_buf] goes on; [LoadFuel] is a loop that has
    not ended within the fuel. *)
Inductive load_end := LoadOk (subs : list ndxml) | LoadError | LoadFuel.

Fixpoint load_loop (fuel : nat) (code : Z) (p : cstr) (data_len : Z) (subs : list ndxml) (error : ptr)
    : option load_end :=
  match fuel with
  | O => Some LoadFuel
  | S fuel =>
      q ← ndstr_first_valid p;
      match q with
      | None => Some (LoadOk subs)
      | Some p =>
          '(x, o) ← parse_xmlbuf code buf0 (2 * length p + 2) p data_len (Out (At p) error);
          failed ← (match x with Some _ => Some false | None => e ← is_null (error_addr o); Some (negb e) end);
          if failed : bool then Some LoadError
          else
            let subs := match x with Some x => subs ++ [x] | None => subs end in
            match parse_end o with
            | Wild => None
            | Null => Some (LoadOk subs)
            | At p =>
                c ← deref p;
                if c =? 0 then Some (LoadOk subs)
                else load_loop fuel code p data_len subs (error_addr o)
            end
      end
  end.

(** The root afterwards and the result; a syntax error destroys the root. *)
Definition xml_load_from_buf (fuel : nat) (code : Z) (buf : cstr) (size : Z) (root : ndxml_root)
    : option (option (ndxml_root * Z)) :=
  r ← load_loop fuel code buf (s32 size) (r_subs root) Null;
  Some (match r with
  | LoadOk subs => Some (Root (r_attrs root) subs, 0)
  | LoadError => Some (ndxml_initroot, -1)
  | LoadFuel => None
  end).

Definition xml_set_code_type (code : Z) (root : ndxml_root) : option (Z * Z) :=
  p ← ndxml_getattr_val (r_attrs root) (chars "encoding");
  match p with
  | Some p => v ← nd_get_encode_val p; Some (ndstr_set_code code v)
  | None => Some (-1, code)
  end.

(** The encoding in force afterwards, the root and the result. *)
Definition ndxml_load_from_buf (fuel : nat) (code : Z) (buf : cstr) (size : Z) (toEncodeType : option (list Z))
    : option (option (Z * ndxml_root * Z)) :=
  '(r, attrs) ← xml_parse_fileinfo code buf;
  let root := Root attrs [] in
  if r =? -1 then Some (Some (code, ndxml_initroot, -1))
  else
    e ← ndxml_getattr_val attrs (chars "encoding");
    (* the text to parse, its size, the root, the old encoding or -1, the new one; or failure *)
    s ←
      (match e with
       | None => Some (Some (buf, size, root, -1, code))
       | Some pTextEncode =>
           match toEncodeType with
           | Some (c :: to) =>
               nTextType ← nd_get_encode_val pTextEncode;
               nNeedType ← nd_get_encode_val (c :: to);
               match nd_get_code_convert nTextType nNeedType with
               | Some func =>
                   match malloc (size * 2) with
                   | None => Some None
                   | Some _ =>
                       match code_convert func (until_nul buf) (s32 size * 2) with
                       | None => Some None
                       | Some out =>
                           '(attrs, _) ← ndxml_setattrval attrs (Some (chars "encoding")) (Some (c :: to));
                           let '(old, code) := ndstr_set_code code nNeedType in
                           Some (Some (out, zlen (until_nul out), Root attrs [], old, code))
                       end
                   end
               | None =>
                   let '(old, code) := ndstr_set_code code nNeedType in
                   Some (Some (buf, size, root, old, code))
               end
           | _ => '(old, code) ← xml_set_code_type code root; Some (Some (buf, size, root, old, code))
           end
       end);
    match s with
    | None => Some (Some (code, root, -1))
    | Some (pBuf, size, root, codeType, code) =>
        l ← xml_load_from_buf fuel code pBuf size root;
        match l with
        | None => Some None
        | Some (root, ret) =>
            let code := if negb (codeType =? -1) then (ndstr_set_code code codeType).2 else code in
            Some (Some (code, root, ret))
        end
    end.
End Load.

(** ** Saving *)

(** The header [ndxml_save] prints for the attributes of the root; values are
    not escaped.  [dflt] is the one of the platform. *)
Fixpoint save_attrs (attrs : list ndxml_attr) (st : mem * Z * Z) : option (mem * Z * Z) :=
  match attrs with
  | [] => Some st
  | a :: attrs =>
      st ← emit (chars " " ++ attr_name a ++ chars "=" ++ [_ND_QUOT] ++ attr_val a ++ [_ND_QUOT]) st;
      save_attrs attrs st
  end.
Definition ndxml_save (code : Z) (textBuf buf : mem) (dflt : list Z) (root : ndxml_root) : option (list Z) :=
  m ← mset buf 0 0;
  '(m, p, bufsize) ← save_attrs (r_attrs root) (m, 0, 4096);
  '(m, _, _) ← (if match until_nul m with [] => true | _ => false end then emit dflt (m, p, bufsize) else Some (m, p, bufsize));
  ndxml_save_ex code textBuf (Ndxml [] None 0 (r_attrs root) (r_subs root)) (until_nul m).

(** ** Properties *)

(** Loading leaves the encoding as it found it. *)
Lemma load_keeps_code `{!Malloc} iconv buf0 fuel code buf size to code' root ret : code <> -1 ->
  ndxml_load_from_buf iconv buf0 fuel code buf size to = Some (Some (code', root, ret)) -> code' = code.
Proof.
  intros Hc E. unfold ndxml_load_from_buf in E. apply bind_Some in E as ([r attrs]&_&E).
  destruct (r =? -1); [by simplify_eq|]. apply bind_Some in E as (e&_&E).
  apply bind_Some in E as (s&Hs&E). destruct s as [[[[[pBuf size'] root'] codeType] code2]|]; [|by simplify_eq].
  assert (codeType = code \/ codeType = -1 /\ code2 = code) as Hk.
  { destruct e as [enc|]; [|simplify_eq; by right].
    assert (forall m, ('(old, code0) ← m; Some (Some (buf, size, Root attrs [], old, code0))) =
        Some (Some (pBuf, size', root', codeType, code2)) ->
      (forall o c, m = Some (o, c) -> o = code \/ o = -1 /\ c = code) -> codeType = code \/ codeType = -1 /\ code2 = code) as K.
    { intros [[o c]|] Em Hm; [|done]. simplify_eq/=. by apply Hm. }
    assert (forall o c, xml_set_code_type code (Root attrs []) = Some (o, c) -> o = code \/ o = -1 /\ c = code) as Hx.
    { intros o c Hx. unfold xml_set_code_type in Hx. apply bind_Some in Hx as ([p|]&_&Hx); [|simplify_eq; by right].
      apply bind_Some in Hx as (v&_&Hx). unfold ndstr_set_code in Hx. simplify_eq. by left. }
    destruct to as [[|c0 to]|]; [by eapply K| |by eapply K].
    apply bind_Some in Hs as (t1&_&Hs). apply bind_Some in Hs as (t2&_&Hs).
    destruct (nd_get_code_convert t1 t2); [|unfold ndstr_set_code in Hs; simplify_eq; by left].
    destruct (malloc _); [|done]. destruct (code_convert _ _ _ _); [|done].
    apply bind_Some in Hs as ([attrs2 ?]&_&Hs). unfold ndstr_set_code in Hs. simplify_eq. by left. }
  apply bind_Some in E as ([[root2 ret2]|]&_&E); [|done]. unfold ndstr_set_code in E. cbn [snd] in E.
  destruct (Z.eqb_spec codeType (-1)); cbn [negb] in E; simplify_eq; destruct Hk as [Hk|[Hk1 Hk2]]; congruence.
Qed.

Section Documents.
Context `{!Malloc} (malloc_ok : forall n, is_Some (malloc n)) (code : Z).
Context (buf0 : mem) (buf0_len : zlen buf0 = 4096).

(** The text of the nodes of a document. *)
Definition nodes_text (ns : list node) : list Z := concat (map (render_file 0) ns).

Lemma render_file_core n : render_file 0 n = core indent [10] 0 n.
Proof. by rewrite (render_core indent [10] 0 n). Qed.

Lemma nl_blank : blank [10].
Proof. by repeat constructor. Qed.
Lemma indent_blank d : blank (indent d).
Proof. unfold indent. induction d; constructor; [done|done]. Qed.

(** One node of a document, behind blanks and a prefix such as a declaration. *)
Lemma load_node n bl b tl size subs error fuel : wf_node code n -> blank bl -> skippable b ->
  b = [] \/ deref b = Some 60 -> zlen (b ++ render_file 0 n) <= size < 2 ^ 31 ->
  exists x e, shows x n /\
    load_loop buf0 (S fuel) code (bl ++ b ++ render_file 0 n ++ tl) size subs error =
    load_loop buf0 fuel code (10 :: tl) size (subs ++ [x]) e.
Proof.
  intros Hw Hbl Hb Hd Hs. cbn [load_loop]. rewrite render_file_core in *.
  assert (deref (b ++ core indent [10] 0 n ++ tl) = Some 60) as D.
  { destruct (core_head indent [10] 0 n tl) as [t Et]. rewrite Et. destruct Hd as [->|Hd]; [done|]. by destruct b. }
  rewrite (first_valid_blank bl _ 60) by done. cbn [mbind option_bind].
  destruct (read_node malloc_ok code buf0 buf0_len indent [10] indent_blank nl_blank n Hw 0%nat
    (2 * length (b ++ core indent [10%Z] 0 n ++ tl) + 2)%nat b tl size
    (Out (At (b ++ core indent [10] 0 n ++ tl)) error)) as (x&e&E&Hx); [done|done|lia|].
  rewrite E. cbn [mbind option_bind parse_end app deref head error_addr Z.eqb]. by exists x, e.
Qed.

Lemma load_nodes ns : Forall (wf_node code) ns -> forall n bl b tl size subs error fuel, wf_node code n ->
  blank bl -> skippable b -> b = [] \/ deref b = Some 60 ->
  zlen (b ++ nodes_text (n :: ns)) <= size < 2 ^ 31 ->
  exists xs e, Forall2 shows xs (n :: ns) /\
    load_loop buf0 (length (n :: ns) + fuel) code (bl ++ b ++ nodes_text (n :: ns) ++ tl) size subs error =
    load_loop buf0 fuel code (10 :: tl) size (subs ++ xs) e.
Proof.
  unfold nodes_text. induction 1 as [|m ns Hm Hns IH]; intros n bl b tl size subs error fuel Hn Hbl Hb Hd Hs.
  - cbn [map concat length Nat.add] in *. rewrite app_nil_r in *.
    destruct (load_node n bl b tl size subs error fuel Hn Hbl Hb Hd Hs) as (x&e&Hx&->). exists [x], e. by repeat constructor.
  - cbn [map concat length Nat.add] in *. rewrite <- app_assoc.
    destruct (load_node n bl b ((render_file 0 m ++ concat (map (render_file 0) ns)) ++ tl) size subs error
      (S (length ns + fuel)) Hn Hbl Hb Hd) as (x&e&Hx&->).
    { rewrite !zlen_app in *. pose proof (zlen_nonneg (render_file 0 m)). pose proof (zlen_nonneg (concat (map (render_file 0) ns))). lia. }
    destruct (IH m [10] [] tl size (subs ++ [x]) e fuel Hm nl_blank) as (xs&e2&Hxs&E2).
    + apply blank_skippable. constructor.
    + by left.
    + cbn [app]. rewrite !zlen_app in *. pose proof (zlen_nonneg b). pose proof (zlen_nonneg (render_file 0 n)). lia.
    + cbn [app map concat length Nat.add] in E2. rewrite E2. exists (x :: xs), e2. rewrite <- app_assoc. split; [by constructor|done].
Qed.

(** A closing tag that closes nothing: the loop stays where it is. *)
Lemma load_stray bl t size fuel : blank bl -> 0 < size -> forall subs error,
  load_loop buf0 fuel code (bl ++ 60 :: 0x2f :: t) size subs error = Some LoadFuel.
Proof.
  intros Hbl Hs. revert bl Hbl. induction fuel as [|fuel IH]; intros bl Hbl subs error; [done|].
  cbn [load_loop]. rewrite (first_valid_blank bl _ 60) by done. cbn [mbind option_bind].
  set (p := 60 :: 0x2f :: t). rewrite Nat.add_comm. cbn [Nat.add]. rewrite parse_xmlbuf_S. unfold parse_node, read_head.
  pose proof (blank_skippable [] ltac:(constructor) (0x2f :: t) 0x2f size (error_addr (Out (At p) error)) eq_refl) as Hm.
  cbn [app] in Hm. fold p in Hm. rewrite Hm by (done || lia). cbn [mbind option_bind].
  change (_is_mark_start p) with (Some true). cbn [mbind option_bind error_addr is_null negb parse_end].
  change (deref p) with (Some 60). cbn [mbind option_bind Z.eqb]. apply (IH []). constructor.
Qed.
End Documents.

(** The declaration [ndxml_save_ex] prints. *)
Definition declaration (header : list Z) : list Z :=
  match header with [] => [] | _ => chars "<?xml " ++ header ++ chars " ?>" ++ [10] end.

Lemma declaration_prefix header : Forall (fun c => c <> 63 /\ c <> 0) header ->
  skippable (declaration header) /\ (declaration header = [] \/ deref (declaration header) = Some 60).
Proof.
  intros Hh. destruct header as [|c h]; [split; [apply blank_skippable; constructor|by left]|].
  split; [|by right]. unfold declaration.
  change (chars "<?xml " ++ (c :: h) ++ chars " ?>" ++ [10]) with (chars "<?" ++ (chars "xml " ++ (c :: h)) ++ chars " ?>" ++ [10]).
  replace ((chars "xml " ++ (c :: h)) ++ chars " ?>" ++ [10]) with ((chars "xml " ++ (c :: h) ++ [32]) ++ chars "?>" ++ [10])
    by (by rewrite <- !app_assoc).
  apply decl_skippable; [|apply nl_blank]. rewrite !Forall_app. split_and!; [by repeat constructor|done|by repeat constructor].
Qed.

Lemma save_ex_ok code textBuf root header ns : zlen textBuf = 4096 ->
  Forall2 shows (xsubs root) ns -> Forall (wf_node code) ns ->
  ndxml_save_ex code textBuf root header = Some (declaration header ++ nodes_text ns).
Proof.
  intros Ht Hx Hw. unfold ndxml_save_ex, nodes_text. change (match header with [] => _ | _ => _ end) with (declaration header).
  generalize (declaration header) as fp. induction Hx as [|x n l ns Hx _ IH]; intros fp; cbn [write_list map concat]; [by rewrite app_nil_r|].
  inversion_clear Hw as [|?? Wn Wl]. rewrite (xml_write_ok code textBuf Ht n x Hx (wf_printable _ _ Wn)). cbn [mbind option_bind].
  rewrite IH by done. by rewrite <- app_assoc.
Qed.

(** C14: a document of well-formed nodes, saved to a file with a declaration and
    loaded again, gives a root with the same nodes in the same order; the loader
    needs one round per node and one more.  But when the text goes on with a
    closing tag that closes nothing, no number of further rounds ends the loop. *)
Theorem xml_document_roundtrip `{!Malloc} code buf0 textBuf root header n ns tl :
  (forall n, is_Some (malloc n)) -> zlen buf0 = 4096 -> zlen textBuf = 4096 ->
  Forall2 shows (r_subs root) (n :: ns) -> Forall (wf_node code) (n :: ns) ->
  Forall (fun c => c <> 63 /\ c <> 0) header ->
  exists file, ndxml_save_ex code textBuf (Ndxml [] None 0 (r_attrs root) (r_subs root)) header = Some file /\
    (zlen file < 2 ^ 31 ->
     (exists subs, xml_load_from_buf buf0 (length (n :: ns) + 1) code (file ++ [0]) (zlen file) ndxml_initroot =
        Some (Some (Root [] subs, 0)) /\ Forall2 shows subs (n :: ns)) /\
     forall more, xml_load_from_buf buf0 (length (n :: ns) + more) code
       (file ++ 60 :: 0x2f :: tl) (zlen file) ndxml_initroot = Some None).
Proof.
  intros Hm H0 Ht Hx Hw Hh. destruct (declaration_prefix header Hh) as [Hsk Hd].
  exists (declaration header ++ nodes_text (n :: ns)). split; [by apply save_ex_ok|]. intros Hl.
  inversion Hw as [|? ? Wn Wl]; subst. set (file := declaration header ++ nodes_text (n :: ns)) in *.
  unfold xml_load_from_buf. pose proof (zlen_nonneg file). rewrite wraps_small by lia. cbn [r_subs ndxml_initroot r_attrs].
  assert (forall fuel tl, exists xs e, Forall2 shows xs (n :: ns) /\
    load_loop buf0 (length (n :: ns) + fuel) code (file ++ tl) (zlen file) [] Null =
    load_loop buf0 fuel code (10 :: tl) (zlen file) xs e) as K.
  { intros fuel tl'. unfold file. rewrite <- app_assoc.
    exact (load_nodes Hm code buf0 H0 ns Wl n [] (declaration header) tl' _ [] Null fuel Wn ltac:(constructor) Hsk Hd (conj (Z.le_refl _) Hl)). }
  split.
  - destruct (K 1%nat [0]) as (xs&e&Hxs&->). cbn. by exists xs.
  - intros more. destruct (K more (60 :: 0x2f :: tl)) as (xs&e&_&->).
    change (10 :: 60 :: 0x2f :: tl) with ([10] ++ 60 :: 0x2f :: tl).
    rewrite load_stray; [done|apply nl_blank|].
    unfold file. rewrite zlen_app. pose proof (zlen_nonneg (declaration header)).
    unfold nodes_text. cbn [map concat]. rewrite zlen_app.
    pose proof (zlen_nonneg (concat (map (render_file 0) ns))). rewrite render_file_core.
    destruct (core_head indent [10] 0 n []) as [t Et]. rewrite app_nil_r in Et. rewrite Et, zlen_cons. pose proof (zlen_nonneg t). lia.
Qed.

Lemma xml_document_roundtrip_witness :
  exists file, ndxml_save_ex 2 (zrepeat 7 4096) (Ndxml [] None 0 [] [xml_ex]) (chars "version=1") = Some file /\
    (zlen file < 2 ^ 31 ->
     (exists subs, xml_load_from_buf (zrepeat 5 4096) 2 2 (file ++ [0]) (zlen file) ndxml_initroot =
        Some (Some (Root [] subs, 0)) /\ Forall2 shows subs [node_ex]) /\
     forall more, xml_load_from_buf (zrepeat 5 4096) (1 + more) 2
       (file ++ 60 :: 0x2f :: [98; 62; 0]) (zlen file) ndxml_initroot = Some None).
Proof.
  apply (xml_document_roundtrip 2 (zrepeat 5 4096) (zrepeat 7 4096) (Root [] [xml_ex]) (chars "version=1") node_ex [] [98; 62; 0]);
    [apply malloc_zero_ok|reflexivity|reflexivity|constructor; [apply xml_ex_shows|constructor]
    |constructor; [apply node_ex_wf|constructor]|by repeat constructor].
Defined.
