(* ===== verification/UdtPacket.v ===== *)
(** * UdtPacket: the packets of the UDT protocol (nd_udthdr.h, udt_net.c, nd_socket.c)

    A packet lies in memory: 12 bytes of header, 4 more if it carries an
    acknowledgement, then the data.  A field is an access at its offset
    ([#pragma pack(1)], little-endian, bit fields from the low bit); the code
    turns a packet over in place before it sends it and after it has read it. *)

From S2P Require Import Prelude Bytes.

Definition NDUDT_FRAGMENT_LEN : Z := 1400.
Definition ND_UDP_PACKET_SIZE : Z := 0x10000.
Definition PROTOCOL_UDT : Z := 1.
(** [sizeof] of [struct ndudt_pocket], [_ndudt_unack_packet] and [ndudp_packet]. *)
Definition sizeof_pocket : Z := 16.
Definition sizeof_unack : Z := 12.
Definition UDP_PACKET_HEAD_SIZE : Z := 6.

(** [enum eUdtMsgType] *)
Definition NDUDT_DATA : Z := 0.
Definition NDUDT_SYN : Z := 1.
Definition NDUDT_ALIVE : Z := 2.
Definition NDUDT_ACK : Z := 3.
Definition NDUDT_LOST : Z := 4.
Definition NDUDT_FIN : Z := 5.
Definition NDUDT_RESET : Z := 6.
Definition NDUDT_DGRAM : Z := 7.

(** ** Fields *)

(** What the code reads of a packet: [ack_seq] is the word behind the header,
    whether the packet carries an acknowledgement or not. *)
Record ndudt_pocket := mk_pocket {
  p_protocol : Z;      (* 4 bits *)
  p_type : Z;          (* 4 bits: [udt_type] *)
  p_ack : bool;
  p_checksum : Z;
  p_port : Z;          (* [local_port] *)
  p_window : Z;        (* [window_len] *)
  p_sequence : Z;
  p_ack_seq : Z
}.

Definition dec_pocket (b : list Z) : ndudt_pocket :=
  mk_pocket (wrapu 4 (Z.shiftr (nth 0 b 0) 4)) (wrapu 4 (nth 1 b 0)) (Z.testbit (nth 1 b 0) 6)
    (le_combine (slice 2 2 b)) (le_combine (slice 4 2 b)) (le_combine (slice 6 2 b))
    (le_combine (slice 8 4 b)) (le_combine (slice 12 4 b)).
Definition load_pocket (m : mem) (o : Z) : option ndudt_pocket :=
  b ← mread m o sizeof_pocket; Some (dec_pocket b).

Definition init_udt_header (m : mem) (o : Z) : option mem := mwrite m o [16 * PROTOCOL_UDT; 0; 0; 0].
Definition init_udt_pocket (m : mem) (o : Z) : option mem :=
  m ← init_udt_header m o;
  m ← store_u16 m (o + 4) 0;
  m ← store_u16 m (o + 6) 0;
  store_u32 m (o + 8) 0.
(** [SET_SYN] ... [SET_LOST]: the low half of the byte. *)
Definition set_pocket_type (t : Z) (m : mem) (o : Z) : option mem :=
  b ← mget m (o + 1); mset m (o + 1) (Z.lor (Z.land b 0xf0) (wrapu 4 t)).
Definition set_pocket_ack (m : mem) (o ack : Z) : option mem :=
  b ← mget m (o + 1);
  m ← mset m (o + 1) (Z.lor b 0x40);
  store_u32 m (o + 12) ack.
Definition pocket_ack (m : mem) (o : Z) : option bool := b ← mget m (o + 1); Some (Z.testbit b 6).
Definition pocket_type (m : mem) (o : Z) : option Z := b ← mget m (o + 1); Some (wrapu 4 b).
Definition ndt_header_size (m : mem) (o : Z) : option Z :=
  a ← pocket_ack m o; Some (if a : bool then sizeof_pocket else sizeof_unack).
(** [pocket_data]: the address behind the header. *)
Definition pocket_data (m : mem) (o : Z) : option Z :=
  a ← pocket_ack m o; Some (if a : bool then o + 16 else o + 12).

(** ** Byte order *)

(** [x = htons(x)], [x = htonl(x)] and their inverses on a field of [n] bytes
    reverse its bytes. *)
Definition swap_field (n : Z) (m : mem) (off : Z) : option mem :=
  b ← mread m off n; mwrite m off (rev b).
Definition htons (x : Z) : Z := le_combine (rev (le_split 2 x)).

Definition _udt_host2net (m : mem) (o : Z) : option mem :=
  m ← swap_field 2 m (o + 2);
  m ← swap_field 2 m (o + 4);
  m ← swap_field 2 m (o + 6);
  m ← swap_field 4 m (o + 8);
  a ← pocket_ack m o;
  if a : bool then swap_field 4 m (o + 12) else Some m.
Definition _udt_net2host (m : mem) (o : Z) : option mem :=
  m ← swap_field 2 m (o + 2);
  m ← swap_field 2 m (o + 4);
  m ← swap_field 2 m (o + 6);
  m ← swap_field 4 m (o + 8);
  a ← pocket_ack m o;
  if a : bool then swap_field 4 m (o + 12) else Some m.

(** ** Checksum *)

(** The loop over 16-bit words: the address behind them and their sum. *)
Fixpoint checksum_loop (len : nat) (m : mem) (buf sum : Z) : option (Z * Z) :=
  match len with
  | O => Some (buf, sum)
  | S len => w ← load_u16 m buf; checksum_loop len m (buf + 2) (u64 (sum + w))
  end.
Definition nd_checksum (m : mem) (buf length : Z) : option Z :=
  '(buf, sum) ← checksum_loop (Z.to_nat (Z.shiftr length 1)) m buf 0;
  sum ← (if Z.testbit length 0 then b ← mget m buf; Some (u64 (sum + b)) else Some sum);
  let sum := u64 (Z.shiftr sum 16 + Z.land sum 0xffff) in
  let sum := u64 (sum + Z.shiftr sum 16) in
  Some (u16 (Z.lnot sum)).

(** The test leaves the field cleared. *)
Definition _test_checksum (m : mem) (o size : Z) : option (mem * Z) :=
  c ← load_u16 m (o + 2);
  let checksum := htons c in
  m ← store_u16 m (o + 2) 0;
  calc_cs ← nd_checksum m o size;
  Some (m, if negb (checksum =? calc_cs) then 0 else 1).
Definition _set_checksum (m : mem) (o size : Z) : option mem :=
  m ← store_u16 m (o + 2) 0;
  c ← nd_checksum m o size;
  m ← store_u16 m (o + 2) c;
  swap_field 2 m (o + 2).

(** ** The checksum is the ones' complement sum of the words *)

Fixpoint word_sum (l : list Z) : Z :=
  match l with
  | [] => 0
  | [a] => a
  | a :: b :: l => a + 256 * b + word_sum l
  end.
(** The representative of [s] modulo 65535 that is 0 only for 0. *)
Definition ones16 (s : Z) : Z := if s =? 0 then 0 else (s - 1) mod 65535 + 1.
Definition checksum_of (l : list Z) : Z := 65535 - ones16 (word_sum l).

(** Two bytes at a time. *)
Lemma pair_ind (P : list Z -> Prop) : P [] -> (forall a, P [a]) ->
  (forall a b l, P l -> P (a :: b :: l)) -> forall l, P l.
Proof.
  intros H0 H1 H2 l. enough (P l /\ forall a, P (a :: l)) by tauto.
  induction l as [|b l [IH1 IH2]]; [auto|]. split; [apply IH2|]. intros a. by apply H2.
Qed.

Lemma word_sum_range l : bytes l -> 0 <= word_sum l <= 65535 * zlen l.
Proof.
  induction l as [|a|a b l IH] using pair_ind; intros H; cbn [word_sum]; rewrite ?zlen_cons.
  - unfold zlen; simpl. lia.
  - apply Forall_cons in H as [Ha _]. unfold is_byte in Ha. unfold zlen; simpl. lia.
  - apply Forall_cons in H as [Ha H]. apply Forall_cons in H as [Hb H]. apply IH in H.
    unfold is_byte in *. lia.
Qed.

(** The two foldings of the carry. *)
Lemma fold_ones16 s : 0 <= s < 2 ^ 32 ->
  let s1 := Z.shiftr s 16 + Z.land s 0xffff in
  u16 (Z.lnot (s1 + Z.shiftr s1 16)) = 65535 - ones16 s.
Proof.
  intros Hs s1. subst s1. change 0xffff with (Z.ones 16). rewrite Z.land_ones, !Z.shiftr_div_pow2 by lia.
  change (2 ^ 16) with 65536. change (Z.ones 16) with 65535. unfold ones16.
  pose proof (Z.div_mod s 65536 ltac:(lia)) as Ed. pose proof (Z.mod_pos_bound s 65536 ltac:(lia)) as Hr.
  pose proof (Z.div_pos s 65536 ltac:(lia) ltac:(lia)) as Hq0. assert (s / 65536 < 65536) as Hq by (apply Z.div_lt_upper_bound; lia).
  set (q := s / 65536) in *. set (r := s mod 65536) in *.
  replace ((s - 1) mod 65535) with ((q + r - 1) mod 65535).
  2:{ replace (s - 1) with (q + r - 1 + q * 65535) by lia. by rewrite Z_mod_plus_full. }
  assert (Z.lnot (q + r + (q + r) / 65536) = - 1 - (q + r + (q + r) / 65536)) as -> by (unfold Z.lnot; lia).
  unfold wrapu. change (2 ^ 16) with 65536.
  destruct (Z.lt_ge_cases (q + r) 65536) as [Hc|Hc].
  - assert (q + r = 0 -> s = 0) by lia. rewrite (Z.div_small (q + r)) by lia. replace (-1 - (q + r + 0)) with (65535 - (q + r) + (-1) * 65536) by lia.
    rewrite Z_mod_plus_full, Z.mod_small by lia. bcase; [lia|].
    rewrite Z.mod_small; lia.
  - assert ((q + r) / 65536 = 1) as -> by (symmetry; apply Z.div_unique with (q + r - 65536); lia).
    replace (-1 - (q + r + 1)) with (131070 - (q + r) + (-2) * 65536) by lia.
    rewrite Z_mod_plus_full, Z.mod_small by lia. bcase; [lia|].
    replace (q + r - 1) with (q + r - 1 - 65535 + 1 * 65535) by lia.
    rewrite Z_mod_plus_full, Z.mod_small; lia.
Qed.

Lemma checksum_loop_ok n : forall l pre post sum, length l = (2 * n)%nat -> bytes l -> 0 <= sum ->
  sum + 65535 * zlen l < 2 ^ 64 ->
  checksum_loop n (pre ++ l ++ post) (zlen pre) sum = Some (zlen pre + zlen l, sum + word_sum l).
Proof.
  induction n as [|n IH]; intros l pre post sum El H Hs Hb.
  - destruct l; [|done]. cbn. by rewrite !Z.add_0_r.
  - destruct l as [|a [|b l]]; simpl in El; [lia..|].
    apply Forall_cons in H as [Ha H]. apply Forall_cons in H as [Hb' H].
    rewrite !zlen_cons in *. unfold is_byte in *. pose proof (zlen_nonneg l).
    cbn [checksum_loop]. replace (pre ++ (a :: b :: l) ++ post) with (pre ++ [a; b] ++ (l ++ post)) by done.
    unfold load_u. rewrite mread_app by zlia.
    change (slice 0 (Z.of_nat 2) ([a; b] ++ l ++ post)) with [a; b]. cbn [mbind option_bind le_combine].
    rewrite (wrapu_small 64) by lia. rewrite app_assoc.
    replace (zlen pre + 2) with (zlen (pre ++ [a; b])) by (rewrite zlen_app; done).
    rewrite IH by (done || lia). rewrite zlen_app. change (zlen [a; b]) with 2. cbn [word_sum].
    f_equal. f_equal; lia.
Qed.

Lemma word_sum_app l1 l2 : Nat.Even (length l1) -> word_sum (l1 ++ l2) = word_sum l1 + word_sum l2.
Proof.
  induction l1 as [|a|a b l1 IH] using pair_ind; intros [k Hk]; simpl in Hk; [done|lia|].
  cbn [app word_sum]. rewrite IH; [lia|]. exists (k - 1)%nat. lia.
Qed.

Lemma nd_checksum_ok pre l post : bytes l -> zlen l < 2 ^ 16 ->
  nd_checksum (pre ++ l ++ post) (zlen pre) (zlen l) = Some (checksum_of l).
Proof.
  intros H Hl. pose proof (zlen_nonneg l).
  set (n := (Nat.div2 (length l))%nat).
  assert (Z.to_nat (Z.shiftr (zlen l) 1) = n) as En.
  { subst n. rewrite Z.shiftr_div_pow2, Nat.div2_div by lia. unfold zlen.
    change (2 ^ 1) with (Z.of_nat 2). by rewrite <- Nat2Z.inj_div, Nat2Z.id. }
  pose proof (Nat.div2_odd (length l)) as Eo. fold n in Eo.
  set (l0 := take (2 * n) l). set (rest := drop (2 * n) l).
  assert (l = l0 ++ rest) as El by (symmetry; apply take_drop).
  assert (length l0 = (2 * n)%nat) as L0 by (unfold l0; rewrite length_take; lia).
  assert (zlen l0 = 2 * Z.of_nat n) as Z0 by (unfold zlen; lia).
  assert (length rest = Nat.b2n (Nat.odd (length l))) as Lr by (unfold rest; rewrite length_drop; lia).
  assert (word_sum l = word_sum l0 + word_sum rest) as Ew.
  { rewrite El. apply word_sum_app. exists n. lia. }
  assert (bytes l0 /\ bytes rest) as [B0 Br] by (rewrite El in H; by apply Forall_app in H).
  pose proof (word_sum_range l H). pose proof (word_sum_range l0 B0).
  assert (zlen l = zlen l0 + zlen rest) as Zl by (rewrite El at 1; apply zlen_app). pose proof (zlen_nonneg rest).
  unfold nd_checksum. rewrite En, El, <- app_assoc.
  rewrite checksum_loop_ok by (done || (rewrite ?zlen_app; lia)). cbn [mbind option_bind]. rewrite Z.add_0_l.
  assert ((if Z.testbit (zlen (l0 ++ rest)) 0
     then b ← mget (pre ++ l0 ++ rest ++ post) (zlen pre + zlen l0); Some (u64 (word_sum l0 + b))
     else Some (word_sum l0)) = Some (word_sum l)) as ->.
  { rewrite Z.bit0_odd. replace (Z.odd (zlen (l0 ++ rest))) with (Nat.odd (length l)).
    2:{ rewrite <- El. replace (zlen l) with (Z.of_nat (Nat.b2n (Nat.odd (length l))) + 2 * Z.of_nat n) by (unfold zlen; lia).
        rewrite Z.odd_add_mul_2. by destruct (Nat.odd (length l)). }
    destruct (Nat.odd (length l)); simpl in Lr.
    - destruct rest as [|b [|? ?]]; simpl in Lr; [lia| |lia]. rewrite app_assoc, <- zlen_app.
      unfold mget. rewrite (proj2 (in_range_spec _ _ _)).
      + unfold zlen. rewrite Nat2Z.id. change ([b] ++ post) with (b :: post). rewrite list_lookup_middle by done.
        cbn [mbind option_bind]. rewrite Ew. cbn [word_sum] in *. f_equal. rewrite wrapu_small; lia.
      + rewrite !zlen_app. change (zlen [b]) with 1. pose proof (zlen_nonneg (pre ++ l0)).
        pose proof (zlen_nonneg post). rewrite zlen_app in *. pose proof (zlen_nonneg pre). lia.
    - destruct rest; [|simpl in Lr; lia]. cbn [word_sum] in Ew. f_equal. lia. }
  cbn [mbind option_bind]. f_equal. unfold checksum_of. rewrite <- El.
  rewrite <- fold_ones16 by lia. set (s := word_sum l) in *. assert (0 <= s < 2 ^ 32) as Hs32 by lia.
  assert (forall x, 0 <= x < 2 ^ 33 -> 0 <= Z.shiftr x 16 <= x) as Hsh.
  { intros x Hx. rewrite Z.shiftr_div_pow2 by lia. split; [apply Z.div_pos; lia|].
    apply Z.div_le_upper_bound; lia. }
  pose proof (Hsh s ltac:(lia)). assert (0 <= Z.land s 0xffff < 2 ^ 16) as Hland.
  { change 0xffff with (Z.ones 16). rewrite Z.land_ones by lia. by apply Z.mod_pos_bound. }
  pose proof (Hsh (Z.shiftr s 16 + Z.land s 0xffff) ltac:(lia)).
  rewrite !(wrapu_small 64) by (rewrite ?(wrapu_small 64); lia). done.
Qed.

(** ** Accesses inside a window of memory *)

Lemma mread_frame pre h post k n d :
  mread h k n = Some d -> mread (pre ++ h ++ post) (zlen pre + k) n = Some d.
Proof. intros E. pose proof (proj1 (mread_Some _ _ _ _) E) as [(? & ? & ?) _]. by rewrite mread_mid. Qed.
Lemma mwrite_frame pre h post k d h' :
  mwrite h k d = Some h' -> mwrite (pre ++ h ++ post) (zlen pre + k) d = Some (pre ++ h' ++ post).
Proof.
  intros E. assert (0 <= k /\ k + zlen d <= zlen h) as [? ?] by (apply mwrite_is_Some; by rewrite E).
  by rewrite mwrite_mid, E.
Qed.
Lemma mget_frame pre h post k b :
  mget h k = Some b -> mget (pre ++ h ++ post) (zlen pre + k) = Some b.
Proof.
  unfold mget. destruct (in_range k 1 (zlen h)) eqn:E; [|done]. apply in_range_spec in E as (? & ? & ?). intros Eb.
  rewrite (proj2 (in_range_spec _ _ _)) by zlia. unfold zlen in *.
  replace (Z.to_nat (Z.of_nat (length pre) + k)) with (length pre + Z.to_nat k)%nat by lia.
  rewrite lookup_app_r by lia. rewrite Nat.add_comm, Nat.add_sub. by rewrite lookup_app_l by lia.
Qed.
Lemma swap_frame n pre h post k h' :
  swap_field n h k = Some h' -> swap_field n (pre ++ h ++ post) (zlen pre + k) = Some (pre ++ h' ++ post).
Proof.
  unfold swap_field. destruct (mread h k n) as [d|] eqn:E; [|done]. cbn [mbind option_bind]. intros E'.
  rewrite (mread_frame _ _ _ _ _ _ E). by apply mwrite_frame.
Qed.
Lemma store_frame n pre h post k w h' :
  store_u n h k w = Some h' -> store_u n (pre ++ h ++ post) (zlen pre + k) w = Some (pre ++ h' ++ post).
Proof. apply mwrite_frame. Qed.
Lemma load_frame n pre h post k w :
  load_u n h k = Some w -> load_u n (pre ++ h ++ post) (zlen pre + k) = Some w.
Proof.
  unfold load_u. destruct (mread h k _) as [d|] eqn:E; [|done]. by rewrite (mread_frame _ _ _ _ _ _ E).
Qed.

(** [frame] runs the accesses of a goal inside its window, which is a list of
    known length. *)
Ltac frame_eval e := eval cbv -[wrapu Z.div le_combine checksum_of Z.lor Z.land Z.testbit] in e.
Ltac frame_with e lem :=
  let r := frame_eval e in
  lazymatch r with Some ?x => rewrite (lem x eq_refl) end.
Ltac frame_arg f w lem :=
  let r := frame_eval f in
  let r := eval cbv beta in (r w) in
  lazymatch r with Some ?x => rewrite (lem x eq_refl) end.
Ltac frame1 :=
  match goal with
  | |- context [swap_field ?n (?pre ++ ?h ++ ?post) (zlen ?pre + ?k)] =>
      frame_with (swap_field n h k) (swap_frame n pre h post k)
  | |- context [store_u ?n (?pre ++ ?h ++ ?post) (zlen ?pre + ?k) ?w] =>
      frame_arg (store_u n h k) w (store_frame n pre h post k w)
  | |- context [load_u ?n (?pre ++ ?h ++ ?post) (zlen ?pre + ?k)] =>
      frame_with (load_u n h k) (load_frame n pre h post k)
  | |- context [mget (?pre ++ ?h ++ ?post) (zlen ?pre + ?k)] =>
      frame_with (mget h k) (mget_frame pre h post k)
  | |- context [mset (?pre ++ ?h ++ ?post) (zlen ?pre + ?k) ?x] =>
      unfold mset at 1; frame_arg (fun x => mwrite h k [x]) x (mwrite_frame pre h post k [x])
  | |- context [mwrite (?pre ++ ?h ++ ?post) (zlen ?pre) ?x] => rewrite (mwrite_app pre h post x eq_refl)
  end; change (0 / 256) with 0; change (wrapu 8 0) with 0; cbn [mbind option_bind].
Ltac frame := repeat frame1.

(** ** What the byte order and the checksum do to a packet *)

Definition carries_ack (l : list Z) : bool := Z.testbit (nth 1 l 0) 6.
(** The header, and the acknowledgement if there is one, lie inside [l]. *)
Definition complete (l : list Z) : Prop :=
  (12 <= length l)%nat /\ (carries_ack l = true -> (16 <= length l)%nat).

Definition swapped (l : list Z) : list Z :=
  match l with
  | b0 :: b1 :: c0 :: c1 :: p0 :: p1 :: w0 :: w1 :: s0 :: s1 :: s2 :: s3 :: t =>
      b0 :: b1 :: c1 :: c0 :: p1 :: p0 :: w1 :: w0 :: s3 :: s2 :: s1 :: s0 ::
      (if Z.testbit b1 6 then
         match t with a0 :: a1 :: a2 :: a3 :: t => a3 :: a2 :: a1 :: a0 :: t | _ => t end
       else t)
  | _ => l
  end.
Definition with_checksum (c : Z) (l : list Z) : list Z :=
  match l with b0 :: b1 :: _ :: _ :: t => b0 :: b1 :: u8 (c / 256) :: u8 c :: t | _ => l end.
Definition no_checksum (l : list Z) : list Z :=
  match l with b0 :: b1 :: _ :: _ :: t => b0 :: b1 :: 0 :: 0 :: t | _ => l end.
(** The datagram of a packet. *)
Definition seal (l : list Z) : list Z :=
  with_checksum (checksum_of (no_checksum (swapped l))) (swapped l).

(** A complete packet as its header bytes and its data. *)
Lemma complete_cases l : complete l ->
  (exists b0 b1 c0 c1 p0 p1 w0 w1 s0 s1 s2 s3 d,
     l = [b0; b1; c0; c1; p0; p1; w0; w1; s0; s1; s2; s3] ++ d /\ Z.testbit b1 6 = false) \/
  (exists b0 b1 c0 c1 p0 p1 w0 w1 s0 s1 s2 s3 a0 a1 a2 a3 d,
     l = [b0; b1; c0; c1; p0; p1; w0; w1; s0; s1; s2; s3; a0; a1; a2; a3] ++ d /\ Z.testbit b1 6 = true).
Proof.
  unfold complete, carries_ack. intros [H1 H2].
  do 12 (destruct l as [|? l]; [simpl in H1; lia|]). cbn [nth] in *.
  destruct (Z.testbit _ 6) eqn:E; [right|left; by repeat eexists].
  specialize (H2 eq_refl). do 4 (destruct l as [|? l]; [simpl in H2; lia|]). by repeat eexists.
Qed.
Ltac complete_cases H :=
  apply complete_cases in H as
    [(?b0 & ?b1 & ?c0 & ?c1 & ?p0 & ?p1 & ?w0 & ?w1 & ?s0 & ?s1 & ?s2 & ?s3 & ?d & -> & ?Hack)
    |(?b0 & ?b1 & ?c0 & ?c1 & ?p0 & ?p1 & ?w0 & ?w1 & ?s0 & ?s1 & ?s2 & ?s3 & ?a0 & ?a1 & ?a2 & ?a3 & ?d & -> & ?Hack)].

Lemma host2net_ok pre l post : complete l ->
  _udt_host2net (pre ++ l ++ post) (zlen pre) = Some (pre ++ swapped l ++ post).
Proof.
  intros H. complete_cases H; rewrite <- app_assoc; unfold _udt_host2net, pocket_ack; frame;
    rewrite Hack; frame; cbn [app swapped]; by rewrite Hack.
Qed.
Lemma net2host_ok pre l post : complete l ->
  _udt_net2host (pre ++ l ++ post) (zlen pre) = Some (pre ++ swapped l ++ post).
Proof. exact (host2net_ok pre l post). Qed.

Lemma swapped_involutive l : complete l -> swapped (swapped l) = l.
Proof. intros H. complete_cases H; cbn [app swapped]; by rewrite !Hack. Qed.
Lemma length_swapped l : length (swapped l) = length l.
Proof.
  do 12 (destruct l as [|? l]; [done|]). cbn [swapped]. destruct (Z.testbit _ 6); [|done].
  by do 4 (destruct l as [|? l]; [done|]).
Qed.
Lemma swapped_bytes l : bytes l -> bytes (swapped l).
Proof.
  intros H. do 12 (destruct l as [|? l]; [exact H|]). cbn [swapped]. rewrite !Forall_cons in *.
  destruct (Z.testbit _ 6); [|tauto].
  do 4 (destruct l as [|? l]; [tauto|]). rewrite !Forall_cons in *. tauto.
Qed.

Lemma set_checksum_ok pre l post : bytes l -> (4 <= length l)%nat -> zlen l < 2 ^ 16 ->
  _set_checksum (pre ++ l ++ post) (zlen pre) (zlen l) =
    Some (pre ++ with_checksum (checksum_of (no_checksum l)) l ++ post).
Proof.
  intros H Hl Hs. do 4 (destruct l as [|? l]; [simpl in Hl; lia|]).
  do 4 (apply Forall_cons in H as [? H]).
  match goal with |- context [?a :: ?b :: ?c :: ?d :: l] =>
    change (a :: b :: c :: d :: l) with ([a; b; c; d] ++ l) at 1; cbn [no_checksum];
    assert (nd_checksum (pre ++ [a; b; 0; 0] ++ l ++ post) (zlen pre) (zlen (a :: b :: c :: d :: l)) =
      Some (checksum_of (a :: b :: 0 :: 0 :: l))) as E
  end.
  { refine (nd_checksum_ok pre (_ :: _ :: 0 :: 0 :: l) post _ _); [|done].
    by repeat (apply Forall_cons; split; [done|]). }
  unfold _set_checksum. rewrite <- app_assoc. frame. rewrite E. cbn [mbind option_bind].
  by frame.
Qed.

Lemma ones16_range s : 0 <= s -> 0 <= ones16 s < 65536.
Proof. intros H. unfold ones16. bcase; [lia|]. pose proof (Z.mod_pos_bound (s - 1) 65535). lia. Qed.
Lemma checksum_of_range l : bytes l -> 0 <= checksum_of l < 65536.
Proof. intros H. unfold checksum_of. pose proof (word_sum_range l H). pose proof (ones16_range (word_sum l)). lia. Qed.
Lemma htons_le c0 c1 : is_byte c0 -> is_byte c1 -> htons (le_combine [c0; c1]) = 256 * c0 + c1.
Proof.
  intros H0 H1. unfold htons.
  assert (le_split 2 (le_combine [c0; c1]) = [c0; c1]) as ->.
  { apply (le_split_combine [c0; c1]). by rewrite !Forall_cons. }
  cbn [rev app le_combine]. lia.
Qed.

Lemma test_checksum_ok pre b0 b1 c0 c1 t post n : bytes (b0 :: b1 :: c0 :: c1 :: t) ->
  n = zlen (b0 :: b1 :: c0 :: c1 :: t) -> n < 2 ^ 16 ->
  _test_checksum (pre ++ (b0 :: b1 :: c0 :: c1 :: t) ++ post) (zlen pre) n =
    Some (pre ++ (b0 :: b1 :: 0 :: 0 :: t) ++ post,
          if 256 * c0 + c1 =? checksum_of (b0 :: b1 :: 0 :: 0 :: t) then 1 else 0).
Proof.
  intros H -> Hs. pose proof H as Hb. do 4 (apply Forall_cons in H as [? H]).
  assert (nd_checksum (pre ++ [b0; b1; 0; 0] ++ t ++ post) (zlen pre) (zlen (b0 :: b1 :: c0 :: c1 :: t)) =
      Some (checksum_of (b0 :: b1 :: 0 :: 0 :: t))) as E.
  { refine (nd_checksum_ok pre (_ :: _ :: 0 :: 0 :: t) post _ _); [|done].
    by repeat (apply Forall_cons; split; [done|]). }
  change (b0 :: b1 :: c0 :: c1 :: t) with ([b0; b1; c0; c1] ++ t) at 1.
  unfold _test_checksum. rewrite <- app_assoc. frame. rewrite E. cbn [mbind option_bind].
  rewrite htons_le by done. by bcase.
Qed.

Lemma checksum_bytes c : 0 <= c < 65536 -> 256 * u8 (c / 256) + u8 c = c.
Proof.
  intros H. unfold wrapu. change (2 ^ 8) with 256. rewrite (Z.mod_small (c / 256)).
  - rewrite (Z.div_mod c 256) at 3; lia.
  - split; [apply Z.div_pos; lia | apply Z.div_lt_upper_bound; lia].
Qed.

Lemma no_checksum_bytes l : bytes l -> bytes (no_checksum l).
Proof.
  intros H. do 4 (destruct l as [|? l]; [exact H|]). cbn [no_checksum]. rewrite !Forall_cons in *.
  unfold is_byte in *. intuition lia.
Qed.

(** ** One wrong byte is detected *)

Lemma word_sum_insert i : forall l x y, l !! i = Some y ->
  word_sum (<[i := x]> l) = word_sum l + (x - y) * (if Nat.even i then 1 else 256).
Proof.
  induction i as [i IH] using lt_wf_ind; intros l x y E. destruct i as [|[|i]].
  - destruct l as [|a [|b l]]; simpl in E; [done|..]; injection E as <-; cbn; lia.
  - destruct l as [|a [|b l]]; simpl in E; [done..|]. injection E as <-. cbn; lia.
  - destruct l as [|a [|b l]]; simpl in E; [done..|].
    cbn [word_sum]. simpl insert. cbn [word_sum]. rewrite (IH i ltac:(lia) l x y E). cbn [Nat.even]. lia.
Qed.

Lemma ones16_inj s1 s2 : 0 <= s1 -> 0 <= s2 -> ones16 s1 = ones16 s2 -> (s1 - s2) mod 65535 = 0.
Proof.
  intros H1 H2. unfold ones16. pose proof (Z.mod_pos_bound (s1 - 1) 65535 ltac:(lia)).
  pose proof (Z.mod_pos_bound (s2 - 1) 65535 ltac:(lia)).
  repeat bcase; try lia; [intros _; by subst|]. intros E.
  replace (s1 - s2) with ((s1 - 1) - (s2 - 1)) by lia. rewrite Zminus_mod. 
  replace ((s1 - 1) mod 65535) with ((s2 - 1) mod 65535) by lia. by rewrite Z.sub_diag.
Qed.

Lemma checksum_of_insert l i x y : bytes l -> is_byte x -> l !! i = Some y -> x <> y ->
  checksum_of (<[i := x]> l) <> checksum_of l.
Proof.
  intros H Hx Ey Hne E. assert (is_byte y) as Hy by (by eapply Forall_lookup_1 in Ey).
  assert (bytes (<[i := x]> l)) as H' by (by apply Forall_insert).
  pose proof (word_sum_range _ H). pose proof (word_sum_range _ H').
  assert (ones16 (word_sum (<[i := x]> l)) = ones16 (word_sum l)) as Eo by (unfold checksum_of in E; lia).
  apply ones16_inj in Eo; [|lia..]. rewrite (word_sum_insert i l x y Ey) in Eo.
  unfold is_byte in *. replace (word_sum l + (x - y) * (if Nat.even i then 1 else 256) - word_sum l)
    with ((x - y) * (if Nat.even i then 1 else 256)) in Eo by lia.
  apply Z.mod_divide in Eo as [k Ek]; [|lia]. destruct (Nat.even i); nia.
Qed.

Lemma checksum_differs b0 b1 c0 c1 t i x y : bytes (b0 :: b1 :: c0 :: c1 :: t) -> is_byte x ->
  (b0 :: b1 :: c0 :: c1 :: t) !! i = Some y -> x <> y ->
  256 * c0 + c1 = checksum_of (b0 :: b1 :: 0 :: 0 :: t) ->
  exists b0' b1' c0' c1' t', <[i := x]> (b0 :: b1 :: c0 :: c1 :: t) = b0' :: b1' :: c0' :: c1' :: t' /\
    256 * c0' + c1' <> checksum_of (b0' :: b1' :: 0 :: 0 :: t').
Proof.
  intros H Hx Ey Hne Ec. assert (bytes (b0 :: b1 :: 0 :: 0 :: t)) as H0 by (apply (no_checksum_bytes _ H)).
  assert (forall k z, (b0 :: b1 :: 0 :: 0 :: t) !! k = Some z -> x <> z ->
    256 * c0 + c1 <> checksum_of (<[k := x]> (b0 :: b1 :: 0 :: 0 :: t))) as Hk.
  { intros k z Ez Hz. rewrite Ec. by apply not_eq_sym, (checksum_of_insert _ k x z). }
  destruct i as [|[|[|[|i]]]]; simpl in Ey; try injection Ey as ->; repeat eexists.
  - by apply (Hk 0%nat y).
  - by apply (Hk 1%nat y).
  - simpl. lia.
  - simpl. lia.
  - by apply (Hk (S (S (S (S i)))) y).
Qed.

(** C39: a packet whose checksum [_set_checksum] has stored passes the test of the
    receiver, and fails it if any one of its bytes is replaced by another. *)
Theorem udt_checksum_detects pre l post m i x : bytes l -> (4 <= length l)%nat -> zlen l < 2 ^ 16 ->
  _set_checksum (pre ++ l ++ post) (zlen pre) (zlen l) = Some m ->
  exists s, m = pre ++ s ++ post /\
    (exists m', _test_checksum m (zlen pre) (zlen l) = Some (m', 1)) /\
    (is_byte x -> forall y, s !! i = Some y -> x <> y ->
     exists m', _test_checksum (pre ++ <[i := x]> s ++ post) (zlen pre) (zlen l) = Some (m', 0)).
Proof.
  intros H Hl Hs E. rewrite set_checksum_ok in E by done. injection E as <-.
  pose proof (checksum_of_range _ (no_checksum_bytes l H)) as Hc.
  do 4 (destruct l as [|? l]; [simpl in Hl; lia|]). cbn [no_checksum with_checksum] in *.
  set (c := checksum_of _) in *. eexists. split; [done|].
  assert (bytes (z :: z0 :: u8 (c / 256) :: u8 c :: l)) as Hb.
  { rewrite !Forall_cons in *. pose proof (u8_byte (c / 256)). pose proof (u8_byte c). tauto. }
  split; [|intros Hx y Ey Hne].
  - eexists. rewrite (test_checksum_ok pre z z0 (u8 (c / 256)) (u8 c) l post) by done.
    rewrite checksum_bytes, Z.eqb_refl by done. done.
  - assert (bytes (<[i := x]> (z :: z0 :: u8 (c / 256) :: u8 c :: l))) as Hi by (by apply Forall_insert).
    pose proof (zlen_insert i x (z :: z0 :: u8 (c / 256) :: u8 c :: l)) as Li.
    destruct (checksum_differs _ _ _ _ _ _ _ _ Hb Hx Ey Hne) as (a0 & a1 & d0 & d1 & t & Ei & Hd);
      [by rewrite checksum_bytes|].
    rewrite Ei in *. eexists. rewrite test_checksum_ok by done. bcase; [done|done].
Qed.

Lemma udt_checksum_detects_witness :
  _set_checksum [16; 0; 9; 9; 1; 0; 2; 0; 3; 0; 0; 0; 7] 0 13 = Some [16; 0; 255; 226; 1; 0; 2; 0; 3; 0; 0; 0; 7] /\
  exists s, [16; 0; 255; 226; 1; 0; 2; 0; 3; 0; 0; 0; 7] = [] ++ s ++ [] /\
    (exists m', _test_checksum [16; 0; 255; 226; 1; 0; 2; 0; 3; 0; 0; 0; 7] 0 13 = Some (m', 1)) /\
    (is_byte 8 -> forall y, s !! 12%nat = Some y -> 8 <> y ->
     exists m', _test_checksum ([] ++ <[12%nat := 8]> s ++ []) 0 13 = Some (m', 0)).
Proof.
  split; [vm_compute; reflexivity|].
  apply (udt_checksum_detects [] [16; 0; 9; 9; 1; 0; 2; 0; 3; 0; 0; 0; 7] []); [|simpl; lia|done|vm_compute; reflexivity].
  repeat (apply Forall_cons; split; [unfold is_byte; lia|]). by apply Forall_nil.
Defined.

(** ** Packets by their fields *)

Definition pocket_flags (typ : Z) (ack : option Z) : Z := wrapu 4 typ + match ack with Some _ => 64 | None => 0 end.
Definition ack_bytes (ack : option Z) : list Z := match ack with Some a => le_split 4 a | None => [] end.
(** A packet in host order, its checksum still 0. *)
Definition packet (typ : Z) (ack : option Z) (port win seq : Z) (d : list Z) : list Z :=
  ([16 * PROTOCOL_UDT; pocket_flags typ ack; 0; 0] ++ le_split 2 port ++ le_split 2 win ++ le_split 4 seq) ++
  ack_bytes ack ++ d.
Definition header_size (ack : option Z) : Z := match ack with Some _ => 16 | None => 12 end.

Record fields_ok (typ : Z) (ack : option Z) (port win seq : Z) : Prop := {
  fo_type : 0 <= typ < 16;
  fo_ack : match ack with Some a => 0 <= a < 2 ^ 32 | None => True end;
  fo_port : 0 <= port < 2 ^ 16;
  fo_win : 0 <= win < 2 ^ 16;
  fo_seq : 0 <= seq < 2 ^ 32
}.

Lemma zlen_packet typ ack port win seq d : zlen (packet typ ack port win seq d) = header_size ack + zlen d.
Proof. unfold packet. destruct ack; unfold ack_bytes, header_size; rewrite ?zlen_app, ?zlen_le_split; unfold zlen; simpl; lia. Qed.
Lemma packet_bytes typ ack port win seq d : bytes d -> bytes (packet typ ack port win seq d).
Proof.
  intros H. unfold packet. rewrite !Forall_app. repeat split; auto using le_split_bytes.
  - repeat (apply Forall_cons; split); [| | | |by apply Forall_nil]; try (unfold is_byte, PROTOCOL_UDT; lia).
    unfold is_byte, pocket_flags. pose proof (wrapu_range 4 typ). destruct ack; lia.
  - destruct ack; [apply (le_split_bytes 4)|by apply Forall_nil].
Qed.
Lemma flags_ack typ ack : Z.testbit (pocket_flags typ ack) 6 = match ack with Some _ => true | None => false end.
Proof.
  unfold pocket_flags. pose proof (wrapu_range 4 typ ltac:(lia)) as H. change (2 ^ 4) with 16 in H.
  rewrite Z.testbit_odd, Z.shiftr_div_pow2 by lia. change (2 ^ 6) with 64.
  destruct ack.
  - replace ((wrapu 4 typ + 64) / 64) with 1; [done|]. apply Z.div_unique with (wrapu 4 typ); lia.
  - rewrite Z.div_small by lia. done.
Qed.
Lemma flags_type typ ack : wrapu 4 (pocket_flags typ ack) = wrapu 4 typ.
Proof.
  unfold pocket_flags. rewrite wrapu_add_l by lia. unfold wrapu. change (2 ^ 4) with 16.
  destruct ack; [|by rewrite Z.add_0_r]. change 64 with (4 * 16). by rewrite Z_mod_plus_full.
Qed.
Lemma packet_carries typ ack port win seq d :
  carries_ack (packet typ ack port win seq d) = match ack with Some _ => true | None => false end.
Proof. apply flags_ack. Qed.
Lemma packet_complete typ ack port win seq d : complete (packet typ ack port win seq d).
Proof.
  pose proof (zlen_packet typ ack port win seq d) as E. pose proof (zlen_nonneg d). unfold complete.
  rewrite packet_carries. unfold zlen, header_size in *. destruct ack; split; done || lia.
Qed.
Lemma packet_no_checksum typ ack port win seq d : no_checksum (packet typ ack port win seq d) = packet typ ack port win seq d.
Proof. done. Qed.

Lemma packet_fields typ ack port win seq d stale : fields_ok typ ack port win seq -> 4 <= zlen stale ->
  load_pocket (packet typ ack port win seq d ++ stale) 0 =
    Some (mk_pocket PROTOCOL_UDT typ (match ack with Some _ => true | None => false end) 0 port win seq
            (match ack with Some a => a | None => le_combine (slice 0 4 (d ++ stale)) end)).
Proof.
  intros [Ht Ha Hp Hw Hs] Hst. unfold load_pocket, packet. rewrite <- !app_assoc.
  set (r := ack_bytes ack ++ d ++ stale).
  assert (4 <= zlen r) as Hr. { unfold r. destruct ack; unfold ack_bytes; rewrite !zlen_app, ?zlen_le_split; zlia. }
  assert (slice 0 4 r = match ack with Some a => le_split 4 a | None => slice 0 4 (d ++ stale) end) as Er.
  { unfold r. destruct ack; unfold ack_bytes; [|done]. rewrite slice_app_l by (rewrite ?zlen_le_split; lia).
    by apply slice_all. }
  set (h := [16 * PROTOCOL_UDT; pocket_flags typ ack; 0; 0] ++ le_split 2 port ++ le_split 2 win ++ le_split 4 seq).
  change ([16 * PROTOCOL_UDT; pocket_flags typ ack; 0; 0] ++ le_split 2 port ++ le_split 2 win ++ le_split 4 seq ++ r)
    with (h ++ r).
  assert (zlen h = 12) as Hh by done. unfold sizeof_pocket. rewrite mread_ok by (rewrite ?zlen_app; lia). cbn [mbind option_bind].
  replace (slice 0 16 (h ++ r)) with (h ++ slice 0 4 r).
  2:{ change 16 with (12 + 4) at 1. rewrite slice_split by lia. rewrite slice_app_l by lia.
      rewrite slice_app_r by lia. rewrite Hh. by f_equal. }
  f_equal. transitivity (mk_pocket (wrapu 4 (Z.shiftr 16 4)) (wrapu 4 (pocket_flags typ ack))
    (Z.testbit (pocket_flags typ ack) 6) (le_combine [0; 0]) (le_combine (le_split 2 port))
    (le_combine (le_split 2 win)) (le_combine (le_split 4 seq)) (le_combine (slice 0 4 r))).
  { unfold dec_pocket. f_equal. change (slice 12 4 (h ++ slice 0 4 r)) with (slice 0 4 (slice 0 4 r)).
    by rewrite slice_slice by lia. }
  rewrite flags_type, flags_ack, !le_combine_split, (wrapu_small 4 typ), Er by done.
  destruct ack; [|done]. by rewrite le_combine_split.
Qed.

Lemma seal_bytes l : bytes l -> bytes (seal l).
Proof.
  intros H. apply swapped_bytes in H. unfold seal. set (c := checksum_of _). clearbody c.
  destruct (swapped l) as [|? [|? [|? [|? t]]]]; try exact H. cbn [with_checksum]. rewrite !Forall_cons in *.
  pose proof (u8_byte (c / 256)). pose proof (u8_byte c). tauto.
Qed.
Lemma zlen_seal l : zlen (seal l) = zlen l.
Proof.
  unfold seal, zlen. rewrite <- (length_swapped l). f_equal. set (c := checksum_of _). clearbody c.
  by destruct (swapped l) as [|? [|? [|? [|? t]]]].
Qed.

(** What the receiver finds in its buffer after [_test_checksum] and
    [udt_net2host]: the packet, whatever was behind it. *)
Lemma unseal l stale : complete l -> bytes l -> zlen l < 2 ^ 16 -> no_checksum l = l ->
  exists m, _test_checksum (seal l ++ stale) 0 (zlen (seal l)) = Some (m, 1) /\
    _udt_net2host m 0 = Some (l ++ stale).
Proof.
  intros Hc Hb Hs Hn. pose proof (swapped_bytes l Hb) as Hsb. rewrite zlen_seal.
  assert (no_checksum (swapped l) = swapped l) as Hns.
  { clear - Hc Hn. complete_cases Hc; cbn [app swapped no_checksum] in *; injection Hn as <- <-; done. }
  pose proof (length_swapped l) as Ll. pose proof (swapped_involutive l Hc) as Hi.
  assert (complete (swapped l)) as Hcs.
  { clear - Hc. complete_cases Hc; cbn [app swapped]; rewrite Hack; unfold complete, carries_ack; cbn [nth length];
      rewrite Hack; split; intros; done || lia. }
  assert (exists b0 b1 t, swapped l = b0 :: b1 :: 0 :: 0 :: t) as (b0 & b1 & t & Es).
  { rewrite <- Hns. destruct Hcs as [Hlen _]. destruct (swapped l) as [|? [|? [|? [|? t]]]]; simpl in Hlen; try lia.
    by repeat eexists. }
  unfold seal. rewrite Hns, Es in *. cbn [with_checksum].
  pose proof (checksum_of_range _ Hsb) as Hcr. set (c := checksum_of _) in *.
  assert (bytes (b0 :: b1 :: u8 (c / 256) :: u8 c :: t)) as Hb'.
  { rewrite !Forall_cons in *. pose proof (u8_byte (c / 256)). pose proof (u8_byte c). tauto. }
  pose proof (test_checksum_ok [] b0 b1 (u8 (c / 256)) (u8 c) t stale (zlen l) Hb') as E.
  rewrite checksum_bytes, Z.eqb_refl in E by done.
  eexists. split; [apply E; [unfold zlen; rewrite <- Ll; done|done]|].
  pose proof (net2host_ok [] _ stale Hcs) as E'. rewrite Hi in E'. exact E'.
Qed.

(** a packet read from the network is the packet that was sent: the receiver's
    test accepts it, and in the buffer lie the fields and the data. *)
Theorem udt_packet_roundtrip typ ack port win seq d stale : fields_ok typ ack port win seq ->
  bytes d -> header_size ack + zlen d < 2 ^ 16 -> 4 <= zlen stale ->
  exists dg m m',
    _udt_host2net (packet typ ack port win seq d) 0 = Some m /\
    _set_checksum m 0 (zlen m) = Some dg /\
    (exists m1, _test_checksum (dg ++ stale) 0 (zlen dg) = Some (m1, 1) /\ _udt_net2host m1 0 = Some m') /\
    (exists p, load_pocket m' 0 = Some p /\ p_type p = typ /\ p_port p = port /\ p_window p = win /\
       p_sequence p = seq /\ forall a, ack = Some a -> p_ack p = true /\ p_ack_seq p = a) /\
    ndt_header_size m' 0 = Some (header_size ack) /\
    mread m' (header_size ack) (zlen d) = Some d.
Proof.
  intros Hf Hd Hs Hst. set (l := packet typ ack port win seq d).
  pose proof (packet_complete typ ack port win seq d : complete l) as Hc.
  pose proof (packet_bytes typ ack port win seq d Hd : bytes l) as Hb.
  pose proof (zlen_packet typ ack port win seq d : zlen l = _) as Hl.
  exists (seal l), (swapped l), (l ++ stale).
  pose proof (host2net_ok [] l [] Hc) as E1. rewrite !app_nil_r in E1. split; [exact E1|].
  assert (zlen (swapped l) = zlen l) as Ll by (unfold zlen; by rewrite length_swapped).
  split.
  { pose proof (set_checksum_ok [] (swapped l) [] (swapped_bytes _ Hb)) as E2. rewrite !app_nil_r in E2.
    apply E2; [|lia]. rewrite length_swapped. destruct Hc. lia. }
  split; [by apply unseal; [..|lia|]|].
  split.
  { eexists. split; [by apply packet_fields|]. cbn. split_and!; try done. intros a ->. done. }
  split.
  { unfold ndt_header_size, pocket_ack. pose proof (flags_ack typ ack) as Hfl.
    assert (mget (l ++ stale) (0 + 1) = Some (pocket_flags typ ack)) as ->.
    { unfold l, packet. rewrite <- !app_assoc.
      exact (mget_frame [] [16 * PROTOCOL_UDT; pocket_flags typ ack; 0; 0] _ 1 _ eq_refl). }
    cbn [mbind option_bind]. rewrite Hfl. by destruct ack. }
  assert (l = (packet typ ack port win seq []) ++ d) as El.
  { unfold l, packet. by rewrite !app_nil_r, <- !app_assoc. }
  rewrite El, <- app_assoc. replace (header_size ack) with (zlen (packet typ ack port win seq [])).
  2:{ rewrite zlen_packet. change (zlen []) with 0. lia. }
  rewrite mread_app by zlia. f_equal. rewrite slice_app_l by zlia. by apply slice_all.
Qed.

Lemma udt_packet_roundtrip_witness :
  fields_ok NDUDT_DATA (Some 4000000000) 7 512 258 /\
  exists dg m m',
    _udt_host2net (packet NDUDT_DATA (Some 4000000000) 7 512 258 [104; 105]) 0 = Some m /\
    _set_checksum m 0 (zlen m) = Some dg /\
    (exists m1, _test_checksum (dg ++ [0; 0; 0; 0]) 0 (zlen dg) = Some (m1, 1) /\ _udt_net2host m1 0 = Some m') /\
    (exists p, load_pocket m' 0 = Some p /\ p_type p = NDUDT_DATA /\ p_port p = 7 /\ p_window p = 512 /\
       p_sequence p = 258 /\ forall a, Some 4000000000 = Some a -> p_ack p = true /\ p_ack_seq p = a) /\
    ndt_header_size m' 0 = Some (header_size (Some 4000000000)) /\
    mread m' (header_size (Some 4000000000)) (zlen [104; 105]) = Some [104; 105].
Proof.
  assert (fields_ok NDUDT_DATA (Some 4000000000) 7 512 258) as Hf by (split; unfold NDUDT_DATA; lia).
  split; [exact Hf|].
  apply (udt_packet_roundtrip NDUDT_DATA (Some 4000000000) 7 512 258 [104; 105] [0; 0; 0; 0] Hf);
    [|reflexivity|discriminate].
  repeat (apply Forall_cons; split; [unfold is_byte; lia|]). by apply Forall_nil.
Defined.

(** ** Building a packet *)

Section Building.
Context (pre post : list Z).

Lemma init_packet old : zlen old = 12 ->
  init_udt_pocket (pre ++ old ++ post) (zlen pre) = Some (pre ++ packet NDUDT_DATA None 0 0 0 [] ++ post).
Proof.
  intros H. unfold zlen in H. do 12 (destruct old as [|? old]; [simpl in H; lia|]).
  destruct old; [|simpl in H; lia]. unfold init_udt_pocket, init_udt_header.
  match goal with |- context [pre ++ (?a :: ?b :: ?c :: ?d :: ?r) ++ post] =>
    change (pre ++ (a :: b :: c :: d :: r) ++ post) with (pre ++ [a; b; c; d] ++ (r ++ post)) end.
  match goal with |- context [mwrite (pre ++ ?h ++ ?r) _ ?x] => rewrite (mwrite_app pre h r x eq_refl) end. cbn [mbind option_bind].
  match goal with |- context [pre ++ ?h ++ (?a :: ?b :: ?c :: ?d :: ?e :: ?f :: ?g :: ?i :: []) ++ post] =>
    change (pre ++ h ++ (a :: b :: c :: d :: e :: f :: g :: i :: []) ++ post)
      with (pre ++ [16; 0; 0; 0; a; b; c; d; e; f; g; i] ++ post) end.
  by frame.
Qed.

Context (t : Z) (a : option Z) (p w s : Z) (d : list Z).
Let pk := packet t a p w s d.

Lemma packet_set_port v : store_u16 (pre ++ pk ++ post) (zlen pre + 4) v = Some (pre ++ packet t a v w s d ++ post).
Proof.
  unfold pk, packet. rewrite <- !app_assoc.
  exact (store_frame 2 pre ([16 * PROTOCOL_UDT; pocket_flags t a; 0; 0] ++ le_split 2 p ++ le_split 2 w ++ le_split 4 s)
    (ack_bytes a ++ d ++ post) 4 v _ eq_refl).
Qed.
Lemma packet_set_window v : store_u16 (pre ++ pk ++ post) (zlen pre + 6) v = Some (pre ++ packet t a p v s d ++ post).
Proof.
  unfold pk, packet. rewrite <- !app_assoc.
  exact (store_frame 2 pre ([16 * PROTOCOL_UDT; pocket_flags t a; 0; 0] ++ le_split 2 p ++ le_split 2 w ++ le_split 4 s)
    (ack_bytes a ++ d ++ post) 6 v _ eq_refl).
Qed.
Lemma packet_set_sequence v : store_u32 (pre ++ pk ++ post) (zlen pre + 8) v = Some (pre ++ packet t a p w v d ++ post).
Proof.
  unfold pk, packet. rewrite <- !app_assoc.
  exact (store_frame 4 pre ([16 * PROTOCOL_UDT; pocket_flags t a; 0; 0] ++ le_split 2 p ++ le_split 2 w ++ le_split 4 s)
    (ack_bytes a ++ d ++ post) 8 v _ eq_refl).
Qed.
Lemma packet_flag_byte : mget (pre ++ pk ++ post) (zlen pre + 1) = Some (pocket_flags t a).
Proof.
  unfold pk, packet. rewrite <- !app_assoc.
  exact (mget_frame pre [16 * PROTOCOL_UDT; pocket_flags t a; 0; 0] _ 1 _ eq_refl).
Qed.
Lemma packet_type_of : pocket_type (pre ++ pk ++ post) (zlen pre) = Some (wrapu 4 t).
Proof. unfold pocket_type. rewrite packet_flag_byte. cbn [mbind option_bind]. by rewrite flags_type. Qed.
Lemma packet_ack_of : pocket_ack (pre ++ pk ++ post) (zlen pre) = Some (match a with Some _ => true | None => false end).
Proof. unfold pocket_ack. rewrite packet_flag_byte. cbn [mbind option_bind]. by rewrite flags_ack. Qed.
Lemma packet_header_size_of : ndt_header_size (pre ++ pk ++ post) (zlen pre) = Some (header_size a).
Proof. unfold ndt_header_size. rewrite packet_ack_of. by destruct a. Qed.
Lemma packet_data_of : pocket_data (pre ++ pk ++ post) (zlen pre) = Some (zlen pre + header_size a).
Proof. unfold pocket_data. rewrite packet_ack_of. by destruct a. Qed.
End Building.

(** The flag bits of a packet that is still [NDUDT_DATA]. *)
Lemma packet_set_type pre post a p w s d t : 0 <= t < 16 ->
  set_pocket_type t (pre ++ packet NDUDT_DATA a p w s d ++ post) (zlen pre) = Some (pre ++ packet t a p w s d ++ post).
Proof.
  intros Ht. unfold set_pocket_type. rewrite packet_flag_byte. cbn [mbind option_bind].
  replace (Z.lor (Z.land (pocket_flags NDUDT_DATA a) 240) (wrapu 4 t)) with (pocket_flags t a).
  - unfold packet, mset. rewrite <- !app_assoc.
    exact (mwrite_frame pre [16 * PROTOCOL_UDT; pocket_flags NDUDT_DATA a; 0; 0] _ 1 [pocket_flags t a] _ eq_refl).
  - unfold pocket_flags. rewrite (wrapu_small 4 t) by done. destruct a.
    + change (Z.land (wrapu 4 NDUDT_DATA + 64) 240) with (1 * 2 ^ 6). rewrite lor_add; lia.
    + change (Z.land (wrapu 4 NDUDT_DATA + 0) 240) with 0. rewrite Z.lor_0_l. lia.
Qed.
Lemma packet_set_ack pre post t p w s old d ack : 0 <= t < 16 -> zlen old = 4 ->
  set_pocket_ack (pre ++ packet t None p w s old ++ d ++ post) (zlen pre) ack =
    Some (pre ++ packet t (Some ack) p w s d ++ post).
Proof.
  intros Ht Ho. unfold set_pocket_ack. rewrite packet_flag_byte. cbn [mbind option_bind].
  replace (Z.lor (pocket_flags t None) 64) with (pocket_flags t (Some ack)).
  2:{ unfold pocket_flags. rewrite (wrapu_small 4 t) by done. rewrite Z.lor_comm.
      change 64 with (1 * 2 ^ 6) at 2. rewrite lor_add; lia. }
  unfold mset, packet at 1. rewrite <- !app_assoc.
  rewrite (mwrite_frame pre [16 * PROTOCOL_UDT; pocket_flags t None; 0; 0] _ 1 [pocket_flags t (Some ack)]
    [16 * PROTOCOL_UDT; pocket_flags t (Some ack); 0; 0] eq_refl). cbn [mbind option_bind].
  unfold packet, ack_bytes. set (h := [_; _; 0; 0]).
  replace (pre ++ h ++ le_split 2 p ++ le_split 2 w ++ le_split 4 s ++ [] ++ old ++ d ++ post)
    with ((pre ++ h ++ le_split 2 p ++ le_split 2 w ++ le_split 4 s) ++ old ++ d ++ post) by (by rewrite <- !app_assoc).
  replace (zlen pre + 12) with (zlen (pre ++ h ++ le_split 2 p ++ le_split 2 w ++ le_split 4 s)) by (rewrite zlen_app; done).
  unfold store_u. rewrite mwrite_app by (by rewrite Ho). by rewrite <- !app_assoc.
Qed.

(** What [net2host] leaves of a packet after it was sent: the checksum has changed. *)
Lemma swapped_seal l : complete l ->
  complete (seal l) /\ exists h, swapped (seal l) = h ++ drop (if carries_ack l then 16 else 12) l /\
    zlen h = if carries_ack l then 16 else 12.
Proof.
  intros H. unfold seal. set (c := checksum_of _). clearbody c.
  complete_cases H; cbn [app swapped]; rewrite Hack; cbn [with_checksum swapped]; unfold complete, carries_ack; cbn [nth];
    rewrite Hack; (split; [split; [cbn [length]; lia|intros; cbn [length]; lia || done]|]).
  - by exists [b0; b1; u8 c; u8 (c / 256); p0; p1; w0; w1; s0; s1; s2; s3].
  - by exists [b0; b1; u8 c; u8 (c / 256); p0; p1; w0; w1; s0; s1; s2; s3; a0; a1; a2; a3].
Qed.

Lemma drop_packet t a p w s d : drop (if match a with Some _ => true | None => false end then 16 else 12) (packet t a p w s d) = d.
Proof. by destruct a. Qed.

Lemma packet_nil_app t a p w s d post : packet t a p w s [] ++ d ++ post = packet t a p w s d ++ post.
Proof. unfold packet. by rewrite app_nil_r, <- !app_assoc. Qed.
