(* ===== verification/UdtNode.v ===== *)
(** * UdtNode: connectors of the UDT protocol (udt_socket.c, udt_net.c, nd_udp.c)

    UDT is a reliable stream over datagrams: what [udt_send] takes waits in the send
    buffer until the peer has acknowledged it, [flush_send_window] sends what is not yet
    on its way, [udt_retranslate] sends again what was not acknowledged in time, and the
    receiver keeps packets that come too early in [pre_list].

    The operations change a connector and the operating system; they are written in the
    state monad [U], whose failure is undefined behaviour.  [nd_time] advances by the
    ticks of the script [u_ticks], [sendto], [recvfrom] and [select] answer from their
    scripts.  The header of a packet is built in the send buffer, in front of the data,
    and may lie in front of the buffer's block ([below]).  Locks, logging, statistics and
    proxies are left out; [nd_assert] is empty in the release build. *)

From S2P Require Import Prelude Bytes LineBuf Handle UdtPacket.

(** ** Constants (nd_udt.h) *)

Definition MAX_ATTEMPT_SEND : Z := 5.
Definition RETRANSLATE_TIME : Z := 10000.
Definition WAIT_CONNECT_TIME : Z := 15000.
Definition TIME_OUT_BETA : Z := 2.
Definition ND_NETBUF_SIZE : Z := 0x10000.
Definition ESOCKETTIMEOUT : Z := 11.
Definition NETSTAT_CLOSED : Z := 0.
Definition NETSTAT_LISTEN : Z := 1.
Definition NETSTAT_SYNSEND : Z := 2.
Definition NETSTAT_SYNRECV : Z := 4.
Definition NETSTAT_ACCEPT : Z := 8.
Definition NETSTAT_ESTABLISHED : Z := 0x10.
Definition NETSTAT_FINSEND : Z := 0x20.
Definition NETSTAT_SENDCLOSE : Z := 0x40.
Definition NETSTAT_RECVCLOSE : Z := 0x80.
Definition NETSTAT_RESET : Z := 0x100.

(** ** State *)

(** A packet that came too early: [pack] is the [pk_size] bytes of the packet and what
    follows them in the block. *)
Record _udt_packet_node := mk_pre { recvTm : Z; pk_size : Z; pack : mem }.
Definition sizeof_packet_node : Z := 40.
Definition offset_pack : Z := 24.

Record nd_udt_node := mk_udt {
  fd : Z;
  status : Z;   (* [enum _enetstat] *)
  myerrno : Z;
  sys_error : Z;
  level : Z;
  local_port : Z;   (* the session id; 0 until the server has given one *)
  remote_addr : Z;
  last_read : Z;   (* the address of the last datagram *)
  is_accept : bool;
  need_ack : bool;
  is_retranslate : bool;
  user_data_in : bool;
  read_again : bool;
  resend_times : Z;
  retrans_timeout : Z;
  last_resend_tm : Z;
  last_active : Z;
  update_tm : Z;
  last_recv : Z;
  last_push : Z;
  start_time : Z;
  send_len : Z;
  recv_len : Z;
  send_sequence : Z;
  acknowledged_seq : Z;
  received_sequence : Z;
  retrans_seq : Z;
  window_len : Z;   (* of the peer *)
  rtt_average : Z;
  rtt_deviation : Z;
  pre_list : list _udt_packet_node;
  recv_buffer : linebuf;
  send_buffer : linebuf;
  below : mem;   (* the bytes in front of the block of [send_buffer] *)
  close_cbs : list destroy_cb
}.

(** [set_field f]: the node with the field [f] replaced. *)
Ltac set_field f :=
  let v := fresh "v" in let nd := fresh "nd" in intros v nd;
  let e :=
    constr:(mk_udt (fd nd) (status nd) (myerrno nd) (sys_error nd) (level nd) (local_port nd)
      (remote_addr nd) (last_read nd) (is_accept nd) (need_ack nd) (is_retranslate nd)
      (user_data_in nd) (read_again nd) (resend_times nd) (retrans_timeout nd) (last_resend_tm nd)
      (last_active nd) (update_tm nd) (last_recv nd) (last_push nd) (start_time nd) (send_len nd)
      (recv_len nd) (send_sequence nd) (acknowledged_seq nd) (received_sequence nd) (retrans_seq nd)
      (window_len nd) (rtt_average nd) (rtt_deviation nd) (pre_list nd) (recv_buffer nd)
      (send_buffer nd) (below nd) (close_cbs nd)) in
  let p := constr:(f nd) in
  match e with context C [p] => let e := context C [v] in exact e end.
Definition set_fd : Z -> nd_udt_node -> nd_udt_node := ltac:(set_field fd).
Definition set_status : Z -> nd_udt_node -> nd_udt_node := ltac:(set_field status).
Definition set_myerrno : Z -> nd_udt_node -> nd_udt_node := ltac:(set_field myerrno).
Definition set_sys_error : Z -> nd_udt_node -> nd_udt_node := ltac:(set_field sys_error).
Definition set_level : Z -> nd_udt_node -> nd_udt_node := ltac:(set_field level).
Definition set_local_port : Z -> nd_udt_node -> nd_udt_node := ltac:(set_field local_port).
Definition set_remote_addr : Z -> nd_udt_node -> nd_udt_node := ltac:(set_field remote_addr).
Definition set_last_read : Z -> nd_udt_node -> nd_udt_node := ltac:(set_field last_read).
Definition set_is_accept : bool -> nd_udt_node -> nd_udt_node := ltac:(set_field is_accept).
Definition set_need_ack : bool -> nd_udt_node -> nd_udt_node := ltac:(set_field need_ack).
Definition set_is_retranslate : bool -> nd_udt_node -> nd_udt_node := ltac:(set_field is_retranslate).
Definition set_user_data_in : bool -> nd_udt_node -> nd_udt_node := ltac:(set_field user_data_in).
Definition set_read_again : bool -> nd_udt_node -> nd_udt_node := ltac:(set_field read_again).
Definition set_resend_times : Z -> nd_udt_node -> nd_udt_node := ltac:(set_field resend_times).
Definition set_retrans_timeout : Z -> nd_udt_node -> nd_udt_node := ltac:(set_field retrans_timeout).
Definition set_last_resend_tm : Z -> nd_udt_node -> nd_udt_node := ltac:(set_field last_resend_tm).
Definition set_last_active : Z -> nd_udt_node -> nd_udt_node := ltac:(set_field last_active).
Definition set_update_tm : Z -> nd_udt_node -> nd_udt_node := ltac:(set_field update_tm).
Definition set_last_recv : Z -> nd_udt_node -> nd_udt_node := ltac:(set_field last_recv).
Definition set_last_push : Z -> nd_udt_node -> nd_udt_node := ltac:(set_field last_push).
Definition set_start_time : Z -> nd_udt_node -> nd_udt_node := ltac:(set_field start_time).
Definition set_send_len : Z -> nd_udt_node -> nd_udt_node := ltac:(set_field send_len).
Definition set_recv_len : Z -> nd_udt_node -> nd_udt_node := ltac:(set_field recv_len).
Definition set_send_sequence : Z -> nd_udt_node -> nd_udt_node := ltac:(set_field send_sequence).
Definition set_acknowledged_seq : Z -> nd_udt_node -> nd_udt_node := ltac:(set_field acknowledged_seq).
Definition set_received_sequence : Z -> nd_udt_node -> nd_udt_node := ltac:(set_field received_sequence).
Definition set_retrans_seq : Z -> nd_udt_node -> nd_udt_node := ltac:(set_field retrans_seq).
Definition set_window_len : Z -> nd_udt_node -> nd_udt_node := ltac:(set_field window_len).
Definition set_rtt_average : Z -> nd_udt_node -> nd_udt_node := ltac:(set_field rtt_average).
Definition set_rtt_deviation : Z -> nd_udt_node -> nd_udt_node := ltac:(set_field rtt_deviation).
Definition set_pre_list : list _udt_packet_node -> nd_udt_node -> nd_udt_node := ltac:(set_field pre_list).
Definition set_recv_buffer : linebuf -> nd_udt_node -> nd_udt_node := ltac:(set_field recv_buffer).
Definition set_send_buffer : linebuf -> nd_udt_node -> nd_udt_node := ltac:(set_field send_buffer).
Definition set_below : mem -> nd_udt_node -> nd_udt_node := ltac:(set_field below).
Definition set_close_cbs : list destroy_cb -> nd_udt_node -> nd_udt_node := ltac:(set_field close_cbs).

(** A datagram that waits to be received, with its sender, or an error. *)
Inductive urecv := UDatagram (from : Z) (d : list Z) | UError (e : Z).
Record unet := mk_unet {
  u_now : Z;
  u_ticks : list Z;         (* how far the clock moves between the next calls of [nd_time] *)
  u_sends : list Z;         (* [errno] of the next calls of [sendto], 0 for success *)
  u_waits : list Z;         (* results of the next calls of [select] *)
  u_recvs : list urecv;     (* answers of the next calls of [recvfrom] *)
  u_out : list (list Z)     (* the datagrams sent so far *)
}.
Record world := mk_world { node : nd_udt_node; net : unet }.

(** ** The monad *)

Definition U (A : Type) : Type := world -> option (A * world).
#[export] Instance U_ret : MRet U := fun A x w => Some (x, w).
#[export] Instance U_bind : MBind U := fun A B f m w => '(x, w) ← m w; f x w.
Definition get_node : U nd_udt_node := fun w => Some (node w, w).
Definition upd (f : nd_udt_node -> nd_udt_node) : U unit := fun w => Some (tt, mk_world (f (node w)) (net w)).
Definition lift {A} (x : option A) : U A := fun w => x ← x; Some (x, w).
Definition undefined {A} : U A := fun _ => None.
Definition when (b : bool) (m : U unit) : U unit := if b then m else mret tt.

Definition nd_time : U Z := fun w =>
  let o := net w in
  let (t, ts) := match u_ticks o with [] => (0, []) | t :: ts => (t, ts) end in
  let now := u32 (u_now o + t) in
  Some (now, mk_world (node w) (mk_unet now ts (u_sends o) (u_waits o) (u_recvs o) (u_out o))).

(** [nd_socket_udp_write]: a datagram is taken as a whole or not at all.  Result and
    [errno]. *)
Definition nd_socket_udp_write (d : list Z) : U (Z * Z) := fun w =>
  let o := net w in
  let (e, es) := match u_sends o with [] => (0, []) | e :: es => (e, es) end in
  let set out := mk_world (node w) (mk_unet (u_now o) (u_ticks o) es (u_waits o) (u_recvs o) out) in
  Some (if e =? 0 then ((zlen d, 0), set (u_out o ++ [d])) else ((-1, e), set (u_out o))).

(** [nd_socket_wait_read] *)
Definition nd_socket_wait_read : U Z := fun w =>
  let o := net w in
  let (r, rs) := match u_waits o with [] => (0, []) | r :: rs => (r, rs) end in
  Some (r, mk_world (node w) (mk_unet (u_now o) (u_ticks o) (u_sends o) rs (u_recvs o) (u_out o))).

(** [nd_socket_udp_read] into a buffer of [size] bytes: result, [errno], sender and data. *)
Definition nd_socket_udp_read (size : Z) : U (Z * Z * option Z * list Z) := fun w =>
  let o := net w in
  let set rs := mk_world (node w) (mk_unet (u_now o) (u_ticks o) (u_sends o) (u_waits o) rs (u_out o)) in
  Some (match u_recvs o with
        | [] => ((-1, ESOCKETTIMEOUT, None, []), set [])
        | UError e :: rs => ((-1, e, None, []), set rs)
        | UDatagram a d :: rs =>
            let d := slice 0 size d in
            ((zlen d, 0, if 0 <? zlen d then Some a else None, d), set rs)
        end).

Definition has (nd : nd_udt_node) (flag : Z) : bool := negb (Z.land (status nd) flag =? 0).
Definition nd_object_seterror (e : Z) : U unit := upd (set_myerrno (u16 e)).
Definition send_window (nd : nd_udt_node) : Z :=
  let size := _lbuf_free_capacity (recv_buffer nd) in if 0xffff <? size then 0xffff else size.

(** ** Datagrams (nd_udp.c) *)

Definition nd_udp_send (data : list Z) (len : Z) : U Z :=
  '(ret, e) ← nd_socket_udp_write data;
  (if 0 <? ret then
     t ← nd_time; upd (set_last_push t);;
     upd (fun nd => set_send_len (u64 (send_len nd + len)) nd)
   else when (ret =? -1)
     (upd (set_myerrno (if e =? ESOCKETTIMEOUT then NDERR_WOULD_BLOCK else NDERR_WRITE))));;
  mret ret.

(** [buf] has [buf_size] bytes. *)
Definition nd_udp_read (buf : mem) (buf_size outval : Z) : U (mem * Z) :=
  upd (set_read_again false);;
  r ← (if negb (outval =? 0) then nd_socket_wait_read else mret 1);
  if r <=? 0 then
    upd (set_myerrno (if r =? 0 then NDERR_WOULD_BLOCK else NDERR_IO));; mret (buf, r)
  else
    '(readlen, e, from, d) ← nd_socket_udp_read buf_size;
    match from with Some a => upd (set_last_read a) | None => mret tt end;;
    if readlen =? -1 then
      upd (set_sys_error e);;
      if e =? ESOCKETTIMEOUT then upd (set_myerrno NDERR_WOULD_BLOCK);; mret (buf, 0)
      else upd (set_myerrno NDERR_READ);; mret (buf, -1)
    else
      buf ← lift (mwrite buf 0 d);
      upd (set_read_again true);;
      t ← nd_time; upd (set_last_recv t);;
      upd (fun nd => set_recv_len (u64 (recv_len nd + readlen)) nd);;
      mret (buf, readlen).

Definition nd_udp_close : U unit :=
  nd ← get_node;
  when (negb (fd nd =? 0)) (upd (set_fd 0);; upd (set_status 0)).

(** ** Packets in and out *)

Definition read_packet_from_socket (buf : mem) (bsize tmout : Z) : U (mem * Z) :=
  '(buf, len) ← nd_udp_read buf bsize tmout;
  if len <=? 0 then mret (buf, len)
  else
    '(buf, ok) ← lift (_test_checksum buf 0 len);
    if ok =? 0 then upd (set_myerrno NDERR_BADPACKET);; mret (buf, 0)
    else buf ← lift (_udt_net2host buf 0); mret (buf, len).

(** The packet of [len] bytes at [o] of [m]. *)
Definition write_pocket_to_socket (m : mem) (o len : Z) : U (mem * Z) :=
  nd ← get_node;
  m ← lift (store_u16 m (o + 4) (local_port nd));
  t ← lift (pocket_type m o);
  m ← lift (if negb (t =? NDUDT_DGRAM) then store_u16 m (o + 6) (u16 (send_window nd)) else Some m);
  m ← lift (_udt_host2net m o);
  m ← lift (_set_checksum m o len);
  d ← lift (mread m o len);
  ret ← nd_udp_send d len;
  m ← lift (_udt_net2host m o);
  when (ret =? len) (t ← nd_time; upd (set_last_active t));;
  mret (m, ret).

Section Udt.
Context `{!Malloc}.
(** What the local buffers hold before they are written ([udt_pocketbuf] has 2048
    bytes), the callback of the listener, the one for unreliable datagrams with the
    address and length of its data, and the size of a message from its first bytes. *)
Context (stack : mem) (accept_proc : option (nd_udt_node -> nd_udt_node))
  (data_entry : option (nd_udt_node -> mem -> Z -> nd_udt_node * Z)) (get_pack_size : list Z -> Z).

Definition sizeof_pocketbuf : Z := 2048.

(** A packet without data in a local [struct ndudt_pocket]. *)
Definition send_control (build : mem -> option mem) : U Z :=
  p ← lift (init_udt_pocket (slice 0 16 stack) 0);
  p ← lift (build p);
  len ← lift (ndt_header_size p 0);
  '(_, ret) ← write_pocket_to_socket p 0 len; mret ret.

Definition udt_send_ack : U Z :=
  nd ← get_node;
  send_control (fun p => p ← set_pocket_ack p 0 (received_sequence nd); set_pocket_type NDUDT_ACK p 0).

Definition send_reset : U Z := send_control (fun p => set_pocket_type NDUDT_RESET p 0).

Definition udt_reset (issend_reset : bool) : U unit :=
  when issend_reset (send_reset;; mret tt);;
  upd (fun nd => set_status (Z.lor (status nd) (NETSTAT_FINSEND + NETSTAT_RESET)) nd);;
  nd ← get_node;
  when (negb (is_accept nd) && negb (fd nd =? 0)) nd_udp_close.

(** ** Sending *)

Definition udt_send (data : list Z) (len : Z) : U Z :=
  nd ← get_node;
  if (status nd <? NETSTAT_ESTABLISHED) || has nd NETSTAT_FINSEND then
    upd (set_myerrno NDERR_CLOSED);; mret (-1)
  else if (len <? 1) || (_lbuf_capacity (send_buffer nd) <=? len) then
    upd (set_myerrno NDERR_INVALID_INPUT);; mret (-1)
  else
    upd (set_myerrno NDERR_SUCCESS);;
    '(lb, ret) ← lift (_lbuf_write (send_buffer nd) data len EBUF_SPECIFIED);
    upd (set_send_buffer lb);; mret ret.

Definition un_ack (nd : nd_udt_node) : Z := u32 (send_sequence nd - acknowledged_seq nd).
(** Where in the buffer's data to send from, and how much. *)
Definition send_window_start (nd : nd_udt_node) : option (Z * Z) :=
  let data_len := _lbuf_datalen (send_buffer nd) in
  if data_len <=? un_ack nd then None
  else
    let sendlen := data_len - un_ack nd in
    let sendlen := Z.min sendlen NDUDT_FRAGMENT_LEN in
    let sendlen := Z.min (window_len nd) sendlen in
    Some (un_ack nd, sendlen).

(** The memory around the block of the send buffer: an offset [o] of the block is
    [zlen (below nd) + o] of it. *)
Definition send_memory (nd : nd_udt_node) : option mem := m ← __buf (send_buffer nd); Some (below nd ++ m).
Definition put_send_memory (m : mem) (nd : nd_udt_node) : nd_udt_node :=
  let k := zlen (below nd) in
  let lb := send_buffer nd in
  set_below (slice 0 k m)
    (set_send_buffer (lb_set lb (__start lb) (__end lb) (slice k (zlen m - k) m)) nd).

Definition flush_send_window : U Z :=
  nd ← get_node;
  if has nd NETSTAT_SENDCLOSE || is_retranslate nd then mret 0
  else match send_window_start nd with
  | None => mret 0
  | Some (off, len) =>
      if len =? 0 then mret 0
      else
        m ← lift (send_memory nd);
        let send_addr := zlen (below nd) + __start (send_buffer nd) + off in
        let header_len := if need_ack nd then sizeof_pocket else sizeof_unack in
        let packet_hdr := send_addr - header_len in
        packet_backup ← lift (mread m packet_hdr sizeof_pocket);
        m ← lift (init_udt_pocket m packet_hdr);
        m ← (if need_ack nd then
               m ← lift (set_pocket_ack m packet_hdr (received_sequence nd));
               upd (set_need_ack false);; mret m
             else mret m);
        m ← lift (store_u32 m (packet_hdr + 8) (send_sequence nd));
        '(m, ret) ← write_pocket_to_socket m packet_hdr (len + header_len);
        when (ret =? len + header_len)
          (upd (fun nd => set_last_resend_tm (last_active nd) nd);;
           upd (fun nd => set_send_sequence (u32 (send_sequence nd + len)) nd);;
           upd (fun nd => set_window_len (u64 (window_len nd - len)) nd);;
           upd (fun nd => if s32 (window_len nd) <? 0 then set_window_len 0 nd else nd));;
        m ← lift (mwrite m packet_hdr packet_backup);
        upd (put_send_memory m);;
        mret ret
  end.

(** [while (flush_send_window(socket_node) > 0) {}] *)
Fixpoint flush_loop (fuel : nat) : U unit :=
  match fuel with
  | O => fun _ => None
  | S fuel => r ← flush_send_window; if 0 <? r then flush_loop fuel else mret tt
  end.
(** Every round sends at least one byte of the buffer. *)
Definition flush_all : U unit :=
  nd ← get_node; flush_loop (S (Z.to_nat (_lbuf_datalen (send_buffer nd)))).

Definition retranslate_data : U Z :=
  nd ← get_node;
  let sendseq := acknowledged_seq nd in
  let len := s32 (if is_retranslate nd then u32 (retrans_seq nd - acknowledged_seq nd)
                  else u32 (send_sequence nd - acknowledged_seq nd)) in
  when (negb (is_retranslate nd)) (upd (set_retrans_seq (acknowledged_seq nd)));;
  if len <=? 0 then mret 0
  else
    let len := Z.min len NDUDT_FRAGMENT_LEN in
    m ← lift (send_memory nd);
    let send_addr := zlen (below nd) + __start (send_buffer nd) in
    let header_len := if need_ack nd then sizeof_pocket else sizeof_unack in
    let packet_hdr := send_addr - header_len in
    packet_backup ← lift (mread m packet_hdr header_len);
    m ← (if need_ack nd then
           m ← lift (set_pocket_ack m packet_hdr (received_sequence nd));
           upd (set_need_ack false);; mret m
         else mret m);
    m ← lift (init_udt_pocket m packet_hdr);
    m ← lift (store_u32 m (packet_hdr + 8) sendseq);
    '(m, sendlen) ← write_pocket_to_socket m packet_hdr (len + header_len);
    m ← lift (mwrite m packet_hdr packet_backup);
    upd (put_send_memory m);;
    if sendlen =? len + header_len then
      upd (fun nd => set_last_resend_tm (last_active nd) nd);;
      upd (fun nd => if s32 (window_len nd) <? 0 then set_window_len 0 nd else nd);;
      upd (fun nd => if is_retranslate nd then nd else set_retrans_seq (u32 (retrans_seq nd + len)) nd);;
      mret len
    else mret 0.

Definition udt_retranslate : U Z :=
  nd ← get_node;
  let unnotified := s32 (u32 (send_sequence nd - acknowledged_seq nd)) in
  if unnotified <=? 0 then mret 0
  else if u32 (update_tm nd - last_resend_tm nd) <? retrans_timeout nd then mret 0
  else if is_retranslate nd && (MAX_ATTEMPT_SEND <=? resend_times nd) then
    nd_object_seterror NDERR_WOULD_BLOCK;; mret (-1)
  else
    ret ← retranslate_data;
    when (0 <? ret)
      (upd (fun nd =>
         if is_retranslate nd then
           set_retrans_timeout (u32 (Z.shiftl (retrans_timeout nd) 1))
             (set_resend_times (u16 (resend_times nd + 1)) nd)
         else set_resend_times 1 (set_is_retranslate true nd)));;
    mret ret.

(** [data] points to offset [o] of [m]; the header is built in front of it. *)
Definition udt_sendto (m : mem) (o len : Z) : U (mem * Z) :=
  if (len <? 1) || (ND_UDP_PACKET_SIZE - UDP_PACKET_HEAD_SIZE <? len) then
    nd_object_seterror NDERR_INVALID_INPUT;; mret (m, -1)
  else
    let p_send := o - UDP_PACKET_HEAD_SIZE in
    tmp ← lift (mread m p_send UDP_PACKET_HEAD_SIZE);
    m ← lift (init_udt_header m p_send);
    m ← lift (set_pocket_type NDUDT_DGRAM m p_send);
    '(m, ret) ← write_pocket_to_socket m p_send (len + UDP_PACKET_HEAD_SIZE);
    m ← lift (mwrite m p_send tmp);
    mret (m, ret).

(** ** Acknowledgements *)

(** [calc_timeouval]: the new average and deviation, and the timeout. *)
Definition calc_timeouval (average deviation measuerment : Z) : Z * Z * Z :=
  let err := s32 (measuerment - Z.shiftr average 3) in
  let average := s32 (average + err) in
  let err := if err <? 0 then s32 (- err) else err in
  let err := s32 (err - Z.shiftr deviation 2) in
  let deviation := s32 (deviation + err) in
  let ret := Z.shiftr (s32 (Z.shiftr average 2 + deviation)) 1 in
  (average, deviation, if ret <? 500 then 500 else ret).

Definition _handle_ack (ack_seq : Z) : U Z :=
  nd ← get_node;
  let notified := s32 (u32 (ack_seq - acknowledged_seq nd)) in
  let unnotified := s32 (u32 (send_sequence nd - ack_seq)) in
  if ack_seq <=? acknowledged_seq nd then mret 0
  else if status nd =? NETSTAT_SYNRECV then
    if notified <? 0 then nd_object_seterror NDERR_BADPACKET;; mret 0
    else
      when (u32 (send_sequence nd + 1) =? ack_seq)
        (upd (set_status NETSTAT_ACCEPT);;
         upd (set_acknowledged_seq ack_seq);;
         upd (fun nd => set_send_sequence (u32 (send_sequence nd + 1)) nd);;
         match accept_proc with
         | Some f =>
             upd f;;
             upd (fun nd => set_start_time (update_tm nd) nd);;
             upd (set_status NETSTAT_ESTABLISHED)
         | None => mret tt
         end);;
      mret 0
  else if has nd NETSTAT_FINSEND then
    when (send_sequence nd =? ack_seq)
      (upd (set_send_sequence ack_seq);;
       lb ← lift (_lbuf_reset (send_buffer nd));
       upd (set_send_buffer lb);;
       upd (fun nd => set_status (Z.lor (status nd) NETSTAT_SENDCLOSE) nd);;
       upd (fun nd => if has nd NETSTAT_RECVCLOSE then set_status (Z.lor (status nd) NETSTAT_RESET) nd else nd));;
    mret 0
  else
    when ((0 <? notified) && (0 <? _lbuf_datalen (send_buffer nd)) && (0 <=? unnotified))
      (lb ← lift (_lbuf_sub_data (send_buffer nd) notified);
       upd (set_send_buffer lb);;
       upd (set_acknowledged_seq ack_seq);;
       upd (fun nd =>
         if is_retranslate nd then nd
         else
           let interv := s32 (u32 (update_tm nd - last_resend_tm nd)) in
           let '(a, d, t) := calc_timeouval (rtt_average nd) (rtt_deviation nd) interv in
           set_retrans_timeout (u32 t) (set_rtt_deviation d (set_rtt_average a nd))));;
    upd (fun nd =>
      if is_retranslate nd && (0 <=? s32 (u32 (ack_seq - retrans_seq nd))) then
        set_resend_times 0 (set_retrans_seq ack_seq (set_is_retranslate false nd))
      else nd);;
    mret 0.

(** ** Packets that come too early *)

Definition pre_seq (p : _udt_packet_node) : option Z := h ← load_pocket (pack p) 0; Some (p_sequence h).

(** [list_add] puts the packet behind [pos], [list_add_tail] in front of it. *)
Fixpoint insert_pre (pnode : _udt_packet_node) (l : list _udt_packet_node) : option (list _udt_packet_node) :=
  match l with
  | [] => Some [pnode]
  | plist :: l =>
      let tmval := s32 (u32 (recvTm pnode - recvTm plist)) in
      if tmval <? 0 then Some (plist :: pnode :: l)
      else if tmval =? 0 then
        s1 ← pre_seq pnode;
        s2 ← pre_seq plist;
        Some (if s32 (u32 (s1 - s2)) <? 0 then plist :: pnode :: l else pnode :: plist :: l)
      else l ← insert_pre pnode l; Some (plist :: l)
  end.

Definition _addto_pre_list (packet : mem) (len : Z) : U Z :=
  match malloc (sizeof_packet_node + len) with
  | None => mret (-1)
  | Some blk =>
      t ← nd_time;
      d ← lift (mread packet 0 len);
      nd ← get_node;
      l ← lift (insert_pre (mk_pre t len (d ++ slice (offset_pack + len) sizeof_pocket blk)) (pre_list nd));
      upd (set_pre_list l);; mret 0
  end.

(** Takes the data of a packet into the receive buffer. *)
Definition take_data (pocket : mem) (data_len : Z) : U Z :=
  o ← lift (pocket_data pocket 0);
  upd (set_need_ack true);;
  upd (fun nd => set_received_sequence (u32 (received_sequence nd + data_len)) nd);;
  nd ← get_node;
  '(lb, ret) ← lift (_lbuf_write (recv_buffer nd) (drop (Z.to_nat o) pocket) data_len EBUF_ALL);
  upd (set_recv_buffer lb);;
  upd (set_user_data_in true);;
  mret ret.

Definition _handle_pre_packet (pocket : mem) (len : Z) : U Z :=
  hs ← lift (ndt_header_size pocket 0);
  let data_len := s32 (len - hs) in
  h ← lift (load_pocket pocket 0);
  nd ← get_node;
  if negb (p_sequence h =? received_sequence nd) then mret 1
  else if _lbuf_free_capacity (recv_buffer nd) <? u64 data_len then mret (-1)
  else take_data pocket data_len;; mret 0.

(** The packets that are left. *)
Fixpoint fetch_loop (l : list _udt_packet_node) : U (list _udt_packet_node) :=
  match l with
  | [] => mret []
  | plist :: l =>
      ret ← _handle_pre_packet (pack plist) (pk_size plist);
      if ret =? 0 then fetch_loop l else mret (plist :: l)
  end.
Definition _tryto_fetch_prelist : U Z :=
  nd ← get_node; l ← fetch_loop (pre_list nd); upd (set_pre_list l);; mret 0.

(** Drops packets that came twice and packets older than a minute. *)
Fixpoint update_pre_loop (l : list _udt_packet_node) : U (list _udt_packet_node * Z) :=
  match l with
  | [] => mret ([], 0)
  | plist :: l =>
      s ← lift (pre_seq plist);
      nd ← get_node;
      let seq_val := s32 (u32 (s - received_sequence nd)) in
      t ← nd_time;
      let tm_val := s32 (u32 (t - recvTm plist)) in
      '(l, ret) ← update_pre_loop l;
      mret (if (seq_val <? 0) || (60000 <? tm_val) then (l, ret + 1) else (plist :: l, ret))
  end.
Definition _update_prelist : U Z :=
  nd ← get_node; '(l, ret) ← update_pre_loop (pre_list nd); upd (set_pre_list l);; mret ret.

(** ** Packets that have come in (udt_net.c) *)

Definition _handle_income_data (pocket : mem) (len : Z) : U Z :=
  hs ← lift (ndt_header_size pocket 0);
  let data_len := s32 (len - hs) in
  if data_len <=? 0 then mret 0
  else
    h ← lift (load_pocket pocket 0);
    nd ← get_node;
    let seq_offset := s32 (u32 (p_sequence h - received_sequence nd)) in
    if 0 <? seq_offset then _addto_pre_list pocket len;; mret 0
    else if seq_offset <? 0 then udt_send_ack;; mret 0
    else if _lbuf_free_capacity (recv_buffer nd) <? data_len then mret 0
    else
      ret ← take_data pocket data_len;
      nd ← get_node;
      when (match pre_list nd with [] => false | _ => true end) (_tryto_fetch_prelist;; mret tt);;
      mret ret.

Definition _handle_syn (pocket : mem) : U Z :=
  h ← lift (load_pocket pocket 0);
  nd ← get_node;
  if status nd =? NETSTAT_LISTEN then
    upd (set_acknowledged_seq (send_sequence nd));;
    upd (set_received_sequence (u32 (p_sequence h + 1)));;
    nd ← get_node;
    send_control (fun p =>
      p ← set_pocket_type NDUDT_SYN p 0;
      p ← set_pocket_ack p 0 (received_sequence nd);
      store_u32 p 8 (send_sequence nd));;
    upd (set_status NETSTAT_SYNRECV);;
    mret 0
  else if status nd =? NETSTAT_SYNSEND then
    if negb (p_ack h) || negb (u32 (send_sequence nd + 1) =? p_ack_seq h) then
      nd_object_seterror NDERR_BADPACKET;; mret (-1)
    else
      upd (set_local_port (p_port h));;
      upd (set_received_sequence (u32 (p_sequence h + 1)));;
      upd (set_acknowledged_seq (p_ack_seq h));;
      upd (set_status NETSTAT_ESTABLISHED);;
      upd (fun nd => set_send_sequence (u32 (send_sequence nd + 1)) nd);;
      udt_send_ack;;
      mret 0
  else if status nd <? NETSTAT_ACCEPT then
    if received_sequence nd =? u32 (p_sequence h + 1) then udt_send_ack;; mret 0
    else mret (-1)
  else nd_object_seterror NDERR_BADPACKET;; mret (-1).

Definition packet_switch (h : ndudt_pocket) (pocket : mem) (len : Z) : U Z :=
  let t := p_type h in
  if t =? NDUDT_DATA then
    when (p_ack h) (_handle_ack (p_ack_seq h);; mret tt);;
    ret ← _handle_income_data pocket len;
    when (0 <? ret) flush_all;;
    mret ret
  else if t =? NDUDT_DGRAM then
    match data_entry with
    | Some f =>
        nd ← get_node;
        let '(nd', ret) := f nd (drop (Z.to_nat UDP_PACKET_HEAD_SIZE) pocket) (u64 (len - UDP_PACKET_HEAD_SIZE)) in
        upd (fun _ => nd');; mret ret
    | None => mret (s32 len)
    end
  else if t =? NDUDT_SYN then _handle_syn pocket
  else if t =? NDUDT_ALIVE then mret 0
  else if t =? NDUDT_ACK then _handle_ack (p_ack_seq h)
  else if t =? NDUDT_LOST then
    _handle_ack (p_ack_seq h);;
    nd ← get_node;
    let offset_lost := s32 (u32 (p_sequence h - acknowledged_seq nd)) in
    let offset_unget := s32 (u32 (send_sequence nd - p_sequence h)) in
    if (offset_lost <=? 0) || (offset_unget <? 0) then mret 0
    else upd (set_send_sequence (p_sequence h));; retranslate_data;; mret 0
  else if t =? NDUDT_FIN then
    when (p_ack h) (_handle_ack (p_ack_seq h);; mret tt);;
    nd ← get_node;
    when (negb (has nd NETSTAT_RECVCLOSE))
      (upd (fun nd => set_status (Z.lor (status nd) NETSTAT_RECVCLOSE) nd);;
       upd (set_received_sequence (p_sequence h));;
       upd (fun nd => if has nd (NETSTAT_SENDCLOSE + NETSTAT_FINSEND)
                      then set_status (Z.lor (status nd) NETSTAT_RESET) nd else nd));;
    udt_send_ack;;
    upd (set_myerrno NDERR_CLOSED);;
    mret (-1)
  else if t =? NDUDT_RESET then
    upd (fun nd => set_status (Z.lor (status nd) NETSTAT_RESET) nd);;
    upd (set_myerrno NDERR_RESET);;
    mret (-1)
  else mret 0.

Definition _udt_packet_handler (pocket : mem) (len : Z) : U Z :=
  nd ← get_node;
  if has nd NETSTAT_RESET then send_reset;; mret 0
  else
    t ← nd_time;
    upd (set_last_recv t);;
    upd (fun nd => set_update_tm (last_recv nd) nd);;
    nd_object_seterror NDERR_SUCCESS;;
    h ← lift (load_pocket pocket 0);
    when (0 <? p_window h) (upd (set_window_len (p_window h)));;
    ret ← packet_switch h pocket len;
    nd ← get_node;
    mret (if (ret =? -1) && (myerrno nd =? NDERR_BADPACKET) then 0 else ret).

(** ** Driving a connector *)

Definition update_socket : U Z :=
  now ← nd_time;
  upd (set_update_tm now);;
  nd_object_seterror NDERR_SUCCESS;;
  nd ← get_node;
  when (has nd NETSTAT_ESTABLISHED && match pre_list nd with [] => false | _ => true end)
    (_update_prelist;; mret tt);;
  sent ← flush_send_window;
  r ← (if 0 <? sent then flush_all;; mret 1 else udt_retranslate);
  if negb (0 <? sent) && (r =? -1) then mret (-1)
  else
    nd ← get_node;
    when (need_ack nd) (udt_send_ack;; upd (set_need_ack false));;
    mret 1.

(** [msg_buf]: offset [o] of [m]; [len] is the length in its header ([nd_pack_len]). *)
Definition udt_connector_send (m : mem) (o len flag : Z) : U (mem * Z) :=
  upd (set_myerrno NDERR_SUCCESS);;
  if negb (Z.land flag 4 =? 0) then udt_sendto m o len
  else
    ret ← udt_send (drop (Z.to_nat o) m) len;
    when (0 <=? ret) (flush_send_window;; mret tt);;
    mret (m, ret).

Definition check_income_udp_packet (nd : nd_udt_node) (addr : Z) : bool := remote_addr nd =? addr.

(** The round [RE_WAIT] of [_wait_data], which runs again while [tmout] lasts. *)
Fixpoint wait_data_loop (fuel : nat) (buf : mem) (waittime tmout : Z) : U (mem * Z) :=
  match fuel with
  | O => fun _ => None
  | S fuel =>
      '(buf, ret) ← read_packet_from_socket buf sizeof_pocketbuf waittime;
      nd ← get_node;
      if ret <=? 0 then
        if (ret =? 0) || (myerrno nd =? NDERR_WOULD_BLOCK) then
          let err := myerrno nd in
          r ← update_socket;
          if r =? -1 then mret (buf, -1)
          else
            let tmout := u32 (tmout - waittime) in
            upd (set_myerrno err);;
            if 0 <? s32 tmout then wait_data_loop fuel buf waittime tmout else mret (buf, ret)
        else mret (buf, ret)
      else
        h ← lift (load_pocket buf 0);
        if negb (check_income_udp_packet nd (last_read nd)) then
          upd (set_myerrno NDERR_BADPACKET);; mret (buf, -1)
        else if negb (local_port nd =? 0) then
          if negb (local_port nd =? p_port h) then upd (set_myerrno NDERR_BADPACKET);; mret (buf, -1)
          else upd (fun nd => set_update_tm (last_recv nd) nd);; mret (buf, ret)
        else if negb (p_type h =? NDUDT_SYN) then upd (set_myerrno NDERR_BADPACKET);; mret (buf, -1)
        else upd (fun nd => set_update_tm (last_recv nd) nd);; mret (buf, ret)
  end.
(** [tmout] shrinks by [waittime] each round; a round with [tmout <= 50] is the last. *)
Definition _wait_data (buf : mem) (tmout : Z) : U (mem * Z) :=
  let waittime := if 50 <? tmout then 50 else tmout in
  update_socket;;
  wait_data_loop (S (S (Z.to_nat (tmout / 50)))) buf waittime tmout.

Definition udt_recv (buffer : mem) (bsize : Z) : U (mem * Z) :=
  upd (set_user_data_in false);;
  nd ← get_node;
  r ← (if is_accept nd then mret 0
       else
         '(buf, ret) ← _wait_data stack 0;
         if 0 <? ret then _udt_packet_handler buf ret else mret 0);
  if negb (is_accept nd) && (r =? -1) then mret (buffer, -1)
  else
    nd ← get_node;
    if 0 <? _lbuf_datalen (recv_buffer nd) then
      '(lb, buffer, ret) ← lift (_lbuf_read (recv_buffer nd) buffer bsize EBUF_ALL);
      upd (set_recv_buffer lb);; mret (buffer, ret)
    else mret (buffer, 0).

(** The round [RE_WAIT]: every round but the last reads a packet. *)
Fixpoint wait_packet_loop (fuel : nat) (databuf : mem) (tmout : Z) : U Z :=
  match fuel with
  | O => fun _ => None
  | S fuel =>
      beginTm ← nd_time;
      '(databuf, ret) ← _wait_data databuf tmout;
      if ret <=? 0 then mret ret
      else
        ret ← _udt_packet_handler databuf ret;
        nd ← get_node;
        let data_len := _lbuf_datalen (recv_buffer nd) in
        msg ← lift (if 0 <? ret then m ← __buf (recv_buffer nd); Some (drop (Z.to_nat (__start (recv_buffer nd))) m)
                    else Some []);
        if (0 <? ret) && (get_pack_size msg <=? data_len) then mret (s32 data_len)
        else if negb (0 <? ret) && (ret =? -1) then mret (-1)
        else
          t ← nd_time;
          let leftTime := s32 (u32 (tmout - u32 (t - beginTm))) in
          if 0 <? leftTime then wait_packet_loop fuel databuf leftTime else mret 0
  end.
Definition udt_wait_packet (tmout : Z) : U Z := fun w =>
  (upd (set_user_data_in false);; wait_packet_loop (S (length (u_recvs (net w)))) stack tmout) w.

(** ** Opening and closing *)

Fixpoint syn_loop (i : nat) (buf : mem) : U Z :=
  match i with
  | O => mret (-1)
  | S i =>
      nd ← get_node;
      ret ← send_control (fun p => p ← set_pocket_type NDUDT_SYN p 0; store_u32 p 8 (send_sequence nd));
      if ret =? -1 then mret (-1)
      else
        upd (set_status NETSTAT_SYNSEND);;
        '(buf, ret) ← read_packet_from_socket buf sizeof_pocketbuf WAIT_CONNECT_TIME;
        r ← (if 0 <? ret then _udt_packet_handler buf ret else mret (-1));
        nd ← get_node;
        if (0 <? ret) && (0 <=? r) && (status nd =? NETSTAT_ESTABLISHED) then mret 0 else syn_loop i buf
  end.
Definition _udt_syn : U Z := syn_loop 3 stack.

(** [sock] and [addr]: what opening the socket gave. *)
Definition nd_udp_connect (sock addr : Z) : U Z :=
  upd (set_remote_addr addr);;
  upd (set_fd sock);;
  if sock <=? 0 then upd (set_myerrno NDERR_OPENFILE);; mret (-1) else mret 0.

Definition udt_connect (sock addr : Z) : U bool :=
  r ← nd_udp_connect sock addr;
  if r =? -1 then mret false
  else
    r ← _udt_syn;
    if r =? 0 then t ← nd_time; upd (set_start_time t);; mret true else mret false.

Definition udt_send_fin : U Z :=
  nd ← get_node;
  upd (fun nd =>
    if negb (has nd NETSTAT_FINSEND) then
      set_resend_times 0 (set_is_retranslate false (set_status (Z.lor (status nd) NETSTAT_FINSEND) nd))
    else set_resend_times (u16 (resend_times nd + 1)) (set_is_retranslate true nd));;
  upd (fun nd => set_resend_times (u16 (resend_times nd + 1)) nd);;
  ret ← send_control (fun p => p ← set_pocket_type NDUDT_FIN p 0; store_u32 p 8 (send_sequence nd));
  if 0 <? ret then upd (fun nd => set_last_resend_tm (last_active nd) nd);; mret 0 else mret (-1).

(** The two loops of [_udt_fin_send_handle]: [Some r] is a [return r]. *)
Fixpoint fin_loop (i : nat) : U (option Z) :=
  match i with
  | O => udt_reset false;; nd_object_seterror NDERR_TIMEOUT;; mret (Some (-1))
  | S i =>
      r ← udt_send_fin;
      if r =? -1 then udt_reset false;; mret (Some (-1))
      else
        nd ← get_node;
        ret ← udt_wait_packet (u32 (Z.shiftl (retrans_timeout nd) 2));
        nd ← get_node;
        if has nd NETSTAT_SENDCLOSE then mret None
        else if ret =? -1 then udt_reset false;; mret (Some (-1))
        else fin_loop i
  end.
Fixpoint recv_close_loop (i : nat) : U Z :=
  match i with
  | O => mret 0
  | S i =>
      nd ← get_node;
      ret ← udt_wait_packet (u32 (Z.shiftl (retrans_timeout nd) 2));
      nd ← get_node;
      if has nd NETSTAT_RECVCLOSE then mret 0
      else if ret =? -1 then udt_reset false;; mret (-1)
      else recv_close_loop i
  end.
Definition _udt_fin_send_handle : U Z :=
  nd ← get_node;
  r ← (if negb (has nd NETSTAT_SENDCLOSE) then fin_loop (Z.to_nat MAX_ATTEMPT_SEND) else mret None);
  match r with
  | Some r => mret r
  | None =>
      nd ← get_node;
      if has nd NETSTAT_RECVCLOSE then mret 0 else recv_close_loop (Z.to_nat MAX_ATTEMPT_SEND)
  end.

Definition udt_close (force : Z) : U Z :=
  (if negb (force =? 0) then udt_reset true
   else
     nd ← get_node;
     when (status nd =? NETSTAT_ESTABLISHED) flush_all;;
     _udt_fin_send_handle;; mret tt);;
  nd_udp_close;;
  mret 0.

(** ** Life cycle *)

(** The bytes in front of the block that the allocator gave to the send buffer. *)
Definition _udt_connector_init (lead : mem) : nd_udt_node :=
  let empty := mk_lbuf 0 0 0 0 0 None in
  mk_udt 0 NETSTAT_CLOSED 0 0 0 0 0 0 false false false false false 0 (RETRANSLATE_TIME * TIME_OUT_BETA)
    0 0 0 0 0 0 0 0 0 0 0 0 0 RETRANSLATE_TIME 0 [] empty empty lead [].
Definition nd_udtnode_init (lead : mem) : option nd_udt_node :=
  let nd := _udt_connector_init lead in
  '(lb, _) ← _lbuf_init (recv_buffer nd) ND_NETBUF_SIZE;
  let nd := set_recv_buffer lb nd in
  '(lb, _) ← _lbuf_init (send_buffer nd) ND_NETBUF_SIZE;
  Some (set_send_buffer lb nd).

Definition _release_pre_list (nd : nd_udt_node) : nd_udt_node := set_pre_list [] nd.

(** [_nd_object_on_destroy(node, 0)]; the second result is the callbacks that ran. *)
Definition on_destroy (nd : nd_udt_node) : nd_udt_node * list destroy_cb :=
  let o := mk_obj 0 0 (myerrno nd) None 1 [] (close_cbs nd) in
  let '(o, _, ran) := _nd_object_on_destroy o 0 in
  (set_close_cbs (__release_cb_hdr o) nd, ran).

Definition nd_udtnode_reset : U (list destroy_cb) :=
  upd _release_pre_list;;
  nd ← get_node;
  let '(nd, ran) := on_destroy nd in
  upd (fun _ => nd);;
  upd (fun nd => set_myerrno 0 (set_sys_error 0 nd));;
  t ← nd_time;
  upd (fun nd => set_last_recv t (set_last_push t nd));;
  upd (fun nd => set_status NETSTAT_CLOSED (set_level 0 (set_local_port 0 nd)));;
  upd (fun nd => set_resend_times 0 (set_user_data_in false (set_is_retranslate false (set_need_ack false nd))));;
  upd (fun nd => set_update_tm 0 (set_last_active 0 (set_last_resend_tm 0 nd)));;
  upd (fun nd => set_received_sequence 0 (set_acknowledged_seq 0 (set_send_sequence 0 nd)));;
  upd (fun nd => set_window_len 0 (set_retrans_seq 0 nd));;
  upd (fun nd => set_rtt_deviation 0 (set_rtt_average RETRANSLATE_TIME nd));;
  upd (set_retrans_timeout (RETRANSLATE_TIME * TIME_OUT_BETA));;
  nd ← get_node;
  lb ← lift (_lbuf_reset (recv_buffer nd));
  upd (set_recv_buffer lb);;
  lb ← lift (_lbuf_reset (send_buffer nd));
  upd (set_send_buffer lb);;
  mret ran.

Definition _deinit_udt_socket : U (list destroy_cb) :=
  upd _release_pre_list;;
  upd (set_status NETSTAT_CLOSED);;
  nd ← get_node;
  lb ← lift (_lbuf_destroy (recv_buffer nd));
  upd (set_recv_buffer lb);;
  lb ← lift (_lbuf_destroy (send_buffer nd));
  upd (set_send_buffer lb);;
  nd ← get_node;
  let '(nd, ran) := on_destroy nd in
  upd (fun _ => nd);; mret ran.

(** ** Sessions of a listener (udt_srv.c) *)

(** [connect_out]: the callback of the listener, with its effect on the session. *)
Definition _close_listend_socket (connect_out : option (nd_udt_node -> nd_udt_node)) (force : Z) : U Z :=
  nd ← get_node;
  (if negb (force =? 0) || (has nd NETSTAT_ESTABLISHED && negb (has nd NETSTAT_SENDCLOSE))
   then udt_send_fin;; mret tt
   else udt_reset true);;
  nd ← get_node;
  match connect_out with
  | Some f =>
      when (negb (local_port nd =? 0) && has nd NETSTAT_ESTABLISHED)
        (upd f;; upd (fun nd => set_status (Z.land (status nd) (Z.lnot NETSTAT_ESTABLISHED)) nd))
  | None => mret tt
  end;;
  mret 0.

Definition update_udt_session : U Z :=
  nd ← get_node;
  if status nd =? NETSTAT_ESTABLISHED then
    r ← update_socket;
    when (r =? -1) (udt_reset false);; mret 0
  else if status nd <? NETSTAT_ESTABLISHED then
    t ← nd_time;
    when (retrans_timeout nd <? u32 (t - last_recv nd)) (udt_reset false);; mret 0
  else if has nd NETSTAT_RESET then mret (-1)
  else if has nd NETSTAT_FINSEND && negb (has nd NETSTAT_SENDCLOSE) then
    if resend_times nd <? 2 then
      now ← nd_time;
      when (retrans_timeout nd <? u32 (now - last_resend_tm nd)) (udt_send_fin;; mret tt);; mret 0
    else mret (-1)
  else mret 0.

(** A session that has just been given the id [port] ([alloc_listen_socket] and
    [pump_insrv_udt_data]); [sock] is the socket of the listener. *)
Definition open_session (sock port addr : Z) : U unit :=
  upd (fun nd => set_fd sock (set_is_accept true (set_status NETSTAT_LISTEN nd)));;
  upd (fun nd => set_remote_addr addr (set_local_port port nd));;
  t ← nd_time;
  upd (set_last_recv t);;
  upd (fun nd => set_update_tm (last_recv nd) nd).

(** [udt_session_data_handle] (nd_srvcore/udp_listen.c); [deliver] is [handle_recv_data]. *)
Definition udt_session_data_handle (deliver : U Z) (pocket : mem) (len addr : Z) : U Z :=
  upd (set_user_data_in false);;
  nd ← get_node;
  if check_income_udp_packet nd addr then
    ret ← _udt_packet_handler pocket len;
    nd ← get_node;
    if ret =? -1 then mret (-1)
    else if user_data_in nd then deliver
    else mret ret
  else mret 0.

(** [read_datagram] of the listener: the length, the sender and the packet in host order;
    0 when there is none.  The error is that of the listener, not of a session. *)
Definition read_datagram (buf : mem) (buf_size : Z) : U (mem * Z * option Z) :=
  '(len, _, from, d) ← nd_socket_udp_read buf_size;
  if len <=? 0 then mret (buf, len, from)
  else
    buf ← lift (mwrite buf 0 d);
    '(buf, ok) ← lift (_test_checksum buf 0 len);
    if ok =? 0 then mret (buf, 0, from)
    else
      buf ← lift (_udt_net2host buf 0);
      h ← lift (load_pocket buf 0);
      mret (buf, if p_protocol h =? PROTOCOL_UDT then len else 0, from).

(** A SYN for a session.  When [_handle_syn] refuses it the session is released, and then
    its [recv_len] is written. *)
Definition pump_syn (pocket : mem) (len : Z) : U Z :=
  r ← _handle_syn pocket;
  if r =? -1 then udt_reset false;; undefined
  else upd (fun nd => set_recv_len (u64 (recv_len nd + len)) nd);; mret 0.

(** [pump_insrv_udt_data] for a SYN without an id, when the connection manager gives the
    new session the id [port]. *)
Definition pump_new_session (sock port addr : Z) (pocket : mem) (len : Z) : U Z :=
  open_session sock port addr;; pump_syn pocket len.

(** [pump_insrv_udt_data] for this session: a packet with another id is for another
    session; the root's [data_proc] is [data_handle] (nd_srvcore/udp_listen.c), whose
    closing of the session on -1 is left to its caller. *)
Definition pump_insrv_udt_data (deliver : U Z) (pocket : mem) (len addr : Z) : U Z :=
  h ← lift (load_pocket pocket 0);
  nd ← get_node;
  if negb (p_port h =? local_port nd) then mret 0
  else if p_type h =? NDUDT_SYN then
    t ← nd_time;
    upd (set_last_recv t);;
    upd (fun nd => set_update_tm (last_recv nd) nd);;
    pump_syn pocket len
  else udt_session_data_handle deliver pocket len addr.

(** What a round of [_utd_main_thread] does to this session. *)
Definition main_thread_round (deliver : U Z) : U Z :=
  '(buf, len, from) ← read_datagram stack sizeof_pocketbuf;
  match from with
  | Some addr => if 0 <? len then pump_insrv_udt_data deliver buf len addr else mret 0
  | None => mret 0
  end.
End Udt.
