(* ===== verification/UdtFlow.v ===== *)
(** * UdtFlow: reasoning about the operations of a UDT connector

    The rules for the monad [U], with partial ([wlp]) and with total correctness ([uwp]),
    the part of a connector that its streams depend on, and sending a packet. *)

From S2P Require Import Prelude Bytes LineBuf Handle UdtPacket UdtNode.

Lemma slice_whole {A} n (l : list A) : zlen l <= n -> slice 0 n l = l.
Proof. intros H. unfold slice, zlen in *. rewrite drop_0. apply take_ge. lia. Qed.
Lemma mwrite_front m d : zlen d <= zlen m -> mwrite m 0 d = Some (d ++ slice (zlen d) (zlen m - zlen d) m).
Proof. intros H. pose proof (zlen_nonneg d). rewrite mwrite_ok by lia. by rewrite slice_0. Qed.

(** ** Reasoning about [U] *)

(** [Q] holds of the result, if the operation has one. *)
Definition wlp {A} (m : U A) (w : world) (Q : A -> world -> Prop) : Prop :=
  forall a w', m w = Some (a, w') -> Q a w'.

Lemma wlp_mono {A} (m : U A) w (P Q : A -> world -> Prop) :
  wlp m w P -> (forall a w', P a w' -> Q a w') -> wlp m w Q.
Proof. intros H HQ a w' E. by apply HQ, H. Qed.
Lemma wlp_ret {A} (x : A) w (Q : A -> world -> Prop) : Q x w -> wlp (mret x) w Q.
Proof. intros H a w' [= <- <-]. done. Qed.
Lemma wlp_bind {A B} (m : U A) (f : A -> U B) w (Q : B -> world -> Prop) :
  wlp m w (fun a w' => wlp (f a) w' Q) -> wlp (m ≫= f) w Q.
Proof.
  intros H b w' E. unfold mbind, U_bind in E. destruct (m w) as [[a w1]|] eqn:Em; [|done]. by apply (H a w1).
Qed.
Lemma wlp_assoc {A B C} (m : U A) (f : A -> U B) (g : B -> U C) w (Q : C -> world -> Prop) :
  wlp (x ← m; f x) w (fun y w' => wlp (g y) w' Q) -> wlp (x ← m; y ← f x; g y) w Q.
Proof.
  intros H. apply wlp_bind. intros x w1 Ex. apply wlp_bind. intros y w2 Ey. apply H.
  unfold mbind, U_bind. by rewrite Ex.
Qed.
Lemma wlp_get {B} (f : nd_udt_node -> U B) w (Q : B -> world -> Prop) :
  wlp (f (node w)) w Q -> wlp (get_node ≫= f) w Q.
Proof. intros H. by apply wlp_bind; intros ? ? [= <- <-]. Qed.
Lemma wlp_upd {B} g (f : unit -> U B) w (Q : B -> world -> Prop) :
  wlp (f tt) (mk_world (g (node w)) (net w)) Q -> wlp (upd g ≫= f) w Q.
Proof. intros H. by apply wlp_bind; intros ? ? [= <- <-]. Qed.
Lemma wlp_upd_last g w (Q : unit -> world -> Prop) : Q tt (mk_world (g (node w)) (net w)) -> wlp (upd g) w Q.
Proof. by intros H ? ? [= <- <-]. Qed.
Lemma wlp_lift {A B} (x : option A) (f : A -> U B) w (Q : B -> world -> Prop) :
  (forall y, x = Some y -> wlp (f y) w Q) -> wlp (lift x ≫= f) w Q.
Proof.
  intros H. apply wlp_bind. intros ? ? E. unfold lift in E. destruct x; [|done]. injection E as <- <-. by apply H.
Qed.
Lemma wlp_lift_ok {A B} (x : option A) y (f : A -> U B) w (Q : B -> world -> Prop) :
  x = Some y -> wlp (f y) w Q -> wlp (lift x ≫= f) w Q.
Proof. intros -> H. apply wlp_lift. by intros ? [= <-]. Qed.
Lemma wlp_if {A} (b : bool) (m1 m2 : U A) w (Q : A -> world -> Prop) :
  (b = true -> wlp m1 w Q) -> (b = false -> wlp m2 w Q) -> wlp (if b then m1 else m2) w Q.
Proof. destruct b; auto. Qed.
Lemma wlp_when (b : bool) (m : U unit) w (Q : unit -> world -> Prop) :
  (b = true -> wlp m w Q) -> (b = false -> Q tt w) -> wlp (when b m) w Q.
Proof. destruct b; intros H1 H2; [by apply H1|]. intros [] ? [= <-]. by apply H2. Qed.

(** [Q] holds of the result, and the operation has one. *)
Definition uwp {A} (m : U A) (w : world) (Q : A -> world -> Prop) : Prop :=
  exists a w', m w = Some (a, w') /\ Q a w'.

Lemma uwp_wlp {A} (m : U A) w (Q : A -> world -> Prop) : uwp m w Q -> wlp m w Q.
Proof. intros (a & w' & E & H) b w2 E2. rewrite E in E2. by injection E2 as <- <-. Qed.
Lemma uwp_mono {A} (m : U A) w (P Q : A -> world -> Prop) :
  uwp m w P -> (forall a w', P a w' -> Q a w') -> uwp m w Q.
Proof. intros (a & w' & E & H) HQ. exists a, w'. auto. Qed.
Lemma uwp_ret {A} (x : A) w (Q : A -> world -> Prop) : Q x w -> uwp (mret x) w Q.
Proof. intros H. by exists x, w. Qed.
Lemma uwp_bind {A B} (m : U A) (f : A -> U B) w (Q : B -> world -> Prop) :
  uwp m w (fun a w' => uwp (f a) w' Q) -> uwp (m ≫= f) w Q.
Proof. intros (a & w1 & E & b & w2 & E2 & H). exists b, w2. unfold mbind, U_bind. by rewrite E. Qed.
Lemma uwp_get {B} (f : nd_udt_node -> U B) w (Q : B -> world -> Prop) :
  uwp (f (node w)) w Q -> uwp (get_node ≫= f) w Q.
Proof. intros H. apply uwp_bind. by exists (node w), w. Qed.
Lemma uwp_upd {B} g (f : unit -> U B) w (Q : B -> world -> Prop) :
  uwp (f tt) (mk_world (g (node w)) (net w)) Q -> uwp (upd g ≫= f) w Q.
Proof. intros H. apply uwp_bind. by exists tt, (mk_world (g (node w)) (net w)). Qed.
Lemma uwp_upd_last g w (Q : unit -> world -> Prop) : Q tt (mk_world (g (node w)) (net w)) -> uwp (upd g) w Q.
Proof. intros H. by exists tt, (mk_world (g (node w)) (net w)). Qed.
Lemma uwp_lift_ok {A B} (x : option A) y (f : A -> U B) w (Q : B -> world -> Prop) :
  x = Some y -> uwp (f y) w Q -> uwp (lift x ≫= f) w Q.
Proof. intros -> H. apply uwp_bind. by exists y, w. Qed.
Lemma uwp_if {A} (b : bool) (m1 m2 : U A) w (Q : A -> world -> Prop) :
  (b = true -> uwp m1 w Q) -> (b = false -> uwp m2 w Q) -> uwp (if b then m1 else m2) w Q.
Proof. destruct b; auto. Qed.
Lemma uwp_when (b : bool) (m : U unit) w (Q : unit -> world -> Prop) :
  (b = true -> uwp m w Q) -> (b = false -> Q tt w) -> uwp (when b m) w Q.
Proof. destruct b; intros H1 H2; [by apply H1|]. by apply uwp_ret, H2. Qed.

(** Walks through the program: what has a rule is removed from the goal. *)
Ltac ustep :=
  lazymatch goal with
  | |- wlp (mbind _ get_node) _ _ => apply wlp_get
  | |- wlp (mbind _ (upd _)) _ _ => apply wlp_upd
  | |- wlp (upd _) _ _ => apply wlp_upd_last
  | |- wlp (mbind _ (lift _)) _ _ => apply wlp_lift; intros ? ?
  | |- wlp (mbind _ (mret _)) _ _ => apply wlp_bind, wlp_ret
  | |- wlp (mbind _ (mbind _ _)) _ _ => apply wlp_bind
  | |- wlp (mbind _ (when _ _)) _ _ => apply wlp_bind, wlp_when; intros ?
  | |- wlp (mbind _ (if _ then _ else _)) _ _ => apply wlp_bind, wlp_if; intros ?
  | |- wlp (mret _) _ _ => apply wlp_ret
  | |- wlp (when _ _) _ _ => apply wlp_when; intros ?
  | |- wlp (if _ then _ else _) _ _ => apply wlp_if; intros ?
  | |- uwp (mbind _ get_node) _ _ => apply uwp_get
  | |- uwp (mbind _ (upd _)) _ _ => apply uwp_upd
  | |- uwp (upd _) _ _ => apply uwp_upd_last
  | |- uwp (mbind _ (mret _)) _ _ => apply uwp_bind, uwp_ret
  | |- uwp (mbind _ (mbind _ _)) _ _ => apply uwp_bind
  | |- uwp (mbind _ (when _ _)) _ _ => apply uwp_bind, uwp_when; intros ?
  | |- uwp (mbind _ (if _ then _ else _)) _ _ => apply uwp_bind, uwp_if; intros ?
  | |- uwp (mret _) _ _ => apply uwp_ret
  | |- uwp (when _ _) _ _ => apply uwp_when; intros ?
  | |- uwp (if _ then _ else _) _ _ => apply uwp_if; intros ?
  end; cbn [node net].

(** ** The part of a connector that the stream depends on *)

Definition core (nd : nd_udt_node) :=
  (send_buffer nd, recv_buffer nd, acknowledged_seq nd, send_sequence nd, received_sequence nd,
   (retrans_seq nd, is_retranslate nd, need_ack nd, pre_list nd, below nd, local_port nd, status nd, window_len nd)).

(** [quiet G w w']: it has not changed, nothing was read from the network, and what was
    sent satisfies [G]. *)
Record quiet (G : list Z -> Prop) (w w' : world) : Prop := {
  q_core : core (node w') = core (node w);
  q_recvs : u_recvs (net w') = u_recvs (net w);
  q_out : exists sent, u_out (net w') = u_out (net w) ++ sent /\ Forall G sent
}.

Lemma quiet_node G w nd : core nd = core (node w) -> quiet G w (mk_world nd (net w)).
Proof. intros H. split; [done|done|]. exists []. by rewrite app_nil_r. Qed.
Lemma quiet_trans G w1 w2 w3 : quiet G w1 w2 -> quiet G w2 w3 -> quiet G w1 w3.
Proof.
  intros [C1 R1 (s1 & O1 & H1)] [C2 R2 (s2 & O2 & H2)]. split; [by rewrite C2|by rewrite R2|].
  exists (s1 ++ s2). split; [by rewrite O2, O1, <- app_assoc|]. by apply Forall_app.
Qed.
Lemma quiet_upd G w1 w2 g : quiet G w1 w2 -> core (g (node w2)) = core (node w2) ->
  quiet G w1 (mk_world (g (node w2)) (net w2)).
Proof. intros H C. eapply quiet_trans; [exact H|]. by apply quiet_node. Qed.

(** [passes sent w w']: it has not changed, nothing was read from the network, and [sent]
    was sent. *)
Record passes (sent : list (list Z)) (w w' : world) : Prop := {
  p_core : core (node w') = core (node w);
  p_recvs : u_recvs (net w') = u_recvs (net w);
  p_waits : u_waits (net w') = u_waits (net w);
  p_out : u_out (net w') = u_out (net w) ++ sent;
  p_sends : u_sends (net w) = [] -> u_sends (net w') = []
}.
Lemma passes_quiet G sent w w' : passes sent w w' -> Forall G sent -> quiet G w w'.
Proof. intros [C R _ O _] H. split; [done|done|]. by exists sent. Qed.
Lemma passes_node w nd : core nd = core (node w) -> passes [] w (mk_world nd (net w)).
Proof. intros H. split; [done|done|done|by rewrite app_nil_r|done]. Qed.
Lemma passes_trans s1 s2 w1 w2 w3 : passes s1 w1 w2 -> passes s2 w2 w3 -> passes (s1 ++ s2) w1 w3.
Proof.
  intros [C1 R1 W1 O1 S1] [C2 R2 W2 O2 S2]. split; [by rewrite C2|by rewrite R2|by rewrite W2|by rewrite O2, O1, <- app_assoc|auto].
Qed.
Lemma passes_upd sent w1 w2 nd : passes sent w1 w2 -> core nd = core (node w2) -> passes sent w1 (mk_world nd (net w2)).
Proof. intros H C. rewrite <- (app_nil_r sent). eapply passes_trans; [exact H|]. by apply passes_node. Qed.

Lemma uwp_time {B} (f : Z -> U B) w (Q : B -> world -> Prop) :
  (forall t w', node w' = node w -> passes [] w w' -> uwp (f t) w' Q) -> uwp (nd_time ≫= f) w Q.
Proof.
  intros H. apply uwp_bind. unfold uwp, nd_time. destruct (u_ticks (net w)); eexists _, _; (split; [done|]);
    (apply H; [done|split; [done|done|done|by rewrite app_nil_r|done]]).
Qed.
Lemma wlp_time {B} (f : Z -> U B) w (Q : B -> world -> Prop) :
  (forall t w', node w' = node w -> u_recvs (net w') = u_recvs (net w) -> u_out (net w') = u_out (net w) ->
     wlp (f t) w' Q) -> wlp (nd_time ≫= f) w Q.
Proof.
  intros H. apply wlp_bind. intros t w' E. unfold nd_time in E.
  destruct (u_ticks (net w)); injection E as <- <-; by apply H.
Qed.

Lemma uwp_udp_send d len w (Q : Z -> world -> Prop) : 0 < zlen d -> (forall w', passes [d] w w' -> Q (zlen d) w') ->
  (u_sends (net w) <> [] -> forall w', passes [] w w' -> Q (-1) w') -> uwp (nd_udp_send d len) w Q.
Proof.
  intros Hd Hs Hf. unfold nd_udp_send.
  set (rest := fun x : Z * Z => _). change (fun '(ret, e) => _) with rest.
  assert (forall e w1, passes [d] w w1 -> uwp (rest (zlen d, e)) w1 Q) as Hok.
  { intros e w1 P1. unfold rest. rewrite (proj2 (Z.ltb_lt 0 (zlen d))) by done. ustep.
    apply uwp_time. intros t w2 _ P2. repeat ustep. apply Hs. eapply (passes_upd [d] w w2); [|done].
    rewrite <- (app_nil_r [d]). by eapply passes_trans. }
  apply uwp_bind. unfold uwp at 1, nd_socket_udp_write.
  destruct (u_sends (net w)) as [|e es] eqn:Es; cbn [Z.eqb].
  { eexists _, _. split; [reflexivity|]. apply Hok. by split. }
  destruct (e =? 0); eexists _, _; (split; [reflexivity|]).
  - apply Hok. split; [done|done|done|done|]. by rewrite Es.
  - unfold rest. change (0 <? -1) with false. cbv iota. ustep; [|done]. repeat ustep. apply Hf; [done|].
    split; [done|done|done|by rewrite app_nil_r|by rewrite Es].
Qed.

(** ** Sending a packet *)

Lemma uwp_write_packet pre post t a p0 w0 s d m o len w (Q : mem * Z -> world -> Prop) :
  m = pre ++ packet t a p0 w0 s d ++ post -> o = zlen pre -> len = header_size a + zlen d ->
  0 <= t < NDUDT_DGRAM -> bytes d -> len < 2 ^ 16 ->
  (forall h w', zlen h = header_size a ->
     passes [seal (packet t a (local_port (node w)) (u16 (send_window (node w))) s d)] w w' ->
     Q (pre ++ h ++ d ++ post, len) w') ->
  (forall h w', zlen h = header_size a -> u_sends (net w) <> [] -> passes [] w w' -> Q (pre ++ h ++ d ++ post, -1) w') ->
  uwp (write_pocket_to_socket m o len) w Q.
Proof.
  intros -> -> -> Ht Hd Hs HQ Hno. unfold write_pocket_to_socket. ustep.
  eapply uwp_lift_ok; [apply packet_set_port|]. eapply uwp_lift_ok; [apply packet_type_of|].
  rewrite wrapu_small by (unfold NDUDT_DGRAM in *; lia).
  replace (negb (t =? NDUDT_DGRAM)) with true by (symmetry; apply negb_true_iff, Z.eqb_neq; lia).
  eapply uwp_lift_ok; [apply packet_set_window|].
  set (l := packet t a (local_port (node w)) (u16 (send_window (node w))) s d) in *.
  assert (complete l) as Hc by apply packet_complete.
  assert (bytes l) as Hb by (by apply packet_bytes).
  assert (zlen l = header_size a + zlen d) as Hl by apply zlen_packet.
  assert (zlen (swapped l) = zlen l) as Lsw by (unfold zlen; by rewrite length_swapped).
  assert (zlen (seal l) = zlen l) as Lse by apply zlen_seal.
  eapply uwp_lift_ok; [by apply host2net_ok|].
  eapply uwp_lift_ok.
  { rewrite <- Hl, <- Lsw. apply set_checksum_ok; [by apply swapped_bytes| |lia].
    rewrite length_swapped. destruct Hc. lia. }
  fold (seal l). eapply uwp_lift_ok.
  { rewrite mread_app by (rewrite zlen_app; pose proof (zlen_nonneg post); pose proof (zlen_nonneg d); destruct a; simpl in *; lia).
    rewrite slice_app_l by (pose proof (zlen_nonneg (seal l)); lia). rewrite slice_all by lia. done. }
  destruct (swapped_seal l Hc) as (Hcs & h & Esw & Lh).
  replace (drop (if carries_ack l then 16 else 12) l) with d in Esw.
  2:{ unfold l. rewrite packet_carries. symmetry. apply drop_packet. }
  assert (zlen h = header_size a) as Lh'.
  { rewrite Lh. unfold l. rewrite packet_carries. by destruct a. }
  assert (forall sent ret w', passes sent w w' ->
    (forall w2, passes sent w w2 -> Q (pre ++ h ++ d ++ post, ret) w2) ->
    uwp (m ← lift (_udt_net2host (pre ++ seal l ++ post) (zlen pre));
        when (ret =? header_size a + zlen d) (t ← nd_time; upd (set_last_active t));; mret (m, ret)) w' Q) as Hend.
  { intros sent ret w' Hq Hr. eapply uwp_lift_ok; [by apply net2host_ok|]. rewrite Esw, <- app_assoc.
    ustep.
    - apply uwp_time. intros t' w2 N2 P2. repeat ustep. apply Hr. eapply passes_upd; [|done].
      rewrite <- (app_nil_r sent). by eapply passes_trans.
    - repeat ustep. by apply Hr. }
  apply uwp_bind. apply uwp_udp_send; [pose proof (zlen_nonneg d); destruct a; simpl in *; lia|..].
  - intros w' P. rewrite Lse, Hl. eapply Hend; [exact P|]. intros w2 P2. by apply HQ.
  - intros Hn w' P. eapply Hend; [exact P|]. intros w2 P2. by apply Hno.
Qed.

Lemma wlp_write_packet G pre post t a p0 w0 s d m o len w (Q : mem * Z -> world -> Prop) :
  m = pre ++ packet t a p0 w0 s d ++ post -> o = zlen pre -> len = header_size a + zlen d ->
  0 <= t < NDUDT_DGRAM -> bytes d -> len < 2 ^ 16 ->
  G (seal (packet t a (local_port (node w)) (u16 (send_window (node w))) s d)) ->
  (forall h ret w', zlen h = header_size a -> quiet G w w' -> ret = len \/ ret = -1 ->
     Q (pre ++ h ++ d ++ post, ret) w') ->
  wlp (write_pocket_to_socket m o len) w Q.
Proof.
  intros Em Eo El Ht Hd Hs HG HQ. eapply uwp_wlp, uwp_write_packet; [done..| |].
  - intros h w' Lh P. apply HQ; [done| |by left]. eapply passes_quiet; [exact P|]. by apply Forall_singleton.
  - intros h w' Lh _ P. apply HQ; [done| |by right]. eapply passes_quiet; [exact P|]. by apply Forall_nil.
Qed.

(** A packet without data, from the local buffer of 16 bytes. *)
Definition built (build : mem -> option mem) (t : Z) (a : option Z) (s : Z) : Prop :=
  forall x, zlen x = 4 -> exists y, build (packet NDUDT_DATA None 0 0 0 x) = Some (packet t a 0 0 s y) /\
    zlen y = (match a with Some _ => 0 | None => 4 end).

(** A packet that is a block of its own. *)
Lemma whole_set_type a p w s d t : 0 <= t < 16 ->
  set_pocket_type t (packet NDUDT_DATA a p w s d) 0 = Some (packet t a p w s d).
Proof. intros Ht. pose proof (packet_set_type [] [] a p w s d t Ht) as E. by rewrite !app_nil_r in E. Qed.
Lemma whole_set_ack t p w s old x : 0 <= t < 16 -> zlen old = 4 ->
  set_pocket_ack (packet t None p w s old) 0 x = Some (packet t (Some x) p w s []).
Proof. intros Ht Ho. pose proof (packet_set_ack [] [] t p w s old [] x Ht Ho) as E. by rewrite !app_nil_r in E. Qed.
Lemma whole_set_sequence t a p w s d v : store_u32 (packet t a p w s d) 8 v = Some (packet t a p w v d).
Proof. pose proof (packet_set_sequence [] [] t a p w s d v) as E. by rewrite !app_nil_r in E. Qed.

(** [built] for the packets without data that the code sends. *)
Lemma built_ack x : built (fun p => p ← set_pocket_ack p 0 x; set_pocket_type NDUDT_ACK p 0) NDUDT_ACK (Some x) 0.
Proof.
  intros y Hy. exists []. split; [|done]. rewrite whole_set_ack by (unfold NDUDT_DATA; lia || done).
  cbn [mbind option_bind]. by apply whole_set_type.
Qed.
Lemma built_type t : 0 <= t < 16 -> built (fun p => set_pocket_type t p 0) t None 0.
Proof. intros Ht y Hy. exists y. split; [by apply whole_set_type|done]. Qed.
Lemma built_seq t s : 0 <= t < 16 -> built (fun p => p ← set_pocket_type t p 0; store_u32 p 8 s) t None s.
Proof.
  intros Ht y Hy. exists y. split; [|done]. rewrite whole_set_type by done. apply whole_set_sequence.
Qed.
Lemma built_syn_ack x s : built (fun p => p ← set_pocket_type NDUDT_SYN p 0; p ← set_pocket_ack p 0 x; store_u32 p 8 s)
  NDUDT_SYN (Some x) s.
Proof.
  intros y Hy. exists []. split; [|done]. rewrite whole_set_type by done. cbn [mbind option_bind].
  rewrite whole_set_ack by done. apply whole_set_sequence.
Qed.

Section Flow.
Context `{!Malloc} (stack : mem) (Hstack : zlen stack = 2048).

Lemma uwp_send_control build t a s w (Q : Z -> world -> Prop) : built build t a s -> 0 <= t < NDUDT_DGRAM ->
  (forall w', passes [seal (packet t a (local_port (node w)) (u16 (send_window (node w))) s [])] w w' -> Q (header_size a) w') ->
  (u_sends (net w) <> [] -> forall w', passes [] w w' -> Q (-1) w') -> uwp (send_control stack build) w Q.
Proof using Hstack.
  intros Hb Ht HQ Hno. unfold send_control.
  set (x := slice 12 4 stack). assert (zlen x = 4) as Lx by (apply zlen_slice; lia).
  assert (slice 0 16 stack = [] ++ slice 0 12 stack ++ x) as E.
  { change 16 with (12 + 4). rewrite slice_split by lia. done. }
  eapply uwp_lift_ok.
  { rewrite E. apply (init_packet [] x). apply zlen_slice; lia. }
  cbn [app]. replace (packet NDUDT_DATA None 0 0 0 [] ++ x) with (packet NDUDT_DATA None 0 0 0 x)
    by (unfold packet; by rewrite app_nil_r, <- !app_assoc).
  destruct (Hb x Lx) as (y & Ey & Ly). eapply uwp_lift_ok; [exact Ey|].
  assert (packet t a 0 0 s y = [] ++ packet t a 0 0 s [] ++ y) as Ep.
  { unfold packet. cbn [app]. by rewrite <- !app_assoc. }
  rewrite Ep. eapply uwp_lift_ok; [apply (packet_header_size_of [])|].
  apply uwp_bind. eapply (uwp_write_packet [] y t a 0 0 s []); try done.
  - change (zlen []) with 0. lia.
  - by destruct a.
  - intros h w' _ P. repeat ustep. by apply HQ.
  - intros h w' _ Hn P. repeat ustep. by apply Hno.
Qed.

Lemma wlp_send_control G build t a s w (Q : Z -> world -> Prop) : built build t a s -> 0 <= t < NDUDT_DGRAM ->
  G (seal (packet t a (local_port (node w)) (u16 (send_window (node w))) s [])) ->
  (forall ret w', quiet G w w' -> Q ret w') -> wlp (send_control stack build) w Q.
Proof using Hstack.
  intros Hb Ht HG HQ. eapply uwp_wlp, uwp_send_control; [done..| |].
  - intros w' P. apply HQ. eapply passes_quiet; [exact P|]. by apply Forall_singleton.
  - intros _ w' P. apply HQ. eapply passes_quiet; [exact P|]. by apply Forall_nil.
Qed.
End Flow.
