(* ===== verification/UdtOpen.v ===== *)
(** * UdtOpen: the handshake of UDT

    The client's SYN opens a session of the listener, which answers with a SYN and the
    acknowledgement 1; the client acknowledges and is connected, and the session is when
    it has this acknowledgement.  Both then stand at sequence number 1. *)

From S2P Require Import Prelude Bytes LineBuf Handle UdtPacket UdtNode UdtFlow.

(** A connector with empty buffers in the state [st], with these sequence numbers. *)
Record endpoint (st snd ack rcv : Z) (nd : nd_udt_node) : Prop := {
  ep_status : status nd = st;
  ep_seqs : (send_sequence nd, acknowledged_seq nd, received_sequence nd, retrans_seq nd) = (snd, ack, rcv, 0);
  ep_need : need_ack nd = false;
  ep_pre : pre_list nd = [];
  ep_below : zlen (below nd) = 16;
  ep_port : 0 <= local_port nd < 2 ^ 16;
  ep_window : 0 <= window_len nd;
  ep_send : lbuf_wf (send_buffer nd) /\ auto_inc (send_buffer nd) = 0 /\ lbuf_content (send_buffer nd) = [];
  ep_recv : lbuf_wf (recv_buffer nd) /\ lbuf_content (recv_buffer nd) = []
}.
(** A connector after the handshake. *)
Definition fresh : nd_udt_node -> Prop := endpoint NETSTAT_ESTABLISHED 1 1 1.

Lemma endpoint_move st s a r st' s' a' r' port win nd nd' : endpoint st s a r nd -> 0 <= port < 2 ^ 16 -> 0 <= win ->
  core nd' = core (set_window_len win (set_local_port port (set_status st' (set_send_sequence s'
    (set_acknowledged_seq a' (set_received_sequence r' nd)))))) -> endpoint st' s' a' r' nd'.
Proof.
  intros [E1 E2 E3 E4 E5 E6 E7 E8 E9] Hp Hw C. injection E2 as F1 F2 F3 F4.
  unfold core in C. cbn in C. injection C as C1 C2 C3 C4 C5 C6 C7 C8 C9 C10 C11 C12 C13.
  split; rewrite ?C1, ?C2, ?C3, ?C4, ?C5, ?C6, ?C8, ?C9, ?C10, ?C11, ?C12, ?C13; try done. by rewrite F4.
Qed.
Lemma endpoint_core st s a r nd nd' : endpoint st s a r nd -> core nd' = core nd -> endpoint st s a r nd'.
Proof.
  intros H C. eapply (endpoint_move st s a r st s a r (local_port nd) (window_len nd)); [exact H|apply H..|].
  rewrite C. destruct H as [E1 E2 _ _ _ _ _ _ _]. injection E2 as F1 F2 F3 _. unfold core. cbn.
  by rewrite <- E1, <- F1, <- F2, <- F3.
Qed.


(** A packet without data, as it lies in the buffer. *)
Lemma control_unseal t a p w s stale : fields_ok t a p w s ->
  exists m, _test_checksum (seal (packet t a p w s []) ++ stale) 0 (zlen (seal (packet t a p w s []))) = Some (m, 1) /\
    _udt_net2host m 0 = Some (packet t a p w s [] ++ stale).
Proof.
  intros Hf. apply unseal; [apply packet_complete|apply packet_bytes; by apply Forall_nil| |apply packet_no_checksum].
  rewrite zlen_packet. by destruct a.
Qed.

(** Waiting for a packet: none comes, or one does. *)
Lemma uwp_read_none w buf tmout ws (Q : mem * Z -> world -> Prop) : tmout <> 0 -> u_waits (net w) = 0 :: ws ->
  (forall w', core (node w') = core (node w) -> u_recvs (net w') = u_recvs (net w) -> u_waits (net w') = ws ->
     u_out (net w') = u_out (net w) -> (u_sends (net w) = [] -> u_sends (net w') = []) -> Q (buf, 0) w') ->
  uwp (read_packet_from_socket buf sizeof_pocketbuf tmout) w Q.
Proof.
  intros Ht Ew HQ. unfold read_packet_from_socket, nd_udp_read. ustep. ustep.
  rewrite (proj2 (Z.eqb_neq tmout 0)) by done. cbn [negb]. apply uwp_bind.
  unfold uwp at 1, nd_socket_wait_read. cbn [net]. rewrite Ew. eexists _, _. split; [reflexivity|].
  change (0 <=? 0) with true. change (0 =? 0) with true. cbv iota. do 2 ustep. change (0 <=? 0) with true. cbv iota.
  ustep. by apply HQ.
Qed.

Lemma uwp_read_control w buf tmout ws a rs t ak p wn s (Q : mem * Z -> world -> Prop) : tmout <> 0 ->
  zlen buf = sizeof_pocketbuf -> fields_ok t ak p wn s -> u_waits (net w) = 1 :: ws ->
  u_recvs (net w) = UDatagram a (seal (packet t ak p wn s [])) :: rs ->
  (forall tail w', 4 <= zlen tail -> core (node w') = core (node w) -> u_recvs (net w') = rs -> u_waits (net w') = ws ->
     u_out (net w') = u_out (net w) -> (u_sends (net w) = [] -> u_sends (net w') = []) ->
     Q (packet t ak p wn s [] ++ tail, header_size ak) w') ->
  uwp (read_packet_from_socket buf sizeof_pocketbuf tmout) w Q.
Proof.
  intros Ht Hl Hf Ew Er HQ. set (l := packet t ak p wn s []) in *.
  assert (zlen (seal l) = header_size ak) as Ls by (unfold l; rewrite zlen_seal, zlen_packet; by destruct ak).
  assert (0 < header_size ak <= 16) as Hh by (destruct ak; simpl; lia). unfold sizeof_pocketbuf in *.
  unfold read_packet_from_socket, nd_udp_read. ustep. ustep.
  rewrite (proj2 (Z.eqb_neq tmout 0)) by done. cbn [negb]. apply uwp_bind.
  unfold uwp at 1, nd_socket_wait_read. cbn [net]. rewrite Ew. eexists _, _. split; [reflexivity|].
  change (1 <=? 0) with false. cbv iota. apply uwp_bind. unfold uwp at 1, nd_socket_udp_read. cbn [net u_recvs]. rewrite Er.
  eexists _, _. split; [reflexivity|]. unfold slice at 1 2 3. rewrite drop_0, take_ge by (unfold zlen in *; lia).
  rewrite Ls, (proj2 (Z.ltb_lt 0 _)) by lia. cbv iota. do 1 ustep. rewrite (proj2 (Z.eqb_neq (header_size ak) (-1))) by lia.
  cbv iota. eapply uwp_lift_ok; [apply mwrite_front; lia|]. set (tail := slice _ _ buf).
  assert (zlen tail = 2048 - header_size ak) as Lt by (unfold tail; rewrite zlen_slice; lia).
  ustep. apply uwp_time. intros tm w1 N1 [C1 R1 W1 O1 S1]. do 2 ustep. ustep.
  rewrite (proj2 (Z.leb_gt (header_size ak) 0)) by lia. cbv iota.
  destruct (control_unseal t ak p wn s tail Hf) as (m & Et & En). fold l in Et, En. rewrite Ls in Et.
  eapply uwp_lift_ok; [exact Et|]. cbn [Z.eqb]. eapply uwp_lift_ok; [exact En|]. ustep.
  apply HQ; [lia|by rewrite N1|done..|cbn; by rewrite O1, app_nil_r|done].
Qed.
Section Open.
Context `{HM : !Malloc} (stack : mem) (Hstack : zlen stack = 2048).
Context (accept_proc : option (nd_udt_node -> nd_udt_node))
  (data_entry : option (nd_udt_node -> mem -> Z -> nd_udt_node * Z)).

Abbreviation pk t a p win s := (packet t a p win s []).

(** ** The listener's side *)

(** A SYN opens a session: the answer is sent, and the session waits for its
    acknowledgement. *)
Lemma uwp_syn w sock port addr p wn tail (Q : Z -> world -> Prop) : endpoint NETSTAT_CLOSED 0 0 0 (node w) ->
  0 <= port < 2 ^ 16 -> fields_ok NDUDT_SYN None p wn 0 -> 4 <= zlen tail -> u_sends (net w) = [] ->
  (forall w', endpoint NETSTAT_SYNRECV 0 0 1 (node w') -> local_port (node w') = port ->
     u_out (net w') = u_out (net w) ++ [seal (pk NDUDT_SYN (Some 1) port (u16 (send_window (node w))) 0)] -> Q 0 w') ->
  uwp (pump_new_session stack sock port addr (pk NDUDT_SYN None p wn 0 ++ tail) 12) w Q.
Proof using Hstack.
  intros He Hp Hf Ht Hn HQ. unfold pump_new_session, open_session, pump_syn. ustep. do 2 ustep.
  apply uwp_time. intros t w1 N1 P1. do 2 ustep. apply uwp_bind. unfold _handle_syn.
  eapply uwp_lift_ok; [by apply packet_fields|]. ustep. rewrite N1. cbn [p_sequence].
  change (status _ =? NETSTAT_LISTEN) with true. cbv iota. do 3 ustep.
  pose proof He as [_ Es _ _ _ _ _ _ _]. injection Es as F1 F2 F3 F4.
  apply uwp_bind. eapply (uwp_send_control stack Hstack); [apply built_syn_ack|unfold NDUDT_SYN, NDUDT_DGRAM; lia|..].
  2:{ intros Hno. exfalso. apply Hno. destruct P1 as [_ _ _ _ S1]. by apply S1. }
  intros w2 P2. do 2 ustep. change (0 =? -1) with false. cbv iota. do 2 ustep. destruct P1 as [_ _ _ O1 _]. destruct P2 as [C2 _ _ O2 _].
  apply HQ; cbn [node net].
  - eapply (endpoint_move _ _ _ _ NETSTAT_SYNRECV 0 0 1 port (window_len (node w))); [exact He|done|apply He|].
    unfold core in *. cbn in *. injection C2 as -> -> -> -> -> -> -> -> -> -> -> _ ->. cbn. by rewrite ?N1, ?F1.
  - unfold core in C2. cbn in *. injection C2 as _ _ _ _ _ _ _ _ _ _ -> _ _. by rewrite ?N1.
  - rewrite O2. cbn in *. rewrite O1, app_nil_r. by rewrite ?N1, ?F1.
Qed.

(** ** The client's side *)

Definition syn_packet (w : world) : list Z := seal (pk NDUDT_SYN None (local_port (node w)) (u16 (send_window (node w))) 0).
Definition first_ack (port : Z) (w : world) : list Z := seal (pk NDUDT_ACK (Some 1) port (u16 (send_window (node w))) 0).

(** A packet without data reaches its handler. *)
Lemma uwp_handler w t ak p wn s tail st sn ac rc (Q : Z -> world -> Prop) : endpoint st sn ac rc (node w) ->
  Z.land st NETSTAT_RESET = 0 -> fields_ok t ak p wn s -> 4 <= zlen tail -> u_sends (net w) = [] ->
  (forall w', endpoint st sn ac rc (node w') -> local_port (node w') = local_port (node w) ->
     send_window (node w') = send_window (node w) ->
     u_out (net w') = u_out (net w) -> u_sends (net w') = [] -> 
     uwp (packet_switch stack accept_proc data_entry
       (mk_pocket PROTOCOL_UDT t (match ak with Some _ => true | None => false end) 0 p wn s
          (match ak with Some x => x | None => le_combine (slice 0 4 ([] ++ tail)) end))
       (pk t ak p wn s ++ tail) (header_size ak)) w' (fun ret w2 => ret <> -1 /\ Q ret w2)) ->
  uwp (_udt_packet_handler stack accept_proc data_entry (pk t ak p wn s ++ tail) (header_size ak)) w Q.
Proof using.
  intros He Hst Hf Ht Hn HQ. unfold _udt_packet_handler, nd_object_seterror. ustep.
  replace (has (node w) NETSTAT_RESET) with false by (unfold has; by rewrite (ep_status _ _ _ _ _ He), Hst).
  cbv iota. apply uwp_time. intros tm w1 N1 [_ _ _ O1 S1]. do 3 ustep. eapply uwp_lift_ok; [by apply packet_fields|].
  cbn [p_window]. apply uwp_bind.
  assert (forall w2 v, 0 <= v -> core (node w2) = core (set_window_len v (node w1)) -> net w2 = net w1 ->
    uwp (ret ← packet_switch stack accept_proc data_entry
       (mk_pocket PROTOCOL_UDT t (match ak with Some _ => true | None => false end) 0 p wn s
          (match ak with Some x => x | None => le_combine (slice 0 4 ([] ++ tail)) end))
       (pk t ak p wn s ++ tail) (header_size ak);
       nd ← get_node; mret (if (ret =? -1) && (myerrno nd =? NDERR_BADPACKET) then 0 else ret)) w2 Q) as Hrest.
  { intros w2 v Hv C2 E2. apply uwp_bind. eapply uwp_mono; [apply HQ|].
    - eapply (endpoint_move _ _ _ _ st sn ac rc (local_port (node w)) v); [exact He|apply He|done|].
      rewrite C2, N1. destruct He as [E1 Es _ _ _ _ _ _ _]. injection Es as F1 F2 F3 _. unfold core. cbn.
      by rewrite <- E1, <- F1, <- F2, <- F3.
    - unfold core in C2. cbn in C2. injection C2 as _ _ _ _ _ _ _ _ _ _ -> _ _. by rewrite N1.
    - unfold core in C2. cbn in C2. injection C2 as _ C2 _ _ _ _ _ _ _ _ _ _ _. unfold send_window. by rewrite C2, N1.
    - by rewrite E2, O1, app_nil_r.
    - rewrite E2. by apply S1.
    - intros ret w3 [Hr H]. do 2 ustep. rewrite (proj2 (Z.eqb_neq ret (-1))) by done. done. }
  pose proof (fo_win _ _ _ _ _ Hf). ustep; [ustep|]; (eapply Hrest; [|done|done]); [lia|].
  rewrite N1. apply He.
Qed.

(** The listener's answer connects the client. *)
Lemma uwp_syn_ack w port wn tail (Q : Z -> world -> Prop) : endpoint NETSTAT_SYNSEND 0 0 0 (node w) ->
  fields_ok NDUDT_SYN (Some 1) port wn 0 -> 4 <= zlen tail -> u_sends (net w) = [] ->
  (forall w', fresh (node w') -> local_port (node w') = port -> u_out (net w') = u_out (net w) ++ [first_ack port w] -> Q 0 w') ->
  uwp (_udt_packet_handler stack accept_proc data_entry (pk NDUDT_SYN (Some 1) port wn 0 ++ tail) 16) w Q.
Proof using Hstack.
  intros He Hf Ht Hn HQ. apply (uwp_handler w NDUDT_SYN (Some 1) port wn 0 tail NETSTAT_SYNSEND 0 0 0); try done.
  intros w1 He1 Hp1 Hw1 Ho1 Hn1. pose proof He1 as [Est Es _ _ _ _ _ _ _]. injection Es as F1 F2 F3 F4.
  change (packet_switch stack accept_proc data_entry ?h ?m ?l) with (_handle_syn stack m).
  unfold _handle_syn. eapply uwp_lift_ok; [by apply packet_fields|]. ustep. rewrite Est. cbn [p_ack p_sequence p_ack_seq p_port negb orb].
  change (NETSTAT_SYNSEND =? NETSTAT_LISTEN) with false. change (NETSTAT_SYNSEND =? NETSTAT_SYNSEND) with true. cbv iota.
  rewrite F1. change (u32 (0 + 1) =? 1) with true. cbn [negb]. do 5 ustep. apply uwp_bind. unfold udt_send_ack. ustep.
  eapply (uwp_send_control stack Hstack); [apply built_ack|unfold NDUDT_ACK, NDUDT_DGRAM; lia|..].
  2:{ intros Hno. by exfalso. }
  cbn [node net]. intros w2 [C2 _ _ O2 _]. ustep. split; [done|]. cbn [net] in O2. apply HQ.
  - eapply (endpoint_move _ _ _ _ NETSTAT_ESTABLISHED 1 1 1 port (window_len (node w1))); [exact He1|apply Hf|apply He1|].
    rewrite C2. unfold core. cbn. by rewrite F1.
  - unfold core in C2. cbn in C2. by injection C2 as _ _ _ _ _ _ _ _ _ _ -> _ _.
  - rewrite O2, Ho1. unfold first_ack. rewrite <- Hw1. cbn. by rewrite F1.
Qed.

(** [accept_proc] of the listener leaves the connection alone. *)
Definition accepts (f : nd_udt_node -> nd_udt_node) : Prop := forall nd, core (f nd) = core nd.

(** The client's acknowledgement connects the session. *)
Lemma uwp_first_ack f w p wn s tail (Q : Z -> world -> Prop) : accept_proc = Some f -> accepts f ->
  endpoint NETSTAT_SYNRECV 0 0 1 (node w) -> fields_ok NDUDT_ACK (Some 1) p wn s -> 4 <= zlen tail -> u_sends (net w) = [] ->
  (forall w', fresh (node w') -> u_out (net w') = u_out (net w) -> Q 0 w') ->
  uwp (_udt_packet_handler stack accept_proc data_entry (pk NDUDT_ACK (Some 1) p wn s ++ tail) 16) w Q.
Proof using.
  intros Ef Hacc He Hf Ht Hn HQ. apply (uwp_handler w NDUDT_ACK (Some 1) p wn s tail NETSTAT_SYNRECV 0 0 1); try done.
  intros w1 He1 Hp1 Hw1 Ho1 Hn1. pose proof He1 as [Est Es _ _ _ _ _ _ _]. injection Es as F1 F2 F3 F4.
  change (packet_switch stack accept_proc data_entry ?h ?m ?l) with (_handle_ack accept_proc 1).
  unfold _handle_ack. ustep. rewrite Est, F1, F2. change (1 <=? 0) with false. change (NETSTAT_SYNRECV =? NETSTAT_SYNRECV) with true.
  cbv zeta iota. change (s32 (u32 (1 - 0)) <? 0) with false. change (u32 (0 + 1) =? 1) with true. cbv iota.
  rewrite Ef. cbn [when]. do 8 ustep. split; [done|]. apply HQ; [|done]. cbn [node].
  eapply (endpoint_move _ _ _ _ NETSTAT_ESTABLISHED 1 1 1 (local_port (node w1)) (window_len (node w1)));
    [exact He1|apply He1..|].
  match goal with |- context [f ?nd] => pose proof (Hacc nd) as C; set (x := f nd) in * end. clearbody x.
  unfold core in *. cbn in *. injection C as -> -> -> -> -> -> -> -> -> -> -> _ ->. by rewrite F1, F3.
Qed.

(** After a SYN: the client waits, and would send the same packets. *)
Lemma syn_sent st w w1 w2 : endpoint st 0 0 0 (node w) -> core (node w1) = core (node w) ->
  core (node w2) = core (set_status NETSTAT_SYNSEND (node w1)) ->
  endpoint NETSTAT_SYNSEND 0 0 0 (node w2) /\ local_port (node w2) = local_port (node w) /\
  syn_packet w2 = syn_packet w /\ forall port, first_ack port w2 = first_ack port w.
Proof using.
  intros He C1 C2. assert (core (node w2) = core (set_status NETSTAT_SYNSEND (node w))) as C.
  { rewrite C2. unfold core in *. cbn in *. by injection C1 as -> -> -> -> -> -> -> -> -> -> -> _ ->. }
  split.
  { eapply (endpoint_move _ _ _ _ NETSTAT_SYNSEND 0 0 0 (local_port (node w)) (window_len (node w))); [exact He|apply He..|].
    rewrite C. destruct He as [_ Es _ _ _ _ _ _ _]. injection Es as F1 F2 F3 _. unfold core. cbn. by rewrite F1, F2, F3. }
  unfold core in C. cbn in C. injection C as _ E1 _ _ _ _ _ _ _ _ E2 _ _. unfold syn_packet, first_ack, send_window.
  by rewrite E1, E2.
Qed.

(** The client tries three times: [k] of its SYNs are not answered in time. *)
Lemma uwp_syn_loop k : forall i w buf ws a port wn rs (Q : Z -> world -> Prop), (k < i)%nat ->
  zlen buf = sizeof_pocketbuf -> (exists st, endpoint st 0 0 0 (node w)) ->
  local_port (node w) = 0 -> u_sends (net w) = [] ->
  u_waits (net w) = replicate k 0 ++ 1 :: ws ->
  fields_ok NDUDT_SYN (Some 1) port wn 0 ->
  u_recvs (net w) = UDatagram a (seal (pk NDUDT_SYN (Some 1) port wn 0)) :: rs ->
  (forall w', fresh (node w') -> local_port (node w') = port ->
     u_out (net w') = u_out (net w) ++ replicate (S k) (syn_packet w) ++ [first_ack port w] -> Q 0 w') ->
  uwp (syn_loop stack accept_proc data_entry i buf) w Q.
Proof using Hstack.
  induction k as [|k IH]; intros [|i] w buf ws a port wn rs Q Hi Hl (st & He) Hp Hn Hw Hf Hr HQ; try lia; cbn [syn_loop].
  all: pose proof He as [Est Es _ _ _ _ _ _ _]; injection Es as F1 F2 F3 F4; ustep; apply uwp_bind;
    (eapply (uwp_send_control stack Hstack); [apply built_seq; unfold NDUDT_SYN; lia|unfold NDUDT_SYN, NDUDT_DGRAM; lia|..]);
    [|intros Hno; by exfalso]; rewrite F1; fold (syn_packet w); intros w1 [C1 R1 W1 O1 S1]; change (header_size None =? -1) with false;
    cbv iota; ustep; apply uwp_bind.
  - eapply uwp_read_control; [done|done|exact Hf|cbn; rewrite W1; exact Hw|cbn; rewrite R1; exact Hr|].
    intros tail w2 Ht C2 R2 W2 O2 S2. destruct (syn_sent st w w1 w2 He C1 C2) as (He2 & Hp2 & Esy & Eack).
    change (0 <? header_size (Some 1)) with true. cbv iota. apply uwp_bind. apply uwp_syn_ack; [exact He2|exact Hf|exact Ht|exact (S2 (S1 Hn))|].
    intros w3 Hfr Hp3 O3. ustep. rewrite (ep_status _ _ _ _ _ Hfr). cbn [andb]. change (_ && _) with true. cbv iota. ustep.
    apply HQ; [done..|]. cbn [net] in O2. by rewrite O3, O2, O1, Eack, <- app_assoc.
  - eapply uwp_read_none; [done|cbn; rewrite W1; exact Hw|].
    intros w2 C2 R2 W2 O2 S2. destruct (syn_sent st w w1 w2 He C1 C2) as (He2 & Hp2 & Esy & Eack). cbn [net] in *.
    change (0 <? 0) with false. cbv iota. do 2 ustep. cbn [andb].
    eapply (IH i w2); [lia|done|by eexists|by rewrite Hp2|exact (S2 (S1 Hn))|done|exact Hf|by rewrite R2, R1|].
    intros w3 Hfr Hp3 O3. apply HQ; [done..|]. by rewrite O3, O2, O1, Eack, Esy, <- app_assoc.
Qed.

(** [udt_connect] with a listener that answers the last of at most three SYNs. *)
Lemma uwp_connect k w sock addr ws a port wn rs (Q : bool -> world -> Prop) : (k < 3)%nat -> 0 < sock ->
  endpoint NETSTAT_CLOSED 0 0 0 (node w) -> local_port (node w) = 0 -> u_sends (net w) = [] ->
  u_waits (net w) = replicate k 0 ++ 1 :: ws -> fields_ok NDUDT_SYN (Some 1) port wn 0 ->
  u_recvs (net w) = UDatagram a (seal (pk NDUDT_SYN (Some 1) port wn 0)) :: rs ->
  (forall w', fresh (node w') -> local_port (node w') = port ->
     u_out (net w') = u_out (net w) ++ replicate (S k) (syn_packet w) ++ [first_ack port w] -> Q true w') ->
  uwp (udt_connect stack accept_proc data_entry sock addr) w Q.
Proof using Hstack.
  intros Hk Hs He Hp Hn Hw Hf Hr HQ. unfold udt_connect, nd_udp_connect. apply uwp_bind. do 2 ustep.
  rewrite (proj2 (Z.leb_gt sock 0)) by done. ustep. change (0 =? -1) with false. cbv iota. apply uwp_bind. unfold _udt_syn.
  eapply (uwp_syn_loop k); [done|exact Hstack| |done..|exact Hw|exact Hf|exact Hr|].
  { eexists. by apply (endpoint_core NETSTAT_CLOSED 0 0 0 (node w)). }
  intros w1 Hfr Hp1 O1. change (0 =? 0) with true. cbv iota. apply uwp_time. intros t w2 N2 [_ _ _ O2 _]. do 2 ustep.
  apply HQ; cbn [node net]; rewrite ?N2; [by apply (endpoint_core _ _ _ _ (node w1))|done|].
  rewrite O2, app_nil_r. exact O1.
Qed.

Lemma control_ok t a p win s : 0 <= t < 16 -> match a with Some x => 0 <= x < 2 ^ 32 | None => True end ->
  0 <= p < 2 ^ 16 -> 0 <= s < 2 ^ 32 -> fields_ok t a p (u16 win) s.
Proof using. intros Ht Ha Hp Hs. split; [done..| |done]. apply wrapu_range. lia. Qed.

(** The whole handshake: the client's SYN opens the session [s], its answer connects the
    client, and the client's acknowledgement connects the session. *)
Lemma handshake_ok f c s sock port addr addr' ntc nts nta tail tail' k ws rs :
  accept_proc = Some f -> accepts f -> (k < 3)%nat -> 0 < sock -> 0 <= port < 2 ^ 16 ->
  endpoint NETSTAT_CLOSED 0 0 0 c -> local_port c = 0 -> endpoint NETSTAT_CLOSED 0 0 0 s ->
  u_sends ntc = [] -> u_sends nts = [] -> u_sends nta = [] -> 4 <= zlen tail -> 4 <= zlen tail' ->
  let syn := packet NDUDT_SYN None 0 (u16 (send_window c)) 0 [] in
  let answer := packet NDUDT_SYN (Some 1) port (u16 (send_window s)) 0 [] in
  let ack := packet NDUDT_ACK (Some 1) port (u16 (send_window c)) 0 [] in
  u_waits ntc = replicate k 0 ++ 1 :: ws -> u_recvs ntc = UDatagram addr (seal answer) :: rs ->
  exists s1 c' s',
    pump_new_session stack sock port addr' (syn ++ tail) (zlen syn) (mk_world s nts) = Some (0, s1) /\
    u_out (net s1) = u_out nts ++ [seal answer] /\
    udt_connect stack accept_proc data_entry sock addr (mk_world c ntc) = Some (true, c') /\
    u_out (net c') = u_out ntc ++ replicate (S k) (seal syn) ++ [seal ack] /\
    _udt_packet_handler stack accept_proc data_entry (ack ++ tail') (zlen ack) (mk_world (node s1) nta) = Some (0, s') /\
    u_out (net s') = u_out nta /\ fresh (node c') /\ fresh (node s') /\ local_port (node c') = port.
Proof using Hstack.
  intros Ef Hacc Hk Hsock Hport Hc Hcp Hs Hnc Hns Hna Ht Ht' syn answer ack Hw Hr.
  unfold syn, ack. rewrite !zlen_packet. change (header_size None + zlen []) with 12. change (header_size (Some 1) + zlen []) with 16.
  assert (uwp (pump_new_session stack sock port addr' (syn ++ tail) 12) (mk_world s nts) (fun r s1 => r = 0 /\
    endpoint NETSTAT_SYNRECV 0 0 1 (node s1) /\ u_out (net s1) = u_out nts ++ [seal answer])) as (r1 & s1 & E1 & -> & He1 & O1).
  { apply uwp_syn; [done|done|apply control_ok; unfold NDUDT_SYN; lia|done|done|]. by intros w' He Hp O. }
  assert (uwp (udt_connect stack accept_proc data_entry sock addr) (mk_world c ntc) (fun r c' => r = true /\ fresh (node c') /\
    local_port (node c') = port /\ u_out (net c') = u_out ntc ++ replicate (S k) (seal syn) ++ [seal ack]))
    as (r2 & c' & E2 & -> & Hf2 & Hp2 & O2).
  { eapply (uwp_connect k _ _ _ ws addr port); [done|done|done|done|done|done|apply control_ok; unfold NDUDT_SYN; lia|exact Hr|].
    intros w' Hf Hp O. split_and!; [done..|]. rewrite O. unfold syn_packet. cbn [node]. by rewrite Hcp. }
  assert (uwp (_udt_packet_handler stack accept_proc data_entry (ack ++ tail') 16) (mk_world (node s1) nta)
    (fun r s' => r = 0 /\ fresh (node s') /\ u_out (net s') = u_out nta)) as (r3 & s' & E3 & -> & Hf3 & O3).
  { eapply uwp_first_ack; [done|done|done|apply control_ok; unfold NDUDT_ACK; lia|done|done|]. by intros w' Hf O. }
  exists s1, c', s'. by split_and!.
Qed.
End Open.
