(* ===== verification/UdtStream.v ===== *)
(** * UdtStream: the operations of a UDT connector keep the streams

    A connector has taken the bytes [W] from its user and delivered the bytes [rd] of
    the stream [W'] of its peer, which has received the peer's sequence number [r].
    The invariant [inv] relates these to the buffers, the sequence numbers and the
    packets on the network; both streams begin at sequence number 1, behind the
    handshake, and end before the numbers become negative.  The operations keep it; what
    they do where the C code is undefined is not their result. *)

From S2P Require Import Prelude Bytes LineBuf Handle UdtPacket UdtNode UdtFlow.

(** ** Packets *)

(** [d] lies in the stream at sequence number [s]. *)
Definition of_stream (W : list Z) (s : Z) (d : list Z) : Prop :=
  1 <= s /\ s - 1 + zlen d <= zlen W /\ d = slice (s - 1) (zlen d) W.

(** The packets of a connector that has taken [W] and received up to [r]. *)
Inductive genuine (W : list Z) (r : Z) : list Z -> Prop :=
  | genuine_intro t a p w s d : fields_ok t a p w s -> bytes d -> zlen d <= NDUDT_FRAGMENT_LEN ->
      (t = NDUDT_DATA /\ 0 < zlen d /\ of_stream W s d) \/ t = NDUDT_SYN \/ (t = NDUDT_ACK /\ is_Some a) ->
      (forall x, a = Some x -> x <= r) ->
      genuine W r (packet t a p w s d).
Definition sent_ok (W : list Z) (r : Z) (dg : list Z) : Prop := exists l, dg = seal l /\ genuine W r l.

Lemma of_stream_mono W W2 s d : of_stream W s d -> of_stream (W ++ W2) s d.
Proof.
  intros (H1 & H2 & H3). split; [done|]. split; [zlia|]. rewrite slice_app_l by zlia. exact H3.
Qed.
Lemma genuine_mono W W2 r r2 l : r <= r2 -> genuine W r l -> genuine (W ++ W2) r2 l.
Proof.
  intros Hr [t a p w s d Hf Hb Hl Ht Ha]. split; [done..| |].
  - destruct Ht as [(? & ? & ?)|Ht]; [left|by right]. eauto using of_stream_mono.
  - intros x Hx. specialize (Ha x Hx). lia.
Qed.
Lemma sent_ok_mono W W2 r r2 dg : r <= r2 -> sent_ok W r dg -> sent_ok (W ++ W2) r2 dg.
Proof. intros Hr (l & -> & Hl). exists l. eauto using genuine_mono. Qed.

(** ** The invariant *)

Record sender_ok (W : list Z) (lb : linebuf) (ack seq rseq : Z) : Prop := {
  so_wf : lbuf_wf lb;
  so_fixed : auto_inc lb = 0;
  so_bytes : bytes W;
  so_ack : 1 <= ack <= seq;
  so_seq : seq <= 1 + zlen W;
  so_content : lbuf_content lb = slice (ack - 1) (zlen W - (ack - 1)) W;
  so_retrans : 0 <= rseq <= 1 + zlen W
}.

(** A stored packet: the bytes of a genuine one with its data, and 16 more. *)
Definition stored_ok (W' : list Z) (p : _udt_packet_node) : Prop :=
  exists a pt w s d tail, fields_ok NDUDT_DATA a pt w s /\ bytes d /\ 0 < zlen d <= NDUDT_FRAGMENT_LEN /\
    of_stream W' s d /\ pack p = packet NDUDT_DATA a pt w s d ++ tail /\ 4 <= zlen tail /\
    pk_size p = header_size a + zlen d.

Record receiver_ok (rd W' : list Z) (lb : linebuf) (received : Z) (pre : list _udt_packet_node) : Prop := {
  ro_wf : lbuf_wf lb;
  ro_seq : received = 1 + zlen rd + zlen (lbuf_content lb);
  ro_prefix : rd ++ lbuf_content lb = slice 0 (received - 1) W';
  ro_in : received <= 1 + zlen W';
  ro_pre : Forall (stored_ok W') pre
}.

Record node_ok (W rd W' : list Z) (r : Z) (nd : nd_udt_node) : Prop := {
  no_sender : sender_ok W (send_buffer nd) (acknowledged_seq nd) (send_sequence nd) (retrans_seq nd);
  no_receiver : receiver_ok rd W' (recv_buffer nd) (received_sequence nd) (pre_list nd);
  no_acked : acknowledged_seq nd <= r;
  no_below : zlen (below nd) = 16;
  no_port : 0 <= local_port nd < 2 ^ 16;
  no_status : status nd = NETSTAT_ESTABLISHED;
  no_window : 0 <= window_len nd;
  no_need : need_ack nd = true -> W' <> []
}.

(** One of the two streams is empty, and both are shorter than 2^31. *)
Definition one_way (W W' : list Z) : Prop := (W = [] \/ W' = []) /\ zlen W < 2 ^ 31 - 1 /\ zlen W' < 2 ^ 31 - 1.

Definition in_ok (W' : list Z) (r : Z) (x : urecv) : Prop :=
  match x with UDatagram _ dg => sent_ok W' r dg | UError _ => True end.

Record inv (W rd W' : list Z) (r : Z) (w : world) : Prop := {
  inv_node : node_ok W rd W' r (node w);
  inv_out : Forall (sent_ok W (received_sequence (node w))) (u_out (net w));
  inv_in : Forall (in_ok W' r) (u_recvs (net w))
}.

Lemma core_eq nd nd' : core nd' = core nd ->
  send_buffer nd' = send_buffer nd /\ recv_buffer nd' = recv_buffer nd /\ acknowledged_seq nd' = acknowledged_seq nd /\
  send_sequence nd' = send_sequence nd /\ received_sequence nd' = received_sequence nd /\
  retrans_seq nd' = retrans_seq nd /\ is_retranslate nd' = is_retranslate nd /\ need_ack nd' = need_ack nd /\
  pre_list nd' = pre_list nd /\ below nd' = below nd /\ local_port nd' = local_port nd /\ status nd' = status nd /\
  window_len nd' = window_len nd.
Proof. unfold core. intros [= ???? ?????????]. by split_and!. Qed.

Section Frame.
Context {W rd W' : list Z} {r : Z}.

Lemma node_ok_core nd nd' : core nd' = core nd -> node_ok W rd W' r nd -> node_ok W rd W' r nd'.
Proof.
  intros C [H1 H2 H3 H4 H5 H6 H7 H8].
  destruct (core_eq _ _ C) as (E1 & E2 & E3 & E4 & E5 & E6 & E7 & E8 & E9 & E10 & E11 & E12 & E13).
  split; rewrite ?E1, ?E2, ?E3, ?E4, ?E5, ?E6, ?E7, ?E8, ?E9, ?E10, ?E11, ?E12, ?E13; done.
Qed.

Lemma inv_quiet w w' : inv W rd W' r w -> quiet (sent_ok W (received_sequence (node w))) w w' -> inv W rd W' r w'.
Proof.
  intros [Hn Ho Hi] [C R (s & O & Hs)].
  destruct (core_eq _ _ C) as (_ & _ & _ & _ & E & _). split.
  - by apply (node_ok_core (node w)).
  - rewrite O, E. by apply Forall_app.
  - by rewrite R.
Qed.

(** A change of the node alone. *)
Lemma inv_node_only w nd : inv W rd W' r w -> node_ok W rd W' r nd ->
  received_sequence nd = received_sequence (node w) -> inv W rd W' r (mk_world nd (net w)).
Proof. intros [Hn Ho Hi] H E. split; [done| |done]. cbn. by rewrite E. Qed.
End Frame.

(** [inv] after an update that it does not see. *)
Ltac inv_core := eapply inv_quiet; [eassumption|]; by apply quiet_node.

(** ** The send buffer around a packet *)

Lemma lbuf_eta lb m : __buf lb = Some m -> lb_set lb (__start lb) (__end lb) m = lb.
Proof. destruct lb. simpl. by intros ->. Qed.

Lemma put_send_memory_id nd m : send_memory nd = Some m -> core (put_send_memory m nd) = core nd.
Proof.
  unfold send_memory. intros E. destruct (__buf (send_buffer nd)) as [blk|] eqn:Eb; [|done]. injection E as <-.
  unfold put_send_memory, core. cbn -[zlen slice lb_set app].
  rewrite (slice_app_l 0), slice_all by (pose proof (zlen_nonneg (below nd)); lia).
  rewrite slice_app_r by lia. rewrite Z.sub_diag, slice_all by zlia. by rewrite lbuf_eta.
Qed.

(** Writing back what was saved behind [pre] undoes the change of [old] to [h]. *)
Lemma restore_ok pre old h rest n b m : zlen h = zlen old -> zlen old <= n ->
  mread (pre ++ old ++ rest) (zlen pre) n = Some b -> mwrite (pre ++ h ++ rest) (zlen pre) b = Some m ->
  m = pre ++ old ++ rest.
Proof.
  intros Lh Ln ((_ & _ & Hr) & ->)%mread_Some E.
  assert (n - zlen old <= zlen rest) as Hn by (rewrite !zlen_app in Hr; lia). pose proof (zlen_nonneg old).
  rewrite slice_app_r, Z.sub_diag in E by lia.
  replace (slice 0 n (old ++ rest)) with (old ++ slice 0 (n - zlen old) rest) in E.
  2:{ replace n with (zlen old + (n - zlen old)) at 2 by lia. rewrite slice_split by lia.
      rewrite slice_app_l, (slice_all old) by lia. rewrite slice_app_r by lia.
      by replace (0 + zlen old - zlen old) with 0 by lia. }
  rewrite (slice_take_drop (n - zlen old) rest) in E by lia.
  set (r1 := slice 0 (n - zlen old) rest) in *. set (r2 := slice (n - zlen old) _ rest) in *.
  rewrite slice_app_l, slice_all in E by (unfold r1; rewrite ?zlen_slice; lia).
  rewrite (app_assoc h) in E. rewrite mwrite_app in E by (rewrite !zlen_app; lia).
  injection E as <-. unfold r1, r2. rewrite <- !app_assoc. rewrite <- slice_take_drop by lia. done.
Qed.

(** The memory of the send buffer split at [len] bytes of its data and the [hl] bytes
    in front of them. *)
Lemma send_memory_split W rd W' r nd off len hl : node_ok W rd W' r nd -> 0 <= off -> 0 <= len -> 0 <= hl <= 16 ->
  off + len <= zlen (lbuf_content (send_buffer nd)) ->
  exists pre old d post, send_memory nd = Some (pre ++ old ++ d ++ post) /\
    zlen (below nd) + __start (send_buffer nd) + off - hl = zlen pre /\ zlen old = hl /\
    d = slice off len (lbuf_content (send_buffer nd)).
Proof.
  intros Hn Ho Hl Hh Hc. pose proof (no_below _ _ _ _ _ Hn) as Hb.
  pose proof (so_wf _ _ _ _ _ (no_sender _ _ _ _ _ Hn)) as Hwf. rewrite lbuf_content_len in Hc by done.
  destruct Hwf as [(m & Em & Lm) Hcap Hp]. unfold send_memory, lbuf_content. rewrite Em. cbn [mbind option_bind].
  set (lb := send_buffer nd) in *. set (M := below nd ++ m).
  assert (zlen M = 16 + zlen m) as LM by (unfold M; rewrite zlen_app; lia).
  set (k := 16 + __start lb + off).
  exists (slice 0 (k - hl) M), (slice (k - hl) hl M), (slice k len M), (slice (k + len) (zlen M - (k + len)) M).
  unfold k in *. split_and!.
  - f_equal. rewrite <- slice_split by lia.
    replace (len + (zlen M - (16 + __start lb + off + len))) with (zlen M - (16 + __start lb + off)) by lia.
    replace (slice (16 + __start lb + off) (zlen M - (16 + __start lb + off)) M) with
      (slice (16 + __start lb + off - hl + hl) (zlen M - (16 + __start lb + off)) M) by (f_equal; lia).
    rewrite <- slice_split by lia. replace (hl + (zlen M - (16 + __start lb + off))) with
      (zlen M - (16 + __start lb + off - hl)) by lia. by apply slice_take_drop; lia.
  - rewrite zlen_slice by lia. lia.
  - apply zlen_slice; lia.
  - unfold M. rewrite slice_app_r by lia. rewrite slice_slice by lia. f_equal. lia.
Qed.

(** ** Sending *)

(** The node after it has sent up to [s]. *)
Lemma node_ok_advance W rd W' r nd nd' s v : node_ok W rd W' r nd -> core nd' = core (set_window_len v (set_send_sequence s nd)) ->
  acknowledged_seq nd <= s <= 1 + zlen W -> 0 <= v -> node_ok W rd W' r nd'.
Proof.
  intros [[H1 H0 H2 H3 H4 H5 H6] R A B P S V N] C Hs Hv.
  destruct (core_eq _ _ C) as (E1 & E2 & E3 & E4 & E5 & E6 & E7 & E8 & E9 & E10 & E11 & E12 & E13). cbn in *.
  split; rewrite ?E1, ?E2, ?E3, ?E4, ?E5, ?E6, ?E7, ?E8, ?E9, ?E10, ?E11, ?E12, ?E13; try done. split; try done; lia.
Qed.

Section Stream.
Context `{HM : !Malloc} (stack : mem) (Hstack : zlen stack = 2048).
Context (W rd W' : list Z) (r : Z) (Hone : one_way W W').

Abbreviation ok := (inv W rd W' r).
(** What every operation does that delivers nothing to the user. *)
Definition keeps (w w' : world) : Prop := ok w' /\ received_sequence (node w) <= received_sequence (node w').

Lemma keeps_same w : ok w -> keeps w w.
Proof using. intros H. split; [done|lia]. Qed.
Lemma keeps_then w1 w2 w3 : keeps w1 w2 -> keeps w2 w3 -> keeps w1 w3.
Proof using. intros [_ H1] [H H2]. split; [done|lia]. Qed.
Lemma keeps_quiet w w' : ok w -> quiet (sent_ok W (received_sequence (node w))) w w' -> keeps w w'.
Proof using.
  intros H Hq. split; [by eapply inv_quiet|]. destruct (core_eq _ _ (q_core _ _ _ Hq)) as (_ & _ & _ & _ & -> & _). lia.
Qed.
Lemma keeps_core w nd : ok w -> core nd = core (node w) -> keeps w (mk_world nd (net w)).
Proof using. intros H C. apply keeps_quiet; [done|]. by apply quiet_node. Qed.

Lemma seq_bounds w : ok w -> 1 <= acknowledged_seq (node w) <= send_sequence (node w) /\
  send_sequence (node w) <= 1 + zlen W /\ 1 <= received_sequence (node w) <= 1 + zlen W' /\
  acknowledged_seq (node w) <= r /\ zlen W < 2 ^ 31 - 1 /\ zlen W' < 2 ^ 31 - 1.
Proof using Hone.
  intros [[[_ _ _ H1 H2 _ _] [_ H3 _ H4 _] H5 _ _ _ _ _] _ _]. destruct Hone as (_ & ? & ?).
  pose proof (zlen_nonneg rd). pose proof (zlen_nonneg (lbuf_content (recv_buffer (node w)))). lia.
Qed.

(** The packet that goes out: its data begin at [s] of the stream. *)
Lemma genuine_data w port win s d a : ok w -> 0 <= port < 2 ^ 16 -> 0 <= win < 2 ^ 16 ->
  of_stream W s d -> 0 < zlen d <= NDUDT_FRAGMENT_LEN -> (forall x, a = Some x -> x = received_sequence (node w)) ->
  sent_ok W (received_sequence (node w)) (seal (packet NDUDT_DATA a port win s d)).
Proof using Hone.
  intros H Hp Hw Hs Hd Ha. pose proof (seq_bounds w H) as Hb. eexists. split; [done|].
  destruct Hs as (Hs1 & Hs2 & Hs3).
  pose proof (so_bytes _ _ _ _ _ (no_sender _ _ _ _ _ (inv_node _ _ _ _ _ H))) as HW.
  split.
  - split; try done; [|lia]. destruct a as [x|]; [|done]. specialize (Ha x eq_refl). lia.
  - rewrite Hs3. by apply Forall_slice.
  - lia.
  - left. split; [done|]. split; [lia|]. done.
  - intros x Hx. specialize (Ha x Hx). lia.
Qed.
Lemma genuine_control w port win t a s : ok w -> 0 <= port < 2 ^ 16 -> 0 <= win < 2 ^ 16 -> 0 <= s < 2 ^ 32 ->
  t = NDUDT_SYN \/ (t = NDUDT_ACK /\ is_Some a) -> (forall x, a = Some x -> x = received_sequence (node w)) ->
  sent_ok W (received_sequence (node w)) (seal (packet t a port win s [])).
Proof using Hone.
  intros H Hp Hw Hs Ht Ha. pose proof (seq_bounds w H) as Hb. eexists. split; [done|].
  split; try done.
  - split; try done.
    + unfold NDUDT_SYN, NDUDT_ACK in *. lia.
    + destruct a as [x|]; [|done]. specialize (Ha x eq_refl). lia.
  - by right.
  - intros x Hx. specialize (Ha x Hx). lia.
Qed.

(** The bytes of the send buffer from [off] on, in the stream. *)
Lemma of_stream_buffer w off len : ok w -> 0 <= off -> 0 <= len ->
  off + len <= zlen (lbuf_content (send_buffer (node w))) ->
  of_stream W (acknowledged_seq (node w) + off) (slice off len (lbuf_content (send_buffer (node w)))).
Proof using.
  intros [[[_ _ _ H1 H2 Hc _] _ _ _ _ _ _ _] _ _] Ho Hl Hs. rewrite Hc in *.
  rewrite zlen_slice in Hs by lia. unfold of_stream. rewrite slice_slice by lia. rewrite zlen_slice by lia.
  split; [lia|]. split; [lia|]. f_equal. lia.
Qed.

Lemma content_len w : ok w ->
  zlen (lbuf_content (send_buffer (node w))) = 1 + zlen W - acknowledged_seq (node w) /\
  _lbuf_datalen (send_buffer (node w)) = 1 + zlen W - acknowledged_seq (node w).
Proof using.
  intros [[[H0 _ _ H1 H2 Hc _] _ _ _ _ _ _ _] _ _].
  assert (zlen (lbuf_content (send_buffer (node w))) = 1 + zlen W - acknowledged_seq (node w)) as E.
  { rewrite Hc, zlen_slice by lia. lia. }
  split; [exact E|]. rewrite lbuf_datalen_eq by done. rewrite <- E. by rewrite lbuf_content_len.
Qed.

(** The header is written over the [hl] bytes [old] in front of the data. *)
Lemma wlp_header w pre old d post (Q : mem -> world -> Prop) :
  zlen old = (if need_ack (node w) then sizeof_pocket else sizeof_unack) ->
  (forall a w1, (forall x, a = Some x -> x = received_sequence (node w)) ->
     header_size a = zlen old -> core (node w1) = core (set_need_ack false (node w)) -> net w1 = net w ->
     Q (pre ++ packet NDUDT_DATA a 0 0 0 d ++ post) w1) ->
  wlp (m ← lift (init_udt_pocket (pre ++ old ++ d ++ post) (zlen pre));
       if need_ack (node w) then
         m ← lift (set_pocket_ack m (zlen pre) (received_sequence (node w)));
         upd (set_need_ack false);; mret m
       else mret m) w Q.
Proof using.
  intros Ho HQ. destruct (need_ack (node w)) eqn:En.
  - unfold sizeof_pocket in Ho. rewrite (slice_take_drop 12 old) at 1 by lia.
    set (o1 := slice 0 12 old). set (o2 := slice 12 (zlen old - 12) old).
    assert (zlen o1 = 12) as L1 by (apply zlen_slice; lia). assert (zlen o2 = 4) as L2 by (unfold o2; rewrite zlen_slice; lia).
    eapply wlp_lift_ok. { rewrite <- app_assoc. apply init_packet, L1. }
    rewrite packet_nil_app. eapply wlp_lift_ok; [apply packet_set_ack; [unfold NDUDT_DATA; lia|exact L2]|].
    repeat ustep. apply (HQ (Some (received_sequence (node w)))); try done.
    by intros x [= ->].
  - unfold sizeof_unack in Ho. eapply wlp_lift_ok; [by apply init_packet|]. rewrite packet_nil_app.
    ustep. apply (HQ None); try done. unfold core. cbn. by rewrite En.
Qed.

Lemma keeps_need_off w w1 : ok w -> core (node w1) = core (set_need_ack false (node w)) -> net w1 = net w -> keeps w w1.
Proof using.
  intros [[S R A B P T V N] Ho Hi] C En.
  destruct (core_eq _ _ C) as (E1 & E2 & E3 & E4 & E5 & E6 & E7 & E8 & E9 & E10 & E11 & E12 & E13). cbn in *.
  split; [split|]; rewrite ?En, ?E5; try done.
  split; rewrite ?E1, ?E2, ?E3, ?E4, ?E5, ?E6, ?E7, ?E8, ?E9, ?E10, ?E11, ?E12, ?E13; done.
Qed.

(** The end of both senders: what was saved goes back. *)
Lemma restore_core nd pre old h d post n backup m :
  zlen h = zlen old -> zlen old <= n -> mread (pre ++ old ++ d ++ post) (zlen pre) n = Some backup ->
  send_memory nd = Some (pre ++ old ++ d ++ post) -> mwrite (pre ++ h ++ d ++ post) (zlen pre) backup = Some m ->
  core (put_send_memory m nd) = core nd.
Proof using.
  intros Lh Ln Hb EM Em. pose proof (restore_ok _ _ _ _ _ _ _ Lh Ln Hb Em) as ->. by apply put_send_memory_id.
Qed.
Lemma restore_keeps w w3 pre old h d post n backup :
  zlen h = zlen old -> zlen old <= n -> mread (pre ++ old ++ d ++ post) (zlen pre) n = Some backup ->
  keeps w w3 -> send_memory (node w3) = Some (pre ++ old ++ d ++ post) ->
  forall m, mwrite (pre ++ h ++ d ++ post) (zlen pre) backup = Some m ->
  keeps w (mk_world (put_send_memory m (node w3)) (net w3)).
Proof using.
  intros Lh Ln Hb Hk EM m Em. eapply keeps_then; [exact Hk|]. apply keeps_core; [apply Hk|].
  by eapply restore_core.
Qed.

Lemma send_memory_core nd nd' : core nd' = core nd -> send_memory nd' = send_memory nd.
Proof using. intros C. destruct (core_eq _ _ C) as (E1 & _ & _ & _ & _ & _ & _ & _ & _ & E10 & _). unfold send_memory. by rewrite E1, E10. Qed.

(** After a packet with [len] bytes has gone out from [send_sequence]. *)
Lemma keeps_advance w w2 nd s v : keeps w w2 -> core nd = core (set_window_len v (set_send_sequence s (node w2))) ->
  acknowledged_seq (node w2) <= s <= 1 + zlen W -> 0 <= v -> keeps w (mk_world nd (net w2)).
Proof using.
  intros Hk C Hs Hv. eapply keeps_then; [exact Hk|]. destruct Hk as [[Hn Ho Hi] _].
  assert (received_sequence nd = received_sequence (node w2)) as E by (apply core_eq in C; by cbn in C; destruct_and!).
  split; [|cbn; lia]. split; [by eapply node_ok_advance|cbn; by rewrite E|done].
Qed.

(** The variables after [len] bytes have gone out. *)
Lemma keeps_sent w w1 w2 len nd : ok w -> keeps w w2 -> core (node w2) = core (node w1) ->
  core (node w1) = core (set_need_ack false (node w)) -> 0 <= len -> send_sequence (node w) + len <= 1 + zlen W ->
  core nd = core (let n := set_window_len (u64 (window_len (node w2) - len))
                    (set_send_sequence (u32 (send_sequence (node w2) + len)) (node w2)) in
                  if s32 (window_len n) <? 0 then set_window_len 0 n else n) ->
  keeps w (mk_world nd (net w2)).
Proof using Hone.
  intros Hok K2 C2 C1 Hl Hs C. pose proof (seq_bounds w Hok).
  destruct (core_eq _ _ C1) as (_ & _ & A1 & A2 & _). destruct (core_eq _ _ C2) as (_ & _ & B1 & B2 & _).
  pose proof (eq_trans B1 A1) as Ea. pose proof (eq_trans B2 A2) as Es. cbn in Ea, Es.
  apply (keeps_advance w w2 nd (u32 (send_sequence (node w2) + len))
    (if s32 (u64 (window_len (node w2) - len)) <? 0 then 0 else u64 (window_len (node w2) - len))).
  - done.
  - rewrite C. cbn. by destruct (_ <? 0).
  - rewrite Ea, Es, wrapu_small; lia.
  - destruct (_ <? 0); [lia|]. by apply wrapu_range.
Qed.

(** The data at [off] and the [hl] bytes in front of them. *)
Lemma send_memory_data w off len hl : ok w -> 0 <= off -> 0 < len -> 0 <= hl <= 16 ->
  off + len <= 1 + zlen W - acknowledged_seq (node w) ->
  exists pre old d post, send_memory (node w) = Some (pre ++ old ++ d ++ post) /\
    zlen (below (node w)) + __start (send_buffer (node w)) + off - hl = zlen pre /\ zlen old = hl /\
    zlen d = len /\ bytes d /\ of_stream W (acknowledged_seq (node w) + off) d.
Proof using.
  intros Hok Ho Hl Hh Hs. pose proof (content_len w Hok) as [Hc _].
  pose proof (inv_node _ _ _ _ _ Hok) as Hn. pose proof (no_sender _ _ _ _ _ Hn) as Hsd.
  destruct (send_memory_split W rd W' r (node w) off len hl Hn) as (pre & old & d & post & EM & Ep & Lo & Ed); [lia..|].
  exists pre, old, d, post. split_and!; try done.
  - rewrite Ed. apply zlen_slice; lia.
  - rewrite Ed, (so_content _ _ _ _ _ Hsd). apply Forall_slice, Forall_slice, (so_bytes _ _ _ _ _ Hsd).
  - rewrite Ed. apply of_stream_buffer; [done|lia..].
Qed.

(** Sending the data packet that was built in place. *)
Lemma wlp_data_packet w w1 pre a s d post len (Q : mem * Z -> world -> Prop) :
  keeps w w1 -> (forall x, a = Some x -> x = received_sequence (node w1)) ->
  of_stream W s d -> bytes d -> 0 < zlen d <= NDUDT_FRAGMENT_LEN -> len = zlen d + header_size a ->
  (forall h ret w2, zlen h = header_size a -> keeps w w2 -> core (node w2) = core (node w1) ->
     Q (pre ++ h ++ d ++ post, ret) w2) ->
  wlp (write_pocket_to_socket (pre ++ packet NDUDT_DATA a 0 0 s d ++ post) (zlen pre) len) w1 Q.
Proof using Hone.
  intros K1 Ha Hs Hb Hd -> HQ. eapply (wlp_write_packet (sent_ok W (received_sequence (node w1)))).
  1-2: reflexivity. 1: lia. 1: unfold NDUDT_DATA, NDUDT_DGRAM; lia. 1: done.
  - unfold NDUDT_FRAGMENT_LEN in *. destruct a; simpl; lia.
  - apply genuine_data; [apply K1|apply K1|apply wrapu_range; lia|done..].
  - intros h ret w2 Lh Hq _. apply HQ; [done| |apply Hq].
    exact (keeps_then _ _ _ K1 (keeps_quiet _ _ (proj1 K1) Hq)).
Qed.

Lemma send_window_bounds w off len : ok w -> send_window_start (node w) = Some (off, len) -> len <> 0 ->
  off = send_sequence (node w) - acknowledged_seq (node w) /\ 0 < len <= NDUDT_FRAGMENT_LEN /\
  off + len <= 1 + zlen W - acknowledged_seq (node w).
Proof using Hone.
  intros Hok E Hl. pose proof (seq_bounds w Hok). pose proof (content_len w Hok) as [_ Hd].
  pose proof (no_window _ _ _ _ _ (inv_node _ _ _ _ _ Hok)).
  unfold send_window_start, un_ack in E. rewrite Hd in E. unwrap_in_range. bcase_in E; [done|].
  injection E as <- <-. unfold NDUDT_FRAGMENT_LEN in *. lia.
Qed.

Lemma flush_keeps w (Q : Z -> world -> Prop) : ok w -> (forall ret w', keeps w w' -> Q ret w') ->
  wlp flush_send_window w Q.
Proof using Hone.
  intros Hok HQ. assert (forall ret, Q ret w) as HQ0 by (intros; by apply HQ, keeps_same).
  unfold flush_send_window. ustep. ustep; [ustep; apply HQ0|].
  destruct (send_window_start (node w)) as [[off len]|] eqn:Es; [|ustep; apply HQ0].
  ustep; [ustep; apply HQ0|]. cbv zeta. pose proof (seq_bounds w Hok).
  match goal with H : (len =? 0) = false |- _ => apply Z.eqb_neq in H end.
  destruct (send_window_bounds w off len Hok Es) as (Eoff & Hl & Hol); [done|].
  set (hl := if need_ack (node w) then sizeof_pocket else sizeof_unack).
  assert (12 <= hl <= 16) as Hhl by (unfold hl, sizeof_pocket, sizeof_unack; destruct (need_ack (node w)); lia).
  destruct (send_memory_data w off len hl) as (pre & old & d & post & EM & Epre & Lold & Ld & Hb & Hd); [done|lia..|].
  eapply wlp_lift_ok; [exact EM|]. rewrite Epre. ustep. apply wlp_assoc.
  apply (wlp_header w); [done|]. intros a w1 Ha La C1 N1. eapply wlp_lift_ok; [apply packet_set_sequence|].
  pose proof (keeps_need_off w w1 Hok C1 N1) as K1. apply wlp_bind. apply (wlp_data_packet w w1); try done; try lia.
  { intros x Hx. rewrite (Ha x Hx). by destruct (core_eq _ _ C1) as (_ & _ & _ & _ & -> & _). }
  { by replace (send_sequence (node w)) with (acknowledged_seq (node w) + off) by lia. }
  intros h ret w2 Lh K2 C2.
  assert (send_memory (node w2) = Some (pre ++ old ++ d ++ post)) as EM2.
  { rewrite (send_memory_core _ _ C2), (send_memory_core _ _ C1). exact EM. }
  ustep; repeat ustep; apply HQ.
  - match goal with |- keeps w (mk_world (put_send_memory _ ?nd) _) =>
      eapply (restore_keeps w (mk_world nd (net w2))); try eassumption end; [lia|unfold sizeof_pocket in *; lia| |].
    + apply (keeps_sent w w1 w2 len); [done..|lia|lia|]. cbn. by destruct (_ <? 0).
    + cbn [node]. rewrite <- EM2. by destruct (_ <? 0).
  - eapply restore_keeps; try eassumption; [lia|]. unfold sizeof_pocket in *. lia.
Qed.

Lemma flush_loop_keeps fuel : forall w (Q : unit -> world -> Prop), ok w -> (forall w', keeps w w' -> Q tt w') ->
  wlp (flush_loop fuel) w Q.
Proof using Hone.
  induction fuel as [|fuel IH]; intros w Q Hok HQ; [by intros ? ?|]. cbn [flush_loop].
  apply wlp_bind, flush_keeps; [done|]. intros ret w1 K1. ustep.
  - apply IH; [apply K1|]. intros w2 K2. apply HQ. by eapply keeps_then.
  - repeat ustep. by apply HQ.
Qed.
Lemma flush_all_keeps w (Q : unit -> world -> Prop) : ok w -> (forall w', keeps w w' -> Q tt w') -> wlp flush_all w Q.
Proof using Hone. intros Hok HQ. unfold flush_all. ustep. by apply flush_loop_keeps. Qed.

Lemma send_ack_keeps w (Q : Z -> world -> Prop) : ok w -> (forall ret w', keeps w w' -> Q ret w') ->
  wlp (udt_send_ack stack) w Q.
Proof using Hone Hstack.
  intros Hok HQ. unfold udt_send_ack. ustep.
  eapply (wlp_send_control stack Hstack (sent_ok W (received_sequence (node w)))); [apply built_ack|unfold NDUDT_ACK, NDUDT_DGRAM; lia|..].
  - apply genuine_control; [done|apply Hok|apply wrapu_range; lia|lia|right; split; [done|by eexists]|by intros x [= ->]].
  - intros ret w' Hq. by apply HQ, keeps_quiet.
Qed.

(** ** Retransmission *)

(** With data on its way nothing comes in, so no acknowledgement is due. *)
Lemma no_ack_due w : ok w -> acknowledged_seq (node w) < 1 + zlen W -> need_ack (node w) = false.
Proof using Hone.
  intros Hok Hlt. destruct (need_ack (node w)) eqn:E; [|done].
  apply (no_need _ _ _ _ _ (inv_node _ _ _ _ _ Hok)) in E. pose proof (seq_bounds w Hok).
  destruct Hone as ([->| ->] & _); [|done]. change (zlen []) with 0 in *. lia.
Qed.

(** A change of the retransmission variables. *)
Lemma keeps_retrans w w1 nd v : keeps w w1 -> 0 <= v <= 1 + zlen W ->
  (forall b, core (set_is_retranslate b nd) = core (set_is_retranslate b (set_retrans_seq v (node w1)))) ->
  keeps w (mk_world nd (net w1)).
Proof using.
  intros Hk Hv C. eapply keeps_then; [exact Hk|]. destruct Hk as [[Hn Ho Hi] _].
  destruct (core_eq _ _ (C false)) as (E1 & E2 & E3 & E4 & E5 & E6 & E7 & E8 & E9 & E10 & E11 & E12 & E13).
  cbn in E1, E2, E3, E4, E5, E6, E7, E8, E9, E10, E11, E12, E13.
  split; [|cbn; lia]. split; [|cbn; by rewrite E5|done]. destruct Hn as [[S1 S0 S2 S3 S4 S5 S6] R A B P T V N]. cbn.
  split; rewrite ?E1, ?E2, ?E3, ?E4, ?E5, ?E6, ?E7, ?E8, ?E9, ?E10, ?E11, ?E12, ?E13; done.
Qed.

Lemma s32_u32 x : - 2 ^ 31 <= x < 2 ^ 31 -> s32 (u32 x) = x.
Proof using.
  intros Hx. unfold wraps, wrapu. change (32 - 1) with 31. rewrite Zplus_mod_idemp_l, Z.mod_small; lia.
Qed.

(** The variables after [len] bytes have gone out again. *)
Lemma keeps_resent w w3 v len nd : keeps w w3 -> core (node w3) = core (set_retrans_seq v (node w)) ->
  0 <= len -> (is_retranslate (node w) = false -> 0 <= v /\ v + len <= 1 + zlen W) ->
  core nd = core (let n := if s32 (window_len (node w3)) <? 0 then set_window_len 0 (node w3) else node w3 in
    if is_retranslate n then n else set_retrans_seq (u32 (retrans_seq n + len)) n) ->
  keeps w (mk_world nd (net w3)).
Proof using Hone.
  intros K3 C3 Hl Hv C. cbv zeta in C. pose proof (seq_bounds w3 (proj1 K3)) as Hb.
  pose proof (no_window _ _ _ _ _ (inv_node _ _ _ _ _ (proj1 K3))) as Hw.
  destruct (core_eq _ _ C3) as (_ & _ & _ & _ & _ & Er & Ei & _). cbn in Er, Ei.
  set (n := if s32 (window_len (node w3)) <? 0 then set_window_len 0 (node w3) else node w3) in *.
  assert (keeps w (mk_world n (net w3))) as Kn.
  { apply (keeps_advance w w3 n (send_sequence (node w3)) (window_len n)); try done; [|lia|]; unfold n;
      destruct (_ <? 0); try done. }
  assert (is_retranslate n = is_retranslate (node w3) /\ retrans_seq n = retrans_seq (node w3)) as [En1 En2]
    by (unfold n; by destruct (_ <? 0)).
  rewrite En1, En2, Ei, Er in C. destruct (is_retranslate (node w)) eqn:E.
  - eapply keeps_then; [exact Kn|]. by apply (keeps_core (mk_world n (net w3))); [apply Kn|].
  - destruct (Hv eq_refl). rewrite wrapu_small in C by lia.
    eapply (keeps_retrans w (mk_world n (net w3)) nd (v + len)); [done|lia|].
    intros b. apply core_eq in C. unfold core. cbn in *. destruct_and!. by f_equal; [f_equal|]; congruence.
Qed.

Lemma retranslate_keeps w (Q : Z -> world -> Prop) : ok w -> (forall ret w', keeps w w' -> Q ret w') ->
  wlp retranslate_data w Q.
Proof using Hone.
  intros Hok HQ. pose proof (seq_bounds w Hok) as Hb.
  pose proof (so_retrans _ _ _ _ _ (no_sender _ _ _ _ _ (inv_node _ _ _ _ _ Hok))) as Hrs.
  unfold retranslate_data. ustep. cbv zeta.
  set (len := s32 _). assert (len <= 1 + zlen W - acknowledged_seq (node w)) as Hlen.
  { unfold len. destruct (is_retranslate (node w)); rewrite s32_u32; lia. }
  set (v := if is_retranslate (node w) then retrans_seq (node w) else acknowledged_seq (node w)).
  assert (0 <= v <= 1 + zlen W) as Hv by (unfold v; destruct (is_retranslate (node w)); lia).
  apply wlp_bind.
  apply (wlp_mono _ _ (fun _ w1 => keeps w w1 /\ core (node w1) = core (set_retrans_seq v (node w)))).
  { unfold v. ustep; [ustep|]; destruct (is_retranslate (node w)); try done; (split; [|done]).
    by apply (keeps_retrans w w _ (acknowledged_seq (node w))); [apply keeps_same|lia|]. }
  intros _ w1 (K1 & C1). ustep; [ustep; by apply HQ|]. apply Z.leb_gt in H.
  rewrite (no_ack_due w) by (done || lia).
  set (len1 := Z.min len NDUDT_FRAGMENT_LEN).
  assert (0 < len1 <= NDUDT_FRAGMENT_LEN /\ len1 <= len) as Hl1 by (unfold len1, NDUDT_FRAGMENT_LEN in *; lia).
  destruct (send_memory_data w 0 len1 sizeof_unack) as (pre & old & d & post & EM & Epre & Lold & Ld & Hbd & Hd);
    [done|unfold sizeof_unack; lia..|].
  rewrite Z.add_0_r in Epre, Hd. eapply wlp_lift_ok; [exact EM|]. rewrite Epre. ustep.
  apply wlp_bind. ustep. unfold sizeof_unack in Lold. eapply wlp_lift_ok; [by apply init_packet|].
  rewrite packet_nil_app. eapply wlp_lift_ok; [apply packet_set_sequence|].
  apply wlp_bind. apply (wlp_data_packet w w1); try done.
  { lia. }
  { unfold header_size, sizeof_unack. lia. }
  intros h ret w2 Lh K2 C2.
  assert (send_memory (node w2) = Some (pre ++ old ++ d ++ post)) as EM2.
  { rewrite (send_memory_core _ _ C2), (send_memory_core _ _ C1). exact EM. }
  ustep. ustep.
  match goal with |- wlp _ (mk_world (put_send_memory ?m _) _) _ => set (w3 := mk_world (put_send_memory m (node w2)) (net w2)) end.
  assert (keeps w w3) as K3.
  { eapply restore_keeps; try eassumption; unfold sizeof_unack; [by rewrite Lold|lia]. }
  ustep; [|ustep; by apply HQ].
  repeat ustep. apply HQ. apply (keeps_resent w w3 v len1); try done; [|lia|intros E; unfold v; rewrite E; lia|].
  2:{ cbn [node]. generalize (node w3). intros n3. cbn. destruct (_ <? 0); cbn; by destruct (is_retranslate n3). }
  transitivity (core (node w2)); [|by rewrite C2]. eapply restore_core; [| |exact H0|exact EM2|exact H1]; [by rewrite Lold|unfold sizeof_unack; lia].
Qed.
End Stream.
