(* ===== verification/UdtRecv.v ===== *)
(** * UdtRecv: what comes in keeps the streams

    Acknowledgements, data packets in order, too early or twice, and the functions that
    drive a connector: each keeps the invariant of UdtStream. *)

From S2P Require Import Prelude Bytes LineBuf Handle UdtPacket UdtNode UdtFlow UdtStream.

Lemma lbuf_write_all_content `{!Malloc} lb data n lb' ret : lbuf_wf lb -> 0 <= n <= zlen data ->
  n <= buf_capacity lb - (__end lb - __start lb) -> _lbuf_write lb data n EBUF_ALL = Some (lb', ret) ->
  lbuf_wf lb' /\ lbuf_content lb' = lbuf_content lb ++ slice 0 n data /\ ret = n.
Proof.
  intros Hwf Hn Hf E. pose proof (lbuf_write_defined lb data Hwf n EBUF_ALL _ Hn Hf E) as Hm.
  destruct (lbuf_write_fits lb data Hwf n EBUF_ALL) as (lb2 & E2 & W2 & _ & C2 & _); [lia..|done|].
  rewrite E in E2. by injection E2 as <- <-.
Qed.

(** A packet in a buffer. *)
Lemma packet_header_size_front a t p w s d tail : ndt_header_size (packet t a p w s d ++ tail) 0 = Some (header_size a).
Proof. apply (packet_header_size_of []). Qed.
Lemma packet_data_front a t p w s d tail : pocket_data (packet t a p w s d ++ tail) 0 = Some (header_size a).
Proof. exact (packet_data_of [] tail t a p w s d). Qed.
Lemma drop_header a t p w s d tail : drop (Z.to_nat (header_size a)) (packet t a p w s d ++ tail) = d ++ tail.
Proof.
  replace (packet t a p w s d) with (packet t a p w s [] ++ d) by (unfold packet; by rewrite app_nil_r, <- !app_assoc).
  rewrite <- app_assoc. apply drop_app_length'. pose proof (zlen_packet t a p w s []) as E. change (zlen []) with 0 in E.
  unfold zlen in E. lia.
Qed.

Section Recv.
Context `{HM : !Malloc}.
Context (accept_proc : option (nd_udt_node -> nd_udt_node))
  (data_entry : option (nd_udt_node -> mem -> Z -> nd_udt_node * Z)) (get_pack_size : list Z -> Z).
Context (W rd W' : list Z) (r : Z) (Hone : one_way W W') (Hr : r <= 1 + zlen W).

Abbreviation ok := (inv W rd W' r).
Abbreviation keeps := (keeps W rd W' r).

(** ** Retransmission *)

Lemma keeps_core_upd w w1 nd : keeps w w1 -> core nd = core (node w1) -> keeps w (mk_world nd (net w1)).
Proof using. intros K C. eapply keeps_then; [exact K|]. apply keeps_core; [apply K|done]. Qed.

Lemma udt_retranslate_keeps w (Q : Z -> world -> Prop) : ok w -> (forall ret w', keeps w w' -> Q ret w') ->
  wlp udt_retranslate w Q.
Proof using Hone.
  intros Hok HQ. assert (forall ret, Q ret w) as HQ0 by (intros; by apply HQ, keeps_same).
  unfold udt_retranslate. ustep. cbv zeta. do 2 (ustep; [ustep; apply HQ0|]). ustep.
  - unfold nd_object_seterror. repeat ustep. apply HQ. by apply (keeps_core_upd w w); [apply keeps_same|].
  - apply wlp_bind. apply (retranslate_keeps W rd W' r); [done..|]. intros ret w1 K1. ustep; [ustep|]; ustep; apply HQ; [|done].
    destruct (is_retranslate (node w1)) eqn:E; [by apply (keeps_core_upd w w1)|].
    pose proof (so_retrans _ _ _ _ _ (no_sender _ _ _ _ _ (inv_node _ _ _ _ _ (proj1 K1)))).
    by apply (keeps_retrans W rd W' r w w1 _ (retrans_seq (node w1))).
Qed.

(** ** The list of early packets *)

Lemma keeps_pre w l : ok w -> Forall (stored_ok W') l -> keeps w (mk_world (set_pre_list l (node w)) (net w)).
Proof using.
  intros Hok Hl. split; [|cbn; lia]. apply inv_node_only; [done| |done].
  destruct (inv_node _ _ _ _ _ Hok) as [S [R1 R2 R3 R4 R5] A B P T V N]. by split.
Qed.
Lemma pre_ok w : ok w -> Forall (stored_ok W') (pre_list (node w)).
Proof using. intros Hok. apply Hok. Qed.

Lemma time_keeps w {B} (f : Z -> U B) (Q : B -> world -> Prop) : ok w ->
  (forall t w1, keeps w w1 -> node w1 = node w -> wlp (f t) w1 Q) -> wlp (nd_time ≫= f) w Q.
Proof using.
  intros Hok H. apply wlp_time. intros t w1 N R O. apply H; [|done]. apply keeps_quiet; [done|].
  split; [by rewrite N|done|]. exists []. by rewrite O, app_nil_r.
Qed.

Lemma update_pre_loop_keeps l : forall w (Q : list _udt_packet_node * Z -> world -> Prop), ok w -> Forall (stored_ok W') l ->
  (forall l' n w', keeps w w' -> Forall (stored_ok W') l' -> Q (l', n) w') -> wlp (update_pre_loop l) w Q.
Proof using.
  induction l as [|p l IH]; intros w Q Hok Hl HQ; cbn [update_pre_loop].
  - ustep. apply HQ; [by apply keeps_same|done].
  - apply Forall_cons in Hl as [Hp Hl]. ustep. ustep. cbv zeta. apply time_keeps; [done|]. intros t w1 K1 _. cbv zeta.
    apply wlp_bind, IH; [apply K1|done|]. intros l' n w2 K2 Hl'. ustep.
    pose proof (keeps_then _ _ _ _ _ _ _ K1 K2). destruct (_ || _); apply HQ; try done. by apply Forall_cons.
Qed.
Lemma update_prelist_keeps w (Q : Z -> world -> Prop) : ok w -> (forall ret w', keeps w w' -> Q ret w') ->
  wlp _update_prelist w Q.
Proof using.
  intros Hok HQ. unfold _update_prelist. ustep. apply wlp_bind. apply update_pre_loop_keeps; [done|by apply pre_ok|].
  intros l n w1 K1 Hl. repeat ustep. apply HQ. eapply keeps_then; [exact K1|]. by apply keeps_pre; [apply K1|].
Qed.

(** ** Acknowledgements *)

Lemma not_has nd flag : status nd = NETSTAT_ESTABLISHED -> Z.land NETSTAT_ESTABLISHED flag = 0 -> has nd flag = false.
Proof using. intros E H. unfold has. by rewrite E, H. Qed.

(** The send buffer after [x] was acknowledged. *)
Lemma keeps_acked w lb x nd : ok w -> acknowledged_seq (node w) <= x <= send_sequence (node w) -> x <= r ->
  _lbuf_sub_data (send_buffer (node w)) (x - acknowledged_seq (node w)) = Some lb ->
  core nd = core (set_acknowledged_seq x (set_send_buffer lb (node w))) -> keeps w (mk_world nd (net w)).
Proof using Hone Hr.
  intros Hok Hx Hxr E C. pose proof (seq_bounds _ _ _ _ Hone w Hok) as Hb.
  pose proof (content_len _ _ _ _ w Hok) as [Hc Hd].
  destruct (inv_node _ _ _ _ _ Hok) as [[S1 S0 S2 S3 S4 S5 S6] R A B P T V N].
  destruct (lbuf_sub_data_ok (send_buffer (node w)) (x - acknowledged_seq (node w)) S1)
    as (lb2 & E2 & W2 & (A2 & _) & C2 & _).
  { rewrite <- lbuf_content_len by done. lia. }
  { apply (lbuf_sub_data_defined _ _ lb); [done|lia|exact E]. }
  rewrite E in E2. injection E2 as <-.
  destruct (core_eq _ _ C) as (E1 & E2 & E3 & E4 & E5 & E6 & E7 & E8 & E9 & E10 & E11 & E12 & E13).
  cbn in E1, E2, E3, E4, E5, E6, E7, E8, E9, E10, E11, E12, E13.
  split; [|cbn; lia]. apply inv_node_only; [done| |done].
  split; rewrite ?E1, ?E2, ?E3, ?E4, ?E5, ?E6, ?E7, ?E8, ?E9, ?E10, ?E11, ?E12, ?E13; try done.
  split; try done; [congruence|lia|].
  set (n := x - acknowledged_seq (node w)) in *. set (c := lbuf_content (send_buffer (node w))) in *.
  assert (lbuf_content lb = slice n (zlen c - n) c) as ->.
  { rewrite (slice_take_drop n c) in C2 at 1 by lia. by apply app_inv_head in C2. }
  rewrite Hc, S5, slice_slice by lia. f_equal; lia.
Qed.

Lemma handle_ack_keeps w x (Q : Z -> world -> Prop) : ok w -> 0 <= x <= r -> (forall ret w', keeps w w' -> Q ret w') ->
  wlp (_handle_ack accept_proc x) w Q.
Proof using Hone Hr.
  intros Hok Hx HQ. pose proof (seq_bounds _ _ _ _ Hone w Hok) as Hb.
  pose proof (no_status _ _ _ _ _ (inv_node _ _ _ _ _ Hok)) as Hst.
  unfold _handle_ack. ustep. cbv zeta. ustep; [ustep; by apply HQ, keeps_same|].
  rewrite Hst. change (NETSTAT_ESTABLISHED =? NETSTAT_SYNRECV) with false. cbv iota.
  rewrite not_has by done. rewrite !s32_u32 by lia.
  assert (forall w1, keeps w w1 -> wlp (upd (fun nd =>
    if is_retranslate nd && (0 <=? s32 (u32 (x - retrans_seq nd))) then
      set_resend_times 0 (set_retrans_seq x (set_is_retranslate false nd)) else nd);; mret 0) w1 Q) as Hend.
  { intros w1 K1. repeat ustep. apply HQ. destruct (_ && _); [|by apply (keeps_core_upd w w1)].
    by apply (keeps_retrans W rd W' r w w1 _ x); [|lia|]. }
  ustep; [|by apply Hend, keeps_same]. do 4 ustep. apply Hend.
  apply andb_true_iff in H0 as [_ Hle%Z.leb_le]. apply Z.leb_gt in H.
  apply (keeps_acked w y x); [done|lia|lia|done|].
  destruct (is_retranslate _); [done|]. by destruct (calc_timeouval _ _ _) as [[? ?] ?].
Qed.

(** ** Data packets *)

(** The next [d] of the stream has gone to the receive buffer. *)
Lemma keeps_taken w lb d nd : ok w -> of_stream W' (received_sequence (node w)) d -> 0 < zlen d ->
  lbuf_wf lb -> lbuf_content lb = lbuf_content (recv_buffer (node w)) ++ d ->
  core nd = core (set_recv_buffer lb (set_received_sequence (u32 (received_sequence (node w) + zlen d))
    (set_need_ack true (node w)))) -> keeps w (mk_world nd (net w)).
Proof using Hone.
  intros Hok (Hs1 & Hs2 & Hs3) Hd Hwf Hc C. pose proof (seq_bounds _ _ _ _ Hone w Hok) as Hb.
  destruct Hok as [[S [R1 R2 R3 R4 R5] A B P T V N] Ho Hi].
  rewrite wrapu_small in C by lia.
  destruct (core_eq _ _ C) as (E1 & E2 & E3 & E4 & E5 & E6 & E7 & E8 & E9 & E10 & E11 & E12 & E13).
  cbn in E1, E2, E3, E4, E5, E6, E7, E8, E9, E10, E11, E12, E13.
  split; [|cbn; lia]. split; [|cbn|done].
  - split; cbn; rewrite ?E1, ?E2, ?E3, ?E4, ?E5, ?E6, ?E7, ?E8, ?E9, ?E10, ?E11, ?E12, ?E13; try done.
    + split; [done|rewrite Hc, zlen_app; lia| |lia|done].
      rewrite Hc, app_assoc, R3. rewrite Hs3 at 1.
      replace (received_sequence (node w) + zlen d - 1) with (received_sequence (node w) - 1 + zlen d) by lia.
      by rewrite slice_split by lia.
    + intros _ HW. rewrite HW in Hs2. change (zlen []) with 0 in Hs2. lia.
  - eapply Forall_impl; [exact Ho|]. intros dg Hdg. rewrite E5, <- (app_nil_r W).
    eapply sent_ok_mono; [|exact Hdg]. lia.
Qed.

Lemma take_data_keeps w a pt win d tail (Q : Z -> world -> Prop) : ok w ->
  of_stream W' (received_sequence (node w)) d -> 0 < zlen d ->
  zlen d <= _lbuf_free_capacity (recv_buffer (node w)) -> (forall w', keeps w w' -> Q (zlen d) w') ->
  wlp (take_data (packet NDUDT_DATA a pt win (received_sequence (node w)) d ++ tail) (zlen d)) w Q.
Proof using Hone.
  intros Hok Hs Hd Hf HQ. pose proof (ro_wf _ _ _ _ _ (no_receiver _ _ _ _ _ (inv_node _ _ _ _ _ Hok))) as Hwf.
  rewrite lbuf_free_capacity_eq in Hf by done.
  unfold take_data. eapply wlp_lift_ok; [apply packet_data_front|]. do 3 ustep. rewrite drop_header. ustep.
  match goal with H : _ = Some ?y |- _ => destruct y as [lb ret]; cbn [recv_buffer set_received_sequence set_need_ack] in H;
    apply lbuf_write_all_content in H as (Hwf' & Hc & ->); [|done|zlia|done] end.
  rewrite slice_app_l, slice_all in Hc by lia. repeat ustep. apply HQ. by apply (keeps_taken w lb d).
Qed.

Lemma handle_pre_keeps w p (Q : Z -> world -> Prop) : ok w -> stored_ok W' p -> (forall ret w', keeps w w' -> Q ret w') ->
  wlp (_handle_pre_packet (pack p) (pk_size p)) w Q.
Proof using Hone.
  intros Hok (a & pt & win & s & d & tail & Hf & _ & Hd & Hs & Ep & Ht & Es) HQ. unfold _handle_pre_packet.
  unfold NDUDT_FRAGMENT_LEN in Hd. rewrite Ep, Es. eapply wlp_lift_ok; [apply packet_header_size_front|]. cbv zeta.
  replace (header_size a + zlen d - header_size a) with (zlen d) by lia. rewrite (wraps_small 32) by lia.
  eapply wlp_lift_ok; [by apply packet_fields|]. ustep. cbn [p_sequence].
  destruct (s =? received_sequence (node w)) eqn:E; cbn [negb]; [apply Z.eqb_eq in E; subst s|ustep; by apply HQ, keeps_same].
  rewrite (wrapu_small 64) by lia. ustep; [ustep; by apply HQ, keeps_same|]. apply Z.ltb_ge in H.
  apply wlp_bind. apply take_data_keeps; [done..|lia|lia|]. intros w' K. ustep. by apply HQ.
Qed.

Lemma fetch_loop_keeps l : forall w (Q : list _udt_packet_node -> world -> Prop), ok w -> Forall (stored_ok W') l ->
  (forall l' w', keeps w w' -> Forall (stored_ok W') l' -> Q l' w') -> wlp (fetch_loop l) w Q.
Proof using Hone.
  induction l as [|p l IH]; intros w Q Hok Hl HQ; cbn [fetch_loop].
  - ustep. apply HQ; [by apply keeps_same|done].
  - pose proof Hl as [Hp Hl']%Forall_cons. apply wlp_bind, handle_pre_keeps; [done..|]. intros ret w1 K1. ustep.
    + apply IH; [apply K1|done|]. intros l' w2 K2. apply HQ. by eapply keeps_then.
    + ustep. by apply HQ.
Qed.
Lemma fetch_prelist_keeps w (Q : Z -> world -> Prop) : ok w -> (forall ret w', keeps w w' -> Q ret w') ->
  wlp _tryto_fetch_prelist w Q.
Proof using Hone.
  intros Hok HQ. unfold _tryto_fetch_prelist. ustep. apply wlp_bind. apply fetch_loop_keeps; [done|by apply pre_ok|].
  intros l w1 K1 Hl. repeat ustep. apply HQ. eapply keeps_then; [exact K1|]. by apply keeps_pre; [apply K1|].
Qed.

Lemma insert_pre_Forall P p l : forall l', insert_pre p l = Some l' -> P p -> Forall P l -> Forall P l'.
Proof using.
  induction l as [|q l IH]; intros l' E Hp Hl; cbn [insert_pre] in E.
  - injection E as <-. by apply Forall_singleton.
  - apply Forall_cons in Hl as [Hq Hl]. cbv zeta in E. bcase_in E; [|bcase_in E].
    + injection E as <-. by repeat (apply Forall_cons; split).
    + destruct (pre_seq p); [|done]. destruct (pre_seq q); [|done]. injection E as <-.
      destruct (_ <? 0); by repeat (apply Forall_cons; split).
    + destruct (insert_pre p l) as [l1|] eqn:E1; [|done]. injection E as <-.
      apply Forall_cons. split; [done|]. by apply (IH l1).
Qed.

Lemma addto_pre_keeps w a pt win s d tail (Q : Z -> world -> Prop) : ok w -> fields_ok NDUDT_DATA a pt win s -> bytes d ->
  0 < zlen d <= NDUDT_FRAGMENT_LEN -> of_stream W' s d -> (forall ret w', keeps w w' -> Q ret w') ->
  wlp (_addto_pre_list (packet NDUDT_DATA a pt win s d ++ tail) (header_size a + zlen d)) w Q.
Proof using.
  intros Hok Hf Hb Hd Hs HQ. set (l := packet NDUDT_DATA a pt win s d).
  assert (zlen l = header_size a + zlen d) as Ll by apply zlen_packet. rewrite <- Ll. unfold _addto_pre_list.
  destruct (malloc _) as [blk|] eqn:Em; [|ustep; by apply HQ, keeps_same]. apply malloc_length in Em.
  apply time_keeps; [done|]. intros t w1 K1 _.
  eapply wlp_lift_ok.
  { rewrite mread_ok by (rewrite ?zlen_app; pose proof (zlen_nonneg tail); zlia).
    rewrite slice_app_l by zlia. by rewrite slice_all. }
  ustep. ustep. repeat ustep. apply HQ. eapply keeps_then; [exact K1|]. apply keeps_pre; [apply K1|].
  eapply insert_pre_Forall; [eassumption| |apply pre_ok, K1].
  exists a, pt, win, s, d, (slice (offset_pack + zlen l) sizeof_pocket blk). unfold offset_pack, sizeof_pocket, sizeof_packet_node in *.
  split_and!; try done; try lia. rewrite zlen_slice by (pose proof (zlen_nonneg l); lia). lia.
Qed.

(** ** Driving a connector *)

Context (stack : mem) (Hstack : zlen stack = 2048).

Lemma update_socket_keeps w (Q : Z -> world -> Prop) : ok w -> (forall ret w', keeps w w' -> Q ret w') ->
  wlp (update_socket stack) w Q.
Proof using Hone Hstack.
  intros Hok HQ. unfold update_socket, nd_object_seterror. apply time_keeps; [done|]. intros t w1 K1 _. do 3 ustep.
  assert (keeps w (mk_world (set_myerrno (u16 NDERR_SUCCESS) (set_update_tm t (node w1))) (net w1))) as K2
    by (by apply (keeps_core_upd w w1)).
  set (w2 := mk_world _ _) in *.
  assert (forall w3, keeps w w3 -> wlp (sent ← flush_send_window; r ← (if 0 <? sent then flush_all;; mret 1 else udt_retranslate);
    if negb (0 <? sent) && (r =? -1) then mret (-1)
    else nd ← get_node; when (need_ack nd) (udt_send_ack stack;; upd (set_need_ack false));; mret 1) w3 Q) as Hrest.
  { intros w3 K3. apply wlp_bind. apply (flush_keeps W rd W' r); [done|apply K3|]. intros sent w4 K4.
    pose proof (keeps_then _ _ _ _ _ _ _ K3 K4) as K5. apply wlp_bind.
    apply (wlp_mono _ _ (fun _ w5 => keeps w w5)).
    { ustep; [apply wlp_bind, (flush_all_keeps W rd W' r); [done|apply K5|]; intros w5 K6; ustep|
        apply udt_retranslate_keeps; [apply K5|]; intros ? w5 K6]; by eapply keeps_then. }
    intros r0 w5 K6. ustep; [ustep; by apply HQ|]. ustep. ustep; [apply wlp_bind|ustep; by apply HQ].
    apply (send_ack_keeps stack Hstack W rd W' r); [done|apply K6|]. intros ? w6 K7. repeat ustep. apply HQ.
    pose proof (keeps_then _ _ _ _ _ _ _ K6 K7) as K8. eapply keeps_then; [exact K8|].
    by apply (keeps_need_off W rd W' r w6 (mk_world (set_need_ack false (node w6)) (net w6))); [apply K8|..]. }
  ustep; [apply wlp_bind, update_prelist_keeps; [apply K2|]; intros ? w3 K3; ustep|]; apply Hrest; [by eapply keeps_then|done].
Qed.


Lemma keeps_step w w1 Q : keeps w w1 -> (forall (ret : Z) w', keeps w w' -> Q ret w') -> forall ret w', keeps w1 w' -> Q ret w'.
Proof using. intros K HQ ret w' K'. apply HQ. by eapply keeps_then. Qed.

Lemma handle_income_keeps w a pt win s d tail (Q : Z -> world -> Prop) : ok w -> fields_ok NDUDT_DATA a pt win s -> bytes d ->
  0 < zlen d <= NDUDT_FRAGMENT_LEN -> of_stream W' s d -> 4 <= zlen tail -> (forall ret w', keeps w w' -> Q ret w') ->
  wlp (_handle_income_data stack (packet NDUDT_DATA a pt win s d ++ tail) (header_size a + zlen d)) w Q.
Proof using Hone Hstack.
  intros Hok Hf Hb Hd Hs Ht HQ. pose proof (seq_bounds _ _ _ _ Hone w Hok) as Hq. pose proof Hs as (Hs1 & Hs2 & _).
  unfold _handle_income_data, NDUDT_FRAGMENT_LEN in *. eapply wlp_lift_ok; [apply packet_header_size_front|]. cbv zeta.
  replace (header_size a + zlen d - header_size a) with (zlen d) by lia. rewrite (wraps_small 32) by lia.
  ustep; [ustep; by apply HQ, keeps_same|]. eapply wlp_lift_ok; [by apply packet_fields|]. ustep. cbn [p_sequence].
  rewrite s32_u32 by lia. ustep.
  { apply wlp_bind. apply addto_pre_keeps; try done. intros ? w1 K1. ustep. by apply HQ. }
  ustep.
  { apply wlp_bind. apply (send_ack_keeps stack Hstack W rd W' r); [done..|]. intros ? w1 K1. ustep. by apply HQ. }
  ustep; [ustep; by apply HQ, keeps_same|]. rewrite Z.ltb_ge in *.
  assert (s = received_sequence (node w)) as -> by lia.
  apply wlp_bind. apply take_data_keeps; [done..|lia|done|]. intros w1 K1. ustep. ustep; [apply wlp_bind|ustep; by apply HQ].
  apply fetch_prelist_keeps; [apply K1|]. intros ? w2 K2. repeat ustep. apply HQ. by eapply keeps_then.
Qed.

Lemma handle_syn_keeps w a t pt win s d tail (Q : Z -> world -> Prop) : ok w -> fields_ok t a pt win s ->
  4 <= zlen tail -> (forall ret w', keeps w w' -> Q ret w') ->
  wlp (_handle_syn stack (packet t a pt win s d ++ tail)) w Q.
Proof using.
  intros Hok Hf Ht HQ. pose proof (no_status _ _ _ _ _ (inv_node _ _ _ _ _ Hok)) as Hst. unfold _handle_syn.
  eapply wlp_lift_ok; [by apply packet_fields|]. ustep. rewrite Hst. cbv beta iota delta [NETSTAT_ESTABLISHED NETSTAT_LISTEN].
  cbn -[wlp]. unfold nd_object_seterror. repeat ustep. apply HQ. by apply (keeps_core_upd w w); [apply keeps_same|].
Qed.

Lemma packet_switch_keeps w a t pt win s d tail (Q : Z -> world -> Prop) : ok w ->
  fields_ok t a pt win s -> bytes d -> zlen d <= NDUDT_FRAGMENT_LEN ->
  (t = NDUDT_DATA /\ 0 < zlen d /\ of_stream W' s d) \/ t = NDUDT_SYN \/ (t = NDUDT_ACK /\ is_Some a) ->
  (forall x, a = Some x -> x <= r) -> 4 <= zlen tail -> (forall ret w', keeps w w' -> Q ret w') ->
  wlp (packet_switch stack accept_proc data_entry
    (mk_pocket PROTOCOL_UDT t (match a with Some _ => true | None => false end) 0 pt win s
       (match a with Some x => x | None => le_combine (slice 0 4 (d ++ tail)) end))
    (packet t a pt win s d ++ tail) (header_size a + zlen d)) w Q.
Proof using Hone Hr Hstack.
  intros Hok Hf Hb Hl Hcase Ha Ht HQ. pose proof (fo_ack _ _ _ _ _ Hf) as Ha0. unfold packet_switch. cbn [p_type p_ack p_ack_seq].
  destruct Hcase as [(-> & Hd & Hs)|[->|(-> & [x ->])]]; cbv beta iota zeta delta [NDUDT_DATA NDUDT_DGRAM NDUDT_SYN NDUDT_ALIVE NDUDT_ACK];
    cbn -[wlp _handle_ack _handle_income_data packet _handle_syn header_size Z.add zlen].
  - apply wlp_bind. apply (wlp_mono _ _ (fun _ w1 => keeps w w1)).
    { destruct a as [x|]; cbn [when]; [|ustep; by apply keeps_same].
      apply wlp_bind, handle_ack_keeps; [done|specialize (Ha x eq_refl); lia|]. intros ? w1 K1. by ustep. }
    intros _ w1 K1. apply wlp_bind. apply handle_income_keeps; try done; [apply K1|]. intros ret w2 K2.
    pose proof (keeps_then _ _ _ _ _ _ _ K1 K2) as K3. ustep; [|ustep; by apply HQ].
    apply (flush_all_keeps W rd W' r); [done|apply K3|]. intros w4 K4. ustep. apply HQ. by eapply keeps_then.
  - by apply handle_syn_keeps.
  - apply handle_ack_keeps; [done|specialize (Ha x eq_refl); lia|done].
Qed.

Lemma keeps_window w v : ok w -> 0 <= v -> keeps w (mk_world (set_window_len v (node w)) (net w)).
Proof using Hone.
  intros Hok Hv. pose proof (seq_bounds _ _ _ _ Hone w Hok).
  apply (keeps_advance W rd W' r w w _ (send_sequence (node w)) v); try done; lia.
Qed.

Lemma packet_handler_keeps w l tail (Q : Z -> world -> Prop) : ok w -> genuine W' r l -> 4 <= zlen tail ->
  (forall ret w', keeps w w' -> Q ret w') ->
  wlp (_udt_packet_handler stack accept_proc data_entry (l ++ tail) (zlen l)) w Q.
Proof using Hone Hr Hstack.
  intros Hok [t a pt win s d Hf Hb Hl Hcase Ha] Ht HQ. rewrite zlen_packet. unfold _udt_packet_handler, nd_object_seterror.
  ustep. rewrite not_has by (apply Hok || done). apply time_keeps; [done|]. intros tm w1 K1 _. do 3 ustep.
  eapply wlp_lift_ok; [by apply packet_fields|]. cbn [p_window].
  match goal with |- wlp _ ?w2 _ => assert (keeps w w2) as K2 by (by apply (keeps_core_upd w w1)); set (w2' := w2) in * end.
  apply wlp_bind. apply (wlp_mono _ _ (fun _ w3 => keeps w w3)).
  { pose proof (fo_win _ _ _ _ _ Hf). ustep; [ustep|done]. eapply keeps_then; [exact K2|]. apply keeps_window; [apply K2|lia]. }
  intros _ w3 K3. apply wlp_bind. apply packet_switch_keeps; try done; [apply K3|]. intros ret w4 K4.
  repeat ustep. apply HQ. by eapply keeps_then.
Qed.

(** Reading from the network: an error, or a datagram of the peer that fits in the
    buffer. *)
Lemma keeps_script w nd ticks sends waits recvs now : ok w -> core nd = core (node w) -> Forall (in_ok W' r) recvs ->
  keeps w (mk_world nd (mk_unet now ticks sends waits recvs (u_out (net w)))).
Proof using.
  intros [Hn Ho Hi] C Hrs. destruct (core_eq _ _ C) as (_ & _ & _ & _ & E & _).
  split; [|cbn; lia]. split; cbn; [by apply (node_ok_core (node w))|by rewrite E|done].
Qed.
Lemma genuine_len l : genuine W' r l -> 12 <= zlen l <= 16 + NDUDT_FRAGMENT_LEN.
Proof using. intros [t a p win s d Hf Hb Hl _ _]. rewrite zlen_packet. pose proof (zlen_nonneg d). destruct a; simpl; lia. Qed.
Lemma genuine_unseal l stale : genuine W' r l -> exists m, _test_checksum (seal l ++ stale) 0 (zlen (seal l)) = Some (m, 1) /\
  _udt_net2host m 0 = Some (l ++ stale).
Proof using.
  intros [t a p win s d Hf Hb Hl _ _]. apply unseal; [apply packet_complete|by apply packet_bytes| |apply packet_no_checksum].
  rewrite zlen_packet. unfold NDUDT_FRAGMENT_LEN in *. destruct a; simpl; lia.
Qed.

Lemma socket_read_keeps w len e from d w2 : ok w -> nd_socket_udp_read sizeof_pocketbuf w = Some ((len, e, from, d), w2) ->
  keeps w w2 /\ ((len = -1 /\ from = None) \/ (sent_ok W' r d /\ len = zlen d /\ 12 <= len <= 1500)).
Proof using.
  intros Hok E. pose proof (inv_in _ _ _ _ _ Hok) as Hin. unfold nd_socket_udp_read in E.
  destruct (u_recvs (net w)) as [|[a dg|er] rs].
  - injection E as <- <- <- <- <-. split; [|by left]. by apply keeps_script.
  - apply Forall_cons in Hin as [(l & -> & Hg) Hin]. pose proof (genuine_len l Hg). unfold NDUDT_FRAGMENT_LEN, sizeof_pocketbuf in *.
    rewrite slice_whole in E by (rewrite zlen_seal; lia). rewrite zlen_seal in *.
    injection E as <- <- <- <- <-. split; [by apply keeps_script|].
    right. split; [by exists l|]. rewrite zlen_seal. lia.
  - apply Forall_cons in Hin as [_ Hin]. injection E as <- <- <- <- <-. split; [|by left]. by apply keeps_script.
Qed.

Lemma udp_read_keeps w buf tmout (Q : mem * Z -> world -> Prop) : ok w -> zlen buf = sizeof_pocketbuf ->
  (forall buf' ret w', keeps w w' -> zlen buf' = sizeof_pocketbuf -> ret <= 0 -> Q (buf', ret) w') ->
  (forall dg tail w', keeps w w' -> sent_ok W' r dg -> zlen (dg ++ tail) = sizeof_pocketbuf ->
     0 < zlen dg -> Q (dg ++ tail, zlen dg) w') ->
  wlp (nd_udp_read buf sizeof_pocketbuf tmout) w Q.
Proof using.
  intros Hok Hl Hf Hd. unfold nd_udp_read. ustep.
  assert (keeps w (mk_world (set_read_again false (node w)) (net w))) as K0 by (by apply keeps_core).
  set (w0 := mk_world _ _) in *. apply wlp_bind. apply (wlp_mono _ _ (fun _ w1 => keeps w w1)).
  { ustep; [|by ustep]. intros rr w1 E. unfold nd_socket_wait_read in E.
    destruct (u_waits (net w0)); injection E as <- <-; (apply keeps_script; [done|done|apply Hok]). }
  intros rr w1 K1. ustep. { ustep. ustep. apply Hf; [by apply (keeps_core_upd w w1)|done|by apply Z.leb_le]. }
  apply wlp_bind. intros [[[len e] from] d] w2 E. apply socket_read_keeps in E as [K2' Hcase]; [|apply K1].
  pose proof (keeps_then _ _ _ _ _ _ _ K1 K2') as K2.
  destruct Hcase as [(-> & ->)|(Hs & -> & Hlen)].
  - ustep. change (-1 =? -1) with true. cbv iota. ustep.
    ustep; ustep; ustep; (apply Hf; [|done|done || lia]); by apply (keeps_core_upd w w2).
  - apply wlp_bind. apply (wlp_mono _ _ (fun _ w3 => keeps w w3)).
    { destruct from; [ustep; by apply (keeps_core_upd w w2)|by ustep]. }
    intros _ w3 K3. ustep; [lia|].
    unfold sizeof_pocketbuf in *. eapply wlp_lift_ok; [by apply mwrite_front; lia|]. ustep.
    match goal with |- wlp _ ?w4 _ => assert (keeps w w4) as K4 by (by apply (keeps_core_upd w w3)); set (w5 := w4) in * end.
    apply time_keeps; [apply K4|]. intros t w6 K6 _. pose proof (keeps_then _ _ _ _ _ _ _ K4 K6) as K7.
    do 2 ustep. ustep. apply Hd; [by apply (keeps_core_upd w w6)|done| |lia].
    pose proof (zlen_nonneg d). rewrite zlen_app, zlen_slice; lia.
Qed.

Lemma read_packet_keeps w buf tmout (Q : mem * Z -> world -> Prop) : ok w -> zlen buf = sizeof_pocketbuf ->
  (forall buf' ret w', keeps w w' -> zlen buf' = sizeof_pocketbuf -> ret <= 0 -> Q (buf', ret) w') ->
  (forall l tail w', keeps w w' -> genuine W' r l -> zlen (l ++ tail) = sizeof_pocketbuf -> 4 <= zlen tail ->
     Q (l ++ tail, zlen l) w') ->
  wlp (read_packet_from_socket buf sizeof_pocketbuf tmout) w Q.
Proof using.
  intros Hok Hl Hf Hd. unfold read_packet_from_socket. apply wlp_bind. apply udp_read_keeps; [done..| |].
  - intros buf' ret w' K L Hret. ustep; [ustep; by apply Hf|]. apply Z.leb_gt in H. lia.
  - intros dg tail w' K (l & -> & Hg) L Hp. ustep; [apply Z.leb_le in H; lia|].
    destruct (genuine_unseal l tail Hg) as (m & Et & En). eapply wlp_lift_ok; [exact Et|]. cbn [Z.eqb].
    eapply wlp_lift_ok; [exact En|]. ustep. pose proof (genuine_len l Hg). rewrite zlen_app in L. rewrite zlen_seal in *.
    unfold sizeof_pocketbuf, NDUDT_FRAGMENT_LEN in *. apply Hd; [done|done|rewrite zlen_app; lia|lia].
Qed.

(** The buffer and the result of a wait for a packet. *)
Definition got (w : world) (x : mem * Z) (w' : world) : Prop :=
  keeps w w' /\ zlen (fst x) = sizeof_pocketbuf /\
  (snd x <= 0 \/ exists l tail, fst x = l ++ tail /\ snd x = zlen l /\ genuine W' r l /\ 4 <= zlen tail).

Lemma got_nothing w buf ret w' : keeps w w' -> zlen buf = sizeof_pocketbuf -> ret <= 0 -> got w (buf, ret) w'.
Proof using. intros K L H. split_and!; try done. by left. Qed.
Lemma read_packet_got w buf tmout (Q : mem * Z -> world -> Prop) : ok w -> zlen buf = sizeof_pocketbuf ->
  (forall x w', got w x w' -> Q x w') -> wlp (read_packet_from_socket buf sizeof_pocketbuf tmout) w Q.
Proof using.
  intros Hok Hl HQ. apply read_packet_keeps; [done..| |].
  - intros buf' ret w' K L H. by apply HQ, got_nothing.
  - intros l tail w' K Hg L Ht. apply HQ. split_and!; try done. right. by exists l, tail.
Qed.
Lemma got_trans w w1 x w2 : keeps w w1 -> got w1 x w2 -> got w x w2.
Proof using. intros K (K2 & H). split; [by eapply keeps_then|done]. Qed.
Lemma got_core w x w1 nd : got w x w1 -> core nd = core (node w1) -> got w x (mk_world nd (net w1)).
Proof using. intros (K & H) C. split; [by apply (keeps_core_upd w w1)|done]. Qed.

Lemma wait_data_loop_keeps fuel : forall w buf wt tm (Q : mem * Z -> world -> Prop), ok w -> zlen buf = sizeof_pocketbuf ->
  (forall x w', got w x w' -> Q x w') -> wlp (wait_data_loop stack fuel buf wt tm) w Q.
Proof using Hone Hr Hstack.
  induction fuel as [|fuel IH]; intros w buf wt tm Q Hok Hl HQ; cbn [wait_data_loop]; [by intros ? ?|].
  apply wlp_bind, read_packet_got; [done..|]. intros [buf1 ret] w1 G1. pose proof G1 as (K1 & L1 & Hc). cbn [fst snd] in *.
  ustep. ustep.
  - apply Z.leb_le in H. ustep; [|ustep; by apply HQ]. cbv zeta. apply wlp_bind. apply update_socket_keeps; [apply K1|].
    intros rr w2 K2. pose proof (keeps_then _ _ _ _ _ _ _ K1 K2) as K3. ustep; [ustep; by apply HQ, got_nothing; [..|lia]|].
    ustep. assert (forall e, keeps w (mk_world (set_myerrno e (node w2)) (net w2))) as K4 by (intros; by apply (keeps_core_upd w w2)).
    ustep; [|ustep; by apply HQ, got_nothing].
    apply IH; [apply K4|done|]. intros x w3 G3. apply HQ. by eapply got_trans.
  - assert (forall e, Q (buf1, -1) (mk_world (set_myerrno e (node w1)) (net w1))) as Hbad
      by (intros; apply HQ, got_nothing; [by apply (keeps_core_upd w w1)|done|lia]).
    assert (forall t, Q (buf1, ret) (mk_world (set_update_tm t (node w1)) (net w1))) as Hgood
      by (intros; by apply HQ, (got_core w _ w1)).
    ustep. do 3 (ustep; [repeat ustep; by first [apply Hbad|apply Hgood]|]). repeat ustep. apply Hgood.
Qed.

Lemma wait_data_keeps w buf tm (Q : mem * Z -> world -> Prop) : ok w -> zlen buf = sizeof_pocketbuf ->
  (forall x w', got w x w' -> Q x w') -> wlp (_wait_data stack buf tm) w Q.
Proof using Hone Hr Hstack.
  intros Hok Hl HQ. unfold _wait_data. cbv zeta. apply wlp_bind, update_socket_keeps; [done|]. intros ? w1 K1.
  apply wait_data_loop_keeps; [apply K1|done|]. intros x w2 G. apply HQ. by eapply got_trans.
Qed.

(** ** Reading and waiting *)

(** [w'] after the user has been given the next bytes [d] of the stream. *)
Definition gives (w w' : world) (d : list Z) : Prop :=
  inv W (rd ++ d) W' r w' /\ received_sequence (node w) <= received_sequence (node w').

Lemma gives_nothing w w' : keeps w w' -> gives w w' [].
Proof using. intros [K H]. split; [by rewrite app_nil_r|done]. Qed.

(** [_lbuf_read] hands out the next bytes of the stream. *)
Lemma gives_read w w1 lb buffer buffer' n ret nd : keeps w w1 -> 0 <= n ->
  _lbuf_read (recv_buffer (node w1)) buffer n EBUF_ALL = Some (lb, buffer', ret) ->
  core nd = core (set_recv_buffer lb (node w1)) ->
  exists d, gives w (mk_world nd (net w1)) d /\ ret = zlen d /\ buffer' = d ++ slice ret (zlen buffer - ret) buffer.
Proof using Hone.
  intros [Hok Hseq] Hn E C. pose proof (seq_bounds _ _ _ _ Hone w1 Hok) as Hb.
  destruct Hok as [[S [R1 R2 R3 R4 R5] A B P T V N] Ho Hi].
  pose proof (lbuf_content_len _ R1) as Lc.
  set (lb0 := recv_buffer (node w1)) in *. set (k := Z.min n (__end lb0 - __start lb0)) in *.
  assert (_lbuf_read lb0 buffer k EBUF_ALL = Some (lb, buffer', ret)) as E1.
  { unfold k. apply Z.min_case_strong; intros ?; [done|]. by rewrite <- (lbuf_read_all_eq _ _ n). }
  assert (0 <= k <= __end lb0 - __start lb0) as Hk0 by (destruct R1; unfold k; lia). clearbody k. clear E.
  assert (k <= zlen buffer) as Hk.
  { destruct (Z.lt_ge_cases (zlen buffer) k) as [Hlt|?]; [exfalso|lia]. unfold _lbuf_read in E1.
    rewrite lbuf_datalen_eq in E1 by done. cbn [andb] in E1. change (EBUF_ALL =? EBUF_SPECIFIED) with false in E1. cbn [andb] in E1.
    destruct (Z.ltb_spec (__end lb0 - __start lb0) k); [lia|]. destruct (__buf lb0) as [m|]; [|done]. cbn in E1.
    destruct (mread m (__start lb0) k) as [d|] eqn:Er; [|done]. cbn in E1. apply mread_Some in Er as ((? & ? & ?) & ->).
    destruct (mwrite buffer 0 _) eqn:Ew; [|done]. apply mwrite_inv in Ew as (_ & Hw & _). rewrite zlen_slice in Hw; lia. }
  destruct (lbuf_read_ok lb0 buffer k EBUF_ALL R1) as (lb2 & E2 & W2 & _ & C2 & _); [lia|done|by eapply lbuf_read_defined|].
  rewrite E1 in E2. injection E2 as <- -> ->.
  exists (slice 0 k (lbuf_content lb0)). assert (zlen (slice 0 k (lbuf_content lb0)) = k) as Lk by (apply zlen_slice; lia).
  split; [|done]. destruct (core_eq _ _ C) as (E2 & E3 & E4 & E5 & E6 & E7 & E8 & E9 & E10 & E11 & E12 & E13 & E14).
  cbn in E2, E3, E4, E5, E6, E7, E8, E9, E10, E11, E12, E13, E14.
  split; [|cbn; by rewrite E6]. split; [|cbn; by rewrite E6|done]. cbn.
  split; rewrite ?E2, ?E3, ?E4, ?E5, ?E6, ?E7, ?E8, ?E9, ?E10, ?E11, ?E12, ?E13, ?E14; try done.
  split; [done| | |done|done].
  - rewrite R2, C2 at 1. rewrite !zlen_app. lia.
  - by rewrite <- app_assoc, <- C2.
Qed.

Lemma udt_recv_gives w buffer bsize (Q : mem * Z -> world -> Prop) : ok w -> 0 <= bsize ->
  (forall x w', gives w w' (slice 0 (snd x) (fst x)) -> Q x w') ->
  wlp (udt_recv stack accept_proc data_entry buffer bsize) w Q.
Proof using Hone Hr Hstack.
  intros Hok Hb HQ. unfold udt_recv. ustep. ustep.
  assert (keeps w (mk_world (set_user_data_in false (node w)) (net w))) as K0 by (by apply keeps_core).
  set (w0 := mk_world _ _) in *.
  assert (forall w1 b x, keeps w w1 -> x <= 0 -> Q (b, x) w1) as Hnone.
  { intros w1 b x K Hx. apply HQ. cbn [fst snd]. rewrite slice_neg by done. by apply gives_nothing. }
  apply wlp_bind. apply (wlp_mono _ _ (fun _ w1 => keeps w w1)).
  { ustep; [by ustep|]. apply wlp_bind, wait_data_keeps; [apply K0|done|]. intros [buf ret] w1 (K1 & L1 & Hc). cbn [fst snd] in *.
    pose proof (keeps_then _ _ _ _ _ _ _ K0 K1) as K2. ustep; [|by ustep]. apply Z.ltb_lt in H0.
    destruct Hc as [?|(l & tail & -> & -> & Hg & Ht)]; [lia|].
    apply packet_handler_keeps; [apply K2|done|done|]. intros ? w3 K3. by eapply keeps_then. }
  intros rr w1 K1. ustep; [ustep; by apply Hnone|]. ustep. ustep; [|ustep; by apply Hnone].
  apply wlp_lift. intros [[lb b2] ret] E. repeat ustep.
  destruct (gives_read w w1 lb buffer b2 bsize ret (set_recv_buffer lb (node w1)) K1 Hb E eq_refl) as (d & G & -> & ->).
  apply HQ. cbn [fst snd]. by rewrite slice_app_l, slice_all by zlia.
Qed.

Lemma wait_packet_loop_keeps fuel : forall w buf tm (Q : Z -> world -> Prop), ok w -> zlen buf = sizeof_pocketbuf ->
  (forall x w', keeps w w' -> Q x w') ->
  wlp (wait_packet_loop stack accept_proc data_entry get_pack_size fuel buf tm) w Q.
Proof using Hone Hr Hstack.
  induction fuel as [|fuel IH]; intros w buf tm Q Hok Hl HQ; cbn [wait_packet_loop]; [by intros ? ?|].
  apply time_keeps; [done|]. intros t w1 K1 _. apply wlp_bind, wait_data_keeps; [apply K1|done|].
  intros [buf1 ret] w2 (K2 & L2 & Hc). cbn [fst snd] in *. pose proof (keeps_then _ _ _ _ _ _ _ K1 K2) as K3.
  ustep; [ustep; by apply HQ|]. apply Z.leb_gt in H. destruct Hc as [?|(l & tail & -> & -> & Hg & Ht)]; [lia|].
  apply wlp_bind. apply packet_handler_keeps; [apply K3|done|done|]. intros rr w4 K4.
  pose proof (keeps_then _ _ _ _ _ _ _ K3 K4) as K5. ustep. cbv zeta. ustep.
  do 2 (ustep; [ustep; by apply HQ|]). apply time_keeps; [apply K5|]. intros t2 w6 K6 _. cbv zeta.
  pose proof (keeps_then _ _ _ _ _ _ _ K5 K6) as K7. ustep; [|ustep; by apply HQ].
  apply IH; [apply K7|done|]. intros x w8 K8. apply HQ. by eapply keeps_then.
Qed.
Lemma udt_wait_packet_keeps w tm (Q : Z -> world -> Prop) : ok w -> (forall x w', keeps w w' -> Q x w') ->
  wlp (udt_wait_packet stack accept_proc data_entry get_pack_size tm) w Q.
Proof using Hone Hr Hstack.
  intros Hok HQ. unfold udt_wait_packet. intros a w' E.
  set (n := S (length (u_recvs (net w)))) in *. clearbody n. revert a w' E.
  match goal with |- forall a w', ?m w = _ -> _ => change (wlp m w Q) end.
  ustep. assert (keeps w (mk_world (set_user_data_in false (node w)) (net w))) as K0 by (by apply keeps_core).
  apply wait_packet_loop_keeps; [apply K0|done|]. intros x w2 K2. apply HQ. exact (keeps_then _ _ _ _ _ _ _ K0 K2).
Qed.

(** ** Sessions *)

Lemma read_datagram_got w (Q : mem * Z * option Z -> world -> Prop) : ok w ->
  (forall x from w', got w x w' -> Q (x, from) w') -> wlp (read_datagram stack sizeof_pocketbuf) w Q.
Proof using Hstack.
  intros Hok HQ. unfold read_datagram. apply wlp_bind. intros [[[len e] from] d] w1 E.
  apply socket_read_keeps in E as [K1 [(-> & ->)|((l & -> & Hg) & -> & Hlen)]]; [..|done].
  - change (-1 <=? 0) with true. cbv iota. ustep. by apply HQ, got_nothing.
  - ustep; [apply Z.leb_le in H; lia|]. rewrite zlen_seal in Hlen.
    eapply wlp_lift_ok; [apply mwrite_front; rewrite zlen_seal; lia|]. set (tail := slice _ _ stack).
    assert (zlen tail = 2048 - zlen l) as Lt by (unfold tail; rewrite zlen_slice; rewrite ?zlen_seal; lia).
    destruct (genuine_unseal l tail Hg) as (m & Et & En). eapply wlp_lift_ok; [exact Et|]. cbn [Z.eqb].
    eapply wlp_lift_ok; [exact En|]. rewrite zlen_seal.
    assert (got w (l ++ tail, zlen l) w1) as G.
    { split_and!; [done|unfold sizeof_pocketbuf; cbn [fst]; rewrite zlen_app; lia|].
      right. exists l, tail. split_and!; try done. lia. }
    ustep. ustep. bcase; [by apply HQ|]. apply HQ. destruct G as (G1 & G2 & _). by apply got_nothing.
Qed.

Lemma session_data_keeps deliver w l tail addr (Q : Z -> world -> Prop) :
  (forall w1 (P : Z -> world -> Prop), ok w1 -> (forall ret w2, keeps w1 w2 -> P ret w2) -> wlp deliver w1 P) ->
  ok w -> genuine W' r l -> 4 <= zlen tail -> (forall ret w', keeps w w' -> Q ret w') ->
  wlp (udt_session_data_handle stack accept_proc data_entry deliver (l ++ tail) (zlen l) addr) w Q.
Proof using Hone Hr Hstack.
  intros Hdel Hok Hg Ht HQ. unfold udt_session_data_handle. ustep. ustep.
  assert (keeps w (mk_world (set_user_data_in false (node w)) (net w))) as K0 by (by apply keeps_core).
  ustep; [|ustep; by apply HQ]. apply wlp_bind. apply packet_handler_keeps; [apply K0|done..|]. intros ret w1 K1.
  pose proof (keeps_then _ _ _ _ _ _ _ K0 K1) as K2. ustep. ustep; [ustep; by apply HQ|]. ustep; [|ustep; by apply HQ].
  apply Hdel; [apply K2|]. intros rr w2 K3. apply HQ. exact (keeps_then _ _ _ _ _ _ _ K2 K3).
Qed.

Lemma pump_keeps deliver w l tail addr (Q : Z -> world -> Prop) :
  (forall w1 (P : Z -> world -> Prop), ok w1 -> (forall ret w2, keeps w1 w2 -> P ret w2) -> wlp deliver w1 P) ->
  ok w -> genuine W' r l -> 4 <= zlen tail -> (forall ret w', keeps w w' -> Q ret w') ->
  wlp (pump_insrv_udt_data stack accept_proc data_entry deliver (l ++ tail) (zlen l) addr) w Q.
Proof using Hone Hr Hstack.
  intros Hdel Hok Hg Ht HQ. unfold pump_insrv_udt_data. ustep. ustep. ustep; [ustep; by apply HQ, keeps_same|].
  ustep; [|by apply session_data_keeps]. apply time_keeps; [done|]. intros t w1 K1 _. do 2 ustep.
  match goal with |- wlp _ ?w2 _ => assert (keeps w w2) as K2 by (by apply (keeps_core_upd w w1)) end.
  unfold pump_syn. apply wlp_bind. destruct Hg as [t' a pt win s d Hf _ _ _ _].
  apply handle_syn_keeps; [apply K2|done..|]. intros ret w3 K3. ustep; [apply wlp_bind; by intros ? ? ? ? ?|].
  repeat ustep. apply HQ. eapply (keeps_core_upd w w3); [|done]. exact (keeps_then _ _ _ _ _ _ _ K2 K3).
Qed.

Lemma main_thread_keeps deliver w (Q : Z -> world -> Prop) :
  (forall w1 (P : Z -> world -> Prop), ok w1 -> (forall ret w2, keeps w1 w2 -> P ret w2) -> wlp deliver w1 P) ->
  ok w -> (forall ret w', keeps w w' -> Q ret w') ->
  wlp (main_thread_round stack accept_proc data_entry deliver) w Q.
Proof using Hone Hr Hstack.
  intros Hdel Hok HQ. unfold main_thread_round. apply wlp_bind, read_datagram_got; [done|].
  intros [buf len] from w1 (K1 & L1 & Hc). cbn [fst snd] in *. destruct from as [addr|]; [|ustep; by apply HQ].
  ustep; [|ustep; by apply HQ]. apply Z.ltb_lt in H. destruct Hc as [?|(l & tail & -> & -> & Hg & Ht)]; [lia|].
  apply pump_keeps; [done|apply K1|done..|]. intros ret w2 K2. apply HQ. exact (keeps_then _ _ _ _ _ _ _ K1 K2).
Qed.
End Recv.

(** ** What the user sends *)

Section Send.
Context `{HM : !Malloc} (stack : mem) (Hstack : zlen stack = 2048).
Context (W rd W' : list Z) (r : Z).

(** The user's [d] at the end of the send buffer. *)
Lemma keeps_written d w lb nd : inv W rd W' r w -> bytes d -> lbuf_wf lb -> auto_inc lb = 0 ->
  lbuf_content lb = lbuf_content (send_buffer (node w)) ++ d -> core nd = core (set_send_buffer lb (node w)) ->
  inv (W ++ d) rd W' r (mk_world nd (net w)).
Proof using.
  intros [[[S1 S0 S2 S3 S4 S5 S6] R A B P T V N] Ho Hi] Hd Hwf Hau Hc C. pose proof (zlen_nonneg d).
  destruct (core_eq _ _ C) as (E1 & E2 & E3 & E4 & E5 & E6 & E7 & E8 & E9 & E10 & E11 & E12 & E13).
  cbn in E1, E2, E3, E4, E5, E6, E7, E8, E9, E10, E11, E12, E13.
  split; [|cbn; rewrite E5; eapply Forall_impl; [exact Ho|]; intros dg; by apply sent_ok_mono|done].
  cbn. split; rewrite ?E1, ?E2, ?E3, ?E4, ?E5, ?E6, ?E7, ?E8, ?E9, ?E10, ?E11, ?E12, ?E13; try done.
  split; rewrite ?zlen_app; try done; [by apply Forall_app|lia| |lia].
  rewrite Hc, S5. replace (zlen W + zlen d - (acknowledged_seq (node w) - 1)) with
    (zlen W - (acknowledged_seq (node w) - 1) + zlen d) by lia.
  rewrite slice_split by lia. rewrite slice_app_l by lia. f_equal.
  rewrite slice_app_r by lia. replace (_ + _ - zlen W) with 0 by lia. by rewrite slice_all.
Qed.

Lemma write_specified lb data n lb' ret : lbuf_wf lb -> auto_inc lb = 0 -> 0 <= n <= zlen data ->
  _lbuf_write lb data n EBUF_SPECIFIED = Some (lb', ret) ->
  (ret = -1 /\ lb' = lb) \/ (ret = n /\ lbuf_wf lb' /\ auto_inc lb' = 0 /\ lbuf_content lb' = lbuf_content lb ++ slice 0 n data).
Proof using.
  intros Hwf Ha Hn E. destruct (Z.lt_ge_cases (buf_capacity lb - (__end lb - __start lb)) n) as [Hlt|Hge].
  { rewrite lbuf_write_full in E by done. injection E as <- <-. by left. }
  pose proof (lbuf_write_defined lb data Hwf n EBUF_SPECIFIED _ Hn Hge E) as Hm.
  destruct (lbuf_write_fits lb data Hwf n EBUF_SPECIFIED) as (lb2 & E2 & W2 & (A2 & _) & C2 & _); [done|lia|done|].
  rewrite E in E2. injection E2 as <- ->. right. split_and!; try done. congruence.
Qed.

Lemma udt_send_written w data len (Q : Z -> world -> Prop) : inv W rd W' r w -> bytes data -> len <= zlen data ->
  (forall ret w', inv (W ++ slice 0 ret data) rd W' r w' -> received_sequence (node w') = received_sequence (node w) ->
     ret = -1 \/ ret = len -> Q ret w') ->
  wlp (udt_send data len) w Q.
Proof using.
  intros Hok Hd Hlen HQ. unfold udt_send.
  assert (forall nd, core nd = core (node w) -> Q (-1) (mk_world nd (net w))) as Hno.
  { intros nd C. apply HQ; [|by apply core_eq in C; cbn in C; destruct_and!|by left].
    rewrite slice_neg, app_nil_r by lia. by apply keeps_core. }
  ustep. do 2 (ustep; [ustep; ustep; by apply Hno|]). ustep. apply wlp_lift. intros [lb ret] E. repeat ustep.
  apply orb_false_iff in H0 as [H0 _]. apply Z.ltb_ge in H0.
  destruct (inv_node _ _ _ _ _ Hok) as [[S1 S0 _ _ _ _ _] _ _ _ _ _ _ _].
  apply write_specified in E as [(-> & ->)|(-> & Hwf & Hau & Hc)]; [| |done..|lia].
  - apply Hno. by destruct (node w).
  - apply HQ; [|done|by right].
    by apply (keeps_written (slice 0 len data) w lb); [|apply Forall_slice|..].
Qed.

(** [udt_connector_send] with the reliable flag. *)
Lemma connector_send_written w m o len flag (Q : mem * Z -> world -> Prop) :
  let data := drop (Z.to_nat o) m in
  inv W rd W' r w -> bytes data -> len <= zlen data -> one_way (W ++ slice 0 len data) W' -> Z.land flag 4 = 0 ->
  (forall m' ret w', inv (W ++ slice 0 ret data) rd W' r w' -> received_sequence (node w) <= received_sequence (node w') ->
     ret = -1 \/ ret = len -> Q (m', ret) w') ->
  wlp (udt_connector_send m o len flag) w Q.
Proof using.
  intros data Hok Hd Hlen Hone Hf HQ. unfold udt_connector_send. ustep. rewrite Hf. cbn [Z.eqb negb].
  assert (inv W rd W' r (mk_world (set_myerrno NDERR_SUCCESS (node w)) (net w))) as Hok1 by (by apply keeps_core).
  apply wlp_bind. apply udt_send_written; [done..|]. fold data. intros ret w1 Hok2 E1 Hret. cbn [node] in E1.
  ustep; [|ustep; by apply HQ; [|cbn in E1; lia|]]. apply Z.leb_le in H. destruct Hret as [->| ->]; [lia|].
  apply wlp_bind. apply (flush_keeps (W ++ slice 0 len data) rd W' r); [done..|]. intros rr w2 [K1 K2]. repeat ustep.
  apply HQ; [done| |by right]. cbn in *. lia.
Qed.
End Send.
