(* ===== verification/UdtNet.v ===== *)
(** * UdtNet: two UDT connectors over a network

    One connector sends a stream, the other receives it.  The network keeps every
    datagram that was ever sent and gives any of them to the other side, as often as it
    likes and in any order, or none: it loses, repeats and reorders.  A step is one
    operation of one side, with a script of what the operating system answers; what an
    operation receives was sent before it began.  The receiver gets a prefix of what was
    written, and nothing leaves the sender's buffer before the receiver has it. *)

From S2P Require Import Prelude Bytes LineBuf Handle UdtPacket UdtNode UdtFlow UdtOpen UdtStream UdtRecv.

(** ** Operations of an endpoint *)

Inductive udt_op :=
  | OpSend (data : list Z)                          (* [udt_send] *)
  | OpConnectorSend (m : mem) (o len flag : Z)      (* [udt_connector_send] *)
  | OpUpdate                                        (* [update_socket] *)
  | OpRecv (buffer : mem) (bsize : Z)               (* [udt_recv] *)
  | OpWait (tmout : Z)                              (* [udt_wait_packet] *)
  | OpData.                                         (* [main_thread_round] of a session *)

(** What it takes from the user, if it takes it. *)
Definition op_data (o : udt_op) : list Z :=
  match o with
  | OpSend d => d
  | OpConnectorSend m o len _ => slice 0 len (drop (Z.to_nat o) m)
  | _ => []
  end.
Definition is_write (o : udt_op) : bool := match o with OpSend _ | OpConnectorSend _ _ _ _ => true | _ => false end.
Definition op_ok (o : udt_op) : Prop :=
  match o with
  | OpSend d => bytes d
  | OpConnectorSend m o len flag => bytes m /\ len <= zlen (drop (Z.to_nat o) m) /\ Z.land flag 4 = 0
  | OpRecv _ bsize => 0 <= bsize
  | _ => True
  end.

Record udt_system := mk_system {
  sender : nd_udt_node;
  receiver : nd_udt_node;
  sender_out : list (list Z);     (* every datagram it has sent *)
  receiver_out : list (list Z);
  written : list Z;               (* what the sender's user has written *)
  delivered : list Z              (* what the receiver's user has read *)
}.

Section Net.
Context `{HM : !Malloc} (stack : mem) (accept_proc : option (nd_udt_node -> nd_udt_node))
  (data_entry : option (nd_udt_node -> mem -> Z -> nd_udt_node * Z)) (get_pack_size : list Z -> Z).

(** The bytes it has taken from the user and the bytes it has given to the user. *)
Definition run_op (o : udt_op) : U (list Z * list Z) :=
  match o with
  | OpSend d => ret ← udt_send d (zlen d); mret (slice 0 ret d, [])
  | OpConnectorSend m o len flag =>
      '(_, ret) ← udt_connector_send m o len flag; mret (slice 0 ret (drop (Z.to_nat o) m), [])
  | OpUpdate => update_socket stack;; mret ([], [])
  | OpRecv buffer bsize => '(b, ret) ← udt_recv stack accept_proc data_entry buffer bsize; mret ([], slice 0 ret b)
  | OpWait tmout => udt_wait_packet stack accept_proc data_entry get_pack_size tmout;; mret ([], [])
  | OpData => main_thread_round stack accept_proc data_entry (mret 0);; mret ([], [])
  end.

(** A script in which every datagram is one of [soup]. *)
Definition drawn (soup : list (list Z)) (x : urecv) : Prop :=
  match x with UDatagram _ d => d ∈ soup | UError _ => True end.

Inductive udt_step : udt_system -> udt_system -> Prop :=
  | step_sender s o nt wr dl w : op_ok o -> zlen (written s ++ op_data o) < 2 ^ 31 - 1 ->
      u_out nt = sender_out s -> Forall (drawn (receiver_out s)) (u_recvs nt) ->
      run_op o (mk_world (sender s) nt) = Some ((wr, dl), w) ->
      udt_step s (mk_system (node w) (receiver s) (u_out (net w)) (receiver_out s) (written s ++ wr) (delivered s))
  | step_receiver s o nt wr dl w : op_ok o -> is_write o = false ->
      u_out nt = receiver_out s -> Forall (drawn (sender_out s)) (u_recvs nt) ->
      run_op o (mk_world (receiver s) nt) = Some ((wr, dl), w) ->
      udt_step s (mk_system (sender s) (node w) (sender_out s) (u_out (net w)) (written s) (delivered s ++ dl)).

(** Two of them with the packets of the handshake on the network. *)
Record initial (s : udt_system) : Prop := {
  in_sender : fresh (sender s);
  in_receiver : fresh (receiver s);
  in_sender_out : Forall (sent_ok [] 1) (sender_out s);
  in_receiver_out : Forall (sent_ok [] 1) (receiver_out s);
  in_streams : written s = [] /\ delivered s = []
}.

Inductive reachable : udt_system -> Prop :=
  | reach_init s : initial s -> reachable s
  | reach_step s s' : reachable s -> udt_step s s' -> reachable s'.

(** ** The invariant *)

Record system_ok (s : udt_system) : Prop := {
  sys_len : zlen (written s) < 2 ^ 31 - 1;
  sys_sender : node_ok (written s) [] [] (received_sequence (receiver s)) (sender s);
  sys_receiver : node_ok [] (delivered s) (written s) (received_sequence (sender s)) (receiver s);
  sys_sender_out : Forall (sent_ok (written s) (received_sequence (sender s))) (sender_out s);
  sys_receiver_out : Forall (sent_ok [] (received_sequence (receiver s))) (receiver_out s)
}.

Lemma fresh_ok nd : fresh nd -> node_ok [] [] [] 1 nd.
Proof.
  intros [Hst Hs Hf Hp Hb Hl Hw (Ws & As & Cs) (Wr & Cr)]. injection Hs as E1 E2 E3 E4.
  split; try done; rewrite ?E1, ?E2, ?E3, ?E4, ?Hf, ?Hp; try done.
  all: split; rewrite ?Cs, ?Cr; done || by apply Forall_nil.
Qed.
Lemma initial_ok s : initial s -> system_ok s.
Proof.
  intros [Hs Hr Hso Hro [E1 E2]].
  pose proof (ep_seqs _ _ _ _ _ Hs) as Es. pose proof (ep_seqs _ _ _ _ _ Hr) as Er. injection Es as _ _ Es _. injection Er as _ _ Er _.
  split; rewrite ?E1, ?E2, ?Es, ?Er; try done; by apply fresh_ok.
Qed.

(** ** Operations keep it *)

Context (Hstack : zlen stack = 2048).

Lemma run_op_inv W rd W' r o w : inv W rd W' r w -> one_way (W ++ op_data o) W' -> r <= 1 + zlen W -> op_ok o ->
  wlp (run_op o) w (fun x w' => inv (W ++ fst x) (rd ++ snd x) W' r w' /\
    received_sequence (node w) <= received_sequence (node w') /\ zlen (fst x) <= zlen (op_data o)).
Proof using Hstack.
  intros Hok H1 Hr Ho.
  assert (one_way W W') as Hone.
  { destruct H1 as (Hor & Hl & Hl'). split; [|rewrite zlen_app in Hl; pose proof (zlen_nonneg (op_data o)); lia].
    destruct Hor as [[-> _]%app_eq_nil|]; [by left|by right]. }
  assert (forall w', keeps W rd W' r w w' -> inv (W ++ []) (rd ++ []) W' r w' /\
    received_sequence (node w) <= received_sequence (node w') /\ zlen (@nil Z) <= zlen (op_data o)) as Hk.
  { intros w' [K1 K2]. rewrite !app_nil_r. split_and!; [done..|]. apply (zlen_nonneg (op_data o)). }
  destruct o as [d|m o len flag| |buffer bsize|tmout|]; cbn [run_op op_data op_ok] in *.
  - apply wlp_bind, (udt_send_written W rd W' r); [done..|]. intros ret w' Hok' E Hret. ustep. cbn [fst snd].
    rewrite app_nil_r, E. split_and!; [done..|]. destruct Hret as [->| ->]; [zlia|by rewrite slice_all].
  - destruct Ho as (Hb & Hl & Hf). apply wlp_bind.
    apply (connector_send_written W rd W' r w m o len flag); [done|by apply Forall_drop|done..|].
    intros m' ret w' Hok' E Hret. ustep. cbn [fst snd].
    rewrite app_nil_r. split_and!; [done..|]. destruct Hret as [->| ->]; [|done]. rewrite slice_neg by lia. apply zlen_nonneg.
  - apply wlp_bind, (update_socket_keeps W rd W' r Hone stack Hstack); [done|]. intros _ w' K. ustep. by apply Hk.
  - apply wlp_bind. apply (udt_recv_gives accept_proc data_entry W rd W' r Hone Hr stack Hstack); [done..|].
    intros [b ret] w' [G1 G2]. ustep. cbn [fst snd]. by rewrite app_nil_r.
  - apply wlp_bind. apply (udt_wait_packet_keeps accept_proc data_entry get_pack_size W rd W' r Hone Hr stack Hstack); [done|].
    intros _ w' K. ustep. by apply Hk.
  - apply wlp_bind. apply (main_thread_keeps accept_proc data_entry W rd W' r Hone Hr stack Hstack); [|done|].
    + intros w1 P H HP. ustep. by apply HP, keeps_same.
    + intros _ w' K. ustep. by apply Hk.
Qed.

Lemma drawn_ok W r soup l : Forall (sent_ok W r) soup -> Forall (drawn soup) l -> Forall (in_ok W r) l.
Proof.
  intros Hs Hl. eapply Forall_impl; [exact Hl|]. intros [a d|e] Hx; [|done]. by apply (proj1 (Forall_forall _ _) Hs).
Qed.

(** What the other side has does not hurt a side that it has gone on. *)
Lemma node_ok_later W rd W' W2' r r2 nd : node_ok W rd W' r nd -> r <= r2 -> node_ok W rd (W' ++ W2') r2 nd.
Proof.
  intros [S [R1 R2 R3 R4 R5] A B P T V N] Hr. pose proof (zlen_nonneg W2'). pose proof (zlen_nonneg rd).
  pose proof (zlen_nonneg (lbuf_content (recv_buffer nd))).
  split; try done; [|lia|].
  - split; try done.
    + rewrite slice_app_l by lia. done.
    + rewrite zlen_app. lia.
    + eapply Forall_impl; [exact R5|]. intros p (a & pt & w & s & d & tail & Q1 & Q2 & Q3 & Q4 & Q5 & Q6 & Q7).
      exists a, pt, w, s, d, tail. split_and!; try done; try lia. by apply of_stream_mono.
  - intros Hn. specialize (N Hn). destruct W'; [done|]. done.
Qed.

(** A connector to which nothing was sent has delivered nothing. *)
Lemma node_ok_empty W rd r nd : node_ok W rd [] r nd -> rd = [].
Proof.
  intros [_ [_ _ R3 _ _] _ _ _ _ _ _]. apply (f_equal length) in R3. unfold slice in R3.
  rewrite drop_nil, take_nil, length_app in R3. destruct rd; [done|]. simpl in R3. lia.
Qed.

Lemma udt_step_ok s s' : system_ok s -> udt_step s s' -> system_ok s'.
Proof using Hstack.
  intros [Hl Hs Hr Hso Hro] Hst. destruct Hst as [s o nt wr dl w Ho Hlen Eo Hin E|s o nt wr dl w Ho Hw Eo Hin E].
  - assert (inv (written s) [] [] (received_sequence (receiver s)) (mk_world (sender s) nt)) as Hinv.
    { split; cbn; [done|by rewrite Eo|by eapply drawn_ok]. }
    pose proof (ro_in _ _ _ _ _ (no_receiver _ _ _ _ _ Hr)) as Hrw.
    eapply run_op_inv in E as ([Hn Ho' Hi'] & Hm & Hwr); [|exact Hinv|split_and!; [by right|done|done]|done|done].
    cbn [fst snd node net app] in *. pose proof (node_ok_empty _ _ _ _ Hn) as ->.
    split; cbn; [rewrite zlen_app in *; lia|done| |done|done]. by eapply node_ok_later.
  - assert (inv [] (delivered s) (written s) (received_sequence (sender s)) (mk_world (receiver s) nt)) as Hinv.
    { split; cbn; [done|by rewrite Eo|by eapply drawn_ok]. }
    pose proof (ro_in _ _ _ _ _ (no_receiver _ _ _ _ _ Hs)) as Hrw.
    assert (op_data o = []) as Ed by (by destruct o).
    eapply run_op_inv in E as ([Hn Ho' Hi'] & Hm & Hwr); [|exact Hinv|rewrite Ed; split_and!; [by left|done|done]|done|done].
    cbn [fst snd node net] in *. assert (wr = []) as ->.
    { apply zlen_0_nil. rewrite Ed in Hwr. pose proof (zlen_nonneg wr). change (zlen []) with 0 in Hwr. lia. }
    split; cbn; try done. rewrite <- (app_nil_r (@nil Z)) at 2. by eapply node_ok_later.
Qed.

Lemma reachable_ok s : reachable s -> system_ok s.
Proof using Hstack. induction 1; [by apply initial_ok|by eapply udt_step_ok]. Qed.

Lemma init_endpoint lead m : zlen lead = 16 -> malloc ND_NETBUF_SIZE = Some m ->
  exists nd, nd_udtnode_init lead = Some nd /\ endpoint NETSTAT_CLOSED 0 0 0 nd /\ local_port nd = 0 /\
    send_window nd = 0xffff.
Proof.
  intros Hl Em. unfold nd_udtnode_init.
  destruct (lbuf_init_ok (recv_buffer (_udt_connector_init lead)) ND_NETBUF_SIZE m Em) as (lb1 & -> & W1 & C1 & K1 & _ & S1);
    [unfold ND_NETBUF_SIZE; lia|]. cbn [mbind option_bind].
  destruct (lbuf_init_ok (send_buffer (set_recv_buffer lb1 (_udt_connector_init lead))) ND_NETBUF_SIZE m Em)
    as (lb2 & -> & W2 & C2 & K2 & A2 & _); [unfold ND_NETBUF_SIZE; lia|]. cbn [mbind option_bind].
  eexists. split; [done|]. split_and!; try done.
  unfold send_window. cbn [recv_buffer set_send_buffer set_recv_buffer]. rewrite lbuf_free_capacity_eq by done.
  pose proof (lbuf_content_len lb1 W1) as L1. rewrite C1 in L1. change (zlen []) with 0 in L1. rewrite <- L1, K1. done.
Qed.

Lemma handshake_packet t a p s : t = NDUDT_SYN \/ (t = NDUDT_ACK /\ is_Some a) -> 0 <= p < 2 ^ 16 -> 0 <= s < 2 ^ 32 ->
  (a = None \/ a = Some 1) -> sent_ok [] 1 (seal (packet t a p (u16 0xffff) s [])).
Proof.
  intros Ht Hp Hs Ha. eexists. split; [done|]. split.
  - apply control_ok; [unfold NDUDT_SYN, NDUDT_ACK in *; lia|by destruct Ha as [->| ->]|done|done].
  - by apply Forall_nil.
  - done.
  - by right.
  - intros x ->. destruct Ha as [?|[= ->]]; [done|lia].
Qed.

(** ** Properties *)

(** C4: the handshake connects two connectors that [nd_udtnode_init] has made: the SYN of
    the client [c] opens the session [s] of a listener, which answers; when the answer
    comes to one of the client's at most three SYNs, [udt_connect] returns true, having
    sent its SYNs and an acknowledgement; and when the session gets this acknowledgement
    it is connected too.  Both stand at sequence number 1 with empty buffers: an initial
    state of the network, so that [udt_stream_delivery] applies. *)
Theorem udt_handshake f lead lead' m sock port addr addr' ntc nts nta tail tail' k ws rs :
  accept_proc = Some f -> accepts f -> zlen lead = 16 -> zlen lead' = 16 -> malloc ND_NETBUF_SIZE = Some m ->
  (k < 3)%nat -> 0 < sock -> 0 <= port < 2 ^ 16 -> 4 <= zlen tail -> 4 <= zlen tail' ->
  u_sends ntc = [] -> u_sends nts = [] -> u_sends nta = [] -> u_out ntc = [] -> u_out nts = [] ->
  let syn := packet NDUDT_SYN None 0 0xffff 0 [] in
  let answer := packet NDUDT_SYN (Some 1) port 0xffff 0 [] in
  let ack := packet NDUDT_ACK (Some 1) port 0xffff 0 [] in
  u_waits ntc = replicate k 0 ++ 1 :: ws -> u_recvs ntc = UDatagram addr (seal answer) :: rs -> u_out nta = [seal answer] ->
  exists c s s1 c' s', nd_udtnode_init lead = Some c /\ nd_udtnode_init lead' = Some s /\
    pump_new_session stack sock port addr' (syn ++ tail) (zlen syn) (mk_world s nts) = Some (0, s1) /\
    u_out (net s1) = [seal answer] /\
    udt_connect stack accept_proc data_entry sock addr (mk_world c ntc) = Some (true, c') /\
    u_out (net c') = replicate (S k) (seal syn) ++ [seal ack] /\
    _udt_packet_handler stack accept_proc data_entry (ack ++ tail') (zlen ack) (mk_world (node s1) nta) = Some (0, s') /\
    local_port (node c') = port /\
    initial (mk_system (node c') (node s') (u_out (net c')) (u_out (net s')) [] []).
Proof using Hstack.
  intros Ef Hacc Hl Hl' Em Hk Hsock Hport Ht Ht' Hnc Hns Hna Hoc Hos syn answer ack Hw Hr Hoa.
  destruct (init_endpoint lead m Hl Em) as (c & Ec & Hc & Hcp & Hcw).
  destruct (init_endpoint lead' m Hl' Em) as (s & Es & Hs & _ & Hsw).
  pose proof (handshake_ok stack Hstack accept_proc data_entry f c s sock port addr addr' ntc nts nta tail tail' k ws rs
    Ef Hacc Hk Hsock Hport Hc Hcp Hs Hnc Hns Hna Ht Ht') as H. rewrite Hcw, Hsw, Hos, Hoc, Hoa in H.
  destruct (H Hw Hr) as (s1 & c' & s' & E1 & O1 & E2 & O2 & E3 & O3 & F2 & F3 & P2).
  exists c, s, s1, c', s'. cbn [app] in O1, O2. split_and!; try done.
  split; cbn; [done|done| | |done].
  - rewrite O2. apply Forall_app. split; [apply Forall_replicate|apply Forall_singleton];
      (apply handshake_packet; unfold NDUDT_ACK; try lia; eauto).
  - rewrite O3. apply Forall_singleton, handshake_packet; unfold NDUDT_ACK; try lia; eauto.
Qed.

End Net.

(** ** A run *)

(** Two connected sides with buffers of 64 bytes; the sender may send 64 bytes. *)
Definition small_node : nd_udt_node :=
  let lb := mk_lbuf 0 1 64 0 0 (Some (zrepeat 0 64)) in
  set_window_len 64 (set_local_port 3 (set_status NETSTAT_ESTABLISHED
    (set_send_sequence 1 (set_acknowledged_seq 1 (set_received_sequence 1
      (set_recv_buffer lb (set_send_buffer lb (_udt_connector_init (zrepeat 9 16))))))))).
Definition small_stack : mem := zrepeat 170 2048.
Definition small_system : udt_system := mk_system small_node small_node [] [] [] [].
Definition script (waits : list Z) (recvs : list (list Z)) (out : list (list Z)) : unet :=
  mk_unet 1000 [1; 2] [] waits (map (UDatagram 0) recvs) out.
Definition small_op (o : udt_op) (w : world) := run_op small_stack None None (fun _ => 0) o w.
Definition sender_op (s : udt_system) (o : udt_op) (recvs : list (list Z)) : option udt_system :=
  '((wr, _), w) ← small_op o (mk_world (sender s) (script [] recvs (sender_out s)));
  Some (mk_system (node w) (receiver s) (u_out (net w)) (receiver_out s) (written s ++ wr) (delivered s)).
Definition receiver_op (s : udt_system) (o : udt_op) (recvs : list (list Z)) : option udt_system :=
  '((_, dl), w) ← small_op o (mk_world (receiver s) (script [] recvs (receiver_out s)));
  Some (mk_system (sender s) (node w) (sender_out s) (u_out (net w)) (written s) (delivered s ++ dl)).

Abbreviation small_reachable := (reachable small_stack None None (fun _ => 0)).

Lemma small_lbuf : lbuf_wf (mk_lbuf 0 1 64 0 0 (Some (zrepeat 0 64))).
Proof. split; simpl; [by eexists|lia|lia]. Qed.
Lemma small_initial : initial small_system.
Proof.
  assert (fresh small_node) as F.
  { split; try done; split_and!; try done; apply small_lbuf. }
  split; try done; by apply Forall_nil.
Qed.
Lemma drawn_map soup recvs : Forall (fun d => d ∈ soup) recvs -> Forall (drawn soup) (map (UDatagram 0) recvs).
Proof. intros H. apply Forall_map. exact H. Qed.
Lemma sender_op_step s o recvs s' : small_reachable s -> op_ok o -> zlen (written s ++ op_data o) < 2 ^ 31 - 1 ->
  Forall (fun d => d ∈ receiver_out s) recvs -> sender_op s o recvs = Some s' -> small_reachable s'.
Proof.
  intros Hr Ho Hl Hd E. eapply reach_step; [exact Hr|]. unfold sender_op in E.
  destruct (small_op _ _) as [[[wr dl] w]|] eqn:Er; [|done]. injection E as <-.
  eapply step_sender; [exact Ho|exact Hl| | |exact Er]; [done|by apply drawn_map].
Qed.
Lemma receiver_op_step s o recvs s' : small_reachable s -> op_ok o -> is_write o = false ->
  Forall (fun d => d ∈ sender_out s) recvs -> receiver_op s o recvs = Some s' -> small_reachable s'.
Proof.
  intros Hr Ho Hw Hd E. eapply reach_step; [exact Hr|]. unfold receiver_op in E.
  destruct (small_op _ _) as [[[wr dl] w]|] eqn:Er; [|done]. injection E as <-.
  eapply step_receiver; [exact Ho|exact Hw| | |exact Er]; [done|by apply drawn_map].
Qed.

(** The sender writes three bytes and sends them; the receiver gets the datagram twice
    and gives the bytes to its user; its acknowledgement empties the send buffer. *)
Definition after (x : option udt_system) : udt_system := default small_system x.
Definition run1 : udt_system := after (sender_op small_system (OpSend [104; 105; 33]) []).
Definition run2 : udt_system := after (sender_op run1 OpUpdate []).
Definition run3 : udt_system := after (receiver_op run2 OpData (sender_out run2)).
Definition run4 : udt_system := after (receiver_op run3 (OpRecv (zrepeat 0 8) 8) (sender_out run2)).
Definition run5 : udt_system := after (receiver_op run4 OpUpdate []).
Definition run6 : udt_system := after (sender_op run5 (OpRecv (zrepeat 0 8) 8) (receiver_out run5)).

Lemma run6_reachable : small_reachable run6.
Proof.
  assert (small_reachable run1) as H1.
  { eapply (sender_op_step small_system (OpSend [104; 105; 33]) []); [apply reach_init, small_initial| |done|done|vm_compute; reflexivity].
    repeat (apply Forall_cons; split; [unfold is_byte; lia|]). by apply Forall_nil. }
  assert (small_reachable run2) as H2.
  { by eapply (sender_op_step run1 OpUpdate []); [|vm_compute..|vm_compute; reflexivity]. }
  assert (small_reachable run3) as H3.
  { eapply (receiver_op_step run2 OpData (sender_out run2)); [done..| |vm_compute; reflexivity]. by apply Forall_forall. }
  assert (small_reachable run4) as H4.
  { eapply (receiver_op_step run3 (OpRecv (zrepeat 0 8) 8) (sender_out run2)); [done|done|done| |vm_compute; reflexivity].
    by apply Forall_forall. }
  assert (small_reachable run5) as H5.
  { eapply (receiver_op_step run4 OpUpdate []); [done..| |vm_compute; reflexivity]. by apply Forall_nil. }
  eapply (sender_op_step run5 (OpRecv (zrepeat 0 8) 8) (receiver_out run5)); [done|done|by vm_compute| |vm_compute; reflexivity].
  by apply Forall_forall.
Qed.

Example run6_delivers : (written run6, delivered run6, acknowledged_seq (sender run6)) = ([104; 105; 33], [104; 105; 33], 4).
Proof. vm_compute. reflexivity. Qed.


(** The handshake with one SYN that is not answered. *)
Definition hs_answer : list Z := packet NDUDT_SYN (Some 1) 3 0xffff 0 [].
Lemma udt_handshake_witness :
  let acc := Some (fun nd : nd_udt_node => nd) in
  let ntc := mk_unet 1000 [] [] [0; 1] [UDatagram 7 (seal hs_answer)] [] in
  let nts := mk_unet 1000 [] [] [] [] [] in
  let nta := mk_unet 1000 [] [] [] [] [seal hs_answer] in
  let syn := packet NDUDT_SYN None 0 0xffff 0 [] in
  let ack := packet NDUDT_ACK (Some 1) 3 0xffff 0 [] in
  exists c s s1 c' s', nd_udtnode_init (zrepeat 9 16) = Some c /\ nd_udtnode_init (zrepeat 8 16) = Some s /\
    pump_new_session small_stack 5 3 6 (syn ++ [1; 2; 3; 4]) (zlen syn) (mk_world s nts) = Some (0, s1) /\
    u_out (net s1) = [seal hs_answer] /\
    udt_connect small_stack acc None 5 7 (mk_world c ntc) = Some (true, c') /\
    u_out (net c') = replicate 2 (seal syn) ++ [seal ack] /\
    _udt_packet_handler small_stack acc None (ack ++ [5; 6; 7; 8]) (zlen ack) (mk_world (node s1) nta) = Some (0, s') /\
    local_port (node c') = 3 /\
    initial (mk_system (node c') (node s') (u_out (net c')) (u_out (net s')) [] []).
Proof.
  cbv zeta. apply (udt_handshake small_stack (Some (fun nd => nd)) None eq_refl (fun nd => nd) (zrepeat 9 16) (zrepeat 8 16)
    (zrepeat 0 ND_NETBUF_SIZE) 5 3 7 6 _ _ _ [1; 2; 3; 4] [5; 6; 7; 8] 1 [] []);
    first [reflexivity|lia|by intros ?|idtac].
  all: vm_compute; congruence.
Defined.
