(* ===== verification/UdtFault.v ===== *)
(** * UdtFault: where UDT loses or changes the stream

    [udt_stream_delivery] is about one direction at a time, short streams and open
    connections.  These are the cases beyond it: data in both directions, sequence
    numbers that wrap, closing, and the memory around the buffers. *)

From S2P Require Import Prelude Bytes LineBuf Handle UdtPacket UdtNode UdtFlow UdtOpen UdtStream UdtRecv UdtNet.

(** An acknowledgement written over 16 bytes that are not yet a packet. *)
Lemma raw_set_ack pre post old v : zlen old = 16 -> exists h, zlen h = 12 /\
  set_pocket_ack (pre ++ old ++ post) (zlen pre) v = Some (pre ++ h ++ le_split 4 v ++ post).
Proof.
  intros H. unfold zlen in H. do 16 (destruct old as [|? old]; [simpl in H; lia|]). destruct old; [|simpl in H; lia].
  match goal with |- context [pre ++ ?l ++ post] => set (old := l) end.
  exists (z :: Z.lor z0 64 :: [z1; z2; z3; z4; z5; z6; z7; z8; z9; z10]). split; [done|]. unfold set_pocket_ack.
  rewrite (mget_frame pre old post 1 z0 eq_refl). cbn [mbind option_bind].
  unfold mset. rewrite (mwrite_frame pre old post 1 [Z.lor z0 64] _ eq_refl). cbn [mbind option_bind].
  exact (store_frame 4 pre (z :: Z.lor z0 64 :: [z1; z2; z3; z4; z5; z6; z7; z8; z9; z10; z11; z12; z13; z14]) post 12 v _ eq_refl).
Qed.


(** Once the acknowledged number has come close to 2^32, every acknowledgement behind
    the wrap is ignored, because [_handle_ack] compares the numbers and not their
    difference: the send buffer stays full for good. *)
Lemma udt_ack_wrap_ignored accept_proc w n : 0 < n -> acknowledged_seq (node w) < 2 ^ 32 ->
  2 ^ 32 <= acknowledged_seq (node w) + n <= 2 ^ 32 + acknowledged_seq (node w) ->
  _handle_ack accept_proc (u32 (acknowledged_seq (node w) + n)) w = Some (0, w).
Proof.
  intros Hn Ha Hw. unfold _handle_ack, mbind, U_bind, get_node. cbn [mbind option_bind].
  replace (u32 (acknowledged_seq (node w) + n)) with (acknowledged_seq (node w) + n - 2 ^ 32).
  2:{ unfold wrapu. apply Z.mod_unique with 1; lia. }
  rewrite (proj2 (Z.leb_le _ _)) by lia. done.
Qed.

Section Fin.
Context `{HM : !Malloc} (stack : mem) (Hstack : zlen stack = 2048).
Context (accept_proc : option (nd_udt_node -> nd_udt_node))
  (data_entry : option (nd_udt_node -> mem -> Z -> nd_udt_node * Z)).

(** a FIN that overtakes data loses it: the receiver sets its sequence number to that
    of the FIN, whatever it has received, and acknowledges up to there, so that the
    bytes between are neither delivered nor sent again. *)
Theorem udt_fin_skips w port win s tail : status (node w) = NETSTAT_ESTABLISHED -> u_sends (net w) = [] ->
  fields_ok NDUDT_FIN None port win s -> 4 <= zlen tail ->
  exists w', _udt_packet_handler stack accept_proc data_entry (packet NDUDT_FIN None port win s [] ++ tail) 12 w = Some (-1, w') /\
    received_sequence (node w') = s /\ recv_buffer (node w') = recv_buffer (node w) /\
    u_out (net w') = u_out (net w) ++
      [seal (packet NDUDT_ACK (Some s) (local_port (node w)) (u16 (send_window (node w))) 0 [])].
Proof using Hstack.
  intros Hst Hn Hf Ht.
  assert (uwp (_udt_packet_handler stack accept_proc data_entry (packet NDUDT_FIN None port win s [] ++ tail) 12) w
    (fun ret w' => ret = -1 /\ received_sequence (node w') = s /\ recv_buffer (node w') = recv_buffer (node w) /\
       u_out (net w') = u_out (net w) ++
         [seal (packet NDUDT_ACK (Some s) (local_port (node w)) (u16 (send_window (node w))) 0 [])]))
    as (ret & w' & E & -> & H); [|by exists w'].
  unfold _udt_packet_handler, nd_object_seterror. ustep. rewrite not_has by done.
  apply uwp_time. intros tm w1 N1 [_ _ _ O1 S1]. do 3 ustep. eapply uwp_lift_ok; [by apply packet_fields|]. cbn [p_window].
  apply uwp_bind.
  assert (forall nd, recv_buffer nd = recv_buffer (node w) -> local_port nd = local_port (node w) ->
    uwp (udt_send_ack stack) (mk_world (set_received_sequence s nd) (net w1)) (fun _ w' => received_sequence (node w') = s /\
       recv_buffer (node w') = recv_buffer (node w) /\ u_out (net w') = u_out (net w) ++
         [seal (packet NDUDT_ACK (Some s) (local_port (node w)) (u16 (send_window (node w))) 0 [])])) as Hack.
  { intros nd Hr Hp. unfold udt_send_ack. ustep.
    eapply (uwp_send_control stack Hstack); [apply built_ack|unfold NDUDT_ACK, NDUDT_DGRAM; lia|..].
    2:{ intros Hno. exfalso. apply Hno. by apply S1. }
    intros w2 [C2 _ _ O2 _]. unfold core in C2. cbn in *. injection C2 as _ E2 _ _ E3 _ _ _ _ _ _ _ _.
    rewrite E2, E3, O2, O1, app_nil_r, Hp. unfold send_window. cbn. by rewrite Hr. }
  assert (forall v nd, nd = set_window_len v (set_myerrno (u16 NDERR_SUCCESS) (set_update_tm tm (set_last_recv tm (node w)))) ->
    uwp (ret ← packet_switch stack accept_proc data_entry (mk_pocket PROTOCOL_UDT NDUDT_FIN false 0 port win s
          (le_combine (slice 0 4 ([] ++ tail)))) (packet NDUDT_FIN None port win s [] ++ tail) 12;
        nd ← get_node; mret (if (ret =? -1) && (myerrno nd =? NDERR_BADPACKET) then 0 else ret)) (mk_world nd (net w1))
      (fun ret w' => ret = -1 /\ received_sequence (node w') = s /\ recv_buffer (node w') = recv_buffer (node w) /\
       u_out (net w') = u_out (net w) ++
         [seal (packet NDUDT_ACK (Some s) (local_port (node w)) (u16 (send_window (node w))) 0 [])])) as Hrest.
  { intros v nd ->. apply uwp_bind.
    unfold packet_switch, NDUDT_FIN, NDUDT_DATA, NDUDT_DGRAM, NDUDT_SYN, NDUDT_ALIVE, NDUDT_ACK, NDUDT_LOST.
    cbn [p_type p_ack p_sequence Z.eqb Pos.eqb when]. do 2 ustep. rewrite not_has by done. cbn [negb when]. do 4 ustep.
    match goal with |- context [if has ?x ?fl then _ else _] => replace (has x fl) with false by (unfold has; cbn; by rewrite Hst) end.
    apply uwp_bind. eapply uwp_mono; [by apply Hack|]. intros _ w3 (E1 & E2 & E3). repeat ustep. by split_and!. }
  ustep; [ustep|]; rewrite N1; [by eapply Hrest|].
  eapply (Hrest (window_len (node w))). by destruct (node w).
Qed.
End Fin.

(** ** Examples *)

(** Three bytes are on their way, one byte has come in and is to be acknowledged. *)
Definition both_ways : nd_udt_node :=
  set_need_ack true (set_send_sequence 4 (set_received_sequence 2
    (set_recv_buffer (mk_lbuf 0 1 64 0 1 (Some (9 :: zrepeat 0 63)))
      (set_send_buffer (mk_lbuf 0 1 64 0 3 (Some ([104; 105; 33] ++ zrepeat 0 61))) small_node)))).

Lemma both_ways_ok : node_ok [104; 105; 33] [] [9] 1 both_ways.
Proof.
  assert (forall e m, zlen m = 64 -> 0 <= e <= 64 -> lbuf_wf (mk_lbuf 0 1 64 0 e (Some m))) as Hwf.
  { intros e m Hm He. split; simpl; [by exists m|lia|lia]. }
  split; try done.
  - split; try done; [by apply Hwf|].
    repeat (apply Forall_cons; split; [unfold is_byte; lia|]). by apply Forall_nil.
  - split; try done; by apply Hwf.
Qed.


Lemma udt_fin_skips_witness :
  exists w', _udt_packet_handler small_stack None None (packet NDUDT_FIN None 3 50 1000 [] ++ [0; 0; 0; 0]) 12
      (mk_world both_ways (script [] [] [])) = Some (-1, w') /\
    received_sequence (node w') = 1000 /\ recv_buffer (node w') = recv_buffer both_ways /\
    u_out (net w') = [] ++ [seal (packet NDUDT_ACK (Some 1000) 3 63 0 [])].
Proof.
  apply (udt_fin_skips small_stack eq_refl None None (mk_world both_ways (script [] [] [])) 3 50 1000 [0; 0; 0; 0]);
    [reflexivity|reflexivity|split; unfold NDUDT_FIN; lia || done|vm_compute; congruence].
Defined.

(** A byte at the end of the send buffer: the sixteen bytes that are saved in front of it
    reach beyond the block. *)
Definition at_the_end : nd_udt_node :=
  set_send_sequence 64 (set_send_buffer (mk_lbuf 0 1 64 0 64 (Some (zrepeat 7 64))) small_node).
Example flush_reads_behind_the_block : send_window_start at_the_end = Some (63, 1) /\
  flush_send_window (mk_world at_the_end (script [] [] [])) = None.
Proof. vm_compute. done. Qed.

(** An unreliable datagram of one byte: the byte order of the header is changed over the
    data, and the byte behind the data is sent in its place. *)
Example sendto_one_byte :
  ('(_, ret, w) ← udt_sendto (zrepeat 0 6 ++ [65; 66; 67; 68; 69; 70]) 6 1 (mk_world small_node (script [] [] []));
  Some (ret, map (drop 6) (u_out (net w)))) = Some (7, [[66]]).
Proof. vm_compute. done. Qed.

(** Two early packets that came in the same millisecond: the list is in the wrong order,
    and the first of them blocks the other. *)
Definition early (s : Z) : _udt_packet_node := mk_pre 5 15 (packet NDUDT_DATA None 3 64 s [1; 2; 3] ++ zrepeat 0 16).
Example early_packets_reversed : insert_pre (early 10) [early 7] = Some [early 10; early 7] /\
  insert_pre (early 7) [early 10] = Some [early 10; early 7].
Proof. vm_compute. done. Qed.
