(* ===== verification/ProtoStream.v ===== *)
(** * ProtoStream: tagged streams of values (nd_protoStream.cpp, nd_msgpack.cpp)

    A message carries its values one behind the other, each behind a marker byte: the
    type in the high nibble, the number of bytes in the low one.  Numbers are in network
    order and leave out leading zero bytes; texts and blocks have a 16-bit length; a byte
    0xff ends a structure.  A stream is a part of a block of memory: for a message,
    the data behind the header of the packet, whose length field is kept up to date by
    the virtual function [onWriteStream].

    The overloads of [Write], [Read], [_WriteOrg] and [_ReadOrg] carry the width of their
    argument in their name; a [float] or a [double] is its bit pattern.  A C string is the list
    of its characters.  Objects are states of the monad [ST]; variables passed by
    reference are arguments and results. *)

From S2P Require Import Prelude Bytes Packet.

(** ** Operations on an object *)

Definition ST (S A : Type) : Type := S -> option (A * S).
#[export] Instance ST_ret S : MRet (ST S) := fun A x s => Some (x, s).
#[export] Instance ST_bind S : MBind (ST S) := fun A B f m s => '(x, s) ← m s; f x s.
Definition gets {S A} (f : S -> A) : ST S A := fun s => Some (f s, s).
Definition modify {S} (f : S -> S) : ST S unit := fun s => Some (tt, f s).
Definition from {S A} (f : S -> option A) : ST S A := fun s => x ← f s; Some (x, s).

(** ** Markers *)

Definition NET_STREAM_STRUCT_END_MARK : Z := 0xff.
Definition ENDSTREAM_MARKER_UNDEFINE : Z := 0.
Definition ENDSTREAM_MARKER_INT8 : Z := 1.
Definition ENDSTREAM_MARKER_INT16 : Z := 2.
Definition ENDSTREAM_MARKER_INT32 : Z := 3.
Definition ENDSTREAM_MARKER_INT64 : Z := 4.
Definition ENDSTREAM_MARKER_FLOAT : Z := 5.
Definition ENDSTREAM_MARKER_DOUBLE : Z := 6.
Definition ENDSTREAM_MARKER_TEXT : Z := 7.
Definition ENDSTREAM_MARKER_BIN : Z := 8.
Definition ENDSTREAM_MARKER_IP : Z := 9.
Definition ENDSTREAM_MARKER_IP6 : Z := 10.
Definition ENDSTREAM_CMD_SKIP_STRUCT_MARK : Z := 11.
Definition ENDSTREAM_CMD_ENABLE_STRUCT_MARK : Z := 12.

(** ** Words in network order (nd_netbyte.h) *)

Definition nd_short_to_netstream (m : mem) (buf val : Z) : option mem :=
  mwrite m buf [Z.land (Z.shiftr val 8) 0xff; Z.land val 0xff].
Definition nd_long_to_netstream (m : mem) (buf val : Z) : option mem :=
  mwrite m buf [Z.land (Z.shiftr val 24) 0xff; Z.land (Z.shiftr val 16) 0xff; Z.land (Z.shiftr val 8) 0xff; Z.land val 0xff].
Definition nd_longlong_to_netstream (m : mem) (buf val : Z) : option mem :=
  mwrite m buf [Z.land (Z.shiftr val 56) 0xff; Z.land (Z.shiftr val 48) 0xff; Z.land (Z.shiftr val 40) 0xff;
    Z.land (Z.shiftr val 32) 0xff; Z.land (Z.shiftr val 24) 0xff; Z.land (Z.shiftr val 16) 0xff;
    Z.land (Z.shiftr val 8) 0xff; Z.land val 0xff].

(** [buf] points to (signed) [char]. *)
Definition nd_netstream_to_short (m : mem) (buf : Z) : option Z :=
  b0 ← mget m buf; b1 ← mget m (buf + 1);
  let val := u16 (s8 b0) in
  Some (u16 (Z.lor (Z.shiftl val 8) (Z.land (s8 b1) 0xff))).
Definition nd_netstream_to_long (m : mem) (buf : Z) : option Z := d ← mread m buf 4; Some (le_combine (rev d)).
Definition nd_netstream_to_longlong (m : mem) (buf : Z) : option Z := d ← mread m buf 8; Some (le_combine (rev d)).

(** ** Writing *)

Record NDProtoWriteStream := mk_ws { w_mem : mem; w_start : Z; w_op : Z; w_end : Z }.
Abbreviation W := (ST NDProtoWriteStream).

(** The virtual function [onWriteStream], with the block that the stream is in. *)
Class WriteHook := onWriteStream : Z -> mem -> option mem.
Definition base_onWriteStream : WriteHook := fun _ m => Some m.

Definition GetWriteAddr (s : NDProtoWriteStream) : Z := w_op s + 1.
Definition GetFreeLen (s : NDProtoWriteStream) : Z := u64 (w_end s - w_op s).
Definition GetStreamData (s : NDProtoWriteStream) : Z := w_op s - w_start s.
Definition NDProtoWriteStream_Init (m : mem) (startAddr endAddr : Z) : NDProtoWriteStream := mk_ws m startAddr startAddr endAddr.
Definition NDProtoWriteStream_Reset : W unit := modify (fun s => mk_ws (w_mem s) (w_start s) (w_start s) (w_end s)).
Definition set_w_mem (m : mem) (s : NDProtoWriteStream) : NDProtoWriteStream := mk_ws m (w_start s) (w_op s) (w_end s).
Definition advance (n : Z) (s : NDProtoWriteStream) : NDProtoWriteStream := mk_ws (w_mem s) (w_start s) (w_op s + n) (w_end s).

Section Writing.
Context `{!WriteHook}.

(** The overloads of [_WriteOrg] for a value of [n] bytes, which [store] puts at an address. *)
Definition write_org (n : Z) (store : mem -> Z -> option mem) : W Z :=
  s ← gets id;
  if w_op s + n <=? w_end s then
    m ← from (fun _ => store (w_mem s) (w_op s));
    m ← from (fun _ => onWriteStream n m);
    modify (set_w_mem m);;
    modify (advance n);; mret 0
  else mret (-1).
Definition _WriteOrg32 (a : Z) : W Z := write_org 4 (fun m p => nd_long_to_netstream m p a).
Definition _WriteOrg16 (a : Z) : W Z := write_org 2 (fun m p => nd_short_to_netstream m p a).
Definition _WriteOrg64 (a : Z) : W Z := write_org 8 (fun m p => nd_longlong_to_netstream m p a).
Definition _WriteOrgFloat (a : Z) : W Z := write_org 4 (fun m p => mwrite m p (le_split 4 a)).
Definition _WriteOrgDouble (a : Z) : W Z := write_org 8 (fun m p => mwrite m p (le_split 8 a)).
Definition _WriteOrg8 (a : Z) : W Z := write_org 1 (fun m p => mset m p a).

Definition _writeMarker (marker sizebytes : Z) : W Z :=
  _WriteOrg8 (u8 (Z.lor (Z.shiftl (u8 marker) 4) (u8 (Z.land sizebytes 0xf)))).

(** [if (-1 == _writeMarker(marker, sizebytes)) return -1;] and what follows. *)
Definition marked (marker sizebytes : Z) (body : W Z) : W Z :=
  r ← _writeMarker marker sizebytes; if r =? -1 then mret (-1) else body.

Definition WriteForce32 (a : Z) : W Z := marked ENDSTREAM_MARKER_INT32 4 (_WriteOrg32 a).
Definition WriteForce16 (a : Z) : W Z := marked ENDSTREAM_MARKER_INT16 2 (_WriteOrg16 a).
Definition Write32 (a : Z) : W Z :=
  if a =? 0 then _writeMarker ENDSTREAM_MARKER_INT32 0
  else if a <=? 0xff then marked ENDSTREAM_MARKER_INT32 1 (_WriteOrg8 (u8 a))
  else if a <=? 0xffff then marked ENDSTREAM_MARKER_INT32 2 (_WriteOrg16 (u16 a))
  else marked ENDSTREAM_MARKER_INT32 4 (_WriteOrg32 a).
Definition Write16 (a : Z) : W Z :=
  if a =? 0 then _writeMarker ENDSTREAM_MARKER_INT16 0
  else if a <=? 0xff then marked ENDSTREAM_MARKER_INT16 1 (_WriteOrg8 (u8 a))
  else marked ENDSTREAM_MARKER_INT16 2 (_WriteOrg16 a).
Definition Write64 (a : Z) : W Z :=
  if a =? 0 then _writeMarker ENDSTREAM_MARKER_INT64 0
  else if a <=? 0xff then marked ENDSTREAM_MARKER_INT64 1 (_WriteOrg8 (u8 a))
  else if a <=? 0xffff then marked ENDSTREAM_MARKER_INT64 2 (_WriteOrg16 (u16 a))
  else if a <=? 0xffffffff then marked ENDSTREAM_MARKER_INT64 4 (_WriteOrg32 (u32 a))
  else marked ENDSTREAM_MARKER_INT64 8 (_WriteOrg64 a).
Definition Write8 (a : Z) : W Z :=
  if a =? 0 then _writeMarker ENDSTREAM_MARKER_INT8 0
  else marked ENDSTREAM_MARKER_INT8 1 (_WriteOrg8 a).

(** [a == 0] holds of both zeros. *)
Definition WriteFloat (a : Z) : W Z :=
  if wrapu 31 a =? 0 then _writeMarker ENDSTREAM_MARKER_FLOAT 0
  else marked ENDSTREAM_MARKER_FLOAT 4 (_WriteOrgFloat a).
Definition WriteDouble (a : Z) : W Z :=
  if wrapu 63 a =? 0 then _writeMarker ENDSTREAM_MARKER_DOUBLE 0
  else marked ENDSTREAM_MARKER_DOUBLE 8 (_WriteOrgDouble a).
Definition WriteInt (a : Z) : W Z := Write32 (u32 a).
Definition WriteShort (a : Z) : W Z := Write16 (u16 a).

Definition SetStructEnd : W Z := _WriteOrg8 NET_STREAM_STRUCT_END_MARK.
Definition SkipStructEndMark : W unit := _writeMarker ENDSTREAM_CMD_SKIP_STRUCT_MARK 0;; mret tt.
Definition EnableStructEndMark : W unit := _writeMarker ENDSTREAM_CMD_ENABLE_STRUCT_MARK 0;; mret tt.

(** [None] is a null pointer; a character of a string is not 0. *)
Definition WriteText (text : option (list Z)) : W Z :=
  s ← gets id;
  if w_end s <=? w_op s then mret (-1)
  else
    match text with
    | None | Some [] =>
        r ← _writeMarker ENDSTREAM_MARKER_TEXT 0;
        if r =? -1 then mret (-1) else mret 0
    | Some text =>
        marked ENDSTREAM_MARKER_TEXT 1 (
          let n := zlen text in
          s ← gets id;
          let free_size := u64 (w_end s - w_op s) in
          if n + 3 <=? free_size then
            _WriteOrg16 (u16 n);;
            s ← gets id;
            m ← from (fun _ => mwrite (w_mem s) (w_op s) (text ++ [0]));
            m ← from (fun _ => mset m (w_op s + n) 0x7f);
            m ← from (fun _ => onWriteStream (n + 1) m);
            modify (set_w_mem m);;
            modify (advance (n + 1));; mret 0
          else mret (-1))
    end.

Definition WriteBin (data : mem) (size : Z) : W Z :=
  s ← gets id;
  if (w_end s <=? w_op s) || (GetFreeLen s <=? size) then mret (-1)
  else if size =? 0 then
    r ← _writeMarker ENDSTREAM_MARKER_BIN 0;
    if r =? -1 then mret (-1) else mret 0
  else
    marked ENDSTREAM_MARKER_BIN 1 (
      s ← gets id;
      let free_size := u64 (w_end s - w_op s) in
      if size + 2 <=? free_size then
        _WriteOrg16 (u16 size);;
        s ← gets id;
        d ← from (fun _ => mread data 0 size);
        m ← from (fun _ => mwrite (w_mem s) (w_op s) d);
        m ← from (fun _ => onWriteStream size m);
        modify (set_w_mem m);;
        modify (advance size);; mret 0
      else mret (-1)).

Definition WriteStream (stream_buf : mem) (dataLen : Z) : W Z :=
  s ← gets id;
  if w_end s <=? w_op s then mret (-1)
  else
    let free_size := u64 (w_end s - w_op s) in
    if free_size <? dataLen then mret (-1)
    else
      (if 0 <? dataLen then
         d ← from (fun _ => mread stream_buf 0 dataLen);
         m ← from (fun _ => mwrite (w_mem s) (w_op s) d);
         m ← from (fun _ => onWriteStream dataLen m);
         modify (set_w_mem m);;
         modify (advance dataLen)
       else mret tt);;
      mret 0.
End Writing.

(** ** Reading *)

Record NDProtoReadStream := mk_rs {
  r_mem : mem; r_start : Z; r_op : Z; r_end : Z;
  m_bStruckEndMarker : bool; m_bSkipEndMarker : bool; m_bSkipEndAllStream : bool }.
Abbreviation R := (ST NDProtoReadStream).

Definition NDProtoReadStream_Init (m : mem) (dataStart dataEnd : Z) : NDProtoReadStream :=
  mk_rs m dataStart dataStart dataEnd false false false.
Definition set_r_op (p : Z) (s : NDProtoReadStream) : NDProtoReadStream :=
  mk_rs (r_mem s) (r_start s) p (r_end s) (m_bStruckEndMarker s) (m_bSkipEndMarker s) (m_bSkipEndAllStream s).
Definition set_struck (b : bool) (s : NDProtoReadStream) : NDProtoReadStream :=
  mk_rs (r_mem s) (r_start s) (r_op s) (r_end s) b (m_bSkipEndMarker s) (m_bSkipEndAllStream s).
Definition set_skip (b : bool) (s : NDProtoReadStream) : NDProtoReadStream :=
  mk_rs (r_mem s) (r_start s) (r_op s) (r_end s) (m_bStruckEndMarker s) b (m_bSkipEndAllStream s).
Definition set_skip_all (b : bool) (s : NDProtoReadStream) : NDProtoReadStream :=
  mk_rs (r_mem s) (r_start s) (r_op s) (r_end s) (m_bStruckEndMarker s) (m_bSkipEndMarker s) b.
Definition forward (n : Z) : R unit := modify (fun s => set_r_op (r_op s + n) s).

Definition NDProtoReadStream_Reset : R unit := modify (fun s => set_r_op (r_start s) s).
Definition BeginReadStruct : R unit := modify (set_struck false).
Definition LeftData (s : NDProtoReadStream) : Z := s32 (r_end s - r_op s).
Definition CheckStructEnd (s : NDProtoReadStream) : bool := m_bStruckEndMarker s || (LeftData s =? 0).
Definition CheckReachedEnd (s : NDProtoReadStream) : bool := LeftData s =? 0.
Definition SetSkipMarker (bSkip : bool) : R bool :=
  ret ← gets m_bSkipEndAllStream; modify (set_skip_all bSkip);; mret ret.

(** The overloads of [_ReadOrg] for a variable of [n] bytes that has the value [a]. *)
Definition read_org (n : Z) (load : mem -> Z -> option Z) (a : Z) : R (Z * Z) :=
  s ← gets id;
  if r_op s + n <=? r_end s then
    a ← from (fun _ => load (r_mem s) (r_op s));
    forward n;; mret (0, a)
  else mret (-1, a).
Definition _ReadOrg32 : Z -> R (Z * Z) := read_org 4 nd_netstream_to_long.
Definition _ReadOrg16 : Z -> R (Z * Z) := read_org 2 nd_netstream_to_short.
Definition _ReadOrg8 : Z -> R (Z * Z) := read_org 1 (fun m p => b ← mget m p; Some (u8 b)).
Definition _ReadOrg64 : Z -> R (Z * Z) := read_org 8 nd_netstream_to_longlong.
Definition _ReadOrgFloat : Z -> R (Z * Z) := read_org 4 (fun m p => d ← mread m p 4; Some (le_combine d)).
Definition _ReadOrgDouble : Z -> R (Z * Z) := read_org 8 (fun m p => d ← mread m p 8; Some (le_combine d)).

(** The type and the size, unless it has returned -1 or met the end of a structure:
    then they are not assigned.  A round reads a byte. *)
Fixpoint read_marker (fuel : nat) : R (Z * option (Z * Z)) :=
  match fuel with
  | O => fun _ => None
  | S fuel =>
      '(r, marker) ← _ReadOrg8 0;
      if r =? -1 then mret (-1, None)
      else if marker =? NET_STREAM_STRUCT_END_MARK then
        s ← gets id;
        if m_bSkipEndMarker s || m_bSkipEndAllStream s then read_marker fuel
        else modify (set_struck true);; mret (0, None)
      else
        let type := Z.shiftr (Z.land marker 0xf0) 4 in
        let size := Z.land marker 0xf in
        if type =? ENDSTREAM_CMD_SKIP_STRUCT_MARK then modify (set_skip true);; read_marker fuel
        else if type =? ENDSTREAM_CMD_ENABLE_STRUCT_MARK then modify (set_skip false);; read_marker fuel
        else mret (0, Some (type, size))
  end.
Definition _ReadTypeSize : R (Z * option (Z * Z)) := fun s => read_marker (S (Z.to_nat (r_end s - r_op s))) s.

(** The beginning of every [Read]: the type and size of the next value, or nothing when the
    function returns its error. *)
Definition read_type : R (option (Z * Z)) :=
  modify (set_struck false);;
  '(r, ts) ← _ReadTypeSize;
  s ← gets id;
  mret (if (r =? -1) || m_bStruckEndMarker s then None else ts).

(** [Read] of a variable of the type [t] with the value [a]; [body size] assigns to it. *)
Definition read_typed (t : Z) (a : Z) (body : Z -> R (Z * Z)) : R (Z * Z) :=
  ts ← read_type;
  match ts with
  | None => mret (-1, a)
  | Some (type, size) => if negb (type =? t) then mret (-1, a) else body size
  end.
Definition Read32 (a : Z) : R (Z * Z) :=
  read_typed ENDSTREAM_MARKER_INT32 a (fun size =>
    if size =? 0 then mret (0, 0)
    else if size =? 1 then _ReadOrg8 0
    else if size =? 2 then _ReadOrg16 0
    else if size =? 4 then _ReadOrg32 0
    else mret (-1, 0)).
Definition Read16 (a : Z) : R (Z * Z) :=
  read_typed ENDSTREAM_MARKER_INT16 a (fun size =>
    if size =? 0 then mret (0, 0)
    else if size =? 1 then _ReadOrg8 0
    else if size =? 2 then _ReadOrg16 0
    else mret (-1, 0)).
Definition Read8 (a : Z) : R (Z * Z) :=
  read_typed ENDSTREAM_MARKER_INT8 a (fun size =>
    if size =? 0 then mret (0, 0)
    else if size =? 1 then _ReadOrg8 0
    else mret (-1, 0)).
Definition Read64 (a : Z) : R (Z * Z) :=
  read_typed ENDSTREAM_MARKER_INT64 a (fun size =>
    if size =? 0 then mret (0, 0)
    else if size =? 1 then _ReadOrg8 0
    else if size =? 2 then _ReadOrg16 0
    else if size =? 4 then _ReadOrg32 0
    else if size =? 8 then _ReadOrg64 0
    else mret (-1, 0)).
Definition ReadFloat (a : Z) : R (Z * Z) :=
  read_typed ENDSTREAM_MARKER_FLOAT a (fun size =>
    if size =? 0 then mret (0, 0)
    else if size =? 4 then _ReadOrgFloat 0
    else mret (-1, 0)).
Definition ReadDouble (a : Z) : R (Z * Z) :=
  read_typed ENDSTREAM_MARKER_DOUBLE a (fun size =>
    if size =? 0 then mret (0, 0)
    else if size =? 8 then _ReadOrgDouble 0
    else mret (-1, 0)).
Definition ReadInt (a : Z) : R (Z * Z) := '(r, a) ← Read32 (u32 a); mret (r, s32 a).
Definition ReadShort (a : Z) : R (Z * Z) := '(r, a) ← Read16 (u16 a); mret (r, s16 a).

(** The length that a text or a block begins with; 0 when it is missing. *)
Definition read_length : R Z :=
  '(r, data_size) ← _ReadOrg16 0; mret (if r =? -1 then 0 else data_size).

(** [a] is the buffer of the caller. *)
Definition ReadText (a : mem) (size_buf : Z) : R (Z * mem) :=
  ts ← read_type;
  match ts with
  | None => mret (0, a)
  | Some (type, size) =>
      if negb (type =? ENDSTREAM_MARKER_TEXT) then mret (0, a)
      else if size =? 0 then a ← from (fun _ => mset a 0 0); mret (0, a)
      else
        data_size ← read_length;
        if data_size =? 0 then mret (0, a)
        else
          s ← gets id;
          if r_op s + data_size <? r_end s then
            b ← from (fun _ => mget (r_mem s) (r_op s + data_size));
            if (b =? 0x7f) && (data_size <? size_buf) then
              d ← from (fun _ => mread (r_mem s) (r_op s) data_size);
              a ← from (fun _ => mwrite a 0 d);
              forward (data_size + 1);;
              a ← from (fun _ => mset a data_size 0);
              mret (data_size, a)
            else mret (0, a)
          else mret (0, a)
  end.

Definition ReadBin (buf : mem) (size_buf : Z) : R (Z * mem) :=
  ts ← read_type;
  match ts with
  | None => mret (0, buf)
  | Some (type, size) =>
      if negb (type =? ENDSTREAM_MARKER_BIN) then mret (0, buf)
      else if size =? 0 then mret (0, buf)
      else
        data_size ← read_length;
        if data_size =? 0 then mret (0, buf)
        else
          s ← gets id;
          if (r_op s + data_size <=? r_end s) && (data_size <=? size_buf) then
            d ← from (fun _ => mread (r_mem s) (r_op s) data_size);
            buf ← from (fun _ => mwrite buf 0 d);
            forward data_size;; mret (data_size, buf)
          else mret (0, buf)
  end.

(** [LeftData] is converted to [size_t] for the comparison; so is the result -1. *)
Definition ReadStream (streamBuff : mem) (readlen : Z) : R (Z * mem) :=
  s ← gets id;
  if u64 (LeftData s) <? readlen then mret (u64 (-1), streamBuff)
  else
    d ← from (fun _ => mread (r_mem s) (r_op s) readlen);
    streamBuff ← from (fun _ => mwrite streamBuff 0 d);
    forward readlen;; mret (readlen, streamBuff).

Definition PeekBinSize : R Z :=
  curAddr ← gets r_op;
  ts ← read_type;
  match ts with
  | None => modify (set_r_op curAddr);; mret 0
  | Some (_, size) =>
      if size =? 0 then modify (set_r_op curAddr);; mret 0
      else
        '(_, data_size) ← _ReadOrg16 0;
        modify (set_r_op curAddr);; mret data_size
  end.

(** At the end of a structure it returns a variable that was not assigned. *)
Definition PeekDataType : R Z :=
  orgAddr ← gets r_op;
  modify (set_struck false);;
  '(r, ts) ← _ReadTypeSize;
  modify (set_r_op orgAddr);;
  if r =? -1 then mret ENDSTREAM_MARKER_UNDEFINE
  else from (fun _ => '(type, _) ← ts; Some type).

(** The end of the next value of the given type and size, from its data on; [None] when
    the function gives up. *)
Definition skip_value (type size : Z) : R (option unit) :=
  if (ENDSTREAM_MARKER_INT8 <=? type) && (type <=? ENDSTREAM_MARKER_DOUBLE) || (type =? ENDSTREAM_MARKER_IP)
  then forward size;; mret (Some tt)
  else if type =? ENDSTREAM_MARKER_IP6 then forward 16;; mret (Some tt)
  else if (type =? ENDSTREAM_MARKER_TEXT) || (type =? ENDSTREAM_MARKER_BIN) then
    if size =? 0 then mret (Some tt)
    else
      '(r, data_size) ← _ReadOrg16 0;
      if r =? -1 then mret None
      else forward (if type =? ENDSTREAM_MARKER_TEXT then data_size + 1 else data_size);; mret (Some tt)
  else mret None.

(** The loop of [TrytoMoveStructEnd]: whether it has found the end.  A round reads a byte. *)
Fixpoint struct_end_loop (fuel : nat) : R bool :=
  match fuel with
  | O => fun _ => None
  | S fuel =>
      modify (set_struck false);;
      '(r, ts) ← _ReadTypeSize;
      if r =? -1 then mret false
      else
        match ts with
        | None => mret true
        | Some (type, size) =>
            x ← skip_value type size;
            match x with
            | None => mret false
            | Some _ =>
                s ← gets id;
                if 0 <? LeftData s then struct_end_loop fuel else mret false
            end
        end
  end.
Definition TrytoMoveStructEnd : R bool :=
  s ← gets id;
  if m_bStruckEndMarker s || m_bSkipEndMarker s || m_bSkipEndAllStream s then mret true
  else
    let orgAddr := r_op s in
    found ← struct_end_loop (S (Z.to_nat (r_end s - r_op s)));
    if found : bool then mret true
    else modify (set_r_op orgAddr);; mret false.

(** All that is left, to another stream or to a buffer. *)
Definition ReadToStream `{!WriteHook} (s : NDProtoReadStream) (omsg : NDProtoWriteStream) :
    option (Z * NDProtoReadStream * NDProtoWriteStream) :=
  let data_size := u64 (r_end s - r_op s) in
  let free_size := u64 (w_end omsg - w_op omsg) in
  if data_size =? 0 then Some (0, s, omsg)
  else if (free_size =? 0) || (free_size <? data_size) then Some (-1, s, omsg)
  else
    d ← mread (r_mem s) (r_op s) data_size;
    m ← mwrite (w_mem omsg) (w_op omsg) d;
    m ← onWriteStream data_size m;
    Some (s32 data_size, set_r_op (r_end s) s, advance data_size (set_w_mem m omsg)).
Definition ReadLeftStream (stream_buf : mem) (buf_size : Z) : R (Z * mem) :=
  s ← gets id;
  let data_size := u64 (r_end s - r_op s) in
  if data_size =? 0 then mret (0, stream_buf)
  else if buf_size <? data_size then mret (0, stream_buf)
  else
    d ← from (fun _ => mread (r_mem s) (r_op s) data_size);
    stream_buf ← from (fun _ => mwrite stream_buf 0 d);
    modify (fun s => set_r_op (r_end s) s);; mret (data_size, stream_buf).

(** ** Messages (nd_msgpack.cpp)

    The stream of a message is the data of the packet it is in: the header is at the
    beginning of the block. *)

Definition msg_maxid_off : Z := ND_PACKET_HDR_SIZE.
Definition msg_minid_off : Z := ND_PACKET_HDR_SIZE + 1.
Definition AF_INET : Z := 2.
Definition AF_INET6 : Z := 10.
Record ndip_t := mk_ip { sin_family : Z; ip6 : mem }.

Definition nd_usermsghdr_init (m : mem) : option mem :=
  m ← mwrite m 0 (zrepeat 0 ND_USERMSG_HDRLEN);
  m ← store_u16 m 0 ND_USERMSG_HDRLEN;
  mset m 2 NDNETMSG_VERSION.
Definition MsgLength (m : mem) : option Z := load_u16 m 0.
Definition MsgMaxid (m : mem) : option Z := mget m msg_maxid_off.
Definition MsgMinid (m : mem) : option Z := mget m msg_minid_off.
Definition SetID (maxid minid : Z) (m : mem) : option mem :=
  m ← mset m msg_maxid_off (u8 maxid); mset m msg_minid_off (u8 minid).

(** [NDSendMsg::onWriteStream]. *)
Definition msg_onWriteStream : WriteHook := fun size m =>
  l ← MsgLength m; store_u16 m 0 (u16 (l + u16 size)).

Definition NDSendMsg_create : option NDProtoWriteStream :=
  m ← nd_usermsghdr_init (zrepeat 0 ND_PACKET_SIZE);
  m ← mset m ND_USERMSG_HDRLEN 0;
  Some (NDProtoWriteStream_Init m ND_USERMSG_HDRLEN ND_PACKET_SIZE).
(** [NDSendMsg(int maxid, int minid)] and [NDSendMsg(NDUINT16 msgID)]. *)
Definition NDSendMsg_new (maxid minid : Z) : option NDProtoWriteStream :=
  s ← NDSendMsg_create; m ← SetID maxid minid (w_mem s); Some (set_w_mem m s).
Definition NDSendMsg_new_id (msgID : Z) : option NDProtoWriteStream :=
  NDSendMsg_new (Z.land (Z.shiftr msgID 8) 0xff) (Z.land msgID 0xff).
Definition NDSendMsg_Reset : W unit :=
  m ← gets w_mem;
  maxid ← from (fun _ => MsgMaxid m);
  minid ← from (fun _ => MsgMinid m);
  m ← from (fun _ => nd_usermsghdr_init m);
  m ← from (fun _ => SetID maxid minid m);
  modify (set_w_mem m);;
  NDProtoWriteStream_Reset.
Definition NDSendMsg_Init (maxid minid : Z) : W unit :=
  NDSendMsg_Reset;;
  m ← from (fun s => SetID maxid minid (w_mem s)); modify (set_w_mem m).
Definition GetDataLen (m : mem) : option Z := l ← MsgLength m; Some (u64 (l - ND_USERMSG_HDRLEN)).

Definition WriteIp `{!WriteHook} (a : ndip_t) : W Z :=
  if sin_family a =? AF_INET then marked ENDSTREAM_MARKER_IP 4 (WriteStream (ip6 a) 4)
  else marked ENDSTREAM_MARKER_IP6 0xf (WriteStream (ip6 a) 16).

(** [NDRecvMsg::Init]: [pmsg] is the packet. *)
Definition NDRecvMsg_Init (pmsg : mem) : option NDProtoReadStream :=
  l ← MsgLength pmsg; Some (NDProtoReadStream_Init pmsg ND_USERMSG_HDRLEN l).

(** The result of [ReadStream] is compared as a [size_t]. *)
Definition ReadIp (a : ndip_t) : R (Z * ndip_t) :=
  ts ← read_type;
  match ts with
  | None => mret (-1, a)
  | Some (type, _) =>
      if type =? ENDSTREAM_MARKER_IP then
        '(n, b) ← ReadStream (ip6 a) 4; mret (if 0 <? n then 0 else -1, mk_ip AF_INET b)
      else if type =? ENDSTREAM_MARKER_IP6 then
        '(n, b) ← ReadStream (ip6 a) 16; mret (if 0 <? n then 0 else -1, mk_ip AF_INET6 b)
      else mret (-1, a)
  end.

(** [NDRecvMsg::GetSerialBin]. *)
Definition GetSerialBin (recv_packet buf : mem) (bufsize : Z) : option (Z * mem) :=
  len ← MsgLength recv_packet;
  if bufsize <? len then Some (0, buf)
  else d ← mread recv_packet 0 len; buf ← mwrite buf 0 d; Some (len, buf).
