(* ===== verification/ProtoRound.v ===== *)
(** * ProtoRound: what is written to a stream is read back

    [encode] says which bytes a value is in a stream.  Writing appends them, or fails and
    leaves at most a marker; reading takes them off; [TrytoMoveStructEnd] passes over
    them.  Messages: the length field counts what has been written. *)

From S2P Require Import Prelude Bytes Packet ProtoStream.

Lemma bind_run {S A B} (m : ST S A) (f : A -> ST S B) s x s' : m s = Some (x, s') -> (m ≫= f) s = f x s'.
Proof. intros E. unfold mbind, ST_bind. by rewrite E. Qed.
Lemma bind_from {S A B} (x : option A) y (f : A -> ST S B) s : x = Some y -> (from (fun _ => x) ≫= f) s = f y s.
Proof. intros E. unfold mbind, ST_bind, from. by rewrite E. Qed.
Lemma bind_gets {S A B} (g : S -> A) (f : A -> ST S B) s : (gets g ≫= f) s = f (g s) s.
Proof. done. Qed.
Lemma bind_modify {S B} g (f : unit -> ST S B) s : (modify g ≫= f) s = f tt (g s).
Proof. done. Qed.

(** ** Values *)

Inductive item :=
  | I8 (a : Z) | I16 (a : Z) | I32 (a : Z) | I64 (a : Z) | IFloat (a : Z) | IDouble (a : Z)
  | IText (t : list Z) | IBin (d : list Z) | IIp (a : list Z) | IIp6 (a : list Z) | IEnd.

Definition item_ok (it : item) : Prop :=
  match it with
  | I8 a => 0 <= a < 2 ^ 8
  | I16 a => 0 <= a < 2 ^ 16
  | I32 a | IFloat a => 0 <= a < 2 ^ 32
  | I64 a | IDouble a => 0 <= a < 2 ^ 64
  | IText t => bytes t /\ Forall (fun c => c <> 0) t /\ zlen t < 2 ^ 16
  | IBin d => bytes d /\ zlen d < 2 ^ 16
  | IIp a => bytes a /\ zlen a = 4
  | IIp6 a => bytes a /\ zlen a = 16
  | IEnd => True
  end.

Definition marker (t size : Z) : Z := 16 * t + size.
(** The [n] low bytes of a number in network order. *)
Definition be (n : nat) (a : Z) : list Z := rev (le_split n a).
Definition enc_num (t a : Z) : list Z :=
  if a =? 0 then [marker t 0]
  else if a <=? 0xff then marker t 1 :: be 1 a
  else if a <=? 0xffff then marker t 2 :: be 2 a
  else if a <=? 0xffffffff then marker t 4 :: be 4 a
  else marker t 8 :: be 8 a.
Definition encode (it : item) : list Z :=
  match it with
  | I8 a => enc_num ENDSTREAM_MARKER_INT8 a
  | I16 a => enc_num ENDSTREAM_MARKER_INT16 a
  | I32 a => enc_num ENDSTREAM_MARKER_INT32 a
  | I64 a => enc_num ENDSTREAM_MARKER_INT64 a
  | IFloat a => if wrapu 31 a =? 0 then [marker ENDSTREAM_MARKER_FLOAT 0] else marker ENDSTREAM_MARKER_FLOAT 4 :: le_split 4 a
  | IDouble a => if wrapu 63 a =? 0 then [marker ENDSTREAM_MARKER_DOUBLE 0] else marker ENDSTREAM_MARKER_DOUBLE 8 :: le_split 8 a
  | IText [] => [marker ENDSTREAM_MARKER_TEXT 0]
  | IText t => marker ENDSTREAM_MARKER_TEXT 1 :: be 2 (zlen t) ++ t ++ [0x7f]
  | IBin [] => [marker ENDSTREAM_MARKER_BIN 0]
  | IBin d => marker ENDSTREAM_MARKER_BIN 1 :: be 2 (zlen d) ++ d
  | IIp a => marker ENDSTREAM_MARKER_IP 4 :: a
  | IIp6 a => marker ENDSTREAM_MARKER_IP6 15 :: a
  | IEnd => [NET_STREAM_STRUCT_END_MARK]
  end.

(** Only the sign of a zero is lost. *)
Definition norm (it : item) : item :=
  match it with
  | IFloat a => if wrapu 31 a =? 0 then IFloat 0 else it
  | IDouble a => if wrapu 63 a =? 0 then IDouble 0 else it
  | _ => it
  end.

(** ** Words *)

Lemma land_ff z : Z.land z 0xff = wrapu 8 z.
Proof. change 0xff with (Z.ones 8). by rewrite Z.land_ones by lia. Qed.
Lemma shiftr_div n z : 0 <= n -> Z.shiftr z n = z / 2 ^ n.
Proof. intros. by rewrite Z.shiftr_div_pow2. Qed.
Lemma zlen_be n a : zlen (be n a) = Z.of_nat n.
Proof. unfold be, zlen. by rewrite length_rev, length_le_split. Qed.
#[export] Hint Rewrite zlen_be zlen_le_split : zlist.
Lemma be_bytes n a : bytes (be n a).
Proof. apply Forall_rev, le_split_bytes. Qed.

Lemma marker_byte t sz : 0 <= t < 16 -> 0 <= sz < 16 ->
  u8 (Z.lor (Z.shiftl (u8 t) 4) (u8 (Z.land sz 0xf))) = marker t sz.
Proof.
  intros Ht Hs.
  assert (Forall (fun t => Forall (fun sz =>
    u8 (Z.lor (Z.shiftl (u8 t) 4) (u8 (Z.land sz 0xf))) = marker t sz) (seqZ 0 16)) (seqZ 0 16)) as H.
  { apply (bool_decide_unpack _). by vm_compute. }
  rewrite !Forall_forall in H. specialize (H t). rewrite Forall_forall in H. apply H; apply elem_of_seqZ; lia.
Qed.

Lemma store_short m p a : nd_short_to_netstream m p a = mwrite m p (be 2 a).
Proof. unfold nd_short_to_netstream. by rewrite !land_ff, shiftr_div by lia. Qed.
Lemma store_long m p a : nd_long_to_netstream m p a = mwrite m p (be 4 a).
Proof.
  unfold nd_long_to_netstream. rewrite !land_ff, !shiftr_div by lia. unfold be, le_split, rev, app.
  by rewrite !Z.div_div by lia.
Qed.
Lemma store_longlong m p a : nd_longlong_to_netstream m p a = mwrite m p (be 8 a).
Proof.
  unfold nd_longlong_to_netstream. rewrite !land_ff, !shiftr_div by lia. unfold be, le_split, rev, app.
  by rewrite !Z.div_div by lia.
Qed.
Lemma be_1 a : 0 <= a < 256 -> be 1 a = [a].
Proof. intros. unfold be. simpl. by rewrite (wrapu_small 8 a) by lia. Qed.
Lemma be_value n a : 0 <= a < 2 ^ (8 * Z.of_nat n) -> le_combine (rev (be n a)) = a.
Proof. intros. unfold be. rewrite rev_involutive. by apply le_combine_split. Qed.

(** ** Writing appends the bytes *)

Section Items.
Context `{!WriteHook}.

Definition write_item (it : item) : W Z :=
  match it with
  | I8 a => Write8 a
  | I16 a => Write16 a
  | I32 a => Write32 a
  | I64 a => Write64 a
  | IFloat a => WriteFloat a
  | IDouble a => WriteDouble a
  | IText t => WriteText (Some t)
  | IBin d => WriteBin d (zlen d)
  | IIp a => WriteIp (mk_ip AF_INET (a ++ zrepeat 0 12))
  | IIp6 a => WriteIp (mk_ip AF_INET6 a)
  | IEnd => SetStructEnd
  end.

(** Values one after the other, as long as they are written. *)
Fixpoint write_items (l : list item) : W Z :=
  match l with
  | [] => mret 0
  | it :: l => r ← write_item it; if r =? 0 then write_items l else mret r
  end.
End Items.

(** What a stream asks of [onWriteStream]: it always returns, and it leaves alone the block
    from [lo] on, where the stream is.  [sh_inv k m] is what it keeps about the block
    before, when [k] bytes have been written. *)
Class StreamHook (lo : Z) := {
  sh_hook :: WriteHook;
  sh_inv : Z -> mem -> Prop;
  sh_keep k m m' : sh_inv k m -> slice 0 lo m' = slice 0 lo m -> zlen m' = zlen m -> sh_inv k m';
  sh_call k n m : sh_inv k m -> lo <= zlen m ->
    exists m', onWriteStream n m = Some m' /\ zlen m' = zlen m /\ sh_inv (k + n) m' /\
      slice lo (zlen m - lo) m' = slice lo (zlen m - lo) m
}.

Section Writer.
Context {lo : Z} `{HS : !StreamHook lo} (E : Z) (tail : list Z).

(** The stream from [lo] to [E] in a block that ends in [tail] has the content [c]. *)
Record written (c : list Z) (s : NDProtoWriteStream) : Prop := {
  wr_lo : 0 <= lo;
  wr_start : w_start s = lo;
  wr_op : w_op s = lo + zlen c;
  wr_end : w_end s = E;
  wr_room : lo + zlen c <= E;
  wr_mem : exists h rest, w_mem s = h ++ c ++ rest ++ tail /\ zlen h = lo /\ lo + zlen c + zlen rest = E;
  wr_size : E < 2 ^ 31;
  wr_inv : sh_inv (zlen c) (w_mem s)
}.
Definition free (c : list Z) : Z := E - lo - zlen c.

Lemma free_len c s : written c s -> u64 (w_end s - w_op s) = free c.
Proof. intros []. unfold free. rewrite wr_end0, wr_op0. zlens. rewrite wrapu_small by lia. lia. Qed.
Lemma free_pos c s : written c s -> 0 <= free c.
Proof. intros []. unfold free. lia. Qed.

(** A block [d] stored at the end of the stream. *)
Lemma store_put c s d : written c s -> zlen d <= free c ->
  exists m m', mwrite (w_mem s) (w_op s) d = Some m /\ onWriteStream (zlen d) m = Some m' /\
    written (c ++ d) (advance (zlen d) (set_w_mem m' s)).
Proof.
  intros [] Hd. unfold free in Hd. destruct wr_mem0 as (h & rest & Em & Lh & Lr).
  assert (exists r1 r2, rest = r1 ++ r2 /\ zlen r1 = zlen d) as (r1 & r2 & -> & L1).
  { exists (slice 0 (zlen d) rest), (slice (zlen d) (zlen rest - zlen d) rest). zlens.
    split; [apply slice_take_drop; zlia | apply zlen_slice; zlia]. }
  assert (mwrite (w_mem s) (w_op s) d = Some ((h ++ c) ++ d ++ r2 ++ tail)) as Ew.
  { rewrite Em, wr_op0, <- Lh, <- zlen_app. rewrite <- (mwrite_app (h ++ c) r1) by done. f_equal. by rewrite <- !app_assoc. }
  assert (sh_inv (zlen c) ((h ++ c) ++ d ++ r2 ++ tail)) as Hi.
  { apply (sh_keep _ (w_mem s)); [done| |rewrite Em; zlia].
    rewrite Em, <- !app_assoc. by rewrite !(slice_app_l 0 lo h) by lia. }
  destruct (sh_call _ (zlen d) _ Hi) as (m' & Ec & Lm & Hi' & Eb); [zlia|].
  exists ((h ++ c) ++ d ++ r2 ++ tail), m'. split; [done|]. split; [done|].
  split; simpl; rewrite ?zlen_app in *; try zlia; try done.
  exists (slice 0 lo m'), r2. rewrite zlen_slice by zlia. split; [|zlia].
  etrans; [apply (slice_take_drop lo m'); zlia|]. f_equal. rewrite Lm, Eb.
  rewrite <- !app_assoc. rewrite slice_app_r by lia. rewrite Lh, Z.sub_diag. apply slice_all. zlia.
Qed.

(** [o] appends [d] to the content [c] and returns 0, or appends [part] and returns -1 when
    there is no room for [d]. *)
Definition puts (o : W Z) (c d part : list Z) (s : NDProtoWriteStream) : Prop :=
  if zlen d <=? free c then exists s', o s = Some (0, s') /\ written (c ++ d) s'
  else exists s', o s = Some (-1, s') /\ written (c ++ part) s'.

Lemma write_org_ok c s n store d : written c s -> zlen d = n -> (forall m p, store m p = mwrite m p d) ->
  puts (write_org n store) c d [] s.
Proof.
  intros Hw <- Hst. unfold puts, write_org. rewrite (bind_run _ _ _ _ _ eq_refl). unfold id.
  pose proof Hw as []. replace (w_op s + zlen d <=? w_end s) with (zlen d <=? free c) by (unfold free; lia).
  destruct (Z.leb_spec (zlen d) (free c)).
  - destruct (store_put c s d Hw) as (m & m' & E1 & E2 & H2); [done|].
    eexists. split; [|exact H2]. unfold mbind, ST_bind, from. by rewrite Hst, E1; simpl; rewrite E2.
  - exists s. by rewrite app_nil_r.
Qed.

Lemma marker_ok c s t sz : written c s -> 0 <= t < 16 -> 0 <= sz < 16 -> puts (_writeMarker t sz) c [marker t sz] [] s.
Proof.
  intros Hw Ht Hs. unfold _writeMarker, _WriteOrg8. rewrite marker_byte by done. by apply write_org_ok.
Qed.

(** What a marker leaves behind when its data do not fit. *)
Definition lone (mk : Z) (c : list Z) : list Z := if 1 <=? free c then [mk] else [].

Lemma marked_ok c s t sz body d : written c s -> 0 <= t < 16 -> 0 <= sz < 16 ->
  (forall s', written (c ++ [marker t sz]) s' -> puts body (c ++ [marker t sz]) d [] s') ->
  puts (marked t sz body) c (marker t sz :: d) (lone (marker t sz) c) s.
Proof.
  intros Hw Ht Hs Hb. pose proof (marker_ok c s t sz Hw Ht Hs) as Hm. unfold puts, lone, marked in *.
  change (zlen [marker t sz]) with 1 in Hm. destruct (Z.leb_spec 1 (free c)).
  - destruct Hm as (s1 & E1 & W1). rewrite (bind_run _ _ _ _ _ E1). cbn [Z.eqb].
    specialize (Hb s1 W1). assert (free (c ++ [marker t sz]) = free c - 1) as Ef by (unfold free; zlia).
    rewrite Ef in Hb. rewrite zlen_cons. replace (1 + zlen d <=? free c) with (zlen d <=? free c - 1) by lia.
    destruct (zlen d <=? free c - 1); destruct Hb as (s2 & E2 & W2); exists s2; split; try done.
    all: by rewrite <- app_assoc in W2.
  - destruct Hm as (s1 & E1 & W1). rewrite (bind_run _ _ _ _ _ E1). cbn [Z.eqb].
    destruct (Z.leb_spec (zlen (marker t sz :: d)) (free c)); [zlia|]. by exists s1.
Qed.

Lemma puts_lone o c mk s : puts o c [mk] [] s -> puts o c [mk] (lone mk c) s.
Proof.
  unfold puts, lone. change (zlen [mk]) with 1. by destruct (1 <=? free c).
Qed.
Lemma marker_alone c s t sz : written c s -> 0 <= t < 16 -> 0 <= sz < 16 ->
  puts (_writeMarker t sz) c [marker t sz] (lone (marker t sz) c) s.
Proof. intros. by apply puts_lone, marker_ok. Qed.
Lemma marker_then c s t sz n store d : written c s -> 0 <= t < 16 -> 0 <= sz < 16 -> zlen d = n ->
  (forall m p, store m p = mwrite m p d) ->
  puts (marked t sz (write_org n store)) c (marker t sz :: d) (lone (marker t sz) c) s.
Proof. intros. apply marked_ok; try done. intros s' Hw. by apply write_org_ok. Qed.

Lemma Write8_ok c s a : written c s -> 0 <= a < 2 ^ 8 ->
  puts (Write8 a) c (encode (I8 a)) (lone (hd 0 (encode (I8 a))) c) s.
Proof.
  intros Hw Ha. unfold Write8, _WriteOrg8, encode, enc_num. replace (a <=? 255) with true by lia.
  destruct (Z.eqb_spec a 0); [by apply marker_alone|]. cbn [hd]. apply marker_then; try done. intros. by rewrite be_1 by lia.
Qed.
Lemma byte_ok t c s a : written c s -> 0 <= t < 16 -> 0 <= a <= 255 ->
  puts (marked t 1 (_WriteOrg8 (u8 a))) c (marker t 1 :: be 1 a) (lone (marker t 1) c) s.
Proof. intros. by apply marker_then. Qed.
Lemma word_ok t c s a : written c s -> 0 <= t < 16 -> 0 <= a <= 65535 ->
  puts (marked t 2 (_WriteOrg16 (u16 a))) c (marker t 2 :: be 2 a) (lone (marker t 2) c) s.
Proof. intros. rewrite wrapu_small by lia. apply marker_then; try done. intros. apply store_short. Qed.
Lemma long_ok t c s a : written c s -> 0 <= t < 16 -> 0 <= a < 2 ^ 32 ->
  puts (marked t 4 (_WriteOrg32 (u32 a))) c (marker t 4 :: be 4 a) (lone (marker t 4) c) s.
Proof. intros. rewrite wrapu_small by lia. apply marker_then; try done. intros. apply store_long. Qed.

Ltac by_size := repeat match goal with
  | |- context [?a =? ?b] => destruct (Z.eqb_spec a b)
  | |- context [?a <=? ?b] => destruct (Z.leb_spec a b) end.
Lemma Write16_ok c s a : written c s -> 0 <= a < 2 ^ 16 ->
  puts (Write16 a) c (encode (I16 a)) (lone (hd 0 (encode (I16 a))) c) s.
Proof.
  intros Hw Ha. unfold Write16, encode, enc_num. replace (a <=? 65535) with true by lia.
  by_size; cbn [hd]; [by apply marker_alone|apply byte_ok; done || lia|].
  rewrite <- (wrapu_small 16 a) at 1 by lia. apply word_ok; done || lia.
Qed.
Lemma Write32_ok c s a : written c s -> 0 <= a < 2 ^ 32 ->
  puts (Write32 a) c (encode (I32 a)) (lone (hd 0 (encode (I32 a))) c) s.
Proof.
  intros Hw Ha. unfold Write32, encode, enc_num. replace (a <=? 0xffffffff) with true by lia.
  by_size; cbn [hd]; [by apply marker_alone|apply byte_ok; done || lia|apply word_ok; done || lia|].
  rewrite <- (wrapu_small 32 a) at 1 by lia. apply long_ok; done || lia.
Qed.
Lemma Write64_ok c s a : written c s -> 0 <= a < 2 ^ 64 ->
  puts (Write64 a) c (encode (I64 a)) (lone (hd 0 (encode (I64 a))) c) s.
Proof.
  intros Hw Ha. unfold Write64, encode, enc_num.
  by_size; cbn [hd]; [by apply marker_alone|apply byte_ok; done || lia|apply word_ok; done || lia|apply long_ok; done || lia|].
  apply marker_then; try done. intros. apply store_longlong.
Qed.
Lemma WriteFloat_ok c s a : written c s ->
  puts (WriteFloat a) c (encode (IFloat a)) (lone (hd 0 (encode (IFloat a))) c) s.
Proof.
  intros Hw. unfold WriteFloat, encode. case_match; cbn [hd]; [by apply marker_alone|].
  by apply marker_then; rewrite ?zlen_le_split.
Qed.
Lemma WriteDouble_ok c s a : written c s ->
  puts (WriteDouble a) c (encode (IDouble a)) (lone (hd 0 (encode (IDouble a))) c) s.
Proof.
  intros Hw. unfold WriteDouble, encode. case_match; cbn [hd]; [by apply marker_alone|].
  by apply marker_then; rewrite ?zlen_le_split.
Qed.

Lemma WriteOrg16_ok c s a : written c s -> 2 <= free c ->
  exists s', _WriteOrg16 a s = Some (0, s') /\ written (c ++ be 2 a) s'.
Proof.
  intros Hw Hf. pose proof (write_org_ok c s 2 (fun m p => nd_short_to_netstream m p a) (be 2 a) Hw eq_refl) as H.
  unfold puts in H. rewrite zlen_be in H. destruct (Z.leb_spec (Z.of_nat 2) (free c)); [|lia].
  apply H. intros. apply store_short.
Qed.
Lemma free_app c d : free (c ++ d) = free c - zlen d.
Proof. unfold free. zlia. Qed.
Lemma no_room c s : written c s -> (w_end s <=? w_op s) = (free c <=? 0).
Proof. intros []. unfold free. lia. Qed.

Lemma mset_last m o d x y m1 : mwrite m o (d ++ [x]) = Some m1 -> mset m1 (o + zlen d) y = mwrite m o (d ++ [y]).
Proof.
  intros H. pose proof H as H'. apply mwrite_inv in H' as (Ho & Hl & Em). rewrite zlen_app in *. change (zlen [x]) with 1 in *.
  subst m1. rewrite (mwrite_ok m o (d ++ [y])) by (rewrite ?zlen_app; change (zlen [y]) with 1; lia). rewrite zlen_app. change (zlen [y]) with 1.
  rewrite <- app_assoc, (app_assoc (slice 0 o m)). cbn [app].
  replace (o + zlen d) with (zlen (slice 0 o m ++ d)) by (rewrite zlen_app, zlen_slice; zlia).
  rewrite mset_app. by rewrite <- !app_assoc.
Qed.

Lemma WriteText_ok c s t : written c s -> item_ok (IText t) ->
  puts (WriteText (Some t)) c (encode (IText t)) (lone (hd 0 (encode (IText t))) c) s.
Proof.
  intros Hw (Hb & _ & Hl). assert (0 <= free c) by by eapply free_pos.
  unfold puts, WriteText. rewrite (bind_run _ _ _ _ _ eq_refl). unfold id. rewrite (no_room c) by done.
  destruct (Z.leb_spec (free c) 0) as [H0|H0].
  { assert (0 < zlen (encode (IText t))) by (destruct t; simpl; zlia).
    destruct (Z.leb_spec (zlen (encode (IText t))) (free c)); [lia|]. exists s. unfold lone.
    replace (1 <=? free c) with false by lia. by rewrite app_nil_r. }
  destruct t as [|x t0].
  - pose proof (marker_alone c s ENDSTREAM_MARKER_TEXT 0 Hw ltac:(done) ltac:(done)) as H1. unfold puts in H1.
    cbn [encode]. change (zlen [_]) with 1 in *. destruct (Z.leb_spec 1 (free c)); [|lia].
    destruct H1 as (s' & E1 & W1). exists s'. by rewrite (bind_run _ _ _ _ _ E1).
  - apply marked_ok; try done. intros s1 W1. set (t := x :: t0) in *. unfold puts. rewrite (bind_run _ _ _ _ _ eq_refl).
    unfold id. erewrite free_len by done. set (c1 := c ++ [_]) in *.
    replace (zlen (be 2 (zlen t) ++ t ++ [127]) <=? free c1) with (zlen t + 3 <=? free c1)
      by (rewrite !zlen_app, zlen_be; change (zlen [127]) with 1; f_equal; lia).
    destruct (Z.leb_spec (zlen t + 3) (free c1)) as [Hf|Hf]; [|by exists s1; rewrite app_nil_r].
    zlens. destruct (WriteOrg16_ok c1 s1 (zlen t) W1 ltac:(lia)) as (s2 & E2 & W2).
    rewrite wrapu_small by lia. rewrite (bind_run _ _ _ _ _ E2), (bind_run _ _ _ _ _ eq_refl). unfold id.
    assert (forall z, zlen (t ++ [z]) = zlen t + 1) as Lt by (intros; zlia).
    destruct (store_put _ s2 (t ++ [127]) W2) as (m & m' & E3 & E4 & W3); [rewrite Lt, free_app, zlen_be; lia|].
    assert (exists m0, mwrite (w_mem s2) (w_op s2) (t ++ [0]) = Some m0) as (m0 & E5).
    { apply mwrite_inv in E3 as (? & ? & _). destruct (mwrite_ex (w_mem s2) (w_op s2) (t ++ [0])) as (m0 & ? & _); try lia; [|by exists m0].
      rewrite Lt in *. lia. }
    rewrite Lt in *. eexists. rewrite app_assoc. split; [|exact W3].
    rewrite (bind_from _ _ _ _ E5). rewrite <- (mset_last _ _ _ 0 _ _ E5) in E3.
    by rewrite (bind_from _ _ _ _ E3), (bind_from _ _ _ _ E4).
Qed.

(** Data of a length that is already known to fit. *)
Lemma stream_ok c s d n : written c s -> zlen d = n -> n <= free c -> forall data, mread data 0 n = Some d ->
  exists s', (d ← from (fun _ => mread data 0 n);
     m ← from (fun _ => mwrite (w_mem s) (w_op s) d);
     m ← from (fun _ => onWriteStream n m);
     modify (set_w_mem m);; modify (advance n);; mret 0) s = Some (0, s') /\ written (c ++ d) s'.
Proof.
  intros Hw <- Hf data Ed. destruct (store_put c s d Hw Hf) as (m & m' & E1 & E2 & W).
  eexists. split; [|exact W]. by rewrite (bind_from _ _ _ _ Ed), (bind_from _ _ _ _ E1), (bind_from _ _ _ _ E2).
Qed.

Lemma WriteBin_ok c s d : written c s -> item_ok (IBin d) ->
  puts (WriteBin d (zlen d)) c (encode (IBin d)) (if zlen d <? free c then lone (hd 0 (encode (IBin d))) c else []) s.
Proof.
  intros Hw (Hb & Hl). assert (0 <= free c) by by eapply free_pos.
  assert (zlen d < zlen (encode (IBin d))) as Hle by (destruct d; simpl; zlia).
  unfold puts, WriteBin. rewrite bind_gets. unfold id, GetFreeLen. rewrite (free_len c), (no_room c) by done.
  destruct (Z.ltb_spec (zlen d) (free c)) as [Hf|Hf].
  2:{ replace ((free c <=? 0) || (free c <=? zlen d)) with true by lia.
      destruct (Z.leb_spec (zlen (encode (IBin d))) (free c)); [lia|]. exists s. by rewrite app_nil_r. }
  replace ((free c <=? 0) || (free c <=? zlen d)) with false by zlia.
  destruct d as [|x d0].
  - pose proof (marker_alone c s ENDSTREAM_MARKER_BIN 0 Hw ltac:(done) ltac:(done)) as H1. unfold puts in H1.
    cbn [encode]. change (zlen [_]) with 1 in *. change (zlen []) with 0 in *. cbn [Z.eqb].
    destruct (Z.leb_spec 1 (free c)); [|lia]. destruct H1 as (s' & E1 & W1). exists s'. by rewrite (bind_run _ _ _ _ _ E1).
  - set (d := x :: d0) in *. replace (zlen d =? 0) with false by (unfold d; zlia).
    apply marked_ok; try done. intros s1 W1. unfold puts. rewrite bind_gets. unfold id. erewrite free_len by done.
    set (c1 := c ++ [_]) in *.
    replace (zlen (be 2 (zlen d) ++ d) <=? free c1) with (zlen d + 2 <=? free c1) by (rewrite zlen_app, zlen_be; f_equal; lia).
    destruct (Z.leb_spec (zlen d + 2) (free c1)) as [Hf1|Hf1]; [|by exists s1; rewrite app_nil_r].
    zlens. destruct (WriteOrg16_ok c1 s1 (zlen d) W1 ltac:(lia)) as (s2 & E2 & W2).
    rewrite wrapu_small by lia. rewrite (bind_run _ _ _ _ _ E2), bind_gets. unfold id. rewrite app_assoc.
    apply stream_ok; try done; [rewrite free_app, zlen_be; lia|]. rewrite mread_ok by lia. by rewrite slice_all.
Qed.

(** The address is at the beginning of the union. *)
Lemma WriteStream_ok c s d data : written c s -> 0 < zlen d -> mread data 0 (zlen d) = Some d ->
  puts (WriteStream data (zlen d)) c d [] s.
Proof.
  intros Hw Hd Ed. assert (0 <= free c) by by eapply free_pos.
  unfold puts, WriteStream. rewrite bind_gets. unfold id. rewrite (free_len c), (no_room c) by done.
  destruct (Z.leb_spec (zlen d) (free c)) as [Hf|Hf].
  - replace (free c <=? 0) with false by lia. replace (free c <? zlen d) with false by lia. replace (0 <? zlen d) with true by lia.
    destruct (stream_ok c s d (zlen d) Hw eq_refl Hf data Ed) as (s' & E1 & W1). exists s'. split; [|done]. rewrite <- E1.
    unfold mbind, ST_bind, from. rewrite Ed. simpl. destruct (mwrite _ _ _); [|done]. simpl. by destruct (onWriteStream _ _).
  - exists s. rewrite app_nil_r. replace (free c <? zlen d) with true by lia. by destruct (free c <=? 0).
Qed.

(** The bytes that stay in the stream when there is no room for the value. *)
Definition left_over (it : item) (c : list Z) : list Z :=
  match it with
  | IBin d => if zlen d <? free c then lone (hd 0 (encode it)) c else []
  | _ => lone (hd 0 (encode it)) c
  end.

Lemma write_item_puts it c s : written c s -> item_ok it -> puts (write_item it) c (encode it) (left_over it c) s.
Proof.
  intros Hw Hok. pose proof Hok as Hok'. destruct it; cbn [item_ok] in Hok'; cbn [write_item left_over].
  - by apply Write8_ok.
  - by apply Write16_ok.
  - by apply Write32_ok.
  - by apply Write64_ok.
  - by apply WriteFloat_ok.
  - by apply WriteDouble_ok.
  - by apply WriteText_ok.
  - by apply WriteBin_ok.
  - destruct Hok' as [_ La]. apply marked_ok; try done. intros s' W'. cbn [ip6].
    pose proof (WriteStream_ok _ s' a (a ++ zrepeat 0 12) W') as H. rewrite La in H. apply H; [done|].
    rewrite mread_ok by (rewrite ?zlen_app; zlia). rewrite slice_app_l by lia. by rewrite slice_all.
  - destruct Hok' as [_ La]. apply marked_ok; try done. intros s' W'. cbn [ip6].
    pose proof (WriteStream_ok _ s' a a W') as H. rewrite La in H. apply H; [done|].
    rewrite mread_ok by lia. by rewrite slice_all.
  - apply puts_lone. by apply write_org_ok.
Qed.

(** The bytes of values one after the other. *)
Definition encode_all (l : list item) : list Z := concat (map encode l).

Lemma write_items_puts l c s : written c s -> Forall item_ok l ->
  exists r s', write_items l s = Some (r, s') /\ (r = 0 <-> zlen (encode_all l) <= free c) /\
    (r = 0 -> written (c ++ encode_all l) s').
Proof.
  intros Hw Hl. revert c s Hw. induction Hl as [|it l Hi _ IH]; intros c s Hw; cbn [write_items].
  { exists 0, s. pose proof (free_pos c s Hw). change (encode_all []) with (@nil Z). rewrite app_nil_r. change (zlen []) with 0. split; [done|]. split; [lia|done]. }
  pose proof (write_item_puts it c s Hw Hi) as Hp. unfold puts in Hp. change (encode_all (it :: l)) with (encode it ++ encode_all l).
  destruct (Z.leb_spec (zlen (encode it)) (free c)); destruct Hp as (s1 & E1 & W1); rewrite (bind_run _ _ _ _ _ E1); cbn [Z.eqb].
  - destruct (IH _ _ W1) as (r & s2 & E2 & H2 & H3). exists r, s2. rewrite free_app in H2.
    split; [done|]. split; [rewrite H2, zlen_app; lia|]. rewrite app_assoc. done.
  - exists (-1), s1. split; [done|]. split; [|done]. zlens. lia.
Qed.
End Writer.

(** ** Reading takes the bytes off *)

(** The rest of the stream is [l]; ends of structures are not skipped. *)
Record remains (l : list Z) (s : NDProtoReadStream) : Prop := {
  rm_mem : exists pre post, r_mem s = pre ++ l ++ post /\ r_op s = zlen pre /\ r_end s = zlen pre + zlen l;
  rm_size : r_end s < 2 ^ 31;
  rm_skip : m_bSkipEndMarker s = false /\ m_bSkipEndAllStream s = false
}.
Definition past (n : Z) (s : NDProtoReadStream) : NDProtoReadStream := set_r_op (r_op s + n) s.

Lemma past_past n k s : past n (past k s) = past (k + n) s.
Proof. unfold past, set_r_op. cbn. by rewrite Z.add_assoc. Qed.
Lemma past_0 s : past 0 s = s.
Proof. unfold past, set_r_op. rewrite Z.add_0_r. by destruct s. Qed.
Lemma remains_past d l s : remains (d ++ l) s -> remains l (past (zlen d) s).
Proof.
  intros [(pre & post & Em & Eo & Ee) Hs Hk]. split; cbn; try done.
  exists (pre ++ d), post. rewrite Em, Eo, Ee, !zlen_app, <- !app_assoc. split; [done|]. split; [done|lia].
Qed.
Lemma remains_struck b l s : remains l s -> remains l (set_struck b s).
Proof. by intros []. Qed.
Lemma remains_len l s : remains l s -> r_end s - r_op s = zlen l /\ 0 <= r_op s.
Proof. intros [(pre & post & _ & -> & ->) _ _]. zlens. lia. Qed.
Lemma left_data l s : remains l s -> LeftData s = zlen l.
Proof. intros H. unfold LeftData. destruct (remains_len _ _ H) as [E ?]. destruct H. zlens. rewrite E, wraps_small; lia. Qed.

Lemma remains_read d l s : remains (d ++ l) s -> mread (r_mem s) (r_op s) (zlen d) = Some d.
Proof.
  intros [(pre & post & -> & -> & _) _ _]. rewrite <- app_assoc. rewrite mread_app by zlia.
  rewrite slice_app_l by zlia. by rewrite slice_all.
Qed.
Lemma remains_get d x l s : remains (d ++ x :: l) s -> mget (r_mem s) (r_op s + zlen d) = Some x.
Proof.
  intros [(pre & post & -> & -> & _) _ _]. unfold mget. rewrite (proj2 (in_range_spec _ _ _)) by zlia.
  rewrite <- !app_assoc, app_assoc. rewrite lookup_app_r by (rewrite length_app; unfold zlen; lia).
  rewrite length_app. by replace (Z.to_nat (zlen pre + zlen d) - (length pre + length d))%nat with 0%nat by (unfold zlen; lia).
Qed.

(** A word whose bytes are [d] with the value [v]. *)
Lemma read_org_ok n load a d v l s : remains (d ++ l) s -> zlen d = n -> load (r_mem s) (r_op s) = Some v ->
  read_org n load a s = Some ((0, v), past n s) /\ remains l (past n s).
Proof.
  intros Hr <- Hv. split; [|by apply (remains_past d)]. unfold read_org. rewrite bind_gets. unfold id.
  destruct (remains_len _ _ Hr) as [He _]. zlens.
  replace (r_op s + zlen d <=? r_end s) with true by lia. by rewrite (bind_from _ _ _ _ Hv).
Qed.
Lemma read8_ok a b l s : remains (b :: l) s -> is_byte b -> _ReadOrg8 a s = Some ((0, b), past 1 s) /\ remains l (past 1 s).
Proof.
  intros Hr Hb. apply (read_org_ok 1 _ a [b]); try done.
  pose proof (remains_get [] b l s Hr) as Hg. change (zlen []) with 0 in Hg. rewrite Z.add_0_r in Hg. rewrite Hg.
  cbn. by rewrite (wrapu_small 8 b) by (unfold is_byte in Hb; lia).
Qed.

Lemma short_value b0 b1 : is_byte b0 -> is_byte b1 ->
  u16 (Z.lor (Z.shiftl (u16 (s8 b0)) 8) (Z.land (s8 b1) 0xff)) = b1 + 256 * b0.
Proof.
  unfold is_byte. intros H0 H1. assert (Z.land (s8 b1) 255 = b1) as ->.
  { rewrite land_ff. unfold wrapu, wraps. change (2 ^ 8) with 256. change (2 ^ (8 - 1)) with 128.
    Z.to_euclidean_division_equations. lia. }
  rewrite Z.shiftl_mul_pow2, lor_add by lia. unfold wrapu, wraps. change (2 ^ 8) with 256. change (2 ^ (8 - 1)) with 128.
  change (2 ^ 16) with 65536. Z.to_euclidean_division_equations. lia.
Qed.
Lemma read16_ok a v l s : remains (be 2 v ++ l) s -> 0 <= v < 2 ^ 16 ->
  _ReadOrg16 a s = Some ((0, v), past 2 s) /\ remains l (past 2 s).
Proof.
  intros Hr Hv. apply (read_org_ok 2 _ a (be 2 v)); [done|by rewrite zlen_be|].
  pose proof (be_bytes 2 v) as Hb. pose proof (be_value 2 v Hv) as Ev.
  change (be 2 v) with [u8 (v / 256); u8 v] in *. inversion_clear Hb as [|? ? B0 B1]. inversion_clear B1 as [|? ? B1' _].
  pose proof (remains_get [] _ _ s Hr) as G0. pose proof (remains_get [u8 (v / 256)] _ _ s Hr) as G1.
  change (zlen []) with 0 in G0. rewrite Z.add_0_r in G0. change (zlen [_]) with 1 in G1.
  unfold nd_netstream_to_short. rewrite G0. cbn [mbind option_bind]. rewrite G1. cbn [mbind option_bind].
  rewrite short_value by done. rewrite <- Ev at 3. cbn [rev app le_combine]. f_equal. lia.
Qed.
Lemma read32_ok a v l s : remains (be 4 v ++ l) s -> 0 <= v < 2 ^ 32 ->
  _ReadOrg32 a s = Some ((0, v), past 4 s) /\ remains l (past 4 s).
Proof.
  intros Hr Hv. apply (read_org_ok 4 _ a (be 4 v)); [done|by rewrite zlen_be|].
  unfold nd_netstream_to_long. pose proof (remains_read _ _ _ Hr) as E. rewrite zlen_be in E. change (Z.of_nat 4) with 4 in E. rewrite E. cbn [mbind option_bind].
  by rewrite be_value.
Qed.
Lemma read64_ok a v l s : remains (be 8 v ++ l) s -> 0 <= v < 2 ^ 64 ->
  _ReadOrg64 a s = Some ((0, v), past 8 s) /\ remains l (past 8 s).
Proof.
  intros Hr Hv. apply (read_org_ok 8 _ a (be 8 v)); [done|by rewrite zlen_be|].
  unfold nd_netstream_to_longlong. pose proof (remains_read _ _ _ Hr) as E. rewrite zlen_be in E. change (Z.of_nat 8) with 8 in E. rewrite E. cbn [mbind option_bind].
  by rewrite be_value.
Qed.

Lemma marker_read t sz : 0 <= t < 11 -> 0 <= sz < 16 ->
  is_byte (marker t sz) /\ marker t sz <> 255 /\
  Z.shiftr (Z.land (marker t sz) 0xf0) 4 = t /\ Z.land (marker t sz) 0xf = sz.
Proof.
  intros Ht Hs. split; [unfold is_byte, marker; lia|]. split; [unfold marker; lia|].
  assert (Forall (fun t => Forall (fun sz =>
    Z.shiftr (Z.land (marker t sz) 0xf0) 4 = t /\ Z.land (marker t sz) 0xf = sz) (seqZ 0 16)) (seqZ 0 11)) as H.
  { apply (bool_decide_unpack _). by vm_compute. }
  rewrite !Forall_forall in H. specialize (H t). rewrite Forall_forall in H. apply H; apply elem_of_seqZ; lia.
Qed.

Lemma read_marker_ok fuel t sz l s : remains (marker t sz :: l) s -> 0 <= t < 11 -> 0 <= sz < 16 ->
  read_marker (S fuel) s = Some ((0, Some (t, sz)), past 1 s).
Proof.
  intros Hr Ht Hs. destruct (marker_read t sz Ht Hs) as (Hb & Hn & Et & Es).
  destruct (read8_ok 0 _ _ _ Hr Hb) as [E _]. cbn [read_marker]. rewrite (bind_run _ _ _ _ _ E). cbn [Z.eqb].
  unfold NET_STREAM_STRUCT_END_MARK, ENDSTREAM_CMD_SKIP_STRUCT_MARK, ENDSTREAM_CMD_ENABLE_STRUCT_MARK. rewrite Et, Es.
  destruct (Z.eqb_spec (marker t sz) 255); [done|]. destruct (Z.eqb_spec t 11); [lia|]. by destruct (Z.eqb_spec t 12); [lia|].
Qed.
Lemma type_size_ok t sz l s : remains (marker t sz :: l) s -> 0 <= t < 11 -> 0 <= sz < 16 ->
  _ReadTypeSize s = Some ((0, Some (t, sz)), past 1 s).
Proof. intros. by apply (read_marker_ok _ _ _ l). Qed.
Lemma read_type_ok t sz l s : remains (marker t sz :: l) s -> 0 <= t < 11 -> 0 <= sz < 16 ->
  read_type s = Some (Some (t, sz), past 1 (set_struck false s)) /\ remains l (past 1 (set_struck false s)).
Proof.
  intros Hr Ht Hs. apply (remains_struck false) in Hr. split; [|by apply (remains_past [marker t sz])].
  unfold read_type. by rewrite bind_modify, (bind_run _ _ _ _ _ (type_size_ok _ _ _ _ Hr Ht Hs)).
Qed.
Lemma read_typed_ok t sz a body l s : remains (marker t sz :: l) s -> 0 <= t < 11 -> 0 <= sz < 16 ->
  read_typed t a body s = body sz (past 1 (set_struck false s)).
Proof.
  intros Hr Ht Hs. destruct (read_type_ok _ _ _ _ Hr Ht Hs) as [E _]. unfold read_typed.
  rewrite (bind_run _ _ _ _ _ E). by rewrite Z.eqb_refl.
Qed.

(** The state behind a value that has been read. *)
Definition behind (d : list Z) (s : NDProtoReadStream) : NDProtoReadStream := past (zlen d) (set_struck false s).

(** The number of bytes a number takes, and reading them. *)
Definition num_size (a : Z) : Z :=
  if a =? 0 then 0 else if a <=? 0xff then 1 else if a <=? 0xffff then 2 else if a <=? 0xffffffff then 4 else 8.
Definition read_width (n : Z) : R (Z * Z) :=
  if n =? 0 then mret (0, 0)
  else if n =? 1 then _ReadOrg8 0
  else if n =? 2 then _ReadOrg16 0
  else if n =? 4 then _ReadOrg32 0
  else _ReadOrg64 0.
Ltac by_size := unfold num_size; repeat match goal with
  | |- context [?a =? ?b] => destruct (Z.eqb_spec a b)
  | |- context [?a <=? ?b] => destruct (Z.leb_spec a b) end.
Lemma enc_num_size t a : enc_num t a = marker t (num_size a) :: be (Z.to_nat (num_size a)) a.
Proof. unfold enc_num. by by_size. Qed.

Lemma read_packed t a0 a body l s : (forall s', body (num_size a) s' = read_width (num_size a) s') ->
  remains (enc_num t a ++ l) s -> 0 <= t < 11 -> 0 <= a < 2 ^ 64 ->
  read_typed t a0 body s = Some ((0, a), behind (enc_num t a) s).
Proof.
  intros Hb Hr Ht Ha. unfold behind. rewrite enc_num_size in *. cbn [app] in Hr.
  assert (0 <= num_size a < 16) as Hs by (by_size; lia).
  destruct (read_type_ok _ _ _ _ Hr Ht Hs) as [_ Hl]. rewrite (read_typed_ok _ _ _ _ _ _ Hr Ht Hs), Hb. clear Hb Hr.
  rewrite zlen_cons, zlen_be. revert Hl. by_size; intros Hl; cbn [read_width Z.eqb Pos.eqb]; unfold read_width; cbn [Z.eqb Pos.eqb].
  - subst. done.
  - change (Z.to_nat 1) with 1%nat in *. rewrite be_1 in Hl by lia. destruct (read8_ok 0 _ _ _ Hl) as [-> _]; [unfold is_byte; lia|]. by rewrite past_past.
  - destruct (read16_ok 0 _ _ _ Hl) as [-> _]; [lia|]. by rewrite past_past.
  - destruct (read32_ok 0 _ _ _ Hl) as [-> _]; [lia|]. by rewrite past_past.
  - destruct (read64_ok 0 _ _ _ Hl) as [-> _]; [lia|]. by rewrite past_past.
Qed.

(** Floating-point numbers: all bytes, in the order of the machine, or none for zero. *)
Lemma read_bits w n t a0 a body l s load :
  (forall s', body 0 s' = Some ((0, 0), s')) -> (forall s', body n s' = read_org n load 0 s') ->
  (forall m p, load m p = d ← mread m p n; Some (le_combine d)) ->
  0 <= t < 11 -> 0 < n < 16 -> 0 <= a < 2 ^ (8 * n) ->
  let d := if wrapu w a =? 0 then [marker t 0] else marker t n :: le_split (Z.to_nat n) a in
  remains (d ++ l) s -> read_typed t a0 body s = Some ((0, if wrapu w a =? 0 then 0 else a), behind d s).
Proof.
  intros B0 Bn Bl Ht Hn Ha d Hr. unfold d, behind in *. destruct (wrapu w a =? 0); cbn [app] in Hr.
  - rewrite (read_typed_ok _ _ _ _ _ _ Hr) by lia. by rewrite B0.
  - rewrite (read_typed_ok _ _ _ _ _ _ Hr) by lia. destruct (read_type_ok _ _ _ _ Hr Ht) as [_ Hl]; [lia|]. rewrite Bn.
    assert (zlen (le_split (Z.to_nat n) a) = n) as Ln by (rewrite zlen_le_split; lia).
    destruct (read_org_ok n load 0 _ a _ _ Hl Ln) as [-> _].
    + pose proof (remains_read _ _ _ Hl) as E. rewrite Ln in E. rewrite Bl, E. cbn [mbind option_bind].
      rewrite le_combine_split; [done|]. by rewrite Z2Nat.id by lia.
    + by rewrite past_past, zlen_cons, Ln.
Qed.

(** The length in front of a text or a block. *)
Lemma read_length_ok n l s : remains (be 2 n ++ l) s -> 0 <= n < 2 ^ 16 ->
  read_length s = Some (n, past 2 s) /\ remains l (past 2 s).
Proof.
  intros Hr Hn. destruct (read16_ok 0 n l s Hr Hn) as [E Hl]. split; [|done].
  unfold read_length. by rewrite (bind_run _ _ _ _ _ E).
Qed.

Lemma zlen_pos_eqb {A} (x : A) l : (zlen (x :: l) =? 0) = false.
Proof. zlia. Qed.
Lemma mwrite_0 b d : zlen d <= zlen b -> mwrite b 0 d = Some (d ++ slice (zlen d) (zlen b - zlen d) b).
Proof. intros. zlens. rewrite mwrite_ok by lia. by rewrite slice_0. Qed.

Lemma read_text_ok b t l s : item_ok (IText t) -> zlen t < zlen b -> remains (encode (IText t) ++ l) s ->
  exists b', ReadText b (zlen b) s = Some ((zlen t, b'), behind (encode (IText t)) s) /\
    b' = t ++ [0] ++ slice (zlen t + 1) (zlen b - zlen t - 1) b.
Proof.
  intros (_ & _ & Hlen) Hb Hr. unfold behind, ReadText. destruct t as [|x t0]; cbn [encode app] in Hr.
  - destruct (read_type_ok _ _ _ _ Hr) as [E _]; try done. rewrite (bind_run _ _ _ _ _ E). cbn [negb Z.eqb Pos.eqb ENDSTREAM_MARKER_TEXT].
    eexists. split; [|done]. change (zlen []) with 0 in Hb. rewrite (bind_from _ ([0] ++ slice (0 + 1) (zlen b - 0 - 1) b)); [done|].
    unfold mset. rewrite mwrite_0 by (change (zlen [0]) with 1; lia). change (zlen [0]) with 1. by replace (zlen b - 0 - 1) with (zlen b - 1) by lia.
  - destruct (read_type_ok _ _ _ _ Hr) as [E Hl]; try done. rewrite (bind_run _ _ _ _ _ E). cbn [encode].
    set (t := x :: t0) in *. assert (0 < zlen t) by (unfold t; zlia).
    change (x :: t0 ++ [127]) with (t ++ [127]) in Hl. rewrite <- !app_assoc in Hl.
    destruct (read_length_ok _ _ _ Hl) as [E2 Hl2]; [lia|]. cbn [negb Z.eqb Pos.eqb ENDSTREAM_MARKER_TEXT].
    rewrite (bind_run _ _ _ _ _ E2). replace (zlen t =? 0) with false by lia. rewrite bind_gets. unfold id.
    destruct (remains_len _ _ Hl2) as [He _]. rewrite !zlen_app in He. change (zlen [127]) with 1 in He. zlens.
    match goal with |- context [if ?c <? ?d then _ else _] => replace (c <? d) with true by lia end.
    rewrite (bind_from _ _ _ _ (remains_get _ _ _ _ Hl2)), Z.eqb_refl. replace (zlen t <? zlen b) with true by lia. cbn [andb].
    rewrite (bind_from _ _ _ _ (remains_read _ _ _ Hl2)), (bind_from _ _ _ _ (mwrite_0 b t ltac:(lia))). unfold forward. rewrite bind_modify.
    eexists. split; [|done]. rewrite (bind_from _ (t ++ [0] ++ slice (zlen t + 1) (zlen b - zlen t - 1) b)).
    + unfold mret, ST_ret. do 2 f_equal. fold (past (zlen t + 1) (past 2 (past 1 (set_struck false s)))).
      rewrite !past_past. f_equal; lia.
    + replace (zlen b - zlen t) with (1 + (zlen b - zlen t - 1)) by lia. rewrite slice_split by lia.
      assert (exists y, slice (zlen t) 1 b = [y]) as [y ->].
      { pose proof (zlen_slice (zlen t) 1 b) as L. destruct (slice (zlen t) 1 b) as [|y [|? ?]]; [..|zlens; lia].
        - change (zlen []) with 0 in L. lia. - by exists y. }
      cbn [app]. rewrite mset_app. by replace (1 + (zlen b - zlen t - 1) - 1) with (zlen b - zlen t - 1) by lia.
Qed.

Lemma read_bin_ok b d l s : item_ok (IBin d) -> zlen d <= zlen b -> remains (encode (IBin d) ++ l) s ->
  exists b', ReadBin b (zlen b) s = Some ((zlen d, b'), behind (encode (IBin d)) s) /\
    b' = d ++ slice (zlen d) (zlen b - zlen d) b.
Proof.
  intros (_ & Hlen) Hb Hr. unfold behind, ReadBin. destruct d as [|x d0]; cbn [encode app] in Hr.
  - destruct (read_type_ok _ _ _ _ Hr) as [E _]; try done. rewrite (bind_run _ _ _ _ _ E). cbn.
    eexists. split; [done|]. change (zlen []) with 0. rewrite Z.sub_0_r. by rewrite slice_all.
  - destruct (read_type_ok _ _ _ _ Hr) as [E Hl]; try done. rewrite (bind_run _ _ _ _ _ E). cbn [encode].
    set (d := x :: d0) in *. assert (0 < zlen d) by (unfold d; zlia). rewrite <- !app_assoc in Hl.
    destruct (read_length_ok _ _ _ Hl) as [E2 Hl2]; [lia|]. cbn [negb Z.eqb Pos.eqb ENDSTREAM_MARKER_BIN].
    rewrite (bind_run _ _ _ _ _ E2). replace (zlen d =? 0) with false by lia. rewrite bind_gets. unfold id.
    destruct (remains_len _ _ Hl2) as [He _]. rewrite zlen_app in He. zlens.
    match goal with |- context [if ?c && _ then _ else _] => replace c with true by lia end.
    replace (zlen d <=? zlen b) with true by lia. cbn [andb].
    rewrite (bind_from _ _ _ _ (remains_read _ _ _ Hl2)), (bind_from _ _ _ _ (mwrite_0 b d ltac:(lia))). unfold forward. rewrite bind_modify.
    eexists. split; [|done]. unfold mret, ST_ret. do 2 f_equal. fold (past (zlen d) (past 2 (past 1 (set_struck false s)))).
    rewrite !past_past. f_equal; lia.
Qed.

Lemma read_stream_ok b d l s : remains (d ++ l) s -> 0 < zlen d <= zlen b ->
  ReadStream b (zlen d) s = Some ((zlen d, d ++ slice (zlen d) (zlen b - zlen d) b), past (zlen d) s).
Proof.
  intros Hr Hd. unfold ReadStream. rewrite bind_gets. unfold id. rewrite (left_data _ _ Hr), zlen_app.
  zlens. pose proof (rm_size _ _ Hr). destruct (remains_len _ _ Hr) as [Hl ?]. rewrite zlen_app in Hl.
  replace (u64 (zlen d + zlen l) <? zlen d) with false by (rewrite wrapu_small; lia).
  by rewrite (bind_from _ _ _ _ (remains_read _ _ _ Hr)), (bind_from _ _ _ _ (mwrite_0 b d ltac:(lia))).
Qed.
Lemma read_ip_ok v6 a0 a l s : zlen (ip6 a0) = 16 -> zlen a = (if v6 : bool then 16 else 4) ->
  let it := if v6 then IIp6 a else IIp a in
  remains (encode it ++ l) s ->
  ReadIp a0 s = Some ((0, mk_ip (if v6 then AF_INET6 else AF_INET) (a ++ slice (zlen a) (16 - zlen a) (ip6 a0))), behind (encode it) s).
Proof.
  intros H0 Ha it Hr. unfold ReadIp, behind, it in *. destruct v6; cbn [encode app] in *.
  all: destruct (read_type_ok _ _ _ _ Hr) as [E Hl]; try done; rewrite (bind_run _ _ _ _ _ E); cbn [Z.eqb Pos.eqb ENDSTREAM_MARKER_IP ENDSTREAM_MARKER_IP6].
  all: pose proof (read_stream_ok (ip6 a0) a l _ Hl) as Hs; rewrite Ha, H0 in *; rewrite (bind_run _ _ _ _ _ (Hs ltac:(lia))).
  all: cbn [Z.ltb Z.compare]; by rewrite past_past, zlen_cons, Ha.
Qed.

(** The end of a structure. *)
Lemma end_mark_ok l s : remains (NET_STREAM_STRUCT_END_MARK :: l) s ->
  _ReadTypeSize s = Some ((0, None), set_struck true (past 1 s)).
Proof.
  intros Hr. destruct (read8_ok 0 _ _ _ Hr) as [E _]; [done|]. unfold _ReadTypeSize. cbn [read_marker].
  rewrite (bind_run _ _ _ _ _ E). cbn [Z.eqb Pos.eqb NET_STREAM_STRUCT_END_MARK]. rewrite bind_gets. unfold id.
  destruct (rm_skip _ _ Hr) as [K1 K2]. cbn. by rewrite K1, K2.
Qed.
Lemma struct_end_ok fuel l s : remains (NET_STREAM_STRUCT_END_MARK :: l) s ->
  struct_end_loop (S fuel) s = Some (true, set_struck true (past 1 s)).
Proof.
  intros Hr. apply (remains_struck false) in Hr. cbn [struct_end_loop].
  by rewrite bind_modify, (bind_run _ _ _ _ _ (end_mark_ok _ _ Hr)).
Qed.

(** ** Passing over a value *)

Definition is_end (it : item) : bool := match it with IEnd => true | _ => false end.
Definition item_type (it : item) : Z :=
  match it with
  | I8 _ => ENDSTREAM_MARKER_INT8 | I16 _ => ENDSTREAM_MARKER_INT16 | I32 _ => ENDSTREAM_MARKER_INT32
  | I64 _ => ENDSTREAM_MARKER_INT64 | IFloat _ => ENDSTREAM_MARKER_FLOAT | IDouble _ => ENDSTREAM_MARKER_DOUBLE
  | IText _ => ENDSTREAM_MARKER_TEXT | IBin _ => ENDSTREAM_MARKER_BIN | IIp _ => ENDSTREAM_MARKER_IP
  | IIp6 _ => ENDSTREAM_MARKER_IP6 | IEnd => 15
  end.
Lemma item_type_range it : is_end it = false -> 0 <= item_type it < 11.
Proof. by destruct it. Qed.

(** The bytes of a value are its marker and data over which [skip_value] moves. *)
Lemma skip_value_ok it l s : item_ok it -> is_end it = false -> remains (encode it ++ l) s ->
  exists sz d, encode it = marker (item_type it) sz :: d /\ 0 <= sz < 16 /\
    forall s', remains (d ++ l) s' -> skip_value (item_type it) sz s' = Some (Some tt, past (zlen d) s').
Proof.
  intros Hok He Hr. destruct it as [a|a|a|a|a|a|t|d|a|a|]; try done; cbn [item_ok encode item_type] in *.
  1-4: rewrite enc_num_size; exists (num_size a), (be (Z.to_nat (num_size a)) a); split; [done|];
    assert (0 <= num_size a < 16) by (by_size; lia); split; [done|]; intros; rewrite zlen_be, Z2Nat.id by lia; done.
  1-2: case_match; [by exists 0, []|];
    eexists _, _; split; [done|]; split; [lia|]; intros; by rewrite zlen_le_split.
  - destruct Hok as (_ & _ & Hl). destruct t as [|x t0]; [exists 0, []; split; [done|]; split; [done|]; intros s' _; change (zlen []) with 0; by rewrite past_0|].
    set (t := x :: t0) in *. exists 1, (be 2 (zlen t) ++ t ++ [127]). split; [done|]. split; [lia|]. intros s' Hr'.
    rewrite <- app_assoc in Hr'. zlens. destruct (read16_ok 0 _ _ _ Hr') as [E _]; [lia|].
    unfold skip_value. cbn [Z.leb Z.compare Pos.compare Pos.compare_cont Z.eqb Pos.eqb andb orb ENDSTREAM_MARKER_TEXT ENDSTREAM_MARKER_INT8 ENDSTREAM_MARKER_DOUBLE ENDSTREAM_MARKER_IP ENDSTREAM_MARKER_IP6].
    rewrite (bind_run _ _ _ _ _ E). cbn [Z.eqb Pos.eqb]. unfold forward. rewrite bind_modify. unfold mret, ST_ret. do 2 f_equal.
    fold (past (zlen t + 1) (past 2 s')). rewrite past_past. f_equal; zlia.
  - destruct Hok as (_ & Hl). destruct d as [|x d0]; [exists 0, []; split; [done|]; split; [done|]; intros s' _; change (zlen []) with 0; by rewrite past_0|].
    set (d := x :: d0) in *. exists 1, (be 2 (zlen d) ++ d). split; [done|]. split; [lia|]. intros s' Hr'.
    rewrite <- app_assoc in Hr'. zlens. destruct (read16_ok 0 _ _ _ Hr') as [E _]; [lia|].
    unfold skip_value. cbn [Z.leb Z.compare Pos.compare Pos.compare_cont Z.eqb Pos.eqb andb orb ENDSTREAM_MARKER_BIN ENDSTREAM_MARKER_TEXT ENDSTREAM_MARKER_INT8 ENDSTREAM_MARKER_DOUBLE ENDSTREAM_MARKER_IP ENDSTREAM_MARKER_IP6].
    rewrite (bind_run _ _ _ _ _ E). cbn [Z.eqb Pos.eqb]. unfold forward. rewrite bind_modify. unfold mret, ST_ret. do 2 f_equal.
    fold (past (zlen d) (past 2 s')). rewrite past_past. f_equal; zlia.
  - exists 4, a. split; [done|]. split; [lia|]. intros. by rewrite (proj2 Hok).
  - exists 15, a. split; [done|]. split; [lia|]. intros. by rewrite (proj2 Hok).
Qed.

Lemma set_struck_twice a b s : set_struck a (set_struck b s) = set_struck a s.
Proof. done. Qed.
Lemma past_struck n b s : past n (set_struck b s) = set_struck b (past n s).
Proof. done. Qed.

Lemma skip_step fuel it l s : item_ok it -> is_end it = false -> remains (encode it ++ l) s ->
  struct_end_loop (S fuel) s =
    if 0 <? zlen l then struct_end_loop fuel (behind (encode it) s) else Some (false, behind (encode it) s).
Proof.
  intros Hok He Hr. destruct (skip_value_ok it l s Hok He Hr) as (sz & d & Ed & Hs & Hv). unfold behind.
  rewrite Ed in *. apply (remains_struck false) in Hr. pose proof (item_type_range it He) as Ht.
  pose proof (remains_past [_] _ _ Hr) as Hl. cbn [app] in Hr. cbn [struct_end_loop]. rewrite bind_modify.
  rewrite (bind_run _ _ _ _ _ (type_size_ok _ _ _ _ Hr Ht Hs)). cbn [Z.eqb].
  rewrite (bind_run _ _ _ _ _ (Hv _ Hl)), bind_gets. unfold id.
  pose proof (remains_past d l _ Hl) as Hl2. rewrite past_past in *. rewrite <- zlen_app in *. cbn [app] in *.
  rewrite (left_data _ _ Hl2). by destruct (0 <? zlen l).
Qed.

Lemma encode_nonempty it : 0 < zlen (encode it).
Proof. destruct it as [| | | |a|a|t|d| | |]; try (cbn; rewrite ?enc_num_size; zlia); cbn; try case_match; zlia. Qed.

Lemma skip_items fuel its l s : Forall item_ok its -> Forall (fun it => is_end it = false) its ->
  remains (encode_all its ++ l) s -> zlen (encode_all its) < Z.of_nat fuel -> its <> [] ->
  exists k, struct_end_loop fuel s =
    (if decide (l = []) then Some (false, behind (encode_all its) s) else struct_end_loop (S k) (behind (encode_all its) s)).
Proof.
  revert fuel s. induction its as [|it its IH]; [done|]. intros fuel s Hok Hne Hr Hf _.
  inversion_clear Hok as [|? ? Hi Hok']. inversion_clear Hne as [|? ? He Hne'].
  change (encode_all (it :: its)) with (encode it ++ encode_all its) in *. rewrite <- app_assoc in Hr.
  pose proof (encode_nonempty it). destruct fuel as [|fuel]; [zlens; lia|].
  rewrite (skip_step fuel it _ _ Hi He Hr). rewrite zlen_app in Hf.
  assert (remains (encode_all its ++ l) (behind (encode it) s)) as Hr' by (apply remains_past, remains_struck, Hr).
  destruct its as [|it2 its].
  - change (encode_all []) with (@nil Z) in *. rewrite app_nil_r. cbn [app] in *. change (zlen []) with 0 in Hf.
    case_decide as Hd; [subst; by exists O|]. destruct l as [|x l]; [done|].
    destruct fuel as [|fuel]; [lia|]. exists fuel. by replace (0 <? zlen (x :: l)) with true by zlia.
  - destruct (IH fuel (behind (encode it) s)) as (k & E); try done; [lia|]. exists k.
    assert (behind (encode_all (it2 :: its)) (behind (encode it) s) = behind (encode it ++ encode_all (it2 :: its)) s) as Eb.
    { unfold behind. by rewrite !past_struck, set_struck_twice, past_past, zlen_app. }
    rewrite Eb in E. rewrite <- E. pose proof (encode_nonempty it2). change (encode_all (it2 :: its)) with (encode it2 ++ encode_all its).
    replace (0 <? _) with true by zlia. done.
Qed.

Lemma type_size_end s : r_end s <= r_op s -> _ReadTypeSize s = Some ((-1, None), s).
Proof.
  intros He. assert (_ReadOrg8 0 s = Some ((-1, 0), s)) as E.
  { unfold _ReadOrg8, read_org. rewrite bind_gets. unfold id. by replace (r_op s + 1 <=? r_end s) with false by lia. }
  unfold _ReadTypeSize. cbn [read_marker]. by rewrite (bind_run _ _ _ _ _ E).
Qed.

(** C38: [TrytoMoveStructEnd] passes over any values to the end of the structure and
    behind it; when the values run to the end of the stream without one it returns false
    and the position is as before. *)
Theorem proto_struct_skip its l s : Forall item_ok its -> Forall (fun it => is_end it = false) its ->
  m_bStruckEndMarker s = false ->
  (remains (encode_all its ++ NET_STREAM_STRUCT_END_MARK :: l) s ->
     TrytoMoveStructEnd s = Some (true, set_struck true (past (zlen (encode_all its) + 1) s)) /\
     remains l (past (zlen (encode_all its) + 1) s)) /\
  (remains (encode_all its) s -> exists s', TrytoMoveStructEnd s = Some (false, s') /\ r_op s' = r_op s).
Proof.
  intros Hok Hne Hst. unfold TrytoMoveStructEnd. rewrite bind_gets. unfold id. rewrite Hst. split; intros Hr.
  - destruct (rm_skip _ _ Hr) as [-> ->]. cbn [orb]. split.
    2:{ pose proof (remains_past (encode_all its ++ [NET_STREAM_STRUCT_END_MARK]) l s) as H. rewrite zlen_app in H. apply H. by rewrite <- app_assoc. }
    destruct (remains_len _ _ Hr) as [He _]. rewrite zlen_app in He.
    assert (exists k, struct_end_loop (S (Z.to_nat (r_end s - r_op s))) s =
      struct_end_loop (S k) (behind (encode_all its) s)) as (k & E).
    { destruct its as [|it its]; [|destruct (skip_items (S (Z.to_nat (r_end s - r_op s))) _ _ _ Hok Hne Hr) as (k & E); [zlens; lia|done|by exists k]].
      eexists. unfold behind. change (zlen (encode_all [])) with 0. rewrite past_0. cbn [struct_end_loop]. by rewrite !bind_modify. }
    assert (remains (NET_STREAM_STRUCT_END_MARK :: l) (behind (encode_all its) s)) as Hb by (apply remains_past, remains_struck, Hr).
    rewrite (struct_end_ok _ _ _ Hb) in E. rewrite (bind_run _ _ _ _ _ E). unfold behind. by rewrite past_past, past_struck.
  - destruct (rm_skip _ _ Hr) as [-> ->]. cbn [orb]. destruct (remains_len _ _ Hr) as [He _].
    assert (exists s1, struct_end_loop (S (Z.to_nat (r_end s - r_op s))) s = Some (false, s1)) as (s1 & E).
    { destruct its as [|it its].
      - exists (set_struck false s). change (zlen (encode_all [])) with 0 in He. cbn [struct_end_loop]. rewrite bind_modify.
        by rewrite (bind_run _ _ _ _ _ (type_size_end (set_struck false s) ltac:(cbn; lia))).
      - rewrite <- (app_nil_r (encode_all (it :: its))) in Hr. eexists.
        destruct (skip_items (S (Z.to_nat (r_end s - r_op s))) _ _ _ Hok Hne Hr) as (k & E); [zlens; lia|done|].
        rewrite decide_True in E by done. done. }
    rewrite (bind_run _ _ _ _ _ E), bind_modify. by eexists.
Qed.

(** ** Reading values *)

Definition number (make : Z -> item) (m : R (Z * Z)) : R (option item) :=
  '(r, a) ← m; mret (if r =? 0 then Some (make a) else None).
(** The value read by the function for values like [it], into the variables of the caller. *)
Definition read_item (b : mem) (a0 : ndip_t) (it : item) : R (option item) :=
  match it with
  | I8 _ => number I8 (Read8 0)
  | I16 _ => number I16 (Read16 0)
  | I32 _ => number I32 (Read32 0)
  | I64 _ => number I64 (Read64 0)
  | IFloat _ => number IFloat (ReadFloat 0)
  | IDouble _ => number IDouble (ReadDouble 0)
  | IText _ => '(n, b) ← ReadText b (zlen b); mret (Some (IText (slice 0 n b)))
  | IBin _ => '(n, b) ← ReadBin b (zlen b); mret (Some (IBin (slice 0 n b)))
  | IIp _ | IIp6 _ =>
      '(r, a) ← ReadIp a0;
      mret (if r =? 0 then Some (if sin_family a =? AF_INET then IIp (slice 0 4 (ip6 a)) else IIp6 (ip6 a)) else None)
  | IEnd => BeginReadStruct;; b ← TrytoMoveStructEnd; mret (if b : bool then Some IEnd else None)
  end.
Fixpoint read_items (b : mem) (a0 : ndip_t) (its : list item) : R (list (option item)) :=
  match its with
  | [] => mret []
  | it :: its => x ← read_item b a0 it; l ← read_items b a0 its; mret (x :: l)
  end.

Lemma number_ok make m a s s' : m s = Some ((0, a), s') -> number make m s = Some (Some (make a), s').
Proof. intros E. unfold number. by rewrite (bind_run _ _ _ _ _ E). Qed.

Lemma move_end_ok l s : remains (NET_STREAM_STRUCT_END_MARK :: l) s -> m_bStruckEndMarker s = false ->
  TrytoMoveStructEnd s = Some (true, set_struck true (past 1 s)).
Proof.
  intros Hr Hst. unfold TrytoMoveStructEnd. rewrite bind_gets. unfold id. rewrite Hst.
  destruct (rm_skip _ _ Hr) as [-> ->]. cbn [orb]. by rewrite (bind_run _ _ _ _ _ (struct_end_ok _ _ _ Hr)).
Qed.
Lemma read_item_ok b a0 it l s : item_ok it -> zlen b = 0x10000 -> zlen (ip6 a0) = 16 -> remains (encode it ++ l) s ->
  read_item b a0 it s = Some (Some (norm it), set_struck (is_end it) (past (zlen (encode it)) s)).
Proof.
  intros Hok Hb Ha Hr.
  destruct it as [a|a|a|a|a|a|t|d|a|a|]; cbn [read_item norm is_end].
  - apply number_ok. apply (read_packed _ _ a _ l); try done; cbn in Hok; [|lia]. intros. unfold num_size. by_size; done || lia.
  - apply number_ok. apply (read_packed _ _ a _ l); try done; cbn in Hok; [|lia]. intros. unfold num_size. by_size; done || lia.
  - apply number_ok. apply (read_packed _ _ a _ l); try done; cbn in Hok; [|lia]. intros. unfold num_size. by_size; done || lia.
  - apply number_ok. apply (read_packed _ _ a _ l); try done; cbn in Hok; try lia. intros. unfold num_size. by_size; done || lia.
  - erewrite number_ok; [|apply (read_bits 31 4 _ _ a _ l) with (load := fun m p => d ← mread m p 4; Some (le_combine d)); try done; cbn in Hok; lia].
    unfold behind. by destruct (wrapu 31 a =? 0) eqn:E0; cbn [encode]; rewrite ?E0.
  - erewrite number_ok; [|apply (read_bits 63 8 _ _ a _ l) with (load := fun m p => d ← mread m p 8; Some (le_combine d)); try done; cbn in Hok; lia].
    unfold behind. by destruct (wrapu 63 a =? 0) eqn:E0; cbn [encode]; rewrite ?E0.
  - destruct (read_text_ok b t l s Hok) as (b' & E & Eb); [cbn in Hok; lia|done|]. rewrite (bind_run _ _ _ _ _ E). subst b'.
    by rewrite slice_app_l, slice_all by zlia.
  - destruct (read_bin_ok b d l s Hok) as (b' & E & Eb); [cbn in Hok; lia|done|]. rewrite (bind_run _ _ _ _ _ E). subst b'.
    by rewrite slice_app_l, slice_all by zlia.
  - pose proof (read_ip_ok false a0 a l s Ha (proj2 Hok) Hr) as E. rewrite (bind_run _ _ _ _ _ E). destruct Hok as [_ La].
    cbn. by rewrite slice_app_l, slice_all by zlia.
  - pose proof (read_ip_ok true a0 a l s Ha (proj2 Hok) Hr) as E. rewrite (bind_run _ _ _ _ _ E). destruct Hok as [_ La].
    cbn. rewrite La. by rewrite slice_0, app_nil_r.
  - apply (remains_struck false) in Hr. unfold BeginReadStruct. rewrite bind_modify.
    by rewrite (bind_run _ _ _ _ _ (move_end_ok _ _ Hr eq_refl)).
Qed.

Lemma read_items_ok b a0 its l s : Forall item_ok its -> zlen b = 0x10000 -> zlen (ip6 a0) = 16 -> remains (encode_all its ++ l) s ->
  exists s', read_items b a0 its s = Some (map (fun it => Some (norm it)) its, s') /\
    remains l s' /\ r_op s' = r_op s + zlen (encode_all its).
Proof.
  intros Hok Hb Ha. revert s. induction Hok as [|it its Hi _ IH]; intros s Hr.
  { exists s. split; [done|]. split; [done|]. change (zlen (encode_all [])) with 0. lia. }
  change (encode_all (it :: its)) with (encode it ++ encode_all its) in *. rewrite <- app_assoc in Hr.
  pose proof (read_item_ok b a0 it _ s Hi Hb Ha Hr) as E.
  destruct (IH _ (remains_struck (is_end it) _ _ (remains_past _ _ _ Hr))) as (s' & E' & Hr' & Eo).
  exists s'. split; [|split; [done|]].
  - cbn [read_items map]. by rewrite (bind_run _ _ _ _ _ E), (bind_run _ _ _ _ _ E').
  - rewrite Eo, zlen_app. cbn. lia.
Qed.

(** ** Messages *)

(** The length field of a message is kept by [onWriteStream]; the rest of the header is
    [ids]. *)
#[export] Program Instance msg_stream (ids : list Z) : StreamHook ND_USERMSG_HDRLEN := {|
  sh_hook := msg_onWriteStream;
  sh_inv k m := slice 0 ND_USERMSG_HDRLEN m = le_split 2 (u16 (ND_USERMSG_HDRLEN + k)) ++ ids
|}.
Next Obligation. intros ids k m m' H E _. cbn in *. by rewrite E. Qed.
Next Obligation.
  intros ids k n m Hi Hl. cbn beta in *. change ND_USERMSG_HDRLEN with 6 in *.
  assert (slice 0 2 m = le_split 2 (u16 (6 + k))) as H2.
  { rewrite <- (slice_slice 0 6 0 2 m : _ -> _ -> _ -> _ -> _ = slice 0 2 m), Hi by lia. rewrite slice_app_l by (rewrite ?zlen_le_split; lia).
    by rewrite slice_all. }
  destruct (store_u_ex 2 m 0 (u16 (u16 (6 + k) + u16 n))) as (m' & E & Lm); [lia|lia|].
  exists m'. unfold onWriteStream, msg_onWriteStream, MsgLength. rewrite load_u_ok by lia. change (Z.of_nat 2) with 2.
  rewrite H2. cbn [mbind option_bind]. rewrite le_combine_split by (apply wrapu_range; lia).
  split; [done|]. split; [done|]. assert (zlen (le_split 2 (u16 (u16 (6 + k) + u16 n))) = 2) as L2 by done. split.
  - rewrite (slice_split 0 2 4) by lia. rewrite <- L2 at 1. erewrite slice_mwrite_same by exact E.
    erewrite slice_mwrite_after by (exact E || lia). f_equal.
    + rewrite wrapu_add_l, wrapu_add_r by lia. do 2 f_equal. lia.
    + rewrite (slice_split 0 2 4), H2 in Hi by lia. by apply app_inj_1 in Hi as [_ ?].
  - erewrite slice_mwrite_after by (exact E || lia). done.
Qed.

(** A stream that is not in a message, in a block that begins with [h]. *)
#[export] Program Instance base_stream (h : list Z) (lo : Z) : StreamHook lo := {|
  sh_hook := base_onWriteStream;
  sh_inv k m := slice 0 lo m = h
|}.
Next Obligation. intros h lo k m m' H E _. cbn in *. by rewrite E. Qed.
Next Obligation. intros h lo k n m Hi Hl. by exists m. Qed.

Lemma mset_header a rest k x a' : 0 <= k < zlen a -> mset a k x = Some a' -> mset (a ++ rest) k x = Some (a' ++ rest).
Proof.
  intros Hk E. unfold mset in *. pose proof (mwrite_mid [] a rest k [x]) as H. change (zlen []) with 0 in H.
  rewrite Z.add_0_l in H. cbn [app] in H. rewrite H, E; [done|lia|]. change (zlen [x]) with 1. lia.
Qed.

(** The block of a new message. *)
Lemma new_message maxid minid : exists s, NDSendMsg_new maxid minid = Some s /\
  written (lo := ND_USERMSG_HDRLEN) (HS := msg_stream [NDNETMSG_VERSION; 0; u8 maxid; u8 minid]) ND_PACKET_SIZE [] [] s.
Proof.
  assert (exists r, zrepeat 0 ND_PACKET_SIZE = [0; 0; 0; 0; 0; 0; 0] ++ r /\ zlen r = 0x10000 - 7) as (r & Er & Lr).
  { exists (zrepeat 0 (0x10000 - 7)). split; [|by rewrite zlen_repeat by lia].
    unfold zrepeat. change (Z.to_nat ND_PACKET_SIZE) with (7 + Z.to_nat (0x10000 - 7))%nat. by rewrite repeat_app. }
  assert (forall a d k a', 0 <= k -> k + zlen d <= zlen a -> mwrite a k d = Some a' -> mwrite (a ++ r) k d = Some (a' ++ r)) as Hw.
  { intros a d k a' H0 H1 E. pose proof (mwrite_mid [] a r k d) as H. change (zlen []) with 0 in H. cbn [app] in H.
    rewrite Z.add_0_l in H. by rewrite H, E by lia. }
  assert (NDSendMsg_create = Some (NDProtoWriteStream_Init ([6; 0; 2; 0; 0; 0; 0] ++ r) 6 0x10000)) as Ec.
  { unfold NDSendMsg_create, nd_usermsghdr_init, store_u, mset. rewrite Er.
    erewrite Hw; [|lia|by vm_compute|by vm_compute]. cbn [mbind option_bind].
    erewrite Hw; [|lia|by vm_compute|by vm_compute]. cbn [mbind option_bind].
    erewrite Hw; [|lia|by vm_compute|by vm_compute]. cbn [mbind option_bind].
    by erewrite Hw; [|done|by vm_compute|by vm_compute]. }
  unfold NDSendMsg_new, SetID. rewrite Ec. clear Er Ec Hw. generalize (u8 maxid) (u8 minid). intros x y.
  cbn [mbind option_bind w_mem NDProtoWriteStream_Init].
  assert (mset ([6; 0; 2; 0; 0; 0; 0] ++ r) msg_maxid_off x = Some ([6; 0; 2; 0; x; 0; 0] ++ r)) as ->
    by (apply mset_header; by vm_compute).
  assert (mset ([6; 0; 2; 0; x; 0; 0] ++ r) msg_minid_off y = Some ([6; 0; 2; 0; x; y; 0] ++ r)) as Em
    by (apply mset_header; by vm_compute).
  cbn [mbind option_bind]. rewrite Em. cbn [mbind option_bind].
  eexists. split; [done|]. split; cbn [w_start w_op w_end w_mem set_w_mem]; try done.
  exists [6; 0; 2; 0; x; y], (0 :: r). split; [by rewrite app_nil_r|]. split; [done|].
  rewrite zlen_cons, Lr. done.
Qed.

Lemma written_message ids c s : written (lo := ND_USERMSG_HDRLEN) (HS := msg_stream ids) ND_PACKET_SIZE [] c s ->
  zlen ids = 4 ->
  MsgLength (w_mem s) = Some (u16 (ND_USERMSG_HDRLEN + zlen c)) /\ slice 2 4 (w_mem s) = ids /\
  (zlen c < ND_PACKET_SIZE - ND_USERMSG_HDRLEN -> exists r, NDRecvMsg_Init (w_mem s) = Some r /\ remains c r /\
     m_bStruckEndMarker r = false).
Proof.
  intros [_ _ _ _ Hroom (h & rest & Em & Lh & Lr) _ Hi] Li. cbn [sh_inv msg_stream] in Hi. change ND_USERMSG_HDRLEN with 6 in *.
  change ND_PACKET_SIZE with 0x10000 in *. rewrite app_nil_r in Em.
  rewrite Em, slice_app_l, slice_all in Hi by lia. zlens. rewrite Em, Hi. assert (zlen (le_split 2 (u16 (6 + zlen c))) = 2) as L2 by done.
  assert (MsgLength ((le_split 2 u16 (6 + zlen c) ++ ids) ++ c ++ rest) = Some (u16 (6 + zlen c))) as El.
  { unfold MsgLength, load_u. rewrite mread_ok by (rewrite ?zlen_app; lia). rewrite <- app_assoc, slice_app_l, slice_all by (rewrite ?zlen_app; lia).
    cbn [mbind option_bind]. rewrite le_combine_split; [done|]. apply wrapu_range. lia. }
  split; [done|]. split.
  { rewrite <- app_assoc, slice_app_r by lia. rewrite L2, slice_app_l by lia. by apply slice_all. }
  intros Hc. eexists. unfold NDRecvMsg_Init. rewrite El. split; [done|]. split; [|done]. split; cbn; [|rewrite wrapu_small; lia|done].
  exists (le_split 2 (u16 (6 + zlen c)) ++ ids), rest. rewrite zlen_app, L2, Li. split; [done|]. rewrite wrapu_small by lia.
  change ND_USERMSG_HDRLEN with 6. lia.
Qed.

(** C5: values that fit into a message are written to it and read back from it by the
    receiver, in order and unchanged except for the sign of a floating-point zero, up to the end of
    the message; the message has its id and its length.  A message that is full to the last
    byte has the length 0. *)
Theorem proto_message_roundtrip its maxid minid b a0 : Forall item_ok its ->
  zlen (encode_all its) <= ND_PACKET_SIZE - ND_USERMSG_HDRLEN -> zlen b = 0x10000 -> zlen (ip6 a0) = 16 ->
  exists s s', NDSendMsg_new maxid minid = Some s /\ write_items (H := msg_onWriteStream) its s = Some (0, s') /\
    slice 2 4 (w_mem s') = [NDNETMSG_VERSION; 0; u8 maxid; u8 minid] /\
    (zlen (encode_all its) < ND_PACKET_SIZE - ND_USERMSG_HDRLEN ->
       MsgLength (w_mem s') = Some (ND_USERMSG_HDRLEN + zlen (encode_all its)) /\
       exists r r', NDRecvMsg_Init (w_mem s') = Some r /\
         read_items b a0 its r = Some (map (fun it => Some (norm it)) its, r') /\ CheckReachedEnd r' = true) /\
    (zlen (encode_all its) = ND_PACKET_SIZE - ND_USERMSG_HDRLEN -> MsgLength (w_mem s') = Some 0).
Proof.
  intros Hok Hl Hb Ha. destruct (new_message maxid minid) as (s & Es & Ws). exists s.
  destruct (write_items_puts _ _ _ _ _ Ws Hok) as (r & s' & Ew & Hr0 & Ww). assert (r = 0) as ->.
  { apply Hr0. unfold free. change (zlen []) with 0. change ND_USERMSG_HDRLEN with 6 in *. lia. }
  specialize (Ww eq_refl). cbn [app] in Ww. destruct (written_message _ _ _ Ww) as (HL & Hids & HR); [done|]. exists s'.
  change ND_USERMSG_HDRLEN with 6 in *. change ND_PACKET_SIZE with 0x10000 in *. zlens.
  split; [done|]. split; [done|]. split; [done|]. split.
  - intros Hlt. split; [rewrite HL, wrapu_small by lia; reflexivity|]. destruct (HR Hlt) as (r & Er & Hrem & _). exists r.
    rewrite <- (app_nil_r (encode_all its)) in Hrem. destruct (read_items_ok b a0 its [] r Hok Hb Ha Hrem) as (r' & E & Hrem' & _).
    exists r'. split; [done|]. split; [done|]. unfold CheckReachedEnd. by rewrite (left_data _ _ Hrem').
  - intros Heq. by rewrite HL, Heq.
Qed.

(** ** Instances *)

Definition sample : list item := [I32 70000; IText [104; 105]; IFloat 0x80000000; IBin [0; 255]; IIp [127; 0; 0; 1]; IEnd].
Lemma sample_ok : Forall item_ok sample.
Proof. repeat constructor; done. Qed.
Lemma proto_message_roundtrip_witness :
  Forall item_ok sample /\ zlen (encode_all sample) = 23 /\
  exists s s', NDSendMsg_new 3 5 = Some s /\ write_items (H := msg_onWriteStream) sample s = Some (0, s') /\
    MsgLength (w_mem s') = Some 29 /\
    exists r r', NDRecvMsg_Init (w_mem s') = Some r /\
      read_items (zrepeat 0 0x10000) (mk_ip 0 (zrepeat 0 16)) sample r =
        Some (map Some [I32 70000; IText [104; 105]; IFloat 0; IBin [0; 255]; IIp [127; 0; 0; 1]; IEnd], r').
Proof.
  split; [exact sample_ok|]. split; [reflexivity|].
  destruct (proto_message_roundtrip sample 3 5 (zrepeat 0 0x10000) (mk_ip 0 (zrepeat 0 16)) sample_ok) as (s & s' & E1 & E2 & _ & H & _).
  - vm_compute. discriminate.
  - apply zlen_repeat. discriminate.
  - reflexivity.
  - exists s, s'. split; [exact E1|]. split; [exact E2|]. destruct H as (HL & r & r' & E3 & E4 & _); [reflexivity|].
    split; [exact HL|]. exists r, r'. split; [exact E3|]. exact E4.
Defined.

(** A structure of three values, two of which a reader does not know. *)
Definition known : list item := [I8 7; IText [104; 105]; I64 5].
Definition struct_reader : NDProtoReadStream :=
  NDProtoReadStream_Init (encode_all known ++ [NET_STREAM_STRUCT_END_MARK; 0x11; 9]) 0 (zlen (encode_all known) + 3).
Lemma proto_struct_skip_witness :
  TrytoMoveStructEnd struct_reader = Some (true, set_struck true (past 11 struct_reader)).
Proof.
  apply (proto_struct_skip known [0x11; 9] struct_reader).
  - repeat constructor; done.
  - repeat constructor; done.
  - reflexivity.
  - split; [|reflexivity|split; reflexivity]. exists [], []. split; [reflexivity|]. split; reflexivity.
Defined.

(** The end of the structure around is not passed over as well, unless [BeginReadStruct] is
    called in between: the flag of the first end is still set. *)
Example second_end_not_passed :
  let s := NDProtoReadStream_Init [0xff; 0xff; 0x11; 9] 0 4 in
  (x ← TrytoMoveStructEnd; y ← TrytoMoveStructEnd; p ← gets r_op; mret (x, y, p)) s =
    Some ((true, true, 1), set_struck true (past 1 s)).
Proof. reflexivity. Qed.
