(* ===== verification/ProtoSafe.v ===== *)
(** * ProtoSafe: bounds and errors of streams

    What [encode] does not say: reading any bytes with an operation stays inside the stream
    (sequences of operations are in ProtoReads); writing changes nothing outside it, and what
    a failed write leaves behind. *)

From S2P Require Import Prelude Bytes Packet ProtoStream ProtoRound.

(** ** Writing *)

Lemma written_start s : 0 <= w_start s <= w_op s -> w_op s <= w_end s <= zlen (w_mem s) -> w_end s < 2 ^ 31 ->
  written (lo := w_start s) (HS := base_stream (slice 0 (w_start s) (w_mem s)) (w_start s)) (w_end s)
    (slice (w_end s) (zlen (w_mem s) - w_end s) (w_mem s)) (slice (w_start s) (w_op s - w_start s) (w_mem s)) s.
Proof.
  intros H1 H2 H3. assert (zlen (slice (w_start s) (w_op s - w_start s) (w_mem s)) = w_op s - w_start s) as L by (apply zlen_slice; lia).
  split; rewrite ?L; try done; try lia.
  exists (slice 0 (w_start s) (w_mem s)), (slice (w_op s) (w_end s - w_op s) (w_mem s)).
  split; [|rewrite !zlen_slice by lia; lia].
  rewrite (slice_take_drop (w_start s) (w_mem s)) at 1 by lia. f_equal.
  replace (zlen (w_mem s) - w_start s) with ((w_op s - w_start s) + (zlen (w_mem s) - w_op s)) by lia.
  rewrite slice_split by lia. f_equal. replace (w_start s + (w_op s - w_start s)) with (w_op s) by lia.
  replace (zlen (w_mem s) - w_op s) with ((w_end s - w_op s) + (zlen (w_mem s) - w_end s)) by lia.
  rewrite slice_split by lia. do 2 f_equal. lia.
Qed.

(** The bytes that a value leaves in [room] bytes that are too few for it. *)
Definition stray (it : item) (room : Z) : list Z :=
  match it with
  | IBin d => if (zlen d <? room) && (1 <=? room) then [hd 0 (encode it)] else []
  | _ => if 1 <=? room then [hd 0 (encode it)] else []
  end.

Lemma write_item_exact it s : item_ok it ->
  0 <= w_start s <= w_op s -> w_op s <= w_end s <= zlen (w_mem s) -> w_end s < 2 ^ 31 ->
  let room := w_end s - w_op s in
  let d := if zlen (encode it) <=? room then encode it else stray it room in
  exists m, write_item (H := base_onWriteStream) it s =
      Some (if zlen (encode it) <=? room then 0 else -1, mk_ws m (w_start s) (w_op s + zlen d) (w_end s)) /\
    zlen m = zlen (w_mem s) /\ slice 0 (w_op s) m = slice 0 (w_op s) (w_mem s) /\ slice (w_op s) (zlen d) m = d /\
    slice (w_end s) (zlen m - w_end s) m = slice (w_end s) (zlen m - w_end s) (w_mem s).
Proof.
  intros Hok H1 H2 H3 room d. pose proof (write_item_puts _ _ it _ _ (written_start s H1 H2 H3) Hok) as Hp.
  set (c := slice (w_start s) (w_op s - w_start s) (w_mem s)) in *. set (T := slice (w_end s) _ (w_mem s)) in *.
  assert (zlen c = w_op s - w_start s) as Lc by (apply zlen_slice; lia).
  assert (free (lo := w_start s) (w_end s) c = room) as Ef by (unfold free, room; lia).
  assert (exists s', write_item (H := base_onWriteStream) it s = Some (if zlen (encode it) <=? room then 0 else -1, s') /\
    written (lo := w_start s) (HS := base_stream (slice 0 (w_start s) (w_mem s)) (w_start s)) (w_end s) T (c ++ d) s') as (s' & E & W).
  { unfold puts in Hp. rewrite Ef in Hp. unfold d. destruct (Z.leb_spec (zlen (encode it)) room); destruct Hp as (s' & E & W); exists s'; split; try done.
    replace (stray it room) with (left_over (lo := w_start s) (w_end s) it c); [done|].
    unfold left_over, stray, lone. rewrite Ef. destruct it; try done. by destruct (zlen d0 <? room), (1 <=? room). }
  destruct W as [_ Es Eo Ee Er (h & rest & Em & Lh & Lr) _ Hi]. cbn [sh_inv base_stream] in Hi.
  exists (w_mem s'). rewrite E. destruct s' as [m' st op en]. cbn [w_mem w_start w_op w_end] in *. subst st en op.
  rewrite zlen_app in *. split; [do 3 f_equal; lia|].
  assert (zlen T = zlen (w_mem s) - w_end s) as LT by (apply zlen_slice; lia).
  assert (h = slice 0 (w_start s) (w_mem s)) as Hh by (rewrite <- Hi, Em, slice_app_l, slice_all by lia; done).
  assert (zlen m' = zlen (w_mem s)) as Lm by (rewrite Em, !zlen_app; lia).
  split; [done|]. rewrite Lm. rewrite Em, <- !app_assoc. split.
  { replace (w_op s) with (w_start s + (w_op s - w_start s)) by lia. rewrite !(slice_split 0) by lia. rewrite Z.add_0_l.
    rewrite slice_app_l, slice_app_r, Lh, Z.sub_diag by lia. rewrite slice_app_l by lia.
    rewrite Hh at 1. rewrite (slice_all c) by lia. f_equal. apply slice_all. rewrite zlen_slice; lia. }
  split.
  { rewrite slice_app_r, slice_app_r by lia. replace (w_op s - zlen h - zlen c) with 0 by lia. rewrite slice_app_l by zlia. by apply slice_all. }
  rewrite slice_app_r, slice_app_r, slice_app_r, slice_app_r by zlia. replace (_ - zlen h - zlen c - zlen d - zlen rest) with 0 by lia.
  by apply slice_all.
Qed.

(** C17: a value is written completely when the rest of the stream has room for its bytes;
    otherwise -1 is returned, and its marker, which the reader will take for a value, stays in the
    stream when there is room for that.  What is before in the stream and everything outside
    the stream are not changed. *)
Theorem proto_write_exact it s : item_ok it ->
  0 <= w_start s <= w_op s -> w_op s <= w_end s <= zlen (w_mem s) -> w_end s < 2 ^ 31 ->
  let room := w_end s - w_op s in
  let d := if zlen (encode it) <=? room then encode it else stray it room in
  exists m, write_item (H := base_onWriteStream) it s =
      Some (if zlen (encode it) <=? room then 0 else -1, mk_ws m (w_start s) (w_op s + zlen d) (w_end s)) /\
    zlen m = zlen (w_mem s) /\ slice 0 (w_op s) m = slice 0 (w_op s) (w_mem s) /\ slice (w_op s) (zlen d) m = d /\
    slice (w_end s) (zlen m - w_end s) m = slice (w_end s) (zlen m - w_end s) (w_mem s).
Proof. apply write_item_exact. Qed.

(** ** Reading *)

(** The operation returns and the result satisfies [Q]. *)
Definition runs {S A} (m : ST S A) (s : S) (Q : A -> S -> Prop) : Prop := exists x s', m s = Some (x, s') /\ Q x s'.
Lemma runs_bind {S A B} (m : ST S A) (f : A -> ST S B) s (Q : B -> S -> Prop) :
  runs m s (fun x s' => runs (f x) s' Q) -> runs (m ≫= f) s Q.
Proof. intros (x & s' & E & y & s2 & E2 & HQ). exists y, s2. by rewrite (bind_run _ _ _ _ _ E). Qed.
Lemma runs_after {S A B} (m : ST S A) (f : A -> ST S B) s x s' (Q : B -> S -> Prop) :
  m s = Some (x, s') -> runs (f x) s' Q -> runs (m ≫= f) s Q.
Proof. intros E H. unfold runs. by rewrite (bind_run _ _ _ _ _ E). Qed.
Lemma runs_ret {S A} (x : A) (s : S) (Q : A -> S -> Prop) : Q x s -> runs (mret x) s Q.
Proof. intros H. by exists x, s. Qed.
Lemma runs_gets {S A B} (g : S -> A) (f : A -> ST S B) s (Q : B -> S -> Prop) : runs (f (g s)) s Q -> runs (gets g ≫= f) s Q.
Proof. done. Qed.
Lemma runs_modify {S B} g (f : unit -> ST S B) s (Q : B -> S -> Prop) : runs (f tt) (g s) Q -> runs (modify g ≫= f) s Q.
Proof. done. Qed.
Lemma runs_from {S A B} (x : option A) (f : A -> ST S B) s (Q : B -> S -> Prop) :
  (exists y, x = Some y /\ runs (f y) s Q) -> runs (from (fun _ => x) ≫= f) s Q.
Proof. intros (y & -> & H). done. Qed.
Lemma runs_mono {S A} (m : ST S A) s (P Q : A -> S -> Prop) :
  runs m s P -> (forall x s', P x s' -> Q x s') -> runs m s Q.
Proof. intros (x & s' & E & H) HPQ. exists x, s'. auto. Qed.

(** The stream ends inside the block; only [TrytoMoveStructEnd] moves behind its end, and comes back. *)
Record rs_ok (s : NDProtoReadStream) : Prop := {
  ok_start : 0 <= r_start s <= r_end s;
  ok_op : 0 <= r_op s;
  ok_end : r_end s <= zlen (r_mem s);
  ok_size : r_end s < 2 ^ 31
}.
Definition same_stream (s s' : NDProtoReadStream) : Prop :=
  r_mem s' = r_mem s /\ r_start s' = r_start s /\ r_end s' = r_end s.
(** From [s] the operation has come to [s'], not behind the end. *)
Definition step_to (s s' : NDProtoReadStream) : Prop :=
  rs_ok s' /\ same_stream s s' /\ r_op s <= r_op s' /\ (r_op s <= r_end s -> r_op s' <= r_end s').

Lemma step_refl s : rs_ok s -> step_to s s.
Proof. intros. repeat split; lia || apply H. Qed.
Lemma step_trans s1 s2 s3 : step_to s1 s2 -> step_to s2 s3 -> step_to s1 s3.
Proof.
  intros (_ & (E1 & E2 & E3) & L1 & B1) (O & (F1 & F2 & F3) & L2 & B2). split; [done|].
  split; [unfold same_stream; by rewrite F1, F2, F3|]. split; [lia|]. intros H. apply B2. auto.
Qed.
Lemma step_in s s' : step_to s s' -> rs_ok s'.
Proof. by intros []. Qed.

Lemma in_block s n m : rs_ok s -> r_op s + n <= r_end s -> m = r_mem s -> 0 <= n -> mread m (r_op s) n = Some (slice (r_op s) n m).
Proof. intros [] ? -> ?. apply mread_ok; lia. Qed.

(** A word of [n] bytes: read, or -1 at the same place. *)
Definition word_read (n a : Z) (P : Z -> Prop) (s : NDProtoReadStream) (x : Z * Z) (s' : NDProtoReadStream) : Prop :=
  step_to s s' /\ ((x.1 = 0 /\ P x.2 /\ r_op s' = r_op s + n /\ r_op s' <= r_end s /\ m_bStruckEndMarker s' = m_bStruckEndMarker s) \/ (x = (-1, a) /\ s' = s)).
Lemma past_step s n : rs_ok s -> 0 <= n -> r_op s + n <= r_end s -> step_to s (past n s).
Proof. intros [] ??. split; [by split; cbn; try lia|]. split; [done|]. cbn. lia. Qed.
Lemma read_org_runs n load a (P : Z -> Prop) s : rs_ok s -> 0 <= n ->
  (r_op s + n <= r_end s -> exists v, load (r_mem s) (r_op s) = Some v /\ P v) ->
  runs (read_org n load a) s (word_read n a P s).
Proof.
  intros Hs Hn Hl. unfold read_org. apply runs_gets. unfold id. destruct (Z.leb_spec (r_op s + n) (r_end s)) as [Hf|Hf].
  - destruct (Hl Hf) as (v & Ev & Pv). apply runs_from. exists v. split; [done|]. apply runs_modify, runs_ret.
    split; [by apply past_step|]. left. cbn. auto with lia.
  - apply runs_ret. split; [by apply step_refl|]. by right.
Qed.

Definition any (_ : Z) : Prop := True.
Lemma get_in s k : rs_ok s -> 0 <= k -> r_op s + k + 1 <= r_end s -> exists b, mget (r_mem s) (r_op s + k) = Some b.
Proof.
  intros [] ??. unfold mget. rewrite (proj2 (in_range_spec _ _ _)) by lia.
  apply lookup_lt_is_Some. unfold zlen in *. lia.
Qed.
Lemma read8_runs a s : rs_ok s -> runs (_ReadOrg8 a) s (word_read 1 a (fun v => 0 <= v < 256) s).
Proof.
  intros Hs. apply read_org_runs; [done|lia|]. intros Hf. destruct (get_in s 0 Hs) as (b & E); [lia|lia|].
  rewrite Z.add_0_r in E. rewrite E. eexists. split; [done|]. apply (wrapu_range 8). lia.
Qed.
Lemma read16_runs a s : rs_ok s -> runs (_ReadOrg16 a) s (word_read 2 a (fun v => 0 <= v < 2 ^ 16) s).
Proof.
  intros Hs. apply read_org_runs; [done|lia|]. intros Hf. unfold nd_netstream_to_short.
  destruct (get_in s 0 Hs) as (b0 & E0); [lia|lia|]. destruct (get_in s 1 Hs) as (b1 & E1); [lia|lia|].
  rewrite Z.add_0_r in E0. rewrite E0. cbn [mbind option_bind]. rewrite E1. cbn [mbind option_bind].
  eexists. split; [done|]. apply wrapu_range. lia.
Qed.
Ltac read_block := intros Hs; apply read_org_runs; [done|lia|]; intros Hf;
  unfold nd_netstream_to_long, nd_netstream_to_longlong; erewrite in_block by (done || lia); by eexists.
Lemma read32_runs a s : rs_ok s -> runs (_ReadOrg32 a) s (word_read 4 a any s).
Proof. read_block. Qed.
Lemma read64_runs a s : rs_ok s -> runs (_ReadOrg64 a) s (word_read 8 a any s).
Proof. read_block. Qed.
Lemma readf_runs a s : rs_ok s -> runs (_ReadOrgFloat a) s (word_read 4 a any s).
Proof. read_block. Qed.
Lemma readd_runs a s : rs_ok s -> runs (_ReadOrgDouble a) s (word_read 8 a any s).
Proof. read_block. Qed.

(** The loop over the markers ends; -1 only at the end of the stream. *)
Definition type_read (s : NDProtoReadStream) (x : Z * option (Z * Z)) (s' : NDProtoReadStream) : Prop :=
  step_to s s' /\
  (x = (-1, None) \/
   (x = (0, None) /\ m_bStruckEndMarker s' = true /\ r_op s < r_op s') \/
   exists t sz, x = (0, Some (t, sz)) /\ 0 <= sz < 16 /\ m_bStruckEndMarker s' = m_bStruckEndMarker s /\ r_op s < r_op s').
Lemma step_set s (f : NDProtoReadStream -> NDProtoReadStream) : rs_ok s ->
  same_stream s (f s) -> r_op (f s) = r_op s -> step_to s (f s).
Proof. intros [] (E1 & E2 & E3) Eo. split; [split; rewrite ?E1, ?E2, ?E3; lia|]. split; [done|]. lia. Qed.

Lemma type_read_after s s1 x s2 : step_to s s1 -> m_bStruckEndMarker s1 = m_bStruckEndMarker s -> type_read s1 x s2 -> type_read s x s2.
Proof.
  intros St Ek [St2 H]. pose proof (step_trans _ _ _ St St2). split; [done|]. destruct St as (_ & _ & Hle & _).
  destruct H as [H|[(H1 & H2 & H3)|(t & sz & H1 & H2 & H3 & H4)]]; [by left| |].
  - right. left. auto with lia.
  - right. right. exists t, sz. rewrite <- Ek. auto with lia.
Qed.
Lemma read_marker_runs fuel s : rs_ok s -> Z.max 0 (r_end s - r_op s) < Z.of_nat fuel -> runs (read_marker fuel) s (type_read s).
Proof.
  revert s. induction fuel as [|fuel IH]; intros s Hs Hf; [lia|]. cbn [read_marker]. apply runs_bind.
  eapply runs_mono; [by apply read8_runs|]. intros [r mk] s1 [St [(Er & Hmk & Eo & Eb & Est)|(Ex & ->)]]; cbn [fst snd] in *.
  2:{ injection Ex as -> ->. apply runs_ret. split; [by apply step_refl|]. by left. }
  subst r. cbn [Z.eqb]. pose proof (step_in _ _ St) as Hs1. assert (r_end s1 = r_end s) as Ee by apply St.
  assert (forall f, same_stream s1 (f s1) -> r_op (f s1) = r_op s1 -> m_bStruckEndMarker (f s1) = m_bStruckEndMarker s1 ->
    runs (read_marker fuel) (f s1) (type_read s)) as Hagain.
  { intros f Hf1 Hf2 Hf3. pose proof (step_set s1 f Hs1 Hf1 Hf2) as St2. assert (r_end (f s1) = r_end s1) by apply Hf1.
    eapply runs_mono; [apply IH; [apply St2|lia]|]. intros x s2. apply type_read_after; [by eapply step_trans|congruence]. }
  destruct (mk =? NET_STREAM_STRUCT_END_MARK).
  - apply runs_gets. unfold id. destruct (m_bSkipEndMarker s1 || m_bSkipEndAllStream s1); [by apply (Hagain id)|].
    apply runs_modify, runs_ret. split; [eapply step_trans; [done|by apply step_set]|]. right. left. cbn. auto with lia.
  - destruct (_ =? ENDSTREAM_CMD_SKIP_STRUCT_MARK); [apply runs_modify; by apply Hagain|].
    destruct (_ =? ENDSTREAM_CMD_ENABLE_STRUCT_MARK); [apply runs_modify; by apply Hagain|].
    apply runs_ret. split; [done|]. right. right. eexists _, _. split; [done|]. split; [|split; [done|lia]].
    change 15 with (Z.ones 4); rewrite Z.land_ones by lia. by apply Z.mod_pos_bound.
Qed.
Lemma type_size_runs s : rs_ok s -> runs _ReadTypeSize s (type_read s).
Proof. intros Hs. unfold runs, _ReadTypeSize. apply read_marker_runs; [done|lia]. Qed.

(** The beginning of the [Read] functions. *)
Definition type_ok (s : NDProtoReadStream) (ts : option (Z * Z)) (s' : NDProtoReadStream) : Prop :=
  step_to s s' /\ forall t sz, ts = Some (t, sz) -> 0 <= sz < 16.
Lemma read_type_runs s : rs_ok s -> runs read_type s (type_ok s).
Proof.
  intros Hs. unfold read_type. apply runs_modify. pose proof (step_set s (set_struck false) Hs) as S0.
  apply runs_bind. eapply runs_mono; [apply type_size_runs, S0; done|]. intros [r ts] s1 [St H].
  apply runs_gets, runs_ret. split; [by eapply step_trans; [apply S0|]|]. unfold id.
  destruct H as [[= -> ->]|[([= -> ->] & -> & _)|(t & sz & [= -> ->] & Hz & E & _)]]; cbn [Z.eqb orb]; try done.
  rewrite E. cbn. by intros ?? [= <- <-].
Qed.

(** The operation returns and moves forward inside the stream. *)
Definition safe {A} (m : R A) : Prop := forall s, rs_ok s -> runs m s (fun _ s' => step_to s s').
Lemma safe_ret {A} (x : A) : safe (mret x).
Proof. intros s Hs. by apply runs_ret, step_refl. Qed.
Lemma safe_bind {A B} (m : R A) (f : A -> R B) : safe m -> (forall x, safe (f x)) -> safe (m ≫= f).
Proof.
  intros Hm Hf s Hs. apply runs_bind. eapply runs_mono; [by apply Hm|]. intros x s1 S1. cbn in S1.
  eapply runs_mono; [apply Hf, S1|]. intros y s2. by apply step_trans.
Qed.
Lemma safe_if {A} (b : bool) (m1 m2 : R A) : (b = true -> safe m1) -> (b = false -> safe m2) -> safe (if b then m1 else m2).
Proof. destruct b; auto. Qed.
Lemma safe_word n a P (m : R (Z * Z)) : (forall s, rs_ok s -> runs m s (word_read n a P s)) -> safe m.
Proof. intros H s Hs. eapply runs_mono; [by apply H|]. by intros x s' []. Qed.
Lemma safe_typed t a body : (forall sz, safe (body sz)) -> safe (read_typed t a body).
Proof.
  intros Hb. apply safe_bind.
  - intros s Hs. eapply runs_mono; [by apply read_type_runs|]. by intros x s' [].
  - intros [[type size]|]; [|apply safe_ret]. apply safe_if; intros _; [apply safe_ret|apply Hb].
Qed.
Create HintDb proto.
#[export] Hint Resolve safe_ret : proto.
#[export] Hint Extern 1 (safe (_ReadOrg8 _)) => eapply safe_word, read8_runs : proto.
#[export] Hint Extern 1 (safe (_ReadOrg16 _)) => eapply safe_word, read16_runs : proto.
#[export] Hint Extern 1 (safe (_ReadOrg32 _)) => eapply safe_word, read32_runs : proto.
#[export] Hint Extern 1 (safe (_ReadOrg64 _)) => eapply safe_word, read64_runs : proto.
#[export] Hint Extern 1 (safe (_ReadOrgFloat _)) => eapply safe_word, readf_runs : proto.
#[export] Hint Extern 1 (safe (_ReadOrgDouble _)) => eapply safe_word, readd_runs : proto.
#[export] Hint Extern 1 (safe (if _ then _ else _)) => apply safe_if; intros _ : proto.
#[export] Hint Extern 1 (safe (read_typed _ _ _)) => apply safe_typed; intros : proto.

Lemma safe_number make m : safe m -> safe (number make m).
Proof. intros H. apply safe_bind; [done|]. intros [r a]. apply safe_ret. Qed.
Lemma safe_numbers make : safe (number make (Read8 0)) /\ safe (number make (Read16 0)) /\ safe (number make (Read32 0)) /\
  safe (number make (Read64 0)) /\ safe (number make (ReadFloat 0)) /\ safe (number make (ReadDouble 0)).
Proof. repeat split; apply safe_number; unfold Read8, Read16, Read32, Read64, ReadFloat, ReadDouble; auto 8 with proto. Qed.

(** The data of a text or a block are copied to the buffer of the caller. *)
Lemma mwrite_in b d : zlen d <= zlen b -> exists b', mwrite b 0 d = Some b' /\ zlen b' = zlen b.
Proof. intros. apply mwrite_ex; lia. Qed.
Lemma read_length_runs s : rs_ok s -> runs read_length s (fun n s' => step_to s s' /\ 0 <= n < 2 ^ 16).
Proof.
  intros Hs. apply runs_bind. eapply runs_mono; [by apply read16_runs|]. intros [r v] s1 [St H]. apply runs_ret. split; [done|].
  cbn [fst snd] in H. destruct H as [(-> & Hv & _)|([= -> ->] & _)]; done.
Qed.
Definition buf_ok (b : mem) (s : NDProtoReadStream) (x : Z * mem) (s' : NDProtoReadStream) : Prop := step_to s s' /\ zlen x.2 = zlen b.

(** The next value is an empty text: [ReadText] stores the terminator without
    comparing the size of the buffer. *)
Definition empty_text_next (s : NDProtoReadStream) : bool :=
  match read_type s with Some (Some (t, sz), _) => (t =? ENDSTREAM_MARKER_TEXT) && (sz =? 0) | _ => false end.
Lemma ReadText_runs b s : rs_ok s -> (zlen b =? 0) && empty_text_next s = false -> runs (ReadText b (zlen b)) s (buf_ok b s).
Proof.
  intros Hs Hb. destruct (read_type_runs s Hs) as (ts & s1 & Et & S1 & _). unfold empty_text_next in Hb. rewrite Et in Hb.
  eapply runs_after; [exact Et|]. destruct ts as [[t sz]|]; [|by apply runs_ret].
  destruct (Z.eqb_spec t ENDSTREAM_MARKER_TEXT); cbn [negb]; [|by apply runs_ret]. destruct (sz =? 0).
  { apply runs_from. destruct (mset_ex b 0 0) as (b' & E & L); [cbn in Hb; pose proof (zlen_nonneg b); lia|]. exists b'. split; [done|]. by apply runs_ret. }
  apply runs_bind. eapply runs_mono; [apply read_length_runs, S1|]. intros n s2 (S2 & Hn). pose proof (step_trans _ _ _ S1 S2) as S02.
  destruct (Z.eqb_spec n 0); [by apply runs_ret|]. apply runs_gets. unfold id. pose proof (step_in _ _ S2) as O2.
  destruct (Z.ltb_spec (r_op s2 + n) (r_end s2)); [|by apply runs_ret].
  destruct (get_in s2 n O2) as (c & Ec); [lia|lia|]. apply runs_from. exists c. split; [done|].
  destruct (c =? 127), (Z.ltb_spec n (zlen b)); cbn [andb]; try by apply runs_ret.
  apply runs_from. eexists. split; [apply in_block; done || lia|]. assert (zlen (slice (r_op s2) n (r_mem s2)) = n) as Ln.
  { destruct O2. apply zlen_slice; lia. }
  destruct (mwrite_in b (slice (r_op s2) n (r_mem s2))) as (b' & E & L); [lia|]. apply runs_from. exists b'. split; [done|].
  apply runs_modify, runs_from. destruct (mset_ex b' n 0) as (b2 & E2 & L2); [lia|]. exists b2. split; [done|]. apply runs_ret.
  split; [|cbn; lia]. eapply step_trans; [exact S02|]. apply past_step; done || lia.
Qed.
Lemma ReadBin_runs b s : rs_ok s -> runs (ReadBin b (zlen b)) s (fun x s' => buf_ok b s x s' /\ x.1 <= zlen b).
Proof.
  intros Hs. pose proof (zlen_nonneg b) as Hb. apply runs_bind. eapply runs_mono; [by apply read_type_runs|]. intros [[t sz]|] s1 [S1 _]; [|by apply runs_ret].
  destruct (negb _); [by apply runs_ret|]. destruct (sz =? 0); [by apply runs_ret|].
  apply runs_bind. eapply runs_mono; [apply read_length_runs, S1|]. intros n s2 (S2 & Hn). pose proof (step_trans _ _ _ S1 S2) as S02.
  destruct (Z.eqb_spec n 0); [by apply runs_ret|]. apply runs_gets. unfold id. pose proof (step_in _ _ S2) as O2.
  destruct (Z.leb_spec (r_op s2 + n) (r_end s2)), (Z.leb_spec n (zlen b)); cbn [andb]; try by apply runs_ret.
  apply runs_from. eexists. split; [apply in_block; done || lia|]. assert (zlen (slice (r_op s2) n (r_mem s2)) = n) as Ln.
  { destruct O2. apply zlen_slice; lia. }
  destruct (mwrite_in b (slice (r_op s2) n (r_mem s2))) as (b' & E & L); [lia|]. apply runs_from. exists b'. split; [done|].
  apply runs_modify, runs_ret. split; [|done]. split; [|cbn; lia]. eapply step_trans; [exact S02|]. apply past_step; done || lia.
Qed.

Lemma ReadStream_runs b n s : rs_ok s -> r_op s <= r_end s -> 0 <= n <= zlen b -> runs (ReadStream b n) s (buf_ok b s).
Proof.
  intros Hs Hle Hn. apply runs_gets. unfold id, LeftData. pose proof Hs as [].
  rewrite wraps_small, wrapu_small by lia. destruct (Z.ltb_spec (r_end s - r_op s) n).
  { apply runs_ret. split; [by apply step_refl|done]. }
  apply runs_from. eexists. split; [apply in_block; done || lia|]. assert (zlen (slice (r_op s) n (r_mem s)) = n) as Ln by (apply zlen_slice; lia).
  destruct (mwrite_in b (slice (r_op s) n (r_mem s))) as (b' & E & L); [lia|]. apply runs_from. exists b'. split; [done|].
  apply runs_modify, runs_ret. split; [|done]. apply past_step; done || lia.
Qed.
Lemma ReadIp_runs a s : rs_ok s -> r_op s <= r_end s -> zlen (ip6 a) = 16 ->
  runs (ReadIp a) s (fun x s' => step_to s s' /\ zlen (ip6 x.2) = 16).
Proof.
  intros Hs Hle Ha. apply runs_bind. eapply runs_mono; [by apply read_type_runs|]. intros [[t sz]|] s1 [S1 _]; [|by apply runs_ret].
  assert (r_op s1 <= r_end s1) as Hle1 by (by apply S1).
  destruct (t =? _); [|destruct (t =? _); [|by apply runs_ret]].
  all: apply runs_bind; eapply runs_mono; [apply ReadStream_runs; [apply S1|done|lia]|]; intros [n b] s2 [S2 L]; apply runs_ret.
  all: split; [by eapply step_trans|cbn in *; lia].
Qed.

(** Back to where the operation began. *)
Lemma step_back s s' : rs_ok s -> r_op s <= r_end s -> step_to s s' -> step_to s (set_r_op (r_op s) s').
Proof.
  intros [] Hle [[] (Es & H1 & H2)]. pose proof Es as (E1 & E2 & E3). split; [by split; cbn; try lia|]. split; [done|]. cbn. lia.
Qed.
Lemma PeekBinSize_runs s : rs_ok s -> r_op s <= r_end s -> runs PeekBinSize s (fun _ s' => step_to s s').
Proof.
  intros Hs Hle. apply runs_gets.
  apply runs_bind. eapply runs_mono; [by apply read_type_runs|]. intros [[t sz]|] s1 [S1 _]; [|apply runs_modify, runs_ret; by apply step_back].
  destruct (sz =? 0); [apply runs_modify, runs_ret; by apply step_back|].
  apply runs_bind. eapply runs_mono; [apply read16_runs, S1|]. intros [r v] s2 [S2 _]. apply runs_modify, runs_ret.
  apply step_back; [done..|]. by eapply step_trans.
Qed.

(** The next marker is the end of a structure, which [PeekDataType] has no type for. *)
Definition struct_end_next (s : NDProtoReadStream) : bool :=
  match _ReadTypeSize (set_struck false s) with Some ((r, None), _) => negb (r =? -1) | _ => false end.
Lemma PeekDataType_runs s : rs_ok s -> r_op s <= r_end s ->
  if struct_end_next s then PeekDataType s = None else runs PeekDataType s (fun _ s' => step_to s s').
Proof.
  intros Hs Hle. pose proof (step_set s (set_struck false) Hs) as S0.
  destruct (type_size_runs (set_struck false s)) as ([r ts] & s1 & E & S1 & H); [by apply S0|].
  assert (step_to s (set_r_op (r_op s) s1)) as Sb by (apply step_back; [done..|]; by eapply step_trans; [apply S0|]).
  assert (forall Q, runs ((if r =? -1 then mret ENDSTREAM_MARKER_UNDEFINE else from (fun _ => '(type, _) ← ts; Some type)) : R Z)
    (set_r_op (r_op s) s1) Q -> runs PeekDataType s Q) as Hrun.
  { intros Q HQ. unfold PeekDataType. apply runs_gets, runs_modify. eapply runs_after; [exact E|]. by apply runs_modify. }
  unfold struct_end_next. rewrite E. destruct ts as [[t sz]|].
  - apply Hrun. destruct (r =? -1); [by apply runs_ret|]. exists t, (set_r_op (r_op s) s1). by split.
  - destruct (Z.eqb_spec r (-1)) as [->|Hr]; [apply Hrun; by apply runs_ret|]. cbn [negb].
    unfold PeekDataType. rewrite bind_gets, bind_modify, (bind_run _ _ _ _ _ E), bind_modify. by destruct (Z.eqb_spec r (-1)).
Qed.

(** [TrytoMoveStructEnd] may pass the end of the stream on its way. *)
Definition passed (s s' : NDProtoReadStream) : Prop := rs_ok s' /\ same_stream s s' /\ r_op s <= r_op s'.
Lemma step_passed s s' : step_to s s' -> passed s s'.
Proof. intros (H1 & H2 & H3 & _). by split. Qed.
Lemma past_passed s n : rs_ok s -> 0 <= n -> passed s (past n s).
Proof. intros [] ?. split; [by split; cbn; try lia|]. split; [done|]. cbn. lia. Qed.
Lemma passed_trans s1 s2 s3 : passed s1 s2 -> passed s2 s3 -> passed s1 s3.
Proof.
  intros (_ & (E1 & E2 & E3) & L1) (O & (F1 & F2 & F3) & L2). split; [done|].
  split; [unfold same_stream; by rewrite F1, F2, F3|]. lia.
Qed.

Lemma skip_value_runs t sz s : rs_ok s -> 0 <= sz < 16 ->
  runs (skip_value t sz) s (fun _ s' => passed s s' /\ r_op s' <= r_op s + 2 ^ 17).
Proof.
  intros Hs Hz. unfold skip_value. pose proof (step_passed _ _ (step_refl s Hs)).
  assert (forall n, 0 <= n <= 2 ^ 16 -> passed s (past n s) /\ r_op (past n s) <= r_op s + 2 ^ 17) as Hp.
  { intros n Hn. split; [apply past_passed; done || lia|]. cbn. lia. }
  destruct (_ || _); [apply runs_modify, runs_ret, Hp; lia|].
  destruct (t =? _); [apply runs_modify, runs_ret, Hp; lia|].
  destruct (_ || _); [|apply runs_ret; auto with lia]. destruct (sz =? 0); [apply runs_ret; auto with lia|].
  apply runs_bind. eapply runs_mono; [by apply read16_runs|]. intros [r v] s1 [S1 Hv]. cbn [fst snd] in Hv.
  destruct Hv as [(-> & Hv & Eo & _)|([= -> _] & ->)]; cbn [Z.eqb]; [|apply runs_ret; auto with lia].
  apply runs_modify, runs_ret. cbn zeta. set (n := if t =? _ then _ else _). assert (0 <= n <= 2 ^ 16) by (unfold n; destruct (t =? _); lia).
  split; [|cbn; lia]. eapply passed_trans; [by apply step_passed|]. apply past_passed; [apply S1|lia].
Qed.

Lemma struct_end_runs fuel s : rs_ok s -> r_op s <= r_end s -> r_end s - r_op s < Z.of_nat fuel ->
  runs (struct_end_loop fuel) s (fun found s' => passed s s' /\ (found = true -> r_op s' <= r_end s')).
Proof.
  revert s. induction fuel as [|fuel IH]; intros s Hs Hle Hf; [lia|]. cbn [struct_end_loop]. apply runs_modify.
  pose proof (step_set s (set_struck false) Hs) as S0. apply runs_bind.
  eapply runs_mono; [apply type_size_runs, S0; done|]. intros [r ts] s1 [S1 H].
  assert (step_to s s1) as S01 by (eapply step_trans; [by apply S0|done]).
  assert (r_op s1 <= r_end s1) as Hle1 by (by apply S01).
  destruct H as [[= -> ->]|[([= -> ->] & _)|(t & sz & [= -> ->] & Hz & _ & Hlt)]]; cbn [Z.eqb].
  { apply runs_ret. split; [by apply step_passed|done]. }
  { apply runs_ret. split; [by apply step_passed|done]. }
  apply runs_bind. eapply runs_mono; [apply skip_value_runs; [apply S1|lia]|]. intros [[]|] s2 [P2 Hfar].
  2:{ apply runs_ret. split; [by eapply passed_trans; [apply step_passed|]|done]. }
  assert (passed s s2) as P02 by (by eapply passed_trans; [apply step_passed|]).
  assert (r_end s2 = r_end s) as Ee by apply P02. destruct P2 as (_ & _ & Hop2). cbn in Hlt.
  apply runs_gets. unfold id. destruct (Z.ltb_spec 0 (LeftData s2)) as [Hl|Hl]; [|by apply runs_ret].
  destruct (decide (r_op s2 <= r_end s2)) as [Hle2|Hgt].
  - eapply runs_mono; [apply IH; [apply P02|done|lia]|]. intros found s3 [P3 H3]. split; [by eapply passed_trans|done].
  - exfalso. unfold LeftData in Hl. assert (r_end s1 = r_end s) by apply S01. destruct Hs. rewrite wraps_small in Hl; lia.
Qed.
Lemma TrytoMoveStructEnd_runs s : rs_ok s -> r_op s <= r_end s -> runs TrytoMoveStructEnd s (fun _ s' => step_to s s').
Proof.
  intros Hs Hle. apply runs_gets. unfold id. destruct (_ || _); [by apply runs_ret, step_refl|].
  apply runs_bind. eapply runs_mono; [apply struct_end_runs; [done|done|lia]|]. intros [] s1 [(O & E & L) H].
  - apply runs_ret. repeat split; try apply O; try apply E; try done. auto.
  - apply runs_modify, runs_ret. destruct O, Hs, E as (E1 & E2 & E3). repeat split; cbn; rewrite ?E1, ?E2, ?E3; done || lia.
Qed.

Lemma ReadLeftStream_runs b s : rs_ok s -> r_op s <= r_end s -> runs (ReadLeftStream b (zlen b)) s (fun _ s' => step_to s s').
Proof.
  intros Hs Hle. apply runs_gets. unfold id. pose proof Hs as []. rewrite wrapu_small by lia.
  destruct (_ =? 0); [by apply runs_ret, step_refl|]. destruct (Z.ltb_spec (zlen b) (r_end s - r_op s)); [by apply runs_ret, step_refl|].
  apply runs_from. eexists. split; [apply in_block; done || lia|].
  destruct (mwrite_in b (slice (r_op s) (r_end s - r_op s) (r_mem s))) as (b' & E & L); [rewrite zlen_slice; lia|].
  apply runs_from. exists b'. split; [done|]. apply runs_modify, runs_ret. repeat split; cbn; lia || done.
Qed.

(** ** Instances *)

Definition small_stream : NDProtoWriteStream := mk_ws (zrepeat 0 8) 1 2 6.
Lemma proto_write_exact_witness :
  exists m, write_item (H := base_onWriteStream) (IText [104; 105]) small_stream = Some (-1, mk_ws m 1 3 6) /\
    slice 2 1 m = [0x71].
Proof.
  destruct (proto_write_exact (IText [104; 105]) small_stream) as (m & E & _ & _ & E2 & _).
  - repeat constructor; done.
  - split; discriminate.
  - split; discriminate.
  - reflexivity.
  - exists m. split; [exact E | exact E2].
Defined.

(** After a text that did not fit the next number is read as a part of that text. *)
Example failed_write_misread :
  (r ← write_item (H := base_onWriteStream) (IText [104; 105]); r2 ← write_item (H := base_onWriteStream) (I8 5); mret (r, r2)) small_stream =
    Some ((-1, 0), mk_ws [0; 0; 0x71; 0x11; 5; 0; 0; 0] 1 5 6) /\
  Read8 0 (NDProtoReadStream_Init [0; 0; 0x71; 0x11; 5; 0; 0; 0] 2 5) =
    Some ((-1, 0), past 1 (NDProtoReadStream_Init [0; 0; 0x71; 0x11; 5; 0; 0; 0] 2 5)).
Proof. split; reflexivity. Qed.

(** [ReadIp] takes the -1 of [ReadStream] for a number of bytes. *)
Example ReadIp_truncated a : ReadIp (mk_ip 0 a) (NDProtoReadStream_Init [0x94; 127] 0 2) =
  Some ((0, mk_ip AF_INET a), past 1 (NDProtoReadStream_Init [0x94; 127] 0 2)).
Proof. reflexivity. Qed.

(** [PeekDataType] at the end of a structure returns a variable that has no value. *)
Example PeekDataType_at_end : PeekDataType (NDProtoReadStream_Init [0xff] 0 1) = None.
Proof. reflexivity. Qed.
