(* ===== verification/VarType.v ===== *)
(** * VarType: variables of messages (nd_vartype.cpp)

    An [NDVarType] is a tag and a union of 8 bytes: a number, or a pointer to a text or a
    block of its own.  A pointer is followed only where the member of the union is the one that was
    stored; the null pointer is the word 0, and the number a pointer has is not
    known ([None]).  A [float] is its bit pattern (Float32).  [WriteVar] and [ReadVar]
    put variables into streams (ProtoStream). *)

From S2P Require Import Prelude Bytes Str Float32 Packet ProtoStream.
From Stdlib Require Import SpecFloat Strings.String.

(** ** Types *)

Definition ND_VT_INT : Z := 0.
Definition ND_VT_FLOAT : Z := 1.
Definition ND_VT_STRING : Z := 2.
Definition ND_VT_INT8 : Z := 3.
Definition ND_VT_INT16 : Z := 4.
Definition ND_VT_INT64 : Z := 5.
Definition ND_VT_BINARY : Z := 6.
Definition _varTypeName : list (list Z) :=
  [chars "int" ++ [0]; chars "float" ++ [0]; chars "string" ++ [0]; chars "int8" ++ [0]; chars "int16" ++ [0];
   chars "long" ++ [0]; chars "binary" ++ [0]].

(** [Str s]: a C string with the characters [s]; [Bin d]: an [ndvtype_bin]. *)
Inductive ndvtype_data := Word (w : Z) | StrPtr (s : list Z) | BinPtr (d : list Z).
Record NDVarType := mk_var { m_type : Z; m_data : ndvtype_data }.
Abbreviation V := (ST NDVarType).

Definition i64_val (d : ndvtype_data) : option Z := match d with Word w => Some w | _ => None end.
Definition i_val (d : ndvtype_data) : option Z := w ← i64_val d; Some (s32 w).
Definition f_val (d : ndvtype_data) : option Z := w ← i64_val d; Some (u32 w).
Definition str_val (d : ndvtype_data) : option (option (list Z)) :=
  match d with Word w => if w =? 0 then Some None else None | StrPtr s => Some (Some s) | BinPtr _ => None end.
Definition bin_val (d : ndvtype_data) : option (option (list Z)) :=
  match d with Word w => if w =? 0 then Some None else None | BinPtr b => Some (Some b) | StrPtr _ => None end.

(** [m_data.i_val = a] and [m_data.f_val = a] store the low half of the word. *)
Definition set_low (a : Z) (d : ndvtype_data) : option ndvtype_data :=
  w ← i64_val d; Some (Word (w - wrapu 32 w + u32 a)).
Definition set_type (t : Z) (v : NDVarType) : NDVarType := mk_var t (m_data v).
Definition set_data (d : ndvtype_data) (v : NDVarType) : NDVarType := mk_var (m_type v) d.

Definition getNameBytype (type : Z) : list Z :=
  if (zlen _varTypeName <=? type) || (type <? 0) then nth 0 _varTypeName [] else nth (Z.to_nat type) _varTypeName [].
(** The first name that is equal, without regard to case. *)
Fixpoint type_by_name (name : cstr) (l : list cstr) (i : Z) : option Z :=
  match l with
  | [] => Some ND_VT_FLOAT
  | n :: l => r ← ndstricmp name n; if r =? 0 then Some i else type_by_name name l (i + 1)
  end.
Definition getTypeByName (name : option cstr) : option Z :=
  match name with
  | None => Some ND_VT_FLOAT
  | Some name => c ← deref name; if c =? 0 then Some ND_VT_FLOAT else type_by_name name _varTypeName 0
  end.
Definition isNumber (type : Z) : bool := negb ((type =? ND_VT_BINARY) || (type =? ND_VT_STRING)).

(** ** The standard library: texts of digits

    [atoll] as in glibc; [atof] of a text of digits with a sign and a dot, other texts
    (exponents, hexadecimal numbers, names) are not modelled. *)
Definition atoll (s : list Z) : Z :=
  let s := skip_space s in
  let i := match s with
           | c :: t => if c =? 45 then - atoi_loop t 0
                       else if c =? 43 then atoi_loop t 0 else atoi_loop s 0
           | [] => 0
           end in
  Z.max (- 2 ^ 63) (Z.min (2 ^ 63 - 1) i).
Definition plain_char (c : Z) : bool := ((48 <=? c) && (c <=? 57)) || (c =? 43) || (c =? 45) || (c =? 46).
Definition atof_bits (s : list Z) : option Z :=
  let s := skip_space s in
  if forallb plain_char s then Some (bits_of_f32 (d2f (atof s))) else None.
(** [(NDUINT64) v]. *)
Definition f2u64 (v : Z) : option Z :=
  match f32_of_bits v with
  | S754_zero _ => Some 0
  | S754_finite s m e => let i := trunc s m e in if (0 <=? i) && (i <? 2 ^ 64) then Some i else None
  | _ => None
  end.

(** ** Values *)

Definition text_of (d : ndvtype_data) : option (list Z) := p ← str_val d; Some (default [] p).
Definition getInt (v : NDVarType) : option Z :=
  if ND_VT_FLOAT =? m_type v then f ← f_val (m_data v); f2i f
  else if m_type v =? ND_VT_STRING then
    s ← text_of (m_data v); Some (match s with [] => 0 | _ => atoi (s ++ [0]) end)
  else i_val (m_data v).
Definition getInt8 (v : NDVarType) : option Z := i ← getInt v; Some (u8 i).
Definition getInt16 (v : NDVarType) : option Z := i ← getInt v; Some (u16 i).
Definition getInt64 (v : NDVarType) : option Z :=
  if ND_VT_FLOAT =? m_type v then f ← f_val (m_data v); f2u64 f
  else if m_type v =? ND_VT_STRING then
    s ← text_of (m_data v); Some (match s with [] => 0 | _ => u64 (atoll (s ++ [0])) end)
  else i64_val (m_data v).
Definition getBool (v : NDVarType) : option bool :=
  if m_type v =? ND_VT_STRING then
    s ← text_of (m_data v);
    match s with
    | [] => Some false
    | _ =>
        r ← ndstricmp (s ++ [0]) (chars "yes" ++ [0]);
        if r =? 0 then Some true
        else r ← ndstricmp (s ++ [0]) (chars "true" ++ [0]); Some (r =? 0)
    end
  else i ← getInt v; Some (negb (i =? 0)).
Definition getFloat (v : NDVarType) : option Z :=
  if ND_VT_FLOAT =? m_type v then f_val (m_data v)
  else if m_type v =? ND_VT_STRING then
    s ← text_of (m_data v); match s with [] => Some 0 | _ => atof_bits s end
  else w ← i64_val (m_data v); Some (i2f w).
Definition getText (v : NDVarType) : option (option (list Z)) :=
  if m_type v =? ND_VT_STRING then str_val (m_data v) else Some None.
Definition getBin (v : NDVarType) : option (option (list Z)) :=
  if m_type v =? ND_VT_BINARY then bin_val (m_data v) else Some None.
Definition getBinSize (v : NDVarType) : option Z := b ← getBin v; Some (match b with Some d => zlen d | None => 0 end).
Definition checkValid (v : NDVarType) : option bool :=
  if m_type v =? ND_VT_BINARY then b ← bin_val (m_data v); Some (match b with Some d => 0 <? zlen d | None => false end)
  else if m_type v =? ND_VT_STRING then s ← text_of (m_data v); Some (match s with [] => false | _ => true end)
  else w ← i64_val (m_data v); Some (negb (w =? 0)).

(** ** Assignment *)

Section Var.
Context `{!Malloc}.

(** [free] of a pointer that [malloc] did not give is undefined. *)
Definition destroy : V unit :=
  v ← gets id;
  (if (m_type v =? ND_VT_STRING) || (m_type v =? ND_VT_BINARY) then
     from (fun v => match m_data v with Word w => if w =? 0 then Some tt else None | _ => Some tt end)
   else mret tt);;
  modify (set_data (Word 0)).
Definition InitType (type : Z) : V unit := destroy;; modify (set_type type).
Definition initSet_text (text : option (list Z)) : V bool :=
  destroy;;
  modify (set_type ND_VT_STRING);;
  match text with
  | None | Some [] => mret true
  | Some s =>
      match malloc (zlen s + 1) with
      | Some _ => modify (set_data (StrPtr s));; mret true
      | None => mret false
      end
  end.
Definition initSet_bin (bindata : mem) (size : Z) : V bool :=
  destroy;;
  modify (set_type ND_VT_BINARY);;
  if 0 <? size then
    match malloc (size + 8 + 4) with
    | Some _ => d ← from (fun _ => mread bindata 0 size); modify (set_data (BinPtr d));; mret true
    | None => mret false
    end
  else mret true.

Definition assign_low (type a : Z) : V unit :=
  destroy;;
  modify (set_type type);;
  d ← from (fun v => set_low a (m_data v));
  modify (set_data d).
Definition assign_int (a : Z) : V unit := assign_low ND_VT_INT a.
Definition assign_int8 (a : Z) : V unit := assign_low ND_VT_INT8 a.
Definition assign_int16 (a : Z) : V unit := assign_low ND_VT_INT16 a.
Definition assign_int64 (a : Z) : V unit := destroy;; modify (set_type ND_VT_INT64);; modify (set_data (Word (u64 a))).
Definition assign_bool (a : bool) : V unit := assign_low ND_VT_INT (if a then 1 else 0).
Definition assign_float (a : Z) : V unit := assign_low ND_VT_FLOAT a.
Definition assign_text (text : option (list Z)) : V unit := destroy;; initSet_text text;; mret tt.

(** From another variable [r] (not from itself).  A block is taken from the variable itself, whose pointer
    [destroy] has just set to null, and its size is read through it. *)
Definition assign (r : NDVarType) : V unit :=
  destroy;;
  let t := m_type r in
  if t =? ND_VT_INT then a ← from (fun _ => i_val (m_data r)); assign_int a
  else if t =? ND_VT_FLOAT then a ← from (fun _ => f_val (m_data r)); assign_float a
  else if t =? ND_VT_STRING then s ← from (fun _ => str_val (m_data r)); initSet_text s;; mret tt
  else if t =? ND_VT_INT8 then a ← from (fun _ => getInt8 r); assign_int8 a
  else if t =? ND_VT_INT16 then a ← from (fun _ => getInt16 r); assign_int16 a
  else if t =? ND_VT_INT64 then a ← from (fun _ => getInt64 r); assign_int64 a
  else if t =? ND_VT_BINARY then
    b ← from (fun v => bin_val (m_data v));
    match b with
    | None => fun _ => None
    | Some d => initSet_bin d (zlen d);; mret tt
    end
  else mret tt.

(** ** Constructors

    [stale] is what the memory of the variable held before. *)

Definition new_default : NDVarType := mk_var ND_VT_INT (Word 0).
Definition new_low (stale : Z) (type a : Z) : NDVarType := mk_var type (Word (stale - wrapu 32 stale + u32 a)).
Definition new_int (stale a : Z) : NDVarType := new_low stale ND_VT_INT a.
Definition new_int8 (stale a : Z) : NDVarType := new_low stale ND_VT_INT8 a.
Definition new_int16 (stale a : Z) : NDVarType := new_low stale ND_VT_INT16 a.
Definition new_int64 (a : Z) : NDVarType := mk_var ND_VT_INT64 (Word (u64 a)).
Definition new_float (stale a : Z) : NDVarType := new_low stale ND_VT_FLOAT a.
Definition new_bool (stale : Z) (a : bool) : NDVarType := new_low stale ND_VT_INT (if a then 1 else 0).
Definition new_text (stale : NDVarType) (text : option (list Z)) : option NDVarType := '(_, v) ← initSet_text text stale; Some v.
Definition new_bin (stale : NDVarType) (bindata : mem) (size : Z) : option NDVarType := '(_, v) ← initSet_bin bindata size stale; Some v.
Definition new_type (stale : NDVarType) (type : Z) : option NDVarType := '(_, v) ← destroy stale; Some (set_type type v).
Definition new_copy (stale : Z) (r : NDVarType) : option NDVarType := '(_, v) ← assign r (new_int stale 0); Some v.

(** ** Operators *)

(** A signed result that is not an [int] is undefined. *)
Definition int_result (stale z : Z) : option NDVarType :=
  if (- 2 ^ 31 <=? z) && (z <? 2 ^ 31) then Some (new_int stale z) else None.
Definition math_op (iop : Z -> Z -> Z) (fop : Z -> Z -> Z) (stale : Z) (v r : NDVarType) : option NDVarType :=
  let t := m_type v in
  if (t =? ND_VT_INT8) || (t =? ND_VT_INT16) || (t =? ND_VT_INT) then
    a ← getInt v; b ← getInt r; int_result stale (iop a b)
  else if t =? ND_VT_INT64 then
    a ← getInt64 v; b ← getInt64 r; Some (new_int64 (iop a b))
  else if t =? ND_VT_FLOAT then
    a ← getFloat v; b ← getFloat r; Some (new_float stale (fop a b))
  else new_copy stale v.
Definition op_add : Z -> NDVarType -> NDVarType -> option NDVarType := math_op Z.add fadd.
Definition op_sub : Z -> NDVarType -> NDVarType -> option NDVarType := math_op Z.sub fsub.
Definition op_mul : Z -> NDVarType -> NDVarType -> option NDVarType := math_op Z.mul fmul.
(** [(NDUINT8) val], [(NDUINT16) val]: undefined unless the value fits. *)
Definition f2u (w : Z) (v : Z) : option Z := i ← f2u64 v; if i <? 2 ^ w then Some i else None.
Definition op_div (stale : Z) (v r : NDVarType) : option NDVarType :=
  f1 ← getFloat v;
  f2 ← getFloat r;
  let val := if feq f2 0 then f1 else fdiv f1 f2 in
  let t := m_type v in
  if t =? ND_VT_INT8 then a ← f2u 8 val; Some (new_int8 stale a)
  else if t =? ND_VT_INT16 then a ← f2u 16 val; Some (new_int16 stale a)
  else if t =? ND_VT_INT then a ← f2i val; Some (new_int stale a)
  else if t =? ND_VT_INT64 then a ← f2u64 val; Some (new_int64 a)
  else if t =? ND_VT_FLOAT then Some (new_float stale val)
  else new_copy stale v.
(** [v op= r], with a copy of [v]. *)
Definition op_assign (op : Z -> NDVarType -> NDVarType -> option NDVarType) (stale : Z) (r : NDVarType) : V unit :=
  v ← gets id;
  val ← from (fun _ => new_copy stale v);
  x ← from (fun _ => op stale val r);
  assign x.
(** [v + text]; [text] is never null here. *)
Definition op_add_text (stale : NDVarType) (v : NDVarType) (text : list Z) : option NDVarType :=
  if m_type v =? ND_VT_STRING then
    s ← text_of (m_data v);
    if zlen s + zlen text =? 0 then new_text stale (Some [])
    else match malloc (zlen s + zlen text + 1) with
         | None => new_text stale (Some [])
         | Some _ => Some (mk_var ND_VT_STRING (StrPtr (s ++ text)))
         end
  else new_text stale (Some text).
Definition op_assign_text (stale : Z) (stale' : NDVarType) (text : list Z) : V unit :=
  v ← gets id;
  val ← from (fun _ => new_copy stale v);
  x ← from (fun _ => op_add_text stale' val text);
  assign x.

(** Comparisons are comparisons of the words. *)
Definition compare_vars (cmp : Z -> Z -> bool) (v r : NDVarType) : option bool :=
  a ← i64_val (m_data v); b ← i64_val (m_data r); Some (cmp a b).
Definition op_lt : NDVarType -> NDVarType -> option bool := compare_vars Z.ltb.
Definition op_gt : NDVarType -> NDVarType -> option bool := compare_vars Z.gtb.
Definition op_eq : NDVarType -> NDVarType -> option bool := compare_vars Z.eqb.
Definition op_ge : NDVarType -> NDVarType -> option bool := compare_vars Z.geb.
Definition op_le : NDVarType -> NDVarType -> option bool := compare_vars Z.leb.
Definition op_ne : NDVarType -> NDVarType -> option bool := compare_vars (fun a b => negb (a =? b)).

(** ** Variables in streams (nd_protoStream.cpp) *)

Definition WriteVar {HW : WriteHook} (value : NDVarType) : W Z :=
  let t := m_type value in
  if t =? ND_VT_INT then a ← from (fun _ => getInt value); WriteInt a
  else if t =? ND_VT_FLOAT then a ← from (fun _ => getFloat value); WriteFloat a
  else if t =? ND_VT_STRING then s ← from (fun _ => getText value); WriteText s
  else if t =? ND_VT_INT8 then a ← from (fun _ => getInt8 value); Write8 a
  else if t =? ND_VT_INT16 then a ← from (fun _ => getInt16 value); Write16 a
  else if t =? ND_VT_INT64 then a ← from (fun _ => getInt64 value); Write64 a
  else if t =? ND_VT_BINARY then
    b ← from (fun _ => getBin value);
    n ← from (fun _ => getBinSize value);
    WriteBin (default [] b) n
  else mret (-1).

(** The C string at the beginning of a buffer. *)
Fixpoint buffer_text (b : mem) : list Z :=
  match b with [] => [] | c :: b => if c =? 0 then [] else c :: buffer_text b end.
(** [var = a], when the value has been read. *)
Definition read_var (m : R (Z * Z)) (f : Z -> V unit) (var : NDVarType) : R (Z * NDVarType) :=
  '(r, a) ← m;
  if r =? 0 then '(_, var) ← from (fun _ => f a var); mret (0, var) else mret (-1, var).
(** [buffer] is what the local arrays of 0x10000 characters held. *)
Definition ReadVar (buffer : mem) (var : NDVarType) : R (Z * NDVarType) :=
  marker ← PeekDataType;
  if marker =? ENDSTREAM_MARKER_INT8 then read_var (Read8 0) assign_int8 var
  else if marker =? ENDSTREAM_MARKER_INT16 then read_var (Read16 0) assign_int16 var
  else if marker =? ENDSTREAM_MARKER_INT32 then read_var (ReadInt 0) assign_int var
  else if marker =? ENDSTREAM_MARKER_INT64 then read_var (Read64 0) assign_int64 var
  else if marker =? ENDSTREAM_MARKER_FLOAT then read_var (ReadFloat 0) assign_float var
  else if marker =? ENDSTREAM_MARKER_TEXT then
    '(len, b) ← ReadText buffer (zlen buffer);
    if 0 <? len then
      '(_, var) ← from (fun _ => assign_text (Some (buffer_text b)) var); mret (0, var)
    else mret (-1, var)
  else if marker =? ENDSTREAM_MARKER_BIN then
    '(len, b) ← ReadBin buffer (zlen buffer);
    if 0 <? len then
      '(_, var) ← from (fun _ => initSet_bin b len var); mret (0, var)
    else mret (-1, var)
  else mret (-1, var).
End Var.
