(* ===== verification/VarRound.v ===== *)
(** * VarRound: copying variables and sending them

    [value] is what a variable means.  Assignment copies it, except for blocks; what
    [WriteVar] puts into a stream [ReadVar] gives back, except for empty texts and blocks. *)

From S2P Require Import Prelude Bytes Str Float32 Packet ProtoStream ProtoRound ProtoSafe VarType.

Inductive value :=
  | VInt (i : Z) | VFloat (b : Z) | VText (s : list Z) | VInt8 (i : Z) | VInt16 (i : Z) | VInt64 (i : Z) | VBin (d : list Z).

(** A text or a block that is empty has no pointer; texts have no zeros; numbers are in the range of their
    type. *)
Definition value_of (v : NDVarType) : option value :=
  let t := m_type v in
  if t =? ND_VT_INT then i ← i_val (m_data v); Some (VInt i)
  else if t =? ND_VT_FLOAT then f ← f_val (m_data v); Some (VFloat f)
  else if t =? ND_VT_STRING then s ← text_of (m_data v); Some (VText s)
  else if t =? ND_VT_INT8 then i ← i_val (m_data v); Some (VInt8 (u8 i))
  else if t =? ND_VT_INT16 then i ← i_val (m_data v); Some (VInt16 (u16 i))
  else if t =? ND_VT_INT64 then w ← i64_val (m_data v); Some (VInt64 w)
  else if t =? ND_VT_BINARY then b ← bin_val (m_data v); Some (VBin (default [] b))
  else None.

(** It can be destroyed: a variable of text or block type has a pointer. *)
Definition owned (v : NDVarType) : Prop :=
  m_type v = ND_VT_STRING \/ m_type v = ND_VT_BINARY -> match m_data v with Word w => w = 0 | _ => True end.

Section Vars.
Context `{HM : !Malloc} (Hmalloc : forall n, 0 < n < 2 ^ 20 -> exists m, malloc n = Some m).

Lemma destroy_ok v : owned v -> destroy v = Some (tt, set_data (Word 0) v).
Proof.
  intros Ho. unfold destroy. rewrite bind_gets. unfold id, owned in *.
  destruct ((m_type v =? ND_VT_STRING) || (m_type v =? ND_VT_BINARY)) eqn:E; [|done].
  assert (match m_data v with Word w => w = 0 | _ => True end) as H by (apply Ho; lia).
  unfold mbind, ST_bind, from. destruct (m_data v); [subst|..]; done.
Qed.
Lemma assign_low_ok t a v : owned v -> assign_low t a v = Some (tt, mk_var t (Word (u32 a))).
Proof. intros Ho. unfold assign_low. by rewrite (bind_run _ _ _ _ _ (destroy_ok v Ho)). Qed.
Lemma assign_int64_ok a v : owned v -> assign_int64 a v = Some (tt, mk_var ND_VT_INT64 (Word (u64 a))).
Proof. intros Ho. unfold assign_int64. by rewrite (bind_run _ _ _ _ _ (destroy_ok v Ho)). Qed.

(** The pointer that a text gets. *)
Definition text_data (s : list Z) : ndvtype_data := match s with [] => Word 0 | _ => StrPtr s end.
Lemma text_of_data s : text_of (text_data s) = Some s.
Proof. by destruct s. Qed.
Lemma initSet_text_ok p v : owned v -> zlen (default [] p) < 2 ^ 17 ->
  initSet_text p v = Some (true, mk_var ND_VT_STRING (text_data (default [] p))).
Proof.
  intros Ho Hl. unfold initSet_text. rewrite (bind_run _ _ _ _ _ (destroy_ok v Ho)), bind_modify.
  destruct p as [[|c s]|]; [done| |done]. change (default [] (Some (c :: s))) with (c :: s) in *. destruct (Hmalloc (zlen (c :: s) + 1)) as (m & Em); [zlia|].
  by rewrite Em.
Qed.
Lemma initSet_bin_ok b n v d : owned v -> 0 < n < 2 ^ 17 -> mread b 0 n = Some d ->
  initSet_bin b n v = Some (true, mk_var ND_VT_BINARY (BinPtr d)).
Proof.
  intros Ho Hn Hd. unfold initSet_bin. rewrite (bind_run _ _ _ _ _ (destroy_ok v Ho)), bind_modify.
  replace (0 <? n) with true by lia. destruct (Hmalloc (n + 8 + 4)) as (m & Em); [lia|]. rewrite Em.
  by rewrite (bind_from _ _ _ _ Hd).
Qed.

Lemma low_int i : - 2 ^ 31 <= i < 2 ^ 31 -> s32 (u32 i) = i.
Proof. intros. unfold wraps, wrapu. Z.to_euclidean_division_equations. lia. Qed.
Lemma low_u w i : 0 <= w <= 16 -> wrapu w (s32 (u32 (wrapu w i))) = wrapu w i.
Proof.
  intros Hw. assert (2 ^ w <= 2 ^ 16) by (apply Z.pow_le_mono_r; lia). pose proof (wrapu_range w i ltac:(lia)).
  rewrite low_int by lia. by rewrite wrapu_small.
Qed.
Lemma s32_bounds w : - 2 ^ 31 <= s32 w < 2 ^ 31.
Proof. unfold wraps. Z.to_euclidean_division_equations. lia. Qed.

(** The word of a number is a word, a text is not too long to be allocated. *)
Definition fits (v : NDVarType) : Prop :=
  match m_data v with Word w => 0 <= w < 2 ^ 64 | StrPtr s => zlen s < 2 ^ 17 | BinPtr _ => True end.

Lemma text_fits r s : fits r -> text_of (m_data r) = Some s -> str_val (m_data r) = Some (match m_data r with StrPtr s => Some s | _ => None end) /\
  default [] (match m_data r with StrPtr s => Some s | _ => None end) = s /\ zlen s < 2 ^ 17.
Proof.
  unfold fits, text_of, str_val. destruct (m_data r) as [w|t|d]; cbn; [|by intros ? [= <-]|done].
  destruct (w =? 0); [|done]. cbn. by intros _ [= <-].
Qed.

(** C37: assigning a variable gives the other one the same value, whatever it held before;
    assigning a block follows a null pointer. *)
Theorem var_assign v r x : owned v -> fits r -> value_of r = Some x ->
  match x with
  | VBin _ => assign r v = None
  | _ => exists v', assign r v = Some (tt, v') /\ value_of v' = Some x /\ owned v' /\ fits v'
  end.
Proof.
  intros Ho Hf Hx. unfold assign. set (v0 := set_data (Word 0) v).
  assert (forall A (m : V A), (destroy;; m) v = m v0) as Hd by (intros; by rewrite (bind_run _ _ _ _ _ (destroy_ok v Ho))).
  assert (owned v0) as Ho0 by (by intros _). rewrite Hd. unfold value_of in Hx.
  assert (forall z, 0 <= u32 z < 2 ^ 64) as Hu by (intros z; pose proof (wrapu_range 32 z); lia).
  destruct (m_type r =? ND_VT_INT).
  { destruct (i_val (m_data r)) as [i|] eqn:Ei; [|done]. injection Hx as <-. rewrite (bind_from _ _ _ _ eq_refl). unfold assign_int.
    rewrite assign_low_ok by done. eexists. split; [done|]. cbn. split; [|split; [by intros []|apply Hu]].
    unfold i_val in Ei. destruct (i64_val _); [|done]. injection Ei as <-. by rewrite low_int by apply s32_bounds. }
  destruct (m_type r =? ND_VT_FLOAT).
  { destruct (f_val (m_data r)) as [b|] eqn:Eb; [|done]. injection Hx as <-. rewrite (bind_from _ _ _ _ eq_refl). unfold assign_float.
    rewrite assign_low_ok by done. eexists. split; [done|]. cbn. split; [|split; [by intros []|apply Hu]].
    unfold f_val in Eb. destruct (i64_val _); [|done]. injection Eb as <-. by rewrite !wrapu_wrapu by lia. }
  destruct (m_type r =? ND_VT_STRING).
  { destruct (text_of (m_data r)) as [s|] eqn:Es; [|done]. injection Hx as <-. destruct (text_fits r s Hf Es) as (Ev & Ed & Hl).
    rewrite (bind_from _ _ _ _ Ev). rewrite (bind_run _ _ _ _ _ (initSet_text_ok _ v0 Ho0 ltac:(rewrite Ed; exact Hl))), Ed.
    eexists. split; [done|]. cbn -[text_of]. rewrite text_of_data. split; [done|]. split; [intros _; by destruct s|by destruct s]. }
  destruct (m_type r =? ND_VT_INT8) eqn:E8.
  { destruct (i_val (m_data r)) as [i|] eqn:Ei; [|done]. injection Hx as <-. apply Z.eqb_eq in E8.
    assert (getInt8 r = Some (u8 i)) as Eg by (unfold getInt8, getInt; rewrite E8; cbn; by rewrite Ei).
    rewrite (bind_from _ _ _ _ Eg). unfold assign_int8. rewrite assign_low_ok by done. eexists. split; [done|]. cbn.
    rewrite (low_u 8) by lia. split; [done|]. split; [by intros []|apply Hu]. }
  destruct (m_type r =? ND_VT_INT16) eqn:E16.
  { destruct (i_val (m_data r)) as [i|] eqn:Ei; [|done]. injection Hx as <-. apply Z.eqb_eq in E16.
    assert (getInt16 r = Some (u16 i)) as Eg by (unfold getInt16, getInt; rewrite E16; cbn; by rewrite Ei).
    rewrite (bind_from _ _ _ _ Eg). unfold assign_int16. rewrite assign_low_ok by done. eexists. split; [done|]. cbn.
    rewrite (low_u 16) by lia. split; [done|]. split; [by intros []|apply Hu]. }
  destruct (m_type r =? ND_VT_INT64) eqn:E64.
  { destruct (i64_val (m_data r)) as [w|] eqn:Ew; [|done]. injection Hx as <-. apply Z.eqb_eq in E64.
    assert (getInt64 r = Some w) as Eg by (unfold getInt64; rewrite E64; cbn; by rewrite Ew).
    rewrite (bind_from _ _ _ _ Eg). rewrite assign_int64_ok by done. eexists. split; [done|]. cbn.
    assert (0 <= w < 2 ^ 64) by (unfold fits, i64_val in *; destruct (m_data r); by simplify_eq).
    rewrite wrapu_small by lia. split; [done|]. split; [by intros []|done]. }
  destruct (m_type r =? ND_VT_BINARY); [|done]. destruct (bin_val (m_data r)); [|done]. by injection Hx as <-.
Qed.

(** ** In streams *)

Definition item_of (x : value) : item :=
  match x with
  | VInt i => I32 (u32 i) | VFloat b => IFloat b | VText t => IText t | VInt8 i => I8 i | VInt16 i => I16 i
  | VInt64 i => I64 i | VBin d => IBin d
  end.
Lemma WriteVar_item `{!WriteHook} v x s : value_of v = Some x -> WriteVar v s = write_item (item_of x) s.
Proof.
  unfold value_of, WriteVar. intros Hx.
  destruct (m_type v =? ND_VT_INT) eqn:E1.
  { destruct (i_val _) as [i|] eqn:Ei; [|done]. injection Hx as <-. apply Z.eqb_eq in E1. rewrite (bind_from _ i); [done|].
    unfold getInt. rewrite E1. cbn. exact Ei. }
  destruct (m_type v =? ND_VT_FLOAT) eqn:E2.
  { destruct (f_val _) as [i|] eqn:Ei; [|done]. injection Hx as <-. apply Z.eqb_eq in E2. rewrite (bind_from _ i); [done|].
    unfold getFloat. rewrite E2. cbn. exact Ei. }
  destruct (m_type v =? ND_VT_STRING) eqn:E3.
  { unfold text_of in Hx. destruct (str_val _) as [p|] eqn:Ei; [|done]. injection Hx as <-. apply Z.eqb_eq in E3.
    rewrite (bind_from _ p); [by destruct p|]. unfold getText. by rewrite E3. }
  destruct (m_type v =? ND_VT_INT8) eqn:E4.
  { destruct (i_val _) as [i|] eqn:Ei; [|done]. injection Hx as <-. apply Z.eqb_eq in E4. rewrite (bind_from _ (u8 i)); [done|].
    unfold getInt8, getInt. rewrite E4. cbn. by rewrite Ei. }
  destruct (m_type v =? ND_VT_INT16) eqn:E5.
  { destruct (i_val _) as [i|] eqn:Ei; [|done]. injection Hx as <-. apply Z.eqb_eq in E5. rewrite (bind_from _ (u16 i)); [done|].
    unfold getInt16, getInt. rewrite E5. cbn. by rewrite Ei. }
  destruct (m_type v =? ND_VT_INT64) eqn:E6.
  { destruct (i64_val _) as [i|] eqn:Ei; [|done]. injection Hx as <-. apply Z.eqb_eq in E6. rewrite (bind_from _ i); [done|].
    unfold getInt64. by rewrite E6. }
  destruct (m_type v =? ND_VT_BINARY) eqn:E7; [|done]. destruct (bin_val _) as [p|] eqn:Ei; [|done]. injection Hx as <-.
  assert (getBin v = Some p) as Eg by (unfold getBin; by rewrite E7).
  rewrite (bind_from _ _ _ _ Eg), (bind_from _ (zlen (default [] p))); [done|]. unfold getBinSize. rewrite Eg. by destruct p.
Qed.

(** Peeking leaves the position where it is. *)
Lemma peek_ok t sz l s : remains (marker t sz :: l) s -> 0 <= t < 11 -> 0 <= sz < 16 ->
  PeekDataType s = Some (t, set_struck false s).
Proof.
  intros Hr Ht Hs. unfold PeekDataType. rewrite bind_gets, bind_modify. apply (remains_struck false) in Hr.
  rewrite (bind_run _ _ _ _ _ (type_size_ok _ _ _ _ Hr Ht Hs)), bind_modify. by destruct s.
Qed.
Lemma item_marker it : item_ok it -> is_end it = false ->
  exists sz d, encode it = marker (item_type it) sz :: d /\ 0 <= sz < 16.
Proof.
  intros Hok He. set (s := NDProtoReadStream_Init (encode it) 0 (zlen (encode it))).
  destruct it as [a|a|a|a|a|a|t|d|a|a|]; try done; cbn [encode item_type].
  1-4: rewrite enc_num_size; (eexists _, _; split; [done|]; by_size; lia).
  1-2: case_match; eexists _, _; (split; [done|]; lia).
  1-2: case_match; eexists _, _; (split; [done|]; lia).
  1-2: eexists _, _; (split; [done|]; lia).
Qed.
Lemma buffer_text_app t r : Forall (fun c => c <> 0) t -> buffer_text (t ++ 0 :: r) = t.
Proof. induction 1 as [|c t Hc _ IH]; [done|]. cbn. rewrite IH. by destruct (Z.eqb_spec c 0). Qed.

Lemma read_var_ok (m : R (Z * Z)) f a s s' var var' : m s = Some ((0, a), s') -> f a var = Some (tt, var') ->
  read_var m f var s = Some ((0, var'), s').
Proof. intros E1 E2. unfold read_var. by rewrite (bind_run _ _ _ _ _ E1); cbn [Z.eqb]; rewrite (bind_from _ _ _ _ E2). Qed.

Definition norm_value (x : value) : value :=
  match x with VFloat b => VFloat (if wrapu 31 b =? 0 then 0 else b) | _ => x end.
Definition value_ok (x : value) : Prop := item_ok (item_of x) /\ match x with VInt i => - 2 ^ 31 <= i < 2 ^ 31 | _ => True end.

Lemma number_inv make m s x s' : number make m s = Some (Some x, s') ->
  exists a, m s = Some ((0, a), s') /\ x = make a.
Proof.
  unfold number, mbind, ST_bind, mret, ST_ret. destruct (m s) as [[[r a] s1]|]; [|done]. intros E. exists a.
  cbn in E. destruct (Z.eqb_spec r 0); [subst|done]. by injection E as <- <-.
Qed.
Lemma ReadVar_ok x buffer var l s : value_ok x -> zlen buffer = 0x10000 -> owned var -> remains (encode (item_of x) ++ l) s ->
  exists res, ReadVar buffer var s = Some (res, behind (encode (item_of x)) s) /\
    match x with
    | VText [] | VBin [] => res = (-1, var)
    | _ => res.1 = 0 /\ value_of res.2 = Some (norm_value x) /\ owned res.2
    end.
Proof.
  intros [Hok Hx] Hb Ho Hr. assert (is_end (item_of x) = false) as He by (by destruct x).
  destruct (item_marker _ Hok He) as (sz & d0 & Ed & Hsz).
  assert (PeekDataType s = Some (item_type (item_of x), set_struck false s)) as Ep.
  { eapply peek_ok; [rewrite Ed in Hr; exact Hr|by apply item_type_range|done]. }
  apply (remains_struck false) in Hr. unfold ReadVar. rewrite (bind_run _ _ _ _ _ Ep). clear Ep Ed d0.
  assert (forall it, behind (encode it) (set_struck false s) = behind (encode it) s) as Hbe by done.
  destruct x as [i|b|t|i|i|i|d]; cbn [item_of item_type] in *;
    cbn [Z.eqb Pos.eqb ENDSTREAM_MARKER_INT8 ENDSTREAM_MARKER_INT16 ENDSTREAM_MARKER_INT32 ENDSTREAM_MARKER_INT64 ENDSTREAM_MARKER_FLOAT ENDSTREAM_MARKER_TEXT ENDSTREAM_MARKER_BIN].
  1,2,4,5,6: pose proof (read_item_ok buffer (mk_ip 0 (zrepeat 0 16)) _ l _ Hok Hb eq_refl Hr) as E; cbn [read_item norm is_end] in E.
  - apply number_inv in E as (a & E & Ea). injection Ea as <-. eexists. split.
    + eapply read_var_ok; [unfold ReadInt; by rewrite (bind_run _ _ _ _ _ E)|by apply assign_low_ok].
    + split; [done|]. cbn. rewrite !low_int by (try apply s32_bounds; lia). split; [done|]. by intros [].
  - assert (exists a, ReadFloat 0 (set_struck false s) = Some ((0, a), behind (encode (IFloat b)) s) /\ a = if wrapu 31 b =? 0 then 0 else b) as (a & E' & Ea).
    { destruct (wrapu 31 b =? 0); apply number_inv in E as (a & E & Ea); injection Ea as <-; by eexists. }
    eexists. split; [eapply read_var_ok; [exact E'|by apply assign_low_ok]|]. split; [done|]. cbn. subst a. cbn in Hok.
    split; [|by intros []]. unfold f_val. cbn. rewrite !wrapu_wrapu by lia. destruct (wrapu 31 b =? 0); [done|]. by rewrite wrapu_small by lia.
  - apply number_inv in E as (a & E & Ea). injection Ea as <-. eexists. split; [eapply read_var_ok; [exact E|by apply assign_low_ok]|].
    split; [done|]. cbn in *. split; [|by intros []]. rewrite low_int, wrapu_small by lia. done.
  - apply number_inv in E as (a & E & Ea). injection Ea as <-. eexists. split; [eapply read_var_ok; [exact E|by apply assign_low_ok]|].
    split; [done|]. cbn in *. split; [|by intros []]. rewrite low_int, wrapu_small by lia. done.
  - apply number_inv in E as (a & E & Ea). injection Ea as <-. eexists. split; [eapply read_var_ok; [exact E|by apply assign_int64_ok]|].
    split; [done|]. cbn in *. split; [|by intros []]. rewrite wrapu_small by lia. done.
  - destruct (read_text_ok buffer t l (set_struck false s) Hok) as (b' & E & Eb); [cbn in Hok; lia|done|]. rewrite (bind_run _ _ _ _ _ E).
    destruct t as [|c t0]; [by eexists|]. set (t := c :: t0) in *. replace (0 <? zlen t) with true by (unfold t; zlia).
    assert (buffer_text b' = t) as -> by (subst b'; apply buffer_text_app, Hok).
    assert (assign_text (Some t) var = Some (tt, mk_var ND_VT_STRING (StrPtr t))) as Ea.
    { unfold assign_text. rewrite (bind_run _ _ _ _ _ (destroy_ok var Ho)).
      by rewrite (bind_run _ _ _ _ _ (initSet_text_ok (Some t) (set_data (Word 0) var) ltac:(by intros _) ltac:(cbn in *; lia))). }
    eexists. split; [by rewrite (bind_from _ (tt, mk_var ND_VT_STRING (StrPtr t)) _ _ Ea)|done].
  - destruct (read_bin_ok buffer d l (set_struck false s) Hok) as (b' & E & Eb); [cbn in Hok; lia|done|]. rewrite (bind_run _ _ _ _ _ E).
    destruct d as [|c d0]; [by eexists|]. set (d := c :: d0) in *. assert (0 < zlen d) by (unfold d; zlia). replace (0 <? zlen d) with true by lia.
    assert (initSet_bin b' (zlen d) var = Some (true, mk_var ND_VT_BINARY (BinPtr d))) as Ea.
    { cbn in Hok. apply initSet_bin_ok; [done|lia|]. subst b'. rewrite mread_ok by (rewrite ?zlen_app; zlia).
      rewrite slice_app_l by lia. by rewrite slice_all. }
    eexists. split; [by rewrite (bind_from _ (true, mk_var ND_VT_BINARY (BinPtr d)) _ _ Ea)|done].
Qed.

(** A stream whose position is at the bytes [d] of its block. *)
Lemma remains_at d s : 0 <= r_op s -> r_op s + zlen d <= r_end s -> r_end s <= zlen (r_mem s) -> r_end s < 2 ^ 31 ->
  m_bSkipEndMarker s = false -> m_bSkipEndAllStream s = false -> slice (r_op s) (zlen d) (r_mem s) = d ->
  exists l, remains (d ++ l) s.
Proof.
  intros H0 H1 H2 H3 K1 K2 E. pose proof (zlen_nonneg d). set (k := r_end s - (r_op s + zlen d)).
  exists (slice (r_op s + zlen d) k (r_mem s)). split; [|done|done].
  exists (slice 0 (r_op s) (r_mem s)), (slice (r_end s) (zlen (r_mem s) - r_end s) (r_mem s)).
  rewrite zlen_app, !zlen_slice by (unfold k; lia). split; [|unfold k; lia].
  rewrite <- E at 1. rewrite (slice_take_drop (r_op s) (r_mem s)) at 1 by lia. f_equal.
  rewrite <- !app_assoc. replace (r_end s) with (r_op s + zlen d + k) by (unfold k; lia).
  rewrite <- !slice_split by (unfold k; lia). f_equal. lia.
Qed.

(** C18: for every variable with a value, [WriteVar] appends exactly the encoding of the value
    to a stream with room for it and returns 0, changing nothing else, and [ReadVar] at that place gives
    it back: it returns 0 and the variable it is given has that value (zeros lose their
    sign), with the position behind the bytes; for an empty text or block it returns -1 and keeps
    the variable, although the position has moved.  Without the room -1 is returned, and no more than the first byte
    is left in the stream.  Texts and blocks are shorter than 2^16 bytes ([value_ok]), the stream is the plain
    one ([base_onWriteStream]), and small allocations succeed ([Hmalloc]). *)
Theorem var_stream v x buffer var w : value_of v = Some x -> value_ok x ->
  zlen buffer = 0x10000 -> owned var ->
  0 <= w_start w <= w_op w -> w_op w <= w_end w <= zlen (w_mem w) -> w_end w < 2 ^ 31 ->
  let room := w_end w - w_op w in
  let enc := encode (item_of x) in
  let d := if zlen enc <=? room then enc else stray (item_of x) room in
  exists m, WriteVar (HW := base_onWriteStream) v w =
      Some (if zlen enc <=? room then 0 else -1, mk_ws m (w_start w) (w_op w + zlen d) (w_end w)) /\
    zlen m = zlen (w_mem w) /\ slice 0 (w_op w) m = slice 0 (w_op w) (w_mem w) /\ slice (w_op w) (zlen d) m = d /\
    slice (w_end w) (zlen m - w_end w) m = slice (w_end w) (zlen m - w_end w) (w_mem w) /\
    (zlen enc <= room -> forall s, r_mem s = m -> r_op s = w_op w -> w_op w + zlen enc <= r_end s <= zlen m -> r_end s < 2 ^ 31 ->
      m_bSkipEndMarker s = false -> m_bSkipEndAllStream s = false ->
      exists res, ReadVar buffer var s = Some (res, behind enc s) /\
        match x with
        | VText [] | VBin [] => res = (-1, var)
        | _ => res.1 = 0 /\ value_of res.2 = Some (norm_value x) /\ owned res.2
        end).
Proof.
  intros Hv Hx Hb Ho H1 H2 H3 room enc d. destruct (write_item_exact _ w (proj1 Hx) H1 H2 H3) as (m & E & Lm & Eh & Ed & Et).
  exists m. rewrite (WriteVar_item v x w Hv). split; [exact E|]. do 4 (split; [done|]).
  intros Hr s Em Eo He H3' K1 K2. fold room enc in Ed. replace (zlen enc <=? room) with true in Ed by lia.
  destruct (remains_at enc s) as (l & Hl); rewrite ?Em, ?Eo; try done; try lia.
  exact (ReadVar_ok x buffer var l s Hx Hb Ho Hl).
Qed.
End Vars.

(** ** Instances *)

Lemma malloc_zero_some n : 0 < n < 2 ^ 20 -> exists m, malloc n = Some m.
Proof. by eexists. Qed.
Definition greeting : NDVarType := mk_var ND_VT_STRING (StrPtr [104; 105]).
Lemma var_assign_witness :
  exists v', assign greeting (mk_var ND_VT_BINARY (BinPtr [1; 2])) = Some (tt, v') /\
    value_of v' = Some (VText [104; 105]) /\ owned v' /\ fits v'.
Proof.
  apply (var_assign malloc_zero_some (mk_var ND_VT_BINARY (BinPtr [1; 2])) greeting (VText [104; 105])).
  - intros _. exact I.
  - reflexivity.
  - reflexivity.
Defined.
Lemma var_stream_witness :
  let enc := encode (IText [104; 105]) in
  let w := mk_ws (zrepeat 0 12) 1 2 11 in
  exists m, WriteVar (HW := base_onWriteStream) greeting w = Some (0, mk_ws m 1 (2 + zlen enc) 11) /\ slice 2 (zlen enc) m = enc /\
    exists res, ReadVar (zrepeat 0 0x10000) new_default (NDProtoReadStream_Init m 2 11) =
        Some (res, behind enc (NDProtoReadStream_Init m 2 11)) /\
      res.1 = 0 /\ value_of res.2 = Some (VText [104; 105]) /\ owned res.2.
Proof.
  intros enc w.
  destruct (var_stream (HM := malloc_zero) malloc_zero_some greeting (VText [104; 105]) (zrepeat 0 0x10000) new_default w)
    as (m & E & L & _ & Ed & _ & Hr).
  - reflexivity.
  - split; [|exact I]. repeat constructor; done.
  - apply zlen_repeat. discriminate.
  - intros _. reflexivity.
  - split; discriminate.
  - split; discriminate.
  - reflexivity.
  - exists m. split; [exact E|]. split; [exact Ed|]. apply Hr; try reflexivity; [discriminate|].
    rewrite L. split; discriminate.
Defined.

(** A negative number is not the same as 64-bit or floating-point number: 2^32 - 1 and 2^32. *)
Example int_is_unsigned :
  let v := new_int 0 (-1) in (getInt v, getInt64 v, getFloat v) = (Some (-1), Some (2 ^ 32 - 1), Some 0x4f800000).
Proof. vm_compute. reflexivity. Qed.
(** [ReadVar] does not know the type of a [double]. *)
Example double_not_read :
  let s := NDProtoReadStream_Init (encode (IDouble 1)) 0 9 in
  ReadVar [] new_default s = Some ((-1, new_default), s).
Proof. reflexivity. Qed.
