(* ===== verification/ProtoReads.v ===== *)
(** * ProtoReads: any sequence of reads

    What a program may do with a message it does not trust: call the reading functions in
    any order, whatever the bytes are.  Two calls have no defined result:
    [ReadText] of an empty text into a buffer of size 0, and [PeekDataType] (which
    [ReadVar] begins with) at the end of a structure. *)

From S2P Require Import Prelude Bytes Packet ProtoStream ProtoRound ProtoSafe VarType VarRound.

Section Reads.
Context `{!Malloc}.

Inductive proto_read :=
  | PItem (it : item)            (* the function that reads values like this *)
  | PPeekBin | PPeekType | PMoveEnd | PBegin | PSetSkip (x : bool) | PReset
  | PStream (n : Z) | PLeft
  | PVar (buffer : mem) (var : NDVarType).   (* the local array, and the variable *)
(** [b] is the buffer of the caller. *)
Definition run_read (b : mem) (a0 : ndip_t) (o : proto_read) : R unit :=
  match o with
  | PItem it => read_item b a0 it;; mret tt
  | PPeekBin => PeekBinSize;; mret tt
  | PPeekType => PeekDataType;; mret tt
  | PMoveEnd => TrytoMoveStructEnd;; mret tt
  | PBegin => BeginReadStruct
  | PSetSkip x => SetSkipMarker x;; mret tt
  | PReset => NDProtoReadStream_Reset
  | PStream n => ReadStream b n;; mret tt
  | PLeft => ReadLeftStream b (zlen b);; mret tt
  | PVar buffer var => ReadVar buffer var;; mret tt
  end.
Fixpoint run_reads (b : mem) (a0 : ndip_t) (l : list proto_read) : R unit :=
  match l with [] => mret tt | o :: l => run_read b a0 o;; run_reads b a0 l end.

(** Whether the code defines what the read does. *)
Definition read_defined (b : mem) (o : proto_read) (s : NDProtoReadStream) : bool :=
  match o with
  | PItem (IText _) => negb ((zlen b =? 0) && empty_text_next s)
  | PPeekType | PVar _ _ => negb (struct_end_next s)
  | _ => true
  end.
Fixpoint reads_defined (b : mem) (a0 : ndip_t) (l : list proto_read) (s : NDProtoReadStream) : bool :=
  match l with
  | [] => true
  | o :: l => read_defined b o s &&
      match run_read b a0 o s with Some (_, s') => reads_defined b a0 l s' | None => true end
  end.

(** What the caller answers for: [ReadStream] has no argument for the size of its buffer,
    the local array of [ReadVar] has 0x10000 characters, and a variable that holds a text or a
    block has its pointer. *)
Definition read_ok (b : mem) (o : proto_read) : Prop :=
  match o with
  | PStream n => 0 <= n <= zlen b
  | PVar buffer var => zlen buffer = 0x10000 /\ owned var
  | _ => True
  end.

(** ** Single reads *)

Lemma read_item_runs b a0 it s : rs_ok s -> r_op s <= r_end s -> read_defined b (PItem it) s = true -> zlen (ip6 a0) = 16 ->
  runs (read_item b a0 it) s (fun _ s' => step_to s s').
Proof.
  intros Hs Hle Hb Ha. pose proof safe_numbers as Hn.
  destruct it; cbn [read_item]; try (by apply (Hn _)); apply runs_bind.
  - eapply runs_mono; [apply ReadText_runs; [done|by apply negb_true_iff]|]. intros [n b'] s1 [S1 _]. by apply runs_ret.
  - eapply runs_mono; [by apply ReadBin_runs|]. intros [n b'] s1 [[S1 _] _]. by apply runs_ret.
  - eapply runs_mono; [by apply ReadIp_runs|]. intros [n a'] s1 [S1 _]. by apply runs_ret.
  - eapply runs_mono; [by apply ReadIp_runs|]. intros [n a'] s1 [S1 _]. by apply runs_ret.
  - pose proof (step_set s (set_struck false) Hs) as S0. exists tt, (set_struck false s). split; [done|].
    apply runs_bind. eapply runs_mono; [apply TrytoMoveStructEnd_runs; [apply S0; done|done]|]. intros x s1 S1.
    apply runs_ret. eapply step_trans; [by apply S0|done].
Qed.

(** An empty text has its terminator stored in a buffer without room for it. *)
Lemma empty_text_undefined a0 t s b : zlen b = 0 -> empty_text_next s = true -> read_item b a0 (IText t) s = None.
Proof.
  intros Hb. unfold empty_text_next. destruct (read_type s) as [[[[ty sz]|] s1]|] eqn:E; [|done..].
  intros [Ht Hz]%andb_true_iff. cbn [read_item]. unfold ReadText.
  assert (b = []) as -> by (by apply zlen_0_nil). apply Z.eqb_eq in Ht as ->, Hz as ->.
  unfold mbind at 1, ST_bind at 1. by rewrite (bind_run _ _ _ _ _ E).
Qed.

Lemma read_var_runs m f var s : safe m -> rs_ok s -> (forall a, exists var', f a var = Some (tt, var')) ->
  runs (read_var m f var) s (fun _ s' => step_to s s').
Proof.
  intros Hm Hs Hf. apply runs_bind. eapply runs_mono; [by apply Hm|]. intros [r a] s1 S1. cbn in S1.
  destruct (r =? 0); [|by apply runs_ret]. destruct (Hf a) as (var' & E). apply runs_from. exists (tt, var'). split; [done|by apply runs_ret].
Qed.

(** Whether or not [malloc] gives memory. *)
Lemma initSet_text_any p v : owned v -> exists r, initSet_text p v = Some r.
Proof.
  intros Ho. unfold initSet_text. rewrite (bind_run _ _ _ _ _ (destroy_ok v Ho)), bind_modify.
  destruct p as [[|c t]|]; [by eexists| |by eexists]. destruct (malloc _); by eexists.
Qed.
Lemma assign_text_any p v : owned v -> exists v', assign_text p v = Some (tt, v').
Proof.
  intros Ho. unfold assign_text. rewrite (bind_run _ _ _ _ _ (destroy_ok v Ho)).
  destruct (initSet_text_any p (set_data (Word 0) v)) as ([r v'] & E); [by intros _|]. rewrite (bind_run _ _ _ _ _ E). by eexists.
Qed.
Lemma initSet_bin_any b n v : owned v -> n <= zlen b -> exists r, initSet_bin b n v = Some r.
Proof.
  intros Ho Hn. unfold initSet_bin. rewrite (bind_run _ _ _ _ _ (destroy_ok v Ho)), bind_modify.
  destruct (Z.ltb_spec 0 n); [|by eexists]. destruct (malloc _); [|by eexists].
  rewrite (bind_from _ (slice 0 n b)) by (apply mread_ok; lia). by eexists.
Qed.

Lemma safe_ReadInt a : safe (ReadInt a).
Proof. apply safe_bind; [unfold Read32; auto 8 with proto|]. intros [r x]. apply safe_ret. Qed.
#[local] Hint Resolve safe_ReadInt : proto.

Lemma ReadVar_runs buffer var s : rs_ok s -> r_op s <= r_end s -> read_ok [] (PVar buffer var) ->
  if struct_end_next s then ReadVar buffer var s = None else runs (ReadVar buffer var) s (fun _ s' => step_to s s').
Proof.
  intros Hs Hle [Hb Ho]. pose proof (PeekDataType_runs s Hs Hle) as Hp. unfold ReadVar. destruct (struct_end_next s).
  { unfold mbind, ST_bind. by rewrite Hp. }
  apply runs_bind. eapply runs_mono; [exact Hp|]. intros t s1 S1. cbn in S1.
  pose proof (step_in _ _ S1) as Hs1.
  assert (forall (m : R (Z * Z)) f, safe m -> (forall a, exists var', f a var = Some (tt, var')) ->
    runs (read_var m f var) s1 (fun _ s' => step_to s s')) as Hnum.
  { intros m f Hm Hf. eapply runs_mono; [by apply read_var_runs|]. intros x s2. by apply step_trans. }
  repeat match goal with |- runs (if ?c then _ else _) _ _ => destruct c end; try (by apply runs_ret).
  1-5: apply Hnum; [unfold Read8, Read16, Read32, Read64, ReadFloat; auto 8 with proto|
    intros a; eexists; unfold assign_int8, assign_int16, assign_int, assign_float;
    first [by apply assign_low_ok|by apply assign_int64_ok]].
  - apply runs_bind. eapply runs_mono; [apply ReadText_runs; [done|rewrite Hb; done]|]. intros [n b'] s2 [S2 _].
    assert (step_to s s2) by (by eapply step_trans). destruct (0 <? n); [|by apply runs_ret].
    destruct (assign_text_any (Some (buffer_text b')) var Ho) as (v' & E). apply runs_from. eexists. split; [exact E|by apply runs_ret].
  - apply runs_bind. eapply runs_mono; [by apply ReadBin_runs|]. intros [n b'] s2 [[S2 L] Hn]. cbn [fst snd] in *.
    assert (step_to s s2) by (by eapply step_trans). destruct (0 <? n); [|by apply runs_ret].
    destruct (initSet_bin_any b' n var Ho ltac:(lia)) as ([r v'] & E). apply runs_from. eexists. split; [exact E|by apply runs_ret].
Qed.

(** ** Sequences *)

(** The stream is the same and the position inside it. *)
Definition inside (s s' : NDProtoReadStream) : Prop :=
  rs_ok s' /\ same_stream s s' /\ r_start s' <= r_op s' <= r_end s'.
Lemma step_inside s s' : r_start s <= r_op s <= r_end s -> step_to s s' -> inside s s'.
Proof.
  intros Hle (O & Es & H1 & H2). split; [done|]. split; [done|]. pose proof Es as (_ & -> & _). split; [lia|]. apply H2. lia.
Qed.
Lemma inside_trans s1 s2 s3 : inside s1 s2 -> inside s2 s3 -> inside s1 s3.
Proof. intros (_ & (E1 & E2 & E3) & _) (O & (F1 & F2 & F3) & L). split; [done|]. split; [|done]. unfold same_stream. by rewrite F1, F2, F3. Qed.

Lemma run_read_exact b a0 o s : rs_ok s -> r_start s <= r_op s <= r_end s -> zlen (ip6 a0) = 16 -> read_ok b o ->
  if read_defined b o s then exists s', run_read b a0 o s = Some (tt, s') /\ inside s s' else run_read b a0 o s = None.
Proof.
  intros Hs Hle Ha Ho.
  assert (forall A (m : R A), runs m s (fun _ s' => step_to s s') -> exists s', (m;; mret tt) s = Some (tt, s') /\ inside s s') as Hrun.
  { intros A m (x & s' & E & St). exists s'. rewrite (bind_run _ _ _ _ _ E). split; [done|by apply step_inside]. }
  assert (forall A (m : R A), m s = None -> (m;; mret tt) s = None) as Hnone by (intros A m E; unfold mbind, ST_bind; by rewrite E).
  destruct o as [it| | | | |x| |n| |buffer var]; cbn [run_read].
  - destruct (read_defined b (PItem it) s) eqn:Hd; [apply Hrun, read_item_runs; done || lia|].
    destruct it; try done. apply negb_false_iff, andb_true_iff in Hd as [Hb He]. apply Hnone, empty_text_undefined; [lia|done].
  - apply Hrun, PeekBinSize_runs; done || lia.
  - cbn. pose proof (PeekDataType_runs s Hs ltac:(lia)) as Hp. destruct (struct_end_next s); [by apply Hnone|by apply Hrun].
  - apply Hrun, TrytoMoveStructEnd_runs; done || lia.
  - exists (set_struck false s). split; [done|]. by apply step_inside, step_set.
  - apply Hrun. exists (m_bSkipEndAllStream s), (set_skip_all x s). split; [done|]. by apply step_set.
  - exists (set_r_op (r_start s) s). split; [done|]. destruct Hs. repeat split; cbn; lia || done.
  - apply Hrun. eapply runs_mono; [apply ReadStream_runs; done || lia|]. by intros [? ?] ? [].
  - apply Hrun, ReadLeftStream_runs; done || lia.
  - cbn. pose proof (ReadVar_runs buffer var s Hs ltac:(lia) Ho) as Hv. destruct (struct_end_next s); [by apply Hnone|by apply Hrun].
Qed.

End Reads.

(** ** Instances *)

Definition junk : list Z := [0x72; 0xff; 0xff; 3; 0x8f; 0; 200; 0xb0; 0xff; 0x94; 1].
Definition junk_reads : list proto_read :=
  [PMoveEnd; PItem (IText []); PItem (IBin []); PPeekBin; PPeekType; PItem (IIp []); PLeft].

(** The two reads that are not defined. *)
Example undefined_reads (s := NDProtoReadStream_Init [0x70; 0xff] 0 2) :
  run_reads (H := malloc_zero) [] (mk_ip 0 []) [PItem (IText [])] s = None /\
  run_reads (H := malloc_zero) [0] (mk_ip 0 []) [PItem (IText []); PPeekType] s = None.
Proof. split; reflexivity. Qed.
